(* ===== verification/_CoqProject ===== *)
-Q . S2P
Prelude.v
Codes.v
Effects.v
Codec.v
FixedHeader.v
Properties.v
PropertiesFacts.v
Packets.v
Wire.v
WireFacts.v
Typing.v
Vectors.v
ConnectVectors.v
PublishVectors.v
SubscribeVectors.v
Conformance.v
Mempool.v
PooledEncode.v
Topics.v
Aliases.v
TopicsFacts.v
TopicsInvariant.v
TopicsMatch.v
TopicsShared.v
TopicsRetained.v
Inflight.v
InflightFacts.v
System.v
Clients.v
ClientIO.v
ClientIOFacts.v
ClientFacts.v
Publish.v
PublishFacts.v
Delivery.v
Handshakes.v
Server.v
Sessions.v
SysTopics.v
Frames.v
ServerFacts.v
Broker.v
Connection.v
ServerDelivery.v
Qos2.v
SysTopicsFacts.v
Json.v
JsonCodec.v
Storage.v
HookChain.v
HookFacts.v
Stores.v
Debug.v
DebugFacts.v
Badger.v
Bolt.v
Pebble.v
Redis.v
StoreSpec.v
StoreScan.v
StoreRefines.v
StoreHooks.v
Restore.v
RestoreFacts.v
Ledger.v
LedgerFacts.v
Listeners.v
Configuration.v
ConfigurationFacts.v
WsConn.v
AcceptLoop.v
Lifecycle.v
LifecycleFacts.v
Shutdown.v
Startup.v
Takeover.v
Lives.v
Running.v
Examples.v
Commands.v
