(* ===== verification/Prelude.v ===== *)
(** * Verification of the mqtt-server broker

    The program (under src/) is an MQTT 3.1.1 and 5 broker in Go. Bytes of a
    connection are cut into packets and decoded (packets/), a packet is handled
    on behalf of its client (clients.go, server.go), handlers consult and change
    the topics index (topics.go) and the in-flight messages and quotas of each
    client (inflight.go), and packets for a client are queued, encoded and
    written to its connection (clients.go). Hooks (hooks.go) observe and may
    veto or rewrite what passes; a ticker runs the expiry tasks. Connections
    come from listeners (listeners/), which a server starts and closes; a
    configuration file (config/) names the listeners and hooks.

    ** Files, and the code they model

    - [Prelude]: byte strings, machine integers, the [result] type, iteration
      order of Go maps (class [RangeOrder]), tactics and shared lemmas.
    - [Codes] (packets/codes.go): reason codes and Go error values.
    - [Effects]: the state and error monad [GoM] of the handlers, its weakest
      precondition [wp], and [keeps], preservation of an invariant with
      termination and absence of panics.
    - [Codec] (packets/codec.go), [FixedHeader] (packets/fixedheader.go),
      [Properties] (packets/properties.go), [Packets] (packets/packets.go): the
      codec, one definition per Go function. [PropertiesFacts]: its theorems.
    - [Wire]: the dispatch on the packet type of [Client.ReadPacket] and
      [Client.WritePacket] and the cutting of a byte stream into packets.
      [WireFacts]: round trip and safety of the whole codec. [Typing]: the
      range of every field of a decoded packet, nested records included.
    - [Vectors], [ConnectVectors], [PublishVectors], [SubscribeVectors]
      (packets/tpackets.go): the test vectors of the repository, case by case,
      and what its tests require of them. [Conformance]: the codec passes them.
    - [Mempool] (mempool/bufpool.go): the two pools on a memory of shared
      buffers, and programs that take, write and return buffers, one operation
      a step. [PooledEncode]: the encoders of packets/ as such programs, and
      that they encode as the definitions of [Packets] do.
    - [Topics] (topics.go): alias tables, subscription maps and the trie of
      particles. The trie is a finite map from the address of a particle (the
      list of its keys) to its contents, so that the pointers to parents are
      the prefixes of an address. [TopicsFacts], [TopicsInvariant],
      [TopicsMatch], [TopicsShared], [TopicsRetained], [Aliases]: its theorems.
    - [Inflight] (inflight.go) and [InflightFacts].
    - [System] (options and capabilities of server.go, system/system.go).
    - [Clients], [ClientIO] (clients.go): a client is a record; a connection is
      the bytes still to be read, those written, the buffer [outbuf], and
      whether it is closed. The outcome of each network write is given by the
      environment. [ClientIOFacts], [ClientFacts]: theorems.
    - [Publish] (server.go, methods on one client), [Server] (server.go, the
      packet handlers and the read loop), [Sessions] (server.go, attaching
      clients, session takeover, inline client, expiry tasks). The server keeps
      its client objects in a store; the map of clients and the handlers refer
      to them by address, so two references to one client alias as in Go.
      [PublishFacts], [ServerFacts]: the invariants and their preservation by
      every handler. [SysTopics] (server.go, publishing the statistics and the
      branches of the event loop). [Frames]: which parts of the server a handler leaves
      alone. [Delivery], [Handshakes], [Broker], [Connection],
      [ServerDelivery], [Qos2], [SysTopicsFacts], [Takeover]: theorems.
    - [Listeners] (listeners/): the interface of a listener as a class with the
      seven listeners as instances, and the set of listeners. [WsConn]
      (listeners/websocket.go): a connection over websocket messages.
      [AcceptLoop]: an accept loop and [Close], in interleaved steps.
    - [Lifecycle] (server.go): a process, that is a server with its hooks,
      listeners, connections and event loop; [AddListener], [Serve], the
      beginning and the end of a connection, [Close]. [LifecycleFacts] (with the
      contract of a listener, class [ListenerLaws]), [Startup], [Shutdown]:
      theorems. [Lives]: which handlers leave the identity of a client and the
      state of its connection alone, and the clients whose connections are
      handled, against the map of clients. [Running]: the process as a step
      relation, its invariant, and a server from start to stop.
    - [HookChain] (hooks.go): the interface of a hook, the hooks of a server and
      the calls of each in turn, over a state of the hooks, of which a hook has
      a part. [HookFacts]: such a chain as the hooks of the handlers. [Debug] (hooks/debug): the logging hook, and [DebugFacts].
    - [Json]: documents of encoding/json, their text and its grammar.
      [JsonCodec]: codecs of Go types, structs as lists of fields. [Storage] (hooks/storage/storage.go): the stored documents.
    - [Stores]: the interfaces of the databases, with their laws, and the
      documents the storage hooks write. [Badger], [Bolt], [Pebble], [Redis]
      (hooks/storage/): the storage hooks, method by method. [StoreSpec]: the
      abstract store, a map from the identity of a document to the document, and
      the contract of a storage hook, class [KeepsStore]. [StoreScan],
      [StoreRefines], [StoreHooks]: the four hooks meet it.
    - [Restore] (server.go, [readStore]): loading a server from its hooks, and
      [RestoreFacts], a restart against the contract.
    - [Ledger] (hooks/auth): the rules and decisions of the access ledger and its
      hook. [LedgerFacts]: its theorems.
    - [Configuration] (config/config.go): the hooks, listeners and logger of a
      configuration file. [ConfigurationFacts]: the access it grants.
    - [Examples] (examples/server_auth, server_demo, hooks, paho.testing): the
      hooks that example programs bring themselves, and what they do.
      [Commands] (cmd/, examples/): the programs, each as its options, hooks and
      listeners, with what it does while it serves, and the statistics of
      examples/race-repro/server, and that the programs start and stop.

    ** What the theorems show

    - Codec: every well-formed packet of every type is read back from its
      encoding ([packet_roundtrip]), reading arbitrary bytes returns, with one
      family of inputs excepted on which the code panics ([read_packet_safe],
      [SubscribeDecode_truncated_panics]); the same for the parts. The model
      does on every test vector of the repository what its tests require
      ([vectors_conform]). Encoders that share the pool of buffers and run at
      the same time encode as if alone ([encoders_isolated]).
    - Topics: [Subscribers] and [Messages] compute exactly what the matching
      rules of MQTT 4.7 say, but for the cases the code misses or adds, which the
      statements name and the lemmas [plus_hash_missed], [inline_parent_missed],
      [retained_parent_missed], [retained_dollar_leaked] and
      [shared_wildcard_dollar] show on inputs; updates change one subscription;
      the trie stays closed, and its leaves hold subscriptions or are the paths
      of topics that had a retained message ([index_invariant]; such a path stays
      when the message expires, [expired_topic_stays], and retaining under an
      empty topic name would leave the invariant, [empty_topic_dead_leaf]); one
      member of each share group is selected; aliases resolve, but for one whose
      first message was lost ([alias_roundtrip], [lost_introduction]).
    - Flow control: ids and quotas keep their bounds, a packet id is given only
      when free, parked messages are resumed until the quota is used, and
      every acknowledgement has its effect on the entry, both quotas and the
      gauge stated ([acks_complete]; a refused Pubrec gives no quota back). A
      session that is taken over moves as a whole, or is dropped as a whole
      ([session_takeover]).
    - Broker: in every reachable state every action returns and keeps the
      invariant ([broker_safe]); a publish reaches exactly its subscribers,
      with its payload, topic, properties and times
      ([publishToSubscribers_delivers] and, for one of them,
      [publishToClient_delivery]); a qos 2 message is passed on once
      ([qos2_exactly_once]); the bytes written are the encodings, in order
      ([WritePacket_stream]; the hooks are told of no bytes for a packet written
      directly, [direct_write_reports_nothing]); a connection is handled to its
      end whatever its peer sends ([connection_terminates]), its packets being
      typed ([read_packet_typed]); each of the twenty statistics is retained under its
      topic, with its value ([sys_topics_published]).
    - Hooks: a chain of well-behaved hooks meets the assumptions of the broker's
      theorems, and each of its calls consults exactly the hooks that provide the
      method, in order, as the relation [consult] says ([chain_discharges]);
      access needs one accepting hook ([access_any]), and hooks are called in
      order and stopped once ([hooks_lifecycle]). The ledger decides by the first rule that applies
      ([ledger_decides]), matches topics by their leading levels
      ([MatchTopic_exact]) and survives its JSON text ([ledger_roundtrip]); with
      the hooks of a configuration file the access is what the file says
      ([configured_access]). The debug hook changes no answer but that of
      [Provides] ([debug_transparent]; so a server without a store resets its
      counters at the start, [debug_resets_gauges]) and logs no password unasked
      ([passwords_hidden]).
    - Lifecycle: [Serve] starts what is configured ([serve_starts]); whatever
      the goroutines of the process then do, every step returns, and [Close]
      returns with every connection, listener and hook ended
      ([server_runs_and_stops], of which [server_shutdown] is the last part);
      the programs of the repository that admit every client, or by the ledger
      of examples/auth/basic, are such servers ([shipped_programs_run]). An accept
      loop ends when its listener is closed, in every interleaving
      ([accept_loop_shutdown]); a websocket connection carries the stream of
      bytes that was written ([websocket_stream]). The lemmas [Close_waits],
      [Close_passive_waits], [late_end_forgets], [established_after_close] and
      [accepted_and_dropped] are executions in which the shutdown fails. The
      first three show that what [server_runs_and_stops] assumes is needed:
      connections come from listeners of the set, clients are disconnected
      actively, and no session expires while its connection is still handled.
      [server_auth_decides], [msg_OnConnect_forgets], [msg_hook_loses_sessions]
      and [topicParams_sound] are about the hooks of the examples.
    - Storage: documents survive their encoding ([documents_roundtrip]), the
      scans of the databases agree ([scans_agree]), every storage hook
      implements the abstract store ([stores_refine]), and a server that starts
      on one has exactly its unexpired sessions, their subscriptions and the
      retained messages again, and one in-flight message for every packet id
      stored ([restart_restores]): all of them when the documents carry their ids
      ([inflight_kept]), one of each client when they do not, as with bolt and
      redis ([inflight_lost]).

    ** Conventions, bounds and assumptions

    - Integers are [Z]; where Go's width matters ([uint16] ids and keepalives,
      [int32] quotas, [int64] counters) the wrap-around is written out.
    - Loops that are not structural take fuel, and [Diverge] is the result when
      it is used up. The amounts are: the length of the buffer for the decoders
      of filters and properties (each round consumes a byte), ten rounds for
      writing a variable byte integer (seven bits each), one more than the
      length of a topic or filter for walks along it (a level needs a
      separator), the height of the trie for the scan of retained messages, the
      length of an address for trimming, twice the largest id and four for the
      search of a packet id (at most one turn around), the in-flight entries and
      one for resuming, the bytes to be read and one for the read loop, twice
      the length of a JSON text and two (a value takes a byte and two calls),
      one more than the bytes asked for in a read of a websocket message (a read
      without error gives a byte), the messages and two for filling a buffer
      from them. The theorems prove results, so that the fuel suffices.
    - Go maps are iterated in an unspecified order: definitions take it from a
      [RangeOrder] instance and theorems hold for every instance.
    - A critical section of the code is one step; a handler runs as one step of
      the broker. Interleavings of handlers are sequences of steps, those inside
      a handler are not modelled, but for two: the buffer operations of
      encoders ([PooledEncode]) and the accept loop with [Close]
      ([AcceptLoop]).
    - Clock, network, fresh identifiers, options and hooks are the record [Env],
      an argument of the handlers; [env_ok] collects what is assumed of them:
      a write accepts at most the bytes it was given, limits have the widths of
      their Go types, hooks keep packets well-formed, and an error of [OnPublish]
      that wraps a reason code is that code (with another one [processPublish]
      panics, server.go:958).
    - The hooks in [Env] answer from a state of theirs that is fixed for a step
      ([chain_hooks] takes it as an argument). How each call of the chain changes
      that state is what [HookChain] models and [chain_discharges] states; a
      process carries the state from step to step: the start and the stop of the
      hooks, the reading of what they stored and the events that a step reported
      to them run on it ([on_hooks], [on_server]).

    ** Not modelled

    The example programs that drive a broker over a client library that is not
    in the repository (examples/client, client-sender, race-repro/client); the
    main functions of examples/server_auth, server_demo, hooks and paho.testing,
    whose hooks call the server or change the client while the chain of hooks
    runs, which the hooks of [Env] cannot do (their methods are modelled, the
    calls as operations on the server); the statistics page of the HTTP listener
    (jsonHandler, an indented print of the counters); loggers other than that
    of the debug hook, and the garbage collection ticker of badger. Sockets,
    the HTTP server, the websocket library, databases, and the yaml and json
    decoders of the configuration are outside the repository: they are
    parameters, where something is assumed of them with the laws of a class. *)
From Stdlib Require Export ZArith Lia Bool.
From stdpp Require Export base tactics list gmap strings sorting.
From coqutil Require Export Datatypes.RecordSetters.
Export TriangleBracketNotations.

#[export] Set Primitive Projections.
#[global] Open Scope Z_scope.

#[global] Arguments constant {E} newValue _ /.
#[global] Arguments Nat.ltb : simpl never.
#[global] Arguments Nat.leb : simpl never.
#[global] Arguments Z.land : simpl never.
#[global] Arguments Z.lor : simpl never.
#[global] Arguments Z.shiftl : simpl never.
#[global] Arguments Z.shiftr : simpl never.
#[global] Arguments Z.div : simpl never.
#[global] Arguments Z.modulo : simpl never.
#[global] Arguments Z.rem : simpl never.
#[global] Arguments Z.quot : simpl never.

(** ** Go integers

    Every integer of the program is a [Z]; the conversions that Go writes
    [uint8(x)], [uint16(x)], ... wrap around at the width. *)

Definition to_u8 (z : Z) : Z := z mod 2 ^ 8.
Definition to_u16 (z : Z) : Z := z mod 2 ^ 16.
Definition to_u32 (z : Z) : Z := z mod 2 ^ 32.
Definition to_i32 (z : Z) : Z := (z + 2 ^ 31) mod 2 ^ 32 - 2 ^ 31.
Definition to_i64 (z : Z) : Z := (z + 2 ^ 63) mod 2 ^ 64 - 2 ^ 63.

Definition is_u8 (z : Z) : Prop := 0 <= z < 256.
Definition is_u16 (z : Z) : Prop := 0 <= z < 65536.
Definition is_u32 (z : Z) : Prop := 0 <= z < 4294967296.
Definition is_i64 (z : Z) : Prop := - 2 ^ 63 <= z < 2 ^ 63.

#[export] Instance is_u8_dec z : Decision (is_u8 z).
Proof. unfold is_u8. apply _. Defined.
#[export] Instance is_u16_dec z : Decision (is_u16 z).
Proof. unfold is_u16. apply _. Defined.
#[export] Instance is_u32_dec z : Decision (is_u32 z).
Proof. unfold is_u32. apply _. Defined.

(** ** Bytes and strings

    A [[]byte] and a Go [string] are both finite sequences of bytes; nil and
    empty slices behave alike in every operation modelled here. *)

Abbreviation bytes := (list Z) (only parsing).
Abbreviation gostr := (list Z) (only parsing).

Definition bytes_ok (b : bytes) : Prop := Forall is_u8 b.

Fixpoint of_string (s : string) : gostr :=
  match s with
  | EmptyString => []
  | String a s' => Z.of_N (Ascii.N_of_ascii a) :: of_string s'
  end.

Declare Scope go_scope.
Delimit Scope go_scope with go.
Notation "! s" := (of_string s%string) (at level 1, s at level 0, format "! s") : go_scope.
#[global] Open Scope go_scope.

(** [s == t] on strings. *)
Definition str_eqb (s t : gostr) : bool := bool_decide (s = t).

(** [strings.ContainsRune(s, c)] for an ASCII rune. *)
Definition contains_byte (c : Z) (s : gostr) : bool := existsb (Z.eqb c) s.

(** [strings.ContainsAny(s, chars)] for ASCII [chars]. *)
Definition contains_any (s chars : gostr) : bool :=
  existsb (fun c => contains_byte c s) chars.

(** [strings.IndexRune(s, c)] / [bytes.IndexByte(s, c)]: [None] stands for -1. *)
Fixpoint index_byte (c : Z) (s : gostr) : option nat :=
  match s with
  | [] => None
  | x :: s' => if x =? c then Some O else S <$> index_byte c s'
  end.

(** ** Results of fallible Go code

    [Ok] and [Err] are the two ways a function returns; [Panic] is a run-time
    panic (an index or a slice bound out of range); [Diverge] is reached only
    when a loop has consumed the fuel of its model. *)

Inductive result (E A : Type) : Type :=
| Ok (a : A)
| Err (e : E)
| Panic
| Diverge.
Arguments Ok {E A} a.
Arguments Err {E A} e.
Arguments Panic {E A}.
Arguments Diverge {E A}.

#[export] Instance result_ret E : MRet (result E) := fun A a => Ok a.
#[export] Instance result_bind E : MBind (result E) := fun A B k r =>
  match r with
  | Ok a => k a
  | Err e => Err e
  | Panic => Panic
  | Diverge => Diverge
  end.

#[export] Instance Ok_inj E A : Inj (=) (=) (@Ok E A).
Proof. by intros a b [= ->]. Qed.

(** [if err != nil { return f(err) }] *)
Definition map_err {E A} (f : E -> E) (r : result E A) : result E A :=
  match r with
  | Err e => Err (f e)
  | _ => r
  end.

Definition is_ok {E A} (r : result E A) : bool :=
  match r with Ok _ => true | _ => false end.

(** A call that returns, with a value or with an error. *)
Definition returns {E A} (r : result E A) : Prop :=
  (exists a, r = Ok a) \/ (exists e, r = Err e).

(** [b[lo:]]: panics when [lo] is past the end. *)
Definition slice_from {E} (b : bytes) (lo : nat) : result E bytes :=
  if (length b <? lo)%nat then Panic else Ok (drop lo b).

(** [b[i]]: panics when [i] is out of range. *)
Definition index_at {E} (b : bytes) (i : nat) : result E Z :=
  match b !! i with
  | Some x => Ok x
  | None => Panic
  end.

(** [b[lo:hi]] for bounds already checked by the caller. *)
Definition sub_slice (b : bytes) (lo hi : nat) : bytes := take (hi - lo) (drop lo b).

(** ** Shared automation *)

Create HintDb go discriminated.
Create Rewrite HintDb go_rw.

(** Splits every [if] of the goal and turns boolean tests into propositions. *)
Ltac bool_to_prop :=
  repeat match goal with
  | H : _ && _ = true |- _ => apply andb_true_iff in H; destruct H
  | H : _ || _ = false |- _ => apply orb_false_iff in H; destruct H
  | H : negb _ = true |- _ => apply negb_true_iff in H
  | H : negb _ = false |- _ => apply negb_false_iff in H
  | H : (_ <? _) = true |- _ => apply Z.ltb_lt in H
  | H : (_ <? _) = false |- _ => apply Z.ltb_ge in H
  | H : (_ <=? _) = true |- _ => apply Z.leb_le in H
  | H : (_ <=? _) = false |- _ => apply Z.leb_gt in H
  | H : (_ =? _) = true |- _ => apply Z.eqb_eq in H
  | H : (_ =? _) = false |- _ => apply Z.eqb_neq in H
  | H : (_ <? _)%nat = true |- _ => apply Nat.ltb_lt in H
  | H : (_ <? _)%nat = false |- _ => apply Nat.ltb_ge in H
  | H : (_ <=? _)%nat = true |- _ => apply Nat.leb_le in H
  | H : (_ <=? _)%nat = false |- _ => apply Nat.leb_gt in H
  | H : (_ =? _)%nat = true |- _ => apply Nat.eqb_eq in H
  | H : (_ =? _)%nat = false |- _ => apply Nat.eqb_neq in H
  | H : bool_decide _ = true |- _ => apply bool_decide_eq_true in H
  | H : bool_decide _ = false |- _ => apply bool_decide_eq_false in H
  end.

Ltac split_ifs :=
  repeat (match goal with
  | |- context [if ?b then _ else _] =>
      lazymatch b with
      | context [if _ then _ else _] => fail
      | _ => let H := fresh "Hif" in destruct b eqn:H
      end
  end; bool_to_prop).

(** Runs the [result] monad where the first action is known. *)
Ltac mred := cbn [mbind result_bind map_err].

(** Inverts [Ok _ = Ok _] and discards the impossible results. *)
Ltac inv_result :=
  repeat match goal with
  | H : Ok _ = Ok _ |- _ => injection H as H
  | H : Err _ = Err _ |- _ => injection H as H
  | H : Ok _ = _ |- _ => discriminate H
  | H : Err _ = _ |- _ => discriminate H
  | H : Panic = _ |- _ => discriminate H
  | H : Diverge = _ |- _ => discriminate H
  end.

(** ** Arithmetic of the wrap-around conversions *)

Lemma to_u8_id z : is_u8 z -> to_u8 z = z.
Proof. apply Z.mod_small. Qed.

Lemma to_u16_id z : is_u16 z -> to_u16 z = z.
Proof. apply Z.mod_small. Qed.

Lemma to_u32_id z : is_u32 z -> to_u32 z = z.
Proof. apply Z.mod_small. Qed.

Lemma to_u8_range z : is_u8 (to_u8 z).
Proof. apply Z.mod_pos_bound. lia. Qed.

Lemma to_u16_range z : is_u16 (to_u16 z).
Proof. apply Z.mod_pos_bound. lia. Qed.

Lemma to_u32_range z : is_u32 (to_u32 z).
Proof. apply Z.mod_pos_bound. lia. Qed.

#[export] Hint Resolve to_u8_range to_u16_range to_u32_range : go.
#[export] Hint Rewrite to_u8_id to_u16_id to_u32_id using (unfold is_u8, is_u16, is_u32 in *; lia) : go_rw.

(** ** Lists *)

Lemma drop_app_eq {A} (l k : list A) n : n = length l -> drop n (l ++ k) = k.
Proof. intros ->. by rewrite drop_app_length. Qed.

Lemma take_app_eq {A} (l k : list A) n : n = length l -> take n (l ++ k) = l.
Proof. intros ->. by rewrite take_app_length. Qed.

Lemma sub_slice_app (pre mid post : bytes) lo hi :
  lo = length pre -> hi = (length pre + length mid)%nat ->
  sub_slice (pre ++ mid ++ post) lo hi = mid.
Proof.
  intros -> ->. unfold sub_slice. rewrite drop_app_length.
  apply take_app_eq. lia.
Qed.

Lemma bytes_ok_app b1 b2 : bytes_ok (b1 ++ b2) <-> bytes_ok b1 /\ bytes_ok b2.
Proof. apply Forall_app. Qed.

Lemma bytes_ok_drop n b : bytes_ok b -> bytes_ok (drop n b).
Proof. apply Forall_drop. Qed.

Lemma bytes_ok_sub_slice b lo hi : bytes_ok b -> bytes_ok (sub_slice b lo hi).
Proof. intros H. apply Forall_take, Forall_drop, H. Qed.

#[export] Hint Resolve bytes_ok_drop bytes_ok_sub_slice : go.

Lemma str_eqb_spec s t : reflect (s = t) (str_eqb s t).
Proof. apply bool_decide_reflect. Qed.

Lemma str_eqb_refl s : str_eqb s s = true.
Proof. by apply bool_decide_eq_true. Qed.

Lemma contains_byte_spec c s : contains_byte c s = true <-> c ∈ s.
Proof.
  unfold contains_byte. rewrite existsb_exists. split.
  - intros (x & Hx & ->%Z.eqb_eq). by apply list_elem_of_In.
  - intros Hc. exists c. split; [by apply list_elem_of_In | apply Z.eqb_refl].
Qed.

(** ** Iterating over Go maps

    [for k, v := range m] visits the entries in an unspecified order; the
    order is a parameter, a permutation of the entries. *)
Class RangeOrder := {
  range : forall {K} {E : EqDecision K} {C : Countable K} {A}, gmap K A -> list (K * A);
  range_perm : forall K (E : EqDecision K) (C : Countable K) A (m : gmap K A), range m ≡ₚ map_to_list m;
}.

#[export] Instance range_ascending : RangeOrder | 100 := {
  range := fun K E C A m => map_to_list m;
  range_perm := fun K E C A m => Permutation_refl _;
}.

Section Range.
Context {RO : RangeOrder} {K : Type} `{Countable K} {A : Type}.

Lemma range_empty : range (∅ : gmap K A) = [].
Proof. apply Permutation_nil_r. rewrite range_perm. by rewrite map_to_list_empty. Qed.

Lemma range_NoDup (m : gmap K A) : NoDup (range m).*1.
Proof. rewrite range_perm. apply NoDup_fst_map_to_list. Qed.

Lemma elem_of_range (m : gmap K A) k v : (k, v) ∈ range m <-> m !! k = Some v.
Proof. rewrite range_perm. apply elem_of_map_to_list. Qed.
End Range.

(** ** Decimal numbers ([strconv.FormatUint(n, 10)], [strconv.FormatInt(n, 10)])

    A 64-bit number has at most twenty digits. *)
Fixpoint format_digits (fuel : nat) (n : Z) (acc : gostr) : gostr :=
  let acc := 48 + n mod 10 :: acc in
  match fuel with
  | O => acc
  | S fuel => if n <? 10 then acc else format_digits fuel (n / 10) acc
  end.
Definition FormatUint (n : Z) : gostr := format_digits 19 n [].
Definition FormatInt (n : Z) : gostr := if n <? 0 then 45 :: FormatUint (- n) else FormatUint n.

(** The number a digit string denotes. *)
Definition digits_value (s : gostr) : Z := foldl (fun v c => 10 * v + (c - 48)) 0 s.
Definition is_digit (c : Z) : Prop := 48 <= c <= 57.

Section Decimal.
Lemma format_digits_value fuel n acc :
  0 <= n < 10 ^ Z.of_nat (S fuel) ->
  digits_value (format_digits fuel n acc) = foldl (fun v c => 10 * v + (c - 48)) n acc.
Proof.
  unfold digits_value. revert n acc. induction fuel as [|fuel IH]; intros n acc Hn.
  - change (10 ^ Z.of_nat 1) with 10 in Hn. cbn [format_digits foldl]. rewrite Z.mod_small by lia. f_equal. lia.
  - cbn [format_digits]. destruct (n <? 10) eqn:E; bool_to_prop.
    + cbn [foldl]. rewrite Z.mod_small by lia. f_equal. lia.
    + rewrite Nat2Z.inj_succ, Z.pow_succ_r in Hn by lia.
      rewrite IH.
      * cbn [foldl]. f_equal. rewrite (Z.div_mod n 10) at 3 by lia. lia.
      * split; [apply Z.div_pos; lia | apply Z.div_lt_upper_bound; lia].
Qed.

Lemma format_digits_digit fuel n acc : Forall is_digit acc -> Forall is_digit (format_digits fuel n acc).
Proof.
  revert n acc. induction fuel as [|fuel IH]; intros n acc Hacc; cbn [format_digits];
    assert (Forall is_digit (48 + n mod 10 :: acc)) by (constructor; [|done]; unfold is_digit; pose proof (Z.mod_pos_bound n 10); lia).
  - done.
  - destruct (n <? 10); [done|]. by apply IH.
Qed.

Lemma FormatUint_value n : 0 <= n < 2 ^ 64 -> digits_value (FormatUint n) = n.
Proof. intros H. unfold FormatUint. rewrite format_digits_value; [done|]. lia. Qed.

Lemma FormatUint_inj n m : 0 <= n < 2 ^ 64 -> 0 <= m < 2 ^ 64 -> FormatUint n = FormatUint m -> n = m.
Proof. intros Hn Hm E. rewrite <- (FormatUint_value n), <- (FormatUint_value m), E by done. done. Qed.

Lemma FormatUint_digit n : Forall is_digit (FormatUint n).
Proof. by apply format_digits_digit. Qed.
End Decimal.
