(* ===== verification/Codes.v ===== *)
(** * Reason codes (packets/codes.go)

    The [Code] values of the [packets] package, which double as Go errors, and
    the error values the modelled functions return. *)
From S2P Require Import Prelude.

(** [type Code struct]: a reason code and a reason string for a response. *)
Record Code := mkCode {
  Code_Reason : gostr;
  Code_Code : Z;
}.

#[export] Instance Code_eq_dec : EqDecision Code.
Proof.
  intros [r1 c1] [r2 c2]. destruct (decide (r1 = r2 /\ c1 = c2)) as [[-> ->]|H].
  - by left.
  - right. intros [= -> ->]. naive_solver.
Defined.

(** [Code.String], [Code.Error] *)
Definition Code_String (c : Code) : gostr := Code_Reason c.
Definition Code_Error (c : Code) : gostr := Code_Reason c.

Definition CodeSuccessIgnore : Code := mkCode !"ignore packet" 0.
Definition CodeSuccess : Code := mkCode !"success" 0.
Definition CodeDisconnect : Code := mkCode !"disconnected" 0.
Definition CodeGrantedQos0 : Code := mkCode !"granted qos 0" 0.
Definition CodeGrantedQos1 : Code := mkCode !"granted qos 1" 1.
Definition CodeGrantedQos2 : Code := mkCode !"granted qos 2" 2.
Definition CodeDisconnectWillMessage : Code := mkCode !"disconnect with will message" 4.
Definition CodeNoMatchingSubscribers : Code := mkCode !"no matching subscribers" 16.
Definition CodeNoSubscriptionExisted : Code := mkCode !"no subscription existed" 17.
Definition CodeContinueAuthentication : Code := mkCode !"continue authentication" 24.
Definition CodeReAuthenticate : Code := mkCode !"re-authenticate" 25.
Definition ErrUnspecifiedError : Code := mkCode !"unspecified error" 128.
Definition ErrMalformedPacket : Code := mkCode !"malformed packet" 129.
Definition ErrMalformedProtocolName : Code := mkCode !"malformed packet: protocol name" 129.
Definition ErrMalformedProtocolVersion : Code := mkCode !"malformed packet: protocol version" 129.
Definition ErrMalformedFlags : Code := mkCode !"malformed packet: flags" 129.
Definition ErrMalformedKeepalive : Code := mkCode !"malformed packet: keepalive" 129.
Definition ErrMalformedPacketID : Code := mkCode !"malformed packet: packet identifier" 129.
Definition ErrMalformedTopic : Code := mkCode !"malformed packet: topic" 129.
Definition ErrMalformedWillTopic : Code := mkCode !"malformed packet: will topic" 129.
Definition ErrMalformedWillPayload : Code := mkCode !"malformed packet: will message" 129.
Definition ErrMalformedUsername : Code := mkCode !"malformed packet: username" 129.
Definition ErrMalformedPassword : Code := mkCode !"malformed packet: password" 129.
Definition ErrMalformedQos : Code := mkCode !"malformed packet: qos" 129.
Definition ErrMalformedOffsetUintOutOfRange : Code := mkCode !"malformed packet: offset uint out of range" 129.
Definition ErrMalformedOffsetBytesOutOfRange : Code := mkCode !"malformed packet: offset bytes out of range" 129.
Definition ErrMalformedOffsetByteOutOfRange : Code := mkCode !"malformed packet: offset byte out of range" 129.
Definition ErrMalformedOffsetBoolOutOfRange : Code := mkCode !"malformed packet: offset boolean out of range" 129.
Definition ErrMalformedInvalidUTF8 : Code := mkCode !"malformed packet: invalid utf-8 string" 129.
Definition ErrMalformedVariableByteInteger : Code := mkCode !"malformed packet: variable byte integer out of range" 129.
Definition ErrMalformedBadProperty : Code := mkCode !"malformed packet: unknown property" 129.
Definition ErrMalformedProperties : Code := mkCode !"malformed packet: properties" 129.
Definition ErrMalformedWillProperties : Code := mkCode !"malformed packet: will properties" 129.
Definition ErrMalformedSessionPresent : Code := mkCode !"malformed packet: session present" 129.
Definition ErrMalformedReasonCode : Code := mkCode !"malformed packet: reason code" 129.
Definition ErrProtocolViolation : Code := mkCode !"protocol violation" 130.
Definition ErrProtocolViolationProtocolName : Code := mkCode !"protocol violation: protocol name" 130.
Definition ErrProtocolViolationProtocolVersion : Code := mkCode !"protocol violation: protocol version" 130.
Definition ErrProtocolViolationReservedBit : Code := mkCode !"protocol violation: reserved bit not 0" 130.
Definition ErrProtocolViolationFlagNoUsername : Code := mkCode !"protocol violation: username flag set but no value" 130.
Definition ErrProtocolViolationFlagNoPassword : Code := mkCode !"protocol violation: password flag set but no value" 130.
Definition ErrProtocolViolationUsernameNoFlag : Code := mkCode !"protocol violation: username set but no flag" 130.
Definition ErrProtocolViolationPasswordNoFlag : Code := mkCode !"protocol violation: username set but no flag" 130.
Definition ErrProtocolViolationPasswordTooLong : Code := mkCode !"protocol violation: password too long" 130.
Definition ErrProtocolViolationUsernameTooLong : Code := mkCode !"protocol violation: username too long" 130.
Definition ErrProtocolViolationNoPacketID : Code := mkCode !"protocol violation: missing packet id" 130.
Definition ErrProtocolViolationSurplusPacketID : Code := mkCode !"protocol violation: surplus packet id" 130.
Definition ErrProtocolViolationQosOutOfRange : Code := mkCode !"protocol violation: qos out of range" 130.
Definition ErrProtocolViolationSecondConnect : Code := mkCode !"protocol violation: second connect packet" 130.
Definition ErrProtocolViolationZeroNonZeroExpiry : Code := mkCode !"protocol violation: non-zero expiry" 130.
Definition ErrProtocolViolationRequireFirstConnect : Code := mkCode !"protocol violation: first packet must be connect" 130.
Definition ErrProtocolViolationWillFlagNoPayload : Code := mkCode !"protocol violation: will flag no payload" 130.
Definition ErrProtocolViolationWillFlagSurplusRetain : Code := mkCode !"protocol violation: will flag surplus retain" 130.
Definition ErrProtocolViolationSurplusWildcard : Code := mkCode !"protocol violation: topic contains wildcards" 130.
Definition ErrProtocolViolationSurplusSubID : Code := mkCode !"protocol violation: contained subscription identifier" 130.
Definition ErrProtocolViolationInvalidTopic : Code := mkCode !"protocol violation: invalid topic" 130.
Definition ErrProtocolViolationInvalidSharedNoLocal : Code := mkCode !"protocol violation: invalid shared no local" 130.
Definition ErrProtocolViolationNoFilters : Code := mkCode !"protocol violation: must contain at least one filter" 130.
Definition ErrProtocolViolationInvalidReason : Code := mkCode !"protocol violation: invalid reason" 130.
Definition ErrProtocolViolationOversizeSubID : Code := mkCode !"protocol violation: oversize subscription id" 130.
Definition ErrProtocolViolationDupNoQos : Code := mkCode !"protocol violation: dup true with no qos" 130.
Definition ErrProtocolViolationUnsupportedProperty : Code := mkCode !"protocol violation: unsupported property" 130.
Definition ErrProtocolViolationNoTopic : Code := mkCode !"protocol violation: no topic or alias" 130.
Definition ErrImplementationSpecificError : Code := mkCode !"implementation specific error" 131.
Definition ErrRejectPacket : Code := mkCode !"packet rejected" 131.
Definition ErrUnsupportedProtocolVersion : Code := mkCode !"unsupported protocol version" 132.
Definition ErrClientIdentifierNotValid : Code := mkCode !"client identifier not valid" 133.
Definition ErrClientIdentifierTooLong : Code := mkCode !"client identifier too long" 133.
Definition ErrBadUsernameOrPassword : Code := mkCode !"bad username or password" 134.
Definition ErrNotAuthorized : Code := mkCode !"not authorized" 135.
Definition ErrServerUnavailable : Code := mkCode !"server unavailable" 136.
Definition ErrServerBusy : Code := mkCode !"server busy" 137.
Definition ErrBanned : Code := mkCode !"banned" 138.
Definition ErrServerShuttingDown : Code := mkCode !"server shutting down" 139.
Definition ErrBadAuthenticationMethod : Code := mkCode !"bad authentication method" 140.
Definition ErrKeepAliveTimeout : Code := mkCode !"keep alive timeout" 141.
Definition ErrSessionTakenOver : Code := mkCode !"session takeover" 142.
Definition ErrTopicFilterInvalid : Code := mkCode !"topic filter invalid" 143.
Definition ErrTopicNameInvalid : Code := mkCode !"topic name invalid" 144.
Definition ErrPacketIdentifierInUse : Code := mkCode !"packet identifier in use" 145.
Definition ErrPacketIdentifierNotFound : Code := mkCode !"packet identifier not found" 146.
Definition ErrReceiveMaximum : Code := mkCode !"receive maximum exceeded" 147.
Definition ErrTopicAliasInvalid : Code := mkCode !"topic alias invalid" 148.
Definition ErrPacketTooLarge : Code := mkCode !"packet too large" 149.
Definition ErrMessageRateTooHigh : Code := mkCode !"message rate too high" 150.
Definition ErrQuotaExceeded : Code := mkCode !"quota exceeded" 151.
Definition ErrPendingClientWritesExceeded : Code := mkCode !"too many pending writes" 151.
Definition ErrAdministrativeAction : Code := mkCode !"administrative action" 152.
Definition ErrPayloadFormatInvalid : Code := mkCode !"payload format invalid" 153.
Definition ErrRetainNotSupported : Code := mkCode !"retain not supported" 154.
Definition ErrQosNotSupported : Code := mkCode !"qos not supported" 155.
Definition ErrUseAnotherServer : Code := mkCode !"use another server" 156.
Definition ErrServerMoved : Code := mkCode !"server moved" 157.
Definition ErrSharedSubscriptionsNotSupported : Code := mkCode !"shared subscriptions not supported" 158.
Definition ErrConnectionRateExceeded : Code := mkCode !"connection rate exceeded" 159.
Definition ErrMaxConnectTime : Code := mkCode !"maximum connect time" 160.
Definition ErrSubscriptionIdentifiersNotSupported : Code := mkCode !"subscription identifiers not supported" 161.
Definition ErrWildcardSubscriptionsNotSupported : Code := mkCode !"wildcard subscriptions not supported" 162.
Definition ErrInlineSubscriptionHandlerInvalid : Code := mkCode !"inline subscription handler not valid." 163.
Definition Err3UnsupportedProtocolVersion : Code := mkCode !"" 1.
Definition Err3ClientIdentifierNotValid : Code := mkCode !"" 2.
Definition Err3ServerUnavailable : Code := mkCode !"" 3.
Definition ErrMalformedUsernameOrPassword : Code := mkCode !"" 4.
Definition Err3NotAuthorized : Code := mkCode !"" 5.

(** [QosCodes]: the reason code for each granted qos. *)
Definition QosCodes (qos : Z) : option Code :=
  if qos =? 0 then Some CodeGrantedQos0
  else if qos =? 1 then Some CodeGrantedQos1
  else if qos =? 2 then Some CodeGrantedQos2
  else None.

(** [V5CodesToV3]: MQTTv5 Connack reason codes to MQTTv3 return codes. *)
Definition V5CodesToV3 (c : Code) : option Code :=
  if decide (c = ErrUnsupportedProtocolVersion) then Some Err3UnsupportedProtocolVersion
  else if decide (c = ErrClientIdentifierNotValid) then Some Err3ClientIdentifierNotValid
  else if decide (c = ErrServerUnavailable) then Some Err3ServerUnavailable
  else if decide (c = ErrMalformedUsername) then Some ErrMalformedUsernameOrPassword
  else if decide (c = ErrMalformedPassword) then Some ErrMalformedUsernameOrPassword
  else if decide (c = ErrBadUsernameOrPassword) then Some Err3NotAuthorized
  else None.

(** ** Go errors

    An error is a [Code], a [Code] wrapped with [fmt.Errorf("%s: %w", err, c)]
    (only the outer code is in the [%w] chain), or one of the error values the
    modelled code receives from the standard library or declares itself. *)
Inductive error : Type :=
| ECode (c : Code)
| EWrap (inner : error) (c : Code)              (* fmt.Errorf("%s: %w", inner, c) *)
| EProperty (k pkt : Z) (c : Code)              (* fmt.Errorf("property type %v ...: %w", k, pkt, c) *)
| EEOF                                          (* io.EOF *)
| EUnexpectedEOF                                (* io.ErrUnexpectedEOF *)
| EConnectionClosed                             (* ErrConnectionClosed *)
| EInvalidPacketType (t : Z)                    (* fmt.Errorf("invalid packet type; %v", t) *)
| ENoValidPacket (t : Z)                        (* fmt.Errorf("%w: %v", ErrNoValidPacketAvailable, t) *)
| EShortWrite                                   (* io.ErrShortWrite *)
| EInlineClientNotEnabled                       (* ErrInlineClientNotEnabled *)
| ENoPacketAvailable (t : Z)                    (* fmt.Errorf("no valid packet available; %v", t) *)
| EContext (what : gostr) (e : error)           (* fmt.Errorf("what: %w", e) *)
| EDBFileNotOpen                                (* storage.ErrDBFileNotOpen *)
| EInvalidConfigType                            (* ErrInvalidConfigType *)
| EListenerIDExists                             (* ErrListenerIDExists *)
| EInvalidMessage                               (* listeners.ErrInvalidMessage *)
| EJSON                                         (* an error of json.Unmarshal *)
| EDBKeyNotFound                                (* the database has no such key *)
| EDB (n : Z)                                   (* another error of the database *)
| EOther (n : Z).                               (* an error of a hook or of the transport *)

#[export] Instance error_eq_dec : EqDecision error.
Proof. solve_decision. Defined.

(** [errors.Is(err, c)] *)
Fixpoint error_is (e : error) (c : Code) : bool :=
  match e with
  | EContext _ e => error_is e c
  | ECode c' | EWrap _ c' | EProperty _ _ c' => bool_decide (c' = c)
  | _ => false
  end.

(** [err.(packets.Code)]: only a bare code has that dynamic type. *)
Definition error_code (e : error) : option Code :=
  match e with
  | ECode c => Some c
  | _ => None
  end.

(** [errors.As(err, new(packets.Code))]: the code in the [%w] chain. *)
Fixpoint error_as_code (e : error) : option Code :=
  match e with
  | EContext _ e => error_as_code e
  | ECode c | EWrap _ c | EProperty _ _ c => Some c
  | _ => None
  end.
