(* ===== verification/Effects.v ===== *)
(** * Effects

    Go code that changes an object and may fail: a state monad over
    [result error]. An error keeps the changes made before it. *)
From S2P Require Import Prelude Codes.

Definition GoM (S A : Type) : Type := S -> result error A * S.

#[export] Instance GoM_ret S : MRet (GoM S) := fun A a s => (Ok a, s).
#[export] Instance GoM_bind S : MBind (GoM S) := fun A B k m s =>
  match m s with
  | (Ok a, s) => k a s
  | (Err e, s) => (Err e, s)
  | (Panic, s) => (Panic, s)
  | (Diverge, s) => (Diverge, s)
  end.

Section Actions.
Context {S : Type}.

Definition get_state : GoM S S := fun s => (Ok s, s).
Definition modify (f : S -> S) : GoM S unit := fun s => (Ok tt, f s).
Definition throw {A} (e : error) : GoM S A := fun s => (Err e, s).
Definition panic {A} : GoM S A := fun s => (Panic, s).

(** A call of a function without effects. *)
Definition call {A} (r : result error A) : GoM S A := fun s => (r, s).

(** [a, err := m()] for a caller that inspects the error. *)
Definition attempt {A} (m : GoM S A) : GoM S (A + error) := fun s =>
  match m s with
  | (Ok a, s) => (Ok (inl a), s)
  | (Err e, s) => (Ok (inr e), s)
  | (Panic, s) => (Panic, s)
  | (Diverge, s) => (Diverge, s)
  end.

(** [_ = m()] *)
Definition ignore {A} (m : GoM S A) : GoM S unit := fun s =>
  match m s with
  | (Ok _, s) | (Err _, s) => (Ok tt, s)
  | (Panic, s) => (Panic, s)
  | (Diverge, s) => (Diverge, s)
  end.

(** [if err := m(); err != nil { return fmt.Errorf("what: %w", err) }] *)
Definition in_context {A} (what : gostr) (m : GoM S A) : GoM S A := fun s =>
  match m s with
  | (Err e, s) => (Err (EContext what e), s)
  | r => r
  end.

Definition when (b : bool) (m : GoM S unit) : GoM S unit := if b then m else mret tt.

(** [defer cleanup()] around [m]. *)
Definition finally {A} (cleanup : S -> S) (m : GoM S A) : GoM S A := fun s =>
  let '(r, s) := m s in (r, cleanup s).

(** [for _, x := range l { body }] *)
Fixpoint for_each {A} (l : list A) (body : A -> GoM S unit) : GoM S unit :=
  match l with
  | [] => mret tt
  | x :: l => body x ;; for_each l body
  end.
End Actions.

(** An action on a part of the state; a missing part is a nil dereference. *)
Definition zoom {S T A} (part : S -> option T) (update : T -> S -> S) (m : GoM T A) : GoM S A := fun s =>
  match part s with
  | None => (Panic, s)
  | Some t => let '(r, t) := m t in (r, update t s)
  end.

(** ** Weakest preconditions

    [wp m s Q]: run from [s], [m] returns and its outcome satisfies [Q]. *)
Definition wp {S A} (m : GoM S A) (s : S) (Q : A + error -> S -> Prop) : Prop :=
  match m s with
  | (Ok a, s) => Q (inl a) s
  | (Err e, s) => Q (inr e) s
  | _ => False
  end.

Section Wp.
Context {S : Type}.

Lemma wp_mono {A} (m : GoM S A) s (Q R : A + error -> S -> Prop) :
  wp m s Q -> (forall r s', Q r s' -> R r s') -> wp m s R.
Proof. unfold wp. intros Hm HQ. destruct (m s) as [[a|e| |] s']; auto. Qed.

Lemma wp_and {A} (m : GoM S A) s (Q R : A + error -> S -> Prop) :
  wp m s Q -> wp m s R -> wp m s (fun r s' => Q r s' /\ R r s').
Proof. unfold wp. by destruct (m s) as [[a|e| |] s']. Qed.

Lemma wp_ret {A} (a : A) s (Q : A + error -> S -> Prop) : Q (inl a) s -> wp (mret a) s Q.
Proof. done. Qed.

Lemma wp_bind {A B} (m : GoM S A) (k : A -> GoM S B) s (Q : B + error -> S -> Prop) :
  wp m s (fun r s' => match r with inl a => wp (k a) s' Q | inr e => Q (inr e) s' end) ->
  wp (m ≫= k) s Q.
Proof.
  unfold wp, mbind, GoM_bind. intros H. destruct (m s) as [[a|e| |] s']; done.
Qed.

Lemma wp_get_state s (Q : S + error -> S -> Prop) : Q (inl s) s -> wp get_state s Q.
Proof. done. Qed.

Lemma wp_modify f s (Q : unit + error -> S -> Prop) : Q (inl tt) (f s) -> wp (modify f) s Q.
Proof. done. Qed.

Lemma wp_throw {A} e s (Q : A + error -> S -> Prop) : Q (inr e) s -> wp (throw e) s Q.
Proof. done. Qed.

Lemma wp_attempt {A} (m : GoM S A) s (Q : (A + error) + error -> S -> Prop) :
  wp m s (fun r s' => Q (inl r) s') -> wp (attempt m) s Q.
Proof. unfold wp, attempt. destruct (m s) as [[a|e| |] s']; done. Qed.

Lemma wp_ignore {A} (m : GoM S A) s (Q : unit + error -> S -> Prop) :
  wp m s (fun _ s' => Q (inl tt) s') -> wp (ignore m) s Q.
Proof. unfold wp, ignore. destruct (m s) as [[a|e| |] s']; done. Qed.

Lemma wp_in_context {A} what (m : GoM S A) s (Q : A + error -> S -> Prop) :
  wp m s (fun r s' => Q (match r with inl a => inl a | inr e => inr (EContext what e) end) s') ->
  wp (in_context what m) s Q.
Proof. unfold wp, in_context. destruct (m s) as [[a|e| |] s']; done. Qed.

Lemma wp_finally {A} cleanup (m : GoM S A) s (Q : A + error -> S -> Prop) :
  wp m s (fun r s' => Q r (cleanup s')) -> wp (finally cleanup m) s Q.
Proof. unfold wp, finally. destruct (m s) as [[a|e| |] s']; done. Qed.

Lemma wp_when b (m : GoM S unit) s (Q : unit + error -> S -> Prop) :
  (b = true -> wp m s Q) -> (b = false -> Q (inl tt) s) -> wp (when b m) s Q.
Proof. destruct b; cbn; auto. Qed.

(** A loop keeps an invariant that its body keeps, whatever the body returns. *)
Lemma wp_for_each {A} (l : list A) body (I : S -> Prop) s (Q : unit + error -> S -> Prop) :
  I s -> (forall x s, x ∈ l -> I s -> wp (body x) s (fun _ => I)) ->
  (forall r s, I s -> Q r s) -> wp (for_each l body) s Q.
Proof.
  intros Hs Hbody HQ. induction l as [|x l IH] in s, Hs, Hbody |- *; cbn.
  - apply wp_ret. auto.
  - apply wp_bind. eapply wp_mono; [apply Hbody; [set_solver|done]|].
    intros [[]|e] s' Hs'; [apply IH; [done|]|by apply HQ].
    intros y s'' Hy. apply Hbody. set_solver.
Qed.
End Wp.

Lemma wp_zoom {S T A} part update (m : GoM T A) (s : S) t Q :
  part s = Some t -> wp m t (fun r t' => Q r (update t' s)) -> wp (zoom part update m) s Q.
Proof.
  unfold wp, zoom. intros -> H. by destruct (m t) as [[a|e| |] t'].
Qed.

(** ** Actions that keep an invariant

    [keeps P m]: run from a state with [P], [m] returns, with a value or an
    error, in a state with [P]. *)
Definition keeps {S A} (P : S -> Prop) (m : GoM S A) : Prop := forall s, P s -> wp m s (fun _ => P).

Create HintDb keeps discriminated.

Section Keeps.
Context {S : Type} (P : S -> Prop).

Lemma keeps_ret {A} (a : A) : keeps P (mret a).
Proof. intros s Hs. by apply wp_ret. Qed.

Lemma keeps_throw {A} err : keeps P (throw (A := A) err).
Proof. intros s Hs. by apply wp_throw. Qed.

Lemma keeps_bind {A B} (m : GoM S A) (k : A -> GoM S B) :
  keeps P m -> (forall a, keeps P (k a)) -> keeps P (m ≫= k).
Proof.
  intros Hm Hk s Hs. apply wp_bind. eapply wp_mono; [by apply Hm|].
  intros [a|err] s' Hs'; [by apply Hk|done].
Qed.

Lemma keeps_modify f : (forall s, P s -> P (f s)) -> keeps P (modify f).
Proof. intros H s Hs. apply wp_modify. auto. Qed.

(** What follows may rely on the invariant of the state it was given. *)
Lemma keeps_get_state {B} (k : S -> GoM S B) :
  (forall s, P s -> wp (k s) s (fun _ => P)) -> keeps P (get_state ≫= k).
Proof. intros H s Hs. apply wp_bind, wp_get_state. auto. Qed.

Lemma keeps_attempt {A} (m : GoM S A) : keeps P m -> keeps P (attempt m).
Proof. intros Hm s Hs. by apply wp_attempt, Hm. Qed.

Lemma keeps_ignore {A} (m : GoM S A) : keeps P m -> keeps P (ignore m).
Proof. intros Hm s Hs. by apply wp_ignore, Hm. Qed.

Lemma keeps_in_context {A} what (m : GoM S A) : keeps P m -> keeps P (in_context what m).
Proof. intros Hm s Hs. by apply wp_in_context, Hm. Qed.

Lemma keeps_finally {A} cleanup (m : GoM S A) :
  (forall s, P s -> P (cleanup s)) -> keeps P m -> keeps P (finally cleanup m).
Proof.
  intros Hc Hm s Hs. apply wp_finally. eapply wp_mono; [by apply Hm|]. auto.
Qed.

Lemma keeps_when b (m : GoM S unit) : (b = true -> keeps P m) -> keeps P (when b m).
Proof. intros Hm s Hs. apply wp_when; [|done]. intros Hb. by apply Hm. Qed.

Lemma keeps_for_each {A} (l : list A) body :
  (forall x, x ∈ l -> keeps P (body x)) -> keeps P (for_each l body).
Proof.
  intros Hb s Hs. apply wp_for_each with (I := P); [done| |done]. intros x s' Hx. by apply Hb.
Qed.
End Keeps.

#[export] Hint Resolve keeps_ret keeps_throw keeps_attempt keeps_ignore keeps_in_context : keeps.

(** Splits a handler along its structure, down to the actions of the database. *)
Ltac keeps_step :=
  match goal with
  | |- keeps _ (_ ≫= _) => apply keeps_bind; [|intros ?]
  | |- keeps _ (when _ _) => apply keeps_when; intros ?
  | |- keeps _ (for_each _ _) => apply keeps_for_each; intros ? ?
  | |- keeps _ (let '(_, _) := ?x in _) => destruct x
  | |- keeps _ (if ?b then _ else _) => destruct b eqn:?
  | |- keeps _ (match ?x with _ => _ end) => destruct x eqn:?
  | |- keeps _ (let _ := _ in _) => cbv zeta
  end.

Ltac keeps_go := repeat first [solve [eauto 5 with keeps] | keeps_step].

(** ** Loops over distinct items

    Every step establishes [P] for its item, from [N], and disturbs neither for
    the others. *)
Lemma wp_for_each_all {S T} (I : S -> Prop) (N P : T -> S -> Prop) (ts : list T) body s :
  NoDup ts ->
  (forall t s, t ∈ ts -> I s -> N t s -> wp (body t) s (fun r s' => r = inl tt /\ I s' /\ P t s' /\
     forall t', t' ∈ ts -> t' <> t -> (P t' s -> P t' s') /\ (N t' s -> N t' s'))) ->
  I s -> (forall t, t ∈ ts -> N t s) ->
  wp (for_each ts body) s (fun r s' => r = inl tt /\ I s' /\ (forall t, t ∈ ts -> P t s')).
Proof.
  intros Hnd Hb Hs HN.
  assert (forall pre todo, ts = pre ++ todo -> forall s, I s -> (forall t, t ∈ pre -> P t s) -> (forall t, t ∈ todo -> N t s) ->
    wp (for_each todo body) s (fun r s' => r = inl tt /\ I s' /\ (forall t, t ∈ ts -> P t s'))) as H.
  { intros pre todo. revert pre. induction todo as [|t todo IH]; intros pre E s' Hs' Hd Ht.
    - rewrite app_nil_r in E. subst. by apply wp_ret.
    - assert (Hts : forall t', t' ∈ pre \/ t' ∈ t :: todo -> t' ∈ ts) by (intros t' Ht'; rewrite E; by apply elem_of_app).
      rewrite E in Hnd. apply NoDup_app in Hnd as (_ & Hx & Hy). apply NoDup_cons in Hy as [Hy _].
      cbn [for_each]. apply wp_bind.
      eapply wp_mono; [apply Hb; [apply Hts; right; left|done|by apply Ht; left]|]. intros r s2 (-> & Hs2 & HPt & Hot).
      apply (IH (pre ++ [t])); [by rewrite <- app_assoc|done|..].
      + intros t' [Ht'| ->%list_elem_of_singleton]%elem_of_app; [|done].
        apply (Hot t'); [apply Hts; by left| |by apply Hd]. intros ->. apply (Hx t Ht'). left.
      + intros t' Ht'. apply (Hot t'); [apply Hts; right; by right|by intros ->|]. apply Ht. by right. }
  apply (H [] ts); [done..| |done]. intros t Ht. by apply elem_of_nil in Ht.
Qed.

(** A call that returned, and what follows it. *)
Lemma bind_run {S A B} (m : GoM S A) (k : A -> GoM S B) s a s' : m s = (Ok a, s') -> (m ≫= k) s = k a s'.
Proof. intros E. unfold mbind, GoM_bind. by rewrite E. Qed.

(** ** Actions that leave a part of the state alone

    [frames f m]: whatever [m] returns, even a panic, [f] of the state is what
    it was. *)
Definition frames {S X A} (f : S -> X) (m : GoM S A) : Prop := forall s, f (m s).2 = f s.

Create HintDb frames discriminated.

Section Frames.
Context {S X : Type} (f : S -> X).

Lemma frames_ret {A} (a : A) : frames f (mret a).
Proof. done. Qed.

Lemma frames_throw {A} err : frames f (throw (A := A) err).
Proof. done. Qed.

Lemma frames_panic {A} : frames f (panic (A := A)).
Proof. done. Qed.

Lemma frames_call {A} (r : result error A) : frames f (call r).
Proof. done. Qed.

Lemma frames_get_state : frames f get_state.
Proof. done. Qed.

Lemma frames_modify g : (forall s, f (g s) = f s) -> frames f (modify g).
Proof. intros H s. apply H. Qed.

Lemma frames_bind {A B} (m : GoM S A) (k : A -> GoM S B) :
  frames f m -> (forall a, frames f (k a)) -> frames f (m ≫= k).
Proof.
  intros Hm Hk s. specialize (Hm s). unfold mbind, GoM_bind.
  destruct (m s) as [[a|e| |] s']; cbn [snd] in *; try done. by rewrite Hk.
Qed.

Lemma frames_attempt {A} (m : GoM S A) : frames f m -> frames f (attempt m).
Proof. intros Hm s. specialize (Hm s). unfold attempt. by destruct (m s) as [[a|e| |] s']. Qed.

Lemma frames_ignore {A} (m : GoM S A) : frames f m -> frames f (ignore m).
Proof. intros Hm s. specialize (Hm s). unfold ignore. by destruct (m s) as [[a|e| |] s']. Qed.

Lemma frames_in_context {A} what (m : GoM S A) : frames f m -> frames f (in_context what m).
Proof. intros Hm s. specialize (Hm s). unfold in_context. by destruct (m s) as [[a|e| |] s']. Qed.

Lemma frames_when b (m : GoM S unit) : frames f m -> frames f (when b m).
Proof. by destruct b. Qed.

Lemma frames_finally {A} cleanup (m : GoM S A) :
  (forall s, f (cleanup s) = f s) -> frames f m -> frames f (finally cleanup m).
Proof.
  intros Hc Hm s. specialize (Hm s). unfold finally. destruct (m s) as [r s']. cbn [snd] in *. by rewrite Hc.
Qed.

Lemma frames_for_each {A} (l : list A) body : (forall x, frames f (body x)) -> frames f (for_each l body).
Proof. intros H. induction l as [|x l IH]; cbn [for_each]; [apply frames_ret|]. by apply frames_bind. Qed.

(** What a frame adds to a specification. *)
Lemma wp_frame {A} (m : GoM S A) s (Q : A + error -> S -> Prop) :
  frames f m -> wp m s Q -> wp m s (fun r s' => Q r s' /\ f s' = f s).
Proof. intros Hm. specialize (Hm s). unfold wp. by destruct (m s) as [[a|e| |] s']. Qed.
End Frames.

#[export] Hint Resolve frames_ret frames_throw frames_panic frames_call frames_get_state : frames.

Ltac frames_step :=
  match goal with
  | |- frames _ (_ ≫= _) => apply frames_bind; [|intros ?]
  | |- frames _ (when _ _) => apply frames_when
  | |- frames _ (attempt _) => apply frames_attempt
  | |- frames _ (ignore _) => apply frames_ignore
  | |- frames _ (in_context _ _) => apply frames_in_context
  | |- frames _ (for_each _ _) => apply frames_for_each; intros ?
  | |- frames _ (let '(_, _) := ?x in _) => destruct x
  | |- frames _ (if ?b then _ else _) => destruct b
  | |- frames _ (match ?x with _ => _ end) => destruct x
  | |- frames _ (let _ := _ in _) => cbv zeta
  end.

Ltac frames_go := repeat first [solve [eauto 4 with frames] | frames_step].
