(* ===== verification/Codec.v ===== *)
(** * Primitive encoders and decoders (packets/codec.go)

    Fixed-width integers, length-prefixed byte strings, UTF-8 strings and the
    variable byte integer, each with its round trip. Offsets and lengths are
    [nat]; bytes and decoded values are [Z]. *)
From S2P Require Import Prelude Codes.

(** ** Big-endian integers ([encoding/binary]) *)

Definition be_uint (b : bytes) : Z := fold_left (fun acc x => acc * 256 + x) b 0.

Definition put_uint16 (v : Z) : bytes := [v / 2 ^ 8 mod 256; v mod 256].

Definition put_uint32 (v : Z) : bytes :=
  [v / 2 ^ 24 mod 256; v / 2 ^ 16 mod 256; v / 2 ^ 8 mod 256; v mod 256].

(** ** Decoders *)

Definition decodeUint16 (buf : bytes) (offset : nat) : result error (Z * nat) :=
  if (length buf <? offset + 2)%nat then Err (ECode ErrMalformedOffsetUintOutOfRange)
  else Ok (be_uint (sub_slice buf offset (offset + 2)), offset + 2)%nat.

Definition decodeUint32 (buf : bytes) (offset : nat) : result error (Z * nat) :=
  if (length buf <? offset + 4)%nat then Err (ECode ErrMalformedOffsetUintOutOfRange)
  else Ok (be_uint (sub_slice buf offset (offset + 4)), offset + 4)%nat.

Definition decodeBytes (buf : bytes) (offset : nat) : result error (bytes * nat) :=
  '(len, next) ← decodeUint16 buf offset;
  if (length buf <? next + Z.to_nat len)%nat then Err (ECode ErrMalformedOffsetBytesOutOfRange)
  else Ok (sub_slice buf next (next + Z.to_nat len), next + Z.to_nat len)%nat.

(** A continuation byte of a multi-byte UTF-8 sequence. *)
Definition utf8_cont (b : Z) : bool := (128 <=? b) && (b <=? 191).

(** [utf8.Valid]: shortest-form UTF-8, no surrogates, at most U+10FFFF. *)
Fixpoint utf8_Valid (b : bytes) : bool :=
  match b with
  | [] => true
  | b0 :: t0 =>
      if b0 <? 128 then utf8_Valid t0
      else if b0 <? 194 then false
      else if b0 <? 224 then
        match t0 with
        | b1 :: t1 => utf8_cont b1 && utf8_Valid t1
        | _ => false
        end
      else if b0 <? 240 then
        match t0 with
        | b1 :: b2 :: t2 =>
            ((if b0 =? 224 then 160 else 128) <=? b1) &&
            (b1 <=? (if b0 =? 237 then 159 else 191)) &&
            utf8_cont b2 && utf8_Valid t2
        | _ => false
        end
      else if b0 <? 245 then
        match t0 with
        | b1 :: b2 :: b3 :: t3 =>
            ((if b0 =? 240 then 144 else 128) <=? b1) &&
            (b1 <=? (if b0 =? 244 then 143 else 191)) &&
            utf8_cont b2 && utf8_cont b3 && utf8_Valid t3
        | _ => false
        end
      else false
  end.

Definition validUTF8 (b : bytes) : bool :=
  utf8_Valid b && bool_decide (index_byte 0 b = None).

Definition decodeString (buf : bytes) (offset : nat) : result error (gostr * nat) :=
  '(b, n) ← decodeBytes buf offset;
  if negb (validUTF8 b) then Err (ECode ErrMalformedInvalidUTF8)
  else Ok (b, n).

Definition decodeByte (buf : bytes) (offset : nat) : result error (Z * nat) :=
  match buf !! offset with
  | None => Err (ECode ErrMalformedOffsetByteOutOfRange)
  | Some b => Ok (b, offset + 1)%nat
  end.

Definition decodeByteBool (buf : bytes) (offset : nat) : result error (bool * nat) :=
  match buf !! offset with
  | None => Err (ECode ErrMalformedOffsetBoolOutOfRange)
  | Some b => Ok (0 <? Z.land 1 b, (offset + 1)%nat)
  end.

(** ** Encoders *)

Definition encodeBool (b : bool) : Z := if b then 1 else 0.

Definition encodeUint16 (val : Z) : bytes := put_uint16 val.

Definition encodeUint32 (val : Z) : bytes := put_uint32 val.

Definition encodeBytes (val : bytes) : bytes :=
  put_uint16 (to_u16 (Z.of_nat (length val))) ++ val.

Definition encodeString (val : gostr) : bytes :=
  put_uint16 (to_u16 (Z.of_nat (length val))) ++ val.

(** ** The variable byte integer

    [encodeLength]'s loop divides by 128 with Go's truncating operators until
    the quotient is 0; ten rounds are enough for an [int64]
    ([encodeLength_unfold]). *)

Fixpoint encodeLength_loop (fuel : nat) (len : Z) : bytes :=
  match fuel with
  | O => []
  | S fuel' =>
      let eb := to_u8 (Z.rem len 128) in
      let len' := Z.quot len 128 in
      let eb' := if 0 <? len' then Z.lor eb 128 else eb in
      eb' :: (if len' =? 0 then [] else encodeLength_loop fuel' len')
  end.

Definition encodeLength (len : Z) : bytes := encodeLength_loop 10 len.

(** [DecodeLength] reads bytes until one has its top bit clear. The reader is
    the list of bytes it has left; [value], [multiplier] and [bu] are the
    loop's variables. Returns the value, the number of bytes used and what is
    left of the reader. *)
Fixpoint DecodeLength_loop (b : bytes) (multiplier value bu : Z)
    : result error (Z * Z * bytes) :=
  match b with
  | [] => Err EEOF
  | eb :: b' =>
      let value := Z.lor value (to_u32 (Z.shiftl (Z.land eb 127) multiplier)) in
      if 268435455 <? value then Err (ECode ErrMalformedVariableByteInteger)
      else if Z.land eb 128 =? 0 then Ok (value, bu, b')
      else DecodeLength_loop b' (to_u32 (multiplier + 7)) value (bu + 1)
  end.

Definition DecodeLength (b : bytes) : result error (Z * Z * bytes) :=
  DecodeLength_loop b 0 0 1.

(** ** Fixed-width integers: ranges and round trips *)

Lemma put_uint16_ok v : bytes_ok (put_uint16 v).
Proof. repeat constructor; apply Z.mod_pos_bound; lia. Qed.

Lemma put_uint32_ok v : bytes_ok (put_uint32 v).
Proof. repeat constructor; apply Z.mod_pos_bound; lia. Qed.

Lemma be_uint_put_uint16 v : is_u16 v -> be_uint (put_uint16 v) = v.
Proof. unfold is_u16, be_uint, put_uint16. cbn -[Z.div Z.modulo Z.pow Z.mul]. intros H.
  Z.to_euclidean_division_equations. lia. Qed.

Lemma be_uint_put_uint32 v : is_u32 v -> be_uint (put_uint32 v) = v.
Proof. unfold is_u32, be_uint, put_uint32. cbn -[Z.div Z.modulo Z.pow Z.mul]. intros H.
  Z.to_euclidean_division_equations. lia. Qed.

Lemma be_uint_range b : bytes_ok b -> 0 <= be_uint b < 256 ^ Z.of_nat (length b).
Proof.
  unfold be_uint. intros Hb. assert (forall acc, 0 <= acc ->
    0 <= fold_left (fun acc x => acc * 256 + x) b acc < (acc + 1) * 256 ^ Z.of_nat (length b)) as H.
  { induction Hb as [|x b Hx Hb IH]; intros acc Hacc; cbn [fold_left length]; [lia|].
    unfold is_u8 in Hx. specialize (IH (acc * 256 + x)).
    rewrite Nat2Z.inj_succ, Z.pow_succ_r by lia.
    assert (0 < 256 ^ Z.of_nat (length b)) by (apply Z.pow_pos_nonneg; lia). nia. }
  specialize (H 0). lia.
Qed.

(** [dec] reads [enc] back as [v] wherever [enc] stands in the buffer. *)
Definition decodes {A} (dec : bytes -> nat -> result error (A * nat)) (enc : bytes) (v : A) : Prop :=
  forall pre post, dec (pre ++ enc ++ post) (length pre) = Ok (v, (length pre + length enc)%nat).

Lemma length_3app (pre enc post : bytes) :
  length (pre ++ enc ++ post) = (length pre + length enc + length post)%nat.
Proof. rewrite !length_app. lia. Qed.

Lemma decodeUint16_encode v : is_u16 v -> decodes decodeUint16 (encodeUint16 v) v.
Proof.
  intros Hv pre post. unfold decodeUint16. rewrite length_3app.
  rewrite (proj2 (Nat.ltb_ge _ _)) by (cbn; lia).
  rewrite sub_slice_app by done. by rewrite be_uint_put_uint16.
Qed.

Lemma decodeUint32_encode v : is_u32 v -> decodes decodeUint32 (encodeUint32 v) v.
Proof.
  intros Hv pre post. unfold decodeUint32. rewrite length_3app.
  rewrite (proj2 (Nat.ltb_ge _ _)) by (cbn; lia).
  rewrite sub_slice_app by done. by rewrite be_uint_put_uint32.
Qed.

Lemma decodeByte_encode v : decodes decodeByte [v] v.
Proof.
  intros pre post. unfold decodeByte. change ([v] ++ post) with (v :: post).
  by rewrite list_lookup_middle.
Qed.

Lemma length_encodeBytes val : length (encodeBytes val) = (2 + length val)%nat.
Proof. done. Qed.

Lemma decodeBytes_encode val :
  Z.of_nat (length val) < 65536 -> decodes decodeBytes (encodeBytes val) val.
Proof.
  intros Hlen pre post. unfold decodeBytes, encodeBytes.
  rewrite <- (app_assoc (put_uint16 _)).
  assert (is_u16 (Z.of_nat (length val))) as Hu by (unfold is_u16; lia).
  rewrite to_u16_id by done.
  fold (encodeUint16 (Z.of_nat (length val))).
  rewrite (decodeUint16_encode (Z.of_nat (length val)) Hu pre (val ++ post)).
  cbn [mbind result_bind].
  rewrite !length_app, Nat2Z.id. change (length (encodeUint16 _)) with 2%nat.
  rewrite (proj2 (Nat.ltb_ge _ _)) by lia.
  rewrite (app_assoc pre), sub_slice_app by (rewrite length_app; cbn; lia).
  f_equal. f_equal. lia.
Qed.

(** ** What a successful decode says of the offsets *)

Section Offsets.
Context (buf : bytes).

Lemma decodeUint16_offset off v off' :
  decodeUint16 buf off = Ok (v, off') -> off' = (off + 2)%nat /\ (off' <= length buf)%nat.
Proof. unfold decodeUint16. split_ifs; intros ?; inv_result; simplify_eq. lia. Qed.

Lemma decodeUint32_offset off v off' :
  decodeUint32 buf off = Ok (v, off') -> off' = (off + 4)%nat /\ (off' <= length buf)%nat.
Proof. unfold decodeUint32. split_ifs; intros ?; inv_result; simplify_eq. lia. Qed.

Lemma decodeBytes_offset off v off' :
  decodeBytes buf off = Ok (v, off') ->
  off' = (off + 2 + length v)%nat /\ (off' <= length buf)%nat /\ v = sub_slice buf (off + 2) off'.
Proof.
  unfold decodeBytes. destruct (decodeUint16 buf off) as [[n k]| | |] eqn:E; cbn; try done.
  apply decodeUint16_offset in E as [-> Hk]. split_ifs; intros ?; inv_result; simplify_eq.
  unfold sub_slice. rewrite length_take, length_drop. split_and!; [lia|lia|done].
Qed.

Lemma decodeString_offset off v off' :
  decodeString buf off = Ok (v, off') ->
  off' = (off + 2 + length v)%nat /\ (off' <= length buf)%nat /\ v = sub_slice buf (off + 2) off'
  /\ validUTF8 v = true.
Proof.
  unfold decodeString. destruct (decodeBytes buf off) as [[n k]| | |] eqn:E; cbn; try done.
  apply decodeBytes_offset in E as (? & ? & ?).
  destruct (validUTF8 n) eqn:V; cbn; intros ?; inv_result. by simplify_eq.
Qed.

Lemma decodeByte_offset off v off' :
  decodeByte buf off = Ok (v, off') -> off' = (off + 1)%nat /\ (off' <= length buf)%nat.
Proof.
  unfold decodeByte. destruct (buf !! off) eqn:E; intros ?; inv_result; simplify_eq.
  apply lookup_lt_Some in E. lia.
Qed.

Lemma decodeByteBool_offset off v off' :
  decodeByteBool buf off = Ok (v, off') -> off' = (off + 1)%nat /\ (off' <= length buf)%nat.
Proof.
  unfold decodeByteBool. destruct (buf !! off) eqn:E; intros ?; inv_result; simplify_eq.
  apply lookup_lt_Some in E. lia.
Qed.
End Offsets.

#[export] Hint Resolve decodeUint16_offset decodeUint32_offset decodeBytes_offset
  decodeString_offset decodeByte_offset decodeByteBool_offset : go.

Lemma decodeString_encode val :
  validUTF8 val = true -> Z.of_nat (length val) < 65536 ->
  decodes decodeString (encodeString val) val.
Proof.
  intros Hv Hl pre post. unfold decodeString, encodeString. fold (encodeBytes val).
  rewrite (decodeBytes_encode val Hl pre post). cbn. by rewrite Hv.
Qed.

(** ** The variable byte integer *)

Lemma encodeLength_loop_S f len :
  encodeLength_loop (S f) len =
    (let eb := to_u8 (Z.rem len 128) in
     let len' := Z.quot len 128 in
     (if 0 <? len' then Z.lor eb 128 else eb) :: (if len' =? 0 then [] else encodeLength_loop f len')).
Proof. done. Qed.

(** Ten rounds of the loop are enough for every [int64]: the fuelled function
    satisfies the loop's own equation. *)
Lemma encodeLength_loop_fuel f1 f2 len :
  Z.abs len < 128 ^ Z.of_nat f1 -> Z.abs len < 128 ^ Z.of_nat f2 -> (0 < f1)%nat -> (0 < f2)%nat ->
  encodeLength_loop f1 len = encodeLength_loop f2 len.
Proof.
  revert f2 len. induction f1 as [|f1 IH]; intros [|f2] len H1 H2 L1 L2; try lia.
  cbn [encodeLength_loop]. f_equal. destruct (_ =? 0) eqn:E; bool_to_prop; [done|].
  rewrite Nat2Z.inj_succ, Z.pow_succ_r in * by lia.
  assert (Z.abs (Z.quot len 128) < 128 ^ Z.of_nat f1 /\ Z.abs (Z.quot len 128) < 128 ^ Z.of_nat f2)
    as [B1 B2] by (Z.to_euclidean_division_equations; lia).
  apply IH; try done.
  - destruct f1; [cbn in *; Z.to_euclidean_division_equations; lia | lia].
  - destruct f2; [cbn in *; Z.to_euclidean_division_equations; lia | lia].
Qed.

Lemma encodeLength_unfold len : is_i64 len ->
  encodeLength len =
    (let eb := to_u8 (Z.rem len 128) in
     let len' := Z.quot len 128 in
     (if 0 <? len' then Z.lor eb 128 else eb) :: (if len' =? 0 then [] else encodeLength len')).
Proof.
  unfold is_i64. intros H. unfold encodeLength at 1. rewrite encodeLength_loop_S.
  cbv zeta. f_equal. destruct (_ =? 0) eqn:E; bool_to_prop; [done|].
  assert (Z.abs (Z.quot len 128) < 2 ^ 60) as Hq by (Z.to_euclidean_division_equations; lia).
  apply encodeLength_loop_fuel; [eapply Z.lt_trans; [exact Hq|done] .. | lia | lia].
Qed.

Lemma land_shiftl_disjoint v a m :
  0 <= m -> 0 <= v < 2 ^ m -> Z.land v (Z.shiftl a m) = 0.
Proof.
  intros Hm Hv. apply Z.bits_inj'. intros i Hi. rewrite Z.land_spec, Z.bits_0.
  destruct (Z.ltb_spec i m).
  - rewrite Z.shiftl_spec_low by lia. apply andb_false_r.
  - destruct (decide (v = 0)) as [->|]; [by rewrite Z.bits_0|].
    rewrite (Z.bits_above_log2 v); [done|lia|].
    apply Z.log2_lt_pow2; [lia|]. eapply Z.lt_le_trans; [apply Hv|]. apply Z.pow_le_mono_r; lia.
Qed.

Lemma lor_shiftl_add v a m :
  0 <= m -> 0 <= v < 2 ^ m -> Z.lor v (Z.shiftl a m) = v + a * 2 ^ m.
Proof.
  intros Hm Hv. rewrite <- Z.shiftl_mul_pow2 by done.
  pose proof (land_shiftl_disjoint v a m Hm Hv).
  rewrite Z.add_nocarry_lxor by done. symmetry. by apply Z.lxor_lor.
Qed.

(** A byte whose top bit is added: [eb |= 0x80]. *)
Lemma lor_128 r : 0 <= r < 128 -> Z.lor r 128 = r + 128.
Proof. intros H. change 128 with (Z.shiftl 1 7) at 1. rewrite lor_shiftl_add; lia. Qed.

Lemma land_127 b : Z.land b 127 = b mod 128.
Proof. change 127 with (Z.ones 7). by rewrite Z.land_ones. Qed.

Lemma land_128_eqb b : is_u8 b -> (Z.land b 128 =? 0) = (b <? 128).
Proof.
  unfold is_u8. intros H. rewrite <- (Z2Nat.id b) by lia.
  assert (Z.to_nat b < 256)%nat as L by lia. clear H. revert L. generalize (Z.to_nat b). clear b.
  intros n. do 256 (destruct n as [|n]; [done|]). lia.
Qed.

Lemma DecodeLength_loop_encode f n m v bu rest :
  (0 < f)%nat -> 0 <= n < 128 ^ Z.of_nat f -> 0 <= m <= 28 -> 0 <= v < 2 ^ m ->
  v + n * 2 ^ m <= 268435455 ->
  DecodeLength_loop (encodeLength_loop f n ++ rest) m v bu
  = Ok (v + n * 2 ^ m, bu + Z.of_nat (length (encodeLength_loop f n)) - 1, rest).
Proof.
  revert n m v bu. induction f as [|f IH]; intros n m v bu Hf Hn Hm Hv Hsum; [lia|].
  rewrite encodeLength_loop_S, Z.rem_mod_nonneg, Z.quot_div_nonneg by lia. cbv zeta.
  pose proof (Z.mod_pos_bound n 128 ltac:(lia)) as Hr.
  pose proof (Z.div_mod n 128 ltac:(lia)) as Hdm.
  pose proof (Z.div_pos n 128 ltac:(lia) ltac:(lia)) as Hq0.
  rewrite Nat2Z.inj_succ, Z.pow_succ_r in Hn by lia.
  rewrite to_u8_id by (unfold is_u8; lia).
  revert Hr Hdm Hq0. generalize (n mod 128) as r, (n / 128) as q. intros r q Hr -> Hq0.
  assert (0 < 2 ^ m) as Hpow by (apply Z.pow_pos_nonneg; lia).
  assert (0 <= r * 2 ^ m) by nia. assert (0 <= q * 2 ^ m) by nia.
  assert (Z.lor v (to_u32 (Z.shiftl r m)) = v + r * 2 ^ m) as Hval.
  { rewrite to_u32_id; [apply lor_shiftl_add; lia|]. unfold is_u32.
    rewrite Z.shiftl_mul_pow2 by lia. lia. }
  destruct (0 <? q) eqn:Hq; bool_to_prop.
  - rewrite (proj2 (Z.eqb_neq q 0)), lor_128 by lia.
    rewrite <- app_comm_cons. cbn [DecodeLength_loop].
    rewrite land_127, land_128_eqb by (unfold is_u8; lia).
    replace ((r + 128) mod 128) with r by (Z.to_euclidean_division_equations; lia).
    rewrite Hval, (proj2 (Z.ltb_ge 268435455 _)), (proj2 (Z.ltb_ge _ 128)) by lia.
    assert (m < 21) as Hm21.
    { apply (proj2 (Z.pow_lt_mono_r_iff 2 m 21 ltac:(lia) ltac:(lia))). change (2 ^ 21) with 2097152. nia. }
    rewrite to_u32_id by (unfold is_u32; lia).
    assert (2 ^ (m + 7) = 128 * 2 ^ m) as Hp7 by (rewrite Z.pow_add_r by lia; lia).
    rewrite IH; rewrite ?Hp7; try nia.
    + cbn [length]. do 3 f_equal; lia.
    + destruct f; [cbn in Hn|]; lia.
  - assert (q = 0) as -> by lia. rewrite Z.eqb_refl.
    cbn [app DecodeLength_loop length]. rewrite land_127, land_128_eqb by (unfold is_u8; lia).
    rewrite Z.mod_small, Hval, (proj2 (Z.ltb_ge 268435455 _)), (proj2 (Z.ltb_lt _ 128)) by lia.
    do 3 f_equal; lia.
Qed.

Lemma DecodeLength_encode n rest :
  0 <= n <= 268435455 ->
  DecodeLength (encodeLength n ++ rest) = Ok (n, Z.of_nat (length (encodeLength n)), rest).
Proof.
  intros Hn. unfold DecodeLength, encodeLength.
  rewrite DecodeLength_loop_encode; [do 3 f_equal; lia|lia| |lia|lia|lia].
  split; [lia|]. eapply Z.le_lt_trans; [apply Hn|done].
Qed.

(** Every length from 0 to 268435455, the range of MQTT's variable byte
    integer, survives [encodeLength] followed by [DecodeLength]: the value is
    read back, the byte count is the number of bytes written and the bytes
    after it are left unread. *)
Theorem DecodeLength_encodeLength n rest :
  0 <= n <= 268435455 ->
  DecodeLength (encodeLength n ++ rest) = Ok (n, Z.of_nat (length (encodeLength n)), rest).
Proof. apply DecodeLength_encode. Qed.

Lemma DecodeLength_encodeLength_witness :
  DecodeLength (encodeLength 268435455 ++ [5]) = Ok (268435455, 4, [5]).
Proof. apply (DecodeLength_encodeLength 268435455 [5]). lia. Defined.

Lemma DecodeLength_loop_spec b m v bu n bu' rest :
  bytes_ok b -> 0 <= m -> 0 <= v -> DecodeLength_loop b m v bu = Ok (n, bu', rest) ->
  exists used, b = used ++ rest /\ bu' = bu + Z.of_nat (length used) - 1 /\
    (0 < length used)%nat /\ v <= n <= 268435455.
Proof.
  intros Hb. revert m v bu. induction Hb as [|x b Hx Hb IH]; intros m v bu Hm Hv; [done|].
  cbn [DecodeLength_loop]. set (v' := Z.lor v _).
  assert (v <= v') as Hle.
  { apply Z.ldiff_le; [apply Z.lor_nonneg; split; [done|apply to_u32_range]|].
    apply Z.bits_inj'. intros i Hi. unfold v'. rewrite Z.ldiff_spec, Z.lor_spec, Z.bits_0.
    by destruct (Z.testbit v i), (Z.testbit _ i). }
  destruct (268435455 <? v') eqn:E1; [done|]. bool_to_prop.
  destruct (Z.land x 128 =? 0) eqn:E2; intros H.
  - inv_result. simplify_eq. exists [x]. cbn [length app]. split_and!; [done|lia..].
  - apply IH in H as (used & -> & -> & Hlen & Hn); [|apply to_u32_range|lia].
    exists (x :: used). cbn [length app]. split_and!; [done|lia..].
Qed.

Lemma DecodeLength_used b n bu rest :
  bytes_ok b -> DecodeLength b = Ok (n, bu, rest) ->
  0 <= n <= 268435455 /\
  exists used, b = used ++ rest /\ bu = Z.of_nat (length used) /\ (0 < length used)%nat.
Proof.
  intros Hb H. apply DecodeLength_loop_spec in H as (used & -> & -> & Hl & Hn); [|done|lia|lia].
  split; [lia|]. exists used. split_and!; [done|lia..].
Qed.

(** A length accepted by [DecodeLength] is at most 268435455, the byte
    count it reports is exactly the number of bytes it consumed, at least one,
    and what it leaves is the rest of the input. *)
Theorem DecodeLength_bounds b n bu rest :
  bytes_ok b -> DecodeLength b = Ok (n, bu, rest) ->
  0 <= n <= 268435455 /\
  exists used, b = used ++ rest /\ bu = Z.of_nat (length used) /\ (0 < length used)%nat.
Proof. apply DecodeLength_used. Qed.

Lemma DecodeLength_bounds_witness :
  (0 <= 300 <= 268435455) /\
  exists used, [172; 2; 9] = used ++ [9] /\ 2 = Z.of_nat (length used) /\ (0 < length used)%nat.
Proof.
  apply (DecodeLength_bounds [172; 2; 9] 300 2 [9]); [|reflexivity].
  repeat constructor; done.
Defined.

Lemma DecodeLength_loop_returns b m v bu : returns (DecodeLength_loop b m v bu).
Proof.
  revert m v bu. unfold returns.
  induction b as [|x b IH]; intros m v bu; cbn [DecodeLength_loop]; [eauto|].
  destruct (_ <? _); [eauto|]. destruct (_ =? _); [eauto|]. apply IH.
Qed.

Lemma DecodeLength_returns b : returns (DecodeLength b).
Proof. apply DecodeLength_loop_returns. Qed.

(** A fifth byte is read after four continuation bytes: MQTT 1.5.5 allows at
    most four, and its decoder rejects this input. *)
Lemma DecodeLength_five_bytes :
  DecodeLength [128; 128; 128; 128; 0] = Ok (0, 5, []).
Proof. reflexivity. Qed.
