(* ===== verification/FixedHeader.v ===== *)
(** * The fixed header (packets/fixedheader.go)

    The packet type constants of packets/packets.go, the fixed header, its
    encoder and decoder, the table of flag bits the decoder accepts, and the
    round trip of a whole header. *)
From S2P Require Import Prelude Codes Codec.

(** Packet types. *)
Definition Reserved : Z := 0.
Definition Connect : Z := 1.
Definition Connack : Z := 2.
Definition Publish : Z := 3.
Definition Puback : Z := 4.
Definition Pubrec : Z := 5.
Definition Pubrel : Z := 6.
Definition Pubcomp : Z := 7.
Definition Subscribe : Z := 8.
Definition Suback : Z := 9.
Definition Unsubscribe : Z := 10.
Definition Unsuback : Z := 11.
Definition Pingreq : Z := 12.
Definition Pingresp : Z := 13.
Definition Disconnect : Z := 14.
Definition Auth : Z := 15.
(** Special byte for validating will properties. *)
Definition WillProperties : Z := 99.

Record FixedHeader := mkFixedHeader {
  fh_Remaining : Z;
  fh_Type : Z;
  fh_Qos : Z;
  fh_Dup : bool;
  fh_Retain : bool;
}.

(** [FixedHeader{}] *)
Definition FixedHeader0 : FixedHeader := mkFixedHeader 0 0 0 false false.

#[export] Instance FixedHeader_eq_dec : EqDecision FixedHeader.
Proof.
  intros a b.
  destruct (decide ((fh_Remaining a, fh_Type a, fh_Qos a, fh_Dup a, fh_Retain a)
                  = (fh_Remaining b, fh_Type b, fh_Qos b, fh_Dup b, fh_Retain b))) as [H|H].
  - left. destruct a, b. cbn in H. congruence.
  - right. congruence.
Defined.

Definition FixedHeader_first_byte (fh : FixedHeader) : Z :=
  Z.lor (Z.lor (Z.lor (to_u8 (Z.shiftl (fh_Type fh) 4))
                      (to_u8 (Z.shiftl (encodeBool (fh_Dup fh)) 3)))
               (to_u8 (Z.shiftl (fh_Qos fh) 1)))
        (encodeBool (fh_Retain fh)).

Definition FixedHeader_Encode (fh : FixedHeader) : bytes :=
  FixedHeader_first_byte fh :: encodeLength (fh_Remaining fh).

(** [(hb >> i) & 1] *)
Definition bit (hb i : Z) : Z := Z.land (Z.shiftr hb i) 1.

Definition FixedHeader_Decode (fh : FixedHeader) (hb : Z) : result error FixedHeader :=
  let fh := fh <| fh_Type := Z.shiftr hb 4 |> in
  fh ←
    (if fh_Type fh =? Publish then
       if (0 <? Z.land (Z.shiftr hb 1) 1) && (0 <? Z.land (Z.shiftr hb 1) 2)
       then Err (ECode ErrProtocolViolationQosOutOfRange)
       else Ok (fh <| fh_Dup := 0 <? bit hb 3 |>
                   <| fh_Qos := Z.land (Z.shiftr hb 1) 3 |>
                   <| fh_Retain := 0 <? Z.land hb 1 |>)
     else if (fh_Type fh =? Pubrel) || (fh_Type fh =? Subscribe) || (fh_Type fh =? Unsubscribe) then
       if negb (bit hb 0 =? 0) || negb (bit hb 1 =? 1) || negb (bit hb 2 =? 0) || negb (bit hb 3 =? 0)
       then Err (ECode ErrMalformedFlags)
       else Ok (fh <| fh_Qos := Z.land (Z.shiftr hb 1) 3 |>)
     else
       if negb (bit hb 0 =? 0) || negb (bit hb 1 =? 0) || negb (bit hb 2 =? 0) || negb (bit hb 3 =? 0)
       then Err (ECode ErrMalformedFlags)
       else Ok fh);
  if (fh_Qos fh =? 0) && fh_Dup fh then Err (ECode ErrProtocolViolationDupNoQos)
  else Ok fh.

(** ** Specification: the flag bits of table 2-2 of MQTT

    Stated on the arithmetic of the byte: the high four bits are the packet
    type, the low four its flags. *)
Definition flags_allowed (ty flags : Z) : bool :=
  if ty =? Publish then
    negb (flags / 2 mod 4 =? 3) && negb ((flags / 8 =? 1) && (flags / 2 mod 4 =? 0))
  else if bool_decide (ty ∈ [Pubrel; Subscribe; Unsubscribe]) then flags =? 2
  else flags =? 0.

Lemma is_u8_cases (P : Z -> bool) :
  forallb P (map Z.of_nat (seq 0 256)) = true -> forall b, is_u8 b -> P b = true.
Proof.
  intros H b Hb. rewrite forallb_forall in H. apply H.
  unfold is_u8 in Hb. rewrite <- (Z2Nat.id b) by lia. apply in_map, in_seq. lia.
Qed.

Lemma FixedHeader_Decode_table hb :
  is_u8 hb ->
  match FixedHeader_Decode FixedHeader0 hb with
  | Ok fh => flags_allowed (hb / 16) (hb mod 16) = true /\
             fh = mkFixedHeader 0 (hb / 16) (hb mod 16 / 2 mod 4) (hb mod 16 / 8 =? 1) (hb mod 2 =? 1)
  | Err _ => flags_allowed (hb / 16) (hb mod 16) = false
  | _ => False
  end.
Proof.
  intros Hb.
  pose (P := fun hb => match FixedHeader_Decode FixedHeader0 hb with
    | Ok fh => flags_allowed (hb / 16) (hb mod 16) && bool_decide
        (fh = mkFixedHeader 0 (hb / 16) (hb mod 16 / 2 mod 4) (hb mod 16 / 8 =? 1) (hb mod 2 =? 1))
    | Err _ => negb (flags_allowed (hb / 16) (hb mod 16))
    | _ => false
    end).
  assert (P hb = true) as H by (by apply is_u8_cases; [vm_compute|]).
  unfold P in H. destruct (FixedHeader_Decode FixedHeader0 hb); bool_to_prop; done.
Qed.

(** For every byte, [FixedHeader.Decode] of a fresh header succeeds
    exactly when the flag bits are those MQTT allows for the packet type in the
    high bits; the header it then returns has that type and the qos, dup and
    retain bits of the byte (all clear except for publish, and qos 1 for
    pubrel, subscribe and unsubscribe). *)
Theorem FixedHeader_Decode_flags hb :
  is_u8 hb ->
  match FixedHeader_Decode FixedHeader0 hb with
  | Ok fh => flags_allowed (hb / 16) (hb mod 16) = true /\
             fh = mkFixedHeader 0 (hb / 16) (hb mod 16 / 2 mod 4) (hb mod 16 / 8 =? 1) (hb mod 2 =? 1)
  | Err _ => flags_allowed (hb / 16) (hb mod 16) = false
  | _ => False
  end.
Proof. apply FixedHeader_Decode_table. Qed.

Lemma FixedHeader_Decode_flags_witness :
  flags_allowed (61 / 16) (61 mod 16) = true /\
  mkFixedHeader 0 3 2 true true
  = mkFixedHeader 0 (61 / 16) (61 mod 16 / 2 mod 4) (61 mod 16 / 8 =? 1) (61 mod 2 =? 1).
Proof. exact (FixedHeader_Decode_flags 61 ltac:(unfold is_u8; lia)). Defined.

(** A header a broker can send: a type of four bits with flags allowed for it. *)
Definition FixedHeader_valid (fh : FixedHeader) : bool :=
  (0 <=? fh_Type fh) && (fh_Type fh <? 16) && (0 <=? fh_Qos fh) && (fh_Qos fh <? 3) &&
  (0 <=? fh_Remaining fh) && (fh_Remaining fh <=? 268435455) &&
  flags_allowed (fh_Type fh) (8 * encodeBool (fh_Dup fh) + 2 * fh_Qos fh + encodeBool (fh_Retain fh)).

Lemma FixedHeader_first_byte_sum fh :
  0 <= fh_Type fh < 16 -> 0 <= fh_Qos fh < 4 ->
  FixedHeader_first_byte fh =
    16 * fh_Type fh + 8 * encodeBool (fh_Dup fh) + 2 * fh_Qos fh + encodeBool (fh_Retain fh).
Proof.
  unfold FixedHeader_first_byte. destruct fh as [rem t q d r]. cbn. intros Ht Hq.
  assert (exists n, t = Z.of_nat n /\ (n < 16)%nat) as (n & -> & Hn) by (exists (Z.to_nat t); lia).
  assert (exists k, q = Z.of_nat k /\ (k < 4)%nat) as (k & -> & Hk) by (exists (Z.to_nat q); lia).
  clear Ht Hq.
  do 16 (destruct n as [|n]; [do 4 (destruct k as [|k]; [by destruct d, r|]); lia|]). lia.
Qed.

Lemma FixedHeader_first_byte_decode fh :
  FixedHeader_valid fh = true ->
  FixedHeader_Decode FixedHeader0 (FixedHeader_first_byte fh) = Ok (fh <| fh_Remaining := 0 |>).
Proof.
  unfold FixedHeader_valid. intros H. bool_to_prop.
  rewrite FixedHeader_first_byte_sum by lia.
  destruct fh as [rem t q d r]. cbn -[Z.mul flags_allowed encodeBool] in *.
  assert (is_u8 (16 * t + 8 * encodeBool d + 2 * q + encodeBool r)) as Hu
    by (unfold is_u8; destruct d, r; cbn; lia).
  pose proof (FixedHeader_Decode_table _ Hu) as Hd.
  assert ((16 * t + 8 * encodeBool d + 2 * q + encodeBool r) / 16 = t /\
          (16 * t + 8 * encodeBool d + 2 * q + encodeBool r) mod 16 =
          8 * encodeBool d + 2 * q + encodeBool r) as [Ht Hf].
  { destruct d, r; cbn [encodeBool]; Z.to_euclidean_division_equations; lia. }
  rewrite Ht, Hf in Hd.
  destruct (FixedHeader_Decode _ _) as [fh| | |]; try congruence; [|done..].
  destruct Hd as [_ ->]. clear Ht Hf Hu. f_equal.
  f_equal; destruct d, r; cbn [encodeBool]; try apply Z.eqb_eq; try apply Z.eqb_neq;
    Z.to_euclidean_division_equations; lia.
Qed.

(** A header with flags allowed for its type and a remaining length in
    range is read back from what [FixedHeader.Encode] wrote: decoding the first
    byte gives its type, qos, dup and retain, and [DecodeLength] of the bytes
    that follow gives the remaining length and leaves the packet body. *)
Theorem FixedHeader_roundtrip fh body :
  FixedHeader_valid fh = true ->
  exists hb lenb,
    FixedHeader_Encode fh ++ body = hb :: lenb /\
    FixedHeader_Decode FixedHeader0 hb = Ok (fh <| fh_Remaining := 0 |>) /\
    DecodeLength lenb = Ok (fh_Remaining fh, Z.of_nat (length (encodeLength (fh_Remaining fh))), body).
Proof.
  intros H. exists (FixedHeader_first_byte fh), (encodeLength (fh_Remaining fh) ++ body).
  split_and!; [done|by apply FixedHeader_first_byte_decode|].
  apply DecodeLength_encode. unfold FixedHeader_valid in H. bool_to_prop. lia.
Qed.

Lemma FixedHeader_roundtrip_witness :
  exists hb lenb,
    FixedHeader_Encode (mkFixedHeader 321 Publish 1 true false) ++ [1; 2] = hb :: lenb /\
    FixedHeader_Decode FixedHeader0 hb = Ok (mkFixedHeader 0 Publish 1 true false) /\
    DecodeLength lenb = Ok (321, 2, [1; 2]).
Proof. exact (FixedHeader_roundtrip (mkFixedHeader 321 Publish 1 true false) [1; 2] eq_refl). Defined.
