(* ===== verification/Properties.v ===== *)
(** * MQTT v5 properties (packets/properties.go)

    The property record, its copy, its encoder and its decoder, as executable
    definitions. Correctness is in [PropertiesFacts]. *)
From S2P Require Import Prelude Codes Codec FixedHeader.

(** Property identifiers. *)
Definition PropPayloadFormat : Z := 1.
Definition PropMessageExpiryInterval : Z := 2.
Definition PropContentType : Z := 3.
Definition PropResponseTopic : Z := 8.
Definition PropCorrelationData : Z := 9.
Definition PropSubscriptionIdentifier : Z := 11.
Definition PropSessionExpiryInterval : Z := 17.
Definition PropAssignedClientID : Z := 18.
Definition PropServerKeepAlive : Z := 19.
Definition PropAuthenticationMethod : Z := 21.
Definition PropAuthenticationData : Z := 22.
Definition PropRequestProblemInfo : Z := 23.
Definition PropWillDelayInterval : Z := 24.
Definition PropRequestResponseInfo : Z := 25.
Definition PropResponseInfo : Z := 26.
Definition PropServerReference : Z := 28.
Definition PropReasonString : Z := 31.
Definition PropReceiveMaximum : Z := 33.
Definition PropTopicAliasMaximum : Z := 34.
Definition PropTopicAlias : Z := 35.
Definition PropMaximumQos : Z := 36.
Definition PropRetainAvailable : Z := 37.
Definition PropUser : Z := 38.
Definition PropMaximumPacketSize : Z := 39.
Definition PropWildcardSubAvailable : Z := 40.
Definition PropSubIDAvailable : Z := 41.
Definition PropSharedSubAvailable : Z := 42.

(** The packet types a property is valid for, as the table lists them. *)
Definition packets_of_property (k : Z) : list Z :=
  if k =? PropPayloadFormat then [Publish; WillProperties]
  else if k =? PropMessageExpiryInterval then [Publish; WillProperties]
  else if k =? PropContentType then [Publish; WillProperties]
  else if k =? PropResponseTopic then [Publish; WillProperties]
  else if k =? PropCorrelationData then [Publish; WillProperties]
  else if k =? PropSubscriptionIdentifier then [Publish; Subscribe]
  else if k =? PropSessionExpiryInterval then [Connect; Connack; Disconnect]
  else if k =? PropAssignedClientID then [Connack]
  else if k =? PropServerKeepAlive then [Connack]
  else if k =? PropAuthenticationMethod then [Connect; Connack; Auth]
  else if k =? PropAuthenticationData then [Connect; Connack; Auth]
  else if k =? PropRequestProblemInfo then [Connect]
  else if k =? PropWillDelayInterval then [WillProperties]
  else if k =? PropRequestResponseInfo then [Connect]
  else if k =? PropResponseInfo then [Connack]
  else if k =? PropServerReference then [Connack; Disconnect]
  else if k =? PropReasonString then
    [Connack; Puback; Pubrec; Pubrel; Pubcomp; Suback; Unsuback; Disconnect; Auth]
  else if k =? PropReceiveMaximum then [Connect; Connack]
  else if k =? PropTopicAliasMaximum then [Connect; Connack]
  else if k =? PropTopicAlias then [Publish]
  else if k =? PropMaximumQos then [Connack]
  else if k =? PropRetainAvailable then [Connack]
  else if k =? PropUser then
    [Connect; Connack; Publish; Puback; Pubrec; Pubrel; Pubcomp; Subscribe; Suback;
     Unsubscribe; Unsuback; Disconnect; Auth; WillProperties]
  else if k =? PropMaximumPacketSize then [Connect; Connack]
  else if k =? PropWildcardSubAvailable then [Connack]
  else if k =? PropSubIDAvailable then [Connack]
  else if k =? PropSharedSubAvailable then [Connack]
  else [].

(** [validPacketProperties[k][pkt]] is present (and then 1). *)
Definition validPacketProperties (k pkt : Z) : bool :=
  existsb (Z.eqb pkt) (packets_of_property k).

Record UserProperty := mkUserProperty {
  up_Key : gostr;
  up_Val : gostr;
}.

Record Properties := mkProperties {
  pr_CorrelationData : bytes;
  pr_SubscriptionIdentifier : list Z;
  pr_AuthenticationData : bytes;
  pr_User : list UserProperty;
  pr_ContentType : gostr;
  pr_ResponseTopic : gostr;
  pr_AssignedClientID : gostr;
  pr_AuthenticationMethod : gostr;
  pr_ResponseInfo : gostr;
  pr_ServerReference : gostr;
  pr_ReasonString : gostr;
  pr_MessageExpiryInterval : Z;
  pr_SessionExpiryInterval : Z;
  pr_WillDelayInterval : Z;
  pr_MaximumPacketSize : Z;
  pr_ServerKeepAlive : Z;
  pr_ReceiveMaximum : Z;
  pr_TopicAliasMaximum : Z;
  pr_TopicAlias : Z;
  pr_PayloadFormat : Z;
  pr_PayloadFormatFlag : bool;
  pr_SessionExpiryIntervalFlag : bool;
  pr_ServerKeepAliveFlag : bool;
  pr_RequestProblemInfo : Z;
  pr_RequestProblemInfoFlag : bool;
  pr_RequestResponseInfo : Z;
  pr_TopicAliasFlag : bool;
  pr_MaximumQos : Z;
  pr_MaximumQosFlag : bool;
  pr_RetainAvailable : Z;
  pr_RetainAvailableFlag : bool;
  pr_WildcardSubAvailable : Z;
  pr_WildcardSubAvailableFlag : bool;
  pr_SubIDAvailable : Z;
  pr_SubIDAvailableFlag : bool;
  pr_SharedSubAvailable : Z;
  pr_SharedSubAvailableFlag : bool;
}.

(** [Properties{}] *)
Definition Properties0 : Properties :=
  mkProperties [] [] [] [] [] [] [] [] [] [] [] 0 0 0 0 0 0 0 0 0 false false false 0 false 0
    false 0 false 0 false 0 false 0 false 0 false.

(** [type Mods struct] (packets.go): broker values controlling the encoding. *)
Record Mods := mkMods {
  mod_MaxSize : Z;
  mod_DisallowProblemInfo : bool;
  mod_AllowResponseInfo : bool;
}.

Definition Mods0 : Mods := mkMods 0 false false.

(** [Properties.Copy]: every value, with the topic alias only when
    [allowTransfer]. *)
Definition Properties_Copy (p : Properties) (allowTransfer : bool) : Properties := {|
  pr_PayloadFormat := pr_PayloadFormat p;
  pr_PayloadFormatFlag := pr_PayloadFormatFlag p;
  pr_MessageExpiryInterval := pr_MessageExpiryInterval p;
  pr_ContentType := pr_ContentType p;
  pr_ResponseTopic := pr_ResponseTopic p;
  pr_SessionExpiryInterval := pr_SessionExpiryInterval p;
  pr_SessionExpiryIntervalFlag := pr_SessionExpiryIntervalFlag p;
  pr_AssignedClientID := pr_AssignedClientID p;
  pr_ServerKeepAlive := pr_ServerKeepAlive p;
  pr_ServerKeepAliveFlag := pr_ServerKeepAliveFlag p;
  pr_AuthenticationMethod := pr_AuthenticationMethod p;
  pr_RequestProblemInfo := pr_RequestProblemInfo p;
  pr_RequestProblemInfoFlag := pr_RequestProblemInfoFlag p;
  pr_WillDelayInterval := pr_WillDelayInterval p;
  pr_RequestResponseInfo := pr_RequestResponseInfo p;
  pr_ResponseInfo := pr_ResponseInfo p;
  pr_ServerReference := pr_ServerReference p;
  pr_ReasonString := pr_ReasonString p;
  pr_ReceiveMaximum := pr_ReceiveMaximum p;
  pr_TopicAliasMaximum := pr_TopicAliasMaximum p;
  pr_TopicAlias := if allowTransfer then pr_TopicAlias p else 0;
  pr_TopicAliasFlag := if allowTransfer then pr_TopicAliasFlag p else false;
  pr_MaximumQos := pr_MaximumQos p;
  pr_MaximumQosFlag := pr_MaximumQosFlag p;
  pr_RetainAvailable := pr_RetainAvailable p;
  pr_RetainAvailableFlag := pr_RetainAvailableFlag p;
  pr_MaximumPacketSize := pr_MaximumPacketSize p;
  pr_WildcardSubAvailable := pr_WildcardSubAvailable p;
  pr_WildcardSubAvailableFlag := pr_WildcardSubAvailableFlag p;
  pr_SubIDAvailable := pr_SubIDAvailable p;
  pr_SubIDAvailableFlag := pr_SubIDAvailableFlag p;
  pr_SharedSubAvailable := pr_SharedSubAvailable p;
  pr_SharedSubAvailableFlag := pr_SharedSubAvailableFlag p;
  pr_CorrelationData := pr_CorrelationData p;
  pr_SubscriptionIdentifier := pr_SubscriptionIdentifier p;
  pr_AuthenticationData := pr_AuthenticationData p;
  pr_User := map (fun v => mkUserProperty (up_Key v) (up_Val v)) (pr_User p);
|}.

Definition canEncode (pkt k : Z) : bool := validPacketProperties k pkt.

(** [len(s) > 0], [s != ""] *)
Definition nonempty {A} (l : list A) : bool := match l with [] => false | _ => true end.

(** A block of the encoder: written to the buffer only under its condition. *)
Definition block (c : bool) (b : bytes) : bytes := if c then b else [].

(** [mods.MaxSize == 0 || uint32(n+l+1) < mods.MaxSize] *)
Definition fits_max_size (mods : Mods) (n l : nat) : bool :=
  (mod_MaxSize mods =? 0) || (to_u32 (Z.of_nat (n + l + 1)) <? mod_MaxSize mods).

Definition encode_user (u : list UserProperty) : bytes :=
  concat (map (fun v => PropUser :: encodeString (up_Key v) ++ encodeString (up_Val v)) u).

Definition encode_subids (ids : list Z) : bytes :=
  concat (map (fun v => block (0 <? v) (PropSubscriptionIdentifier :: encodeLength v)) ids).

(** The properties written by [Properties.Encode], in the source's order. *)
Definition Properties_Encode_body (pkt : Z) (mods : Mods) (p : Properties) (n : nat) : bytes :=
  block (canEncode pkt PropPayloadFormat && pr_PayloadFormatFlag p)
    [PropPayloadFormat; pr_PayloadFormat p] ++
  block (canEncode pkt PropMessageExpiryInterval && (0 <? pr_MessageExpiryInterval p))
    (PropMessageExpiryInterval :: encodeUint32 (pr_MessageExpiryInterval p)) ++
  block (canEncode pkt PropContentType && nonempty (pr_ContentType p))
    (PropContentType :: encodeString (pr_ContentType p)) ++
  block (mod_AllowResponseInfo mods && canEncode pkt PropResponseTopic &&
         nonempty (pr_ResponseTopic p) && negb (contains_any (pr_ResponseTopic p) !"+#"))
    (PropResponseTopic :: encodeString (pr_ResponseTopic p)) ++
  block (mod_AllowResponseInfo mods && canEncode pkt PropCorrelationData &&
         nonempty (pr_CorrelationData p))
    (PropCorrelationData :: encodeBytes (pr_CorrelationData p)) ++
  block (canEncode pkt PropSubscriptionIdentifier && nonempty (pr_SubscriptionIdentifier p))
    (encode_subids (pr_SubscriptionIdentifier p)) ++
  block (canEncode pkt PropSessionExpiryInterval && pr_SessionExpiryIntervalFlag p)
    (PropSessionExpiryInterval :: encodeUint32 (pr_SessionExpiryInterval p)) ++
  block (canEncode pkt PropAssignedClientID && nonempty (pr_AssignedClientID p))
    (PropAssignedClientID :: encodeString (pr_AssignedClientID p)) ++
  block (canEncode pkt PropServerKeepAlive && pr_ServerKeepAliveFlag p)
    (PropServerKeepAlive :: encodeUint16 (pr_ServerKeepAlive p)) ++
  block (canEncode pkt PropAuthenticationMethod && nonempty (pr_AuthenticationMethod p))
    (PropAuthenticationMethod :: encodeString (pr_AuthenticationMethod p)) ++
  block (canEncode pkt PropAuthenticationData && nonempty (pr_AuthenticationData p))
    (PropAuthenticationData :: encodeBytes (pr_AuthenticationData p)) ++
  block (canEncode pkt PropRequestProblemInfo && pr_RequestProblemInfoFlag p)
    [PropRequestProblemInfo; pr_RequestProblemInfo p] ++
  block (canEncode pkt PropWillDelayInterval && (0 <? pr_WillDelayInterval p))
    (PropWillDelayInterval :: encodeUint32 (pr_WillDelayInterval p)) ++
  block (canEncode pkt PropRequestResponseInfo && (0 <? pr_RequestResponseInfo p))
    [PropRequestResponseInfo; pr_RequestResponseInfo p] ++
  block (mod_AllowResponseInfo mods && canEncode pkt PropResponseInfo && nonempty (pr_ResponseInfo p))
    (PropResponseInfo :: encodeString (pr_ResponseInfo p)) ++
  block (canEncode pkt PropServerReference && nonempty (pr_ServerReference p))
    (PropServerReference :: encodeString (pr_ServerReference p)) ++
  block (negb (mod_DisallowProblemInfo mods) && canEncode pkt PropReasonString &&
         nonempty (pr_ReasonString p) &&
         fits_max_size mods n (length (encodeString (pr_ReasonString p))))
    (PropReasonString :: encodeString (pr_ReasonString p)) ++
  block (canEncode pkt PropReceiveMaximum && (0 <? pr_ReceiveMaximum p))
    (PropReceiveMaximum :: encodeUint16 (pr_ReceiveMaximum p)) ++
  block (canEncode pkt PropTopicAliasMaximum && (0 <? pr_TopicAliasMaximum p))
    (PropTopicAliasMaximum :: encodeUint16 (pr_TopicAliasMaximum p)) ++
  block (canEncode pkt PropTopicAlias && pr_TopicAliasFlag p && (0 <? pr_TopicAlias p))
    (PropTopicAlias :: encodeUint16 (pr_TopicAlias p)) ++
  block (canEncode pkt PropMaximumQos && pr_MaximumQosFlag p && (pr_MaximumQos p <? 2))
    [PropMaximumQos; pr_MaximumQos p] ++
  block (canEncode pkt PropRetainAvailable && pr_RetainAvailableFlag p)
    [PropRetainAvailable; pr_RetainAvailable p] ++
  block (negb (mod_DisallowProblemInfo mods) && canEncode pkt PropUser &&
         fits_max_size mods n (length (encode_user (pr_User p))))
    (encode_user (pr_User p)) ++
  block (canEncode pkt PropMaximumPacketSize && (0 <? pr_MaximumPacketSize p))
    (PropMaximumPacketSize :: encodeUint32 (pr_MaximumPacketSize p)) ++
  block (canEncode pkt PropWildcardSubAvailable && pr_WildcardSubAvailableFlag p)
    [PropWildcardSubAvailable; pr_WildcardSubAvailable p] ++
  block (canEncode pkt PropSubIDAvailable && pr_SubIDAvailableFlag p)
    [PropSubIDAvailable; pr_SubIDAvailable p] ++
  block (canEncode pkt PropSharedSubAvailable && pr_SharedSubAvailableFlag p)
    [PropSharedSubAvailable; pr_SharedSubAvailable p].

(** [Properties.Encode]: the length of the properties, then the properties. *)
Definition Properties_Encode (pkt : Z) (mods : Mods) (p : Properties) (n : nat) : bytes :=
  let buf := Properties_Encode_body pkt mods p n in
  encodeLength (Z.of_nat (length buf)) ++ buf.

(** Reads one value with [dec] and stores it in the properties. *)
Definition read_field {A} (dec : bytes -> nat -> result error (A * nat))
    (store : A -> Properties) (bt : bytes) (offset : nat) : result error (Properties * nat) :=
  '(v, off) ← dec bt offset; Ok (store v, off).

(** The variable byte integer at [offset], as the decoder reads it there. *)
Definition decodeSubID (bt : bytes) (offset : nat) : result error (Z * nat) :=
  b ← slice_from bt offset;
  '(n, bu, _) ← DecodeLength b;
  Ok (n, (offset + Z.to_nat bu)%nat).

Definition decodeUser (bt : bytes) (offset : nat) : result error (UserProperty * nat) :=
  '(k, off) ← decodeString bt offset;
  '(v, off) ← decodeString bt off;
  Ok (mkUserProperty k v, off).

(** The [switch k] of [Properties.Decode]: one property value at [offset]. *)
Definition Properties_Decode_field (k : Z) (bt : bytes) (offset : nat) (p : Properties)
    : result error (Properties * nat) :=
  if k =? PropPayloadFormat then
    read_field decodeByte (fun v => p <| pr_PayloadFormat := v |> <| pr_PayloadFormatFlag := true |>) bt offset
  else if k =? PropMessageExpiryInterval then
    read_field decodeUint32 (fun v => p <| pr_MessageExpiryInterval := v |>) bt offset
  else if k =? PropContentType then
    read_field decodeString (fun v => p <| pr_ContentType := v |>) bt offset
  else if k =? PropResponseTopic then
    read_field decodeString (fun v => p <| pr_ResponseTopic := v |>) bt offset
  else if k =? PropCorrelationData then
    read_field decodeBytes (fun v => p <| pr_CorrelationData := v |>) bt offset
  else if k =? PropSubscriptionIdentifier then
    read_field decodeSubID
      (fun v => p <| pr_SubscriptionIdentifier := pr_SubscriptionIdentifier p ++ [v] |>) bt offset
  else if k =? PropSessionExpiryInterval then
    read_field decodeUint32
      (fun v => p <| pr_SessionExpiryInterval := v |> <| pr_SessionExpiryIntervalFlag := true |>) bt offset
  else if k =? PropAssignedClientID then
    read_field decodeString (fun v => p <| pr_AssignedClientID := v |>) bt offset
  else if k =? PropServerKeepAlive then
    read_field decodeUint16
      (fun v => p <| pr_ServerKeepAlive := v |> <| pr_ServerKeepAliveFlag := true |>) bt offset
  else if k =? PropAuthenticationMethod then
    read_field decodeString (fun v => p <| pr_AuthenticationMethod := v |>) bt offset
  else if k =? PropAuthenticationData then
    read_field decodeBytes (fun v => p <| pr_AuthenticationData := v |>) bt offset
  else if k =? PropRequestProblemInfo then
    read_field decodeByte
      (fun v => p <| pr_RequestProblemInfo := v |> <| pr_RequestProblemInfoFlag := true |>) bt offset
  else if k =? PropWillDelayInterval then
    read_field decodeUint32 (fun v => p <| pr_WillDelayInterval := v |>) bt offset
  else if k =? PropRequestResponseInfo then
    read_field decodeByte (fun v => p <| pr_RequestResponseInfo := v |>) bt offset
  else if k =? PropResponseInfo then
    read_field decodeString (fun v => p <| pr_ResponseInfo := v |>) bt offset
  else if k =? PropServerReference then
    read_field decodeString (fun v => p <| pr_ServerReference := v |>) bt offset
  else if k =? PropReasonString then
    read_field decodeString (fun v => p <| pr_ReasonString := v |>) bt offset
  else if k =? PropReceiveMaximum then
    read_field decodeUint16 (fun v => p <| pr_ReceiveMaximum := v |>) bt offset
  else if k =? PropTopicAliasMaximum then
    read_field decodeUint16 (fun v => p <| pr_TopicAliasMaximum := v |>) bt offset
  else if k =? PropTopicAlias then
    read_field decodeUint16
      (fun v => p <| pr_TopicAlias := v |> <| pr_TopicAliasFlag := true |>) bt offset
  else if k =? PropMaximumQos then
    read_field decodeByte
      (fun v => p <| pr_MaximumQos := v |> <| pr_MaximumQosFlag := true |>) bt offset
  else if k =? PropRetainAvailable then
    read_field decodeByte
      (fun v => p <| pr_RetainAvailable := v |> <| pr_RetainAvailableFlag := true |>) bt offset
  else if k =? PropUser then
    read_field decodeUser (fun v => p <| pr_User := pr_User p ++ [v] |>) bt offset
  else if k =? PropMaximumPacketSize then
    read_field decodeUint32 (fun v => p <| pr_MaximumPacketSize := v |>) bt offset
  else if k =? PropWildcardSubAvailable then
    read_field decodeByte
      (fun v => p <| pr_WildcardSubAvailable := v |> <| pr_WildcardSubAvailableFlag := true |>) bt offset
  else if k =? PropSubIDAvailable then
    read_field decodeByte
      (fun v => p <| pr_SubIDAvailable := v |> <| pr_SubIDAvailableFlag := true |>) bt offset
  else if k =? PropSharedSubAvailable then
    read_field decodeByte
      (fun v => p <| pr_SharedSubAvailable := v |> <| pr_SharedSubAvailableFlag := true |>) bt offset
  else Ok (p, offset).

(** [for offset := 0; offset < n; { ... }] *)
Fixpoint Properties_Decode_loop (fuel : nat) (pkt : Z) (bt : bytes) (n offset : nat) (p : Properties)
    : result error Properties :=
  if (n <=? offset)%nat then Ok p
  else match fuel with
  | O => Diverge
  | S fuel' =>
      '(k, offset) ← decodeByte bt offset;
      if negb (validPacketProperties k pkt)
      then Err (EProperty k pkt ErrProtocolViolationUnsupportedProperty)
      else
        '(p, offset) ← Properties_Decode_field k bt offset p;
        Properties_Decode_loop fuel' pkt bt n offset p
  end.

(** [Properties.Decode]: the updated properties and the number of bytes of the
    properties section, length included. *)
Definition Properties_Decode (p : Properties) (pkt : Z) (b : bytes) : result error (Properties * nat) :=
  '(n, bu, bt) ← DecodeLength b;
  if n =? 0 then Ok (p, Z.to_nat (n + bu))
  else
    p ← Properties_Decode_loop (Z.to_nat n) pkt bt (Z.to_nat n) 0 p;
    Ok (p, Z.to_nat (n + bu)).
