(* ===== verification/PropertiesFacts.v ===== *)
(** * Correctness of the properties codec

    [Properties_Decode] always returns, consumes no more than its buffer, and
    reads back what [Properties_Encode] wrote: exactly the properties that are
    valid for the packet type and not suppressed by the broker's modifiers. *)
From S2P Require Import Prelude Codes Codec FixedHeader Properties.

(** ** The decoder returns and stays inside its buffer *)

(** [dec] never panics or diverges, and on success it moves the offset forward
    without leaving the buffer. *)
Definition well_behaved {A} (dec : bytes -> nat -> result error (A * nat)) : Prop :=
  forall buf off, (off <= length buf)%nat ->
    (exists v off', dec buf off = Ok (v, off') /\ (off < off' <= length buf)%nat)
    \/ (exists e, dec buf off = Err e).

Lemma decodeByte_well_behaved : well_behaved decodeByte.
Proof.
  intros buf off _. destruct (decodeByte buf off) as [[v off']| e | | ] eqn:E; [|by eauto|..].
  - apply decodeByte_offset in E as H. left. exists v, off'. split; [done|lia].
  - unfold decodeByte in E. by destruct (buf !! off).
  - unfold decodeByte in E. by destruct (buf !! off).
Qed.

Lemma decodeByteBool_well_behaved : well_behaved decodeByteBool.
Proof.
  intros buf off _. destruct (decodeByteBool buf off) as [[v off']| e | | ] eqn:E; [|by eauto|..].
  - apply decodeByteBool_offset in E as H. left. exists v, off'. split; [done|lia].
  - unfold decodeByteBool in E. by destruct (buf !! off).
  - unfold decodeByteBool in E. by destruct (buf !! off).
Qed.

Lemma decodeUint16_well_behaved : well_behaved decodeUint16.
Proof.
  intros buf off _. unfold decodeUint16. split_ifs; [by eauto|]. left. do 2 eexists.
  split; [done|lia].
Qed.

Lemma decodeUint32_well_behaved : well_behaved decodeUint32.
Proof.
  intros buf off _. unfold decodeUint32. split_ifs; [by eauto|]. left. do 2 eexists.
  split; [done|lia].
Qed.

Lemma decodeBytes_well_behaved : well_behaved decodeBytes.
Proof.
  intros buf off Hoff. unfold decodeBytes.
  destruct (decodeUint16_well_behaved buf off Hoff) as [(v & off' & -> & H)|[e ->]]; cbn; [|by eauto].
  split_ifs; [by eauto|]. left. do 2 eexists. split; [done|lia].
Qed.

Lemma decodeString_well_behaved : well_behaved decodeString.
Proof.
  intros buf off Hoff. unfold decodeString.
  destruct (decodeBytes_well_behaved buf off Hoff) as [(v & off' & -> & H)|[e ->]]; cbn; [|by eauto].
  destruct (validUTF8 v); cbn; by eauto.
Qed.

Lemma decodeUser_well_behaved : well_behaved decodeUser.
Proof.
  intros buf off Hoff. unfold decodeUser.
  destruct (decodeString_well_behaved buf off Hoff) as [(k & o1 & -> & H1)|[e ->]]; cbn; [|by eauto].
  destruct (decodeString_well_behaved buf o1) as [(v & o2 & -> & H2)|[e ->]]; cbn; [lia| |by eauto].
  left. do 2 eexists. split; [done|lia].
Qed.

Lemma DecodeLength_loop_length b m v bu n bu' rest :
  0 <= v -> DecodeLength_loop b m v bu = Ok (n, bu', rest) ->
  bu' - bu + 1 = Z.of_nat (length b - length rest) /\ (length rest < length b)%nat /\ 0 <= n.
Proof.
  revert m v bu. induction b as [|x b IH]; intros m v bu Hv; cbn [DecodeLength_loop length]; [done|].
  set (v' := Z.lor v _).
  assert (0 <= v') by (apply Z.lor_nonneg; split; [done|apply to_u32_range]).
  destruct (_ <? _); [done|]. destruct (_ =? _); intros H'.
  - inv_result. simplify_eq. lia.
  - apply IH in H'; lia.
Qed.

Lemma decodeSubID_well_behaved : well_behaved decodeSubID.
Proof.
  intros buf off Hoff. unfold decodeSubID, slice_from.
  rewrite (proj2 (Nat.ltb_ge _ _)) by lia. cbn.
  destruct (DecodeLength_returns (drop off buf)) as [[[[n bu] rest] E]|[e ->]]; [|by eauto].
  rewrite E. cbn. apply DecodeLength_loop_length in E; [|done]. rewrite length_drop in E.
  left. do 2 eexists. split; [done|lia].
Qed.

Lemma read_field_well_behaved {A} (dec : bytes -> nat -> result error (A * nat)) store :
  well_behaved dec -> well_behaved (read_field dec store).
Proof.
  intros H buf off Hoff. unfold read_field.
  destruct (H buf off Hoff) as [(v & off' & -> & ?)|[e ->]]; cbn; [|by eauto].
  left. by do 2 eexists.
Qed.

#[export] Hint Resolve decodeByte_well_behaved decodeByteBool_well_behaved decodeUint16_well_behaved
  decodeUint32_well_behaved decodeBytes_well_behaved decodeString_well_behaved
  decodeUser_well_behaved decodeSubID_well_behaved read_field_well_behaved : go.

(** A key of the table is one of the cases of the decoder's [switch]. *)
Lemma Properties_Decode_field_well_behaved k pkt p :
  validPacketProperties k pkt = true ->
  well_behaved (fun bt off => Properties_Decode_field k bt off p).
Proof.
  unfold validPacketProperties, packets_of_property, Properties_Decode_field. intros H.
  repeat (destruct (k =? _); [by apply read_field_well_behaved; auto with go|]). discriminate.
Qed.

Lemma Properties_Decode_loop_returns fuel pkt bt n off p :
  (off <= length bt)%nat -> (n - off <= fuel)%nat ->
  (exists p', Properties_Decode_loop fuel pkt bt n off p = Ok p' /\ (n <= length bt)%nat)
  \/ (exists e, Properties_Decode_loop fuel pkt bt n off p = Err e).
Proof.
  revert off p. induction fuel as [|fuel IH]; intros off p Hoff Hfuel; cbn [Properties_Decode_loop];
    destruct (n <=? off)%nat eqn:Hn; bool_to_prop; try lia; try (left; eexists; split; [done|lia]).
  destruct (decodeByte_well_behaved bt off Hoff) as [(k & o1 & -> & H1)|[e ->]]; cbn; [|by eauto].
  destruct (validPacketProperties k pkt) eqn:V; cbn; [|by eauto].
  destruct (Properties_Decode_field_well_behaved k pkt p V bt o1) as [(p' & o2 & -> & H2)|[e ->]];
    cbn; [lia| |by eauto].
  apply IH; lia.
Qed.

Lemma Properties_Decode_returns p pkt b :
  (exists p' m, Properties_Decode p pkt b = Ok (p', m) /\ (0 < m <= length b)%nat)
  \/ (exists e, Properties_Decode p pkt b = Err e).
Proof.
  unfold Properties_Decode.
  destruct (DecodeLength_returns b) as [[[[n bu] bt] E]|[e ->]]; cbn; [|by eauto].
  rewrite E. cbn. apply DecodeLength_loop_length in E as (Hbu & Hlt & Hn0); [|done].
  destruct (n =? 0) eqn:Hn; bool_to_prop; [left; do 2 eexists; split; [done|lia]|].
  destruct (Properties_Decode_loop_returns (Z.to_nat n) pkt bt (Z.to_nat n) 0 p)
    as [(p' & -> & Hle)|[e ->]]; [lia|lia| |by eauto].
  cbn. left. do 2 eexists. split; [done|]. lia.
Qed.

(** [Properties.Decode] on any input returns: it never panics and its loop
    never runs out of the fuel the model gives it (the declared property
    length). When it succeeds, the section it reports is non-empty and lies
    within the buffer, so the callers' [buf[offset:]] after it is in range. *)
Theorem Properties_Decode_safe p pkt b :
  (exists p' m, Properties_Decode p pkt b = Ok (p', m) /\ (0 < m <= length b)%nat)
  \/ (exists e, Properties_Decode p pkt b = Err e).
Proof. apply Properties_Decode_returns. Qed.

(** ** Round trip

    [consumes pkt seg f]: wherever the bytes [seg] stand in the property
    section, the decoding loop passes over them and applies [f] to the
    properties read so far. *)
Definition consumes (pkt : Z) (seg : bytes) (f : Properties -> Properties) : Prop :=
  forall pre post n fuel p,
    (length pre + length seg <= n)%nat -> (n - length pre <= fuel)%nat ->
    exists fuel', (n - (length pre + length seg) <= fuel')%nat /\
      Properties_Decode_loop fuel pkt (pre ++ seg ++ post) n (length pre) p
      = Properties_Decode_loop fuel' pkt (pre ++ seg ++ post) n (length pre + length seg) (f p).

Section Consumes.
Context (pkt : Z).

Lemma consumes_nil : consumes pkt [] (fun p => p).
Proof. intros pre post n fuel p _ Hf. exists fuel. cbn. rewrite Nat.add_0_r. split; [lia|done]. Qed.

Lemma consumes_app s1 s2 f1 f2 :
  consumes pkt s1 f1 -> consumes pkt s2 f2 -> consumes pkt (s1 ++ s2) (fun p => f2 (f1 p)).
Proof.
  intros H1 H2 pre post n fuel p Hn Hf. rewrite length_app in Hn.
  destruct (H1 pre (s2 ++ post) n fuel p) as (fuel1 & Hf1 & E1); [lia..|].
  destruct (H2 (pre ++ s1) post n fuel1 (f1 p)) as (fuel2 & Hf2 & E2);
    [rewrite length_app; lia..|].
  rewrite !length_app, <- !app_assoc in *. rewrite E1, E2, Nat.add_assoc in *.
  exists fuel2. split; [lia|done].
Qed.

Lemma consumes_ext seg f g : (forall p, f p = g p) -> consumes pkt seg f -> consumes pkt seg g.
Proof.
  intros Hfg H pre post n fuel p Hn Hf.
  destruct (H pre post n fuel p Hn Hf) as (fuel' & ? & E). exists fuel'. by rewrite <- Hfg.
Qed.

Lemma consumes_block c seg f :
  (c = true -> consumes pkt seg f) -> consumes pkt (block c seg) (fun p => if c then f p else p).
Proof. destruct c; cbn; [auto|intros _; apply consumes_nil]. Qed.

Lemma consumes_concat {A} (enc : A -> bytes) (f : A -> Properties -> Properties) l :
  Forall (fun x => consumes pkt (enc x) (f x)) l ->
  consumes pkt (concat (map enc l)) (fun p => fold_left (fun p x => f x p) l p).
Proof.
  induction 1 as [|x l Hx Hl IH]; cbn [map concat fold_left]; [apply consumes_nil|].
  exact (consumes_app _ _ _ _ Hx IH).
Qed.

(** One property: its key, then a value that [dec] reads back. *)
Lemma consumes_field {A} k (dec : bytes -> nat -> result error (A * nat)) enc v
    (store : Properties -> A -> Properties) :
  canEncode pkt k = true -> decodes dec enc v ->
  (forall bt off p, Properties_Decode_field k bt off p = read_field dec (store p) bt off) ->
  consumes pkt (k :: enc) (fun p => store p v).
Proof.
  intros Hk Hdec Hfield pre post n fuel p Hn Hf. cbn [length] in *.
  destruct fuel as [|fuel]; [lia|]. exists fuel. split; [lia|].
  cbn [Properties_Decode_loop]. rewrite (proj2 (Nat.leb_gt _ _)) by lia.
  pose proof (decodeByte_encode k pre (enc ++ post)) as E. cbn [length app] in E.
  rewrite <- !app_comm_cons, E. mred.
  unfold canEncode in Hk. rewrite Hk. cbn [negb]. rewrite Hfield. unfold read_field.
  specialize (Hdec (pre ++ [k]) post). rewrite length_app, <- app_assoc in Hdec. cbn in Hdec.
  rewrite Hdec. mred. f_equal. lia.
Qed.

Lemma decodeSubID_encode v : 0 <= v <= 268435455 -> decodes decodeSubID (encodeLength v) v.
Proof.
  intros Hv pre post. unfold decodeSubID, slice_from. rewrite length_3app.
  rewrite (proj2 (Nat.ltb_ge _ _)) by lia. mred. rewrite drop_app_length.
  rewrite DecodeLength_encode by done. mred. by rewrite Nat2Z.id.
Qed.

Lemma decodeUser_encode u :
  validUTF8 (up_Key u) = true -> Z.of_nat (length (up_Key u)) < 65536 ->
  validUTF8 (up_Val u) = true -> Z.of_nat (length (up_Val u)) < 65536 ->
  decodes decodeUser (encodeString (up_Key u) ++ encodeString (up_Val u)) u.
Proof.
  intros H1 H2 H3 H4 pre post. unfold decodeUser. rewrite <- (app_assoc (encodeString _)).
  rewrite (decodeString_encode _ H1 H2). mred.
  pose proof (decodeString_encode _ H3 H4 (pre ++ encodeString (up_Key u)) post) as E.
  rewrite length_app, <- app_assoc in E. rewrite E. mred.
  rewrite length_app, Nat.add_assoc. by destruct u.
Qed.
End Consumes.

(** *** Well-formed properties: values that fit their wire format *)

Definition str_ok (s : gostr) : Prop := validUTF8 s = true /\ Z.of_nat (length s) < 65536.
Definition bin_ok (b : bytes) : Prop := Z.of_nat (length b) < 65536.

Record Properties_wf (p : Properties) : Prop := mkPropertiesWf {
  wf_CorrelationData : bin_ok (pr_CorrelationData p);
  wf_SubscriptionIdentifier : Forall (fun v => v <= 268435455) (pr_SubscriptionIdentifier p);
  wf_AuthenticationData : bin_ok (pr_AuthenticationData p);
  wf_User : Forall (fun u => str_ok (up_Key u) /\ str_ok (up_Val u)) (pr_User p);
  wf_ContentType : str_ok (pr_ContentType p);
  wf_ResponseTopic : str_ok (pr_ResponseTopic p);
  wf_AssignedClientID : str_ok (pr_AssignedClientID p);
  wf_AuthenticationMethod : str_ok (pr_AuthenticationMethod p);
  wf_ResponseInfo : str_ok (pr_ResponseInfo p);
  wf_ServerReference : str_ok (pr_ServerReference p);
  wf_ReasonString : str_ok (pr_ReasonString p);
  wf_MessageExpiryInterval : is_u32 (pr_MessageExpiryInterval p);
  wf_SessionExpiryInterval : is_u32 (pr_SessionExpiryInterval p);
  wf_WillDelayInterval : is_u32 (pr_WillDelayInterval p);
  wf_MaximumPacketSize : is_u32 (pr_MaximumPacketSize p);
  wf_ServerKeepAlive : is_u16 (pr_ServerKeepAlive p);
  wf_ReceiveMaximum : is_u16 (pr_ReceiveMaximum p);
  wf_TopicAliasMaximum : is_u16 (pr_TopicAliasMaximum p);
  wf_TopicAlias : is_u16 (pr_TopicAlias p);
}.

(** *** What reaches the other side

    The specification of the wire: a property is transmitted when MQTT allows
    it for the packet type, it has a value, and the modifiers do not suppress
    it; everything else is read as absent. *)
Definition sent {A} (c : bool) (v absent : A) : A := if c then v else absent.

Definition Properties_transmitted (pkt : Z) (mods : Mods) (n : nat) (p : Properties) : Properties :=
  let allowed k := validPacketProperties k pkt in
  let pf := allowed PropPayloadFormat && pr_PayloadFormatFlag p in
  let sei := allowed PropSessionExpiryInterval && pr_SessionExpiryIntervalFlag p in
  let ska := allowed PropServerKeepAlive && pr_ServerKeepAliveFlag p in
  let rpi := allowed PropRequestProblemInfo && pr_RequestProblemInfoFlag p in
  let ta := allowed PropTopicAlias && pr_TopicAliasFlag p && (0 <? pr_TopicAlias p) in
  let mq := allowed PropMaximumQos && pr_MaximumQosFlag p && (pr_MaximumQos p <? 2) in
  let ra := allowed PropRetainAvailable && pr_RetainAvailableFlag p in
  let wsa := allowed PropWildcardSubAvailable && pr_WildcardSubAvailableFlag p in
  let sia := allowed PropSubIDAvailable && pr_SubIDAvailableFlag p in
  let ssa := allowed PropSharedSubAvailable && pr_SharedSubAvailableFlag p in
  {|
    pr_PayloadFormat := sent pf (pr_PayloadFormat p) 0;
    pr_PayloadFormatFlag := sent pf true false;
    pr_MessageExpiryInterval :=
      sent (allowed PropMessageExpiryInterval && (0 <? pr_MessageExpiryInterval p))
        (pr_MessageExpiryInterval p) 0;
    pr_ContentType :=
      sent (allowed PropContentType && nonempty (pr_ContentType p)) (pr_ContentType p) [];
    pr_ResponseTopic :=
      sent (mod_AllowResponseInfo mods && allowed PropResponseTopic && nonempty (pr_ResponseTopic p) &&
            negb (contains_any (pr_ResponseTopic p) !"+#")) (pr_ResponseTopic p) [];
    pr_CorrelationData :=
      sent (mod_AllowResponseInfo mods && allowed PropCorrelationData && nonempty (pr_CorrelationData p))
        (pr_CorrelationData p) [];
    pr_SubscriptionIdentifier :=
      sent (allowed PropSubscriptionIdentifier && nonempty (pr_SubscriptionIdentifier p))
        (List.filter (Z.ltb 0) (pr_SubscriptionIdentifier p)) [];
    pr_SessionExpiryInterval := sent sei (pr_SessionExpiryInterval p) 0;
    pr_SessionExpiryIntervalFlag := sent sei true false;
    pr_AssignedClientID :=
      sent (allowed PropAssignedClientID && nonempty (pr_AssignedClientID p)) (pr_AssignedClientID p) [];
    pr_ServerKeepAlive := sent ska (pr_ServerKeepAlive p) 0;
    pr_ServerKeepAliveFlag := sent ska true false;
    pr_AuthenticationMethod :=
      sent (allowed PropAuthenticationMethod && nonempty (pr_AuthenticationMethod p))
        (pr_AuthenticationMethod p) [];
    pr_AuthenticationData :=
      sent (allowed PropAuthenticationData && nonempty (pr_AuthenticationData p))
        (pr_AuthenticationData p) [];
    pr_RequestProblemInfo := sent rpi (pr_RequestProblemInfo p) 0;
    pr_RequestProblemInfoFlag := sent rpi true false;
    pr_WillDelayInterval :=
      sent (allowed PropWillDelayInterval && (0 <? pr_WillDelayInterval p)) (pr_WillDelayInterval p) 0;
    pr_RequestResponseInfo :=
      sent (allowed PropRequestResponseInfo && (0 <? pr_RequestResponseInfo p))
        (pr_RequestResponseInfo p) 0;
    pr_ResponseInfo :=
      sent (mod_AllowResponseInfo mods && allowed PropResponseInfo && nonempty (pr_ResponseInfo p))
        (pr_ResponseInfo p) [];
    pr_ServerReference :=
      sent (allowed PropServerReference && nonempty (pr_ServerReference p)) (pr_ServerReference p) [];
    pr_ReasonString :=
      sent (negb (mod_DisallowProblemInfo mods) && allowed PropReasonString && nonempty (pr_ReasonString p)
            && fits_max_size mods n (length (encodeString (pr_ReasonString p)))) (pr_ReasonString p) [];
    pr_ReceiveMaximum :=
      sent (allowed PropReceiveMaximum && (0 <? pr_ReceiveMaximum p)) (pr_ReceiveMaximum p) 0;
    pr_TopicAliasMaximum :=
      sent (allowed PropTopicAliasMaximum && (0 <? pr_TopicAliasMaximum p)) (pr_TopicAliasMaximum p) 0;
    pr_TopicAlias := sent ta (pr_TopicAlias p) 0;
    pr_TopicAliasFlag := sent ta true false;
    pr_MaximumQos := sent mq (pr_MaximumQos p) 0;
    pr_MaximumQosFlag := sent mq true false;
    pr_RetainAvailable := sent ra (pr_RetainAvailable p) 0;
    pr_RetainAvailableFlag := sent ra true false;
    pr_User :=
      sent (negb (mod_DisallowProblemInfo mods) && allowed PropUser &&
            fits_max_size mods n (length (encode_user (pr_User p)))) (pr_User p) [];
    pr_MaximumPacketSize :=
      sent (allowed PropMaximumPacketSize && (0 <? pr_MaximumPacketSize p)) (pr_MaximumPacketSize p) 0;
    pr_WildcardSubAvailable := sent wsa (pr_WildcardSubAvailable p) 0;
    pr_WildcardSubAvailableFlag := sent wsa true false;
    pr_SubIDAvailable := sent sia (pr_SubIDAvailable p) 0;
    pr_SubIDAvailableFlag := sent sia true false;
    pr_SharedSubAvailable := sent ssa (pr_SharedSubAvailable p) 0;
    pr_SharedSubAvailableFlag := sent ssa true false;
  |}.

(** *** One lemma per property

    Each says that the encoder's block for the property is consumed by the
    decoder and stores the value when the block was written. *)

Lemma consumes_sent {A} pkt c k (dec : bytes -> nat -> result error (A * nat)) enc v
    (store : Properties -> A -> Properties) f :
  (c = true -> canEncode pkt k = true) -> decodes dec enc v ->
  (forall bt off p, Properties_Decode_field k bt off p = read_field dec (store p) bt off) ->
  (forall q, (if c then store q v else q) = f q) ->
  consumes pkt (block c (k :: enc)) f.
Proof.
  intros Hc Hdec Hfield Hf. eapply consumes_ext; [exact Hf|].
  apply (consumes_block pkt c _ (fun q => store q v)). intros ?. eapply consumes_field; eauto.
Qed.

Lemma decodeString_str_ok v : str_ok v -> decodes decodeString (encodeString v) v.
Proof. intros [??]. by apply decodeString_encode. Qed.

#[local] Hint Resolve decodeByte_encode decodeUint16_encode decodeUint32_encode decodeBytes_encode
  decodeString_str_ok : core.

Ltac solve_key dec store :=
  intros; eapply (consumes_sent _ _ _ dec _ _ store); auto;
  match goal with |- forall _, (if ?b then _ else _) = _ => by destruct b end.

Section Keys.
Context (pkt : Z) (c : bool).

Lemma consumes_PayloadFormat (v : Z) : (c = true -> canEncode pkt PropPayloadFormat = true) -> 
  consumes pkt (block c [PropPayloadFormat; v])
    (fun q => q <| pr_PayloadFormat := sent c v (pr_PayloadFormat q) |> <| pr_PayloadFormatFlag := sent c true (pr_PayloadFormatFlag q) |>).
Proof. solve_key decodeByte (fun q v => q <| pr_PayloadFormat := v |> <| pr_PayloadFormatFlag := true |>). Qed.

Lemma consumes_MessageExpiryInterval (v : Z) : (c = true -> canEncode pkt PropMessageExpiryInterval = true) -> is_u32 v -> 
  consumes pkt (block c (PropMessageExpiryInterval :: encodeUint32 v))
    (fun q => q <| pr_MessageExpiryInterval := sent c v (pr_MessageExpiryInterval q) |>).
Proof. solve_key decodeUint32 (fun q v => q <| pr_MessageExpiryInterval := v |>). Qed.

Lemma consumes_ContentType (v : gostr) : (c = true -> canEncode pkt PropContentType = true) -> str_ok v -> 
  consumes pkt (block c (PropContentType :: encodeString v))
    (fun q => q <| pr_ContentType := sent c v (pr_ContentType q) |>).
Proof. solve_key decodeString (fun q v => q <| pr_ContentType := v |>). Qed.

Lemma consumes_ResponseTopic (v : gostr) : (c = true -> canEncode pkt PropResponseTopic = true) -> str_ok v -> 
  consumes pkt (block c (PropResponseTopic :: encodeString v))
    (fun q => q <| pr_ResponseTopic := sent c v (pr_ResponseTopic q) |>).
Proof. solve_key decodeString (fun q v => q <| pr_ResponseTopic := v |>). Qed.

Lemma consumes_CorrelationData (v : bytes) : (c = true -> canEncode pkt PropCorrelationData = true) -> bin_ok v -> 
  consumes pkt (block c (PropCorrelationData :: encodeBytes v))
    (fun q => q <| pr_CorrelationData := sent c v (pr_CorrelationData q) |>).
Proof. solve_key decodeBytes (fun q v => q <| pr_CorrelationData := v |>). Qed.

Lemma consumes_SessionExpiryInterval (v : Z) : (c = true -> canEncode pkt PropSessionExpiryInterval = true) -> is_u32 v -> 
  consumes pkt (block c (PropSessionExpiryInterval :: encodeUint32 v))
    (fun q => q <| pr_SessionExpiryInterval := sent c v (pr_SessionExpiryInterval q) |> <| pr_SessionExpiryIntervalFlag := sent c true (pr_SessionExpiryIntervalFlag q) |>).
Proof. solve_key decodeUint32 (fun q v => q <| pr_SessionExpiryInterval := v |> <| pr_SessionExpiryIntervalFlag := true |>). Qed.

Lemma consumes_AssignedClientID (v : gostr) : (c = true -> canEncode pkt PropAssignedClientID = true) -> str_ok v -> 
  consumes pkt (block c (PropAssignedClientID :: encodeString v))
    (fun q => q <| pr_AssignedClientID := sent c v (pr_AssignedClientID q) |>).
Proof. solve_key decodeString (fun q v => q <| pr_AssignedClientID := v |>). Qed.

Lemma consumes_ServerKeepAlive (v : Z) : (c = true -> canEncode pkt PropServerKeepAlive = true) -> is_u16 v -> 
  consumes pkt (block c (PropServerKeepAlive :: encodeUint16 v))
    (fun q => q <| pr_ServerKeepAlive := sent c v (pr_ServerKeepAlive q) |> <| pr_ServerKeepAliveFlag := sent c true (pr_ServerKeepAliveFlag q) |>).
Proof. solve_key decodeUint16 (fun q v => q <| pr_ServerKeepAlive := v |> <| pr_ServerKeepAliveFlag := true |>). Qed.

Lemma consumes_AuthenticationMethod (v : gostr) : (c = true -> canEncode pkt PropAuthenticationMethod = true) -> str_ok v -> 
  consumes pkt (block c (PropAuthenticationMethod :: encodeString v))
    (fun q => q <| pr_AuthenticationMethod := sent c v (pr_AuthenticationMethod q) |>).
Proof. solve_key decodeString (fun q v => q <| pr_AuthenticationMethod := v |>). Qed.

Lemma consumes_AuthenticationData (v : bytes) : (c = true -> canEncode pkt PropAuthenticationData = true) -> bin_ok v -> 
  consumes pkt (block c (PropAuthenticationData :: encodeBytes v))
    (fun q => q <| pr_AuthenticationData := sent c v (pr_AuthenticationData q) |>).
Proof. solve_key decodeBytes (fun q v => q <| pr_AuthenticationData := v |>). Qed.

Lemma consumes_RequestProblemInfo (v : Z) : (c = true -> canEncode pkt PropRequestProblemInfo = true) -> 
  consumes pkt (block c [PropRequestProblemInfo; v])
    (fun q => q <| pr_RequestProblemInfo := sent c v (pr_RequestProblemInfo q) |> <| pr_RequestProblemInfoFlag := sent c true (pr_RequestProblemInfoFlag q) |>).
Proof. solve_key decodeByte (fun q v => q <| pr_RequestProblemInfo := v |> <| pr_RequestProblemInfoFlag := true |>). Qed.

Lemma consumes_WillDelayInterval (v : Z) : (c = true -> canEncode pkt PropWillDelayInterval = true) -> is_u32 v -> 
  consumes pkt (block c (PropWillDelayInterval :: encodeUint32 v))
    (fun q => q <| pr_WillDelayInterval := sent c v (pr_WillDelayInterval q) |>).
Proof. solve_key decodeUint32 (fun q v => q <| pr_WillDelayInterval := v |>). Qed.

Lemma consumes_RequestResponseInfo (v : Z) : (c = true -> canEncode pkt PropRequestResponseInfo = true) -> 
  consumes pkt (block c [PropRequestResponseInfo; v])
    (fun q => q <| pr_RequestResponseInfo := sent c v (pr_RequestResponseInfo q) |>).
Proof. solve_key decodeByte (fun q v => q <| pr_RequestResponseInfo := v |>). Qed.

Lemma consumes_ResponseInfo (v : gostr) : (c = true -> canEncode pkt PropResponseInfo = true) -> str_ok v -> 
  consumes pkt (block c (PropResponseInfo :: encodeString v))
    (fun q => q <| pr_ResponseInfo := sent c v (pr_ResponseInfo q) |>).
Proof. solve_key decodeString (fun q v => q <| pr_ResponseInfo := v |>). Qed.

Lemma consumes_ServerReference (v : gostr) : (c = true -> canEncode pkt PropServerReference = true) -> str_ok v -> 
  consumes pkt (block c (PropServerReference :: encodeString v))
    (fun q => q <| pr_ServerReference := sent c v (pr_ServerReference q) |>).
Proof. solve_key decodeString (fun q v => q <| pr_ServerReference := v |>). Qed.

Lemma consumes_ReasonString (v : gostr) : (c = true -> canEncode pkt PropReasonString = true) -> str_ok v -> 
  consumes pkt (block c (PropReasonString :: encodeString v))
    (fun q => q <| pr_ReasonString := sent c v (pr_ReasonString q) |>).
Proof. solve_key decodeString (fun q v => q <| pr_ReasonString := v |>). Qed.

Lemma consumes_ReceiveMaximum (v : Z) : (c = true -> canEncode pkt PropReceiveMaximum = true) -> is_u16 v -> 
  consumes pkt (block c (PropReceiveMaximum :: encodeUint16 v))
    (fun q => q <| pr_ReceiveMaximum := sent c v (pr_ReceiveMaximum q) |>).
Proof. solve_key decodeUint16 (fun q v => q <| pr_ReceiveMaximum := v |>). Qed.

Lemma consumes_TopicAliasMaximum (v : Z) : (c = true -> canEncode pkt PropTopicAliasMaximum = true) -> is_u16 v -> 
  consumes pkt (block c (PropTopicAliasMaximum :: encodeUint16 v))
    (fun q => q <| pr_TopicAliasMaximum := sent c v (pr_TopicAliasMaximum q) |>).
Proof. solve_key decodeUint16 (fun q v => q <| pr_TopicAliasMaximum := v |>). Qed.

Lemma consumes_TopicAlias (v : Z) : (c = true -> canEncode pkt PropTopicAlias = true) -> is_u16 v -> 
  consumes pkt (block c (PropTopicAlias :: encodeUint16 v))
    (fun q => q <| pr_TopicAlias := sent c v (pr_TopicAlias q) |> <| pr_TopicAliasFlag := sent c true (pr_TopicAliasFlag q) |>).
Proof. solve_key decodeUint16 (fun q v => q <| pr_TopicAlias := v |> <| pr_TopicAliasFlag := true |>). Qed.

Lemma consumes_MaximumQos (v : Z) : (c = true -> canEncode pkt PropMaximumQos = true) -> 
  consumes pkt (block c [PropMaximumQos; v])
    (fun q => q <| pr_MaximumQos := sent c v (pr_MaximumQos q) |> <| pr_MaximumQosFlag := sent c true (pr_MaximumQosFlag q) |>).
Proof. solve_key decodeByte (fun q v => q <| pr_MaximumQos := v |> <| pr_MaximumQosFlag := true |>). Qed.

Lemma consumes_RetainAvailable (v : Z) : (c = true -> canEncode pkt PropRetainAvailable = true) -> 
  consumes pkt (block c [PropRetainAvailable; v])
    (fun q => q <| pr_RetainAvailable := sent c v (pr_RetainAvailable q) |> <| pr_RetainAvailableFlag := sent c true (pr_RetainAvailableFlag q) |>).
Proof. solve_key decodeByte (fun q v => q <| pr_RetainAvailable := v |> <| pr_RetainAvailableFlag := true |>). Qed.

Lemma consumes_MaximumPacketSize (v : Z) : (c = true -> canEncode pkt PropMaximumPacketSize = true) -> is_u32 v -> 
  consumes pkt (block c (PropMaximumPacketSize :: encodeUint32 v))
    (fun q => q <| pr_MaximumPacketSize := sent c v (pr_MaximumPacketSize q) |>).
Proof. solve_key decodeUint32 (fun q v => q <| pr_MaximumPacketSize := v |>). Qed.

Lemma consumes_WildcardSubAvailable (v : Z) : (c = true -> canEncode pkt PropWildcardSubAvailable = true) -> 
  consumes pkt (block c [PropWildcardSubAvailable; v])
    (fun q => q <| pr_WildcardSubAvailable := sent c v (pr_WildcardSubAvailable q) |> <| pr_WildcardSubAvailableFlag := sent c true (pr_WildcardSubAvailableFlag q) |>).
Proof. solve_key decodeByte (fun q v => q <| pr_WildcardSubAvailable := v |> <| pr_WildcardSubAvailableFlag := true |>). Qed.

Lemma consumes_SubIDAvailable (v : Z) : (c = true -> canEncode pkt PropSubIDAvailable = true) -> 
  consumes pkt (block c [PropSubIDAvailable; v])
    (fun q => q <| pr_SubIDAvailable := sent c v (pr_SubIDAvailable q) |> <| pr_SubIDAvailableFlag := sent c true (pr_SubIDAvailableFlag q) |>).
Proof. solve_key decodeByte (fun q v => q <| pr_SubIDAvailable := v |> <| pr_SubIDAvailableFlag := true |>). Qed.

Lemma consumes_SharedSubAvailable (v : Z) : (c = true -> canEncode pkt PropSharedSubAvailable = true) -> 
  consumes pkt (block c [PropSharedSubAvailable; v])
    (fun q => q <| pr_SharedSubAvailable := sent c v (pr_SharedSubAvailable q) |> <| pr_SharedSubAvailableFlag := sent c true (pr_SharedSubAvailableFlag q) |>).
Proof. solve_key decodeByte (fun q v => q <| pr_SharedSubAvailable := v |> <| pr_SharedSubAvailableFlag := true |>). Qed.

End Keys.

Lemma fold_left_user_app (l : list UserProperty) q :
  fold_left (fun q u => q <| pr_User := pr_User q ++ [u] |>) l q = q <| pr_User := pr_User q ++ l |>.
Proof.
  revert q. induction l as [|u l IH]; intros q; cbn [fold_left].
  - cbn. by rewrite app_nil_r.
  - rewrite IH. cbn. by rewrite <- app_assoc.
Qed.

Lemma consumes_User pkt c l :
  (c = true -> canEncode pkt PropUser = true) ->
  Forall (fun u => str_ok (up_Key u) /\ str_ok (up_Val u)) l ->
  consumes pkt (block c (encode_user l)) (fun q => q <| pr_User := pr_User q ++ sent c l [] |>).
Proof.
  intros Hc Hl. eapply consumes_ext; [|apply (consumes_block pkt c _
    (fun q => fold_left (fun q u => q <| pr_User := pr_User q ++ [u] |>) l q))].
  - intros q. destruct c; [apply fold_left_user_app|]. cbn. by rewrite app_nil_r.
  - intros ->. apply (consumes_concat pkt _ (fun u q => q <| pr_User := pr_User q ++ [u] |>)).
    eapply Forall_impl; [exact Hl|]. intros u [[??] [??]].
    eapply (consumes_field pkt PropUser decodeUser _ _ (fun q u => q <| pr_User := pr_User q ++ [u] |>));
      [by apply Hc| |done]. by apply decodeUser_encode.
Qed.

Lemma fold_left_subid_app l q :
  fold_left (fun q v => if 0 <? v
    then q <| pr_SubscriptionIdentifier := pr_SubscriptionIdentifier q ++ [v] |> else q) l q
  = q <| pr_SubscriptionIdentifier := pr_SubscriptionIdentifier q ++ List.filter (Z.ltb 0) l |>.
Proof.
  revert q. induction l as [|v l IH]; intros q; cbn [fold_left List.filter].
  - cbn. by rewrite app_nil_r.
  - rewrite IH. destruct (0 <? v); [|done]. cbn. by rewrite <- app_assoc.
Qed.

Lemma consumes_SubscriptionIdentifier pkt c l :
  (c = true -> canEncode pkt PropSubscriptionIdentifier = true) ->
  Forall (fun v => v <= 268435455) l ->
  consumes pkt (block c (encode_subids l)) (fun q =>
    q <| pr_SubscriptionIdentifier := pr_SubscriptionIdentifier q ++ sent c (List.filter (Z.ltb 0) l) [] |>).
Proof.
  intros Hc Hl. eapply consumes_ext; [|apply (consumes_block pkt c _ (fun q => fold_left (fun q v =>
    if 0 <? v then q <| pr_SubscriptionIdentifier := pr_SubscriptionIdentifier q ++ [v] |> else q) l q))].
  - intros q. destruct c; [apply fold_left_subid_app|]. cbn. by rewrite app_nil_r.
  - intros ->. apply (consumes_concat pkt _ (fun v q => if 0 <? v
      then q <| pr_SubscriptionIdentifier := pr_SubscriptionIdentifier q ++ [v] |> else q)).
    eapply Forall_impl; [exact Hl|]. cbv beta. intros v Hv.
    apply (consumes_block pkt (0 <? v) _
      (fun q => q <| pr_SubscriptionIdentifier := pr_SubscriptionIdentifier q ++ [v] |>)).
    intros Hv0. bool_to_prop.
    eapply (consumes_field pkt PropSubscriptionIdentifier decodeSubID _ _
      (fun q v => q <| pr_SubscriptionIdentifier := pr_SubscriptionIdentifier q ++ [v] |>));
      [by apply Hc| |done]. apply decodeSubID_encode. lia.
Qed.

Create HintDb keys discriminated.
#[local] Hint Resolve consumes_PayloadFormat consumes_MessageExpiryInterval consumes_ContentType
  consumes_ResponseTopic consumes_CorrelationData consumes_SubscriptionIdentifier
  consumes_SessionExpiryInterval consumes_AssignedClientID consumes_ServerKeepAlive
  consumes_AuthenticationMethod consumes_AuthenticationData consumes_RequestProblemInfo
  consumes_WillDelayInterval consumes_RequestResponseInfo consumes_ResponseInfo
  consumes_ServerReference consumes_ReasonString consumes_ReceiveMaximum consumes_TopicAliasMaximum
  consumes_TopicAlias consumes_MaximumQos consumes_RetainAvailable consumes_User
  consumes_MaximumPacketSize consumes_WildcardSubAvailable consumes_SubIDAvailable
  consumes_SharedSubAvailable : keys.
#[local] Hint Extern 1 (canEncode _ _ = true) => bool_to_prop; assumption : keys.

(** The decoder takes the properties [q] to [q'] over the bytes [seg]. *)
Definition reads (pkt : Z) (seg : bytes) (q q' : Properties) : Prop :=
  exists f, consumes pkt seg f /\ f q = q'.

Lemma reads_app pkt s1 s2 f1 q q1 q2 :
  consumes pkt s1 f1 -> f1 q = q1 -> reads pkt s2 q1 q2 -> reads pkt (s1 ++ s2) q q2.
Proof.
  intros H1 <- (f2 & H2 & <-). exists (fun q => f2 (f1 q)). split; [by apply consumes_app|done].
Qed.

Ltac store_value :=
  lazy -[sent canEncode validPacketProperties fits_max_size nonempty contains_any of_string
         Z.ltb andb negb List.filter encodeString encode_user length]; reflexivity.

Lemma Properties_Encode_body_reads pkt mods p n :
  Properties_wf p ->
  reads pkt (Properties_Encode_body pkt mods p n) Properties0 (Properties_transmitted pkt mods n p).
Proof.
  intros []. unfold Properties_Encode_body, Properties0.
  repeat (eapply reads_app; [eauto 3 with keys nocore|store_value|]).
  eexists. split; [eauto 3 with keys nocore|store_value].
Qed.

Lemma reads_loop pkt seg q q' rest :
  reads pkt seg q q' ->
  Properties_Decode_loop (length seg) pkt (seg ++ rest) (length seg) 0 q = Ok q'.
Proof.
  intros (f & H & <-). destruct (H [] rest (length seg) (length seg) q) as (fuel' & _ & E);
    [cbn; lia..|]. cbn [app length Nat.add] in E. rewrite E.
  destruct fuel'; cbn [Properties_Decode_loop]; by rewrite Nat.leb_refl.
Qed.

Lemma Properties_Decode_Encode pkt mods p n rest :
  Properties_wf p -> Z.of_nat (length (Properties_Encode_body pkt mods p n)) <= 268435455 ->
  Properties_Decode Properties0 pkt (Properties_Encode pkt mods p n ++ rest)
  = Ok (Properties_transmitted pkt mods n p, length (Properties_Encode pkt mods p n)).
Proof.
  intros Hwf Hlen. pose proof (Properties_Encode_body_reads pkt mods p n Hwf) as Hr.
  unfold Properties_Decode, Properties_Encode. rewrite <- app_assoc.
  rewrite DecodeLength_encode by lia. mred. rewrite Nat2Z.id, length_app.
  apply (reads_loop _ _ _ _ rest) in Hr.
  destruct (_ =? 0) eqn:E; bool_to_prop.
  - replace (length (Properties_Encode_body pkt mods p n)) with 0%nat in * by lia.
    cbn in Hr. apply (inj Ok) in Hr as <-. f_equal; f_equal; lia.
  - rewrite Hr. mred. f_equal; f_equal; lia.
Qed.

(** Round trip of the properties section. For well-formed properties whose
    encoding fits the variable byte integer, and for every packet type and
    modifiers, decoding what [Properties.Encode] wrote yields exactly the
    properties the specification says are transmitted (those valid for the
    packet type, present, and not suppressed by problem-information,
    response-information or size limits), and consumes exactly the bytes
    written, whatever follows. *)
Theorem Properties_roundtrip pkt mods p n rest :
  Properties_wf p -> Z.of_nat (length (Properties_Encode_body pkt mods p n)) <= 268435455 ->
  Properties_Decode Properties0 pkt (Properties_Encode pkt mods p n ++ rest)
  = Ok (Properties_transmitted pkt mods n p, length (Properties_Encode pkt mods p n)).
Proof. apply Properties_Decode_Encode. Qed.

Definition Properties_sample : Properties :=
  Properties0 <| pr_ContentType := !"text/plain" |> <| pr_MessageExpiryInterval := 70000 |>
    <| pr_User := [mkUserProperty !"k" !"v"] |> <| pr_TopicAlias := 7 |> <| pr_TopicAliasFlag := true |>
    <| pr_ReceiveMaximum := 500 |> <| pr_SubscriptionIdentifier := [0; 322] |>.

Lemma Properties_sample_wf : Properties_wf Properties_sample.
Proof.
  constructor;
    lazymatch goal with
    | |- Forall _ _ => repeat constructor; done
    | |- bin_ok _ => done
    | |- _ => by split; vm_compute
    end.
Qed.

Lemma Properties_roundtrip_witness :
  Properties_Decode Properties0 Publish (Properties_Encode Publish Mods0 Properties_sample 0 ++ [1; 2])
  = Ok (Properties_sample <| pr_ReceiveMaximum := 0 |> <| pr_SubscriptionIdentifier := [322] |>, 32%nat).
Proof.
  exact (Properties_roundtrip Publish Mods0 Properties_sample 0 [1; 2] Properties_sample_wf
           ltac:(vm_compute; discriminate)).
Defined.
