(* ===== verification/Packets.v ===== *)
(** * Packets (packets/packets.go)

    The packet record, copies and merges of its parts, the encoder, the decoder
    and the validator of each packet type, and the map of packets. The encoders
    return the bytes appended to the buffer and the packet with the remaining
    length they set; the decoders return the packet they filled in (a packet
    whose decoding failed is discarded by every caller). *)
From S2P Require Import Prelude Codes Codec FixedHeader Properties.

Record ConnectParams := mkConnectParams {
  cp_WillProperties : Properties;
  cp_Password : bytes;
  cp_Username : bytes;
  cp_ProtocolName : bytes;
  cp_WillPayload : bytes;
  cp_ClientIdentifier : gostr;
  cp_WillTopic : gostr;
  cp_Keepalive : Z;
  cp_PasswordFlag : bool;
  cp_UsernameFlag : bool;
  cp_WillQos : Z;
  cp_WillFlag : bool;
  cp_WillRetain : bool;
  cp_Clean : bool;
}.

Definition ConnectParams0 : ConnectParams :=
  mkConnectParams Properties0 [] [] [] [] [] [] 0 false false 0 false false false.

(** [type Subscription struct]; a nil [Identifiers] map is [None]. *)
Record Subscription := mkSubscription {
  sub_ShareName : list gostr;
  sub_Filter : gostr;
  sub_Identifier : Z;
  sub_Identifiers : option (gmap gostr Z);
  sub_RetainHandling : Z;
  sub_Qos : Z;
  sub_RetainAsPublished : bool;
  sub_NoLocal : bool;
  sub_FwdRetainedFlag : bool;
}.

Definition Subscription0 : Subscription :=
  mkSubscription [] [] 0 None 0 0 false false false.

Record Packet := mkPacket {
  pk_Connect : ConnectParams;
  pk_Properties : Properties;
  pk_Payload : bytes;
  pk_ReasonCodes : bytes;
  pk_Filters : list Subscription;
  pk_TopicName : gostr;
  pk_Origin : gostr;
  pk_FixedHeader : FixedHeader;
  pk_Created : Z;
  pk_Expiry : Z;
  pk_Mods : Mods;
  pk_PacketID : Z;
  pk_ProtocolVersion : Z;
  pk_SessionPresent : bool;
  pk_ReasonCode : Z;
  pk_ReservedBit : Z;
  pk_Ignore : bool;
}.

(** [Packet{}] *)
Definition Packet0 : Packet :=
  mkPacket ConnectParams0 Properties0 [] [] [] [] [] FixedHeader0 0 0 Mods0 0 0 false 0 0 false.

Definition pk_Type (pk : Packet) : Z := fh_Type (pk_FixedHeader pk).
Definition pk_Qos (pk : Packet) : Z := fh_Qos (pk_FixedHeader pk).

(** The packet id in decimal. *)
Definition FormatID (pk : Packet) : gostr := FormatUint (pk_PacketID pk).

(** ** The map of packets *)

Abbreviation Packets := (gmap gostr Packet).

Definition NewPackets : Packets := ∅.
Definition Packets_Add (p : Packets) (id : gostr) (val : Packet) : Packets := <[id := val]> p.
Definition Packets_GetAll (p : Packets) : Packets := p.
Definition Packets_Get (p : Packets) (id : gostr) : option Packet := p !! id.
Definition Packets_Len (p : Packets) : nat := size p.
Definition Packets_Delete (p : Packets) (id : gostr) : Packets := delete id p.

(** ** Copies and subscription options *)

(** [Packet.Copy]: an empty header for new qos flags; the packet id only when
    [allowTransfer]. *)
Definition Packet_Copy (pk : Packet) (allowTransfer : bool) : Packet :=
  let c := pk_Connect pk in
  {|
    pk_FixedHeader := {|
      fh_Remaining := fh_Remaining (pk_FixedHeader pk);
      fh_Type := fh_Type (pk_FixedHeader pk);
      fh_Retain := fh_Retain (pk_FixedHeader pk);
      fh_Dup := false;
      fh_Qos := fh_Qos (pk_FixedHeader pk);
    |};
    pk_Mods := Mods0 <| mod_MaxSize := mod_MaxSize (pk_Mods pk) |>;
    pk_ReservedBit := pk_ReservedBit pk;
    pk_ProtocolVersion := pk_ProtocolVersion pk;
    pk_Connect := {|
      cp_ClientIdentifier := cp_ClientIdentifier c;
      cp_Keepalive := cp_Keepalive c;
      cp_WillQos := cp_WillQos c;
      cp_WillTopic := cp_WillTopic c;
      cp_WillFlag := cp_WillFlag c;
      cp_WillRetain := cp_WillRetain c;
      cp_WillProperties := Properties_Copy (cp_WillProperties c) allowTransfer;
      cp_Clean := cp_Clean c;
      cp_ProtocolName := cp_ProtocolName c;
      cp_PasswordFlag := nonempty (cp_Password c);
      cp_Password := cp_Password c;
      cp_UsernameFlag := nonempty (cp_Username c);
      cp_Username := cp_Username c;
      cp_WillPayload := cp_WillPayload c;
    |};
    pk_TopicName := pk_TopicName pk;
    pk_Properties := Properties_Copy (pk_Properties pk) allowTransfer;
    pk_SessionPresent := pk_SessionPresent pk;
    pk_ReasonCode := pk_ReasonCode pk;
    pk_Filters := pk_Filters pk;
    pk_Created := pk_Created pk;
    pk_Expiry := pk_Expiry pk;
    pk_Origin := pk_Origin pk;
    pk_PacketID := if allowTransfer then pk_PacketID pk else 0;
    pk_Payload := pk_Payload pk;
    pk_ReasonCodes := pk_ReasonCodes pk;
    pk_Ignore := false;
  |}.

(** [Subscription.Merge]: highest qos, union of identifiers, no-local if either. *)
Definition Subscription_Merge (s n : Subscription) : Subscription :=
  let ids := match sub_Identifiers s with
             | None => {[ sub_Filter s := sub_Identifier s ]}
             | Some m => m
             end in
  let ids := if 0 <? sub_Identifier n then <[sub_Filter n := sub_Identifier n]> ids else ids in
  s <| sub_Identifiers := Some ids |>
    <| sub_Qos := if sub_Qos s <? sub_Qos n then sub_Qos n else sub_Qos s |>
    <| sub_NoLocal := if sub_NoLocal n then true else sub_NoLocal s |>.

Definition Subscription_encode (s : Subscription) : Z :=
  let flag := Z.lor 0 (sub_Qos s) in
  let flag := if sub_NoLocal s then Z.lor flag 4 else flag in
  let flag := if sub_RetainAsPublished s then Z.lor flag 8 else flag in
  Z.lor flag (to_u8 (Z.shiftl (sub_RetainHandling s) 4)).

Definition Subscription_decode (s : Subscription) (b : Z) : Subscription :=
  s <| sub_Qos := Z.land b 3 |>
    <| sub_NoLocal := 0 <? Z.land 1 (Z.shiftr b 2) |>
    <| sub_RetainAsPublished := 0 <? Z.land 1 (Z.shiftr b 3) |>
    <| sub_RetainHandling := Z.land 3 (Z.shiftr b 4) |>.

(** ** Encoders *)

(** [pk.FixedHeader.Remaining = nb.Len(); pk.FixedHeader.Encode(buf); buf.Write(nb)] *)
Definition finish (pk : Packet) (nb : bytes) : bytes * Packet :=
  let pk := pk <| pk_FixedHeader ::= fun fh => fh <| fh_Remaining := Z.of_nat (length nb) |> |> in
  (FixedHeader_Encode (pk_FixedHeader pk) ++ nb, pk).

(** The properties section, written for protocol version 5 only. *)
Definition encode_props (pk : Packet) (n : nat) : bytes :=
  Properties_Encode (pk_Type pk) (pk_Mods pk) (pk_Properties pk) n.

Definition v5 (pk : Packet) : bool := pk_ProtocolVersion pk =? 5.

Definition connect_flags (c : ConnectParams) : Z :=
  Z.lor (Z.lor (Z.lor (Z.lor (Z.lor (Z.lor
    (Z.shiftl (encodeBool (cp_Clean c)) 1)
    (Z.shiftl (encodeBool (cp_WillFlag c)) 2))
    (to_u8 (Z.shiftl (cp_WillQos c) 3)))
    (Z.shiftl (encodeBool (cp_WillRetain c)) 5))
    (Z.shiftl (encodeBool (cp_PasswordFlag c)) 6))
    (Z.shiftl (encodeBool (cp_UsernameFlag c)) 7))
    0.

Definition ConnectEncode (pk : Packet) : result error (bytes * Packet) :=
  let c := pk_Connect pk in
  let nb :=
    encodeBytes (cp_ProtocolName c) ++ [pk_ProtocolVersion pk] ++ [connect_flags c] ++
    encodeUint16 (cp_Keepalive c) ++
    block (v5 pk) (encode_props pk 0) ++
    encodeString (cp_ClientIdentifier c) ++
    block (cp_WillFlag c)
      (block (v5 pk) (Properties_Encode WillProperties (pk_Mods pk) (cp_WillProperties c) 0) ++
       encodeString (cp_WillTopic c) ++ encodeBytes (cp_WillPayload c)) ++
    block (cp_UsernameFlag c) (encodeBytes (cp_Username c)) ++
    block (cp_PasswordFlag c) (encodeBytes (cp_Password c)) in
  Ok (finish pk nb).

Definition ConnackEncode (pk : Packet) : result error (bytes * Packet) :=
  let nb := [encodeBool (pk_SessionPresent pk); pk_ReasonCode pk] in
  Ok (finish pk (nb ++ block (v5 pk) (encode_props pk (length nb + 2)))).

Definition DisconnectEncode (pk : Packet) : result error (bytes * Packet) :=
  Ok (finish pk (block (v5 pk) (let nb := [pk_ReasonCode pk] in nb ++ encode_props pk (length nb)))).

Definition PingreqEncode (pk : Packet) : result error (bytes * Packet) :=
  Ok (FixedHeader_Encode (pk_FixedHeader pk), pk).

Definition PingrespEncode (pk : Packet) : result error (bytes * Packet) :=
  Ok (FixedHeader_Encode (pk_FixedHeader pk), pk).

Definition PublishEncode (pk : Packet) : result error (bytes * Packet) :=
  let nb := encodeString (pk_TopicName pk) in
  nb ← (if 0 <? pk_Qos pk then
          if pk_PacketID pk =? 0 then Err (ECode ErrProtocolViolationNoPacketID)
          else Ok (nb ++ encodeUint16 (pk_PacketID pk))
        else Ok nb);
  let nb := nb ++ block (v5 pk) (encode_props pk (length nb + length (pk_Payload pk))) in
  Ok (finish pk (nb ++ pk_Payload pk)).

Definition encodePubAckRelRecComp (pk : Packet) : result error (bytes * Packet) :=
  let nb := encodeUint16 (pk_PacketID pk) in
  let nb :=
    if v5 pk then
      let pb := encode_props pk (length nb) in
      nb ++
      block ((Code_Code ErrUnspecifiedError <=? pk_ReasonCode pk) || (1 <? length pb)%nat)
        [pk_ReasonCode pk] ++
      block (1 <? length pb)%nat pb
    else nb in
  Ok (finish pk nb).

Definition PubackEncode := encodePubAckRelRecComp.
Definition PubcompEncode := encodePubAckRelRecComp.
Definition PubrecEncode := encodePubAckRelRecComp.
Definition PubrelEncode := encodePubAckRelRecComp.

Definition SubackEncode (pk : Packet) : result error (bytes * Packet) :=
  let nb := encodeUint16 (pk_PacketID pk) in
  Ok (finish pk (nb ++ block (v5 pk) (encode_props pk (length nb + length (pk_ReasonCodes pk))) ++
                 pk_ReasonCodes pk)).

Definition encode_filter (v5 : bool) (opts : Subscription) : bytes :=
  encodeString (sub_Filter opts) ++ [if v5 then Subscription_encode opts else sub_Qos opts].

Definition SubscribeEncode (pk : Packet) : result error (bytes * Packet) :=
  if pk_PacketID pk =? 0 then Err (ECode ErrProtocolViolationNoPacketID)
  else
    let nb := encodeUint16 (pk_PacketID pk) in
    let xb := concat (map (encode_filter (v5 pk)) (pk_Filters pk)) in
    Ok (finish pk (nb ++ block (v5 pk) (encode_props pk (length nb + length xb)) ++ xb)).

Definition UnsubackEncode (pk : Packet) : result error (bytes * Packet) :=
  let nb := encodeUint16 (pk_PacketID pk) in
  Ok (finish pk (nb ++ block (v5 pk) (encode_props pk (length nb) ++ pk_ReasonCodes pk))).

Definition UnsubscribeEncode (pk : Packet) : result error (bytes * Packet) :=
  if pk_PacketID pk =? 0 then Err (ECode ErrProtocolViolationNoPacketID)
  else
    let nb := encodeUint16 (pk_PacketID pk) in
    let xb := concat (map (fun sub => encodeString (sub_Filter sub)) (pk_Filters pk)) in
    Ok (finish pk (nb ++ block (v5 pk) (encode_props pk (length nb + length xb)) ++ xb)).

Definition AuthEncode (pk : Packet) : result error (bytes * Packet) :=
  let nb := [pk_ReasonCode pk] in
  Ok (finish pk (nb ++ encode_props pk (length nb))).

(** ** Decoders *)

Definition as_code {A} (c : Code) : result error A -> result error A := map_err (fun _ => ECode c).
Definition wrap {A} (c : Code) : result error A -> result error A := map_err (fun e => EWrap e c).

(** [pk.Properties.Decode(pk.FixedHeader.Type, bytes.NewBuffer(buf[offset:]))] *)
Definition decode_props (pk : Packet) (buf : bytes) (offset : nat) : result error (Packet * nat) :=
  b ← slice_from buf offset;
  '(p, n) ← wrap ErrMalformedProperties (Properties_Decode (pk_Properties pk) (pk_Type pk) b);
  Ok (pk <| pk_Properties := p |>, (offset + n)%nat).

(** The same under [if pk.ProtocolVersion == 5]. *)
Definition decode_props_v5 (pk : Packet) (buf : bytes) (offset : nat) : result error (Packet * nat) :=
  if v5 pk then decode_props pk buf offset else Ok (pk, offset).

Definition decode_connect_flags (pk : Packet) (flags : Z) : Packet :=
  pk <| pk_ReservedBit := Z.land 1 flags |>
     <| pk_Connect ::= fun c =>
          c <| cp_Clean := 0 <? Z.land 1 (Z.shiftr flags 1) |>
            <| cp_WillFlag := 0 <? Z.land 1 (Z.shiftr flags 2) |>
            <| cp_WillQos := Z.land 3 (Z.shiftr flags 3) |>
            <| cp_WillRetain := 0 <? Z.land 1 (Z.shiftr flags 5) |>
            <| cp_PasswordFlag := 0 <? Z.land 1 (Z.shiftr flags 6) |>
            <| cp_UsernameFlag := 0 <? Z.land 1 (Z.shiftr flags 7) |> |>.

(** The will section of a connect packet. *)
Definition decode_will (pk : Packet) (buf : bytes) (offset : nat) : result error (Packet * nat) :=
  if cp_WillFlag (pk_Connect pk) then
    '(pk, offset) ←
      (if v5 pk then
         b ← slice_from buf offset;
         '(p, n) ← as_code ErrMalformedWillProperties
                     (Properties_Decode (cp_WillProperties (pk_Connect pk)) WillProperties b);
         Ok (pk <| pk_Connect ::= fun c => c <| cp_WillProperties := p |> |>, (offset + n)%nat)
       else Ok (pk, offset));
    '(topic, offset) ← as_code ErrMalformedWillTopic (decodeString buf offset);
    '(payload, offset) ← as_code ErrMalformedWillPayload (decodeBytes buf offset);
    Ok (pk <| pk_Connect ::= fun c => c <| cp_WillTopic := topic |> <| cp_WillPayload := payload |> |>,
        offset)
  else Ok (pk, offset).

Definition decode_username (pk : Packet) (buf : bytes) (offset : nat) : result error (Packet * nat) :=
  if cp_UsernameFlag (pk_Connect pk) then
    if (length buf <=? offset)%nat then Err (ECode ErrProtocolViolationFlagNoUsername)
    else
      '(u, offset) ← as_code ErrMalformedUsername (decodeBytes buf offset);
      Ok (pk <| pk_Connect ::= fun c => c <| cp_Username := u |> |>, offset)
  else Ok (pk, offset).

Definition decode_password (pk : Packet) (buf : bytes) (offset : nat) : result error Packet :=
  if cp_PasswordFlag (pk_Connect pk) then
    '(pw, _) ← as_code ErrMalformedPassword (decodeBytes buf offset);
    Ok (pk <| pk_Connect ::= fun c => c <| cp_Password := pw |> |>)
  else Ok pk.

Definition ConnectDecode (pk : Packet) (buf : bytes) : result error Packet :=
  '(name, offset) ← as_code ErrMalformedProtocolName (decodeBytes buf 0);
  let pk := pk <| pk_Connect ::= fun c => c <| cp_ProtocolName := name |> |> in
  '(version, offset) ← as_code ErrMalformedProtocolVersion (decodeByte buf offset);
  let pk := pk <| pk_ProtocolVersion := version |> in
  '(flags, offset) ← as_code ErrMalformedFlags (decodeByte buf offset);
  let pk := decode_connect_flags pk flags in
  '(keepalive, offset) ← as_code ErrMalformedKeepalive (decodeUint16 buf offset);
  let pk := pk <| pk_Connect ::= fun c => c <| cp_Keepalive := keepalive |> |> in
  '(pk, offset) ← decode_props_v5 pk buf offset;
  '(id, offset) ← as_code ErrClientIdentifierNotValid (decodeString buf offset);
  let pk := pk <| pk_Connect ::= fun c => c <| cp_ClientIdentifier := id |> |> in
  '(pk, offset) ← decode_will pk buf offset;
  '(pk, offset) ← decode_username pk buf offset;
  decode_password pk buf offset.

Definition ConnackDecode (pk : Packet) (buf : bytes) : result error Packet :=
  '(present, offset) ← wrap ErrMalformedSessionPresent (decodeByteBool buf 0);
  '(reason, offset) ← wrap ErrMalformedReasonCode (decodeByte buf offset);
  let pk := pk <| pk_SessionPresent := present |> <| pk_ReasonCode := reason |> in
  '(pk, _) ← decode_props_v5 pk buf offset;
  Ok pk.

Definition DisconnectDecode (pk : Packet) (buf : bytes) : result error Packet :=
  if v5 pk && (1 <? fh_Remaining (pk_FixedHeader pk)) then
    '(reason, offset) ← wrap ErrMalformedReasonCode (decodeByte buf 0);
    let pk := pk <| pk_ReasonCode := reason |> in
    if 2 <? fh_Remaining (pk_FixedHeader pk) then
      '(pk, _) ← decode_props pk buf offset;
      Ok pk
    else Ok pk
  else Ok pk.

Definition PingreqDecode (pk : Packet) (buf : bytes) : result error Packet := Ok pk.
Definition PingrespDecode (pk : Packet) (buf : bytes) : result error Packet := Ok pk.

Definition PublishDecode (pk : Packet) (buf : bytes) : result error Packet :=
  '(topic, offset) ← wrap ErrMalformedTopic (decodeString buf 0);
  let pk := pk <| pk_TopicName := topic |> in
  '(pk, offset) ←
    (if 0 <? pk_Qos pk then
       '(id, offset) ← wrap ErrMalformedPacketID (decodeUint16 buf offset);
       Ok (pk <| pk_PacketID := id |>, offset)
     else Ok (pk, offset));
  '(pk, offset) ← decode_props_v5 pk buf offset;
  payload ← slice_from buf offset;
  Ok (pk <| pk_Payload := payload |>).

Definition decodePubAckRelRecComp (pk : Packet) (buf : bytes) : result error Packet :=
  '(id, offset) ← wrap ErrMalformedPacketID (decodeUint16 buf 0);
  let pk := pk <| pk_PacketID := id |> in
  if v5 pk && (2 <? fh_Remaining (pk_FixedHeader pk)) then
    '(reason, offset) ← wrap ErrMalformedReasonCode (decodeByte buf offset);
    let pk := pk <| pk_ReasonCode := reason |> in
    if 3 <? fh_Remaining (pk_FixedHeader pk) then
      '(pk, _) ← decode_props pk buf offset;
      Ok pk
    else Ok pk
  else Ok pk.

Definition PubackDecode := decodePubAckRelRecComp.
Definition PubcompDecode := decodePubAckRelRecComp.
Definition PubrecDecode := decodePubAckRelRecComp.
Definition PubrelDecode := decodePubAckRelRecComp.

Definition SubackDecode (pk : Packet) (buf : bytes) : result error Packet :=
  '(id, offset) ← wrap ErrMalformedPacketID (decodeUint16 buf 0);
  let pk := pk <| pk_PacketID := id |> in
  '(pk, offset) ← decode_props_v5 pk buf offset;
  codes ← slice_from buf offset;
  Ok (pk <| pk_ReasonCodes := codes |>).

(** The body of [SubscribeDecode]'s loop: one filter and its options. The
    option byte is read without a bounds check under version 5. *)
Definition decode_filter (pk : Packet) (buf : bytes) (offset : nat) : result error (Subscription * nat) :=
  '(filter, offset) ← as_code ErrMalformedTopic (decodeString buf offset);
  let sub := Subscription0 <| sub_Filter := filter |> in
  '(sub, offset) ←
    (if v5 pk then
       b ← index_at buf offset;
       Ok (Subscription_decode sub b, offset + 1)%nat
     else
       '(option, offset) ← as_code ErrMalformedQos (decodeByte buf offset);
       Ok (sub <| sub_Qos := option |>, offset));
  let sub := match pr_SubscriptionIdentifier (pk_Properties pk) with
             | id :: _ => sub <| sub_Identifier := id |>
             | [] => sub
             end in
  if 2 <? sub_Qos sub then Err (ECode ErrProtocolViolationQosOutOfRange)
  else Ok (sub, offset).

Fixpoint decode_filters (fuel : nat) (pk : Packet) (buf : bytes) (offset : nat)
    : result error (list Subscription) :=
  if (length buf <=? offset)%nat then Ok []
  else match fuel with
  | O => Diverge
  | S fuel' =>
      '(sub, offset) ← decode_filter pk buf offset;
      subs ← decode_filters fuel' pk buf offset;
      Ok (sub :: subs)
  end.

Definition SubscribeDecode (pk : Packet) (buf : bytes) : result error Packet :=
  '(id, offset) ← as_code ErrMalformedPacketID (decodeUint16 buf 0);
  let pk := pk <| pk_PacketID := id |> in
  '(pk, offset) ← decode_props_v5 pk buf offset;
  filters ← decode_filters (length buf) pk buf offset;
  Ok (pk <| pk_Filters := filters |>).

Definition UnsubackDecode (pk : Packet) (buf : bytes) : result error Packet :=
  '(id, offset) ← wrap ErrMalformedPacketID (decodeUint16 buf 0);
  let pk := pk <| pk_PacketID := id |> in
  if v5 pk then
    '(pk, offset) ← decode_props pk buf offset;
    codes ← slice_from buf offset;
    Ok (pk <| pk_ReasonCodes := codes |>)
  else Ok pk.

Fixpoint decode_unsub_filters (fuel : nat) (buf : bytes) (offset : nat)
    : result error (list Subscription) :=
  if (length buf <=? offset)%nat then Ok []
  else match fuel with
  | O => Diverge
  | S fuel' =>
      '(filter, offset) ← wrap ErrMalformedTopic (decodeString buf offset);
      subs ← decode_unsub_filters fuel' buf offset;
      Ok (Subscription0 <| sub_Filter := filter |> :: subs)
  end.

Definition UnsubscribeDecode (pk : Packet) (buf : bytes) : result error Packet :=
  '(id, offset) ← wrap ErrMalformedPacketID (decodeUint16 buf 0);
  let pk := pk <| pk_PacketID := id |> in
  '(pk, offset) ← decode_props_v5 pk buf offset;
  filters ← decode_unsub_filters (length buf) buf offset;
  Ok (pk <| pk_Filters := filters |>).

Definition AuthDecode (pk : Packet) (buf : bytes) : result error Packet :=
  '(reason, offset) ← wrap ErrMalformedReasonCode (decodeByte buf 0);
  let pk := pk <| pk_ReasonCode := reason |> in
  '(pk, _) ← decode_props pk buf offset;
  Ok pk.

(** ** Validators *)

Definition MaxUint16 : Z := 65535.
Definition len {A} (l : list A) : Z := Z.of_nat (length l).

Definition ConnectValidate (pk : Packet) : Code :=
  let c := pk_Connect pk in
  let isdp := str_eqb (cp_ProtocolName c) !"MQIsdp" in
  let mqtt := str_eqb (cp_ProtocolName c) !"MQTT" in
  if negb isdp && negb mqtt then ErrProtocolViolationProtocolName
  else if (isdp && negb (pk_ProtocolVersion pk =? 3)) ||
          (mqtt && negb (pk_ProtocolVersion pk =? 4) && negb (pk_ProtocolVersion pk =? 5))
  then ErrProtocolViolationProtocolVersion
  else if negb (pk_ReservedBit pk =? 0) then ErrProtocolViolationReservedBit
  else if MaxUint16 <? len (cp_Password c) then ErrProtocolViolationPasswordTooLong
  else if MaxUint16 <? len (cp_Username c) then ErrProtocolViolationUsernameTooLong
  else if negb (cp_UsernameFlag c) && nonempty (cp_Username c) then ErrProtocolViolationUsernameNoFlag
  else if cp_PasswordFlag c && negb (nonempty (cp_Password c)) then ErrProtocolViolationFlagNoPassword
  else if negb (cp_PasswordFlag c) && nonempty (cp_Password c) then ErrProtocolViolationPasswordNoFlag
  else if MaxUint16 <? len (cp_ClientIdentifier c) then ErrClientIdentifierNotValid
  else if cp_WillFlag c && (negb (nonempty (cp_WillPayload c)) || negb (nonempty (cp_WillTopic c)))
  then ErrProtocolViolationWillFlagNoPayload
  else if cp_WillFlag c && (2 <? cp_WillQos c) then ErrProtocolViolationQosOutOfRange
  else if negb (cp_WillFlag c) && cp_WillRetain c then ErrProtocolViolationWillFlagSurplusRetain
  else CodeSuccess.

Definition PublishValidate (pk : Packet) (topicAliasMaximum : Z) : Code :=
  let p := pk_Properties pk in
  if (0 <? pk_Qos pk) && (pk_PacketID pk =? 0) then ErrProtocolViolationNoPacketID
  else if (pk_Qos pk =? 0) && (0 <? pk_PacketID pk) then ErrProtocolViolationSurplusPacketID
  else if contains_any (pk_TopicName pk) !"+#" then ErrProtocolViolationSurplusWildcard
  else if topicAliasMaximum <? pr_TopicAlias p then ErrTopicAliasInvalid
  else if negb (nonempty (pk_TopicName pk)) && (pr_TopicAlias p =? 0) then ErrProtocolViolationNoTopic
  else if pr_TopicAliasFlag p && (pr_TopicAlias p =? 0) then ErrTopicAliasInvalid
  else if nonempty (pr_SubscriptionIdentifier p) then ErrProtocolViolationSurplusSubID
  else CodeSuccess.

Definition reason_in (codes : list Code) (reason : Z) : bool :=
  existsb (fun c => Code_Code c =? reason) codes.

Definition ReasonCodeValid (pk : Packet) : bool :=
  let t := pk_Type pk in
  if t =? Pubrec then
    reason_in [CodeSuccess; CodeNoMatchingSubscribers; ErrUnspecifiedError;
      ErrImplementationSpecificError; ErrNotAuthorized; ErrTopicNameInvalid;
      ErrPacketIdentifierInUse; ErrQuotaExceeded; ErrPayloadFormatInvalid] (pk_ReasonCode pk)
  else if (t =? Pubrel) || (t =? Pubcomp) then
    reason_in [CodeSuccess; ErrPacketIdentifierNotFound] (pk_ReasonCode pk)
  else if t =? Suback then
    reason_in [CodeGrantedQos0; CodeGrantedQos1; CodeGrantedQos2; ErrUnspecifiedError;
      ErrImplementationSpecificError; ErrNotAuthorized; ErrTopicFilterInvalid;
      ErrPacketIdentifierInUse; ErrQuotaExceeded; ErrSharedSubscriptionsNotSupported;
      ErrSubscriptionIdentifiersNotSupported; ErrWildcardSubscriptionsNotSupported] (pk_ReasonCode pk)
  else if t =? Unsuback then
    reason_in [CodeSuccess; CodeNoSubscriptionExisted; ErrUnspecifiedError;
      ErrImplementationSpecificError; ErrNotAuthorized; ErrTopicFilterInvalid;
      ErrPacketIdentifierInUse] (pk_ReasonCode pk)
  else true.

Definition SubscribeValidate (pk : Packet) : Code :=
  if (0 <? pk_Qos pk) && (pk_PacketID pk =? 0) then ErrProtocolViolationNoPacketID
  else if negb (nonempty (pk_Filters pk)) then ErrProtocolViolationNoFilters
  else if existsb (fun v => 268435455 <? sub_Identifier v) (pk_Filters pk)
  then ErrProtocolViolationOversizeSubID
  else CodeSuccess.

Definition UnsubscribeValidate (pk : Packet) : Code :=
  if (0 <? pk_Qos pk) && (pk_PacketID pk =? 0) then ErrProtocolViolationNoPacketID
  else if negb (nonempty (pk_Filters pk)) then ErrProtocolViolationNoFilters
  else CodeSuccess.

Definition AuthValidate (pk : Packet) : Code :=
  if negb (pk_ReasonCode pk =? Code_Code CodeSuccess) &&
     negb (pk_ReasonCode pk =? Code_Code CodeContinueAuthentication) &&
     negb (pk_ReasonCode pk =? Code_Code CodeReAuthenticate)
  then ErrProtocolViolationInvalidReason
  else CodeSuccess.
