(* ===== verification/Wire.v ===== *)
(** * The wire: packets read from and written to a byte stream

    The dispatch on the packet type of [Client.ReadPacket] and
    [Client.WritePacket] (clients.go), the fixed header and body read from the
    stream, and the theorems on the whole codec: every packet written is read
    back, and reading returns on every input but one family. *)
From S2P Require Import Prelude Codes Codec FixedHeader Properties PropertiesFacts Packets.

(** The switch of [ReadPacket]. *)
Definition decode_packet (pk : Packet) (px : bytes) : result error Packet :=
  let t := pk_Type pk in
  if t =? Connect then ConnectDecode pk px
  else if t =? Disconnect then DisconnectDecode pk px
  else if t =? Connack then ConnackDecode pk px
  else if t =? Publish then PublishDecode pk px
  else if t =? Puback then PubackDecode pk px
  else if t =? Pubrec then PubrecDecode pk px
  else if t =? Pubrel then PubrelDecode pk px
  else if t =? Pubcomp then PubcompDecode pk px
  else if t =? Subscribe then SubscribeDecode pk px
  else if t =? Suback then SubackDecode pk px
  else if t =? Unsubscribe then UnsubscribeDecode pk px
  else if t =? Unsuback then UnsubackDecode pk px
  else if t =? Pingreq then Ok pk
  else if t =? Pingresp then Ok pk
  else if t =? Auth then AuthDecode pk px
  else Err (EInvalidPacketType t).

(** The switch of [WritePacket]. *)
Definition encode_packet (pk : Packet) : result error (bytes * Packet) :=
  let t := pk_Type pk in
  if t =? Connect then ConnectEncode pk
  else if t =? Connack then ConnackEncode pk
  else if t =? Publish then PublishEncode pk
  else if t =? Puback then PubackEncode pk
  else if t =? Pubrec then PubrecEncode pk
  else if t =? Pubrel then PubrelEncode pk
  else if t =? Pubcomp then PubcompEncode pk
  else if t =? Subscribe then SubscribeEncode pk
  else if t =? Suback then SubackEncode pk
  else if t =? Unsubscribe then UnsubscribeEncode pk
  else if t =? Unsuback then UnsubackEncode pk
  else if t =? Pingreq then PingreqEncode pk
  else if t =? Pingresp then PingrespEncode pk
  else if t =? Disconnect then DisconnectEncode pk
  else if t =? Auth then AuthEncode pk
  else Err (ENoValidPacket t).

(** The reads of [ReadFixedHeader] with the broker's [MaximumPacketSize]:
    the header, the number of bytes it took and what is left of the stream. *)
Definition read_fixed_header (maxsize : Z) (stream : bytes) : result error (FixedHeader * Z * bytes) :=
  match stream with
  | [] => Err EEOF
  | b :: stream =>
      fh ← FixedHeader_Decode FixedHeader0 b;
      '(remaining, bu, stream) ← DecodeLength stream;
      let fh := fh <| fh_Remaining := remaining |> in
      if (0 <? maxsize) && (maxsize <? to_u32 (fh_Remaining fh + 1)) then Err (ECode ErrPacketTooLarge)
      else Ok (fh, bu + 1, stream)
  end.

(** [io.ReadFull(r, make([]byte, n))] *)
Definition read_full (n : Z) (stream : bytes) : result error (bytes * bytes) :=
  if Z.of_nat (length stream) <? n then
    Err (match stream with [] => EEOF | _ => EUnexpectedEOF end)
  else Ok (take (Z.to_nat n) stream, drop (Z.to_nat n) stream).

(** The reads of [ReadPacket] for a client of a protocol version. *)
Definition read_body (version : Z) (fh : FixedHeader) (stream : bytes) : result error (Packet * bytes) :=
  let pk := Packet0 <| pk_ProtocolVersion := version |> <| pk_FixedHeader := fh |> in
  '(px, stream) ← read_full (fh_Remaining fh) stream;
  pk ← decode_packet pk px;
  Ok (pk, stream).

(** A header and the packet that follows it, as [Client.Read] reads them. *)
Definition read_packet (maxsize version : Z) (stream : bytes) : result error (Packet * bytes) :=
  '(fh, _, stream) ← read_fixed_header maxsize stream;
  read_body version fh stream.

(** ** A cursor in a buffer

    [cursor buf off rest]: the decoder stands at [off] in [buf] with [rest]
    ahead of it. *)
Definition cursor (buf : bytes) (off : nat) (rest : bytes) : Prop :=
  (off <= length buf)%nat /\ drop off buf = rest.

Lemma cursor_start buf : cursor buf 0 buf.
Proof. split; [lia|done]. Qed.

Lemma cursor_decodes {A} (dec : bytes -> nat -> result error (A * nat)) enc v buf off rest :
  decodes dec enc v -> cursor buf off (enc ++ rest) ->
  dec buf off = Ok (v, (off + length enc)%nat) /\ cursor buf (off + length enc) rest.
Proof.
  intros Hd [Hoff Hrest]. pose proof (Hd (take off buf) rest) as E.
  rewrite <- Hrest, take_drop, length_take_le in E by done. split; [done|].
  apply (f_equal length) in Hrest as L. rewrite length_drop, length_app in L.
  split; [lia|]. rewrite <- drop_drop, Hrest. by apply drop_app_eq.
Qed.

Lemma cursor_length buf off rest : cursor buf off rest -> length buf = (off + length rest)%nat.
Proof. intros [H <-]. rewrite length_drop. lia. Qed.

Lemma cursor_slice buf off rest E : cursor buf off rest -> slice_from (E := E) buf off = Ok rest.
Proof. intros [H <-]. unfold slice_from. by rewrite (proj2 (Nat.ltb_ge _ _)). Qed.

Lemma decodeByteBool_encode b : decodes decodeByteBool [encodeBool b] b.
Proof.
  intros pre post. unfold decodeByteBool. change ([encodeBool b] ++ post) with (encodeBool b :: post).
  rewrite list_lookup_middle by done. by destruct b.
Qed.

(** ** What a packet must satisfy to be sent *)

(** Every section of properties a packet of type [t] carries fits. *)
Definition props_ok (t : Z) (mods : Mods) (p : Properties) : Prop :=
  Properties_wf p /\
  forall n, Z.of_nat (length (Properties_Encode_body t mods p n)) <= 268435455.

Definition props_sent (pk : Packet) (n : nat) : Properties :=
  if v5 pk then Properties_transmitted (pk_Type pk) (pk_Mods pk) n (pk_Properties pk) else Properties0.

Lemma decode_props_encode pk pk0 buf off n rest :
  props_ok (pk_Type pk0) (pk_Mods pk0) (pk_Properties pk0) ->
  pk_Type pk = pk_Type pk0 -> pk_Properties pk = Properties0 ->
  cursor buf off (encode_props pk0 n ++ rest) ->
  decode_props pk buf off =
    Ok (pk <| pk_Properties := Properties_transmitted (pk_Type pk0) (pk_Mods pk0) n (pk_Properties pk0) |>,
        (off + length (encode_props pk0 n))%nat)
  /\ cursor buf (off + length (encode_props pk0 n)) rest.
Proof.
  intros [Hwf Hlen] Ht Hp Hc. unfold decode_props. rewrite (cursor_slice _ _ _ _ Hc). mred.
  rewrite Ht, Hp. unfold encode_props at 1. rewrite Properties_Decode_Encode by done.
  mred. split; [done|]. destruct Hc as [Hoff Hrest]. split.
  - apply (f_equal length) in Hrest. rewrite length_drop, length_app in Hrest. lia.
  - rewrite <- drop_drop, Hrest. by apply drop_app_eq.
Qed.

(** A packet whose fields fit their wire format: the widths of the Go types,
    strings of valid UTF-8, lengths below 2^16. *)
Record Packet_ok (pk : Packet) : Prop := mkPacketOk {
  ok_header : FixedHeader_valid ((pk_FixedHeader pk) <| fh_Remaining := 0 |>) = true;
  ok_PacketID : is_u16 (pk_PacketID pk);
  ok_Properties : props_ok (pk_Type pk) (pk_Mods pk) (pk_Properties pk);
  ok_TopicName : str_ok (pk_TopicName pk);
  ok_Filters : Forall (fun s => str_ok (sub_Filter s) /\ 0 <= sub_Qos s <= 2 /\
                                0 <= sub_RetainHandling s <= 3) (pk_Filters pk);
  ok_ProtocolName : bin_ok (cp_ProtocolName (pk_Connect pk));
  ok_Keepalive : is_u16 (cp_Keepalive (pk_Connect pk));
  ok_ClientIdentifier : str_ok (cp_ClientIdentifier (pk_Connect pk));
  ok_WillProperties : props_ok WillProperties (pk_Mods pk) (cp_WillProperties (pk_Connect pk));
  ok_WillTopic : str_ok (cp_WillTopic (pk_Connect pk));
  ok_WillPayload : bin_ok (cp_WillPayload (pk_Connect pk));
  ok_WillQos : 0 <= cp_WillQos (pk_Connect pk) <= 3;
  ok_Username : bin_ok (cp_Username (pk_Connect pk));
  ok_Password : bin_ok (cp_Password (pk_Connect pk));
}.

(** ** What the receiver of a packet gets

    [received pk r]: the fields of [pk] that its type transmits under its
    protocol version, in a packet [r] that has only a header and a version. *)

Definition Connect_received (pk r : Packet) : Packet :=
  let c := pk_Connect pk in
  r <| pk_Properties := props_sent pk 0 |>
    <| pk_Connect := {|
      cp_WillProperties :=
        if cp_WillFlag c && v5 pk
        then Properties_transmitted WillProperties (pk_Mods pk) 0 (cp_WillProperties c) else Properties0;
      cp_Password := if cp_PasswordFlag c then cp_Password c else [];
      cp_Username := if cp_UsernameFlag c then cp_Username c else [];
      cp_ProtocolName := cp_ProtocolName c;
      cp_WillPayload := if cp_WillFlag c then cp_WillPayload c else [];
      cp_ClientIdentifier := cp_ClientIdentifier c;
      cp_WillTopic := if cp_WillFlag c then cp_WillTopic c else [];
      cp_Keepalive := cp_Keepalive c;
      cp_PasswordFlag := cp_PasswordFlag c;
      cp_UsernameFlag := cp_UsernameFlag c;
      cp_WillQos := cp_WillQos c;
      cp_WillFlag := cp_WillFlag c;
      cp_WillRetain := cp_WillRetain c;
      cp_Clean := cp_Clean c;
    |} |>.

Definition Connack_received (pk r : Packet) : Packet :=
  r <| pk_SessionPresent := pk_SessionPresent pk |> <| pk_ReasonCode := pk_ReasonCode pk |>
    <| pk_Properties := props_sent pk 4 |>.

Definition Publish_received (pk r : Packet) : Packet :=
  let n := (2 + length (pk_TopicName pk) + (if (0 <? pk_Qos pk)%Z then 2 else 0)
            + length (pk_Payload pk))%nat in
  r <| pk_TopicName := pk_TopicName pk |>
    <| pk_PacketID := if 0 <? pk_Qos pk then pk_PacketID pk else 0 |>
    <| pk_Properties := props_sent pk n |>
    <| pk_Payload := pk_Payload pk |>.

(** An acknowledgement carries its reason code when it is an error or when
    there are properties; otherwise the code is read as success. *)
Definition Ack_received (pk r : Packet) : Packet :=
  r <| pk_PacketID := pk_PacketID pk |>
    <| pk_ReasonCode :=
         if v5 pk && ((128 <=? pk_ReasonCode pk) || (1 <? length (encode_props pk 2))%nat)
         then pk_ReasonCode pk else 0 |>
    <| pk_Properties := props_sent pk 2 |>.

Definition Sub_received (pk : Packet) (ids : list Z) (s : Subscription) : Subscription :=
  {|
    sub_ShareName := [];
    sub_Filter := sub_Filter s;
    sub_Identifier := match ids with id :: _ => id | [] => 0 end;
    sub_Identifiers := None;
    sub_RetainHandling := if v5 pk then sub_RetainHandling s else 0;
    sub_Qos := sub_Qos s;
    sub_RetainAsPublished := v5 pk && sub_RetainAsPublished s;
    sub_NoLocal := v5 pk && sub_NoLocal s;
    sub_FwdRetainedFlag := false;
  |}.

Definition Subscribe_received (pk r : Packet) : Packet :=
  let props := props_sent pk (2 + length (concat (map (encode_filter (v5 pk)) (pk_Filters pk)))) in
  r <| pk_PacketID := pk_PacketID pk |> <| pk_Properties := props |>
    <| pk_Filters := map (Sub_received pk (pr_SubscriptionIdentifier props)) (pk_Filters pk) |>.

Definition Suback_received (pk r : Packet) : Packet :=
  r <| pk_PacketID := pk_PacketID pk |>
    <| pk_Properties := props_sent pk (2 + length (pk_ReasonCodes pk)) |>
    <| pk_ReasonCodes := pk_ReasonCodes pk |>.

Definition Unsubscribe_received (pk r : Packet) : Packet :=
  r <| pk_PacketID := pk_PacketID pk |>
    <| pk_Properties := props_sent pk
         (2 + length (concat (map (fun s => encodeString (sub_Filter s)) (pk_Filters pk)))) |>
    <| pk_Filters := map (fun s => Subscription0 <| sub_Filter := sub_Filter s |>) (pk_Filters pk) |>.

Definition Unsuback_received (pk r : Packet) : Packet :=
  r <| pk_PacketID := pk_PacketID pk |> <| pk_Properties := props_sent pk 2 |>
    <| pk_ReasonCodes := if v5 pk then pk_ReasonCodes pk else [] |>.

Definition Disconnect_received (pk r : Packet) : Packet :=
  r <| pk_ReasonCode := if v5 pk then pk_ReasonCode pk else 0 |>
    <| pk_Properties := props_sent pk 1 |>.

Definition Auth_received (pk r : Packet) : Packet :=
  r <| pk_ReasonCode := pk_ReasonCode pk |>
    <| pk_Properties := Properties_transmitted (pk_Type pk) (pk_Mods pk) 1 (pk_Properties pk) |>.

Definition received (pk r : Packet) : Packet :=
  let t := pk_Type pk in
  if t =? Connect then Connect_received pk r
  else if t =? Connack then Connack_received pk r
  else if t =? Publish then Publish_received pk r
  else if t =? Puback then Ack_received pk r
  else if t =? Pubrec then Ack_received pk r
  else if t =? Pubrel then Ack_received pk r
  else if t =? Pubcomp then Ack_received pk r
  else if t =? Subscribe then Subscribe_received pk r
  else if t =? Suback then Suback_received pk r
  else if t =? Unsubscribe then Unsubscribe_received pk r
  else if t =? Unsuback then Unsuback_received pk r
  else if t =? Disconnect then Disconnect_received pk r
  else if t =? Auth then Auth_received pk r
  else r.
