(* ===== verification/WireFacts.v ===== *)
(** * Correctness of the packet codec

    Round trip of every packet type, and safety of reading arbitrary bytes. *)
From S2P Require Import Prelude Codes Codec FixedHeader Properties PropertiesFacts Packets Wire.

(** The packet [ReadPacket] starts from for a packet [pk] with body [nb]. *)
Definition fresh (pk : Packet) (nb : bytes) : Packet :=
  Packet0 <| pk_ProtocolVersion := pk_ProtocolVersion pk |>
    <| pk_FixedHeader := (pk_FixedHeader pk) <| fh_Remaining := Z.of_nat (length nb) |> |>.

(** Reads the next value: the goal starts with [dec buf off], the cursor
    hypothesis stands before its encoding. *)
Ltac read_next Hd :=
  match goal with
  | Hc : cursor ?buf ?off (?enc ++ ?rest) |- _ =>
      let E := fresh "E" in let Hc' := fresh "Hc" in
      destruct (cursor_decodes _ enc _ buf off rest Hd Hc) as [E Hc'];
      rewrite E; clear E Hc; rename Hc' into Hc; mred
  end.

(** The properties under [if pk.ProtocolVersion == 5]. *)
Lemma decode_props_v5_encode pk pk0 buf off n rest :
  props_ok (pk_Type pk0) (pk_Mods pk0) (pk_Properties pk0) ->
  pk_Type pk = pk_Type pk0 -> pk_Properties pk = Properties0 -> v5 pk = v5 pk0 ->
  cursor buf off (block (v5 pk0) (encode_props pk0 n) ++ rest) ->
  exists off', decode_props_v5 pk buf off = Ok (pk <| pk_Properties := props_sent pk0 n |>, off')
  /\ cursor buf off' rest.
Proof.
  intros Hok Ht Hp Hv Hc. unfold decode_props_v5, props_sent. rewrite Hv.
  destruct (v5 pk0); cbn [block] in Hc.
  - destruct (decode_props_encode _ _ _ _ _ _ Hok Ht Hp Hc) as [-> ?]. by eexists.
  - exists off. split; [|done]. rewrite <- Hp. by destruct pk.
Qed.

(** Starts reading the body of the goal's packet, reassociated. *)
Ltac start_reading dec :=
  match goal with
  | |- _ _ ?nb = Ok _ =>
      let b := fresh "nb" in let Hc := fresh "Hc" in let E := fresh "Enb" in
      remember nb as b eqn:E; pose proof (cursor_start b) as Hc;
      rewrite E in Hc at 2; rewrite <- ?app_assoc in Hc
  end; unfold dec, wrap, as_code.

Ltac read_props Hok :=
  match goal with
  | Hc : cursor ?buf ?off (block _ _ ++ ?rest) |- _ =>
      let off' := fresh "off" in let Hc' := fresh "Hc" in
      edestruct decode_props_v5_encode as (off' & -> & Hc'); [apply Hok|..|exact Hc|];
      [done..|]; clear Hc; rename Hc' into Hc; mred
  end.

(** The header of a packet built from [fresh _ nb] has the length of [nb]. *)
Ltac remaining_is nb := change (fh_Remaining _) with (Z.of_nat (length nb)).

Lemma ltb_true a b : a < b -> (a <? b) = true.
Proof. apply Z.ltb_lt. Qed.

Lemma Properties_Encode_nonempty t mods p n : (0 < length (Properties_Encode t mods p n))%nat.
Proof. unfold Properties_Encode. rewrite length_app. cbn. lia. Qed.

(** An empty section transmits nothing. *)
Lemma Properties_transmitted_empty t mods p n :
  props_ok t mods p -> (length (Properties_Encode t mods p n) <= 1)%nat ->
  Properties_transmitted t mods n p = Properties0.
Proof.
  intros [Hwf Hlen] Hl. pose proof (Properties_Decode_Encode t mods p n [] Hwf (Hlen n)) as E.
  unfold Properties_Encode in E, Hl.
  rewrite length_app in Hl.
  destruct (Properties_Encode_body t mods p n) eqn:Hb.
  - change (Properties_Decode Properties0 t [0] = Ok (Properties_transmitted t mods n p, 1%nat)) in E.
    change (Properties_Decode Properties0 t [0]) with (@Ok error _ (Properties0, 1%nat)) in E.
    apply (inj Ok) in E. congruence.
  - cbn [length] in Hl. rewrite encodeLength_unfold in Hl; [cbn in Hl; lia|].
    specialize (Hlen n). rewrite Hb in Hlen. unfold is_i64. cbn [length] in *. lia.
Qed.

(** ** Flag bytes *)

Lemma Subscription_options_roundtrip s q :
  0 <= sub_Qos s <= 2 -> 0 <= sub_RetainHandling s <= 3 ->
  Subscription_decode q (Subscription_encode s) =
    q <| sub_Qos := sub_Qos s |> <| sub_NoLocal := sub_NoLocal s |>
      <| sub_RetainAsPublished := sub_RetainAsPublished s |>
      <| sub_RetainHandling := sub_RetainHandling s |>.
Proof.
  intros Hq Hr. unfold Subscription_encode, Subscription_decode.
  generalize (sub_NoLocal s), (sub_RetainAsPublished s). intros nl rap.
  assert (sub_Qos s = 0 \/ sub_Qos s = 1 \/ sub_Qos s = 2) as Hq' by lia.
  assert (sub_RetainHandling s = 0 \/ sub_RetainHandling s = 1 \/ sub_RetainHandling s = 2 \/
          sub_RetainHandling s = 3) as Hr' by lia.
  destruct Hq' as [->|[->| ->]], Hr' as [->|[->|[->| ->]]], nl, rap; reflexivity.
Qed.

Lemma connect_flags_roundtrip c pk :
  0 <= cp_WillQos c <= 3 ->
  decode_connect_flags pk (connect_flags c) =
    pk <| pk_ReservedBit := 0 |>
       <| pk_Connect ::= fun d =>
            d <| cp_Clean := cp_Clean c |> <| cp_WillFlag := cp_WillFlag c |>
              <| cp_WillQos := cp_WillQos c |> <| cp_WillRetain := cp_WillRetain c |>
              <| cp_PasswordFlag := cp_PasswordFlag c |> <| cp_UsernameFlag := cp_UsernameFlag c |> |>.
Proof.
  intros Hq. unfold decode_connect_flags, connect_flags.
  generalize (cp_Clean c), (cp_WillFlag c), (cp_WillRetain c), (cp_PasswordFlag c), (cp_UsernameFlag c).
  intros b1 b2 b3 b4 b5.
  assert (cp_WillQos c = 0 \/ cp_WillQos c = 1 \/ cp_WillQos c = 2 \/ cp_WillQos c = 3) as Hq' by lia.
  destruct Hq' as [->|[->|[->| ->]]], b1, b2, b3, b4, b5; reflexivity.
Qed.

(** ** Filters *)

Definition filter_ok (s : Subscription) : Prop :=
  str_ok (sub_Filter s) /\ 0 <= sub_Qos s <= 2 /\ 0 <= sub_RetainHandling s <= 3.

Section Filters.
Context (pk pk0 : Packet) (Hv : v5 pk = v5 pk0) (buf : bytes).
Let ids := pr_SubscriptionIdentifier (pk_Properties pk).

Lemma decode_filter_encode s off rest :
  filter_ok s -> cursor buf off (encode_filter (v5 pk0) s ++ rest) ->
  exists off', decode_filter pk buf off = Ok (Sub_received pk0 ids s, off') /\ cursor buf off' rest.
Proof.
  intros (Hf & Hq & Hr) Hc. unfold decode_filter, encode_filter, as_code in *. rewrite <- app_assoc in Hc.
  read_next (decodeString_str_ok _ Hf). rewrite Hv. unfold Sub_received.
  destruct (v5 pk0).
  - destruct (cursor_decodes _ _ _ _ _ _ (decodeByte_encode (Subscription_encode s)) Hc) as [E Hc'].
    unfold decodeByte in E. unfold index_at. destruct (buf !! _); [|done]. apply (inj Ok) in E as [= ->].
    mred. rewrite Subscription_options_roundtrip by done.
    eexists. split; [|exact Hc']. fold ids.
    destruct ids; cbn; by rewrite (proj2 (Z.ltb_ge _ _)) by lia.
  - read_next (decodeByte_encode (sub_Qos s)). fold ids. eexists. split; [|exact Hc].
    destruct ids; cbn; by rewrite (proj2 (Z.ltb_ge _ _)) by lia.
Qed.

Lemma decode_filters_encode fs fuel off rest :
  Forall filter_ok fs -> (length buf - off <= fuel)%nat ->
  cursor buf off (concat (map (encode_filter (v5 pk0)) fs) ++ rest) ->
  exists fuel' off', (length buf - off' <= fuel')%nat /\ cursor buf off' rest /\
    decode_filters fuel pk buf off =
      (subs ← decode_filters fuel' pk buf off'; Ok (map (Sub_received pk0 ids) fs ++ subs)).
Proof.
  intros Hfs. revert fuel off.
  induction Hfs as [|s fs Hs Hfs IH]; intros fuel off Hfuel Hc; cbn [map concat app] in *.
  - exists fuel, off. split_and!; [done|done|]. by destruct (decode_filters fuel pk buf off).
  - rewrite <- app_assoc in Hc. apply cursor_length in Hc as L.
    rewrite length_app in L. unfold encode_filter at 1 in L. rewrite length_app in L. cbn [length] in L.
    destruct fuel as [|fuel]; [lia|]. cbn [decode_filters].
    rewrite (proj2 (Nat.leb_gt _ _)) by lia.
    destruct (decode_filter_encode _ _ _ Hs Hc) as (off1 & -> & Hc1). mred.
    destruct (IH fuel off1) as (fuel' & off' & ? & ? & ->).
    + apply cursor_length in Hc1. lia.
    + done.
    + exists fuel', off'. split_and!; [done|done|].
      by destruct (decode_filters fuel' pk buf off').
Qed.

Lemma decode_unsub_filters_encode fs fuel off :
  Forall filter_ok fs -> (length buf - off <= fuel)%nat ->
  cursor buf off (concat (map (fun s => encodeString (sub_Filter s)) fs)) ->
  decode_unsub_filters fuel buf off
  = Ok (map (fun s => Subscription0 <| sub_Filter := sub_Filter s |>) fs).
Proof.
  intros Hfs. revert fuel off.
  induction Hfs as [|s fs Hs Hfs IH]; intros fuel off Hfuel Hc; cbn [map concat app] in *;
    apply cursor_length in Hc as L; [cbn in L|rewrite length_app in L; cbn in L].
  - assert ((length buf <=? off)%nat = true) as E by (apply Nat.leb_le; lia).
    destruct fuel; cbn; by rewrite E.
  - destruct fuel as [|fuel]; [lia|]. cbn [decode_unsub_filters].
    rewrite (proj2 (Nat.leb_gt _ _)) by lia. unfold wrap.
    read_next (decodeString_str_ok _ (proj1 Hs)).
    rewrite IH; [done| |done]. change (length (encodeString _)) with (2 + length (sub_Filter s))%nat. lia.
Qed.
End Filters.

(** ** Round trip of each packet type *)

Section RoundTrip.
Context (pk : Packet) (Hok : Packet_ok pk).

Lemma Connack_roundtrip :
  exists nb, ConnackEncode pk = Ok (finish pk nb) /\
    ConnackDecode (fresh pk nb) nb = Ok (Connack_received pk (fresh pk nb)).
Proof.
  eexists. split; [reflexivity|].
  change [encodeBool (pk_SessionPresent pk); pk_ReasonCode pk]
    with ([encodeBool (pk_SessionPresent pk)] ++ [pk_ReasonCode pk]).
  rewrite <- (app_nil_r (block _ _)). start_reading ConnackDecode.
  read_next (decodeByteBool_encode (pk_SessionPresent pk)).
  read_next (decodeByte_encode (pk_ReasonCode pk)).
  by read_props Hok.
Qed.

Lemma Publish_roundtrip :
  (0 <? pk_Qos pk) && (pk_PacketID pk =? 0) = false ->
  exists nb, PublishEncode pk = Ok (finish pk nb) /\
    PublishDecode (fresh pk nb) nb = Ok (Publish_received pk (fresh pk nb)).
Proof.
  intros Hid. unfold PublishEncode, Publish_received.
  destruct (0 <? pk_Qos pk) eqn:Hq; [destruct (pk_PacketID pk =? 0); [done|]|]; mred.
  all: eexists; split; [reflexivity|].
  all: start_reading PublishDecode.
  all: read_next (decodeString_str_ok _ (ok_TopicName _ Hok)).
  all: change (pk_Qos _) with (pk_Qos pk); rewrite Hq; mred.
  - read_next (decodeUint16_encode _ (ok_PacketID _ Hok)).
    read_props Hok. rewrite (cursor_slice _ _ _ _ Hc). mred. by rewrite length_app.
  - read_props Hok. rewrite (cursor_slice _ _ _ _ Hc). mred. by rewrite Nat.add_0_r.
Qed.

Lemma Ack_roundtrip :
  exists nb, encodePubAckRelRecComp pk = Ok (finish pk nb) /\
    decodePubAckRelRecComp (fresh pk nb) nb = Ok (Ack_received pk (fresh pk nb)).
Proof.
  unfold encodePubAckRelRecComp, Ack_received, props_sent. eexists. split; [reflexivity|].
  change (length (encodeUint16 _)) with 2%nat. change (Code_Code ErrUnspecifiedError) with 128.
  pose proof (Properties_transmitted_empty _ _ _ 2 (ok_Properties _ Hok)) as Hempty.
  destruct (v5 pk) eqn:Hv; cbn [andb].
  - destruct (1 <? length (encode_props pk 2))%nat eqn:Hl; bool_to_prop;
      rewrite ?orb_true_r, ?orb_false_r; cbn [block].
    + rewrite <- (app_nil_r (encode_props _ _)). start_reading decodePubAckRelRecComp.
      apply cursor_length in Hc as L. rewrite !length_app in L. cbn [length] in L.
      read_next (decodeUint16_encode _ (ok_PacketID _ Hok)).
      remaining_is nb. change (v5 _) with (v5 pk). rewrite Hv, L, ltb_true by (cbn; lia). cbn [andb].
      read_next (decodeByte_encode (pk_ReasonCode pk)).
      rewrite ltb_true by (cbn; lia).
      edestruct decode_props_encode as [-> _]; [apply Hok|..|exact Hc|]; done.
    + rewrite app_nil_r, Hempty by done.
      destruct (128 <=? pk_ReasonCode pk); cbn [block].
      * rewrite <- (app_nil_r [pk_ReasonCode pk]). start_reading decodePubAckRelRecComp.
        read_next (decodeUint16_encode _ (ok_PacketID _ Hok)).
        remaining_is nb. change (v5 _) with (v5 pk). rewrite Hv, Enb. mred.
        rewrite Enb in Hc at 1. by read_next (decodeByte_encode (pk_ReasonCode pk)).
      * start_reading decodePubAckRelRecComp.
        read_next (decodeUint16_encode _ (ok_PacketID _ Hok)).
        remaining_is nb. change (v5 _) with (v5 pk). by rewrite Hv, Enb.
  - rewrite <- (app_nil_r (encodeUint16 _)). start_reading decodePubAckRelRecComp.
    read_next (decodeUint16_encode _ (ok_PacketID _ Hok)).
    change (v5 _) with (v5 pk). by rewrite Hv.
Qed.

Lemma Suback_roundtrip :
  exists nb, SubackEncode pk = Ok (finish pk nb) /\
    SubackDecode (fresh pk nb) nb = Ok (Suback_received pk (fresh pk nb)).
Proof.
  eexists. split; [reflexivity|]. start_reading SubackDecode.
  read_next (decodeUint16_encode _ (ok_PacketID _ Hok)).
  read_props Hok. by rewrite (cursor_slice _ _ _ _ Hc).
Qed.

Lemma Unsuback_roundtrip :
  exists nb, UnsubackEncode pk = Ok (finish pk nb) /\
    UnsubackDecode (fresh pk nb) nb = Ok (Unsuback_received pk (fresh pk nb)).
Proof.
  eexists. split; [reflexivity|]. unfold Unsuback_received, props_sent.
  destruct (v5 pk) eqn:Hv; cbn [block]; [|rewrite app_nil_r, <- (app_nil_r (encodeUint16 _))].
  all: start_reading UnsubackDecode; read_next (decodeUint16_encode _ (ok_PacketID _ Hok)).
  all: change (v5 _) with (v5 pk); rewrite Hv; try done.
  edestruct decode_props_encode as [-> Hc']; [apply Hok|..|exact Hc|]; try done. mred.
  by rewrite (cursor_slice _ _ _ _ Hc').
Qed.

Lemma Disconnect_roundtrip :
  exists nb, DisconnectEncode pk = Ok (finish pk nb) /\
    DisconnectDecode (fresh pk nb) nb = Ok (Disconnect_received pk (fresh pk nb)).
Proof.
  eexists. split; [reflexivity|]. unfold Disconnect_received, props_sent.
  pose proof (Properties_transmitted_empty _ _ _ 1 (ok_Properties _ Hok)) as Hempty.
  destruct (v5 pk) eqn:Hv; cbn [block]; [|unfold DisconnectDecode; change (v5 _) with (v5 pk); by rewrite Hv].
  change (length [_]) with 1%nat. rewrite <- (app_nil_r (encode_props _ _)).
  start_reading DisconnectDecode.
  apply cursor_length in Hc as L. rewrite !length_app in L. cbn [length] in L.
  pose proof (Properties_Encode_nonempty (pk_Type pk) (pk_Mods pk) (pk_Properties pk) 1) as Hne.
  fold (encode_props pk 1) in Hne.
  remaining_is nb. change (v5 _) with (v5 pk). rewrite Hv, L, ltb_true by lia. cbn [andb].
  read_next (decodeByte_encode (pk_ReasonCode pk)).
  destruct (2 <? _) eqn:Hl; bool_to_prop.
  - edestruct decode_props_encode as [-> _]; [apply Hok|..|exact Hc|]; done.
  - rewrite Hempty; [done|]. fold (encode_props pk 1). lia.
Qed.

Lemma Auth_roundtrip :
  exists nb, AuthEncode pk = Ok (finish pk nb) /\
    AuthDecode (fresh pk nb) nb = Ok (Auth_received pk (fresh pk nb)).
Proof.
  eexists. split; [reflexivity|]. rewrite <- (app_nil_r (encode_props _ _)).
  start_reading AuthDecode. read_next (decodeByte_encode (pk_ReasonCode pk)).
  edestruct decode_props_encode as [-> _]; [apply Hok|..|exact Hc|]; done.
Qed.

Lemma Subscribe_roundtrip :
  (pk_PacketID pk =? 0) = false ->
  exists nb, SubscribeEncode pk = Ok (finish pk nb) /\
    SubscribeDecode (fresh pk nb) nb = Ok (Subscribe_received pk (fresh pk nb)).
Proof.
  intros Hid. unfold SubscribeEncode. rewrite Hid. eexists. split; [reflexivity|].
  start_reading SubscribeDecode. read_next (decodeUint16_encode _ (ok_PacketID _ Hok)).
  read_props Hok. rewrite <- (app_nil_r (concat _)) in Hc.
  edestruct decode_filters_encode as (fuel' & off' & Hf & Hc' & ->);
    [|exact (ok_Filters _ Hok)| |exact Hc|]; [done|lia|].
  apply cursor_length in Hc'. rewrite Nat.add_0_r in Hc'.
  assert ((length nb <=? off')%nat = true) as E by (apply Nat.leb_le; lia).
  destruct fuel'; cbn [decode_filters]; rewrite E; mred; by rewrite app_nil_r.
Qed.

Lemma Unsubscribe_roundtrip :
  (pk_PacketID pk =? 0) = false ->
  exists nb, UnsubscribeEncode pk = Ok (finish pk nb) /\
    UnsubscribeDecode (fresh pk nb) nb = Ok (Unsubscribe_received pk (fresh pk nb)).
Proof.
  intros Hid. unfold UnsubscribeEncode. rewrite Hid. eexists. split; [reflexivity|].
  start_reading UnsubscribeDecode. read_next (decodeUint16_encode _ (ok_PacketID _ Hok)).
  read_props Hok. by erewrite decode_unsub_filters_encode; [|exact (ok_Filters _ Hok)|lia|exact Hc].
Qed.

(** The fields a connect packet's decoder has filled in before the will. *)
Definition Connect_head (r : Packet) : Packet :=
  let c := pk_Connect pk in
  r <| pk_Properties := props_sent pk 0 |>
    <| pk_Connect := ConnectParams0
         <| cp_ProtocolName := cp_ProtocolName c |> <| cp_Clean := cp_Clean c |>
         <| cp_WillFlag := cp_WillFlag c |> <| cp_WillQos := cp_WillQos c |>
         <| cp_WillRetain := cp_WillRetain c |> <| cp_PasswordFlag := cp_PasswordFlag c |>
         <| cp_UsernameFlag := cp_UsernameFlag c |> <| cp_Keepalive := cp_Keepalive c |>
         <| cp_ClientIdentifier := cp_ClientIdentifier c |> |>.

Definition Connect_with_will (r : Packet) : Packet :=
  let c := pk_Connect pk in
  if cp_WillFlag c then
    r <| pk_Connect ::= fun d =>
           d <| cp_WillProperties := if v5 pk then Properties_transmitted WillProperties (pk_Mods pk) 0
                                       (cp_WillProperties c) else Properties0 |>
             <| cp_WillTopic := cp_WillTopic c |> <| cp_WillPayload := cp_WillPayload c |> |>
  else r.

Lemma decode_will_encode r buf off rest :
  cp_WillFlag (pk_Connect r) = cp_WillFlag (pk_Connect pk) -> v5 r = v5 pk ->
  cp_WillProperties (pk_Connect r) = Properties0 ->
  cursor buf off (block (cp_WillFlag (pk_Connect pk))
      (block (v5 pk) (Properties_Encode WillProperties (pk_Mods pk) (cp_WillProperties (pk_Connect pk)) 0) ++
       encodeString (cp_WillTopic (pk_Connect pk)) ++ encodeBytes (cp_WillPayload (pk_Connect pk))) ++ rest) ->
  exists off', decode_will r buf off = Ok (Connect_with_will r, off') /\ cursor buf off' rest.
Proof.
  intros Hw Hv Hp Hc. unfold decode_will, Connect_with_will, as_code. rewrite Hw, Hv.
  destruct (cp_WillFlag (pk_Connect pk)); cbn [block app] in Hc; [|by eexists].
  rewrite <- !app_assoc in Hc. destruct (v5 pk); cbn [block app] in Hc.
  - rewrite (cursor_slice _ _ _ _ Hc). mred. destruct (ok_WillProperties _ Hok) as [Hwf Hlen].
    rewrite Hp, Properties_Decode_Encode by done. mred.
    assert (cursor buf (off + length (Properties_Encode WillProperties (pk_Mods pk)
      (cp_WillProperties (pk_Connect pk)) 0)) (encodeString (cp_WillTopic (pk_Connect pk)) ++
      encodeBytes (cp_WillPayload (pk_Connect pk)) ++ rest)) as Hc'.
    { destruct Hc as [Hoff Hrest]. split.
      - apply (f_equal length) in Hrest. rewrite length_drop, length_app in Hrest. lia.
      - rewrite <- drop_drop, Hrest. by apply drop_app_eq. }
    clear Hc. read_next (decodeString_str_ok _ (ok_WillTopic _ Hok)).
    read_next (decodeBytes_encode _ (ok_WillPayload _ Hok)). by eexists.
  - mred. read_next (decodeString_str_ok _ (ok_WillTopic _ Hok)).
    read_next (decodeBytes_encode _ (ok_WillPayload _ Hok)). eexists. split; [|done].
    rewrite <- Hp. by destruct r.
Qed.

Lemma decode_username_encode r buf off rest :
  cp_UsernameFlag (pk_Connect r) = cp_UsernameFlag (pk_Connect pk) ->
  cp_Username (pk_Connect r) = [] ->
  cursor buf off (block (cp_UsernameFlag (pk_Connect pk)) (encodeBytes (cp_Username (pk_Connect pk))) ++ rest) ->
  exists off', decode_username r buf off =
      Ok (r <| pk_Connect ::= fun d => d <| cp_Username :=
            if cp_UsernameFlag (pk_Connect pk) then cp_Username (pk_Connect pk) else [] |> |>, off')
    /\ cursor buf off' rest.
Proof.
  intros Hf Hu Hc. unfold decode_username, as_code. rewrite Hf.
  destruct (cp_UsernameFlag (pk_Connect pk)); cbn [block app] in Hc.
  - apply cursor_length in Hc as L. rewrite length_app in L. cbn in L.
    rewrite (proj2 (Nat.leb_gt _ _)) by lia.
    read_next (decodeBytes_encode _ (ok_Username _ Hok)). by eexists.
  - eexists. split; [|done]. rewrite <- Hu. by destruct r.
Qed.

Lemma decode_password_encode r buf off :
  cp_PasswordFlag (pk_Connect r) = cp_PasswordFlag (pk_Connect pk) ->
  cp_Password (pk_Connect r) = [] ->
  cursor buf off (block (cp_PasswordFlag (pk_Connect pk)) (encodeBytes (cp_Password (pk_Connect pk))) ++ []) ->
  decode_password r buf off =
    Ok (r <| pk_Connect ::= fun d => d <| cp_Password :=
          if cp_PasswordFlag (pk_Connect pk) then cp_Password (pk_Connect pk) else [] |> |>).
Proof.
  intros Hf Hu Hc. unfold decode_password, as_code. rewrite Hf.
  destruct (cp_PasswordFlag (pk_Connect pk)); cbn [block app] in Hc.
  - by read_next (decodeBytes_encode _ (ok_Password _ Hok)).
  - rewrite <- Hu. by destruct r.
Qed.

Lemma Connect_roundtrip :
  exists nb, ConnectEncode pk = Ok (finish pk nb) /\
    ConnectDecode (fresh pk nb) nb = Ok (Connect_received pk (fresh pk nb)).
Proof.
  eexists. split; [reflexivity|]. rewrite <- (app_nil_r (block (cp_PasswordFlag _) _)).
  start_reading ConnectDecode.
  read_next (decodeBytes_encode _ (ok_ProtocolName _ Hok)).
  read_next (decodeByte_encode (pk_ProtocolVersion pk)).
  read_next (decodeByte_encode (connect_flags (pk_Connect pk))).
  rewrite connect_flags_roundtrip by apply Hok.
  read_next (decodeUint16_encode _ (ok_Keepalive _ Hok)).
  read_props Hok.
  read_next (decodeString_str_ok _ (ok_ClientIdentifier _ Hok)).
  match goal with |- context [decode_will ?r _ _] => change r with (Connect_head (fresh pk nb)) end.
  edestruct decode_will_encode as (off1 & -> & Hc1); [..|exact Hc|]; [done..|]. clear Hc. mred.
  unfold Connect_received, Connect_with_will.
  destruct (cp_WillFlag (pk_Connect pk)) eqn:Hw; cbn [andb].
  all: edestruct decode_username_encode as (off2 & -> & Hc); [..|exact Hc1|]; [done..|]; mred.
  all: erewrite decode_password_encode; [|done..|exact Hc]; unfold Connect_head; by rewrite Hw.
Qed.
End RoundTrip.

(** The header and the body that the encoders write are read back as they are. *)
Lemma read_packet_finish maxsize pk nb rest :
  FixedHeader_valid ((pk_FixedHeader pk) <| fh_Remaining := 0 |>) = true ->
  Z.of_nat (length nb) <= 268435455 -> (maxsize = 0 \/ Z.of_nat (length nb) < maxsize) ->
  read_packet maxsize (pk_ProtocolVersion pk) ((finish pk nb).1 ++ rest) =
    (r ← decode_packet (fresh pk nb) nb; Ok (r, rest)).
Proof.
  intros Hh Hl Hm. unfold read_packet, read_fixed_header, finish. cbn [fst].
  set (fh := pk_FixedHeader (pk <| pk_FixedHeader ::= _ |>)).
  change (pk_FixedHeader _) with fh. rewrite <- app_assoc.
  assert (FixedHeader_valid fh = true) as Hv.
  { unfold FixedHeader_valid in *. cbn in *. bool_to_prop. rewrite !andb_true_iff, !Z.leb_le, !Z.ltb_lt.
    split_and!; try done; lia. }
  change (FixedHeader_Encode fh) with (FixedHeader_first_byte fh :: encodeLength (fh_Remaining fh)).
  cbn [app]. rewrite FixedHeader_first_byte_decode by done. mred.
  change (fh_Remaining fh) with (Z.of_nat (length nb)).
  rewrite DecodeLength_encode by lia. mred.
  change (fh_Remaining (_ <| fh_Remaining := ?n |>)) with n.
  assert ((0 <? maxsize) && (maxsize <? to_u32 (Z.of_nat (length nb) + 1)) = false) as ->.
  { rewrite to_u32_id by (unfold is_u32; lia). apply andb_false_iff. rewrite !Z.ltb_ge. lia. }
  mred. unfold read_body, read_full. change (fh_Remaining (_ <| fh_Remaining := ?n |>)) with n.
  rewrite (proj2 (Z.ltb_ge _ _)) by (rewrite length_app; lia). mred.
  rewrite Nat2Z.id, take_app_eq, drop_app_eq by done. done.
Qed.

(** A packet as it arrives: only the version and the header that was sent. *)
Definition arrival (pk' : Packet) : Packet :=
  Packet0 <| pk_ProtocolVersion := pk_ProtocolVersion pk' |> <| pk_FixedHeader := pk_FixedHeader pk' |>.

(** What an encoder writes for [pk] is decoded to [received]. *)
Definition codec_agrees (pk : Packet) : Prop :=
  match encode_packet pk with
  | Ok w => exists nb, w = finish pk nb /\
              decode_packet (fresh pk nb) nb = Ok (received pk (fresh pk nb))
  | Err e => e = ECode ErrProtocolViolationNoPacketID \/ e = ENoValidPacket (pk_Type pk)
  | _ => False
  end.

Lemma codec_agrees_intro (enc : Packet -> result error (bytes * Packet)) (dec : Packet -> bytes -> result error Packet)
    (rcv : Packet -> Packet -> Packet) pk :
  encode_packet pk = enc pk ->
  (forall nb, decode_packet (fresh pk nb) nb = dec (fresh pk nb) nb) -> received pk = rcv pk ->
  (exists nb, enc pk = Ok (finish pk nb) /\ dec (fresh pk nb) nb = Ok (rcv pk (fresh pk nb))) ->
  codec_agrees pk.
Proof.
  intros He Hd Hr (nb & E1 & E2). unfold codec_agrees. rewrite He, E1, Hr.
  exists nb. by rewrite Hd, E2.
Qed.

Ltac codec_with intro H lem :=
  eapply intro;
    [unfold encode_packet; rewrite H; reflexivity
    |intros; unfold decode_packet; change (pk_Type (fresh ?p _)) with (pk_Type p); rewrite H; reflexivity
    |unfold received; rewrite H; reflexivity
    |apply lem; auto].
Ltac codec_case H lem := codec_with codec_agrees_intro H lem.

Lemma type_cases pk : Packet_ok pk -> In (pk_Type pk) [0; 1; 2; 3; 4; 5; 6; 7; 8; 9; 10; 11; 12; 13; 14; 15].
Proof.
  change [0; 1; 2; 3; 4; 5; 6; 7; 8; 9; 10; 11; 12; 13; 14; 15] with (map Z.of_nat (seq 0 16)).
  intros [Hh]. unfold FixedHeader_valid in Hh. bool_to_prop.
  assert (0 <= pk_Type pk < 16) by (split; assumption).
  rewrite <- (Z2Nat.id (pk_Type pk)) by lia. apply in_map, in_seq. lia.
Qed.

Lemma Ping_roundtrip pk :
  fh_Remaining (pk_FixedHeader pk) = 0 ->
  exists nb, PingreqEncode pk = Ok (finish pk nb) /\
    PingreqDecode (fresh pk nb) nb = Ok (fresh pk nb).
Proof.
  intros H. exists []. split; [|done]. unfold PingreqEncode, finish. rewrite app_nil_r.
  destruct pk as [???????[]]. cbn in *. by subst.
Qed.

Lemma codec_agrees_all pk :
  Packet_ok pk ->
  (pk_Type pk = Pingreq \/ pk_Type pk = Pingresp -> fh_Remaining (pk_FixedHeader pk) = 0) ->
  codec_agrees pk.
Proof.
  intros Hok Hping. pose proof (type_cases pk Hok) as Ht. cbn in Ht.
  destruct Ht as [H|[H|[H|[H|[H|[H|[H|[H|[H|[H|[H|[H|[H|[H|[H|[H|[]]]]]]]]]]]]]]]]]; symmetry in H.
  - unfold codec_agrees, encode_packet. rewrite H. cbn. auto.
  - codec_case H Connect_roundtrip.
  - codec_case H Connack_roundtrip.
  - destruct ((0 <? pk_Qos pk) && (pk_PacketID pk =? 0)) eqn:Hid.
    + unfold codec_agrees, encode_packet, PublishEncode. rewrite H. cbn. bool_to_prop.
      rewrite ltb_true, (proj2 (Z.eqb_eq _ _)) by done. cbn. auto.
    + codec_case H Publish_roundtrip.
  - codec_case H Ack_roundtrip.
  - codec_case H Ack_roundtrip.
  - codec_case H Ack_roundtrip.
  - codec_case H Ack_roundtrip.
  - destruct (pk_PacketID pk =? 0) eqn:Hid; [|codec_case H Subscribe_roundtrip].
    unfold codec_agrees, encode_packet, SubscribeEncode. rewrite H, Hid. cbn. auto.
  - codec_case H Suback_roundtrip.
  - destruct (pk_PacketID pk =? 0) eqn:Hid; [|codec_case H Unsubscribe_roundtrip].
    unfold codec_agrees, encode_packet, UnsubscribeEncode. rewrite H, Hid. cbn. auto.
  - codec_case H Unsuback_roundtrip.
  - codec_with (codec_agrees_intro PingreqEncode PingreqDecode (fun _ r => r)) H Ping_roundtrip.
  - codec_with (codec_agrees_intro PingrespEncode PingrespDecode (fun _ r => r)) H Ping_roundtrip.
  - codec_case H Disconnect_roundtrip.
  - codec_case H Auth_roundtrip.
Qed.

(** C1: round trip of the whole protocol. Every packet whose fields fit their
    wire format is written by the encoder of its type (unless it lacks the
    packet id its type needs, or its type is the reserved 0), and reading the
    bytes written, followed by anything, gives back exactly the fields the
    type transmits under the protocol version ([received]), with the remaining
    length set, and leaves the bytes that follow. *)
Theorem packet_roundtrip maxsize pk rest :
  Packet_ok pk ->
  (pk_Type pk = Pingreq \/ pk_Type pk = Pingresp -> fh_Remaining (pk_FixedHeader pk) = 0) ->
  match encode_packet pk with
  | Ok (bs, pk') =>
      fh_Remaining (pk_FixedHeader pk') <= 268435455 ->
      (maxsize = 0 \/ fh_Remaining (pk_FixedHeader pk') < maxsize) ->
      read_packet maxsize (pk_ProtocolVersion pk) (bs ++ rest) = Ok (received pk (arrival pk'), rest)
  | Err e => e = ECode ErrProtocolViolationNoPacketID \/ e = ENoValidPacket (pk_Type pk)
  | _ => False
  end.
Proof.
  intros Hok Hping. pose proof (codec_agrees_all pk Hok Hping) as H. unfold codec_agrees in H.
  destruct (encode_packet pk) as [[bs pk']| | |]; try done.
  destruct H as (nb & E & Hd). intros Hl Hm.
  change bs with (bs, pk').1. change pk' with (bs, pk').2 in Hl, Hm. rewrite E in *.
  rewrite (read_packet_finish maxsize pk nb rest) by (done || apply Hok). rewrite Hd. mred.
  assert (pk' = (finish pk nb).2) as -> by (by rewrite <- E). done.
Qed.

Definition Publish_sample : Packet :=
  Packet0 <| pk_ProtocolVersion := 5 |> <| pk_FixedHeader := mkFixedHeader 0 Publish 1 true false |>
    <| pk_TopicName := !"a/b" |> <| pk_PacketID := 7 |> <| pk_Payload := !"hi" |>
    <| pk_Properties := Properties0 <| pr_MessageExpiryInterval := 70000 |> |>.

Lemma Publish_sample_ok : Packet_ok Publish_sample.
Proof.
  constructor; try done.
  all: split; [by constructor; repeat constructor|]; intros n; by vm_compute.
Qed.

Lemma packet_roundtrip_witness :
  read_packet 0 5 ([58; 15; 0; 3; 97; 47; 98; 0; 7; 5; 2; 0; 1; 17; 112; 104; 105] ++ [1; 2]) =
    Ok (Publish_sample <| pk_FixedHeader := mkFixedHeader 15 Publish 1 true false |>, [1; 2]).
Proof.
  exact (packet_roundtrip 0 Publish_sample [1; 2] Publish_sample_ok
    ltac:(by intros [|]) ltac:(by vm_compute) (or_introl eq_refl)).
Defined.

(** ** Reading arbitrary bytes

    [steps buf off r]: the decoding step [r] taken at [off] returns, and stays
    inside the buffer when it succeeds. *)
Definition steps {A} (buf : bytes) (off : nat) (r : result error (A * nat)) : Prop :=
  (exists v off', r = Ok (v, off') /\ (off <= off' <= length buf)%nat) \/ (exists e, r = Err e).

Lemma steps_map_err {A} buf off (r : result error (A * nat)) f : steps buf off r -> steps buf off (map_err f r).
Proof. intros [(v & off' & -> & H)|[e ->]]; [left|right]; cbn; eauto. Qed.

Lemma steps_bind {A B} buf off (r : result error (A * nat)) (k : A * nat -> result error (B * nat)) :
  steps buf off r ->
  (forall v off', (off <= off' <= length buf)%nat -> steps buf off' (k (v, off'))) ->
  steps buf off (r ≫= k).
Proof.
  intros [(v & off' & -> & H)|[e ->]] Hk; cbn; [|right; eauto].
  destruct (Hk v off' H) as [(w & off2 & -> & H2)|[e ->]]; [left|right]; eauto.
  exists w, off2. split; [done|lia].
Qed.

Lemma returns_bind {A B} buf off (r : result error (A * nat)) (k : A * nat -> result error B) :
  steps buf off r -> (forall v off', (off <= off' <= length buf)%nat -> returns (k (v, off'))) ->
  returns (r ≫= k).
Proof. intros [(v & off' & -> & H)|[e ->]] Hk; cbn; [by apply Hk|right; eauto]. Qed.

Lemma steps_well_behaved {A} (dec : bytes -> nat -> result error (A * nat)) buf off :
  well_behaved dec -> (off <= length buf)%nat -> steps buf off (dec buf off).
Proof.
  intros H Hoff. destruct (H buf off Hoff) as [(v & off' & -> & ?)|[e ->]]; [left|right]; eauto.
  exists v, off'. split; [done|lia].
Qed.

Lemma steps_ok {A} buf off (v : A) : (off <= length buf)%nat -> steps buf off (Ok (v, off)).
Proof. left. exists v, off. split; [done|lia]. Qed.

Lemma returns_ok {A} (a : A) : returns (E := error) (Ok a).
Proof. left. eauto. Qed.

Lemma returns_err {A} e : returns (A := A) (E := error) (Err e).
Proof. right. eauto. Qed.

Lemma steps_err {A} buf off e : steps (A := A) buf off (Err e).
Proof. right. eauto. Qed.

Lemma slice_from_in {E} (buf : bytes) off : (off <= length buf)%nat -> slice_from (E := E) buf off = Ok (drop off buf).
Proof. intros H. unfold slice_from. by rewrite (proj2 (Nat.ltb_ge _ _)). Qed.

#[local] Hint Resolve steps_map_err steps_well_behaved steps_ok returns_ok returns_err steps_err : go.

Lemma decode_props_steps pk buf off : (off <= length buf)%nat -> steps buf off (decode_props pk buf off).
Proof.
  intros H. unfold decode_props. rewrite slice_from_in by done. mred.
  destruct (Properties_Decode_returns (pk_Properties pk) (pk_Type pk) (drop off buf))
    as [(p & m & -> & Hm)|[e ->]]; cbn; [|auto with go].
  rewrite length_drop in Hm. left. do 2 eexists. split; [done|lia].
Qed.

Lemma decode_props_v5_steps pk buf off : (off <= length buf)%nat -> steps buf off (decode_props_v5 pk buf off).
Proof. intros H. unfold decode_props_v5. destruct (v5 pk); [by apply decode_props_steps|auto with go]. Qed.

#[local] Hint Resolve decode_props_steps decode_props_v5_steps : go.

(** Runs a decoder on [buf] step by step. *)
Ltac walk buf :=
  unfold wrap, as_code;
  repeat first
  [ lia
  | simple apply steps_map_err
  | simple apply steps_ok
  | simple apply steps_err
  | simple apply returns_ok
  | simple apply returns_err
  | simple apply steps_well_behaved; [solve [auto with go]|]
  | simple apply decode_props_steps
  | simple apply decode_props_v5_steps
  | eapply (steps_bind buf); [solve [walk buf]|intros ? ? ?; cbn beta iota]
  | eapply (returns_bind buf); [solve [walk buf]|intros ? ? ?; cbn beta iota]
  | progress (rewrite slice_from_in by lia; mred)
  | match goal with |- context [if ?b then _ else _] => destruct b end ].

Lemma PublishDecode_returns pk buf : returns (PublishDecode pk buf).
Proof. unfold PublishDecode. walk buf. Qed.

Lemma ConnackDecode_returns pk buf : returns (ConnackDecode pk buf).
Proof. unfold ConnackDecode. walk buf. Qed.

Lemma DisconnectDecode_returns pk buf : returns (DisconnectDecode pk buf).
Proof. unfold DisconnectDecode. walk buf. Qed.

Lemma AckDecode_returns pk buf : returns (decodePubAckRelRecComp pk buf).
Proof. unfold decodePubAckRelRecComp. walk buf. Qed.

Lemma SubackDecode_returns pk buf : returns (SubackDecode pk buf).
Proof. unfold SubackDecode. walk buf. Qed.

Lemma UnsubackDecode_returns pk buf : returns (UnsubackDecode pk buf).
Proof. unfold UnsubackDecode. walk buf. Qed.

Lemma AuthDecode_returns pk buf : returns (AuthDecode pk buf).
Proof. unfold AuthDecode. walk buf. Qed.

Lemma decode_will_steps pk buf off : (off <= length buf)%nat -> steps buf off (decode_will pk buf off).
Proof.
  intros H. unfold decode_will. destruct (cp_WillFlag _); [|by apply steps_ok].
  eapply (steps_bind buf); [|intros r off' ?; cbn beta iota; walk buf].
  destruct (v5 pk); [|by apply steps_ok].
  rewrite slice_from_in by done. mred.
  destruct (Properties_Decode_returns (cp_WillProperties (pk_Connect pk)) WillProperties (drop off buf))
    as [(p & m & -> & Hm)|[e ->]]; cbn; [|apply steps_err].
  rewrite length_drop in Hm. left. do 2 eexists. split; [done|lia].
Qed.

Lemma decode_username_steps pk buf off : (off <= length buf)%nat -> steps buf off (decode_username pk buf off).
Proof. intros H. unfold decode_username. walk buf. Qed.

Lemma ConnectDecode_returns pk buf : returns (ConnectDecode pk buf).
Proof.
  unfold ConnectDecode. walk buf.
  eapply (returns_bind buf); [apply decode_will_steps; lia|intros ? ? ?; cbn beta iota].
  eapply (returns_bind buf); [apply decode_username_steps; lia|intros ? ? ?; cbn beta iota].
  unfold decode_password. walk buf.
Qed.

Lemma decode_unsub_filters_returns fuel buf off :
  (off <= length buf)%nat -> (length buf - off <= fuel)%nat -> returns (decode_unsub_filters fuel buf off).
Proof.
  revert off. induction fuel as [|fuel IH]; intros off Hoff Hfuel; cbn [decode_unsub_filters];
    destruct (_ <=? _)%nat eqn:E; bool_to_prop; try apply returns_ok; [lia|].
  unfold wrap. destruct (decodeString_well_behaved buf off Hoff) as [(v & off' & -> & H)|[e ->]]; mred;
    [|apply returns_err].
  destruct (IH off') as [[subs ->]|[e ->]]; [lia..| |]; mred; [apply returns_ok|apply returns_err].
Qed.

Lemma UnsubscribeDecode_returns pk buf : returns (UnsubscribeDecode pk buf).
Proof.
  unfold UnsubscribeDecode. walk buf.
  destruct (decode_unsub_filters_returns (length buf) buf off'0) as [[subs ->]|[e ->]]; [lia..| |]; mred;
    [apply returns_ok|apply returns_err].
Qed.

(** The loop of [SubscribeDecode] returns, except that under version 5 it can
    run off the end of the buffer. *)
Definition returns_unless_v5 {A} (pk : Packet) (r : result error A) : Prop :=
  returns r \/ (r = Panic /\ v5 pk = true).

Lemma decode_filter_steps pk buf off :
  (off < length buf)%nat ->
  (exists s off', decode_filter pk buf off = Ok (s, off') /\ (off < off' <= length buf)%nat)
  \/ (exists e, decode_filter pk buf off = Err e) \/ (decode_filter pk buf off = Panic /\ v5 pk = true).
Proof.
  intros H. unfold decode_filter, as_code.
  destruct (decodeString_well_behaved buf off) as [(f & o1 & -> & H1)|[e ->]]; mred; [lia| |eauto].
  destruct (v5 pk) eqn:Hv.
  - unfold index_at. destruct (buf !! o1) eqn:E; mred; [|eauto]. apply lookup_lt_Some in E.
    destruct (2 <? _); [eauto|]. left. do 2 eexists. split; [done|lia].
  - destruct (decodeByte_well_behaved buf o1) as [(q & o2 & -> & H2)|[e ->]]; mred; [lia| |eauto].
    destruct (2 <? _); [eauto|]. left. do 2 eexists. split; [done|lia].
Qed.

Lemma decode_filters_returns fuel pk buf off :
  (off <= length buf)%nat -> (length buf - off <= fuel)%nat ->
  returns_unless_v5 pk (decode_filters fuel pk buf off).
Proof.
  unfold returns_unless_v5. revert off.
  induction fuel as [|fuel IH]; intros off Hoff Hfuel; cbn [decode_filters];
    destruct (_ <=? _)%nat eqn:E; bool_to_prop; try (left; apply returns_ok); [lia|].
  destruct (decode_filter_steps pk buf off) as [(s & off' & -> & H)|[[e ->]|[-> Hv]]]; mred;
    [lia| |left; apply returns_err|by right].
  destruct (IH off') as [[[subs ->]|[e ->]]|[-> Hv]]; [lia..| | |]; mred;
    [left; apply returns_ok|left; apply returns_err|by right].
Qed.

Lemma decode_props_v5_version pk buf off pk' off' :
  decode_props_v5 pk buf off = Ok (pk', off') -> v5 pk' = v5 pk.
Proof.
  unfold decode_props_v5, decode_props, wrap. destruct (v5 pk) eqn:Hv.
  - destruct (slice_from _ _); mred; try done.
    destruct (Properties_Decode _ _ _) as [[p n]| | |]; mred; try done.
    by intros [= <- _]%(inj Ok).
  - by intros [= <- _]%(inj Ok).
Qed.

Lemma SubscribeDecode_returns pk buf : returns_unless_v5 pk (SubscribeDecode pk buf).
Proof.
  unfold SubscribeDecode, as_code.
  destruct (decodeUint16_well_behaved buf 0%nat) as [(id & off & -> & H)|[e ->]]; mred;
    [lia| |left; apply returns_err].
  destruct (decode_props_v5_steps (pk <| pk_PacketID := id |>) buf off) as [(pk1 & o1 & E & H1)|[e ->]]; mred;
    [lia| |left; apply returns_err].
  rewrite E. mred. apply decode_props_v5_version in E. change (v5 pk1 = v5 pk) in E.
  unfold returns_unless_v5. rewrite <- E.
  destruct (decode_filters_returns (length buf) pk1 buf o1) as [[[subs ->]|[e ->]]|[-> Hv']]; [lia..| | |];
    mred; [left; apply returns_ok|left; apply returns_err|by right].
Qed.

#[local] Hint Resolve PublishDecode_returns ConnackDecode_returns DisconnectDecode_returns
  AckDecode_returns SubackDecode_returns UnsubackDecode_returns AuthDecode_returns
  ConnectDecode_returns UnsubscribeDecode_returns returns_ok returns_err : go.

Lemma decode_packet_returns pk px :
  returns (decode_packet pk px) \/
  (decode_packet pk px = Panic /\ pk_Type pk = Subscribe /\ v5 pk = true).
Proof.
  unfold decode_packet.
  destruct (pk_Type pk =? Subscribe) eqn:Ht; bool_to_prop.
  - rewrite Ht. cbn. destruct (SubscribeDecode_returns pk px) as [|[? ?]]; auto.
  - left. repeat (match goal with |- context [if ?b then _ else _] => destruct b end; auto with go).
Qed.

Lemma FixedHeader_Decode_type fh hb :
  (exists fh', FixedHeader_Decode fh hb = Ok fh' /\ fh_Type fh' = Z.shiftr hb 4)
  \/ (exists e, FixedHeader_Decode fh hb = Err e).
Proof. unfold FixedHeader_Decode. cbn [fh_Type]. split_ifs; cbn; split_ifs; eauto. Qed.

Lemma DecodeLength_loop_suffix b m v bu n bu' rest :
  DecodeLength_loop b m v bu = Ok (n, bu', rest) -> exists used, b = used ++ rest /\ (0 < length used)%nat.
Proof.
  revert m v bu. induction b as [|x b IH]; intros m v bu; cbn [DecodeLength_loop]; [done|].
  destruct (_ <? _); [done|]. destruct (_ =? _).
  - intros [= _ _ <-]%(inj Ok). exists [x]. split; [done|cbn; lia].
  - intros (used & -> & ?)%IH. exists (x :: used). split; [done|cbn; lia].
Qed.

(** C16: reading a packet from any bytes, at any protocol version and size
    limit, always terminates; it returns a packet and the bytes after it, or
    an error, and the one exception is a run-time panic that only a subscribe
    packet under protocol version 5 can cause. *)
Theorem read_packet_safe maxsize version stream :
  match read_packet maxsize version stream with
  | Ok (pk, rest) => exists used, stream = used ++ rest /\ (2 <= length used)%nat
  | Err _ => True
  | Panic => version = 5 /\ exists b s, stream = b :: s /\ Z.shiftr b 4 = Subscribe
  | Diverge => False
  end.
Proof.
  unfold read_packet, read_fixed_header. destruct stream as [|b s]; [done|].
  destruct (FixedHeader_Decode_type FixedHeader0 b) as [(fh & -> & Ht)|[e ->]]; mred; [|done].
  destruct (DecodeLength_returns s) as [[[[n bu] s2] E]|[e E]]; rewrite E; mred; [|done].
  apply DecodeLength_loop_length in E as E'; [|done].
  destruct (_ && _); mred; [done|]. unfold read_body, read_full. cbn [fh_Remaining].
  destruct (_ <? _); mred; [done|].
  match goal with |- context [decode_packet ?p ?x] =>
    destruct (decode_packet_returns p x) as [[[pk ->]|[e ->]]|(-> & Hty & Hv)] end; mred; try done.
  - apply DecodeLength_loop_suffix in E as (used & -> & Hu).
    exists (b :: used ++ take (Z.to_nat n) s2). cbn [app length]. rewrite <- app_assoc, take_drop.
    split; [done|]. rewrite length_app. lia.
  - split; [|exists b, s; split; [done|by rewrite <- Ht]]. by apply Z.eqb_eq in Hv.
Qed.

(** The body of a version 5 subscribe packet cut before its last option byte. *)
Definition truncated_subscribe (pk : Packet) (n : nat) (last : gostr) : bytes :=
  encodeUint16 (pk_PacketID pk) ++ encode_props pk n ++
  concat (map (encode_filter true) (pk_Filters pk)) ++ encodeString last.

(** C40: [SubscribeDecode] indexes the option byte of a filter without a bounds
    check: for every well-formed list of filters, a version 5 subscribe packet
    that ends right after one more topic filter makes the broker panic. *)
Theorem SubscribeDecode_truncated_panics pk n last :
  Packet_ok pk -> v5 pk = true -> str_ok last ->
  SubscribeDecode (fresh pk (truncated_subscribe pk n last)) (truncated_subscribe pk n last) = Panic.
Proof.
  intros Hok Hv Hlast. pose proof (cursor_start (truncated_subscribe pk n last)) as Hc.
  unfold truncated_subscribe at 2 in Hc. unfold SubscribeDecode, as_code.
  set (nb := truncated_subscribe pk n last) in *. clearbody nb.
  read_next (decodeUint16_encode _ (ok_PacketID _ Hok)).
  change (encode_props pk n) with (block true (encode_props pk n)) in Hc. rewrite <- Hv in Hc.
  read_props Hok.
  edestruct (decode_filters_encode) as (fuel' & off' & Hf & Hc' & ->);
    [|exact (ok_Filters _ Hok)| |exact Hc|]; [done|lia|].
  rewrite <- (app_nil_r (encodeString last)) in Hc'. apply cursor_length in Hc' as L.
  rewrite length_app in L. cbn in L. destruct fuel' as [|fuel']; [lia|]. cbn [decode_filters].
  rewrite (proj2 (Nat.leb_gt _ _)) by lia. unfold decode_filter, as_code. clear Hc. rename Hc' into Hc.
  read_next (decodeString_str_ok _ Hlast). change (v5 _) with (v5 pk). rewrite Hv.
  apply cursor_length in Hc. unfold index_at.
  rewrite lookup_ge_None_2 by (cbn [length] in *; lia). done.
Qed.

Definition Subscribe_sample : Packet :=
  Packet0 <| pk_ProtocolVersion := 5 |> <| pk_FixedHeader := mkFixedHeader 0 Subscribe 1 false false |>
    <| pk_PacketID := 15 |> <| pk_Filters := [Subscription0 <| sub_Filter := !"a/+" |> <| sub_Qos := 2 |>] |>.

Lemma Subscribe_sample_ok : Packet_ok Subscribe_sample.
Proof.
  constructor; try done.
  all: repeat constructor; try done; intros n; by vm_compute.
Qed.

Lemma SubscribeDecode_truncated_panics_witness :
  SubscribeDecode (fresh Subscribe_sample [0; 15; 0; 0; 3; 97; 47; 43; 2; 0; 1; 98])
    [0; 15; 0; 0; 3; 97; 47; 43; 2; 0; 1; 98] = Panic.
Proof.
  exact (SubscribeDecode_truncated_panics Subscribe_sample 0 !"b" Subscribe_sample_ok eq_refl
           (conj eq_refl eq_refl)).
Defined.
