(* ===== verification/Typing.v ===== *)
(** * Decoded packets are well-typed

    Whatever bytes arrive, a packet that the decoders return has fields within
    the widths of their Go types, strings of valid UTF-8, and the ranges the
    decoders check: what the handlers rely on. *)
From S2P Require Import Prelude Codes Codec FixedHeader Properties PropertiesFacts Packets Wire.

(** ** Postconditions of fallible code *)

Definition yields {E A} (P : A -> Prop) (r : result E A) : Prop := forall a, r = Ok a -> P a.

Section Yields.
Context {E : Type}.

Lemma yields_Ok {A} (P : A -> Prop) (a : A) : P a -> yields (E := E) P (Ok a).
Proof. by intros H b [= <-]. Qed.

Lemma yields_Err {A} (P : A -> Prop) (e : E) : yields P (Err e).
Proof. by intros a [=]. Qed.

Lemma yields_bind {A B} (P : A -> Prop) (Q : B -> Prop) (m : result E A) (k : A -> result E B) :
  yields P m -> (forall a, P a -> yields Q (k a)) -> yields Q (m ≫= k).
Proof. intros Hm Hk b. destruct m as [a|e| |]; cbn; try done. intros H. by apply (Hk a); [apply Hm|]. Qed.

Lemma yields_map_err {A} (P : A -> Prop) f (r : result E A) : yields P r -> yields P (map_err f r).
Proof. intros H a. destruct r; cbn; try done. apply H. Qed.

Lemma yields_mono {A} (P Q : A -> Prop) (r : result E A) : yields P r -> (forall a, P a -> Q a) -> yields Q r.
Proof. intros H HPQ a Ha. by apply HPQ, H. Qed.
End Yields.

(** ** Primitive values *)

Lemma land3_range x : 0 <= Z.land x 3 <= 3.
Proof.
  pose proof (Z.land_ones x 2 ltac:(lia)) as E. change (Z.ones 2) with 3 in E. rewrite E.
  pose proof (Z.mod_pos_bound x (2 ^ 2)). change (2 ^ 2) with 4 in *. lia.
Qed.

Lemma decodeUint16_typed b n : bytes_ok b -> yields (fun r => is_u16 r.1) (decodeUint16 b n).
Proof.
  intros Hb. unfold decodeUint16. destruct (_ <? _)%nat eqn:H; [apply yields_Err|]. bool_to_prop. apply yields_Ok.
  pose proof (be_uint_range (sub_slice b n (n + 2)) (bytes_ok_sub_slice _ _ _ Hb)) as R.
  unfold sub_slice in *. rewrite length_take, length_drop in R. cbn [fst].
  replace (Z.of_nat (((n + 2 - n) `min` (length b - n)))) with 2 in R by lia. exact R.
Qed.

Lemma decodeUint32_typed b n : bytes_ok b -> yields (fun r => is_u32 r.1) (decodeUint32 b n).
Proof.
  intros Hb. unfold decodeUint32. destruct (_ <? _)%nat eqn:H; [apply yields_Err|]. bool_to_prop. apply yields_Ok.
  pose proof (be_uint_range (sub_slice b n (n + 4)) (bytes_ok_sub_slice _ _ _ Hb)) as R.
  unfold sub_slice in *. rewrite length_take, length_drop in R. cbn [fst].
  replace (Z.of_nat (((n + 4 - n) `min` (length b - n)))) with 4 in R by lia. exact R.
Qed.

(** Strings and binary data are bytes behind a 16-bit length. *)
Definition bin_typed (b : bytes) : Prop := bin_ok b /\ bytes_ok b.
Definition str_typed (s : gostr) : Prop := str_ok s /\ bytes_ok s.

Lemma str_typed_nil : str_typed [].
Proof. split; [by split|constructor]. Qed.

Lemma bin_typed_nil : bin_typed [].
Proof. split; [done|constructor]. Qed.

Lemma decodeBytes_typed b n : bytes_ok b -> yields (fun r => bin_typed r.1) (decodeBytes b n).
Proof.
  intros Hb. unfold decodeBytes. eapply yields_bind; [by apply decodeUint16_typed|].
  intros [len next] Hl. cbn [fst] in Hl. destruct (_ <? _)%nat eqn:H; [apply yields_Err|]. apply yields_Ok.
  split; [|by apply bytes_ok_sub_slice].
  unfold bin_ok, sub_slice, is_u16 in *. cbn [fst]. rewrite length_take, length_drop. lia.
Qed.

Lemma decodeString_typed b n : bytes_ok b -> yields (fun r => str_typed r.1) (decodeString b n).
Proof.
  intros Hb. unfold decodeString. eapply yields_bind; [by apply decodeBytes_typed|].
  intros [s m] [Hs Hbs]. cbn [fst] in *. destruct (validUTF8 s) eqn:H; cbn [negb]; [|apply yields_Err].
  apply yields_Ok. split; [by split|done].
Qed.

Lemma decodeByte_typed b n : bytes_ok b -> yields (fun r => is_u8 r.1) (decodeByte b n).
Proof.
  intros Hb. unfold decodeByte. destruct (b !! n) as [x|] eqn:H; [|apply yields_Err]. apply yields_Ok.
  exact (proj1 (Forall_lookup _ _) Hb n x H).
Qed.

Lemma slice_typed {E} b n : bytes_ok b -> yields (E := E) bytes_ok (slice_from b n).
Proof. intros Hb. unfold slice_from. destruct (_ <? _)%nat; [done|]. apply yields_Ok. by apply bytes_ok_drop. Qed.

Create HintDb typed discriminated.
#[export] Hint Resolve decodeUint16_typed decodeUint32_typed decodeBytes_typed decodeString_typed
  decodeByte_typed slice_typed yields_Err yields_map_err : typed.

Ltac typed_step :=
  match goal with
  | |- yields _ (_ ≫= _) => eapply yields_bind; [solve [eauto 4 with typed]|intros ? ?]
  | |- yields _ (let '(_, _) := ?x in _) => destruct x; cbn [fst snd] in *
  | |- yields _ (if ?b then _ else _) => destruct b eqn:?
  | |- yields _ (Ok _) => apply yields_Ok
  | |- yields _ (Err _) => apply yields_Err
  | |- yields _ (let _ := _ in _) => cbv zeta
  end.
Ltac typed := repeat typed_step.

(** ** Properties *)

Lemma Properties0_wf : Properties_wf Properties0.
Proof. by constructor; try constructor. Qed.

Definition sub_id_ok (v : Z) : Prop := 0 <= v <= 268435455.
Definition user_ok (u : UserProperty) : Prop := str_typed (up_Key u) /\ str_typed (up_Val u).

(** Every field of the properties but the flags. *)
Record Properties_typed (p : Properties) : Prop := mkPropertiesTyped {
  ty_CorrelationData : bin_typed (pr_CorrelationData p);
  ty_SubscriptionIdentifier : Forall sub_id_ok (pr_SubscriptionIdentifier p);
  ty_AuthenticationData : bin_typed (pr_AuthenticationData p);
  ty_User : Forall user_ok (pr_User p);
  ty_ContentType : str_typed (pr_ContentType p);
  ty_ResponseTopic : str_typed (pr_ResponseTopic p);
  ty_AssignedClientID : str_typed (pr_AssignedClientID p);
  ty_AuthenticationMethod : str_typed (pr_AuthenticationMethod p);
  ty_ResponseInfo : str_typed (pr_ResponseInfo p);
  ty_ServerReference : str_typed (pr_ServerReference p);
  ty_ReasonString : str_typed (pr_ReasonString p);
  ty_MessageExpiryInterval : is_u32 (pr_MessageExpiryInterval p);
  ty_SessionExpiryInterval : is_u32 (pr_SessionExpiryInterval p);
  ty_WillDelayInterval : is_u32 (pr_WillDelayInterval p);
  ty_MaximumPacketSize : is_u32 (pr_MaximumPacketSize p);
  ty_ServerKeepAlive : is_u16 (pr_ServerKeepAlive p);
  ty_ReceiveMaximum : is_u16 (pr_ReceiveMaximum p);
  ty_TopicAliasMaximum : is_u16 (pr_TopicAliasMaximum p);
  ty_TopicAlias : is_u16 (pr_TopicAlias p);
  ty_PayloadFormat : is_u8 (pr_PayloadFormat p);
  ty_RequestProblemInfo : is_u8 (pr_RequestProblemInfo p);
  ty_RequestResponseInfo : is_u8 (pr_RequestResponseInfo p);
  ty_MaximumQos : is_u8 (pr_MaximumQos p);
  ty_RetainAvailable : is_u8 (pr_RetainAvailable p);
  ty_WildcardSubAvailable : is_u8 (pr_WildcardSubAvailable p);
  ty_SubIDAvailable : is_u8 (pr_SubIDAvailable p);
  ty_SharedSubAvailable : is_u8 (pr_SharedSubAvailable p);
}.

Lemma Properties0_typed : Properties_typed Properties0.
Proof.
  pose proof str_typed_nil. pose proof bin_typed_nil.
  constructor; try assumption; try (apply Forall_nil_2); unfold is_u8, is_u16, is_u32; cbn; lia.
Qed.

(** They are well-formed for the encoder. *)
Lemma Properties_typed_wf p : Properties_typed p -> Properties_wf p.
Proof.
  intros []. repeat match goal with H : str_typed _ |- _ => destruct H | H : bin_typed _ |- _ => destruct H end.
  constructor; try assumption.
  - eapply Forall_impl; [eassumption|]. intros v Hv. apply Hv.
  - eapply Forall_impl; [eassumption|]. intros u [[? _] [? _]]. by split.
Qed.

Lemma DecodeLength_range b : yields (fun r => sub_id_ok r.1.1) (DecodeLength b).
Proof.
  assert (L : forall c m v0 u, 0 <= v0 -> yields (fun r => sub_id_ok r.1.1) (DecodeLength_loop c m v0 u)).
  { induction c as [|x c IH]; intros m v0 u Hv0; cbn [DecodeLength_loop]; [apply yields_Err|].
    set (v1 := Z.lor v0 _). assert (Hv1 : 0 <= v1).
    { apply Z.lor_nonneg. split; [done|]. apply Z.mod_pos_bound. lia. }
    destruct (Z.ltb_spec 268435455 v1); [apply yields_Err|]. destruct (_ =? _); [by apply yields_Ok|by apply IH]. }
  by apply L.
Qed.

Lemma decodeSubID_typed b n : bytes_ok b -> yields (fun r => sub_id_ok r.1) (decodeSubID b n).
Proof.
  intros Hb. unfold decodeSubID. eapply yields_bind; [by apply slice_typed|]. intros c Hc.
  apply (yields_bind (fun r => sub_id_ok r.1.1)); [apply DecodeLength_range|intros [[v bu] r] H; by apply yields_Ok].
Qed.

Lemma decodeUser_typed b n :
  bytes_ok b -> yields (fun r => user_ok r.1) (decodeUser b n).
Proof. intros Hb. unfold decodeUser. typed. by split. Qed.

Lemma read_field_typed {A} (P : A -> Prop) dec (store : A -> Properties) b n :
  yields (fun r => P r.1) (dec b n) -> (forall v, P v -> Properties_typed (store v)) ->
  yields (fun r => Properties_typed r.1) (read_field dec store b n).
Proof.
  intros Hd Hs. eapply yields_bind; [exact Hd|]. intros [v m] Hv. apply yields_Ok. by apply Hs.
Qed.

#[export] Hint Resolve decodeSubID_typed decodeUser_typed : typed.

Lemma Properties_Decode_field_typed k b n p :
  bytes_ok b -> Properties_typed p -> yields (fun r => Properties_typed r.1) (Properties_Decode_field k b n p).
Proof.
  intros Hb []. unfold Properties_Decode_field.
  repeat match goal with
  | |- yields _ (if ?c then _ else _) => destruct c
  | |- yields _ (Ok _) => apply yields_Ok
  | |- yields _ (read_field _ _ _ _) => eapply read_field_typed; [solve [eauto with typed]|intros v Hv]
  end.
  all: constructor; try assumption.
  - apply Forall_app. by split; [|apply Forall_singleton].
  - apply Forall_app. by split; [|apply Forall_singleton].
Qed.

Lemma Properties_Decode_loop_typed fuel t b len n p :
  bytes_ok b -> Properties_typed p -> yields Properties_typed (Properties_Decode_loop fuel t b len n p).
Proof.
  intros Hb. revert n p. induction fuel as [|fuel IH]; intros n p Hp; cbn [Properties_Decode_loop].
  - destruct (_ <=? _)%nat; [by apply yields_Ok|done].
  - destruct (_ <=? _)%nat; [by apply yields_Ok|].
    eapply yields_bind; [by apply decodeByte_typed|]. intros [k m] _. destruct (negb _); [apply yields_Err|].
    eapply yields_bind; [by apply Properties_Decode_field_typed|]. intros [q m'] Hq. by apply IH.
Qed.

Lemma DecodeLength_rest b : bytes_ok b -> yields (fun r => bytes_ok r.2) (DecodeLength b).
Proof.
  unfold DecodeLength. generalize 0 at 2. generalize 0 1.
  induction b as [|x b IH]; intros m u v Hb; cbn [DecodeLength_loop]; [apply yields_Err|].
  apply Forall_cons in Hb as [_ Hb]. destruct (_ <? _); [apply yields_Err|].
  destruct (_ =? _); [by apply yields_Ok|by apply IH].
Qed.

Lemma Properties_Decode_typed p t b :
  bytes_ok b -> Properties_typed p -> yields (fun r => Properties_typed r.1) (Properties_Decode p t b).
Proof.
  intros Hb Hp. unfold Properties_Decode. eapply yields_bind; [by apply DecodeLength_rest|].
  intros [[n bu] bt] Hbt. destruct (n =? 0); [by apply yields_Ok|].
  eapply yields_bind; [by apply Properties_Decode_loop_typed|]. intros q Hq. by apply yields_Ok.
Qed.

(** ** Packets *)

(** Every field of the connect parameters but the flags. *)
Record ConnectParams_typed (c : ConnectParams) : Prop := mkConnectParamsTyped {
  ty_WillProperties : Properties_typed (cp_WillProperties c);
  ty_Password : bin_typed (cp_Password c);
  ty_Username : bin_typed (cp_Username c);
  ty_ProtocolName : bin_typed (cp_ProtocolName c);
  ty_WillPayload : bin_typed (cp_WillPayload c);
  ty_ClientIdentifier : str_typed (cp_ClientIdentifier c);
  ty_WillTopic : str_typed (cp_WillTopic c);
  ty_Keepalive : is_u16 (cp_Keepalive c);
  ty_WillQos : 0 <= cp_WillQos c <= 3;
}.

(** A filter of a subscribe or unsubscribe packet; the fields that the wire does
    not carry are empty. *)
Definition filter_typed (s : Subscription) : Prop :=
  str_typed (sub_Filter s) /\ 0 <= sub_Qos s <= 2 /\ 0 <= sub_RetainHandling s <= 3 /\ sub_id_ok (sub_Identifier s) /\
  sub_ShareName s = [] /\ sub_Identifiers s = None.

Definition FixedHeader_typed (fh : FixedHeader) : Prop :=
  0 <= fh_Remaining fh <= 268435455 /\ 0 <= fh_Type fh < 16 /\ 0 <= fh_Qos fh <= 2.

(** Every field of a packet but the flags. *)
Record Packet_typed (pk : Packet) : Prop := mkPacketTyped {
  ty_Connect : ConnectParams_typed (pk_Connect pk);
  ty_Properties : Properties_typed (pk_Properties pk);
  ty_Payload : bytes_ok (pk_Payload pk);
  ty_ReasonCodes : bytes_ok (pk_ReasonCodes pk);
  ty_Filters : Forall filter_typed (pk_Filters pk);
  ty_TopicName : str_typed (pk_TopicName pk);
  ty_Origin : bytes_ok (pk_Origin pk);
  ty_FixedHeader : FixedHeader_typed (pk_FixedHeader pk);
  ty_Created : is_i64 (pk_Created pk);
  ty_Expiry : is_i64 (pk_Expiry pk);
  ty_Mods : is_u32 (mod_MaxSize (pk_Mods pk));
  ty_PacketID : is_u16 (pk_PacketID pk);
  ty_ProtocolVersion : is_u8 (pk_ProtocolVersion pk);
  ty_ReasonCode : is_u8 (pk_ReasonCode pk);
  ty_ReservedBit : is_u8 (pk_ReservedBit pk);
}.

(** Closes [Packet_typed] of a packet with some fields set from typed values. *)
Ltac packet_typed :=
  repeat match goal with
  | H : Packet_typed _ |- _ => destruct H
  | H : ConnectParams_typed _ |- _ => destruct H
  end;
  constructor; try assumption; constructor; assumption.

Lemma Packet0_typed v fh :
  is_u8 v -> FixedHeader_typed fh -> Packet_typed (Packet0 <| pk_ProtocolVersion := v |> <| pk_FixedHeader := fh |>).
Proof.
  intros Hv Hfh. pose proof Properties0_typed. pose proof str_typed_nil. pose proof bin_typed_nil.
  constructor; try done; by constructor.
Qed.

Lemma decode_props_typed pk b n :
  bytes_ok b -> Packet_typed pk -> yields (fun r => Packet_typed r.1) (decode_props pk b n).
Proof.
  intros Hb Hpk. unfold decode_props. eapply yields_bind; [by apply slice_typed|]. intros c Hc.
  eapply yields_bind; [apply yields_map_err, Properties_Decode_typed; [done|apply Hpk]|].
  intros [p m] Hp. apply yields_Ok. cbn [fst] in *. packet_typed.
Qed.

Lemma decode_props_v5_typed pk b n :
  bytes_ok b -> Packet_typed pk -> yields (fun r => Packet_typed r.1) (decode_props_v5 pk b n).
Proof. intros Hb Hpk. unfold decode_props_v5. destruct (v5 pk); [by apply decode_props_typed|by apply yields_Ok]. Qed.

#[export] Hint Resolve decode_props_typed decode_props_v5_typed : typed.
#[export] Hint Extern 2 (Packet_typed _) => packet_typed : typed.
#[export] Hint Extern 2 (yields _ (as_code _ _)) => apply yields_map_err : typed.
#[export] Hint Extern 2 (yields _ (wrap _ _)) => apply yields_map_err : typed.

Section Decoders.
Context (b : bytes) (Hb : bytes_ok b).

Lemma ConnackDecode_typed pk : Packet_typed pk -> yields Packet_typed (ConnackDecode pk b).
Proof.
  intros Hpk. unfold ConnackDecode.
  eapply (yields_bind (fun _ => True)); [done|]. intros [v n] _. typed. done.
Qed.

Lemma DisconnectDecode_typed pk : Packet_typed pk -> yields Packet_typed (DisconnectDecode pk b).
Proof. intros Hpk. unfold DisconnectDecode. typed; eauto with typed. Qed.

Lemma PublishDecode_typed pk : Packet_typed pk -> yields Packet_typed (PublishDecode pk b).
Proof.
  intros Hpk. unfold PublishDecode. typed_step. typed_step. cbv zeta.
  apply (yields_bind (fun r => Packet_typed r.1)).
  - typed; eauto with typed.
  - intros [pk1 n1] H1. cbn [fst] in H1. typed. packet_typed.
Qed.

Lemma AckDecode_typed pk : Packet_typed pk -> yields Packet_typed (decodePubAckRelRecComp pk b).
Proof. intros Hpk. unfold decodePubAckRelRecComp. typed; eauto with typed. Qed.

Lemma SubackDecode_typed pk : Packet_typed pk -> yields Packet_typed (SubackDecode pk b).
Proof. intros Hpk. unfold SubackDecode. typed. packet_typed. Qed.

Lemma UnsubackDecode_typed pk : Packet_typed pk -> yields Packet_typed (UnsubackDecode pk b).
Proof. intros Hpk. unfold UnsubackDecode. typed; packet_typed. Qed.

Lemma AuthDecode_typed pk : Packet_typed pk -> yields Packet_typed (AuthDecode pk b).
Proof. intros Hpk. unfold AuthDecode. typed; done. Qed.

(** Filters *)

Lemma Subscription0_typed f : str_typed f -> filter_typed (Subscription0 <| sub_Filter := f |>).
Proof. intros Hf. by split_and!. Qed.

Lemma decode_filter_typed pk n : Packet_typed pk -> yields (fun r => filter_typed r.1) (decode_filter pk b n).
Proof.
  intros Hpk. unfold decode_filter. eapply yields_bind; [eauto with typed|]. intros [g n1] Hf. cbn [fst] in Hf. cbv zeta.
  apply (yields_bind (fun r => sub_Filter r.1 = g /\ 0 <= sub_Qos r.1 /\ 0 <= sub_RetainHandling r.1 <= 3 /\
                               sub_Identifier r.1 = 0 /\ sub_ShareName r.1 = [] /\ sub_Identifiers r.1 = None)).
  - destruct (v5 pk).
    + apply (yields_bind (fun _ => True)); [done|]. intros x _. apply yields_Ok.
      change (g = g /\ 0 <= Z.land x 3 /\ 0 <= Z.land 3 (Z.shiftr x 4) <= 3 /\ 0 = 0 /\ @nil gostr = [] /\ @None (gmap gostr Z) = None).
      rewrite (Z.land_comm 3). pose proof (land3_range x). pose proof (land3_range (Z.shiftr x 4)).
      split_and!; (done || lia).
    + typed. cbn [fst snd]. split; [done|]. unfold is_u8 in *. cbn. split_and!; (done || lia).
  - intros [sub m] (Es & Hq & Hr & Ei & Esh & Eids). cbn [fst] in *. cbv zeta.
    destruct (2 <? _) eqn:H2; [apply yields_Err|]. apply yields_Ok. cbn [fst] in *.
    assert (Hid : Forall sub_id_ok (pr_SubscriptionIdentifier (pk_Properties pk))) by apply Hpk.
    destruct (pr_SubscriptionIdentifier (pk_Properties pk)) as [|id ids].
    + unfold filter_typed, sub_id_ok. rewrite Es, Ei. bool_to_prop. split_and!; try done; lia.
    + apply Forall_cons in Hid as [Hid _]. change ((2 <? sub_Qos sub) = false) in H2. bool_to_prop.
      rewrite <- Es in Hf. exact (conj Hf (conj (conj Hq H2) (conj Hr (conj Hid (conj Esh Eids))))).
Qed.

Lemma decode_filters_typed fuel pk n : Packet_typed pk -> yields (Forall filter_typed) (decode_filters fuel pk b n).
Proof.
  intros Hpk. revert n. induction fuel as [|fuel IH]; intros n; cbn [decode_filters].
  - destruct (_ <=? _)%nat; [by apply yields_Ok|done].
  - destruct (_ <=? _)%nat; [by apply yields_Ok|].
    eapply yields_bind; [by apply decode_filter_typed|]. intros [s m] Hs. cbn [fst] in Hs.
    eapply yields_bind; [apply IH|]. intros subs Hsubs. apply yields_Ok. by constructor.
Qed.

Lemma decode_unsub_filters_typed fuel n : yields (Forall filter_typed) (decode_unsub_filters fuel b n).
Proof.
  revert n. induction fuel as [|fuel IH]; intros n; cbn [decode_unsub_filters].
  - destruct (_ <=? _)%nat; [by apply yields_Ok|done].
  - destruct (_ <=? _)%nat; [by apply yields_Ok|]. typed_step. typed_step.
    eapply yields_bind; [apply IH|]. intros subs Hsubs. apply yields_Ok. constructor; [|done].
    by apply Subscription0_typed.
Qed.

Lemma SubscribeDecode_typed pk : Packet_typed pk -> yields Packet_typed (SubscribeDecode pk b).
Proof.
  intros Hpk. unfold SubscribeDecode. typed. eapply yields_bind; [by apply decode_filters_typed|].
  intros fs Hfs. apply yields_Ok. packet_typed.
Qed.

Lemma UnsubscribeDecode_typed pk : Packet_typed pk -> yields Packet_typed (UnsubscribeDecode pk b).
Proof.
  intros Hpk. unfold UnsubscribeDecode. typed. eapply yields_bind; [by apply decode_unsub_filters_typed|].
  intros fs Hfs. apply yields_Ok. packet_typed.
Qed.

(** Connect *)

Lemma decode_connect_flags_typed pk flags : Packet_typed pk -> Packet_typed (decode_connect_flags pk flags).
Proof.
  intros [Hc]. constructor; try assumption.
  - destruct Hc. constructor; try assumption.
    change (0 <= Z.land 3 (Z.shiftr flags 3) <= 3). rewrite Z.land_comm. apply land3_range.
  - change (is_u8 (Z.land 1 flags)). rewrite Z.land_comm. change 1 with (Z.ones 1). rewrite Z.land_ones by lia.
    pose proof (Z.mod_pos_bound flags (2 ^ 1) ltac:(lia)). unfold is_u8. change (2 ^ 1) with 2 in *. lia.
Qed.

Lemma decode_will_typed pk n : Packet_typed pk -> yields (fun r => Packet_typed r.1) (decode_will pk b n).
Proof.
  intros Hpk. unfold decode_will. destruct (cp_WillFlag _); [|by apply yields_Ok].
  apply (yields_bind (fun r => Packet_typed r.1)).
  - destruct (v5 pk); [|by apply yields_Ok]. eapply yields_bind; [by apply slice_typed|]. intros c Hc.
    eapply yields_bind; [apply yields_map_err, Properties_Decode_typed; [done|apply Hpk]|].
    intros [p m] Hp. apply yields_Ok. cbn [fst] in *. packet_typed.
  - intros [pk1 n1] H1. cbn [fst] in H1. typed. packet_typed.
Qed.

Lemma decode_username_typed pk n : Packet_typed pk -> yields (fun r => Packet_typed r.1) (decode_username pk b n).
Proof. intros Hpk. unfold decode_username. typed; [packet_typed|done]. Qed.

Lemma decode_password_typed pk n : Packet_typed pk -> yields Packet_typed (decode_password pk b n).
Proof. intros Hpk. unfold decode_password. typed; [packet_typed|done]. Qed.

Lemma ConnectDecode_typed pk : Packet_typed pk -> yields Packet_typed (ConnectDecode pk b).
Proof.
  intros Hpk. unfold ConnectDecode. do 6 typed_step. cbv zeta.
  typed_step. typed_step. cbv zeta.
  eapply yields_bind; [apply decode_props_v5_typed; [done|]|].
  { match goal with |- context [decode_connect_flags ?p ?f] =>
      assert (Packet_typed (decode_connect_flags p f)) by (apply decode_connect_flags_typed; packet_typed);
      generalize dependent (decode_connect_flags p f) end.
    intros; packet_typed. }
  intros [pk1 off1] Hpk1. cbn [fst] in Hpk1. typed_step. typed_step. cbv zeta.
  eapply yields_bind; [apply decode_will_typed; packet_typed|]. intros [pk2 off2] Hpk2. cbn [fst] in Hpk2.
  eapply yields_bind; [by apply decode_username_typed|]. intros [pk3 off3] Hpk3. by apply decode_password_typed.
Qed.

Lemma decode_packet_typed pk : Packet_typed pk -> yields Packet_typed (decode_packet pk b).
Proof.
  intros Hpk. unfold decode_packet. cbv zeta.
  repeat match goal with |- yields _ (if ?c then _ else _) => destruct c end.
  all: eauto using yields_Ok, yields_Err, ConnectDecode_typed, DisconnectDecode_typed, ConnackDecode_typed,
    PublishDecode_typed, AckDecode_typed, SubscribeDecode_typed, SubackDecode_typed, UnsubscribeDecode_typed,
    UnsubackDecode_typed, AuthDecode_typed.
  all: by apply AckDecode_typed.
Qed.
End Decoders.

(** The fixed header. *)
Lemma read_fixed_header_typed m s :
  bytes_ok s -> yields (fun r => bytes_ok r.2 /\ FixedHeader_typed r.1.1) (read_fixed_header m s).
Proof.
  intros Hs. unfold read_fixed_header. destruct s as [|x s]; [apply yields_Err|].
  apply Forall_cons in Hs as [Hx Hs].
  apply (yields_bind (fun fh => 0 <= fh_Type fh < 16 /\ 0 <= fh_Qos fh <= 2)).
  - intros fh Hfh. pose proof (FixedHeader_Decode_table x Hx) as T. rewrite Hfh in T. destruct T as [T ->].
    change (0 <= x / 16 < 16 /\ 0 <= x mod 16 / 2 mod 4 <= 2). pose proof (Z.mod_pos_bound (x mod 16 / 2) 4).
    assert (x mod 16 / 2 mod 4 <> 3).
    { intros E3. unfold flags_allowed in T. destruct (_ =? Publish) in T; [by rewrite E3 in T|].
      destruct (bool_decide _) in T; apply Z.eqb_eq in T; by rewrite T in E3. }
    unfold is_u8 in Hx. split; [|lia]. Z.to_euclidean_division_equations. lia.
  - intros fh [Ht Hq]. apply (yields_bind (fun r => sub_id_ok r.1.1 /\ bytes_ok r.2)).
    { intros r Hr. split; [by apply (DecodeLength_range s)|by apply (DecodeLength_rest s Hs)]. }
    intros [[n bu] r] [Hn Hr]. destruct (_ && _); [apply yields_Err|]. apply yields_Ok. by split.
Qed.

Lemma header_read_typed m s fh n rest :
  bytes_ok s -> read_fixed_header m s = Ok (fh, n, rest) -> FixedHeader_typed fh.
Proof. intros Hs E. exact (proj2 (read_fixed_header_typed m s Hs _ E)). Qed.

(** C17: Every packet read from a stream of bytes is well-typed: every field of
    it, of its fixed header, properties, connect parameters and filters is in
    the range of its Go type, and in the narrower one that the decoders check.
    Packet ids, keepalives and the numeric properties have their 8, 16 or 32
    bits; strings and binary data are bytes of at most 65535, strings valid
    UTF-8 without a zero byte; the packet type has 4 bits, the remaining length
    and the subscription identifiers fit the variable byte integer; qos and
    retain handling are at most 2 and 3. The rest of the stream is again bytes. *)
Theorem read_packet_typed maxsize version stream :
  bytes_ok stream -> is_u8 version ->
  match read_packet maxsize version stream with
  | Ok (pk, rest) => Packet_typed pk /\ bytes_ok rest
  | _ => True
  end.
Proof.
  intros Hs Hv.
  assert (H : yields (fun r => Packet_typed r.1 /\ bytes_ok r.2) (read_packet maxsize version stream)).
  { unfold read_packet. eapply yields_bind; [by apply read_fixed_header_typed|]. intros [[fh n] s] [H Hfh].
    unfold read_body, read_full. cbn [snd] in H. destruct (_ <? _); [done|]. mred.
    eapply yields_bind; [apply decode_packet_typed; [by apply Forall_take|apply Packet0_typed; [done|exact Hfh]]|].
    intros pk Hpk. apply yields_Ok. split; [done|]. by apply bytes_ok_drop. }
  destruct (read_packet _ _ _) as [[pk rest]| | |] eqn:E; try done. exact (H _ eq_refl).
Qed.

(** A subscribe packet of version 5 with one filter. *)
Lemma read_packet_typed_witness :
  exists pk, read_packet 0 5 [130; 9; 0; 7; 0; 0; 3; 97; 47; 43; 1; 255] = Ok (pk, [255]) /\ Packet_typed pk.
Proof.
  eexists. split; [vm_compute; reflexivity|].
  refine (proj1 (read_packet_typed 0 5 [130; 9; 0; 7; 0; 0; 3; 97; 47; 43; 1; 255] _ _)).
  - repeat (constructor; [unfold is_u8; lia|]). constructor.
  - unfold is_u8; lia.
Defined.
