(* ===== verification/Vectors.v ===== *)
(** * Test vectors of the packets (packets/tpackets.go)

    The record of a test case with its numbering, and what the tests of the
    package (packets_test.go, tpackets_test.go) and of the client
    (clients_test.go) require of a case, as boolean functions of the modelled
    encoders, decoders and validators. *)
From S2P Require Import Prelude Codes Codec FixedHeader Properties Packets Wire.

(** [type TPacketCase struct]; a nil pointer or error is [None]. *)
Record TPacketCase := mkTPacketCase {
  tc_RawBytes : bytes;
  tc_ActualBytes : bytes;
  tc_Group : gostr;
  tc_Desc : gostr;
  tc_FailFirst : option Code;
  tc_Packet : option Packet;
  tc_ActualPacket : option Packet;
  tc_Expect : option Code;
  tc_Isolate : bool;
  tc_Primary : bool;
  tc_Case : Z;
}.

(** [TPacketCase{}] *)
Definition TPacketCase0 : TPacketCase :=
  mkTPacketCase [] [] [] [] None None None None false false 0.

Abbreviation TPacketCases := (list TPacketCase).

Fixpoint TPacketCases_Get (f : TPacketCases) (b : Z) : TPacketCase :=
  match f with
  | [] => TPacketCase0
  | v :: f => if tc_Case v =? b then v else TPacketCases_Get f b
  end.

(** ** The numbers of the cases *)

Definition TConnectMqtt31 : Z := 0.
Definition TConnectMqtt311 : Z := 1.
Definition TConnectMqtt5 : Z := 2.
Definition TConnectMqtt5LWT : Z := 3.
Definition TConnectClean : Z := 4.
Definition TConnectUserPass : Z := 5.
Definition TConnectUserPassLWT : Z := 6.
Definition TConnectMalProtocolName : Z := 7.
Definition TConnectMalProtocolVersion : Z := 8.
Definition TConnectMalFlags : Z := 9.
Definition TConnectMalKeepalive : Z := 10.
Definition TConnectMalClientID : Z := 11.
Definition TConnectMalWillTopic : Z := 12.
Definition TConnectMalWillFlag : Z := 13.
Definition TConnectMalUsername : Z := 14.
Definition TConnectMalPassword : Z := 15.
Definition TConnectMalFixedHeader : Z := 16.
Definition TConnectMalReservedBit : Z := 17.
Definition TConnectMalProperties : Z := 18.
Definition TConnectMalWillProperties : Z := 19.
Definition TConnectInvalidProtocolName : Z := 20.
Definition TConnectInvalidProtocolVersion : Z := 21.
Definition TConnectInvalidProtocolVersion2 : Z := 22.
Definition TConnectInvalidReservedBit : Z := 23.
Definition TConnectInvalidClientIDTooLong : Z := 24.
Definition TConnectInvalidFlagNoUsername : Z := 25.
Definition TConnectInvalidFlagNoPassword : Z := 26.
Definition TConnectInvalidUsernameNoFlag : Z := 27.
Definition TConnectInvalidPasswordNoFlag : Z := 28.
Definition TConnectInvalidUsernameTooLong : Z := 29.
Definition TConnectInvalidPasswordTooLong : Z := 30.
Definition TConnectInvalidWillFlagNoPayload : Z := 31.
Definition TConnectInvalidWillFlagQosOutOfRange : Z := 32.
Definition TConnectInvalidWillSurplusRetain : Z := 33.
Definition TConnectZeroByteUsername : Z := 34.
Definition TConnectSpecInvalidUTF8D800 : Z := 35.
Definition TConnectSpecInvalidUTF8DFFF : Z := 36.
Definition TConnectSpecInvalidUTF80000 : Z := 37.
Definition TConnectSpecInvalidUTF8NoSkip : Z := 38.
Definition TConnackAcceptedNoSession : Z := 39.
Definition TConnackAcceptedSessionExists : Z := 40.
Definition TConnackAcceptedMqtt5 : Z := 41.
Definition TConnackAcceptedAdjustedExpiryInterval : Z := 42.
Definition TConnackMinMqtt5 : Z := 43.
Definition TConnackMinCleanMqtt5 : Z := 44.
Definition TConnackServerKeepalive : Z := 45.
Definition TConnackInvalidMinMqtt5 : Z := 46.
Definition TConnackBadProtocolVersion : Z := 47.
Definition TConnackProtocolViolationNoSession : Z := 48.
Definition TConnackBadClientID : Z := 49.
Definition TConnackServerUnavailable : Z := 50.
Definition TConnackBadUsernamePassword : Z := 51.
Definition TConnackBadUsernamePasswordNoSession : Z := 52.
Definition TConnackMqtt5BadUsernamePasswordNoSession : Z := 53.
Definition TConnackNotAuthorised : Z := 54.
Definition TConnackMalSessionPresent : Z := 55.
Definition TConnackMalReturnCode : Z := 56.
Definition TConnackMalProperties : Z := 57.
Definition TConnackDropProperties : Z := 58.
Definition TConnackDropPropertiesPartial : Z := 59.
Definition TPublishNoPayload : Z := 60.
Definition TPublishBasic : Z := 61.
Definition TPublishBasicTopicAliasOnly : Z := 62.
Definition TPublishBasicMqtt5 : Z := 63.
Definition TPublishMqtt5 : Z := 64.
Definition TPublishQos1 : Z := 65.
Definition TPublishQos1Mqtt5 : Z := 66.
Definition TPublishQos1NoPayload : Z := 67.
Definition TPublishQos1Dup : Z := 68.
Definition TPublishQos2 : Z := 69.
Definition TPublishQos2Mqtt5 : Z := 70.
Definition TPublishQos2Upgraded : Z := 71.
Definition TPublishSubscriberIdentifier : Z := 72.
Definition TPublishRetain : Z := 73.
Definition TPublishRetainMqtt5 : Z := 74.
Definition TPublishDup : Z := 75.
Definition TPublishMalTopicName : Z := 76.
Definition TPublishMalPacketID : Z := 77.
Definition TPublishMalProperties : Z := 78.
Definition TPublishCopyBasic : Z := 79.
Definition TPublishSpecQos0NoPacketID : Z := 80.
Definition TPublishSpecQosMustPacketID : Z := 81.
Definition TPublishDropOversize : Z := 82.
Definition TPublishInvalidQos0NoPacketID : Z := 83.
Definition TPublishInvalidQosMustPacketID : Z := 84.
Definition TPublishInvalidSurplusSubID : Z := 85.
Definition TPublishInvalidSurplusWildcard : Z := 86.
Definition TPublishInvalidSurplusWildcard2 : Z := 87.
Definition TPublishInvalidNoTopic : Z := 88.
Definition TPublishInvalidTopicAlias : Z := 89.
Definition TPublishInvalidExcessTopicAlias : Z := 90.
Definition TPublishSpecDenySysTopic : Z := 91.
Definition TPuback : Z := 92.
Definition TPubackMqtt5 : Z := 93.
Definition TPubackMqtt5NotAuthorized : Z := 94.
Definition TPubackMalPacketID : Z := 95.
Definition TPubackMalProperties : Z := 96.
Definition TPubackUnexpectedError : Z := 97.
Definition TPubrec : Z := 98.
Definition TPubrecMqtt5 : Z := 99.
Definition TPubrecMqtt5IDInUse : Z := 100.
Definition TPubrecMqtt5NotAuthorized : Z := 101.
Definition TPubrecMalPacketID : Z := 102.
Definition TPubrecMalProperties : Z := 103.
Definition TPubrecMalReasonCode : Z := 104.
Definition TPubrecInvalidReason : Z := 105.
Definition TPubrel : Z := 106.
Definition TPubrelMqtt5 : Z := 107.
Definition TPubrelMqtt5AckNoPacket : Z := 108.
Definition TPubrelMalPacketID : Z := 109.
Definition TPubrelMalProperties : Z := 110.
Definition TPubrelInvalidReason : Z := 111.
Definition TPubcomp : Z := 112.
Definition TPubcompMqtt5 : Z := 113.
Definition TPubcompMqtt5AckNoPacket : Z := 114.
Definition TPubcompMalPacketID : Z := 115.
Definition TPubcompMalProperties : Z := 116.
Definition TPubcompInvalidReason : Z := 117.
Definition TSubscribe : Z := 118.
Definition TSubscribeMany : Z := 119.
Definition TSubscribeMqtt5 : Z := 120.
Definition TSubscribeRetainHandling1 : Z := 121.
Definition TSubscribeRetainHandling2 : Z := 122.
Definition TSubscribeRetainAsPublished : Z := 123.
Definition TSubscribeMalPacketID : Z := 124.
Definition TSubscribeMalTopic : Z := 125.
Definition TSubscribeMalQos : Z := 126.
Definition TSubscribeMalQosRange : Z := 127.
Definition TSubscribeMalProperties : Z := 128.
Definition TSubscribeInvalidQosMustPacketID : Z := 129.
Definition TSubscribeSpecQosMustPacketID : Z := 130.
Definition TSubscribeInvalidNoFilters : Z := 131.
Definition TSubscribeInvalidSharedNoLocal : Z := 132.
Definition TSubscribeInvalidFilter : Z := 133.
Definition TSubscribeInvalidIdentifierOversize : Z := 134.
Definition TSuback : Z := 135.
Definition TSubackMany : Z := 136.
Definition TSubackDeny : Z := 137.
Definition TSubackUnspecifiedError : Z := 138.
Definition TSubackUnspecifiedErrorMqtt5 : Z := 139.
Definition TSubackMqtt5 : Z := 140.
Definition TSubackPacketIDInUse : Z := 141.
Definition TSubackInvalidFilter : Z := 142.
Definition TSubackInvalidSharedNoLocal : Z := 143.
Definition TSubackMalPacketID : Z := 144.
Definition TSubackMalProperties : Z := 145.
Definition TUnsubscribe : Z := 146.
Definition TUnsubscribeMany : Z := 147.
Definition TUnsubscribeMqtt5 : Z := 148.
Definition TUnsubscribeMalPacketID : Z := 149.
Definition TUnsubscribeMalTopicName : Z := 150.
Definition TUnsubscribeMalProperties : Z := 151.
Definition TUnsubscribeInvalidQosMustPacketID : Z := 152.
Definition TUnsubscribeSpecQosMustPacketID : Z := 153.
Definition TUnsubscribeInvalidNoFilters : Z := 154.
Definition TUnsuback : Z := 155.
Definition TUnsubackMany : Z := 156.
Definition TUnsubackMqtt5 : Z := 157.
Definition TUnsubackPacketIDInUse : Z := 158.
Definition TUnsubackMalPacketID : Z := 159.
Definition TUnsubackMalProperties : Z := 160.
Definition TPingreq : Z := 161.
Definition TPingresp : Z := 162.
Definition TDisconnect : Z := 163.
Definition TDisconnectTakeover : Z := 164.
Definition TDisconnectMqtt5 : Z := 165.
Definition TDisconnectMqtt5DisconnectWithWillMessage : Z := 166.
Definition TDisconnectSecondConnect : Z := 167.
Definition TDisconnectReceiveMaximum : Z := 168.
Definition TDisconnectDropProperties : Z := 169.
Definition TDisconnectShuttingDown : Z := 170.
Definition TDisconnectMalProperties : Z := 171.
Definition TDisconnectMalReasonCode : Z := 172.
Definition TDisconnectZeroNonZeroExpiry : Z := 173.
Definition TAuth : Z := 174.
Definition TAuthMalReasonCode : Z := 175.
Definition TAuthMalProperties : Z := 176.
Definition TAuthInvalidReason : Z := 177.
Definition TAuthInvalidReason2 : Z := 178.

(** ** Deciding equality of packets *)

#[export] Instance UserProperty_eq_dec : EqDecision UserProperty.
Proof.
  intros a b. destruct (decide ((up_Key a, up_Val a) = (up_Key b, up_Val b))) as [H|H].
  - left. destruct a, b. cbn in H. congruence.
  - right. congruence.
Defined.

#[export] Instance Properties_eq_dec : EqDecision Properties.
Proof.
  intros a b.
  pose (t p := (pr_CorrelationData p, pr_SubscriptionIdentifier p, pr_AuthenticationData p, pr_User p,
    pr_ContentType p, pr_ResponseTopic p, pr_AssignedClientID p, pr_AuthenticationMethod p,
    pr_ResponseInfo p, pr_ServerReference p, pr_ReasonString p, pr_MessageExpiryInterval p,
    pr_SessionExpiryInterval p, pr_WillDelayInterval p, pr_MaximumPacketSize p, pr_ServerKeepAlive p,
    pr_ReceiveMaximum p, pr_TopicAliasMaximum p, pr_TopicAlias p, pr_PayloadFormat p,
    (pr_PayloadFormatFlag p, pr_SessionExpiryIntervalFlag p, pr_ServerKeepAliveFlag p,
     pr_RequestProblemInfo p, pr_RequestProblemInfoFlag p, pr_RequestResponseInfo p,
     pr_TopicAliasFlag p, pr_MaximumQos p, pr_MaximumQosFlag p, pr_RetainAvailable p,
     pr_RetainAvailableFlag p, pr_WildcardSubAvailable p, pr_WildcardSubAvailableFlag p,
     pr_SubIDAvailable p, pr_SubIDAvailableFlag p, pr_SharedSubAvailable p, pr_SharedSubAvailableFlag p))).
  destruct (decide (t a = t b)) as [H|H].
  - left. destruct a, b. subst t. cbn in H. simplify_eq. reflexivity.
  - right. intros ->. by apply H.
Defined.

#[export] Instance Mods_eq_dec : EqDecision Mods.
Proof.
  intros a b.
  destruct (decide ((mod_MaxSize a, mod_DisallowProblemInfo a, mod_AllowResponseInfo a)
                  = (mod_MaxSize b, mod_DisallowProblemInfo b, mod_AllowResponseInfo b))) as [H|H].
  - left. destruct a, b. cbn in H. congruence.
  - right. congruence.
Defined.

#[export] Instance ConnectParams_eq_dec : EqDecision ConnectParams.
Proof.
  intros a b.
  pose (t c := (cp_WillProperties c, cp_Password c, cp_Username c, cp_ProtocolName c, cp_WillPayload c,
    cp_ClientIdentifier c, cp_WillTopic c, cp_Keepalive c, cp_PasswordFlag c, cp_UsernameFlag c,
    cp_WillQos c, cp_WillFlag c, cp_WillRetain c, cp_Clean c)).
  destruct (decide (t a = t b)) as [H|H].
  - left. destruct a, b. subst t. cbn in H. simplify_eq. reflexivity.
  - right. intros ->. by apply H.
Defined.

#[export] Instance Subscription_eq_dec : EqDecision Subscription.
Proof.
  intros a b.
  pose (t s := (sub_ShareName s, sub_Filter s, sub_Identifier s, sub_Identifiers s, sub_RetainHandling s,
    sub_Qos s, sub_RetainAsPublished s, sub_NoLocal s, sub_FwdRetainedFlag s)).
  destruct (decide (t a = t b)) as [H|H].
  - left. destruct a, b. subst t. cbn in H. simplify_eq. reflexivity.
  - right. intros ->. by apply H.
Defined.

#[export] Instance Packet_eq_dec : EqDecision Packet.
Proof.
  intros a b.
  pose (t p := (pk_Connect p, pk_Properties p, pk_Payload p, pk_ReasonCodes p, pk_Filters p, pk_TopicName p,
    pk_Origin p, pk_FixedHeader p, pk_Created p, pk_Expiry p, pk_Mods p, pk_PacketID p,
    pk_ProtocolVersion p, pk_SessionPresent p, pk_ReasonCode p, pk_ReservedBit p, pk_Ignore p)).
  destruct (decide (t a = t b)) as [H|H].
  - left. destruct a, b. subst t. cbn in H. simplify_eq. reflexivity.
  - right. intros ->. by apply H.
Defined.

#[export] Instance TPacketCase_eq_dec : EqDecision TPacketCase.
Proof.
  intros a b.
  pose (t c := (tc_RawBytes c, tc_ActualBytes c, tc_Group c, tc_Desc c, tc_FailFirst c, tc_Packet c,
    tc_ActualPacket c, tc_Expect c, tc_Isolate c, tc_Primary c, tc_Case c)).
  destruct (decide (t a = t b)) as [H|H].
  - left. destruct a, b. subst t. cbn in H. simplify_eq. reflexivity.
  - right. intros ->. by apply H.
Defined.

(** ** What the tests require *)

(** [encodeTestOK], [decodeTestOK]: the cases the two tests run. *)
Definition encodeTestOK (wanted : TPacketCase) : bool :=
  nonempty (tc_RawBytes wanted) &&
  (str_eqb (tc_Group wanted) [] || str_eqb (tc_Group wanted) !"encode").

Definition decodeTestOK (wanted : TPacketCase) : bool :=
  str_eqb (tc_Group wanted) [] || str_eqb (tc_Group wanted) !"decode".

(** The body of [TestPacketEncode] for one case of packet type [pkt]. *)
Definition encode_conforms (pkt : Z) (wanted : TPacketCase) : bool :=
  negb (encodeTestOK wanted) ||
  match tc_Packet wanted with
  | None => false
  | Some pk =>
      let pk := pk <| pk_Mods ::= fun m => m <| mod_AllowResponseInfo := true |> |> in
      (pkt =? pk_Type pk) &&
      match encode_packet pk, tc_Expect wanted with
      | Err _, Some _ => true
      | Ok (encoded, _), None =>
          bool_decide (encoded = if nonempty (tc_ActualBytes wanted)
                                 then tc_ActualBytes wanted else tc_RawBytes wanted)
      | _, _ => false
      end
  end.

(** The fields [TestPacketDecode] compares. *)
Definition same_decoded (pkt : Z) (w pk : Packet) : bool :=
  let wc := pk_Connect w in
  let c := pk_Connect pk in
  bool_decide (pk_Filters w = pk_Filters pk) &&
  (fh_Type (pk_FixedHeader w) =? fh_Type (pk_FixedHeader pk)) &&
  eqb (fh_Dup (pk_FixedHeader w)) (fh_Dup (pk_FixedHeader pk)) &&
  (fh_Qos (pk_FixedHeader w) =? fh_Qos (pk_FixedHeader pk)) &&
  eqb (fh_Retain (pk_FixedHeader w)) (fh_Retain (pk_FixedHeader pk)) &&
  (negb (pkt =? Connect) || (pk_ProtocolVersion w =? pk_ProtocolVersion pk)) &&
  str_eqb (cp_ProtocolName wc) (cp_ProtocolName c) &&
  eqb (cp_Clean wc) (cp_Clean c) &&
  str_eqb (cp_ClientIdentifier wc) (cp_ClientIdentifier c) &&
  (cp_Keepalive wc =? cp_Keepalive c) &&
  eqb (cp_UsernameFlag wc) (cp_UsernameFlag c) &&
  str_eqb (cp_Username wc) (cp_Username c) &&
  eqb (cp_PasswordFlag wc) (cp_PasswordFlag c) &&
  str_eqb (cp_Password wc) (cp_Password c) &&
  eqb (cp_WillFlag wc) (cp_WillFlag c) &&
  str_eqb (cp_WillTopic wc) (cp_WillTopic c) &&
  str_eqb (cp_WillPayload wc) (cp_WillPayload c) &&
  (cp_WillQos wc =? cp_WillQos c) &&
  eqb (cp_WillRetain wc) (cp_WillRetain c) &&
  str_eqb (pk_ReasonCodes w) (pk_ReasonCodes pk) &&
  (pk_ReasonCode w =? pk_ReasonCode pk) &&
  eqb (pk_SessionPresent w) (pk_SessionPresent pk) &&
  (pk_PacketID w =? pk_PacketID pk) &&
  bool_decide (pk_Properties w = pk_Properties pk) &&
  bool_decide (cp_WillProperties wc = cp_WillProperties c).

(** The fixed header as [FixedHeader.Decode] leaves it, also where it returns an
    error, which [TestPacketDecode] ignores. *)
Definition FixedHeader_left (fh : FixedHeader) (hb : Z) : FixedHeader :=
  let fh := fh <| fh_Type := Z.shiftr hb 4 |> in
  if fh_Type fh =? Publish then
    if (0 <? Z.land (Z.shiftr hb 1) 1) && (0 <? Z.land (Z.shiftr hb 1) 2) then fh
    else fh <| fh_Dup := 0 <? bit hb 3 |>
            <| fh_Qos := Z.land (Z.shiftr hb 1) 3 |>
            <| fh_Retain := 0 <? Z.land hb 1 |>
  else if (fh_Type fh =? Pubrel) || (fh_Type fh =? Subscribe) || (fh_Type fh =? Unsubscribe) then
    if negb (bit hb 0 =? 0) || negb (bit hb 1 =? 1) || negb (bit hb 2 =? 0) || negb (bit hb 3 =? 0)
    then fh
    else fh <| fh_Qos := Z.land (Z.shiftr hb 1) 3 |>
  else fh.

(** The packet [TestPacketDecode] decodes into. *)
Definition decode_target (pkt : Z) (wanted : TPacketCase) : result error Packet :=
  b0 ← index_at (tc_RawBytes wanted) 0;
  let fh := FixedHeader_left (FixedHeader0 <| fh_Type := pkt |>) b0 in
  b1 ← index_at (tc_RawBytes wanted) 1;
  let pk := Packet0 <| pk_FixedHeader := fh <| fh_Remaining := b1 |> |>
                    <| pk_Mods ::= fun m => m <| mod_AllowResponseInfo := true |> |> in
  match tc_Packet wanted with
  | Some w => Ok (if pk_ProtocolVersion w =? 0 then pk
                  else pk <| pk_ProtocolVersion := pk_ProtocolVersion w |>)
  | None => Ok pk
  end.

(** The switch of [TestPacketDecode], on the type the case is listed under. *)
Definition decode_as (pkt : Z) (pk : Packet) (buf : bytes) : result error Packet :=
  if pkt =? Connect then ConnectDecode pk buf
  else if pkt =? Connack then ConnackDecode pk buf
  else if pkt =? Publish then PublishDecode pk buf
  else if pkt =? Puback then PubackDecode pk buf
  else if pkt =? Pubrec then PubrecDecode pk buf
  else if pkt =? Pubrel then PubrelDecode pk buf
  else if pkt =? Pubcomp then PubcompDecode pk buf
  else if pkt =? Subscribe then SubscribeDecode pk buf
  else if pkt =? Suback then SubackDecode pk buf
  else if pkt =? Unsubscribe then UnsubscribeDecode pk buf
  else if pkt =? Unsuback then UnsubackDecode pk buf
  else if pkt =? Pingreq then PingreqDecode pk buf
  else if pkt =? Pingresp then PingrespDecode pk buf
  else if pkt =? Disconnect then DisconnectDecode pk buf
  else if pkt =? Auth then AuthDecode pk buf
  else Ok pk.

(** The body of [TestPacketDecode] for one case. *)
Definition decode_conforms (pkt : Z) (wanted : TPacketCase) : bool :=
  negb (decodeTestOK wanted) ||
  match decode_target pkt wanted with
  | Ok pk =>
      match decode_as pkt pk (drop 2 (tc_RawBytes wanted)), tc_FailFirst wanted, tc_Packet wanted with
      | Err e, Some c, _ => error_is e c
      | Ok pk, None, Some w => same_decoded pkt w pk
      | _, _, _ => false
      end
  | _ => false
  end.

(** The validator of a packet type, where it has one. *)
Definition validate_packet (pkt : Z) (pk : Packet) : option Code :=
  if pkt =? Connect then Some (ConnectValidate pk)
  else if pkt =? Publish then Some (PublishValidate pk 1024)
  else if pkt =? Subscribe then Some (SubscribeValidate pk)
  else if pkt =? Unsubscribe then Some (UnsubscribeValidate pk)
  else if pkt =? Auth then Some (AuthValidate pk)
  else None.

(** The body of [TestValidate] for one case. *)
Definition validate_conforms (pkt : Z) (wanted : TPacketCase) : bool :=
  negb (str_eqb (tc_Group wanted) !"validate" || tc_Primary wanted) ||
  match tc_Expect wanted, tc_Packet wanted with
  | None, _ => true
  | Some c, Some pk => bool_decide (validate_packet pkt pk = Some c)
  | Some _, None => false
  end.

(** A case of packet type [pkt] passes the three tests. *)
Definition vector_passes (pkt : Z) (wanted : TPacketCase) : bool :=
  encode_conforms pkt wanted && decode_conforms pkt wanted && validate_conforms pkt wanted.

(** The body of [TestClientReadPacket]: the packet read from the bytes is the
    one expected, in every field, and nothing is left over. *)
Definition read_conforms (tt : TPacketCase) : bool :=
  match tc_Packet tt with
  | None => false
  | Some w =>
      let version := if pk_ProtocolVersion w =? 5 then 5 else 0 in
      match read_packet 0 version (tc_RawBytes tt) with
      | Ok (pk, []) => bool_decide (w = pk)
      | _ => false
      end
  end.
