(* ===== verification/ConnectVectors.v ===== *)
(** * Test vectors of connect and connack packets (packets/tpackets.go)

    One definition per case of [TPacketData], in its order; a field the source
    leaves out keeps its zero value. A line of the source is a segment of the
    bytes, a run of characters a string. *)
From S2P Require Import Prelude Codes Codec FixedHeader Properties Packets Vectors.

(** ** [Connect] *)

Definition case_TConnectMqtt31 : TPacketCase :=
  TPacketCase0
    <| tc_Case := TConnectMqtt31 |>
    <| tc_Desc := !"mqtt v3.1" |>
    <| tc_Primary := true |>
    <| tc_RawBytes := [Z.shiftl Connect 4; 17]
        ++ [0; 6]
        ++ !"MQIsdp"
        ++ [3]
        ++ [0]
        ++ [0; 30]
        ++ [0; 3]
        ++ !"zen" |>
    <| tc_Packet := Some (Packet0
        <| pk_FixedHeader := (FixedHeader0
            <| fh_Type := Connect |>
            <| fh_Remaining := 17 |>) |>
        <| pk_ProtocolVersion := 3 |>
        <| pk_Connect := (ConnectParams0
            <| cp_ProtocolName := !"MQIsdp" |>
            <| cp_Clean := false |>
            <| cp_Keepalive := 30 |>
            <| cp_ClientIdentifier := !"zen" |>) |>) |>.

Definition case_TConnectMqtt311 : TPacketCase :=
  TPacketCase0
    <| tc_Case := TConnectMqtt311 |>
    <| tc_Desc := !"mqtt v3.1.1" |>
    <| tc_Primary := true |>
    <| tc_RawBytes := [Z.shiftl Connect 4; 15]
        ++ [0; 4]
        ++ !"MQTT"
        ++ [4]
        ++ [0]
        ++ [0; 60]
        ++ [0; 3]
        ++ !"zen" |>
    <| tc_Packet := Some (Packet0
        <| pk_FixedHeader := (FixedHeader0
            <| fh_Type := Connect |>
            <| fh_Remaining := 15 |>) |>
        <| pk_ProtocolVersion := 4 |>
        <| pk_Connect := (ConnectParams0
            <| cp_ProtocolName := !"MQTT" |>
            <| cp_Clean := false |>
            <| cp_Keepalive := 60 |>
            <| cp_ClientIdentifier := !"zen" |>) |>) |>.

Definition case_TConnectMqtt5 : TPacketCase :=
  TPacketCase0
    <| tc_Case := TConnectMqtt5 |>
    <| tc_Desc := !"mqtt v5" |>
    <| tc_Primary := true |>
    <| tc_RawBytes := [Z.shiftl Connect 4; 87]
        ++ [0; 4]
        ++ !"MQTT"
        ++ [5]
        ++ [0]
        ++ [0; 30]
        ++ [71]
        ++ [17; 0; 0; 0; 120]
        ++ [21; 0; 5] ++ !"SHA-1"
        ++ [22; 0; 9] ++ !"auth-data"
        ++ [23; 1]
        ++ [25; 1]
        ++ [33; 1; 244]
        ++ [34; 3; 231]
        ++ [38]
        ++ [0; 5] ++ !"hello"
        ++ [0; 6; 228; 184; 150; 231; 149; 140]
        ++ [38]
        ++ [0; 4] ++ !"key2"
        ++ [0; 6] ++ !"value2"
        ++ [39; 0; 0; 125; 0]
        ++ [0; 3]
        ++ !"zen" |>
    <| tc_Packet := Some (Packet0
        <| pk_FixedHeader := (FixedHeader0
            <| fh_Type := Connect |>
            <| fh_Remaining := 87 |>) |>
        <| pk_ProtocolVersion := 5 |>
        <| pk_Connect := (ConnectParams0
            <| cp_ProtocolName := !"MQTT" |>
            <| cp_Clean := false |>
            <| cp_Keepalive := 30 |>
            <| cp_ClientIdentifier := !"zen" |>) |>
        <| pk_Properties := (Properties0
            <| pr_SessionExpiryInterval := 120 |>
            <| pr_SessionExpiryIntervalFlag := true |>
            <| pr_AuthenticationMethod := !"SHA-1" |>
            <| pr_AuthenticationData := !"auth-data" |>
            <| pr_RequestProblemInfo := 1 |>
            <| pr_RequestProblemInfoFlag := true |>
            <| pr_RequestResponseInfo := 1 |>
            <| pr_ReceiveMaximum := 500 |>
            <| pr_TopicAliasMaximum := 999 |>
            <| pr_User := [mkUserProperty !"hello" !"世界";
                 mkUserProperty !"key2" !"value2"] |>
            <| pr_MaximumPacketSize := 32000 |>) |>) |>.

Definition case_TConnectClean : TPacketCase :=
  TPacketCase0
    <| tc_Case := TConnectClean |>
    <| tc_Desc := !"mqtt 3.1.1, clean session" |>
    <| tc_RawBytes := [Z.shiftl Connect 4; 15]
        ++ [0; 4]
        ++ !"MQTT"
        ++ [4]
        ++ [2]
        ++ [0; 45]
        ++ [0; 3]
        ++ !"zen" |>
    <| tc_Packet := Some (Packet0
        <| pk_FixedHeader := (FixedHeader0
            <| fh_Type := Connect |>
            <| fh_Remaining := 15 |>) |>
        <| pk_ProtocolVersion := 4 |>
        <| pk_Connect := (ConnectParams0
            <| cp_ProtocolName := !"MQTT" |>
            <| cp_Clean := true |>
            <| cp_Keepalive := 45 |>
            <| cp_ClientIdentifier := !"zen" |>) |>) |>.

Definition case_TConnectMqtt5LWT : TPacketCase :=
  TPacketCase0
    <| tc_Case := TConnectMqtt5LWT |>
    <| tc_Desc := !"mqtt 5 clean session, lwt" |>
    <| tc_RawBytes := [Z.shiftl Connect 4; 47]
        ++ [0; 4]
        ++ !"MQTT"
        ++ [5]
        ++ [14]
        ++ [0; 30]
        ++ [10]
        ++ [17; 0; 0; 0; 120]
        ++ [39; 0; 0; 125; 0]
        ++ [0; 3]
        ++ !"zen"
        ++ [5]
        ++ [24; 0; 0; 2; 88]
        ++ [0; 3]
        ++ !"lwt"
        ++ [0; 8]
        ++ !"notagain" |>
    <| tc_Packet := Some (Packet0
        <| pk_ProtocolVersion := 5 |>
        <| pk_FixedHeader := (FixedHeader0
            <| fh_Type := Connect |>
            <| fh_Remaining := 42 |>) |>
        <| pk_Connect := (ConnectParams0
            <| cp_ProtocolName := !"MQTT" |>
            <| cp_Clean := true |>
            <| cp_Keepalive := 30 |>
            <| cp_ClientIdentifier := !"zen" |>
            <| cp_WillFlag := true |>
            <| cp_WillTopic := !"lwt" |>
            <| cp_WillPayload := !"notagain" |>
            <| cp_WillQos := 1 |>
            <| cp_WillProperties := (Properties0
                <| pr_WillDelayInterval := 600 |>) |>) |>
        <| pk_Properties := (Properties0
            <| pr_SessionExpiryInterval := 120 |>
            <| pr_SessionExpiryIntervalFlag := true |>
            <| pr_MaximumPacketSize := 32000 |>) |>) |>.

Definition case_TConnectUserPass : TPacketCase :=
  TPacketCase0
    <| tc_Case := TConnectUserPass |>
    <| tc_Desc := !"mqtt 3.1.1, username, password" |>
    <| tc_RawBytes := [Z.shiftl Connect 4; 28]
        ++ [0; 4]
        ++ !"MQTT"
        ++ [4]
        ++ [Z.lor (Z.lor 0 (Z.shiftl 1 6)) (Z.shiftl 1 7)]
        ++ [0; 20]
        ++ [0; 3]
        ++ !"zen"
        ++ [0; 5]
        ++ !"mochi"
        ++ [0; 4]
        ++ !",./;" |>
    <| tc_Packet := Some (Packet0
        <| pk_FixedHeader := (FixedHeader0
            <| fh_Type := Connect |>
            <| fh_Remaining := 28 |>) |>
        <| pk_ProtocolVersion := 4 |>
        <| pk_Connect := (ConnectParams0
            <| cp_ProtocolName := !"MQTT" |>
            <| cp_Clean := false |>
            <| cp_Keepalive := 20 |>
            <| cp_ClientIdentifier := !"zen" |>
            <| cp_UsernameFlag := true |>
            <| cp_PasswordFlag := true |>
            <| cp_Username := !"mochi" |>
            <| cp_Password := !",./;" |>) |>) |>.

Definition case_TConnectUserPassLWT : TPacketCase :=
  TPacketCase0
    <| tc_Case := TConnectUserPassLWT |>
    <| tc_Desc := !"mqtt 3.1.1, username, password, lwt" |>
    <| tc_Primary := true |>
    <| tc_RawBytes := [Z.shiftl Connect 4; 44]
        ++ [0; 4]
        ++ !"MQTT"
        ++ [4]
        ++ [206]
        ++ [0; 120]
        ++ [0; 3]
        ++ !"zen"
        ++ [0; 3]
        ++ !"lwt"
        ++ [0; 9]
        ++ !"not again"
        ++ [0; 5]
        ++ !"mochi"
        ++ [0; 4]
        ++ !",./;" |>
    <| tc_Packet := Some (Packet0
        <| pk_FixedHeader := (FixedHeader0
            <| fh_Type := Connect |>
            <| fh_Remaining := 44 |>) |>
        <| pk_ProtocolVersion := 4 |>
        <| pk_Connect := (ConnectParams0
            <| cp_ProtocolName := !"MQTT" |>
            <| cp_Clean := true |>
            <| cp_Keepalive := 120 |>
            <| cp_ClientIdentifier := !"zen" |>
            <| cp_UsernameFlag := true |>
            <| cp_PasswordFlag := true |>
            <| cp_Username := !"mochi" |>
            <| cp_Password := !",./;" |>
            <| cp_WillFlag := true |>
            <| cp_WillTopic := !"lwt" |>
            <| cp_WillPayload := !"not again" |>
            <| cp_WillQos := 1 |>) |>) |>.

Definition case_TConnectZeroByteUsername : TPacketCase :=
  TPacketCase0
    <| tc_Case := TConnectZeroByteUsername |>
    <| tc_Desc := !"username flag but 0 byte username" |>
    <| tc_Group := !"decode" |>
    <| tc_RawBytes := [Z.shiftl Connect 4; 23]
        ++ [0; 4]
        ++ !"MQTT"
        ++ [5]
        ++ [130]
        ++ [0; 30]
        ++ [5]
        ++ [17; 0; 0; 0; 120]
        ++ [0; 3]
        ++ !"zen"
        ++ [0; 0] |>
    <| tc_Packet := Some (Packet0
        <| pk_FixedHeader := (FixedHeader0
            <| fh_Type := Connect |>
            <| fh_Remaining := 23 |>) |>
        <| pk_ProtocolVersion := 5 |>
        <| pk_Connect := (ConnectParams0
            <| cp_ProtocolName := !"MQTT" |>
            <| cp_Clean := true |>
            <| cp_Keepalive := 30 |>
            <| cp_ClientIdentifier := !"zen" |>
            <| cp_Username := [] |>
            <| cp_UsernameFlag := true |>) |>
        <| pk_Properties := (Properties0
            <| pr_SessionExpiryInterval := 120 |>
            <| pr_SessionExpiryIntervalFlag := true |>) |>) |>.

Definition case_TConnectMalProtocolName : TPacketCase :=
  TPacketCase0
    <| tc_Case := TConnectMalProtocolName |>
    <| tc_Desc := !"malformed protocol name" |>
    <| tc_Group := !"decode" |>
    <| tc_FailFirst := Some ErrMalformedProtocolName |>
    <| tc_RawBytes := [Z.shiftl Connect 4; 0]
        ++ [0; 7]
        ++ !"MQIsd" |>.

Definition case_TConnectMalProtocolVersion : TPacketCase :=
  TPacketCase0
    <| tc_Case := TConnectMalProtocolVersion |>
    <| tc_Desc := !"malformed protocol version" |>
    <| tc_Group := !"decode" |>
    <| tc_FailFirst := Some ErrMalformedProtocolVersion |>
    <| tc_RawBytes := [Z.shiftl Connect 4; 0]
        ++ [0; 4]
        ++ !"MQTT" |>.

Definition case_TConnectMalFlags : TPacketCase :=
  TPacketCase0
    <| tc_Case := TConnectMalFlags |>
    <| tc_Desc := !"malformed flags" |>
    <| tc_Group := !"decode" |>
    <| tc_FailFirst := Some ErrMalformedFlags |>
    <| tc_RawBytes := [Z.shiftl Connect 4; 0]
        ++ [0; 4]
        ++ !"MQTT"
        ++ [4] |>.

Definition case_TConnectMalKeepalive : TPacketCase :=
  TPacketCase0
    <| tc_Case := TConnectMalKeepalive |>
    <| tc_Desc := !"malformed keepalive" |>
    <| tc_Group := !"decode" |>
    <| tc_FailFirst := Some ErrMalformedKeepalive |>
    <| tc_RawBytes := [Z.shiftl Connect 4; 0]
        ++ [0; 4]
        ++ !"MQTT"
        ++ [4]
        ++ [0] |>.

Definition case_TConnectMalClientID : TPacketCase :=
  TPacketCase0
    <| tc_Case := TConnectMalClientID |>
    <| tc_Desc := !"malformed client id" |>
    <| tc_Group := !"decode" |>
    <| tc_FailFirst := Some ErrClientIdentifierNotValid |>
    <| tc_RawBytes := [Z.shiftl Connect 4; 0]
        ++ [0; 4]
        ++ !"MQTT"
        ++ [4]
        ++ [0]
        ++ [0; 20]
        ++ [0; 3]
        ++ !"ze" |>.

Definition case_TConnectMalWillTopic : TPacketCase :=
  TPacketCase0
    <| tc_Case := TConnectMalWillTopic |>
    <| tc_Desc := !"malformed will topic" |>
    <| tc_Group := !"decode" |>
    <| tc_FailFirst := Some ErrMalformedWillTopic |>
    <| tc_RawBytes := [Z.shiftl Connect 4; 0]
        ++ [0; 4]
        ++ !"MQTT"
        ++ [4]
        ++ [14]
        ++ [0; 20]
        ++ [0; 3]
        ++ !"zen"
        ++ [0; 6]
        ++ !"l" |>.

Definition case_TConnectMalWillFlag : TPacketCase :=
  TPacketCase0
    <| tc_Case := TConnectMalWillFlag |>
    <| tc_Desc := !"malformed will flag" |>
    <| tc_Group := !"decode" |>
    <| tc_FailFirst := Some ErrMalformedWillPayload |>
    <| tc_RawBytes := [Z.shiftl Connect 4; 0]
        ++ [0; 4]
        ++ !"MQTT"
        ++ [4]
        ++ [14]
        ++ [0; 20]
        ++ [0; 3]
        ++ !"zen"
        ++ [0; 3]
        ++ !"lwt"
        ++ [0; 9]
        ++ !"not a" |>.

Definition case_TConnectMalUsername : TPacketCase :=
  TPacketCase0
    <| tc_Case := TConnectMalUsername |>
    <| tc_Desc := !"malformed username" |>
    <| tc_Group := !"decode" |>
    <| tc_FailFirst := Some ErrMalformedUsername |>
    <| tc_RawBytes := [Z.shiftl Connect 4; 0]
        ++ [0; 4]
        ++ !"MQTT"
        ++ [4]
        ++ [206]
        ++ [0; 20]
        ++ [0; 3]
        ++ !"zen"
        ++ [0; 3]
        ++ !"lwt"
        ++ [0; 9]
        ++ !"not again"
        ++ [0; 5]
        ++ !"moc" |>.

Definition case_TConnectInvalidFlagNoUsername : TPacketCase :=
  TPacketCase0
    <| tc_Case := TConnectInvalidFlagNoUsername |>
    <| tc_Desc := !"username flag with no username bytes" |>
    <| tc_Group := !"decode" |>
    <| tc_FailFirst := Some ErrProtocolViolationFlagNoUsername |>
    <| tc_RawBytes := [Z.shiftl Connect 4; 17]
        ++ [0; 4]
        ++ !"MQTT"
        ++ [5]
        ++ [130]
        ++ [0; 20]
        ++ [0]
        ++ [0; 3]
        ++ !"zen" |>.

Definition case_TConnectMalPassword : TPacketCase :=
  TPacketCase0
    <| tc_Case := TConnectMalPassword |>
    <| tc_Desc := !"malformed password" |>
    <| tc_Group := !"decode" |>
    <| tc_FailFirst := Some ErrMalformedPassword |>
    <| tc_RawBytes := [Z.shiftl Connect 4; 0]
        ++ [0; 4]
        ++ !"MQTT"
        ++ [4]
        ++ [206]
        ++ [0; 20]
        ++ [0; 3]
        ++ !"zen"
        ++ [0; 3]
        ++ !"lwt"
        ++ [0; 9]
        ++ !"not again"
        ++ [0; 5]
        ++ !"mochi"
        ++ [0; 4]
        ++ !",." |>.

Definition case_TConnectMalFixedHeader : TPacketCase :=
  TPacketCase0
    <| tc_Case := TConnectMalFixedHeader |>
    <| tc_Desc := !"malformed fixedheader oversize" |>
    <| tc_Group := !"decode" |>
    <| tc_FailFirst := Some ErrMalformedProtocolName |>
    <| tc_RawBytes := [Z.shiftl Connect 4; 255; 255; 255; 255; 255] |>.

Definition case_TConnectMalReservedBit : TPacketCase :=
  TPacketCase0
    <| tc_Case := TConnectMalReservedBit |>
    <| tc_Desc := !"reserved bit not 0" |>
    <| tc_Group := !"nodecode" |>
    <| tc_FailFirst := Some ErrProtocolViolation |>
    <| tc_RawBytes := [Z.shiftl Connect 4; 15]
        ++ [0; 4]
        ++ !"MQTT"
        ++ [4]
        ++ [1]
        ++ [0; 45]
        ++ [0; 3]
        ++ !"zen" |>.

Definition case_TConnectMalProperties : TPacketCase :=
  TPacketCase0
    <| tc_Case := TConnectMalProperties |>
    <| tc_Desc := !"malformed properties" |>
    <| tc_Group := !"decode" |>
    <| tc_FailFirst := Some ErrMalformedProperties |>
    <| tc_RawBytes := [Z.shiftl Connect 4; 47]
        ++ [0; 4]
        ++ !"MQTT"
        ++ [5]
        ++ [14]
        ++ [0; 30]
        ++ [10] |>
    <| tc_Packet := Some (Packet0
        <| pk_ProtocolVersion := 5 |>) |>.

Definition case_TConnectMalWillProperties : TPacketCase :=
  TPacketCase0
    <| tc_Case := TConnectMalWillProperties |>
    <| tc_Desc := !"malformed will properties" |>
    <| tc_Group := !"decode" |>
    <| tc_FailFirst := Some ErrMalformedWillProperties |>
    <| tc_RawBytes := [Z.shiftl Connect 4; 47]
        ++ [0; 4]
        ++ !"MQTT"
        ++ [5]
        ++ [14]
        ++ [0; 30]
        ++ [10]
        ++ [17; 0; 0; 0; 120]
        ++ [39; 0; 0; 125; 0]
        ++ [0; 3]
        ++ !"zen"
        ++ [5] |>
    <| tc_Packet := Some (Packet0
        <| pk_ProtocolVersion := 5 |>) |>.

Definition case_TConnectInvalidProtocolName : TPacketCase :=
  TPacketCase0
    <| tc_Case := TConnectInvalidProtocolName |>
    <| tc_Desc := !"invalid protocol name" |>
    <| tc_Group := !"validate" |>
    <| tc_Expect := Some ErrProtocolViolationProtocolName |>
    <| tc_Packet := Some (Packet0
        <| pk_FixedHeader := (FixedHeader0
            <| fh_Type := Connect |>) |>
        <| pk_Connect := (ConnectParams0
            <| cp_ProtocolName := !"stuff" |>) |>) |>.

Definition case_TConnectInvalidProtocolVersion : TPacketCase :=
  TPacketCase0
    <| tc_Case := TConnectInvalidProtocolVersion |>
    <| tc_Desc := !"invalid protocol version" |>
    <| tc_Group := !"validate" |>
    <| tc_Expect := Some ErrProtocolViolationProtocolVersion |>
    <| tc_Packet := Some (Packet0
        <| pk_FixedHeader := (FixedHeader0
            <| fh_Type := Connect |>) |>
        <| pk_ProtocolVersion := 2 |>
        <| pk_Connect := (ConnectParams0
            <| cp_ProtocolName := !"MQTT" |>) |>) |>.

Definition case_TConnectInvalidProtocolVersion2 : TPacketCase :=
  TPacketCase0
    <| tc_Case := TConnectInvalidProtocolVersion2 |>
    <| tc_Desc := !"invalid protocol version" |>
    <| tc_Group := !"validate" |>
    <| tc_Expect := Some ErrProtocolViolationProtocolVersion |>
    <| tc_Packet := Some (Packet0
        <| pk_FixedHeader := (FixedHeader0
            <| fh_Type := Connect |>) |>
        <| pk_ProtocolVersion := 2 |>
        <| pk_Connect := (ConnectParams0
            <| cp_ProtocolName := !"MQIsdp" |>) |>) |>.

Definition case_TConnectInvalidReservedBit : TPacketCase :=
  TPacketCase0
    <| tc_Case := TConnectInvalidReservedBit |>
    <| tc_Desc := !"reserved bit not 0" |>
    <| tc_Group := !"validate" |>
    <| tc_Expect := Some ErrProtocolViolationReservedBit |>
    <| tc_Packet := Some (Packet0
        <| pk_FixedHeader := (FixedHeader0
            <| fh_Type := Connect |>) |>
        <| pk_ProtocolVersion := 4 |>
        <| pk_Connect := (ConnectParams0
            <| cp_ProtocolName := !"MQTT" |>) |>
        <| pk_ReservedBit := 1 |>) |>.

Definition case_TConnectInvalidClientIDTooLong : TPacketCase :=
  TPacketCase0
    <| tc_Case := TConnectInvalidClientIDTooLong |>
    <| tc_Desc := !"client id too long" |>
    <| tc_Group := !"validate" |>
    <| tc_Expect := Some ErrClientIdentifierNotValid |>
    <| tc_Packet := Some (Packet0
        <| pk_FixedHeader := (FixedHeader0
            <| fh_Type := Connect |>) |>
        <| pk_ProtocolVersion := 4 |>
        <| pk_Connect := (ConnectParams0
            <| cp_ProtocolName := !"MQTT" |>
            <| cp_ClientIdentifier := replicate (Z.to_nat 65536) 0 |>) |>) |>.

Definition case_TConnectInvalidUsernameNoFlag : TPacketCase :=
  TPacketCase0
    <| tc_Case := TConnectInvalidUsernameNoFlag |>
    <| tc_Desc := !"has username but no flag" |>
    <| tc_Group := !"validate" |>
    <| tc_Expect := Some ErrProtocolViolationUsernameNoFlag |>
    <| tc_Packet := Some (Packet0
        <| pk_FixedHeader := (FixedHeader0
            <| fh_Type := Connect |>) |>
        <| pk_ProtocolVersion := 4 |>
        <| pk_Connect := (ConnectParams0
            <| cp_ProtocolName := !"MQTT" |>
            <| cp_Username := !"username" |>) |>) |>.

Definition case_TConnectInvalidFlagNoPassword : TPacketCase :=
  TPacketCase0
    <| tc_Case := TConnectInvalidFlagNoPassword |>
    <| tc_Desc := !"has password flag but no password" |>
    <| tc_Group := !"validate" |>
    <| tc_Expect := Some ErrProtocolViolationFlagNoPassword |>
    <| tc_Packet := Some (Packet0
        <| pk_FixedHeader := (FixedHeader0
            <| fh_Type := Connect |>) |>
        <| pk_ProtocolVersion := 4 |>
        <| pk_Connect := (ConnectParams0
            <| cp_ProtocolName := !"MQTT" |>
            <| cp_PasswordFlag := true |>) |>) |>.

Definition case_TConnectInvalidPasswordNoFlag : TPacketCase :=
  TPacketCase0
    <| tc_Case := TConnectInvalidPasswordNoFlag |>
    <| tc_Desc := !"has password flag but no password" |>
    <| tc_Group := !"validate" |>
    <| tc_Expect := Some ErrProtocolViolationPasswordNoFlag |>
    <| tc_Packet := Some (Packet0
        <| pk_FixedHeader := (FixedHeader0
            <| fh_Type := Connect |>) |>
        <| pk_ProtocolVersion := 4 |>
        <| pk_Connect := (ConnectParams0
            <| cp_ProtocolName := !"MQTT" |>
            <| cp_Password := !"password" |>) |>) |>.

Definition case_TConnectInvalidUsernameTooLong : TPacketCase :=
  TPacketCase0
    <| tc_Case := TConnectInvalidUsernameTooLong |>
    <| tc_Desc := !"username too long" |>
    <| tc_Group := !"validate" |>
    <| tc_Expect := Some ErrProtocolViolationUsernameTooLong |>
    <| tc_Packet := Some (Packet0
        <| pk_FixedHeader := (FixedHeader0
            <| fh_Type := Connect |>) |>
        <| pk_ProtocolVersion := 4 |>
        <| pk_Connect := (ConnectParams0
            <| cp_ProtocolName := !"MQTT" |>
            <| cp_UsernameFlag := true |>
            <| cp_Username := replicate (Z.to_nat 65536) 0 |>) |>) |>.

Definition case_TConnectInvalidPasswordTooLong : TPacketCase :=
  TPacketCase0
    <| tc_Case := TConnectInvalidPasswordTooLong |>
    <| tc_Desc := !"password too long" |>
    <| tc_Group := !"validate" |>
    <| tc_Expect := Some ErrProtocolViolationPasswordTooLong |>
    <| tc_Packet := Some (Packet0
        <| pk_FixedHeader := (FixedHeader0
            <| fh_Type := Connect |>) |>
        <| pk_ProtocolVersion := 4 |>
        <| pk_Connect := (ConnectParams0
            <| cp_ProtocolName := !"MQTT" |>
            <| cp_UsernameFlag := true |>
            <| cp_Username := [] |>
            <| cp_PasswordFlag := true |>
            <| cp_Password := replicate (Z.to_nat 65536) 0 |>) |>) |>.

Definition case_TConnectInvalidWillFlagNoPayload : TPacketCase :=
  TPacketCase0
    <| tc_Case := TConnectInvalidWillFlagNoPayload |>
    <| tc_Desc := !"will flag no payload" |>
    <| tc_Group := !"validate" |>
    <| tc_Expect := Some ErrProtocolViolationWillFlagNoPayload |>
    <| tc_Packet := Some (Packet0
        <| pk_FixedHeader := (FixedHeader0
            <| fh_Type := Connect |>) |>
        <| pk_ProtocolVersion := 4 |>
        <| pk_Connect := (ConnectParams0
            <| cp_ProtocolName := !"MQTT" |>
            <| cp_WillFlag := true |>) |>) |>.

Definition case_TConnectInvalidWillFlagQosOutOfRange : TPacketCase :=
  TPacketCase0
    <| tc_Case := TConnectInvalidWillFlagQosOutOfRange |>
    <| tc_Desc := !"will flag no payload" |>
    <| tc_Group := !"validate" |>
    <| tc_Expect := Some ErrProtocolViolationQosOutOfRange |>
    <| tc_Packet := Some (Packet0
        <| pk_FixedHeader := (FixedHeader0
            <| fh_Type := Connect |>) |>
        <| pk_ProtocolVersion := 4 |>
        <| pk_Connect := (ConnectParams0
            <| cp_ProtocolName := !"MQTT" |>
            <| cp_WillFlag := true |>
            <| cp_WillTopic := !"a/b/c" |>
            <| cp_WillPayload := !"b" |>
            <| cp_WillQos := 4 |>) |>) |>.

Definition case_TConnectInvalidWillSurplusRetain : TPacketCase :=
  TPacketCase0
    <| tc_Case := TConnectInvalidWillSurplusRetain |>
    <| tc_Desc := !"no will flag surplus retain" |>
    <| tc_Group := !"validate" |>
    <| tc_Expect := Some ErrProtocolViolationWillFlagSurplusRetain |>
    <| tc_Packet := Some (Packet0
        <| pk_FixedHeader := (FixedHeader0
            <| fh_Type := Connect |>) |>
        <| pk_ProtocolVersion := 4 |>
        <| pk_Connect := (ConnectParams0
            <| cp_ProtocolName := !"MQTT" |>
            <| cp_WillRetain := true |>) |>) |>.

Definition case_TConnectSpecInvalidUTF8D800 : TPacketCase :=
  TPacketCase0
    <| tc_Case := TConnectSpecInvalidUTF8D800 |>
    <| tc_Desc := !"invalid utf8 string (a) - code point U+D800" |>
    <| tc_Group := !"decode" |>
    <| tc_FailFirst := Some ErrClientIdentifierNotValid |>
    <| tc_RawBytes := [Z.shiftl Connect 4; 0]
        ++ [0; 4]
        ++ !"MQTT"
        ++ [4]
        ++ [0]
        ++ [0; 20]
        ++ [0; 4]
        ++ !"e" ++ [237; 160; 128] |>.

Definition case_TConnectSpecInvalidUTF8DFFF : TPacketCase :=
  TPacketCase0
    <| tc_Case := TConnectSpecInvalidUTF8DFFF |>
    <| tc_Desc := !"invalid utf8 string (b) - code point U+DFFF" |>
    <| tc_Group := !"decode" |>
    <| tc_FailFirst := Some ErrClientIdentifierNotValid |>
    <| tc_RawBytes := [Z.shiftl Connect 4; 0]
        ++ [0; 4]
        ++ !"MQTT"
        ++ [4]
        ++ [0]
        ++ [0; 20]
        ++ [0; 4]
        ++ !"e" ++ [237; 163; 191] |>.

Definition case_TConnectSpecInvalidUTF80000 : TPacketCase :=
  TPacketCase0
    <| tc_Case := TConnectSpecInvalidUTF80000 |>
    <| tc_Desc := !"invalid utf8 string (c) - code point U+0000" |>
    <| tc_Group := !"decode" |>
    <| tc_FailFirst := Some ErrClientIdentifierNotValid |>
    <| tc_RawBytes := [Z.shiftl Connect 4; 0]
        ++ [0; 4]
        ++ !"MQTT"
        ++ [4]
        ++ [0]
        ++ [0; 20]
        ++ [0; 3]
        ++ !"e" ++ [192; 128] |>.

Definition case_TConnectSpecInvalidUTF8NoSkip : TPacketCase :=
  TPacketCase0
    <| tc_Case := TConnectSpecInvalidUTF8NoSkip |>
    <| tc_Desc := !"utf8 string must not skip or strip code point U+FEFF" |>
    <| tc_RawBytes := [Z.shiftl Connect 4; 18]
        ++ [0; 4]
        ++ !"MQTT"
        ++ [4]
        ++ [0]
        ++ [0; 20]
        ++ [0; 6]
        ++ !"eb" ++ [239; 187; 191] ++ !"d" |>
    <| tc_Packet := Some (Packet0
        <| pk_FixedHeader := (FixedHeader0
            <| fh_Type := Connect |>
            <| fh_Remaining := 16 |>) |>
        <| pk_ProtocolVersion := 4 |>
        <| pk_Connect := (ConnectParams0
            <| cp_ProtocolName := !"MQTT" |>
            <| cp_Keepalive := 20 |>
            <| cp_ClientIdentifier := !"eb" ++ [239; 187; 191] ++ !"d" |>) |>) |>.

Definition Connect_cases : TPacketCases :=
  [case_TConnectMqtt31; case_TConnectMqtt311; case_TConnectMqtt5; case_TConnectClean;
   case_TConnectMqtt5LWT; case_TConnectUserPass; case_TConnectUserPassLWT;
   case_TConnectZeroByteUsername; case_TConnectMalProtocolName;
   case_TConnectMalProtocolVersion; case_TConnectMalFlags; case_TConnectMalKeepalive;
   case_TConnectMalClientID; case_TConnectMalWillTopic; case_TConnectMalWillFlag;
   case_TConnectMalUsername; case_TConnectInvalidFlagNoUsername; case_TConnectMalPassword;
   case_TConnectMalFixedHeader; case_TConnectMalReservedBit; case_TConnectMalProperties;
   case_TConnectMalWillProperties; case_TConnectInvalidProtocolName;
   case_TConnectInvalidProtocolVersion; case_TConnectInvalidProtocolVersion2;
   case_TConnectInvalidReservedBit; case_TConnectInvalidClientIDTooLong;
   case_TConnectInvalidUsernameNoFlag; case_TConnectInvalidFlagNoPassword;
   case_TConnectInvalidPasswordNoFlag; case_TConnectInvalidUsernameTooLong;
   case_TConnectInvalidPasswordTooLong; case_TConnectInvalidWillFlagNoPayload;
   case_TConnectInvalidWillFlagQosOutOfRange; case_TConnectInvalidWillSurplusRetain;
   case_TConnectSpecInvalidUTF8D800; case_TConnectSpecInvalidUTF8DFFF;
   case_TConnectSpecInvalidUTF80000; case_TConnectSpecInvalidUTF8NoSkip].

(** ** [Connack] *)

Definition case_TConnackAcceptedNoSession : TPacketCase :=
  TPacketCase0
    <| tc_Case := TConnackAcceptedNoSession |>
    <| tc_Desc := !"accepted, no session" |>
    <| tc_Primary := true |>
    <| tc_RawBytes := [Z.shiftl Connack 4; 2]
        ++ [0]
        ++ [Code_Code CodeSuccess] |>
    <| tc_Packet := Some (Packet0
        <| pk_FixedHeader := (FixedHeader0
            <| fh_Type := Connack |>
            <| fh_Remaining := 2 |>) |>
        <| pk_SessionPresent := false |>
        <| pk_ReasonCode := Code_Code CodeSuccess |>) |>.

Definition case_TConnackAcceptedSessionExists : TPacketCase :=
  TPacketCase0
    <| tc_Case := TConnackAcceptedSessionExists |>
    <| tc_Desc := !"accepted, session exists" |>
    <| tc_Primary := true |>
    <| tc_RawBytes := [Z.shiftl Connack 4; 2]
        ++ [1]
        ++ [Code_Code CodeSuccess] |>
    <| tc_Packet := Some (Packet0
        <| pk_FixedHeader := (FixedHeader0
            <| fh_Type := Connack |>
            <| fh_Remaining := 2 |>) |>
        <| pk_SessionPresent := true |>
        <| pk_ReasonCode := Code_Code CodeSuccess |>) |>.

Definition case_TConnackAcceptedAdjustedExpiryInterval : TPacketCase :=
  TPacketCase0
    <| tc_Case := TConnackAcceptedAdjustedExpiryInterval |>
    <| tc_Desc := !"accepted, no session, adjusted expiry interval mqtt5" |>
    <| tc_Primary := true |>
    <| tc_RawBytes := [Z.shiftl Connack 4; 8]
        ++ [0]
        ++ [Code_Code CodeSuccess]
        ++ [5]
        ++ [17; 0; 0; 0; 120] |>
    <| tc_Packet := Some (Packet0
        <| pk_ProtocolVersion := 5 |>
        <| pk_FixedHeader := (FixedHeader0
            <| fh_Type := Connack |>
            <| fh_Remaining := 8 |>) |>
        <| pk_ReasonCode := Code_Code CodeSuccess |>
        <| pk_Properties := (Properties0
            <| pr_SessionExpiryInterval := 120 |>
            <| pr_SessionExpiryIntervalFlag := true |>) |>) |>.

Definition case_TConnackAcceptedMqtt5 : TPacketCase :=
  TPacketCase0
    <| tc_Case := TConnackAcceptedMqtt5 |>
    <| tc_Desc := !"accepted no session mqtt5" |>
    <| tc_Primary := true |>
    <| tc_RawBytes := [Z.shiftl Connack 4; 124]
        ++ [0]
        ++ [Code_Code CodeSuccess]
        ++ [121]
        ++ [17; 0; 0; 0; 120]
        ++ [18; 0; 8] ++ !"mochi-v5"
        ++ [19; 0; 20]
        ++ [21; 0; 5] ++ !"SHA-1"
        ++ [22; 0; 9] ++ !"auth-data"
        ++ [26; 0; 8] ++ !"response"
        ++ [28; 0; 7] ++ !"mochi-2"
        ++ [31; 0; 6] ++ !"reason"
        ++ [33; 1; 244]
        ++ [34; 3; 231]
        ++ [36; 1]
        ++ [37; 1]
        ++ [38]
        ++ [0; 5] ++ !"hello"
        ++ [0; 6; 228; 184; 150; 231; 149; 140]
        ++ [38]
        ++ [0; 4] ++ !"key2"
        ++ [0; 6] ++ !"value2"
        ++ [39; 0; 0; 125; 0]
        ++ [40; 1]
        ++ [41; 1]
        ++ [42; 1] |>
    <| tc_Packet := Some (Packet0
        <| pk_ProtocolVersion := 5 |>
        <| pk_FixedHeader := (FixedHeader0
            <| fh_Type := Connack |>
            <| fh_Remaining := 124 |>) |>
        <| pk_SessionPresent := false |>
        <| pk_ReasonCode := Code_Code CodeSuccess |>
        <| pk_Properties := (Properties0
            <| pr_SessionExpiryInterval := 120 |>
            <| pr_SessionExpiryIntervalFlag := true |>
            <| pr_AssignedClientID := !"mochi-v5" |>
            <| pr_ServerKeepAlive := 20 |>
            <| pr_ServerKeepAliveFlag := true |>
            <| pr_AuthenticationMethod := !"SHA-1" |>
            <| pr_AuthenticationData := !"auth-data" |>
            <| pr_ResponseInfo := !"response" |>
            <| pr_ServerReference := !"mochi-2" |>
            <| pr_ReasonString := !"reason" |>
            <| pr_ReceiveMaximum := 500 |>
            <| pr_TopicAliasMaximum := 999 |>
            <| pr_MaximumQos := 1 |>
            <| pr_MaximumQosFlag := true |>
            <| pr_RetainAvailable := 1 |>
            <| pr_RetainAvailableFlag := true |>
            <| pr_User := [mkUserProperty !"hello" !"世界";
                 mkUserProperty !"key2" !"value2"] |>
            <| pr_MaximumPacketSize := 32000 |>
            <| pr_WildcardSubAvailable := 1 |>
            <| pr_WildcardSubAvailableFlag := true |>
            <| pr_SubIDAvailable := 1 |>
            <| pr_SubIDAvailableFlag := true |>
            <| pr_SharedSubAvailable := 1 |>
            <| pr_SharedSubAvailableFlag := true |>) |>) |>.

Definition case_TConnackMinMqtt5 : TPacketCase :=
  TPacketCase0
    <| tc_Case := TConnackMinMqtt5 |>
    <| tc_Desc := !"accepted min properties mqtt5" |>
    <| tc_Primary := true |>
    <| tc_RawBytes := [Z.shiftl Connack 4; 13]
        ++ [1]
        ++ [Code_Code CodeSuccess]
        ++ [10]
        ++ [18; 0; 5] ++ !"mochi"
        ++ [36; 1] |>
    <| tc_Packet := Some (Packet0
        <| pk_ProtocolVersion := 5 |>
        <| pk_FixedHeader := (FixedHeader0
            <| fh_Type := Connack |>
            <| fh_Remaining := 13 |>) |>
        <| pk_SessionPresent := true |>
        <| pk_ReasonCode := Code_Code CodeSuccess |>
        <| pk_Properties := (Properties0
            <| pr_AssignedClientID := !"mochi" |>
            <| pr_MaximumQos := 1 |>
            <| pr_MaximumQosFlag := true |>) |>) |>.

Definition case_TConnackMinCleanMqtt5 : TPacketCase :=
  TPacketCase0
    <| tc_Case := TConnackMinCleanMqtt5 |>
    <| tc_Desc := !"accepted min properties mqtt5b" |>
    <| tc_Primary := true |>
    <| tc_RawBytes := [Z.shiftl Connack 4; 3]
        ++ [0]
        ++ [Code_Code CodeSuccess]
        ++ [0] |>
    <| tc_Packet := Some (Packet0
        <| pk_ProtocolVersion := 5 |>
        <| pk_FixedHeader := (FixedHeader0
            <| fh_Type := Connack |>
            <| fh_Remaining := 16 |>) |>
        <| pk_SessionPresent := false |>
        <| pk_ReasonCode := Code_Code CodeSuccess |>) |>.

Definition case_TConnackServerKeepalive : TPacketCase :=
  TPacketCase0
    <| tc_Case := TConnackServerKeepalive |>
    <| tc_Desc := !"server set keepalive" |>
    <| tc_Primary := true |>
    <| tc_RawBytes := [Z.shiftl Connack 4; 6]
        ++ [1]
        ++ [Code_Code CodeSuccess]
        ++ [3]
        ++ [19; 0; 10] |>
    <| tc_Packet := Some (Packet0
        <| pk_ProtocolVersion := 5 |>
        <| pk_FixedHeader := (FixedHeader0
            <| fh_Type := Connack |>
            <| fh_Remaining := 6 |>) |>
        <| pk_SessionPresent := true |>
        <| pk_ReasonCode := Code_Code CodeSuccess |>
        <| pk_Properties := (Properties0
            <| pr_ServerKeepAlive := 10 |>
            <| pr_ServerKeepAliveFlag := true |>) |>) |>.

Definition case_TConnackInvalidMinMqtt5 : TPacketCase :=
  TPacketCase0
    <| tc_Case := TConnackInvalidMinMqtt5 |>
    <| tc_Desc := !"failure min properties mqtt5" |>
    <| tc_Primary := true |>
    <| tc_RawBytes := [Z.shiftl Connack 4; 23]
        ++ [0]
        ++ [Code_Code ErrUnspecifiedError]
        ++ [20]
        ++ [31; 0; 17]
        ++ Code_Reason ErrUnspecifiedError |>
    <| tc_Packet := Some (Packet0
        <| pk_ProtocolVersion := 5 |>
        <| pk_FixedHeader := (FixedHeader0
            <| fh_Type := Connack |>
            <| fh_Remaining := 23 |>) |>
        <| pk_SessionPresent := false |>
        <| pk_ReasonCode := Code_Code ErrUnspecifiedError |>
        <| pk_Properties := (Properties0
            <| pr_ReasonString := Code_Reason ErrUnspecifiedError |>) |>) |>.

Definition case_TConnackProtocolViolationNoSession : TPacketCase :=
  TPacketCase0
    <| tc_Case := TConnackProtocolViolationNoSession |>
    <| tc_Desc := !"miscellaneous protocol violation" |>
    <| tc_RawBytes := [Z.shiftl Connack 4; 2]
        ++ [0]
        ++ [Code_Code ErrProtocolViolation] |>
    <| tc_Packet := Some (Packet0
        <| pk_FixedHeader := (FixedHeader0
            <| fh_Type := Connack |>
            <| fh_Remaining := 2 |>) |>
        <| pk_ReasonCode := Code_Code ErrProtocolViolation |>) |>.

Definition case_TConnackBadProtocolVersion : TPacketCase :=
  TPacketCase0
    <| tc_Case := TConnackBadProtocolVersion |>
    <| tc_Desc := !"bad protocol version" |>
    <| tc_RawBytes := [Z.shiftl Connack 4; 2]
        ++ [1]
        ++ [Code_Code ErrProtocolViolationProtocolVersion] |>
    <| tc_Packet := Some (Packet0
        <| pk_FixedHeader := (FixedHeader0
            <| fh_Type := Connack |>
            <| fh_Remaining := 2 |>) |>
        <| pk_SessionPresent := true |>
        <| pk_ReasonCode := Code_Code ErrProtocolViolationProtocolVersion |>) |>.

Definition case_TConnackBadClientID : TPacketCase :=
  TPacketCase0
    <| tc_Case := TConnackBadClientID |>
    <| tc_Desc := !"bad client id" |>
    <| tc_RawBytes := [Z.shiftl Connack 4; 2]
        ++ [1]
        ++ [Code_Code ErrClientIdentifierNotValid] |>
    <| tc_Packet := Some (Packet0
        <| pk_FixedHeader := (FixedHeader0
            <| fh_Type := Connack |>
            <| fh_Remaining := 2 |>) |>
        <| pk_SessionPresent := true |>
        <| pk_ReasonCode := Code_Code ErrClientIdentifierNotValid |>) |>.

Definition case_TConnackServerUnavailable : TPacketCase :=
  TPacketCase0
    <| tc_Case := TConnackServerUnavailable |>
    <| tc_Desc := !"server unavailable" |>
    <| tc_RawBytes := [Z.shiftl Connack 4; 2]
        ++ [1]
        ++ [Code_Code ErrServerUnavailable] |>
    <| tc_Packet := Some (Packet0
        <| pk_FixedHeader := (FixedHeader0
            <| fh_Type := Connack |>
            <| fh_Remaining := 2 |>) |>
        <| pk_SessionPresent := true |>
        <| pk_ReasonCode := Code_Code ErrServerUnavailable |>) |>.

Definition case_TConnackBadUsernamePassword : TPacketCase :=
  TPacketCase0
    <| tc_Case := TConnackBadUsernamePassword |>
    <| tc_Desc := !"bad username or password" |>
    <| tc_RawBytes := [Z.shiftl Connack 4; 2]
        ++ [1]
        ++ [Code_Code ErrBadUsernameOrPassword] |>
    <| tc_Packet := Some (Packet0
        <| pk_FixedHeader := (FixedHeader0
            <| fh_Type := Connack |>
            <| fh_Remaining := 2 |>) |>
        <| pk_SessionPresent := true |>
        <| pk_ReasonCode := Code_Code ErrBadUsernameOrPassword |>) |>.

Definition case_TConnackBadUsernamePasswordNoSession : TPacketCase :=
  TPacketCase0
    <| tc_Case := TConnackBadUsernamePasswordNoSession |>
    <| tc_Desc := !"bad username or password no session" |>
    <| tc_RawBytes := [Z.shiftl Connack 4; 2]
        ++ [0]
        ++ [Code_Code Err3NotAuthorized] |>
    <| tc_Packet := Some (Packet0
        <| pk_FixedHeader := (FixedHeader0
            <| fh_Type := Connack |>
            <| fh_Remaining := 2 |>) |>
        <| pk_ReasonCode := Code_Code Err3NotAuthorized |>) |>.

Definition case_TConnackMqtt5BadUsernamePasswordNoSession : TPacketCase :=
  TPacketCase0
    <| tc_Case := TConnackMqtt5BadUsernamePasswordNoSession |>
    <| tc_Desc := !"mqtt5 bad username or password no session" |>
    <| tc_RawBytes := [Z.shiftl Connack 4; 3]
        ++ [0]
        ++ [Code_Code ErrBadUsernameOrPassword]
        ++ [0] |>
    <| tc_Packet := Some (Packet0
        <| pk_ProtocolVersion := 5 |>
        <| pk_FixedHeader := (FixedHeader0
            <| fh_Type := Connack |>
            <| fh_Remaining := 2 |>) |>
        <| pk_ReasonCode := Code_Code ErrBadUsernameOrPassword |>) |>.

Definition case_TConnackNotAuthorised : TPacketCase :=
  TPacketCase0
    <| tc_Case := TConnackNotAuthorised |>
    <| tc_Desc := !"not authorised" |>
    <| tc_RawBytes := [Z.shiftl Connack 4; 2]
        ++ [1]
        ++ [Code_Code ErrNotAuthorized] |>
    <| tc_Packet := Some (Packet0
        <| pk_FixedHeader := (FixedHeader0
            <| fh_Type := Connack |>
            <| fh_Remaining := 2 |>) |>
        <| pk_SessionPresent := true |>
        <| pk_ReasonCode := Code_Code ErrNotAuthorized |>) |>.

Definition case_TConnackDropProperties : TPacketCase :=
  TPacketCase0
    <| tc_Case := TConnackDropProperties |>
    <| tc_Desc := !"drop oversize properties" |>
    <| tc_Group := !"encode" |>
    <| tc_RawBytes := [Z.shiftl Connack 4; 40]
        ++ [0]
        ++ [Code_Code CodeSuccess]
        ++ [19]
        ++ [28; 0; 7] ++ !"mochi-2"
        ++ [31; 0; 6] ++ !"reason"
        ++ [38]
        ++ [0; 5] ++ !"hello"
        ++ [0; 6; 228; 184; 150; 231; 149; 140] |>
    <| tc_ActualBytes := [Z.shiftl Connack 4; 13]
        ++ [0]
        ++ [Code_Code CodeSuccess]
        ++ [10]
        ++ [28; 0; 7] ++ !"mochi-2" |>
    <| tc_Packet := Some (Packet0
        <| pk_Mods := (Mods0
            <| mod_MaxSize := 5 |>) |>
        <| pk_ProtocolVersion := 5 |>
        <| pk_FixedHeader := (FixedHeader0
            <| fh_Type := Connack |>
            <| fh_Remaining := 40 |>) |>
        <| pk_ReasonCode := Code_Code CodeSuccess |>
        <| pk_Properties := (Properties0
            <| pr_ReasonString := !"reason" |>
            <| pr_ServerReference := !"mochi-2" |>
            <| pr_User := [mkUserProperty !"hello" !"世界"] |>) |>) |>.

Definition case_TConnackDropPropertiesPartial : TPacketCase :=
  TPacketCase0
    <| tc_Case := TConnackDropPropertiesPartial |>
    <| tc_Desc := !"drop oversize properties partial" |>
    <| tc_Group := !"encode" |>
    <| tc_RawBytes := [Z.shiftl Connack 4; 40]
        ++ [0]
        ++ [Code_Code CodeSuccess]
        ++ [19]
        ++ [28; 0; 7] ++ !"mochi-2"
        ++ [31; 0; 6] ++ !"reason"
        ++ [38]
        ++ [0; 5] ++ !"hello"
        ++ [0; 6; 228; 184; 150; 231; 149; 140] |>
    <| tc_ActualBytes := [Z.shiftl Connack 4; 22]
        ++ [0]
        ++ [Code_Code CodeSuccess]
        ++ [19]
        ++ [28; 0; 7] ++ !"mochi-2"
        ++ [31; 0; 6] ++ !"reason" |>
    <| tc_Packet := Some (Packet0
        <| pk_Mods := (Mods0
            <| mod_MaxSize := 18 |>) |>
        <| pk_ProtocolVersion := 5 |>
        <| pk_FixedHeader := (FixedHeader0
            <| fh_Type := Connack |>
            <| fh_Remaining := 40 |>) |>
        <| pk_ReasonCode := Code_Code CodeSuccess |>
        <| pk_Properties := (Properties0
            <| pr_ReasonString := !"reason" |>
            <| pr_ServerReference := !"mochi-2" |>
            <| pr_User := [mkUserProperty !"hello" !"世界"] |>) |>) |>.

Definition case_TConnackMalSessionPresent : TPacketCase :=
  TPacketCase0
    <| tc_Case := TConnackMalSessionPresent |>
    <| tc_Desc := !"malformed session present" |>
    <| tc_Group := !"decode" |>
    <| tc_FailFirst := Some ErrMalformedSessionPresent |>
    <| tc_RawBytes := [Z.shiftl Connect 4; 2] |>.

Definition case_TConnackMalReturnCode : TPacketCase :=
  TPacketCase0
    <| tc_Case := TConnackMalReturnCode |>
    <| tc_Desc := !"malformed bad return Code" |>
    <| tc_Group := !"decode" |>
    <| tc_FailFirst := Some ErrMalformedReasonCode |>
    <| tc_RawBytes := [Z.shiftl Connect 4; 2]
        ++ [0] |>.

Definition case_TConnackMalProperties : TPacketCase :=
  TPacketCase0
    <| tc_Case := TConnackMalProperties |>
    <| tc_Desc := !"malformed properties" |>
    <| tc_Group := !"decode" |>
    <| tc_FailFirst := Some ErrMalformedProperties |>
    <| tc_RawBytes := [Z.shiftl Connack 4; 40]
        ++ [0]
        ++ [Code_Code CodeSuccess]
        ++ [19] |>
    <| tc_Packet := Some (Packet0
        <| pk_ProtocolVersion := 5 |>) |>.

Definition Connack_cases : TPacketCases :=
  [case_TConnackAcceptedNoSession; case_TConnackAcceptedSessionExists;
   case_TConnackAcceptedAdjustedExpiryInterval; case_TConnackAcceptedMqtt5;
   case_TConnackMinMqtt5; case_TConnackMinCleanMqtt5; case_TConnackServerKeepalive;
   case_TConnackInvalidMinMqtt5; case_TConnackProtocolViolationNoSession;
   case_TConnackBadProtocolVersion; case_TConnackBadClientID; case_TConnackServerUnavailable;
   case_TConnackBadUsernamePassword; case_TConnackBadUsernamePasswordNoSession;
   case_TConnackMqtt5BadUsernamePasswordNoSession; case_TConnackNotAuthorised;
   case_TConnackDropProperties; case_TConnackDropPropertiesPartial;
   case_TConnackMalSessionPresent; case_TConnackMalReturnCode; case_TConnackMalProperties].
