(* ===== verification/PublishVectors.v ===== *)
(** * Test vectors of publish packets and their acknowledgements (packets/tpackets.go)

    One definition per case of [TPacketData], in its order; a field the source
    leaves out keeps its zero value. A line of the source is a segment of the
    bytes, a run of characters a string. *)
From S2P Require Import Prelude Codes Codec FixedHeader Properties Packets Vectors.

(** ** [Publish] *)

Definition case_TPublishNoPayload : TPacketCase :=
  TPacketCase0
    <| tc_Case := TPublishNoPayload |>
    <| tc_Desc := !"no payload" |>
    <| tc_Primary := true |>
    <| tc_RawBytes := [Z.shiftl Publish 4; 7]
        ++ [0; 5]
        ++ !"a/b/c" |>
    <| tc_Packet := Some (Packet0
        <| pk_FixedHeader := (FixedHeader0
            <| fh_Type := Publish |>
            <| fh_Remaining := 7 |>) |>
        <| pk_TopicName := !"a/b/c" |>
        <| pk_Payload := [] |>) |>.

Definition case_TPublishBasic : TPacketCase :=
  TPacketCase0
    <| tc_Case := TPublishBasic |>
    <| tc_Desc := !"basic" |>
    <| tc_Primary := true |>
    <| tc_RawBytes := [Z.shiftl Publish 4; 18]
        ++ [0; 5]
        ++ !"a/b/c"
        ++ !"hello mochi" |>
    <| tc_Packet := Some (Packet0
        <| pk_FixedHeader := (FixedHeader0
            <| fh_Type := Publish |>
            <| fh_Remaining := 18 |>) |>
        <| pk_TopicName := !"a/b/c" |>
        <| pk_Payload := !"hello mochi" |>) |>.

Definition case_TPublishMqtt5 : TPacketCase :=
  TPacketCase0
    <| tc_Case := TPublishMqtt5 |>
    <| tc_Desc := !"mqtt v5" |>
    <| tc_Primary := true |>
    <| tc_RawBytes := [Z.shiftl Publish 4; 77]
        ++ [0; 5]
        ++ !"a/b/c"
        ++ [58]
        ++ [1; 1]
        ++ [2; 0; 0; 0; 2]
        ++ [3; 0; 10] ++ !"text/plain"
        ++ [8; 0; 5] ++ !"a/b/c"
        ++ [9; 0; 4] ++ !"data"
        ++ [11; 202; 212; 19]
        ++ [35; 0; 3]
        ++ [38]
        ++ [0; 5] ++ !"hello"
        ++ [0; 6; 228; 184; 150; 231; 149; 140]
        ++ !"hello mochi" |>
    <| tc_Packet := Some (Packet0
        <| pk_ProtocolVersion := 5 |>
        <| pk_FixedHeader := (FixedHeader0
            <| fh_Type := Publish |>
            <| fh_Remaining := 77 |>) |>
        <| pk_TopicName := !"a/b/c" |>
        <| pk_Properties := (Properties0
            <| pr_PayloadFormat := 1 |>
            <| pr_PayloadFormatFlag := true |>
            <| pr_MessageExpiryInterval := 2 |>
            <| pr_ContentType := !"text/plain" |>
            <| pr_ResponseTopic := !"a/b/c" |>
            <| pr_CorrelationData := !"data" |>
            <| pr_SubscriptionIdentifier := [322122] |>
            <| pr_TopicAlias := 3 |>
            <| pr_TopicAliasFlag := true |>
            <| pr_User := [mkUserProperty !"hello" !"世界"] |>) |>
        <| pk_Payload := !"hello mochi" |>) |>.

Definition case_TPublishBasicTopicAliasOnly : TPacketCase :=
  TPacketCase0
    <| tc_Case := TPublishBasicTopicAliasOnly |>
    <| tc_Desc := !"mqtt v5 topic alias only" |>
    <| tc_Primary := true |>
    <| tc_RawBytes := [Z.shiftl Publish 4; 17]
        ++ [0; 0]
        ++ [3]
        ++ [35; 0; 1]
        ++ !"hello mochi" |>
    <| tc_Packet := Some (Packet0
        <| pk_ProtocolVersion := 5 |>
        <| pk_FixedHeader := (FixedHeader0
            <| fh_Type := Publish |>
            <| fh_Remaining := 17 |>) |>
        <| pk_Properties := (Properties0
            <| pr_TopicAlias := 1 |>
            <| pr_TopicAliasFlag := true |>) |>
        <| pk_Payload := !"hello mochi" |>) |>.

Definition case_TPublishBasicMqtt5 : TPacketCase :=
  TPacketCase0
    <| tc_Case := TPublishBasicMqtt5 |>
    <| tc_Desc := !"mqtt basic v5" |>
    <| tc_Primary := true |>
    <| tc_RawBytes := [Z.shiftl Publish 4; 22]
        ++ [0; 5]
        ++ !"a/b/c"
        ++ [3]
        ++ [35; 0; 1]
        ++ !"hello mochi" |>
    <| tc_Packet := Some (Packet0
        <| pk_ProtocolVersion := 5 |>
        <| pk_FixedHeader := (FixedHeader0
            <| fh_Type := Publish |>
            <| fh_Remaining := 22 |>) |>
        <| pk_TopicName := !"a/b/c" |>
        <| pk_Properties := (Properties0
            <| pr_TopicAlias := 1 |>
            <| pr_TopicAliasFlag := true |>) |>
        <| pk_Payload := !"hello mochi" |>) |>.

Definition case_TPublishQos1 : TPacketCase :=
  TPacketCase0
    <| tc_Case := TPublishQos1 |>
    <| tc_Desc := !"qos:1, packet id" |>
    <| tc_Primary := true |>
    <| tc_RawBytes := [Z.lor (Z.shiftl Publish 4) (Z.shiftl 1 1); 20]
        ++ [0; 5]
        ++ !"a/b/c"
        ++ [0; 7]
        ++ !"hello mochi" |>
    <| tc_Packet := Some (Packet0
        <| pk_FixedHeader := (FixedHeader0
            <| fh_Type := Publish |>
            <| fh_Qos := 1 |>
            <| fh_Remaining := 20 |>) |>
        <| pk_TopicName := !"a/b/c" |>
        <| pk_Payload := !"hello mochi" |>
        <| pk_PacketID := 7 |>) |>.

Definition case_TPublishQos1Mqtt5 : TPacketCase :=
  TPacketCase0
    <| tc_Case := TPublishQos1Mqtt5 |>
    <| tc_Desc := !"mqtt v5" |>
    <| tc_Primary := true |>
    <| tc_RawBytes := [Z.lor (Z.shiftl Publish 4) (Z.shiftl 1 1); 37]
        ++ [0; 5]
        ++ !"a/b/c"
        ++ [0; 7]
        ++ [16]
        ++ [38]
        ++ [0; 5] ++ !"hello"
        ++ [0; 6; 228; 184; 150; 231; 149; 140]
        ++ !"hello mochi" |>
    <| tc_Packet := Some (Packet0
        <| pk_ProtocolVersion := 5 |>
        <| pk_FixedHeader := (FixedHeader0
            <| fh_Type := Publish |>
            <| fh_Remaining := 37 |>
            <| fh_Qos := 1 |>) |>
        <| pk_PacketID := 7 |>
        <| pk_TopicName := !"a/b/c" |>
        <| pk_Properties := (Properties0
            <| pr_User := [mkUserProperty !"hello" !"世界"] |>) |>
        <| pk_Payload := !"hello mochi" |>) |>.

Definition case_TPublishQos1Dup : TPacketCase :=
  TPacketCase0
    <| tc_Case := TPublishQos1Dup |>
    <| tc_Desc := !"qos:1, dup:true, packet id" |>
    <| tc_Primary := true |>
    <| tc_RawBytes := [Z.lor (Z.lor (Z.shiftl Publish 4) 2) 8; 20]
        ++ [0; 5]
        ++ !"a/b/c"
        ++ [0; 7]
        ++ !"hello mochi" |>
    <| tc_Packet := Some (Packet0
        <| pk_FixedHeader := (FixedHeader0
            <| fh_Type := Publish |>
            <| fh_Qos := 1 |>
            <| fh_Remaining := 20 |>
            <| fh_Dup := true |>) |>
        <| pk_TopicName := !"a/b/c" |>
        <| pk_Payload := !"hello mochi" |>
        <| pk_PacketID := 7 |>) |>.

Definition case_TPublishQos1NoPayload : TPacketCase :=
  TPacketCase0
    <| tc_Case := TPublishQos1NoPayload |>
    <| tc_Desc := !"qos:1, packet id, no payload" |>
    <| tc_Primary := true |>
    <| tc_RawBytes := [Z.lor (Z.shiftl Publish 4) 2; 9]
        ++ [0; 5]
        ++ !"y/u/i"
        ++ [0; 7] |>
    <| tc_Packet := Some (Packet0
        <| pk_FixedHeader := (FixedHeader0
            <| fh_Type := Publish |>
            <| fh_Qos := 1 |>
            <| fh_Remaining := 9 |>) |>
        <| pk_TopicName := !"y/u/i" |>
        <| pk_PacketID := 7 |>
        <| pk_Payload := [] |>) |>.

Definition case_TPublishQos2 : TPacketCase :=
  TPacketCase0
    <| tc_Case := TPublishQos2 |>
    <| tc_Desc := !"qos:2, packet id" |>
    <| tc_Primary := true |>
    <| tc_RawBytes := [Z.lor (Z.shiftl Publish 4) (Z.shiftl 2 1); 14]
        ++ [0; 5]
        ++ !"a/b/c"
        ++ [0; 7]
        ++ !"hello" |>
    <| tc_Packet := Some (Packet0
        <| pk_FixedHeader := (FixedHeader0
            <| fh_Type := Publish |>
            <| fh_Qos := 2 |>
            <| fh_Remaining := 14 |>) |>
        <| pk_TopicName := !"a/b/c" |>
        <| pk_Payload := !"hello" |>
        <| pk_PacketID := 7 |>) |>.

Definition case_TPublishQos2Mqtt5 : TPacketCase :=
  TPacketCase0
    <| tc_Case := TPublishQos2Mqtt5 |>
    <| tc_Desc := !"mqtt v5" |>
    <| tc_Primary := true |>
    <| tc_RawBytes := [Z.lor (Z.shiftl Publish 4) (Z.shiftl 2 1); 37]
        ++ [0; 5]
        ++ !"a/b/c"
        ++ [0; 7]
        ++ [16]
        ++ [38]
        ++ [0; 5] ++ !"hello"
        ++ [0; 6; 228; 184; 150; 231; 149; 140]
        ++ !"hello mochi" |>
    <| tc_Packet := Some (Packet0
        <| pk_ProtocolVersion := 5 |>
        <| pk_FixedHeader := (FixedHeader0
            <| fh_Type := Publish |>
            <| fh_Remaining := 37 |>
            <| fh_Qos := 2 |>) |>
        <| pk_PacketID := 7 |>
        <| pk_TopicName := !"a/b/c" |>
        <| pk_Properties := (Properties0
            <| pr_User := [mkUserProperty !"hello" !"世界"] |>) |>
        <| pk_Payload := !"hello mochi" |>) |>.

Definition case_TPublishSubscriberIdentifier : TPacketCase :=
  TPacketCase0
    <| tc_Case := TPublishSubscriberIdentifier |>
    <| tc_Desc := !"subscription identifiers" |>
    <| tc_Primary := true |>
    <| tc_RawBytes := [Z.shiftl Publish 4; 23]
        ++ [0; 5]
        ++ !"a/b/c"
        ++ [4]
        ++ [11; 2]
        ++ [11; 3]
        ++ !"hello mochi" |>
    <| tc_Packet := Some (Packet0
        <| pk_ProtocolVersion := 5 |>
        <| pk_FixedHeader := (FixedHeader0
            <| fh_Type := Publish |>
            <| fh_Remaining := 23 |>) |>
        <| pk_TopicName := !"a/b/c" |>
        <| pk_Properties := (Properties0
            <| pr_SubscriptionIdentifier := [2; 3] |>) |>
        <| pk_Payload := !"hello mochi" |>) |>.

Definition case_TPublishQos2Upgraded : TPacketCase :=
  TPacketCase0
    <| tc_Case := TPublishQos2Upgraded |>
    <| tc_Desc := !"qos:2, upgraded from publish to qos2 sub" |>
    <| tc_Primary := true |>
    <| tc_RawBytes := [Z.lor (Z.shiftl Publish 4) (Z.shiftl 2 1); 20]
        ++ [0; 5]
        ++ !"a/b/c"
        ++ [0; 1]
        ++ !"hello mochi" |>
    <| tc_Packet := Some (Packet0
        <| pk_FixedHeader := (FixedHeader0
            <| fh_Type := Publish |>
            <| fh_Qos := 2 |>
            <| fh_Remaining := 18 |>) |>
        <| pk_TopicName := !"a/b/c" |>
        <| pk_Payload := !"hello mochi" |>
        <| pk_PacketID := 1 |>) |>.

Definition case_TPublishRetain : TPacketCase :=
  TPacketCase0
    <| tc_Case := TPublishRetain |>
    <| tc_Desc := !"retain" |>
    <| tc_RawBytes := [Z.lor (Z.shiftl Publish 4) (Z.shiftl 1 0); 18]
        ++ [0; 5]
        ++ !"a/b/c"
        ++ !"hello mochi" |>
    <| tc_Packet := Some (Packet0
        <| pk_FixedHeader := (FixedHeader0
            <| fh_Type := Publish |>
            <| fh_Retain := true |>) |>
        <| pk_TopicName := !"a/b/c" |>
        <| pk_Payload := !"hello mochi" |>) |>.

Definition case_TPublishRetainMqtt5 : TPacketCase :=
  TPacketCase0
    <| tc_Case := TPublishRetainMqtt5 |>
    <| tc_Desc := !"retain mqtt5" |>
    <| tc_RawBytes := [Z.lor (Z.shiftl Publish 4) (Z.shiftl 1 0); 19]
        ++ [0; 5]
        ++ !"a/b/c"
        ++ [0]
        ++ !"hello mochi" |>
    <| tc_Packet := Some (Packet0
        <| pk_ProtocolVersion := 5 |>
        <| pk_FixedHeader := (FixedHeader0
            <| fh_Type := Publish |>
            <| fh_Retain := true |>
            <| fh_Remaining := 19 |>) |>
        <| pk_TopicName := !"a/b/c" |>
        <| pk_Properties := Properties0 |>
        <| pk_Payload := !"hello mochi" |>) |>.

Definition case_TPublishDup : TPacketCase :=
  TPacketCase0
    <| tc_Case := TPublishDup |>
    <| tc_Desc := !"dup" |>
    <| tc_RawBytes := [Z.lor (Z.shiftl Publish 4) 8; 10]
        ++ [0; 3]
        ++ !"a/b"
        ++ !"hello" |>
    <| tc_Packet := Some (Packet0
        <| pk_FixedHeader := (FixedHeader0
            <| fh_Type := Publish |>
            <| fh_Dup := true |>) |>
        <| pk_TopicName := !"a/b" |>
        <| pk_Payload := !"hello" |>) |>.

Definition case_TPublishMalTopicName : TPacketCase :=
  TPacketCase0
    <| tc_Case := TPublishMalTopicName |>
    <| tc_Desc := !"malformed topic name" |>
    <| tc_Group := !"decode" |>
    <| tc_FailFirst := Some ErrMalformedTopic |>
    <| tc_RawBytes := [Z.shiftl Publish 4; 7]
        ++ [0; 5]
        ++ !"a/"
        ++ [0; 11] |>.

Definition case_TPublishMalPacketID : TPacketCase :=
  TPacketCase0
    <| tc_Case := TPublishMalPacketID |>
    <| tc_Desc := !"malformed packet id" |>
    <| tc_Group := !"decode" |>
    <| tc_FailFirst := Some ErrMalformedPacketID |>
    <| tc_RawBytes := [Z.lor (Z.shiftl Publish 4) 2; 7]
        ++ [0; 5]
        ++ !"x/y/z"
        ++ [0] |>.

Definition case_TPublishMalProperties : TPacketCase :=
  TPacketCase0
    <| tc_Case := TPublishMalProperties |>
    <| tc_Desc := !"malformed properties" |>
    <| tc_Group := !"decode" |>
    <| tc_FailFirst := Some ErrMalformedProperties |>
    <| tc_RawBytes := [Z.shiftl Publish 4; 35]
        ++ [0; 5]
        ++ !"a/b/c"
        ++ [16] |>
    <| tc_Packet := Some (Packet0
        <| pk_ProtocolVersion := 5 |>) |>.

Definition case_TPublishCopyBasic : TPacketCase :=
  TPacketCase0
    <| tc_Case := TPublishCopyBasic |>
    <| tc_Desc := !"basic copyable" |>
    <| tc_Group := !"copy" |>
    <| tc_RawBytes := [Z.shiftl Publish 4; 18]
        ++ [0; 5]
        ++ !"z/e/n"
        ++ !"mochi mochi" |>
    <| tc_Packet := Some (Packet0
        <| pk_FixedHeader := (FixedHeader0
            <| fh_Type := Publish |>
            <| fh_Dup := true |>
            <| fh_Retain := true |>
            <| fh_Qos := 1 |>) |>
        <| pk_TopicName := !"z/e/n" |>
        <| pk_Payload := !"mochi mochi" |>) |>.

Definition case_TPublishSpecQos0NoPacketID : TPacketCase :=
  TPacketCase0
    <| tc_Case := TPublishSpecQos0NoPacketID |>
    <| tc_Desc := !"packet id must be 0 if qos is 0 (a)" |>
    <| tc_Group := !"encode" |>
    <| tc_RawBytes := [Z.shiftl Publish 4; 12]
        ++ [0; 5]
        ++ !"a/b/c"
        ++ [0; 3]
        ++ !"hello" |>
    <| tc_ActualBytes := [Z.shiftl Publish 4; 12]
        ++ [0; 5]
        ++ !"a/b/c"
        ++ !"hello" |>
    <| tc_Packet := Some (Packet0
        <| pk_FixedHeader := (FixedHeader0
            <| fh_Type := Publish |>
            <| fh_Remaining := 12 |>) |>
        <| pk_TopicName := !"a/b/c" |>
        <| pk_Payload := !"hello" |>) |>.

Definition case_TPublishSpecQosMustPacketID : TPacketCase :=
  TPacketCase0
    <| tc_Case := TPublishSpecQosMustPacketID |>
    <| tc_Desc := !"no packet id with qos > 0" |>
    <| tc_Group := !"encode" |>
    <| tc_Expect := Some ErrProtocolViolationNoPacketID |>
    <| tc_RawBytes := [Z.lor (Z.shiftl Publish 4) 2; 14]
        ++ [0; 5]
        ++ !"a/b/c"
        ++ [0; 0]
        ++ !"hello" |>
    <| tc_Packet := Some (Packet0
        <| pk_FixedHeader := (FixedHeader0
            <| fh_Type := Publish |>
            <| fh_Qos := 1 |>) |>
        <| pk_TopicName := !"a/b/c" |>
        <| pk_Payload := !"hello" |>
        <| pk_PacketID := 0 |>) |>.

Definition case_TPublishDropOversize : TPacketCase :=
  TPacketCase0
    <| tc_Case := TPublishDropOversize |>
    <| tc_Desc := !"drop oversized publish packet" |>
    <| tc_Group := !"encode" |>
    <| tc_FailFirst := Some ErrPacketTooLarge |>
    <| tc_RawBytes := [Z.shiftl Publish 4; 10]
        ++ [0; 3]
        ++ !"a/b"
        ++ !"hello" |>
    <| tc_Packet := Some (Packet0
        <| pk_Mods := (Mods0
            <| mod_MaxSize := 2 |>) |>
        <| pk_FixedHeader := (FixedHeader0
            <| fh_Type := Publish |>) |>
        <| pk_TopicName := !"a/b" |>
        <| pk_Payload := !"hello" |>) |>.

Definition case_TPublishInvalidQos0NoPacketID : TPacketCase :=
  TPacketCase0
    <| tc_Case := TPublishInvalidQos0NoPacketID |>
    <| tc_Desc := !"packet id must be 0 if qos is 0 (b)" |>
    <| tc_Group := !"validate" |>
    <| tc_Expect := Some ErrProtocolViolationSurplusPacketID |>
    <| tc_Packet := Some (Packet0
        <| pk_FixedHeader := (FixedHeader0
            <| fh_Type := Publish |>
            <| fh_Remaining := 12 |>
            <| fh_Qos := 0 |>) |>
        <| pk_TopicName := !"a/b/c" |>
        <| pk_Payload := !"hello" |>
        <| pk_PacketID := 3 |>) |>.

Definition case_TPublishInvalidQosMustPacketID : TPacketCase :=
  TPacketCase0
    <| tc_Case := TPublishInvalidQosMustPacketID |>
    <| tc_Desc := !"no packet id with qos > 0" |>
    <| tc_Group := !"validate" |>
    <| tc_Expect := Some ErrProtocolViolationNoPacketID |>
    <| tc_Packet := Some (Packet0
        <| pk_FixedHeader := (FixedHeader0
            <| fh_Type := Publish |>
            <| fh_Qos := 1 |>) |>
        <| pk_PacketID := 0 |>) |>.

Definition case_TPublishInvalidSurplusSubID : TPacketCase :=
  TPacketCase0
    <| tc_Case := TPublishInvalidSurplusSubID |>
    <| tc_Desc := !"surplus subscription identifier" |>
    <| tc_Group := !"validate" |>
    <| tc_Expect := Some ErrProtocolViolationSurplusSubID |>
    <| tc_Packet := Some (Packet0
        <| pk_FixedHeader := (FixedHeader0
            <| fh_Type := Publish |>) |>
        <| pk_Properties := (Properties0
            <| pr_SubscriptionIdentifier := [1] |>) |>
        <| pk_TopicName := !"a/b" |>) |>.

Definition case_TPublishInvalidSurplusWildcard : TPacketCase :=
  TPacketCase0
    <| tc_Case := TPublishInvalidSurplusWildcard |>
    <| tc_Desc := !"topic contains wildcards" |>
    <| tc_Group := !"validate" |>
    <| tc_Expect := Some ErrProtocolViolationSurplusWildcard |>
    <| tc_Packet := Some (Packet0
        <| pk_FixedHeader := (FixedHeader0
            <| fh_Type := Publish |>) |>
        <| pk_TopicName := !"a/+" |>) |>.

Definition case_TPublishInvalidSurplusWildcard2 : TPacketCase :=
  TPacketCase0
    <| tc_Case := TPublishInvalidSurplusWildcard2 |>
    <| tc_Desc := !"topic contains wildcards 2" |>
    <| tc_Group := !"validate" |>
    <| tc_Expect := Some ErrProtocolViolationSurplusWildcard |>
    <| tc_Packet := Some (Packet0
        <| pk_FixedHeader := (FixedHeader0
            <| fh_Type := Publish |>) |>
        <| pk_TopicName := !"a/#" |>) |>.

Definition case_TPublishInvalidNoTopic : TPacketCase :=
  TPacketCase0
    <| tc_Case := TPublishInvalidNoTopic |>
    <| tc_Desc := !"no topic or alias specified" |>
    <| tc_Group := !"validate" |>
    <| tc_Expect := Some ErrProtocolViolationNoTopic |>
    <| tc_Packet := Some (Packet0
        <| pk_FixedHeader := (FixedHeader0
            <| fh_Type := Publish |>) |>) |>.

Definition case_TPublishInvalidExcessTopicAlias : TPacketCase :=
  TPacketCase0
    <| tc_Case := TPublishInvalidExcessTopicAlias |>
    <| tc_Desc := !"topic alias over maximum" |>
    <| tc_Group := !"validate" |>
    <| tc_Expect := Some ErrTopicAliasInvalid |>
    <| tc_Packet := Some (Packet0
        <| pk_FixedHeader := (FixedHeader0
            <| fh_Type := Publish |>) |>
        <| pk_Properties := (Properties0
            <| pr_TopicAlias := 1025 |>) |>
        <| pk_TopicName := !"a/b" |>) |>.

Definition case_TPublishInvalidTopicAlias : TPacketCase :=
  TPacketCase0
    <| tc_Case := TPublishInvalidTopicAlias |>
    <| tc_Desc := !"topic alias flag and no alias" |>
    <| tc_Group := !"validate" |>
    <| tc_Expect := Some ErrTopicAliasInvalid |>
    <| tc_Packet := Some (Packet0
        <| pk_FixedHeader := (FixedHeader0
            <| fh_Type := Publish |>) |>
        <| pk_Properties := (Properties0
            <| pr_TopicAliasFlag := true |>
            <| pr_TopicAlias := 0 |>) |>
        <| pk_TopicName := !"a/b/" |>) |>.

Definition case_TPublishSpecDenySysTopic : TPacketCase :=
  TPacketCase0
    <| tc_Case := TPublishSpecDenySysTopic |>
    <| tc_Desc := !"deny publishing to $SYS topics" |>
    <| tc_Group := !"validate" |>
    <| tc_Expect := Some CodeSuccess |>
    <| tc_Packet := Some (Packet0
        <| pk_FixedHeader := (FixedHeader0
            <| fh_Type := Publish |>) |>
        <| pk_TopicName := !"$SYS/any" |>
        <| pk_Payload := !"y" |>) |>
    <| tc_RawBytes := [Z.shiftl Publish 4; 11]
        ++ [0; 5]
        ++ !"$SYS/any"
        ++ !"y" |>.

Definition Publish_cases : TPacketCases :=
  [case_TPublishNoPayload; case_TPublishBasic; case_TPublishMqtt5;
   case_TPublishBasicTopicAliasOnly; case_TPublishBasicMqtt5; case_TPublishQos1;
   case_TPublishQos1Mqtt5; case_TPublishQos1Dup; case_TPublishQos1NoPayload; case_TPublishQos2;
   case_TPublishQos2Mqtt5; case_TPublishSubscriberIdentifier; case_TPublishQos2Upgraded;
   case_TPublishRetain; case_TPublishRetainMqtt5; case_TPublishDup; case_TPublishMalTopicName;
   case_TPublishMalPacketID; case_TPublishMalProperties; case_TPublishCopyBasic;
   case_TPublishSpecQos0NoPacketID; case_TPublishSpecQosMustPacketID;
   case_TPublishDropOversize; case_TPublishInvalidQos0NoPacketID;
   case_TPublishInvalidQosMustPacketID; case_TPublishInvalidSurplusSubID;
   case_TPublishInvalidSurplusWildcard; case_TPublishInvalidSurplusWildcard2;
   case_TPublishInvalidNoTopic; case_TPublishInvalidExcessTopicAlias;
   case_TPublishInvalidTopicAlias; case_TPublishSpecDenySysTopic].

(** ** [Puback] *)

Definition case_TPuback : TPacketCase :=
  TPacketCase0
    <| tc_Case := TPuback |>
    <| tc_Desc := !"puback" |>
    <| tc_Primary := true |>
    <| tc_RawBytes := [Z.shiftl Puback 4; 2]
        ++ [0; 7] |>
    <| tc_Packet := Some (Packet0
        <| pk_FixedHeader := (FixedHeader0
            <| fh_Type := Puback |>
            <| fh_Remaining := 2 |>) |>
        <| pk_PacketID := 7 |>) |>.

Definition case_TPubackMqtt5 : TPacketCase :=
  TPacketCase0
    <| tc_Case := TPubackMqtt5 |>
    <| tc_Desc := !"mqtt5" |>
    <| tc_Primary := true |>
    <| tc_RawBytes := [Z.shiftl Puback 4; 20]
        ++ [0; 7]
        ++ [Code_Code CodeGrantedQos0]
        ++ [16]
        ++ [38]
        ++ [0; 5] ++ !"hello"
        ++ [0; 6; 228; 184; 150; 231; 149; 140] |>
    <| tc_Packet := Some (Packet0
        <| pk_ProtocolVersion := 5 |>
        <| pk_FixedHeader := (FixedHeader0
            <| fh_Type := Puback |>
            <| fh_Remaining := 20 |>) |>
        <| pk_PacketID := 7 |>
        <| pk_ReasonCode := Code_Code CodeGrantedQos0 |>
        <| pk_Properties := (Properties0
            <| pr_User := [mkUserProperty !"hello" !"世界"] |>) |>) |>.

Definition case_TPubackMqtt5NotAuthorized : TPacketCase :=
  TPacketCase0
    <| tc_Case := TPubackMqtt5NotAuthorized |>
    <| tc_Desc := !"QOS 1 publish not authorized mqtt5" |>
    <| tc_Primary := true |>
    <| tc_RawBytes := [Z.shiftl Puback 4; 37]
        ++ [0; 7]
        ++ [Code_Code ErrNotAuthorized]
        ++ [33]
        ++ [31; 0; 14] ++ !"not au"
        ++ !"thorized"
        ++ [38]
        ++ [0; 5] ++ !"hello"
        ++ [0; 6; 228; 184; 150; 231; 149; 140] |>
    <| tc_Packet := Some (Packet0
        <| pk_ProtocolVersion := 5 |>
        <| pk_FixedHeader := (FixedHeader0
            <| fh_Type := Puback |>
            <| fh_Remaining := 31 |>) |>
        <| pk_PacketID := 7 |>
        <| pk_ReasonCode := Code_Code ErrNotAuthorized |>
        <| pk_Properties := (Properties0
            <| pr_ReasonString := Code_Reason ErrNotAuthorized |>
            <| pr_User := [mkUserProperty !"hello" !"世界"] |>) |>) |>.

Definition case_TPubackUnexpectedError : TPacketCase :=
  TPacketCase0
    <| tc_Case := TPubackUnexpectedError |>
    <| tc_Desc := !"unexpected error" |>
    <| tc_Group := !"decode" |>
    <| tc_RawBytes := [Z.shiftl Puback 4; 29]
        ++ [0; 7]
        ++ [Code_Code ErrPayloadFormatInvalid]
        ++ [25]
        ++ [31; 0; 22] ++ !"payload"
        ++ !" format"
        ++ !" invalid" |>
    <| tc_Packet := Some (Packet0
        <| pk_ProtocolVersion := 5 |>
        <| pk_FixedHeader := (FixedHeader0
            <| fh_Type := Puback |>
            <| fh_Remaining := 28 |>) |>
        <| pk_PacketID := 7 |>
        <| pk_ReasonCode := Code_Code ErrPayloadFormatInvalid |>
        <| pk_Properties := (Properties0
            <| pr_ReasonString := Code_Reason ErrPayloadFormatInvalid |>) |>) |>.

Definition case_TPubackMalPacketID : TPacketCase :=
  TPacketCase0
    <| tc_Case := TPubackMalPacketID |>
    <| tc_Desc := !"malformed packet id" |>
    <| tc_Group := !"decode" |>
    <| tc_FailFirst := Some ErrMalformedPacketID |>
    <| tc_RawBytes := [Z.shiftl Puback 4; 2]
        ++ [0] |>.

Definition case_TPubackMalProperties : TPacketCase :=
  TPacketCase0
    <| tc_Case := TPubackMalProperties |>
    <| tc_Desc := !"malformed properties" |>
    <| tc_Group := !"decode" |>
    <| tc_FailFirst := Some ErrMalformedProperties |>
    <| tc_RawBytes := [Z.shiftl Puback 4; 20]
        ++ [0; 7]
        ++ [Code_Code CodeGrantedQos0]
        ++ [16] |>
    <| tc_Packet := Some (Packet0
        <| pk_ProtocolVersion := 5 |>) |>.

Definition Puback_cases : TPacketCases :=
  [case_TPuback; case_TPubackMqtt5; case_TPubackMqtt5NotAuthorized;
   case_TPubackUnexpectedError; case_TPubackMalPacketID; case_TPubackMalProperties].

(** ** [Pubrec] *)

Definition case_TPubrec : TPacketCase :=
  TPacketCase0
    <| tc_Case := TPubrec |>
    <| tc_Desc := !"pubrec" |>
    <| tc_Primary := true |>
    <| tc_RawBytes := [Z.shiftl Pubrec 4; 2]
        ++ [0; 7] |>
    <| tc_Packet := Some (Packet0
        <| pk_FixedHeader := (FixedHeader0
            <| fh_Type := Pubrec |>
            <| fh_Remaining := 2 |>) |>
        <| pk_PacketID := 7 |>) |>.

Definition case_TPubrecMqtt5 : TPacketCase :=
  TPacketCase0
    <| tc_Case := TPubrecMqtt5 |>
    <| tc_Desc := !"pubrec mqtt5" |>
    <| tc_Primary := true |>
    <| tc_RawBytes := [Z.shiftl Pubrec 4; 20]
        ++ [0; 7]
        ++ [Code_Code CodeSuccess]
        ++ [16]
        ++ [38]
        ++ [0; 5] ++ !"hello"
        ++ [0; 6; 228; 184; 150; 231; 149; 140] |>
    <| tc_Packet := Some (Packet0
        <| pk_ProtocolVersion := 5 |>
        <| pk_FixedHeader := (FixedHeader0
            <| fh_Type := Pubrec |>
            <| fh_Remaining := 20 |>) |>
        <| pk_PacketID := 7 |>
        <| pk_ReasonCode := Code_Code CodeSuccess |>
        <| pk_Properties := (Properties0
            <| pr_User := [mkUserProperty !"hello" !"世界"] |>) |>) |>.

Definition case_TPubrecMqtt5IDInUse : TPacketCase :=
  TPacketCase0
    <| tc_Case := TPubrecMqtt5IDInUse |>
    <| tc_Desc := !"packet id in use mqtt5" |>
    <| tc_Primary := true |>
    <| tc_RawBytes := [Z.shiftl Pubrec 4; 47]
        ++ [0; 7]
        ++ [Code_Code ErrPacketIdentifierInUse]
        ++ [43]
        ++ [31; 0; 24] ++ !"packet"
        ++ !" identifier"
        ++ !" in"
        ++ !" use"
        ++ [38]
        ++ [0; 5] ++ !"hello"
        ++ [0; 6; 228; 184; 150; 231; 149; 140] |>
    <| tc_Packet := Some (Packet0
        <| pk_ProtocolVersion := 5 |>
        <| pk_FixedHeader := (FixedHeader0
            <| fh_Type := Pubrec |>
            <| fh_Remaining := 31 |>) |>
        <| pk_PacketID := 7 |>
        <| pk_ReasonCode := Code_Code ErrPacketIdentifierInUse |>
        <| pk_Properties := (Properties0
            <| pr_ReasonString := Code_Reason ErrPacketIdentifierInUse |>
            <| pr_User := [mkUserProperty !"hello" !"世界"] |>) |>) |>.

Definition case_TPubrecMqtt5NotAuthorized : TPacketCase :=
  TPacketCase0
    <| tc_Case := TPubrecMqtt5NotAuthorized |>
    <| tc_Desc := !"QOS 2 publish not authorized mqtt5" |>
    <| tc_Primary := true |>
    <| tc_RawBytes := [Z.shiftl Pubrec 4; 37]
        ++ [0; 7]
        ++ [Code_Code ErrNotAuthorized]
        ++ [33]
        ++ [31; 0; 14] ++ !"not au"
        ++ !"thorized"
        ++ [38]
        ++ [0; 5] ++ !"hello"
        ++ [0; 6; 228; 184; 150; 231; 149; 140] |>
    <| tc_Packet := Some (Packet0
        <| pk_ProtocolVersion := 5 |>
        <| pk_FixedHeader := (FixedHeader0
            <| fh_Type := Pubrec |>
            <| fh_Remaining := 31 |>) |>
        <| pk_PacketID := 7 |>
        <| pk_ReasonCode := Code_Code ErrNotAuthorized |>
        <| pk_Properties := (Properties0
            <| pr_ReasonString := Code_Reason ErrNotAuthorized |>
            <| pr_User := [mkUserProperty !"hello" !"世界"] |>) |>) |>.

Definition case_TPubrecMalReasonCode : TPacketCase :=
  TPacketCase0
    <| tc_Case := TPubrecMalReasonCode |>
    <| tc_Desc := !"malformed reason code" |>
    <| tc_Group := !"decode" |>
    <| tc_FailFirst := Some ErrMalformedReasonCode |>
    <| tc_RawBytes := [Z.shiftl Pubrec 4; 31]
        ++ [0; 7] |>
    <| tc_Packet := Some (Packet0
        <| pk_ProtocolVersion := 5 |>) |>.

Definition case_TPubrecInvalidReason : TPacketCase :=
  TPacketCase0
    <| tc_Case := TPubrecInvalidReason |>
    <| tc_Desc := !"invalid reason code" |>
    <| tc_Group := !"validate" |>
    <| tc_FailFirst := Some ErrProtocolViolationInvalidReason |>
    <| tc_Packet := Some (Packet0
        <| pk_FixedHeader := (FixedHeader0
            <| fh_Type := Pubrec |>) |>
        <| pk_PacketID := 7 |>
        <| pk_ReasonCode := Code_Code ErrConnectionRateExceeded |>) |>.

Definition case_TPubrecMalPacketID : TPacketCase :=
  TPacketCase0
    <| tc_Case := TPubrecMalPacketID |>
    <| tc_Desc := !"malformed packet id" |>
    <| tc_Group := !"decode" |>
    <| tc_FailFirst := Some ErrMalformedPacketID |>
    <| tc_RawBytes := [Z.shiftl Pubrec 4; 2]
        ++ [0] |>.

Definition case_TPubrecMalProperties : TPacketCase :=
  TPacketCase0
    <| tc_Case := TPubrecMalProperties |>
    <| tc_Desc := !"malformed properties" |>
    <| tc_Group := !"decode" |>
    <| tc_FailFirst := Some ErrMalformedProperties |>
    <| tc_RawBytes := [Z.shiftl Pubrec 4; 31]
        ++ [0; 7]
        ++ [Code_Code ErrPacketIdentifierInUse]
        ++ [27] |>
    <| tc_Packet := Some (Packet0
        <| pk_ProtocolVersion := 5 |>) |>.

Definition Pubrec_cases : TPacketCases :=
  [case_TPubrec; case_TPubrecMqtt5; case_TPubrecMqtt5IDInUse; case_TPubrecMqtt5NotAuthorized;
   case_TPubrecMalReasonCode; case_TPubrecInvalidReason; case_TPubrecMalPacketID;
   case_TPubrecMalProperties].

(** ** [Pubrel] *)

Definition case_TPubrel : TPacketCase :=
  TPacketCase0
    <| tc_Case := TPubrel |>
    <| tc_Desc := !"pubrel" |>
    <| tc_Primary := true |>
    <| tc_RawBytes := [Z.lor (Z.shiftl Pubrel 4) (Z.shiftl 1 1); 2]
        ++ [0; 7] |>
    <| tc_Packet := Some (Packet0
        <| pk_FixedHeader := (FixedHeader0
            <| fh_Type := Pubrel |>
            <| fh_Remaining := 2 |>
            <| fh_Qos := 1 |>) |>
        <| pk_PacketID := 7 |>) |>.

Definition case_TPubrelMqtt5 : TPacketCase :=
  TPacketCase0
    <| tc_Case := TPubrelMqtt5 |>
    <| tc_Desc := !"pubrel mqtt5" |>
    <| tc_Primary := true |>
    <| tc_RawBytes := [Z.lor (Z.shiftl Pubrel 4) (Z.shiftl 1 1); 20]
        ++ [0; 7]
        ++ [Code_Code CodeSuccess]
        ++ [16]
        ++ [38]
        ++ [0; 5] ++ !"hello"
        ++ [0; 6; 228; 184; 150; 231; 149; 140] |>
    <| tc_Packet := Some (Packet0
        <| pk_ProtocolVersion := 5 |>
        <| pk_FixedHeader := (FixedHeader0
            <| fh_Type := Pubrel |>
            <| fh_Remaining := 20 |>
            <| fh_Qos := 1 |>) |>
        <| pk_PacketID := 7 |>
        <| pk_ReasonCode := Code_Code CodeSuccess |>
        <| pk_Properties := (Properties0
            <| pr_User := [mkUserProperty !"hello" !"世界"] |>) |>) |>.

Definition case_TPubrelMqtt5AckNoPacket : TPacketCase :=
  TPacketCase0
    <| tc_Case := TPubrelMqtt5AckNoPacket |>
    <| tc_Desc := !"mqtt5 no packet id ack" |>
    <| tc_Primary := true |>
    <| tc_RawBytes := [Z.lor (Z.shiftl Pubrel 4) (Z.shiftl 1 1); 34]
        ++ [0; 7]
        ++ [Code_Code ErrPacketIdentifierNotFound]
        ++ [30]
        ++ [31; 0; to_u8 (len (Code_Reason ErrPacketIdentifierNotFound))]
        ++ Code_Reason ErrPacketIdentifierNotFound |>
    <| tc_Packet := Some (Packet0
        <| pk_ProtocolVersion := 5 |>
        <| pk_FixedHeader := (FixedHeader0
            <| fh_Type := Pubrel |>
            <| fh_Remaining := 34 |>
            <| fh_Qos := 1 |>) |>
        <| pk_PacketID := 7 |>
        <| pk_ReasonCode := Code_Code ErrPacketIdentifierNotFound |>
        <| pk_Properties := (Properties0
            <| pr_ReasonString := Code_Reason ErrPacketIdentifierNotFound |>) |>) |>.

Definition case_TPubrelInvalidReason : TPacketCase :=
  TPacketCase0
    <| tc_Case := TPubrelInvalidReason |>
    <| tc_Desc := !"invalid reason code" |>
    <| tc_Group := !"validate" |>
    <| tc_FailFirst := Some ErrProtocolViolationInvalidReason |>
    <| tc_Packet := Some (Packet0
        <| pk_FixedHeader := (FixedHeader0
            <| fh_Type := Pubrel |>) |>
        <| pk_PacketID := 7 |>
        <| pk_ReasonCode := Code_Code ErrConnectionRateExceeded |>) |>.

Definition case_TPubrelMalPacketID : TPacketCase :=
  TPacketCase0
    <| tc_Case := TPubrelMalPacketID |>
    <| tc_Desc := !"malformed packet id" |>
    <| tc_Group := !"decode" |>
    <| tc_FailFirst := Some ErrMalformedPacketID |>
    <| tc_RawBytes := [Z.shiftl Pubrel 4; 2]
        ++ [0] |>.

Definition case_TPubrelMalProperties : TPacketCase :=
  TPacketCase0
    <| tc_Case := TPubrelMalProperties |>
    <| tc_Desc := !"malformed properties" |>
    <| tc_Group := !"decode" |>
    <| tc_FailFirst := Some ErrMalformedProperties |>
    <| tc_RawBytes := [Z.lor (Z.shiftl Pubrel 4) (Z.shiftl 1 1); 20]
        ++ [0; 7]
        ++ [Code_Code CodeSuccess]
        ++ [16] |>
    <| tc_Packet := Some (Packet0
        <| pk_ProtocolVersion := 5 |>) |>.

Definition Pubrel_cases : TPacketCases :=
  [case_TPubrel; case_TPubrelMqtt5; case_TPubrelMqtt5AckNoPacket; case_TPubrelInvalidReason;
   case_TPubrelMalPacketID; case_TPubrelMalProperties].

(** ** [Pubcomp] *)

Definition case_TPubcomp : TPacketCase :=
  TPacketCase0
    <| tc_Case := TPubcomp |>
    <| tc_Desc := !"pubcomp" |>
    <| tc_Primary := true |>
    <| tc_RawBytes := [Z.shiftl Pubcomp 4; 2]
        ++ [0; 7] |>
    <| tc_Packet := Some (Packet0
        <| pk_FixedHeader := (FixedHeader0
            <| fh_Type := Pubcomp |>
            <| fh_Remaining := 2 |>) |>
        <| pk_PacketID := 7 |>) |>.

Definition case_TPubcompMqtt5 : TPacketCase :=
  TPacketCase0
    <| tc_Case := TPubcompMqtt5 |>
    <| tc_Desc := !"mqtt5" |>
    <| tc_Primary := true |>
    <| tc_RawBytes := [Z.shiftl Pubcomp 4; 20]
        ++ [0; 7]
        ++ [Code_Code CodeSuccess]
        ++ [16]
        ++ [38]
        ++ [0; 5] ++ !"hello"
        ++ [0; 6; 228; 184; 150; 231; 149; 140] |>
    <| tc_Packet := Some (Packet0
        <| pk_ProtocolVersion := 5 |>
        <| pk_FixedHeader := (FixedHeader0
            <| fh_Type := Pubcomp |>
            <| fh_Remaining := 20 |>) |>
        <| pk_PacketID := 7 |>
        <| pk_ReasonCode := Code_Code CodeSuccess |>
        <| pk_Properties := (Properties0
            <| pr_User := [mkUserProperty !"hello" !"世界"] |>) |>) |>.

Definition case_TPubcompMqtt5AckNoPacket : TPacketCase :=
  TPacketCase0
    <| tc_Case := TPubcompMqtt5AckNoPacket |>
    <| tc_Desc := !"mqtt5 no packet id ack" |>
    <| tc_Primary := true |>
    <| tc_RawBytes := [Z.shiftl Pubcomp 4; 34]
        ++ [0; 7]
        ++ [Code_Code ErrPacketIdentifierNotFound]
        ++ [30]
        ++ [31; 0; to_u8 (len (Code_Reason ErrPacketIdentifierNotFound))]
        ++ Code_Reason ErrPacketIdentifierNotFound |>
    <| tc_Packet := Some (Packet0
        <| pk_ProtocolVersion := 5 |>
        <| pk_FixedHeader := (FixedHeader0
            <| fh_Type := Pubcomp |>
            <| fh_Remaining := 34 |>) |>
        <| pk_PacketID := 7 |>
        <| pk_ReasonCode := Code_Code ErrPacketIdentifierNotFound |>
        <| pk_Properties := (Properties0
            <| pr_ReasonString := Code_Reason ErrPacketIdentifierNotFound |>) |>) |>.

Definition case_TPubcompInvalidReason : TPacketCase :=
  TPacketCase0
    <| tc_Case := TPubcompInvalidReason |>
    <| tc_Desc := !"invalid reason code" |>
    <| tc_Group := !"validate" |>
    <| tc_FailFirst := Some ErrProtocolViolationInvalidReason |>
    <| tc_Packet := Some (Packet0
        <| pk_FixedHeader := (FixedHeader0
            <| fh_Type := Pubcomp |>) |>
        <| pk_ReasonCode := Code_Code ErrConnectionRateExceeded |>) |>.

Definition case_TPubcompMalPacketID : TPacketCase :=
  TPacketCase0
    <| tc_Case := TPubcompMalPacketID |>
    <| tc_Desc := !"malformed packet id" |>
    <| tc_Group := !"decode" |>
    <| tc_FailFirst := Some ErrMalformedPacketID |>
    <| tc_RawBytes := [Z.shiftl Pubcomp 4; 2]
        ++ [0] |>.

Definition case_TPubcompMalProperties : TPacketCase :=
  TPacketCase0
    <| tc_Case := TPubcompMalProperties |>
    <| tc_Desc := !"malformed properties" |>
    <| tc_Group := !"decode" |>
    <| tc_FailFirst := Some ErrMalformedProperties |>
    <| tc_RawBytes := [Z.shiftl Pubcomp 4; 34]
        ++ [0; 7]
        ++ [Code_Code ErrPacketIdentifierNotFound]
        ++ [22] |>
    <| tc_Packet := Some (Packet0
        <| pk_ProtocolVersion := 5 |>) |>.

Definition Pubcomp_cases : TPacketCases :=
  [case_TPubcomp; case_TPubcompMqtt5; case_TPubcompMqtt5AckNoPacket;
   case_TPubcompInvalidReason; case_TPubcompMalPacketID; case_TPubcompMalProperties].
