(* ===== verification/SubscribeVectors.v ===== *)
(** * Test vectors of the other packet types (packets/tpackets.go)

    One definition per case of [TPacketData], in its order; a field the source
    leaves out keeps its zero value. A line of the source is a segment of the
    bytes, a run of characters a string. *)
From S2P Require Import Prelude Codes Codec FixedHeader Properties Packets Vectors.

(** ** [Subscribe] *)

Definition case_TSubscribe : TPacketCase :=
  TPacketCase0
    <| tc_Case := TSubscribe |>
    <| tc_Desc := !"subscribe" |>
    <| tc_Primary := true |>
    <| tc_RawBytes := [Z.lor (Z.shiftl Subscribe 4) (Z.shiftl 1 1); 10]
        ++ [0; 15]
        ++ [0; 5]
        ++ !"a/b/c"
        ++ [0] |>
    <| tc_Packet := Some (Packet0
        <| pk_FixedHeader := (FixedHeader0
            <| fh_Type := Subscribe |>
            <| fh_Remaining := 10 |>
            <| fh_Qos := 1 |>) |>
        <| pk_PacketID := 15 |>
        <| pk_Filters := [Subscription0
             <| sub_Filter := !"a/b/c" |>] |>) |>.

Definition case_TSubscribeMany : TPacketCase :=
  TPacketCase0
    <| tc_Case := TSubscribeMany |>
    <| tc_Desc := !"many" |>
    <| tc_Primary := true |>
    <| tc_RawBytes := [Z.lor (Z.shiftl Subscribe 4) (Z.shiftl 1 1); 30]
        ++ [0; 15]
        ++ [0; 3]
        ++ !"a/b"
        ++ [0]
        ++ [0; 11]
        ++ !"d/e/f/g/h/i"
        ++ [1]
        ++ [0; 5]
        ++ !"x/y/z"
        ++ [2] |>
    <| tc_Packet := Some (Packet0
        <| pk_FixedHeader := (FixedHeader0
            <| fh_Type := Subscribe |>
            <| fh_Remaining := 30 |>
            <| fh_Qos := 1 |>) |>
        <| pk_PacketID := 15 |>
        <| pk_Filters := [Subscription0
             <| sub_Filter := !"a/b" |>
             <| sub_Qos := 0 |>;
             Subscription0
             <| sub_Filter := !"d/e/f/g/h/i" |>
             <| sub_Qos := 1 |>;
             Subscription0
             <| sub_Filter := !"x/y/z" |>
             <| sub_Qos := 2 |>] |>) |>.

Definition case_TSubscribeMqtt5 : TPacketCase :=
  TPacketCase0
    <| tc_Case := TSubscribeMqtt5 |>
    <| tc_Desc := !"mqtt5" |>
    <| tc_Primary := true |>
    <| tc_RawBytes := [Z.lor (Z.shiftl Subscribe 4) (Z.shiftl 1 1); 31]
        ++ [0; 15]
        ++ [20]
        ++ [11; 202; 212; 19]
        ++ [38]
        ++ [0; 5] ++ !"hello"
        ++ [0; 6; 228; 184; 150; 231; 149; 140]
        ++ [0; 5] ++ !"a/b/c"
        ++ [46] |>
    <| tc_Packet := Some (Packet0
        <| pk_ProtocolVersion := 5 |>
        <| pk_FixedHeader := (FixedHeader0
            <| fh_Type := Subscribe |>
            <| fh_Remaining := 31 |>
            <| fh_Qos := 1 |>) |>
        <| pk_PacketID := 15 |>
        <| pk_Filters := [Subscription0
             <| sub_Filter := !"a/b/c" |>
             <| sub_Qos := 2 |>
             <| sub_NoLocal := true |>
             <| sub_RetainAsPublished := true |>
             <| sub_RetainHandling := 2 |>
             <| sub_Identifier := 322122 |>] |>
        <| pk_Properties := (Properties0
            <| pr_SubscriptionIdentifier := [322122] |>
            <| pr_User := [mkUserProperty !"hello" !"世界"] |>) |>) |>.

Definition case_TSubscribeRetainHandling1 : TPacketCase :=
  TPacketCase0
    <| tc_Case := TSubscribeRetainHandling1 |>
    <| tc_Desc := !"retain handling 1" |>
    <| tc_Primary := true |>
    <| tc_RawBytes := [Z.lor (Z.shiftl Subscribe 4) (Z.shiftl 1 1); 11]
        ++ [0; 15]
        ++ [0]
        ++ [0; 5]
        ++ !"a/b/c"
        ++ [Z.lor 0 (Z.shiftl 1 4)] |>
    <| tc_Packet := Some (Packet0
        <| pk_ProtocolVersion := 5 |>
        <| pk_FixedHeader := (FixedHeader0
            <| fh_Type := Subscribe |>
            <| fh_Remaining := 11 |>
            <| fh_Qos := 1 |>) |>
        <| pk_PacketID := 15 |>
        <| pk_Filters := [Subscription0
             <| sub_Filter := !"a/b/c" |>
             <| sub_RetainHandling := 1 |>] |>) |>.

Definition case_TSubscribeRetainHandling2 : TPacketCase :=
  TPacketCase0
    <| tc_Case := TSubscribeRetainHandling2 |>
    <| tc_Desc := !"retain handling 2" |>
    <| tc_Primary := true |>
    <| tc_RawBytes := [Z.lor (Z.shiftl Subscribe 4) (Z.shiftl 1 1); 11]
        ++ [0; 15]
        ++ [0]
        ++ [0; 5]
        ++ !"a/b/c"
        ++ [Z.lor 0 (Z.shiftl 2 4)] |>
    <| tc_Packet := Some (Packet0
        <| pk_ProtocolVersion := 5 |>
        <| pk_FixedHeader := (FixedHeader0
            <| fh_Type := Subscribe |>
            <| fh_Remaining := 11 |>
            <| fh_Qos := 1 |>) |>
        <| pk_PacketID := 15 |>
        <| pk_Filters := [Subscription0
             <| sub_Filter := !"a/b/c" |>
             <| sub_RetainHandling := 2 |>] |>) |>.

Definition case_TSubscribeRetainAsPublished : TPacketCase :=
  TPacketCase0
    <| tc_Case := TSubscribeRetainAsPublished |>
    <| tc_Desc := !"retain as published" |>
    <| tc_Primary := true |>
    <| tc_RawBytes := [Z.lor (Z.shiftl Subscribe 4) (Z.shiftl 1 1); 11]
        ++ [0; 15]
        ++ [0]
        ++ [0; 5]
        ++ !"a/b/c"
        ++ [Z.lor 0 (Z.shiftl 1 3)] |>
    <| tc_Packet := Some (Packet0
        <| pk_ProtocolVersion := 5 |>
        <| pk_FixedHeader := (FixedHeader0
            <| fh_Type := Subscribe |>
            <| fh_Remaining := 11 |>
            <| fh_Qos := 1 |>) |>
        <| pk_PacketID := 15 |>
        <| pk_Filters := [Subscription0
             <| sub_Filter := !"a/b/c" |>
             <| sub_RetainAsPublished := true |>] |>) |>.

Definition case_TSubscribeInvalidFilter : TPacketCase :=
  TPacketCase0
    <| tc_Case := TSubscribeInvalidFilter |>
    <| tc_Desc := !"invalid filter" |>
    <| tc_Group := !"reference" |>
    <| tc_Packet := Some (Packet0
        <| pk_FixedHeader := (FixedHeader0
            <| fh_Type := Subscribe |>
            <| fh_Qos := 1 |>) |>
        <| pk_PacketID := 15 |>
        <| pk_Filters := [Subscription0
             <| sub_Filter := !"$SHARE/#" |>
             <| sub_Identifier := 5 |>] |>) |>.

Definition case_TSubscribeInvalidSharedNoLocal : TPacketCase :=
  TPacketCase0
    <| tc_Case := TSubscribeInvalidSharedNoLocal |>
    <| tc_Desc := !"shared and no local" |>
    <| tc_Group := !"reference" |>
    <| tc_Packet := Some (Packet0
        <| pk_FixedHeader := (FixedHeader0
            <| fh_Type := Subscribe |>
            <| fh_Qos := 1 |>) |>
        <| pk_PacketID := 15 |>
        <| pk_Filters := [Subscription0
             <| sub_Filter := !"$SHARE/tmp/a/b/c" |>
             <| sub_Identifier := 5 |>
             <| sub_NoLocal := true |>] |>) |>.

Definition case_TSubscribeMalPacketID : TPacketCase :=
  TPacketCase0
    <| tc_Case := TSubscribeMalPacketID |>
    <| tc_Desc := !"malformed packet id" |>
    <| tc_Group := !"decode" |>
    <| tc_FailFirst := Some ErrMalformedPacketID |>
    <| tc_RawBytes := [Z.lor (Z.shiftl Subscribe 4) (Z.shiftl 1 1); 2]
        ++ [0] |>.

Definition case_TSubscribeMalTopic : TPacketCase :=
  TPacketCase0
    <| tc_Case := TSubscribeMalTopic |>
    <| tc_Desc := !"malformed topic" |>
    <| tc_Group := !"decode" |>
    <| tc_FailFirst := Some ErrMalformedTopic |>
    <| tc_RawBytes := [Z.lor (Z.shiftl Subscribe 4) (Z.shiftl 1 1); 2]
        ++ [0; 21]
        ++ [0; 3]
        ++ !"a/" |>.

Definition case_TSubscribeMalQos : TPacketCase :=
  TPacketCase0
    <| tc_Case := TSubscribeMalQos |>
    <| tc_Desc := !"malformed subscribe - qos" |>
    <| tc_Group := !"decode" |>
    <| tc_FailFirst := Some ErrMalformedQos |>
    <| tc_RawBytes := [Z.lor (Z.shiftl Subscribe 4) (Z.shiftl 1 1); 2]
        ++ [0; 22]
        ++ [0; 3]
        ++ !"j/b" |>.

Definition case_TSubscribeMalQosRange : TPacketCase :=
  TPacketCase0
    <| tc_Case := TSubscribeMalQosRange |>
    <| tc_Desc := !"malformed qos out of range" |>
    <| tc_Group := !"decode" |>
    <| tc_FailFirst := Some ErrProtocolViolationQosOutOfRange |>
    <| tc_RawBytes := [Z.lor (Z.shiftl Subscribe 4) (Z.shiftl 1 1); 2]
        ++ [0; 22]
        ++ [0; 3]
        ++ !"c/d"
        ++ [5] |>.

Definition case_TSubscribeMalProperties : TPacketCase :=
  TPacketCase0
    <| tc_Case := TSubscribeMalProperties |>
    <| tc_Desc := !"malformed properties" |>
    <| tc_Group := !"decode" |>
    <| tc_FailFirst := Some ErrMalformedProperties |>
    <| tc_RawBytes := [Z.shiftl Subscribe 4; 11]
        ++ [0; 15]
        ++ [4] |>
    <| tc_Packet := Some (Packet0
        <| pk_ProtocolVersion := 5 |>) |>.

Definition case_TSubscribeInvalidQosMustPacketID : TPacketCase :=
  TPacketCase0
    <| tc_Case := TSubscribeInvalidQosMustPacketID |>
    <| tc_Desc := !"no packet id with qos > 0" |>
    <| tc_Group := !"validate" |>
    <| tc_Expect := Some ErrProtocolViolationNoPacketID |>
    <| tc_Packet := Some (Packet0
        <| pk_FixedHeader := (FixedHeader0
            <| fh_Type := Subscribe |>
            <| fh_Qos := 1 |>) |>
        <| pk_PacketID := 0 |>
        <| pk_Filters := [Subscription0
             <| sub_Filter := !"a/b" |>] |>) |>.

Definition case_TSubscribeInvalidNoFilters : TPacketCase :=
  TPacketCase0
    <| tc_Case := TSubscribeInvalidNoFilters |>
    <| tc_Desc := !"no filters" |>
    <| tc_Group := !"validate" |>
    <| tc_Expect := Some ErrProtocolViolationNoFilters |>
    <| tc_Packet := Some (Packet0
        <| pk_FixedHeader := (FixedHeader0
            <| fh_Type := Subscribe |>
            <| fh_Qos := 1 |>) |>
        <| pk_PacketID := 2 |>) |>.

Definition case_TSubscribeInvalidIdentifierOversize : TPacketCase :=
  TPacketCase0
    <| tc_Case := TSubscribeInvalidIdentifierOversize |>
    <| tc_Desc := !"oversize identifier" |>
    <| tc_Group := !"validate" |>
    <| tc_Expect := Some ErrProtocolViolationOversizeSubID |>
    <| tc_Packet := Some (Packet0
        <| pk_FixedHeader := (FixedHeader0
            <| fh_Type := Subscribe |>
            <| fh_Qos := 1 |>) |>
        <| pk_PacketID := 2 |>
        <| pk_Filters := [Subscription0
             <| sub_Filter := !"a/b" |>
             <| sub_Identifier := 5 |>;
             Subscription0
             <| sub_Filter := !"d/f" |>
             <| sub_Identifier := 268435456 |>] |>) |>.

Definition case_TSubscribeSpecQosMustPacketID : TPacketCase :=
  TPacketCase0
    <| tc_Case := TSubscribeSpecQosMustPacketID |>
    <| tc_Desc := !"no packet id with qos > 0" |>
    <| tc_Group := !"encode" |>
    <| tc_Expect := Some ErrProtocolViolationNoPacketID |>
    <| tc_RawBytes := [Z.lor (Z.shiftl Subscribe 4) (Z.shiftl 1 1); 10]
        ++ [0; 0]
        ++ [0; 5]
        ++ !"a/b/c"
        ++ [1] |>
    <| tc_Packet := Some (Packet0
        <| pk_FixedHeader := (FixedHeader0
            <| fh_Type := Subscribe |>
            <| fh_Qos := 1 |>
            <| fh_Remaining := 10 |>) |>
        <| pk_Filters := [Subscription0
             <| sub_Filter := !"a/b/c" |>
             <| sub_Qos := 1 |>] |>
        <| pk_PacketID := 0 |>) |>.

Definition Subscribe_cases : TPacketCases :=
  [case_TSubscribe; case_TSubscribeMany; case_TSubscribeMqtt5; case_TSubscribeRetainHandling1;
   case_TSubscribeRetainHandling2; case_TSubscribeRetainAsPublished;
   case_TSubscribeInvalidFilter; case_TSubscribeInvalidSharedNoLocal;
   case_TSubscribeMalPacketID; case_TSubscribeMalTopic; case_TSubscribeMalQos;
   case_TSubscribeMalQosRange; case_TSubscribeMalProperties;
   case_TSubscribeInvalidQosMustPacketID; case_TSubscribeInvalidNoFilters;
   case_TSubscribeInvalidIdentifierOversize; case_TSubscribeSpecQosMustPacketID].

(** ** [Suback] *)

Definition case_TSuback : TPacketCase :=
  TPacketCase0
    <| tc_Case := TSuback |>
    <| tc_Desc := !"suback" |>
    <| tc_Primary := true |>
    <| tc_RawBytes := [Z.shiftl Suback 4; 3]
        ++ [0; 15]
        ++ [0] |>
    <| tc_Packet := Some (Packet0
        <| pk_FixedHeader := (FixedHeader0
            <| fh_Type := Suback |>
            <| fh_Remaining := 3 |>) |>
        <| pk_PacketID := 15 |>
        <| pk_ReasonCodes := [0] |>) |>.

Definition case_TSubackMany : TPacketCase :=
  TPacketCase0
    <| tc_Case := TSubackMany |>
    <| tc_Desc := !"many" |>
    <| tc_Primary := true |>
    <| tc_RawBytes := [Z.shiftl Suback 4; 6]
        ++ [0; 15]
        ++ [0]
        ++ [1]
        ++ [2]
        ++ [128] |>
    <| tc_Packet := Some (Packet0
        <| pk_FixedHeader := (FixedHeader0
            <| fh_Type := Suback |>
            <| fh_Remaining := 6 |>) |>
        <| pk_PacketID := 15 |>
        <| pk_ReasonCodes := [0; 1; 2; 128] |>) |>.

Definition case_TSubackDeny : TPacketCase :=
  TPacketCase0
    <| tc_Case := TSubackDeny |>
    <| tc_Desc := !"deny mqtt5" |>
    <| tc_Primary := true |>
    <| tc_RawBytes := [Z.shiftl Suback 4; 4]
        ++ [0; 15]
        ++ [0]
        ++ [Code_Code ErrNotAuthorized] |>
    <| tc_Packet := Some (Packet0
        <| pk_ProtocolVersion := 5 |>
        <| pk_FixedHeader := (FixedHeader0
            <| fh_Type := Suback |>
            <| fh_Remaining := 4 |>) |>
        <| pk_PacketID := 15 |>
        <| pk_ReasonCodes := [Code_Code ErrNotAuthorized] |>) |>.

Definition case_TSubackUnspecifiedError : TPacketCase :=
  TPacketCase0
    <| tc_Case := TSubackUnspecifiedError |>
    <| tc_Desc := !"unspecified error" |>
    <| tc_Primary := true |>
    <| tc_RawBytes := [Z.shiftl Suback 4; 3]
        ++ [0; 15]
        ++ [Code_Code ErrUnspecifiedError] |>
    <| tc_Packet := Some (Packet0
        <| pk_FixedHeader := (FixedHeader0
            <| fh_Type := Suback |>
            <| fh_Remaining := 3 |>) |>
        <| pk_PacketID := 15 |>
        <| pk_ReasonCodes := [Code_Code ErrUnspecifiedError] |>) |>.

Definition case_TSubackUnspecifiedErrorMqtt5 : TPacketCase :=
  TPacketCase0
    <| tc_Case := TSubackUnspecifiedErrorMqtt5 |>
    <| tc_Desc := !"unspecified error mqtt5" |>
    <| tc_Primary := true |>
    <| tc_RawBytes := [Z.shiftl Suback 4; 4]
        ++ [0; 15]
        ++ [0]
        ++ [Code_Code ErrUnspecifiedError] |>
    <| tc_Packet := Some (Packet0
        <| pk_ProtocolVersion := 5 |>
        <| pk_FixedHeader := (FixedHeader0
            <| fh_Type := Suback |>
            <| fh_Remaining := 4 |>) |>
        <| pk_PacketID := 15 |>
        <| pk_ReasonCodes := [Code_Code ErrUnspecifiedError] |>) |>.

Definition case_TSubackMqtt5 : TPacketCase :=
  TPacketCase0
    <| tc_Case := TSubackMqtt5 |>
    <| tc_Desc := !"mqtt5" |>
    <| tc_Primary := true |>
    <| tc_RawBytes := [Z.shiftl Suback 4; 20]
        ++ [0; 15]
        ++ [16]
        ++ [38]
        ++ [0; 5] ++ !"hello"
        ++ [0; 6; 228; 184; 150; 231; 149; 140]
        ++ [Code_Code CodeGrantedQos2] |>
    <| tc_Packet := Some (Packet0
        <| pk_ProtocolVersion := 5 |>
        <| pk_FixedHeader := (FixedHeader0
            <| fh_Type := Suback |>
            <| fh_Remaining := 20 |>) |>
        <| pk_PacketID := 15 |>
        <| pk_ReasonCodes := [Code_Code CodeGrantedQos2] |>
        <| pk_Properties := (Properties0
            <| pr_User := [mkUserProperty !"hello" !"世界"] |>) |>) |>.

Definition case_TSubackPacketIDInUse : TPacketCase :=
  TPacketCase0
    <| tc_Case := TSubackPacketIDInUse |>
    <| tc_Desc := !"packet id in use" |>
    <| tc_Primary := true |>
    <| tc_RawBytes := [Z.shiftl Suback 4; 47]
        ++ [0; 15]
        ++ [43]
        ++ [31; 0; 24] ++ !"packet"
        ++ !" identifier"
        ++ !" in"
        ++ !" use"
        ++ [38]
        ++ [0; 5] ++ !"hello"
        ++ [0; 6; 228; 184; 150; 231; 149; 140]
        ++ [Code_Code ErrPacketIdentifierInUse] |>
    <| tc_Packet := Some (Packet0
        <| pk_ProtocolVersion := 5 |>
        <| pk_FixedHeader := (FixedHeader0
            <| fh_Type := Suback |>
            <| fh_Remaining := 47 |>) |>
        <| pk_PacketID := 15 |>
        <| pk_ReasonCodes := [Code_Code ErrPacketIdentifierInUse] |>
        <| pk_Properties := (Properties0
            <| pr_ReasonString := Code_Reason ErrPacketIdentifierInUse |>
            <| pr_User := [mkUserProperty !"hello" !"世界"] |>) |>) |>.

Definition case_TSubackMalPacketID : TPacketCase :=
  TPacketCase0
    <| tc_Case := TSubackMalPacketID |>
    <| tc_Desc := !"malformed packet id" |>
    <| tc_Group := !"decode" |>
    <| tc_FailFirst := Some ErrMalformedPacketID |>
    <| tc_RawBytes := [Z.shiftl Suback 4; 2]
        ++ [0] |>.

Definition case_TSubackMalProperties : TPacketCase :=
  TPacketCase0
    <| tc_Case := TSubackMalProperties |>
    <| tc_Desc := !"malformed properties" |>
    <| tc_Group := !"decode" |>
    <| tc_FailFirst := Some ErrMalformedProperties |>
    <| tc_RawBytes := [Z.shiftl Suback 4; 47]
        ++ [0; 15]
        ++ [43] |>
    <| tc_Packet := Some (Packet0
        <| pk_ProtocolVersion := 5 |>) |>.

Definition case_TSubackInvalidFilter : TPacketCase :=
  TPacketCase0
    <| tc_Case := TSubackInvalidFilter |>
    <| tc_Desc := !"malformed packet id" |>
    <| tc_Group := !"reference" |>
    <| tc_RawBytes := [Z.shiftl Suback 4; 4]
        ++ [0; 15]
        ++ [0]
        ++ [Code_Code ErrTopicFilterInvalid] |>
    <| tc_Packet := Some (Packet0
        <| pk_ProtocolVersion := 5 |>) |>.

Definition case_TSubackInvalidSharedNoLocal : TPacketCase :=
  TPacketCase0
    <| tc_Case := TSubackInvalidSharedNoLocal |>
    <| tc_Desc := !"invalid shared no local" |>
    <| tc_Group := !"reference" |>
    <| tc_RawBytes := [Z.shiftl Suback 4; 4]
        ++ [0; 15]
        ++ [0]
        ++ [Code_Code ErrProtocolViolationInvalidSharedNoLocal] |>
    <| tc_Packet := Some (Packet0
        <| pk_ProtocolVersion := 5 |>) |>.

Definition Suback_cases : TPacketCases :=
  [case_TSuback; case_TSubackMany; case_TSubackDeny; case_TSubackUnspecifiedError;
   case_TSubackUnspecifiedErrorMqtt5; case_TSubackMqtt5; case_TSubackPacketIDInUse;
   case_TSubackMalPacketID; case_TSubackMalProperties; case_TSubackInvalidFilter;
   case_TSubackInvalidSharedNoLocal].

(** ** [Unsubscribe] *)

Definition case_TUnsubscribe : TPacketCase :=
  TPacketCase0
    <| tc_Case := TUnsubscribe |>
    <| tc_Desc := !"unsubscribe" |>
    <| tc_Primary := true |>
    <| tc_RawBytes := [Z.lor (Z.shiftl Unsubscribe 4) (Z.shiftl 1 1); 9]
        ++ [0; 15]
        ++ [0; 5]
        ++ !"a/b/c" |>
    <| tc_Packet := Some (Packet0
        <| pk_FixedHeader := (FixedHeader0
            <| fh_Type := Unsubscribe |>
            <| fh_Remaining := 9 |>
            <| fh_Qos := 1 |>) |>
        <| pk_PacketID := 15 |>
        <| pk_Filters := [Subscription0
             <| sub_Filter := !"a/b/c" |>] |>) |>.

Definition case_TUnsubscribeMany : TPacketCase :=
  TPacketCase0
    <| tc_Case := TUnsubscribeMany |>
    <| tc_Desc := !"unsubscribe many" |>
    <| tc_Primary := true |>
    <| tc_RawBytes := [Z.lor (Z.shiftl Unsubscribe 4) (Z.shiftl 1 1); 27]
        ++ [0; 35]
        ++ [0; 3]
        ++ !"a/b"
        ++ [0; 11]
        ++ !"d/e/f/g/h/i"
        ++ [0; 5]
        ++ !"x/y/z" |>
    <| tc_Packet := Some (Packet0
        <| pk_FixedHeader := (FixedHeader0
            <| fh_Type := Unsubscribe |>
            <| fh_Remaining := 27 |>
            <| fh_Qos := 1 |>) |>
        <| pk_PacketID := 35 |>
        <| pk_Filters := [Subscription0
             <| sub_Filter := !"a/b" |>;
             Subscription0
             <| sub_Filter := !"d/e/f/g/h/i" |>;
             Subscription0
             <| sub_Filter := !"x/y/z" |>] |>) |>.

Definition case_TUnsubscribeMqtt5 : TPacketCase :=
  TPacketCase0
    <| tc_Case := TUnsubscribeMqtt5 |>
    <| tc_Desc := !"mqtt5" |>
    <| tc_Primary := true |>
    <| tc_RawBytes := [Z.lor (Z.shiftl Unsubscribe 4) (Z.shiftl 1 1); 31]
        ++ [0; 15]
        ++ [16]
        ++ [38]
        ++ [0; 5] ++ !"hello"
        ++ [0; 6; 228; 184; 150; 231; 149; 140]
        ++ [0; 3]
        ++ !"a/b"
        ++ [0; 5]
        ++ !"x/y/w" |>
    <| tc_Packet := Some (Packet0
        <| pk_ProtocolVersion := 5 |>
        <| pk_FixedHeader := (FixedHeader0
            <| fh_Type := Unsubscribe |>
            <| fh_Remaining := 31 |>
            <| fh_Qos := 1 |>) |>
        <| pk_PacketID := 15 |>
        <| pk_Properties := (Properties0
            <| pr_User := [mkUserProperty !"hello" !"世界"] |>) |>
        <| pk_Filters := [Subscription0
             <| sub_Filter := !"a/b" |>;
             Subscription0
             <| sub_Filter := !"x/y/w" |>] |>) |>.

Definition case_TUnsubscribeMalPacketID : TPacketCase :=
  TPacketCase0
    <| tc_Case := TUnsubscribeMalPacketID |>
    <| tc_Desc := !"malformed packet id" |>
    <| tc_Group := !"decode" |>
    <| tc_FailFirst := Some ErrMalformedPacketID |>
    <| tc_RawBytes := [Z.shiftl Unsubscribe 4; 2]
        ++ [0] |>.

Definition case_TUnsubscribeMalTopicName : TPacketCase :=
  TPacketCase0
    <| tc_Case := TUnsubscribeMalTopicName |>
    <| tc_Desc := !"malformed topic" |>
    <| tc_Group := !"decode" |>
    <| tc_FailFirst := Some ErrMalformedTopic |>
    <| tc_RawBytes := [Z.shiftl Unsubscribe 4; 2]
        ++ [0; 21]
        ++ [0; 3]
        ++ !"a/" |>.

Definition case_TUnsubscribeMalProperties : TPacketCase :=
  TPacketCase0
    <| tc_Case := TUnsubscribeMalProperties |>
    <| tc_Desc := !"malformed properties" |>
    <| tc_Group := !"decode" |>
    <| tc_FailFirst := Some ErrMalformedProperties |>
    <| tc_RawBytes := [Z.lor (Z.shiftl Unsubscribe 4) (Z.shiftl 1 1); 31]
        ++ [0; 15]
        ++ [16] |>
    <| tc_Packet := Some (Packet0
        <| pk_ProtocolVersion := 5 |>) |>.

Definition case_TUnsubscribeInvalidQosMustPacketID : TPacketCase :=
  TPacketCase0
    <| tc_Case := TUnsubscribeInvalidQosMustPacketID |>
    <| tc_Desc := !"no packet id with qos > 0" |>
    <| tc_Group := !"validate" |>
    <| tc_Expect := Some ErrProtocolViolationNoPacketID |>
    <| tc_Packet := Some (Packet0
        <| pk_FixedHeader := (FixedHeader0
            <| fh_Type := Unsubscribe |>
            <| fh_Qos := 1 |>) |>
        <| pk_PacketID := 0 |>
        <| pk_Filters := [Subscription0
             <| sub_Filter := !"a/b" |>] |>) |>.

Definition case_TUnsubscribeInvalidNoFilters : TPacketCase :=
  TPacketCase0
    <| tc_Case := TUnsubscribeInvalidNoFilters |>
    <| tc_Desc := !"no filters" |>
    <| tc_Group := !"validate" |>
    <| tc_Expect := Some ErrProtocolViolationNoFilters |>
    <| tc_Packet := Some (Packet0
        <| pk_FixedHeader := (FixedHeader0
            <| fh_Type := Unsubscribe |>
            <| fh_Qos := 1 |>) |>
        <| pk_PacketID := 2 |>) |>.

Definition case_TUnsubscribeSpecQosMustPacketID : TPacketCase :=
  TPacketCase0
    <| tc_Case := TUnsubscribeSpecQosMustPacketID |>
    <| tc_Desc := !"no packet id with qos > 0" |>
    <| tc_Group := !"encode" |>
    <| tc_Expect := Some ErrProtocolViolationNoPacketID |>
    <| tc_RawBytes := [Z.lor (Z.shiftl Unsubscribe 4) (Z.shiftl 1 1); 9]
        ++ [0; 0]
        ++ [0; 5]
        ++ !"a/b/c" |>
    <| tc_Packet := Some (Packet0
        <| pk_FixedHeader := (FixedHeader0
            <| fh_Type := Unsubscribe |>
            <| fh_Qos := 1 |>
            <| fh_Remaining := 9 |>) |>
        <| pk_PacketID := 0 |>
        <| pk_Filters := [Subscription0
             <| sub_Filter := !"a/b/c" |>] |>) |>.

Definition Unsubscribe_cases : TPacketCases :=
  [case_TUnsubscribe; case_TUnsubscribeMany; case_TUnsubscribeMqtt5;
   case_TUnsubscribeMalPacketID; case_TUnsubscribeMalTopicName; case_TUnsubscribeMalProperties;
   case_TUnsubscribeInvalidQosMustPacketID; case_TUnsubscribeInvalidNoFilters;
   case_TUnsubscribeSpecQosMustPacketID].

(** ** [Unsuback] *)

Definition case_TUnsuback : TPacketCase :=
  TPacketCase0
    <| tc_Case := TUnsuback |>
    <| tc_Desc := !"unsuback" |>
    <| tc_Primary := true |>
    <| tc_RawBytes := [Z.shiftl Unsuback 4; 2]
        ++ [0; 15] |>
    <| tc_Packet := Some (Packet0
        <| pk_FixedHeader := (FixedHeader0
            <| fh_Type := Unsuback |>
            <| fh_Remaining := 2 |>) |>
        <| pk_PacketID := 15 |>) |>.

Definition case_TUnsubackMany : TPacketCase :=
  TPacketCase0
    <| tc_Case := TUnsubackMany |>
    <| tc_Desc := !"unsuback many" |>
    <| tc_Primary := true |>
    <| tc_RawBytes := [Z.shiftl Unsuback 4; 5]
        ++ [0; 15]
        ++ [0]
        ++ [Code_Code CodeSuccess; Code_Code CodeSuccess] |>
    <| tc_Packet := Some (Packet0
        <| pk_ProtocolVersion := 5 |>
        <| pk_FixedHeader := (FixedHeader0
            <| fh_Type := Unsuback |>
            <| fh_Remaining := 5 |>) |>
        <| pk_PacketID := 15 |>
        <| pk_ReasonCodes := [Code_Code CodeSuccess; Code_Code CodeSuccess] |>) |>.

Definition case_TUnsubackMqtt5 : TPacketCase :=
  TPacketCase0
    <| tc_Case := TUnsubackMqtt5 |>
    <| tc_Desc := !"mqtt5" |>
    <| tc_Primary := true |>
    <| tc_RawBytes := [Z.shiftl Unsuback 4; 21]
        ++ [0; 15]
        ++ [16]
        ++ [38]
        ++ [0; 5] ++ !"hello"
        ++ [0; 6; 228; 184; 150; 231; 149; 140]
        ++ [Code_Code CodeSuccess; Code_Code CodeNoSubscriptionExisted] |>
    <| tc_Packet := Some (Packet0
        <| pk_ProtocolVersion := 5 |>
        <| pk_FixedHeader := (FixedHeader0
            <| fh_Type := Unsuback |>
            <| fh_Remaining := 21 |>) |>
        <| pk_PacketID := 15 |>
        <| pk_ReasonCodes := [Code_Code CodeSuccess; Code_Code CodeNoSubscriptionExisted] |>
        <| pk_Properties := (Properties0
            <| pr_User := [mkUserProperty !"hello" !"世界"] |>) |>) |>.

Definition case_TUnsubackPacketIDInUse : TPacketCase :=
  TPacketCase0
    <| tc_Case := TUnsubackPacketIDInUse |>
    <| tc_Desc := !"packet id in use" |>
    <| tc_Primary := true |>
    <| tc_RawBytes := [Z.shiftl Unsuback 4; 48]
        ++ [0; 15]
        ++ [43]
        ++ [31; 0; 24] ++ !"packet"
        ++ !" identifier"
        ++ !" in"
        ++ !" use"
        ++ [38]
        ++ [0; 5] ++ !"hello"
        ++ [0; 6; 228; 184; 150; 231; 149; 140]
        ++ [Code_Code ErrPacketIdentifierInUse; Code_Code ErrPacketIdentifierInUse] |>
    <| tc_Packet := Some (Packet0
        <| pk_ProtocolVersion := 5 |>
        <| pk_FixedHeader := (FixedHeader0
            <| fh_Type := Unsuback |>
            <| fh_Remaining := 48 |>) |>
        <| pk_PacketID := 15 |>
        <| pk_ReasonCodes := [Code_Code ErrPacketIdentifierInUse; Code_Code ErrPacketIdentifierInUse] |>
        <| pk_Properties := (Properties0
            <| pr_ReasonString := Code_Reason ErrPacketIdentifierInUse |>
            <| pr_User := [mkUserProperty !"hello" !"世界"] |>) |>) |>.

Definition case_TUnsubackMalPacketID : TPacketCase :=
  TPacketCase0
    <| tc_Case := TUnsubackMalPacketID |>
    <| tc_Desc := !"malformed packet id" |>
    <| tc_Group := !"decode" |>
    <| tc_FailFirst := Some ErrMalformedPacketID |>
    <| tc_RawBytes := [Z.shiftl Unsuback 4; 2]
        ++ [0] |>.

Definition case_TUnsubackMalProperties : TPacketCase :=
  TPacketCase0
    <| tc_Case := TUnsubackMalProperties |>
    <| tc_Desc := !"malformed properties" |>
    <| tc_Group := !"decode" |>
    <| tc_FailFirst := Some ErrMalformedProperties |>
    <| tc_RawBytes := [Z.shiftl Unsuback 4; 48]
        ++ [0; 15]
        ++ [43] |>
    <| tc_Packet := Some (Packet0
        <| pk_ProtocolVersion := 5 |>) |>.

Definition Unsuback_cases : TPacketCases :=
  [case_TUnsuback; case_TUnsubackMany; case_TUnsubackMqtt5; case_TUnsubackPacketIDInUse;
   case_TUnsubackMalPacketID; case_TUnsubackMalProperties].

(** ** [Pingreq] *)

Definition case_TPingreq : TPacketCase :=
  TPacketCase0
    <| tc_Case := TPingreq |>
    <| tc_Desc := !"ping request" |>
    <| tc_Primary := true |>
    <| tc_RawBytes := [Z.shiftl Pingreq 4; 0] |>
    <| tc_Packet := Some (Packet0
        <| pk_FixedHeader := (FixedHeader0
            <| fh_Type := Pingreq |>
            <| fh_Remaining := 0 |>) |>) |>.

Definition Pingreq_cases : TPacketCases :=
  [case_TPingreq].

(** ** [Pingresp] *)

Definition case_TPingresp : TPacketCase :=
  TPacketCase0
    <| tc_Case := TPingresp |>
    <| tc_Desc := !"ping response" |>
    <| tc_Primary := true |>
    <| tc_RawBytes := [Z.shiftl Pingresp 4; 0] |>
    <| tc_Packet := Some (Packet0
        <| pk_FixedHeader := (FixedHeader0
            <| fh_Type := Pingresp |>
            <| fh_Remaining := 0 |>) |>) |>.

Definition Pingresp_cases : TPacketCases :=
  [case_TPingresp].

(** ** [Disconnect] *)

Definition case_TDisconnect : TPacketCase :=
  TPacketCase0
    <| tc_Case := TDisconnect |>
    <| tc_Desc := !"disconnect" |>
    <| tc_Primary := true |>
    <| tc_RawBytes := [Z.shiftl Disconnect 4; 0] |>
    <| tc_Packet := Some (Packet0
        <| pk_FixedHeader := (FixedHeader0
            <| fh_Type := Disconnect |>
            <| fh_Remaining := 0 |>) |>) |>.

Definition case_TDisconnectTakeover : TPacketCase :=
  TPacketCase0
    <| tc_Case := TDisconnectTakeover |>
    <| tc_Desc := !"takeover" |>
    <| tc_Primary := true |>
    <| tc_RawBytes := [Z.shiftl Disconnect 4; 21]
        ++ [Code_Code ErrSessionTakenOver]
        ++ [19]
        ++ [31; 0; 16]
        ++ Code_Reason ErrSessionTakenOver |>
    <| tc_Packet := Some (Packet0
        <| pk_ProtocolVersion := 5 |>
        <| pk_FixedHeader := (FixedHeader0
            <| fh_Type := Disconnect |>
            <| fh_Remaining := 0 |>) |>
        <| pk_ReasonCode := Code_Code ErrSessionTakenOver |>
        <| pk_Properties := (Properties0
            <| pr_ReasonString := Code_Reason ErrSessionTakenOver |>) |>) |>.

Definition case_TDisconnectShuttingDown : TPacketCase :=
  TPacketCase0
    <| tc_Case := TDisconnectShuttingDown |>
    <| tc_Desc := !"shutting down" |>
    <| tc_Primary := true |>
    <| tc_RawBytes := [Z.shiftl Disconnect 4; 25]
        ++ [Code_Code ErrServerShuttingDown]
        ++ [23]
        ++ [31; 0; 20]
        ++ Code_Reason ErrServerShuttingDown |>
    <| tc_Packet := Some (Packet0
        <| pk_ProtocolVersion := 5 |>
        <| pk_FixedHeader := (FixedHeader0
            <| fh_Type := Disconnect |>
            <| fh_Remaining := 0 |>) |>
        <| pk_ReasonCode := Code_Code ErrServerShuttingDown |>
        <| pk_Properties := (Properties0
            <| pr_ReasonString := Code_Reason ErrServerShuttingDown |>) |>) |>.

Definition case_TDisconnectMqtt5 : TPacketCase :=
  TPacketCase0
    <| tc_Case := TDisconnectMqtt5 |>
    <| tc_Desc := !"mqtt5" |>
    <| tc_Primary := true |>
    <| tc_RawBytes := [Z.shiftl Disconnect 4; 22]
        ++ [Code_Code CodeDisconnect]
        ++ [20]
        ++ [17; 0; 0; 0; 120]
        ++ [31; 0; 12]
        ++ Code_Reason CodeDisconnect |>
    <| tc_Packet := Some (Packet0
        <| pk_ProtocolVersion := 5 |>
        <| pk_FixedHeader := (FixedHeader0
            <| fh_Type := Disconnect |>
            <| fh_Remaining := 22 |>) |>
        <| pk_ReasonCode := Code_Code CodeDisconnect |>
        <| pk_Properties := (Properties0
            <| pr_ReasonString := Code_Reason CodeDisconnect |>
            <| pr_SessionExpiryInterval := 120 |>
            <| pr_SessionExpiryIntervalFlag := true |>) |>) |>.

Definition case_TDisconnectMqtt5DisconnectWithWillMessage : TPacketCase :=
  TPacketCase0
    <| tc_Case := TDisconnectMqtt5DisconnectWithWillMessage |>
    <| tc_Desc := !"mqtt5 disconnect with will message" |>
    <| tc_Primary := true |>
    <| tc_RawBytes := [Z.shiftl Disconnect 4; 38]
        ++ [Code_Code CodeDisconnectWillMessage]
        ++ [36]
        ++ [17; 0; 0; 0; 120]
        ++ [31; 0; 28]
        ++ Code_Reason CodeDisconnectWillMessage |>
    <| tc_Packet := Some (Packet0
        <| pk_ProtocolVersion := 5 |>
        <| pk_FixedHeader := (FixedHeader0
            <| fh_Type := Disconnect |>
            <| fh_Remaining := 22 |>) |>
        <| pk_ReasonCode := Code_Code CodeDisconnectWillMessage |>
        <| pk_Properties := (Properties0
            <| pr_ReasonString := Code_Reason CodeDisconnectWillMessage |>
            <| pr_SessionExpiryInterval := 120 |>
            <| pr_SessionExpiryIntervalFlag := true |>) |>) |>.

Definition case_TDisconnectSecondConnect : TPacketCase :=
  TPacketCase0
    <| tc_Case := TDisconnectSecondConnect |>
    <| tc_Desc := !"second connect packet mqtt5" |>
    <| tc_RawBytes := [Z.shiftl Disconnect 4; 46]
        ++ [Code_Code ErrProtocolViolationSecondConnect]
        ++ [44]
        ++ [31; 0; 41]
        ++ Code_Reason ErrProtocolViolationSecondConnect |>
    <| tc_Packet := Some (Packet0
        <| pk_ProtocolVersion := 5 |>
        <| pk_FixedHeader := (FixedHeader0
            <| fh_Type := Disconnect |>
            <| fh_Remaining := 45 |>) |>
        <| pk_ReasonCode := Code_Code ErrProtocolViolationSecondConnect |>
        <| pk_Properties := (Properties0
            <| pr_ReasonString := Code_Reason ErrProtocolViolationSecondConnect |>) |>) |>.

Definition case_TDisconnectZeroNonZeroExpiry : TPacketCase :=
  TPacketCase0
    <| tc_Case := TDisconnectZeroNonZeroExpiry |>
    <| tc_Desc := !"zero non zero expiry" |>
    <| tc_RawBytes := [Z.shiftl Disconnect 4; 2]
        ++ [Code_Code ErrProtocolViolationZeroNonZeroExpiry]
        ++ [0] |>
    <| tc_Packet := Some (Packet0
        <| pk_ProtocolVersion := 5 |>
        <| pk_FixedHeader := (FixedHeader0
            <| fh_Type := Disconnect |>
            <| fh_Remaining := 2 |>) |>
        <| pk_ReasonCode := Code_Code ErrProtocolViolationZeroNonZeroExpiry |>) |>.

Definition case_TDisconnectReceiveMaximum : TPacketCase :=
  TPacketCase0
    <| tc_Case := TDisconnectReceiveMaximum |>
    <| tc_Desc := !"receive maximum mqtt5" |>
    <| tc_RawBytes := [Z.shiftl Disconnect 4; 29]
        ++ [Code_Code ErrReceiveMaximum]
        ++ [27]
        ++ [31; 0; 24]
        ++ Code_Reason ErrReceiveMaximum |>
    <| tc_Packet := Some (Packet0
        <| pk_ProtocolVersion := 5 |>
        <| pk_FixedHeader := (FixedHeader0
            <| fh_Type := Disconnect |>
            <| fh_Remaining := 29 |>) |>
        <| pk_ReasonCode := Code_Code ErrReceiveMaximum |>
        <| pk_Properties := (Properties0
            <| pr_ReasonString := Code_Reason ErrReceiveMaximum |>) |>) |>.

Definition case_TDisconnectDropProperties : TPacketCase :=
  TPacketCase0
    <| tc_Case := TDisconnectDropProperties |>
    <| tc_Desc := !"drop oversize properties partial" |>
    <| tc_Group := !"encode" |>
    <| tc_RawBytes := [Z.shiftl Disconnect 4; 39]
        ++ [Code_Code CodeDisconnect]
        ++ [19]
        ++ [28; 0; 7] ++ !"mochi-2"
        ++ [31; 0; 6] ++ !"reason"
        ++ [38]
        ++ [0; 5] ++ !"hello"
        ++ [0; 6; 228; 184; 150; 231; 149; 140] |>
    <| tc_ActualBytes := [Z.shiftl Disconnect 4; 12]
        ++ [Code_Code CodeDisconnect]
        ++ [10]
        ++ [28; 0; 7] ++ !"mochi-2" |>
    <| tc_Packet := Some (Packet0
        <| pk_Mods := (Mods0
            <| mod_MaxSize := 3 |>) |>
        <| pk_ProtocolVersion := 5 |>
        <| pk_FixedHeader := (FixedHeader0
            <| fh_Type := Disconnect |>
            <| fh_Remaining := 40 |>) |>
        <| pk_ReasonCode := Code_Code CodeSuccess |>
        <| pk_Properties := (Properties0
            <| pr_ReasonString := !"reason" |>
            <| pr_ServerReference := !"mochi-2" |>
            <| pr_User := [mkUserProperty !"hello" !"世界"] |>) |>) |>.

Definition case_TDisconnectMalProperties : TPacketCase :=
  TPacketCase0
    <| tc_Case := TDisconnectMalProperties |>
    <| tc_Desc := !"malformed properties" |>
    <| tc_Group := !"decode" |>
    <| tc_FailFirst := Some ErrMalformedProperties |>
    <| tc_RawBytes := [Z.shiftl Disconnect 4; 48]
        ++ [Code_Code CodeDisconnect]
        ++ [46] |>
    <| tc_Packet := Some (Packet0
        <| pk_ProtocolVersion := 5 |>) |>.

Definition case_TDisconnectMalReasonCode : TPacketCase :=
  TPacketCase0
    <| tc_Case := TDisconnectMalReasonCode |>
    <| tc_Desc := !"malformed reason code" |>
    <| tc_Group := !"decode" |>
    <| tc_FailFirst := Some ErrMalformedReasonCode |>
    <| tc_RawBytes := [Z.shiftl Disconnect 4; 48] |>
    <| tc_Packet := Some (Packet0
        <| pk_ProtocolVersion := 5 |>) |>.

Definition Disconnect_cases : TPacketCases :=
  [case_TDisconnect; case_TDisconnectTakeover; case_TDisconnectShuttingDown;
   case_TDisconnectMqtt5; case_TDisconnectMqtt5DisconnectWithWillMessage;
   case_TDisconnectSecondConnect; case_TDisconnectZeroNonZeroExpiry;
   case_TDisconnectReceiveMaximum; case_TDisconnectDropProperties;
   case_TDisconnectMalProperties; case_TDisconnectMalReasonCode].

(** ** [Auth] *)

Definition case_TAuth : TPacketCase :=
  TPacketCase0
    <| tc_Case := TAuth |>
    <| tc_Desc := !"auth" |>
    <| tc_Primary := true |>
    <| tc_RawBytes := [Z.shiftl Auth 4; 47]
        ++ [Code_Code CodeSuccess]
        ++ [45]
        ++ [21; 0; 5] ++ !"SHA-1"
        ++ [22; 0; 9] ++ !"auth-data"
        ++ [31; 0; 6] ++ !"reason"
        ++ [38]
        ++ [0; 5] ++ !"hello"
        ++ [0; 6; 228; 184; 150; 231; 149; 140] |>
    <| tc_Packet := Some (Packet0
        <| pk_ProtocolVersion := 5 |>
        <| pk_FixedHeader := (FixedHeader0
            <| fh_Type := Auth |>
            <| fh_Remaining := 47 |>) |>
        <| pk_ReasonCode := Code_Code CodeSuccess |>
        <| pk_Properties := (Properties0
            <| pr_AuthenticationMethod := !"SHA-1" |>
            <| pr_AuthenticationData := !"auth-data" |>
            <| pr_ReasonString := !"reason" |>
            <| pr_User := [mkUserProperty !"hello" !"世界"] |>) |>) |>.

Definition case_TAuthMalReasonCode : TPacketCase :=
  TPacketCase0
    <| tc_Case := TAuthMalReasonCode |>
    <| tc_Desc := !"malformed reason code" |>
    <| tc_Group := !"decode" |>
    <| tc_FailFirst := Some ErrMalformedReasonCode |>
    <| tc_RawBytes := [Z.shiftl Auth 4; 47] |>
    <| tc_Packet := Some (Packet0
        <| pk_FixedHeader := (FixedHeader0
            <| fh_Type := Auth |>) |>
        <| pk_ReasonCode := Code_Code CodeNoMatchingSubscribers |>) |>.

Definition case_TAuthMalProperties : TPacketCase :=
  TPacketCase0
    <| tc_Case := TAuthMalProperties |>
    <| tc_Desc := !"malformed properties" |>
    <| tc_Group := !"decode" |>
    <| tc_FailFirst := Some ErrMalformedProperties |>
    <| tc_RawBytes := [Z.shiftl Auth 4; 3]
        ++ [Code_Code CodeSuccess]
        ++ [12] |>
    <| tc_Packet := Some (Packet0
        <| pk_ProtocolVersion := 5 |>) |>.

Definition case_TAuthInvalidReason : TPacketCase :=
  TPacketCase0
    <| tc_Case := TAuthInvalidReason |>
    <| tc_Desc := !"invalid reason code" |>
    <| tc_Group := !"validate" |>
    <| tc_Expect := Some ErrProtocolViolationInvalidReason |>
    <| tc_Packet := Some (Packet0
        <| pk_FixedHeader := (FixedHeader0
            <| fh_Type := Auth |>) |>
        <| pk_ReasonCode := Code_Code CodeNoMatchingSubscribers |>) |>.

Definition case_TAuthInvalidReason2 : TPacketCase :=
  TPacketCase0
    <| tc_Case := TAuthInvalidReason2 |>
    <| tc_Desc := !"invalid reason code" |>
    <| tc_Group := !"validate" |>
    <| tc_Expect := Some ErrProtocolViolationInvalidReason |>
    <| tc_Packet := Some (Packet0
        <| pk_FixedHeader := (FixedHeader0
            <| fh_Type := Auth |>) |>
        <| pk_ReasonCode := Code_Code CodeNoMatchingSubscribers |>) |>.

Definition Auth_cases : TPacketCases :=
  [case_TAuth; case_TAuthMalReasonCode; case_TAuthMalProperties; case_TAuthInvalidReason;
   case_TAuthInvalidReason2].
