(* ===== verification/Conformance.v ===== *)
(** * Conformance: the model passes the vectors of the repository

    The table of all vectors ([TPacketData]), the table of the client's tests
    ([pkTable]), and the theorem that the modelled codec does on each of them
    what the tests of the packages require. *)
From S2P Require Import Prelude Codes Codec FixedHeader Properties Packets Wire Vectors ConnectVectors PublishVectors SubscribeVectors.

(** [var TPacketData map[byte]TPacketCases] *)
Definition TPacketData : list (Z * TPacketCases) :=
  [(Connect, Connect_cases); (Connack, Connack_cases); (Publish, Publish_cases);
   (Puback, Puback_cases); (Pubrec, Pubrec_cases); (Pubrel, Pubrel_cases);
   (Pubcomp, Pubcomp_cases); (Subscribe, Subscribe_cases); (Suback, Suback_cases);
   (Unsubscribe, Unsubscribe_cases); (Unsuback, Unsuback_cases); (Pingreq, Pingreq_cases);
   (Pingresp, Pingresp_cases); (Disconnect, Disconnect_cases); (Auth, Auth_cases)].

(** [TPacketData[pkt].Get(c)]; a missing key gives a nil slice. *)
Definition vector (pkt c : Z) : TPacketCase :=
  match list_find (fun e => fst e = pkt) TPacketData with
  | Some (_, (_, cases)) => TPacketCases_Get cases c
  | None => TPacketCase0
  end.

(** [var pkTable] of clients_test.go. *)
Definition pkTable : list TPacketCase :=
  [vector Connect TConnectMqtt311;
   vector Connack TConnackAcceptedMqtt5;
   vector Connack TConnackAcceptedNoSession;
   vector Publish TPublishBasic;
   vector Publish TPublishMqtt5;
   vector Puback TPuback;
   vector Pubrec TPubrec;
   vector Pubrel TPubrel;
   vector Pubcomp TPubcomp;
   vector Subscribe TSubscribe;
   vector Subscribe TSubscribeMqtt5;
   vector Suback TSuback;
   vector Suback TSubackMqtt5;
   vector Unsubscribe TUnsubscribe;
   vector Unsubscribe TUnsubscribeMqtt5;
   vector Unsuback TUnsuback;
   vector Unsuback TUnsubackMqtt5;
   vector Pingreq TPingreq;
   vector Pingresp TPingresp;
   vector Disconnect TDisconnect;
   vector Disconnect TDisconnectMqtt5;
   vector Auth TAuth].

(** ** The theorem *)

(** On a header that decodes without error, the header left behind is the one
    decoded. *)
Lemma FixedHeader_left_Ok fh hb fh' :
  FixedHeader_Decode fh hb = Ok fh' -> FixedHeader_left fh hb = fh'.
Proof.
  unfold FixedHeader_Decode, FixedHeader_left. cbn zeta.
  destruct (fh_Type (fh <| fh_Type := Z.shiftr hb 4 |>) =? Publish) eqn:Hp;
    [|destruct ((_ =? Pubrel) || _ || _) eqn:Hr];
    split_ifs; mred; split_ifs; intros; by inv_result.
Qed.

(** A boolean test of every vector. *)
Lemma all_vectors (P : Z -> TPacketCase -> bool) :
  forallb (fun '(pkt, cases) => forallb (P pkt) cases) TPacketData = true ->
  Forall (fun '(pkt, cases) => Forall (fun w => P pkt w = true) cases) TPacketData.
Proof.
  rewrite forallb_forall, Forall_forall. intros H [pkt cases] Hin%list_elem_of_In.
  apply Forall_forall. intros w Hw%list_elem_of_In. specialize (H _ Hin). cbn in H.
  rewrite forallb_forall in H. by apply H.
Qed.

(** The vectors that the tests run: encoded, decoded and validated against an
    expected code. *)
Definition runs (test : TPacketCase -> bool) : nat :=
  length (filter (fun w => test w = true) (concat (map snd TPacketData))).

(** The modelled codec passes every test vector of the repository: each of
    the 92 packets to be encoded gives the listed bytes, each of the 133 byte
    strings to be decoded gives the listed packet or an error that is the listed
    code, each of the 32 invalid packets is refused with the listed code, the
    packets of the client's table are read in full from their bytes, and a case
    is found under its number. *)
Theorem vectors_conform :
  Forall (fun '(pkt, cases) => Forall (fun w => vector_passes pkt w = true) cases) TPacketData /\
  Forall (fun tt => read_conforms tt = true) pkTable /\
  Forall (fun '(pkt, cases) => Forall (fun w => vector pkt (tc_Case w) = w) cases) TPacketData /\
  runs encodeTestOK = 92%nat /\ runs decodeTestOK = 133%nat /\
  runs (fun w => bool_decide (is_Some (tc_Expect w))) = 32%nat.
Proof.
  split; [|split; [|split; [|split; [|split]]]].
  - apply all_vectors. vm_compute. reflexivity.
  - apply Forall_forall. intros tt. rewrite list_elem_of_In. revert tt. apply forallb_forall.
    vm_compute. reflexivity.
  - eapply Forall_impl; [apply (all_vectors (fun pkt w => bool_decide (vector pkt (tc_Case w) = w)))|].
    + vm_compute. reflexivity.
    + intros [pkt cases] H. eapply Forall_impl; [exact H|]. intros w. apply bool_decide_eq_true.
  - vm_compute. reflexivity.
  - vm_compute. reflexivity.
  - vm_compute. reflexivity.
Qed.
