(* ===== verification/Mempool.v ===== *)
(** * The pool of byte buffers (mempool/bufpool.go)

    A buffer is an object on the heap, shared by address; a pool is the list of
    the buffers it may hand out again. Which buffer [Get] takes, by how much a
    buffer grows and what the garbage collector takes out of a pool are choices
    of the runtime. A program is a sequence of the operations on buffers, and
    several programs run interleaved on one heap and one pool. *)
From S2P Require Import Prelude Codes Effects Codec.

(** ** Buffers *)

(** A [bytes.Buffer] that is only written: what was written, and its capacity. *)
Record Buf := mkBuf {
  bf_bytes : bytes;
  bf_cap : Z;
}.
Definition Buf0 : Buf := mkBuf [] 0.
Definition Buf_Reset (x : Buf) : Buf := x <| bf_bytes := [] |>.
(** A buffer that does not hold the bytes grows, to at least their length. *)
Definition Buf_Write (grow : Z) (b : bytes) (x : Buf) : Buf :=
  let b := bf_bytes x ++ b in
  let l := Z.of_nat (length b) in
  mkBuf b (if l <=? bf_cap x then bf_cap x else Z.max l grow).

(** ** Pools *)

(** The buffers on the heap, and those that are in the pool. *)
Record Memory := mkMemory {
  me_bufs : gmap nat Buf;
  me_free : list nat;
}.
Definition Memory0 : Memory := mkMemory ∅ [].

(** [new(bytes.Buffer)] *)
Definition new_buffer (m : Memory) : nat * Memory :=
  let a := fresh (dom (me_bufs m)) in (a, m <| me_bufs ::= <[a := Buf0]> |>).

(** [Get]: [pick] is the buffer of the pool that [sync.Pool] takes, if any. *)
Definition Buffer_Get (pick : option nat) (m : Memory) : nat * Memory :=
  match pick with
  | Some i =>
      match me_free m !! i with
      | Some a => (a, m <| me_free ::= delete i |>)
      | None => new_buffer m
      end
  | None => new_buffer m
  end.

Definition Buffer_Put (x : nat) (m : Memory) : Memory :=
  m <| me_bufs ::= alter Buf_Reset x |> <| me_free ::= cons x |>.

Definition BufferWithCap_Put (max : Z) (x : nat) (m : Memory) : Memory :=
  match me_bufs m !! x with
  | Some b => if max <? bf_cap b then m else Buffer_Put x m
  | None => m
  end.

(** The two pools behind the interface [BufferPool]. *)
Inductive BufferPool := Buffer | BufferWithCap (max : Z).

Definition NewBuffer (max : Z) : BufferPool := if 0 <? max then BufferWithCap max else Buffer.
Definition bufPool : BufferPool := NewBuffer 0.

Definition pool_Get (p : BufferPool) (pick : option nat) (m : Memory) : nat * Memory :=
  match p with Buffer => Buffer_Get pick m | BufferWithCap _ => Buffer_Get pick m end.
Definition pool_Put (p : BufferPool) (x : nat) (m : Memory) : Memory :=
  match p with Buffer => Buffer_Put x m | BufferWithCap max => BufferWithCap_Put max x m end.

(** ** Programs on buffers *)

Inductive Prog (A : Type) : Type :=
  | PRet (a : A)
  | PNew (k : nat -> Prog A)
  | PGet (k : nat -> Prog A)
  | PWrite (x : nat) (b : bytes) (k : Prog A)
  | PBytes (x : nat) (k : bytes -> Prog A)
  | PPut (x : nat) (k : Prog A).
Arguments PRet {A} a.
Arguments PNew {A} k.
Arguments PGet {A} k.
Arguments PWrite {A} x b k.
Arguments PBytes {A} x k.
Arguments PPut {A} x k.

Fixpoint prog_bind {A B} (p : Prog A) (f : A -> Prog B) : Prog B :=
  match p with
  | PRet a => f a
  | PNew k => PNew (fun x => prog_bind (k x) f)
  | PGet k => PGet (fun x => prog_bind (k x) f)
  | PWrite x b k => PWrite x b (prog_bind k f)
  | PBytes x k => PBytes x (fun b => prog_bind (k b) f)
  | PPut x k => PPut x (prog_bind k f)
  end.

(** One operation of a program, with the choices of the runtime. *)
Definition prog_step {A} (pool : BufferPool) (pick : option nat) (grow : Z) (p : Prog A) (m : Memory) : Prog A * Memory :=
  match p with
  | PRet a => (PRet a, m)
  | PNew k => let '(x, m) := new_buffer m in (k x, m)
  | PGet k => let '(x, m) := pool_Get pool pick m in (k x, m)
  | PWrite x b k => (k, m <| me_bufs ::= alter (Buf_Write grow b) x |>)
  | PBytes x k => (k (match me_bufs m !! x with Some b => bf_bytes b | None => [] end), m)
  | PPut x k => (k, pool_Put pool x m)
  end.

(** Several programs on one heap. A tick is a step of one of them or of the
    garbage collector, which keeps of the pool what [keep] tells. *)
Inductive Tick :=
  | Run (thread : nat) (pick : option nat) (grow : Z)
  | Collect (keep : nat -> bool).

Definition sys_step {A} (pool : BufferPool) (t : Tick) (s : list (Prog A) * Memory) : list (Prog A) * Memory :=
  let '(ps, m) := s in
  match t with
  | Run i pick grow =>
      match ps !! i with
      | Some p => let '(p, m) := prog_step pool pick grow p m in (<[i := p]> ps, m)
      | None => (ps, m)
      end
  | Collect keep => (ps, m <| me_free ::= List.filter keep |>)
  end.

Definition sys_run {A} (pool : BufferPool) (ts : list Tick) (s : list (Prog A) * Memory) : list (Prog A) * Memory :=
  foldl (fun s t => sys_step pool t s) s ts.

(** ** What a program yields

    [yields o p r]: the program [p], which holds the buffers [o] with their
    contents, uses only buffers it holds, and returns [r] whichever buffers it
    is given. *)
Inductive yields {A} : gmap nat bytes -> Prog A -> A -> Prop :=
  | yields_ret o a : yields o (PRet a) a
  | yields_new o k r : (forall x, x ∉ dom o -> yields (<[x := []]> o) (k x) r) -> yields o (PNew k) r
  | yields_get o k r : (forall x, x ∉ dom o -> yields (<[x := []]> o) (k x) r) -> yields o (PGet k) r
  | yields_write o x b0 b k r : o !! x = Some b0 -> yields (<[x := b0 ++ b]> o) k r -> yields o (PWrite x b k) r
  | yields_bytes o x b k r : o !! x = Some b -> yields o (k b) r -> yields o (PBytes x k) r
  | yields_put o x b k r : o !! x = Some b -> yields (delete x o) k r -> yields o (PPut x k) r.

(** ** The invariant of the heap

    No buffer is in the pool twice, those in the pool are empty and within the
    limit of the pool, and each thread holds buffers of its own. *)
Definition within (pool : BufferPool) (c : Z) : Prop := match pool with Buffer => True | BufferWithCap max => c <= max end.

Record memory_ok (pool : BufferPool) (m : Memory) : Prop := mkMemoryOk {
  mo_nodup : NoDup (me_free m);
  mo_free : forall x, x ∈ me_free m -> exists b, me_bufs m !! x = Some b /\ bf_bytes b = [] /\ within pool (bf_cap b);
}.

Definition holds (m : Memory) (o : gmap nat bytes) : Prop :=
  forall x b, o !! x = Some b -> x ∉ me_free m /\ exists buf, me_bufs m !! x = Some buf /\ bf_bytes buf = b.

Record system_ok {A} (pool : BufferPool) (rs : list A) (os : list (gmap nat bytes)) (s : list (Prog A) * Memory) : Prop := mkSystemOk {
  sy_memory : memory_ok pool s.2;
  sy_length : length os = length s.1;
  sy_results : length rs = length s.1;
  sy_threads : forall i p, s.1 !! i = Some p -> exists o r, os !! i = Some o /\ rs !! i = Some r /\ yields o p r;
  sy_holds : forall i o, os !! i = Some o -> holds s.2 o;
  sy_apart : forall i j o o', i <> j -> os !! i = Some o -> os !! j = Some o' -> o ##ₘ o';
}.

(** ** One step of a thread *)

Section Step.
Context (pool : BufferPool).

(** What a step of one thread leaves of another. *)
Definition respects (m m' : Memory) (o o' : gmap nat bytes) : Prop :=
  forall w, holds m w -> w ##ₘ o -> holds m' w /\ w ##ₘ o'.

Lemma holds_elem m o x b : holds m o -> o !! x = Some b -> x ∉ me_free m /\ x ∈ dom (me_bufs m).
Proof. intros H Hx. destruct (H x b Hx) as (Hf & buf & Hb & _). split; [done|]. apply elem_of_dom. eauto. Qed.

Lemma disjoint_lookup (w o : gmap nat bytes) x b : w ##ₘ o -> o !! x = Some b -> w !! x = None.
Proof. intros Hd Hx. destruct (w !! x) eqn:E; [|done]. exfalso. by eapply map_disjoint_spec. Qed.

(** A buffer that nobody holds and that is not in the pool any more. *)
Lemma take_buffer m m' o x :
  memory_ok pool m' -> x ∉ me_free m' -> (exists buf, me_bufs m' !! x = Some buf /\ bf_bytes buf = []) ->
  (forall y, y ∈ me_free m' -> y ∈ me_free m) ->
  (forall y b, y <> x -> me_bufs m !! y = Some b -> me_bufs m' !! y = Some b) ->
  (forall w, holds m w -> w !! x = None) ->
  holds m o -> x ∉ dom o /\ holds m' (<[x := []]> o) /\ respects m m' o (<[x := []]> o).
Proof.
  intros Hm Hx Hnew Hfree Hb Hno Ho.
  assert (Hkeep : forall w, holds m w -> holds m' w).
  { intros w Hw y b Hy. destruct (Hw y b Hy) as (Hf & buf & Hbuf & E). assert (y <> x) by (intros ->; rewrite (Hno w Hw) in Hy; done).
    split; [auto|]. exists buf. auto. }
  split_and!.
  - apply not_elem_of_dom. auto.
  - intros y b. rewrite lookup_insert_Some. intros [[<- <-]|[Hne Hy]]; [auto|]. exact (Hkeep o Ho y b Hy).
  - intros w Hw Hd. split; [auto|]. apply map_disjoint_insert_r. auto.
Qed.

Lemma new_buffer_taken m o :
  memory_ok pool m -> holds m o ->
  memory_ok pool (new_buffer m).2 /\ (new_buffer m).1 ∉ dom o /\
  holds (new_buffer m).2 (<[(new_buffer m).1 := []]> o) /\ respects m (new_buffer m).2 o (<[(new_buffer m).1 := []]> o).
Proof.
  intros [Hnd Hf] Ho. unfold new_buffer. set (x := fresh _). cbn [fst snd].
  assert (Hx : x ∉ dom (me_bufs m)) by apply is_fresh.
  set (m' := m <| me_bufs ::= _ |>). change (me_free m) with (me_free m') in *.
  assert (Hm : memory_ok pool m').
  { split; [done|]. intros y Hy. destruct (Hf y Hy) as (b & Hb & ?). exists b. split; [|done].
    change (me_bufs m') with (<[x := Buf0]> (me_bufs m)). rewrite lookup_insert_ne; [done|].
    intros ->. apply Hx, elem_of_dom. eauto. }
  split; [done|]. apply take_buffer; try done.
  - intros Hin. destruct (Hf x Hin) as (b & Hb & _). apply Hx, elem_of_dom. eauto.
  - exists Buf0. split; [|done]. apply lookup_insert_eq.
  - intros y b Hne Hb. change (me_bufs m') with (<[x := Buf0]> (me_bufs m)). by rewrite lookup_insert_ne.
  - intros w Hw. destruct (w !! x) eqn:E; [|done]. exfalso. apply Hx. by eapply holds_elem.
Qed.

Lemma pool_Get_taken pick m o :
  memory_ok pool m -> holds m o ->
  memory_ok pool (pool_Get pool pick m).2 /\ (pool_Get pool pick m).1 ∉ dom o /\
  holds (pool_Get pool pick m).2 (<[(pool_Get pool pick m).1 := []]> o) /\
  respects m (pool_Get pool pick m).2 o (<[(pool_Get pool pick m).1 := []]> o).
Proof.
  intros Hm Ho. assert (E : pool_Get pool pick m = Buffer_Get pick m) by by destruct pool. rewrite E. clear E.
  unfold Buffer_Get. destruct pick as [i|]; [|by apply new_buffer_taken].
  destruct (me_free m !! i) as [x|] eqn:Ei; [|by apply new_buffer_taken]. cbn [fst snd].
  destruct Hm as [Hnd Hf]. set (m' := m <| me_free ::= _ |>).
  apply delete_Permutation in Ei. change (delete i (me_free m)) with (me_free m') in Ei.
  rewrite Ei in Hnd. apply NoDup_cons in Hnd as [Hx Hnd].
  assert (Hsub : forall y, y ∈ me_free m' -> y ∈ me_free m) by (intros y Hy; rewrite Ei; by right).
  assert (Hm : memory_ok pool m') by (split; [done|]; intros y Hy; apply Hf; auto).
  assert (Hin : x ∈ me_free m) by (rewrite Ei; by left).
  split; [done|]. apply take_buffer; try done.
  - destruct (Hf x Hin) as (b & Hb & ? & _). by exists b.
  - intros w Hw. destruct (w !! x) eqn:E; [|done]. by destruct (holds_elem _ _ _ _ Hw E).
Qed.

(** A change of a buffer that a thread holds, which leaves it out of the pool. *)
Lemma change_held m o x b f b' :
  memory_ok pool m -> holds m o -> o !! x = Some b -> (forall buf, bf_bytes buf = b -> bf_bytes (f buf) = b') ->
  memory_ok pool (m <| me_bufs ::= alter f x |>) /\ holds (m <| me_bufs ::= alter f x |>) (<[x := b']> o) /\
  respects m (m <| me_bufs ::= alter f x |>) o (<[x := b']> o).
Proof.
  intros [Hnd Hf] Ho Hx Hb. set (m' := m <| me_bufs ::= _ |>). destruct (Ho x b Hx) as (Hxf & buf & Hbuf & Eb).
  assert (Hother : forall y, y <> x -> me_bufs m' !! y = me_bufs m !! y) by (intros y Hy; by apply lookup_alter_ne).
  split_and!.
  - split; [done|]. intros y Hy. rewrite Hother; [auto|]. by intros ->.
  - intros y c. rewrite lookup_insert_Some. intros [[<- <-]|[Hne Hy]].
    + split; [done|]. exists (f buf). split; [|auto]. change (alter f x (me_bufs m) !! x = Some (f buf)). by rewrite lookup_alter_eq, Hbuf.
    + rewrite Hother by done. by apply Ho.
  - intros w Hw Hd. pose proof (disjoint_lookup _ _ _ _ Hd Hx) as Hwx. split; [|by apply map_disjoint_insert_r].
    intros y c Hy. rewrite Hother by (by intros ->; simplify_eq). by apply Hw.
Qed.

(** A buffer that a thread gives up. *)
Lemma respects_delete m o x : holds m o -> holds m (delete x o) /\ respects m m o (delete x o).
Proof.
  intros Ho. split.
  - intros y c [_ Hy]%lookup_delete_Some. by apply Ho.
  - intros w Hw Hd. split; [done|]. by apply map_disjoint_delete_r.
Qed.

Lemma Buffer_Put_given m o x b :
  memory_ok pool m -> holds m o -> o !! x = Some b ->
  (forall buf, me_bufs m !! x = Some buf -> within pool (bf_cap buf)) ->
  memory_ok pool (Buffer_Put x m) /\ holds (Buffer_Put x m) (delete x o) /\ respects m (Buffer_Put x m) o (delete x o).
Proof.
  intros Hm Ho Hx Hw. pose proof (change_held m o x b Buf_Reset [] Hm Ho Hx ltac:(done)) as (Hm' & Ho' & Hr).
  set (m1 := m <| me_bufs ::= alter Buf_Reset x |>) in *. destruct (Ho x b Hx) as (Hxf & buf & Hbuf & Eb).
  assert (Hm1 : me_bufs m1 !! x = Some (Buf_Reset buf)) by (change (alter Buf_Reset x (me_bufs m) !! x = Some (Buf_Reset buf)); by rewrite lookup_alter_eq, Hbuf).
  change (Buffer_Put x m) with (m1 <| me_free ::= cons x |>).
  assert (Hkeep : forall w, holds m1 w -> w !! x = None -> holds (m1 <| me_free ::= cons x |>) w).
  { intros w Hww Hwx y c Hy. destruct (Hww y c Hy) as [H1 H2]. split; [|done].
    change (y ∉ x :: me_free m1). apply not_elem_of_cons. split; [|done]. intros ->. by simplify_eq. }
  split_and!.
  - destruct Hm' as [Hnd Hf]. split; [by constructor|]. intros y [->|Hy]%elem_of_cons; [|by apply Hf].
    exists (Buf_Reset buf). split; [exact Hm1|]. split; [done|]. exact (Hw buf Hbuf).
  - apply Hkeep; [|apply lookup_delete_eq]. rewrite <- (delete_insert_eq o x []). apply respects_delete, Ho'.
  - intros w Hww Hd. destruct (Hr w Hww Hd) as [H1 H2]. split; [|by apply map_disjoint_delete_r].
    apply Hkeep; [done|exact (disjoint_lookup w o x b Hd Hx)].
Qed.

Lemma pool_Put_given m o x b :
  memory_ok pool m -> holds m o -> o !! x = Some b ->
  memory_ok pool (pool_Put pool x m) /\ holds (pool_Put pool x m) (delete x o) /\ respects m (pool_Put pool x m) o (delete x o).
Proof.
  intros Hm Ho Hx. unfold pool_Put. destruct pool as [|max] eqn:Ep; [rewrite <- Ep in *; eapply Buffer_Put_given; [done..|]; by rewrite Ep|].
  unfold BufferWithCap_Put. destruct (me_bufs m !! x) as [buf|] eqn:Eb; [|split; [done|by apply respects_delete]].
  destruct (max <? bf_cap buf) eqn:Ec; [split; [done|by apply respects_delete]|]. rewrite <- Ep in *.
  eapply Buffer_Put_given; [done..|]. intros buf' Hb. rewrite Ep. simplify_eq. cbn. bool_to_prop. lia.
Qed.

Lemma thread_step {A} pick grow (p : Prog A) m o r :
  memory_ok pool m -> holds m o -> yields o p r ->
  exists o', yields o' (prog_step pool pick grow p m).1 r /\ memory_ok pool (prog_step pool pick grow p m).2 /\
    holds (prog_step pool pick grow p m).2 o' /\ respects m (prog_step pool pick grow p m).2 o o'.
Proof.
  intros Hm Ho Hy. destruct Hy as [o a|o k r Hk|o k r Hk|o x b0 b k r Hx Hk|o x b k r Hx Hk|o x b k r Hx Hk]; cbn [prog_step].
  - exists o. split; [constructor|]. split_and!; [done|done|]. by intros w.
  - destruct (new_buffer_taken m o Hm Ho) as (H1 & H2 & H3 & H4). destruct (new_buffer m) as [x m']. exists (<[x := []]> o). cbn [fst snd] in *. auto.
  - destruct (pool_Get_taken pick m o Hm Ho) as (H1 & H2 & H3 & H4). destruct (pool_Get pool pick m) as [x m']. exists (<[x := []]> o). cbn [fst snd] in *. auto.
  - exists (<[x := b0 ++ b]> o). split; [done|]. apply (change_held m o x b0); try done. intros buf <-. done.
  - exists o. destruct (Ho x b Hx) as (_ & buf & -> & ->). split; [done|]. split_and!; [done|done|]. by intros w.
  - exists (delete x o). split; [done|]. by eapply pool_Put_given.
Qed.
End Step.

(** ** Any interleaving *)

Section System.
Context {A : Type} (pool : BufferPool).
Implicit Types (ps : list (Prog A)) (rs : list A).

(** The other threads after a step of thread [i]. *)
Lemma apart_insert (os : list (gmap nat bytes)) i o o' m m' :
  os !! i = Some o -> holds m' o' -> respects m m' o o' ->
  (forall j w, os !! j = Some w -> holds m w) ->
  (forall j k w w', j <> k -> os !! j = Some w -> os !! k = Some w' -> w ##ₘ w') ->
  (forall j w, <[i := o']> os !! j = Some w -> holds m' w) /\
  (forall j k w w', j <> k -> <[i := o']> os !! j = Some w -> <[i := o']> os !! k = Some w' -> w ##ₘ w').
Proof.
  intros Hi Ho' Hr Hh Ha.
  assert (H : forall j w, j <> i -> os !! j = Some w -> holds m' w /\ w ##ₘ o').
  { intros j w Hne Hj. apply Hr; [by eapply Hh|by eapply Ha]. }
  split.
  - intros j w [(-> & <- & _)|[Hne Hj]]%list_lookup_insert_Some; [done|]. by apply (H j).
  - intros j k w w' Hne [(-> & <- & _)|[Hj1 Hj]]%list_lookup_insert_Some [(<- & <- & _)|[Hk1 Hk]]%list_lookup_insert_Some;
      [done|symmetry; by apply (H k)|by apply (H j)|by apply (Ha j k)].
Qed.

Lemma run_ok rs os i pick grow ps m p r :
  system_ok pool rs os (ps, m) -> ps !! i = Some p -> rs !! i = Some r ->
  exists o', system_ok pool rs (<[i := o']> os) (<[i := (prog_step pool pick grow p m).1]> ps, (prog_step pool pick grow p m).2) /\
    yields o' (prog_step pool pick grow p m).1 r.
Proof.
  intros [Hm Hl Hrs Ht Hh Ha] Hi Hr. cbn [fst snd] in *. destruct (Ht i p Hi) as (o & r' & Ho & Hr' & Hy). simplify_eq.
  destruct (thread_step pool pick grow p m o r Hm (Hh i o Ho) Hy) as (o' & Hy' & Hm' & Ho' & Hresp).
  destruct (apart_insert os i o o' _ _ Ho Ho' Hresp Hh Ha) as [Hh' Ha']. exists o'. split; [|done].
  split; cbn [fst snd]; try done; [by rewrite !length_insert|by rewrite length_insert|].
  intros j q [(-> & <- & _)|[Hne Hj]]%list_lookup_insert_Some.
  - exists o', r. rewrite list_lookup_insert_eq by (by eapply lookup_lt_Some). done.
  - rewrite list_lookup_insert_ne by done. by apply Ht.
Qed.

Lemma collect_ok rs os keep ps m :
  system_ok pool rs os (ps, m) -> system_ok pool rs os (ps, m <| me_free ::= List.filter keep |>).
Proof.
  intros [[Hnd Hf] Hl Hrs Ht Hh Ha]. cbn [fst snd] in *.
  assert (Hsub : forall x, x ∈ List.filter keep (me_free m) -> x ∈ me_free m) by (intros x; rewrite !list_elem_of_In, filter_In; tauto).
  split; cbn [fst snd]; try done.
  - split; [|by intros x Hx%Hsub; apply Hf]. apply NoDup_ListNoDup, List.NoDup_filter, NoDup_ListNoDup, Hnd.
  - intros i o Hi x b Hx. destruct (Hh i o Hi x b Hx) as [H1 H2]. split; [|done]. by intros H%Hsub.
Qed.

Lemma sys_step_ok rs os t s :
  system_ok pool rs os s -> exists os', system_ok pool rs os' (sys_step pool t s).
Proof.
  destruct s as [ps m]. intros H. destruct t as [i pick grow|keep]; cbn [sys_step]; [|exists os; by apply collect_ok].
  destruct (ps !! i) as [p|] eqn:Ei; [|eauto]. destruct (sy_threads _ _ _ _ H i p Ei) as (o & r & _ & Hr & _).
  destruct (run_ok rs os i pick grow ps m p r H Ei Hr) as (o' & H' & _). destruct (prog_step pool pick grow p m) as [p' m']. eauto.
Qed.

Lemma sys_run_ok rs ts os s : system_ok pool rs os s -> exists os', system_ok pool rs os' (sys_run pool ts s).
Proof.
  induction ts as [|t ts IH] in os, s |- *; intros H; [eauto|]. destruct (sys_step_ok rs os t s H) as [os' H'].
  exact (IH os' _ H').
Qed.

(** One thread alone comes to its end. *)
Lemma thread_finishes rs i r p : forall os ps m,
  system_ok pool rs os (ps, m) -> ps !! i = Some p -> rs !! i = Some r ->
  exists ts os' m', sys_run pool ts (ps, m) = (<[i := PRet r]> ps, m') /\ system_ok pool rs os' (<[i := PRet r]> ps, m').
Proof.
  assert (Hstep : forall p os ps m, system_ok pool rs os (ps, m) -> ps !! i = Some p -> rs !! i = Some r ->
    (forall os m', system_ok pool rs os (<[i := (prog_step pool None 0 p m).1]> ps, m') -> exists ts os' m'',
      sys_run pool ts (<[i := (prog_step pool None 0 p m).1]> ps, m') = (<[i := PRet r]> (<[i := (prog_step pool None 0 p m).1]> ps), m'') /\
      system_ok pool rs os' (<[i := PRet r]> (<[i := (prog_step pool None 0 p m).1]> ps), m'')) ->
    exists ts os' m', sys_run pool ts (ps, m) = (<[i := PRet r]> ps, m') /\ system_ok pool rs os' (<[i := PRet r]> ps, m')).
  { intros q os ps m H Hi Hr IH. destruct (run_ok rs os i None 0 ps m q r H Hi Hr) as (o' & H' & _).
    destruct (IH _ _ H') as (ts & os' & m'' & E & Hok). rewrite list_insert_insert_eq in E, Hok.
    exists (Run i None 0 :: ts), os', m''. split; [|done].
    change (sys_run pool (Run i None 0 :: ts) (ps, m)) with (sys_run pool ts (sys_step pool (Run i None 0) (ps, m))).
    cbn [sys_step]. rewrite Hi. by destruct (prog_step pool None 0 q m). }
  induction p as [a|k IH|k IH|x b k IH|x k IH|x k IH]; intros os ps m H Hi Hr;
    [|eapply Hstep; [exact H|exact Hi|exact Hr|]; intros os1 m1 H1..].
  - destruct (sy_threads _ _ _ _ H i _ Hi) as (o & r' & _ & Hr' & Hy). inversion Hy; subst.
    assert (r' = r) as -> by congruence. exists [], os, m. rewrite list_insert_id by done. done.
  - cbn [prog_step] in *. destruct (new_buffer m) as [x m2]. cbn [fst] in *. eapply IH; [exact H1| |done].
    apply list_lookup_insert_eq. by eapply lookup_lt_Some.
  - cbn [prog_step] in *. destruct (pool_Get pool None m) as [x m2]. cbn [fst] in *. eapply IH; [exact H1| |done].
    apply list_lookup_insert_eq. by eapply lookup_lt_Some.
  - eapply IH; [exact H1| |done]. apply list_lookup_insert_eq. by eapply lookup_lt_Some.
  - cbn [prog_step fst] in *. eapply IH; [exact H1| |done]. apply list_lookup_insert_eq. by eapply lookup_lt_Some.
  - eapply IH; [exact H1| |done]. apply list_lookup_insert_eq. by eapply lookup_lt_Some.
Qed.

Lemma sys_run_app ts1 ts2 (s : list (Prog A) * Memory) : sys_run pool (ts1 ++ ts2) s = sys_run pool ts2 (sys_run pool ts1 s).
Proof. apply foldl_app. Qed.

(** One thread after the other, all come to their end. *)
Lemma threads_finish rs n : forall os ps m,
  system_ok pool rs os (ps, m) -> (n <= length ps)%nat ->
  exists ts os' m', sys_run pool ts (ps, m) = ((PRet <$> take n rs) ++ drop n ps, m') /\
    system_ok pool rs os' ((PRet <$> take n rs) ++ drop n ps, m').
Proof.
  induction n as [|n IH]; intros os ps m H Hn; [by exists [], os, m|].
  pose proof (sy_results _ _ _ _ H) as Hl. cbn [fst] in Hl. destruct (IH os ps m H ltac:(lia)) as (ts & os1 & m1 & E1 & H1).
  destruct (lookup_lt_is_Some_2 rs n) as [r Hr]; [lia|]. destruct (lookup_lt_is_Some_2 ps n) as [p Hp]; [lia|].
  assert (Hlen : length (PRet <$> take n rs) = n) by (rewrite length_fmap, length_take; lia).
  assert (Hin : ((PRet <$> take n rs) ++ drop n ps) !! n = Some p).
  { rewrite lookup_app_r by lia. rewrite Hlen, Nat.sub_diag, lookup_drop, Nat.add_0_r. done. }
  destruct (thread_finishes rs n r p os1 _ m1 H1 Hin Hr) as (ts2 & os2 & m2 & E2 & H2).
  assert (Eq : <[n := PRet r]> ((PRet <$> take n rs) ++ drop n ps) = (PRet <$> take (S n) rs) ++ drop (S n) ps).
  { rewrite (take_S_r rs n r Hr), fmap_app, <- app_assoc. rewrite (drop_S ps p n Hp).
    rewrite <- Hlen at 1. rewrite <- (Nat.add_0_r (length (PRet <$> take n rs))). by rewrite insert_app_r. }
  rewrite Eq in E2, H2. exists (ts ++ ts2), os2, m2. split; [|done]. by rewrite sys_run_app, E1.
Qed.

Lemma system_start ps rs : Forall2 (yields ∅) ps rs -> system_ok pool rs (replicate (length ps) ∅) (ps, Memory0).
Proof.
  intros H. split; cbn [fst snd].
  - split; [constructor|]. by intros x ?%elem_of_nil.
  - by rewrite length_replicate.
  - symmetry. by eapply Forall2_length.
  - intros i p Hp. destruct (Forall2_lookup_l _ _ _ _ _ H Hp) as (r & Hr & Hy). exists ∅, r.
    rewrite lookup_replicate_2 by (by eapply lookup_lt_Some). done.
  - intros i o [-> _]%lookup_replicate. intros x b Hx. by rewrite lookup_empty in Hx.
  - intros i j o o' _ [-> _]%lookup_replicate [-> _]%lookup_replicate. apply map_disjoint_empty_l.
Qed.

(** Programs that use only what they hold do not see each other: whatever the
    scheduler, the pool and the collector do, a program that has ended has
    returned its result, all can end, and the buffers in the pool are empty,
    within the limit, and in it once. *)
Lemma isolation ps rs ts :
  Forall2 (yields ∅) ps rs ->
  let s := sys_run pool ts (ps, Memory0) in
  (forall i a, s.1 !! i = Some (PRet a) -> rs !! i = Some a) /\ memory_ok pool s.2 /\
  exists ts' m', sys_run pool (ts ++ ts') (ps, Memory0) = (PRet <$> rs, m').
Proof.
  intros H. cbn zeta. destruct (sys_run_ok rs ts _ _ (system_start ps rs H)) as [os Hok].
  split_and!; [|exact (sy_memory _ _ _ _ Hok)|].
  - intros i a Hi. destruct (sy_threads _ _ _ _ Hok i _ Hi) as (o & r & _ & Hr & Hy). by inversion Hy; subst.
  - destruct (sys_run pool ts (ps, Memory0)) as [ps1 m1] eqn:E. pose proof (sy_results _ _ _ _ Hok) as Hl. cbn [fst] in Hl.
    destruct (threads_finish rs (length ps1) os ps1 m1 Hok ltac:(lia)) as (ts' & os' & m' & E' & _).
    exists ts', m'. rewrite sys_run_app, E, E'. rewrite firstn_all2, drop_ge by lia. by rewrite app_nil_r.
Qed.
End System.
