(* ===== verification/PooledEncode.v ===== *)
(** * The encoders on pooled buffers (packets/packets.go, packets/properties.go)

    The encoders of [Packets] and [Properties] give the bytes of a packet. Here
    they are as the code has them: functions that take buffers from the pool,
    write to them and give them back when they return. However many of them run
    at once on the one pool of the process, each writes the bytes of [Packets]. *)
From S2P Require Import Prelude Codes Effects Codec FixedHeader Properties Packets Wire Mempool.

(** ** Functions with deferred calls

    A function carries the buffers it has deferred to put back, the last one
    first, and returns a result or an error. *)
Definition Fn (A : Type) : Type := list nat -> Prog (result error A * list nat).

#[export] Instance Fn_ret : MRet Fn := fun A a d => PRet (Ok a, d).
#[export] Instance Fn_bind : MBind Fn := fun A B f m d =>
  prog_bind (m d) (fun rd =>
    match rd with
    | (Ok a, d) => f a d
    | (Err e, d) => PRet (Err e, d)
    | (Panic, d) => PRet (Panic, d)
    | (Diverge, d) => PRet (Diverge, d)
    end).

Definition raise {A} (e : error) : Fn A := fun d => PRet (Err e, d).
Definition only_if (c : bool) (m : Fn unit) : Fn unit := if c then m else mret tt.
Fixpoint each {A} (l : list A) (body : A -> Fn unit) : Fn unit :=
  match l with
  | [] => mret tt
  | x :: l => body x;; each l body
  end.

(** [x := mempool.GetBuffer(); defer mempool.PutBuffer(x)] *)
Definition GetBuffer : Fn nat := fun d => PGet (fun x => PRet (Ok x, x :: d)).
Definition Write (x : nat) (b : bytes) : Fn unit := fun d => PWrite x b (PRet (Ok tt, d)).
Definition WriteByte (x : nat) (c : Z) : Fn unit := Write x [c].
Definition Bytes (x : nat) : Fn bytes := fun d => PBytes x (fun b => PRet (Ok b, d)).
Definition Len (x : nat) : Fn nat := b ← Bytes x; mret (length b).

(** The deferred calls, and a call of a function. *)
Fixpoint put_all {A} (d : list nat) (k : Prog A) : Prog A :=
  match d with
  | [] => k
  | x :: d => PPut x (put_all d k)
  end.
Definition func {A} (m : Fn A) : Fn A := fun d => prog_bind (m []) (fun rd => put_all rd.2 (PRet (rd.1, d))).

(** ** Properties *)

(** A property: its identifier, then its value. *)
Definition property (buf : nat) (c : bool) (k : Z) (v : bytes) : Fn unit :=
  only_if c (WriteByte buf k;; Write buf v).

Definition pooled_Properties_Encode (pkt : Z) (mods : Mods) (p : Properties) (b : nat) (n : nat) : Fn unit := func (
  buf ← GetBuffer;
  property buf (canEncode pkt PropPayloadFormat && pr_PayloadFormatFlag p) PropPayloadFormat [pr_PayloadFormat p];;
  property buf (canEncode pkt PropMessageExpiryInterval && (0 <? pr_MessageExpiryInterval p))
    PropMessageExpiryInterval (encodeUint32 (pr_MessageExpiryInterval p));;
  property buf (canEncode pkt PropContentType && nonempty (pr_ContentType p)) PropContentType (encodeString (pr_ContentType p));;
  property buf (mod_AllowResponseInfo mods && canEncode pkt PropResponseTopic &&
         nonempty (pr_ResponseTopic p) && negb (contains_any (pr_ResponseTopic p) !"+#"))
    PropResponseTopic (encodeString (pr_ResponseTopic p));;
  property buf (mod_AllowResponseInfo mods && canEncode pkt PropCorrelationData && nonempty (pr_CorrelationData p))
    PropCorrelationData (encodeBytes (pr_CorrelationData p));;
  only_if (canEncode pkt PropSubscriptionIdentifier && nonempty (pr_SubscriptionIdentifier p))
    (each (pr_SubscriptionIdentifier p) (fun v =>
       only_if (0 <? v) (WriteByte buf PropSubscriptionIdentifier;; Write buf (encodeLength v))));;
  property buf (canEncode pkt PropSessionExpiryInterval && pr_SessionExpiryIntervalFlag p)
    PropSessionExpiryInterval (encodeUint32 (pr_SessionExpiryInterval p));;
  property buf (canEncode pkt PropAssignedClientID && nonempty (pr_AssignedClientID p))
    PropAssignedClientID (encodeString (pr_AssignedClientID p));;
  property buf (canEncode pkt PropServerKeepAlive && pr_ServerKeepAliveFlag p)
    PropServerKeepAlive (encodeUint16 (pr_ServerKeepAlive p));;
  property buf (canEncode pkt PropAuthenticationMethod && nonempty (pr_AuthenticationMethod p))
    PropAuthenticationMethod (encodeString (pr_AuthenticationMethod p));;
  property buf (canEncode pkt PropAuthenticationData && nonempty (pr_AuthenticationData p))
    PropAuthenticationData (encodeBytes (pr_AuthenticationData p));;
  property buf (canEncode pkt PropRequestProblemInfo && pr_RequestProblemInfoFlag p)
    PropRequestProblemInfo [pr_RequestProblemInfo p];;
  property buf (canEncode pkt PropWillDelayInterval && (0 <? pr_WillDelayInterval p))
    PropWillDelayInterval (encodeUint32 (pr_WillDelayInterval p));;
  property buf (canEncode pkt PropRequestResponseInfo && (0 <? pr_RequestResponseInfo p))
    PropRequestResponseInfo [pr_RequestResponseInfo p];;
  property buf (mod_AllowResponseInfo mods && canEncode pkt PropResponseInfo && nonempty (pr_ResponseInfo p))
    PropResponseInfo (encodeString (pr_ResponseInfo p));;
  property buf (canEncode pkt PropServerReference && nonempty (pr_ServerReference p))
    PropServerReference (encodeString (pr_ServerReference p));;
  only_if (negb (mod_DisallowProblemInfo mods) && canEncode pkt PropReasonString && nonempty (pr_ReasonString p))
    (let b := encodeString (pr_ReasonString p) in property buf (fits_max_size mods n (length b)) PropReasonString b);;
  property buf (canEncode pkt PropReceiveMaximum && (0 <? pr_ReceiveMaximum p))
    PropReceiveMaximum (encodeUint16 (pr_ReceiveMaximum p));;
  property buf (canEncode pkt PropTopicAliasMaximum && (0 <? pr_TopicAliasMaximum p))
    PropTopicAliasMaximum (encodeUint16 (pr_TopicAliasMaximum p));;
  property buf (canEncode pkt PropTopicAlias && pr_TopicAliasFlag p && (0 <? pr_TopicAlias p))
    PropTopicAlias (encodeUint16 (pr_TopicAlias p));;
  property buf (canEncode pkt PropMaximumQos && pr_MaximumQosFlag p && (pr_MaximumQos p <? 2))
    PropMaximumQos [pr_MaximumQos p];;
  property buf (canEncode pkt PropRetainAvailable && pr_RetainAvailableFlag p)
    PropRetainAvailable [pr_RetainAvailable p];;
  only_if (negb (mod_DisallowProblemInfo mods) && canEncode pkt PropUser) (
    pb ← GetBuffer;
    each (pr_User p) (fun v =>
      WriteByte pb PropUser;; Write pb (encodeString (up_Key v));; Write pb (encodeString (up_Val v)));;
    l ← Len pb;
    only_if (fits_max_size mods n l) (u ← Bytes pb; Write buf u));;
  property buf (canEncode pkt PropMaximumPacketSize && (0 <? pr_MaximumPacketSize p))
    PropMaximumPacketSize (encodeUint32 (pr_MaximumPacketSize p));;
  property buf (canEncode pkt PropWildcardSubAvailable && pr_WildcardSubAvailableFlag p)
    PropWildcardSubAvailable [pr_WildcardSubAvailable p];;
  property buf (canEncode pkt PropSubIDAvailable && pr_SubIDAvailableFlag p)
    PropSubIDAvailable [pr_SubIDAvailable p];;
  property buf (canEncode pkt PropSharedSubAvailable && pr_SharedSubAvailableFlag p)
    PropSharedSubAvailable [pr_SharedSubAvailable p];;
  l ← Len buf;
  Write b (encodeLength (Z.of_nat l));;
  v ← Bytes buf;
  Write b v).

(** ** Packets *)

Definition pooled_FixedHeader_Encode (fh : FixedHeader) (buf : nat) : Fn unit :=
  WriteByte buf (FixedHeader_first_byte fh);; Write buf (encodeLength (fh_Remaining fh)).

(** [pb := mempool.GetBuffer(); defer ...; props.Encode(..., pb, n); nb.Write(pb.Bytes())] *)
Definition write_props (pkt : Z) (mods : Mods) (p : Properties) (nb n : nat) : Fn unit :=
  pb ← GetBuffer;
  pooled_Properties_Encode pkt mods p pb n;;
  b ← Bytes pb;
  Write nb b.
Definition packet_props (pk : Packet) (nb n : nat) : Fn unit := write_props (pk_Type pk) (pk_Mods pk) (pk_Properties pk) nb n.

(** [pk.FixedHeader.Remaining = nb.Len(); pk.FixedHeader.Encode(buf); buf.Write(nb.Bytes())] *)
Definition write_packet (pk : Packet) (nb buf : nat) : Fn Packet :=
  l ← Len nb;
  let pk := pk <| pk_FixedHeader ::= fun fh => fh <| fh_Remaining := Z.of_nat l |> |> in
  pooled_FixedHeader_Encode (pk_FixedHeader pk) buf;;
  b ← Bytes nb;
  Write buf b;;
  mret pk.

Definition pooled_ConnectEncode (pk : Packet) (buf : nat) : Fn Packet := func (
  let c := pk_Connect pk in
  nb ← GetBuffer;
  Write nb (encodeBytes (cp_ProtocolName c));;
  WriteByte nb (pk_ProtocolVersion pk);;
  WriteByte nb (connect_flags c);;
  Write nb (encodeUint16 (cp_Keepalive c));;
  only_if (v5 pk) (packet_props pk nb 0);;
  Write nb (encodeString (cp_ClientIdentifier c));;
  only_if (cp_WillFlag c) (
    only_if (v5 pk) (write_props WillProperties (pk_Mods pk) (cp_WillProperties c) nb 0);;
    Write nb (encodeString (cp_WillTopic c));;
    Write nb (encodeBytes (cp_WillPayload c)));;
  only_if (cp_UsernameFlag c) (Write nb (encodeBytes (cp_Username c)));;
  only_if (cp_PasswordFlag c) (Write nb (encodeBytes (cp_Password c)));;
  write_packet pk nb buf).

Definition pooled_ConnackEncode (pk : Packet) (buf : nat) : Fn Packet := func (
  nb ← GetBuffer;
  WriteByte nb (encodeBool (pk_SessionPresent pk));;
  WriteByte nb (pk_ReasonCode pk);;
  only_if (v5 pk) (l ← Len nb; packet_props pk nb (l + 2));;
  write_packet pk nb buf).

Definition pooled_DisconnectEncode (pk : Packet) (buf : nat) : Fn Packet := func (
  nb ← GetBuffer;
  only_if (v5 pk) (WriteByte nb (pk_ReasonCode pk);; l ← Len nb; packet_props pk nb l);;
  write_packet pk nb buf).

Definition pooled_PingreqEncode (pk : Packet) (buf : nat) : Fn Packet :=
  pooled_FixedHeader_Encode (pk_FixedHeader pk) buf;; mret pk.
Definition pooled_PingrespEncode (pk : Packet) (buf : nat) : Fn Packet :=
  pooled_FixedHeader_Encode (pk_FixedHeader pk) buf;; mret pk.

Definition pooled_PublishEncode (pk : Packet) (buf : nat) : Fn Packet := func (
  nb ← GetBuffer;
  Write nb (encodeString (pk_TopicName pk));;
  only_if (0 <? pk_Qos pk) (
    if pk_PacketID pk =? 0 then raise (ECode ErrProtocolViolationNoPacketID)
    else Write nb (encodeUint16 (pk_PacketID pk)));;
  only_if (v5 pk) (l ← Len nb; packet_props pk nb (l + length (pk_Payload pk)));;
  l ← Len nb;
  let pk := pk <| pk_FixedHeader ::= fun fh => fh <| fh_Remaining := Z.of_nat (l + length (pk_Payload pk)) |> |> in
  pooled_FixedHeader_Encode (pk_FixedHeader pk) buf;;
  b ← Bytes nb;
  Write buf b;;
  Write buf (pk_Payload pk);;
  mret pk).

Definition pooled_encodePubAckRelRecComp (pk : Packet) (buf : nat) : Fn Packet := func (
  nb ← GetBuffer;
  Write nb (encodeUint16 (pk_PacketID pk));;
  only_if (v5 pk) (
    pb ← GetBuffer;
    l ← Len nb;
    pooled_Properties_Encode (pk_Type pk) (pk_Mods pk) (pk_Properties pk) pb l;;
    l ← Len pb;
    only_if ((Code_Code ErrUnspecifiedError <=? pk_ReasonCode pk) || (1 <? l)%nat) (WriteByte nb (pk_ReasonCode pk));;
    l ← Len pb;
    only_if (1 <? l)%nat (b ← Bytes pb; Write nb b));;
  write_packet pk nb buf).

Definition pooled_SubackEncode (pk : Packet) (buf : nat) : Fn Packet := func (
  nb ← GetBuffer;
  Write nb (encodeUint16 (pk_PacketID pk));;
  only_if (v5 pk) (l ← Len nb; packet_props pk nb (l + length (pk_ReasonCodes pk)));;
  Write nb (pk_ReasonCodes pk);;
  write_packet pk nb buf).

(** [SubscribeEncode] and [UnsubscribeEncode] from where the filters are in [xb]. *)
Definition write_filters (pk : Packet) (nb xb buf : nat) : Fn Packet :=
  only_if (v5 pk) (l ← Len nb; x ← Len xb; packet_props pk nb (l + x));;
  b ← Bytes xb;
  Write nb b;;
  write_packet pk nb buf.

Definition pooled_SubscribeEncode (pk : Packet) (buf : nat) : Fn Packet := func (
  if pk_PacketID pk =? 0 then raise (ECode ErrProtocolViolationNoPacketID)
  else
    nb ← GetBuffer;
    Write nb (encodeUint16 (pk_PacketID pk));;
    xb ← GetBuffer;
    each (pk_Filters pk) (fun opts =>
      Write xb (encodeString (sub_Filter opts));;
      WriteByte xb (if v5 pk then Subscription_encode opts else sub_Qos opts));;
    write_filters pk nb xb buf).

Definition pooled_UnsubackEncode (pk : Packet) (buf : nat) : Fn Packet := func (
  nb ← GetBuffer;
  Write nb (encodeUint16 (pk_PacketID pk));;
  only_if (v5 pk) (l ← Len nb; packet_props pk nb l;; Write nb (pk_ReasonCodes pk));;
  write_packet pk nb buf).

Definition pooled_UnsubscribeEncode (pk : Packet) (buf : nat) : Fn Packet := func (
  if pk_PacketID pk =? 0 then raise (ECode ErrProtocolViolationNoPacketID)
  else
    nb ← GetBuffer;
    Write nb (encodeUint16 (pk_PacketID pk));;
    xb ← GetBuffer;
    each (pk_Filters pk) (fun sub => Write xb (encodeString (sub_Filter sub)));;
    write_filters pk nb xb buf).

Definition pooled_AuthEncode (pk : Packet) (buf : nat) : Fn Packet := func (
  nb ← GetBuffer;
  WriteByte nb (pk_ReasonCode pk);;
  l ← Len nb;
  packet_props pk nb l;;
  write_packet pk nb buf).

(** The switch of [WritePacket], with its buffer. *)
Definition pooled_encode (pk : Packet) (buf : nat) : Fn Packet :=
  let t := pk_Type pk in
  if t =? Connect then pooled_ConnectEncode pk buf
  else if t =? Connack then pooled_ConnackEncode pk buf
  else if t =? Publish then pooled_PublishEncode pk buf
  else if t =? Puback then pooled_encodePubAckRelRecComp pk buf
  else if t =? Pubrec then pooled_encodePubAckRelRecComp pk buf
  else if t =? Pubrel then pooled_encodePubAckRelRecComp pk buf
  else if t =? Pubcomp then pooled_encodePubAckRelRecComp pk buf
  else if t =? Subscribe then pooled_SubscribeEncode pk buf
  else if t =? Suback then pooled_SubackEncode pk buf
  else if t =? Unsubscribe then pooled_UnsubscribeEncode pk buf
  else if t =? Unsuback then pooled_UnsubackEncode pk buf
  else if t =? Pingreq then pooled_PingreqEncode pk buf
  else if t =? Pingresp then pooled_PingrespEncode pk buf
  else if t =? Disconnect then pooled_DisconnectEncode pk buf
  else if t =? Auth then pooled_AuthEncode pk buf
  else raise (ENoValidPacket t).

Definition pooled_encode_packet (pk : Packet) : Prog (result error (bytes * Packet)) :=
  PNew (fun buf =>
    prog_bind ((pk ← pooled_encode pk buf; b ← Bytes buf; mret (b, pk)) []) (fun rd => PRet rd.1)).

(** ** What a function does

    [runs o m r o']: holding the buffers [o], [m] returns [r] and leaves them as
    [o']; the buffers it has taken and not yet put back are others, and so are
    those of its callers, which it leaves alone. *)
Definition runs {A} (o : gmap nat bytes) (m : Fn A) (r : result error A) (o' : gmap nat bytes) : Prop :=
  dom o' = dom o /\
  forall f d B (k : result error A * list nat -> Prog B) (y : B), f ##ₘ o ->
  (forall ds t, dom t = list_to_set ds -> NoDup ds -> t ##ₘ f ∪ o' -> yields (t ∪ (f ∪ o')) (k (r, ds ++ d)) y) ->
  yields (f ∪ o) (prog_bind (m d) k) y.

Lemma prog_bind_assoc {A B C} (p : Prog A) (f : A -> Prog B) (g : B -> Prog C) y o :
  yields o (prog_bind p (fun a => prog_bind (f a) g)) y -> yields o (prog_bind (prog_bind p f) g) y.
Proof.
  induction p as [a|k IH|k IH|x b k IH|x k IH|x k IH] in o |- *; cbn [prog_bind]; [done|..]; inversion 1; subst;
    econstructor; eauto.
Qed.

(** Buffers apart from those of a domain. *)
Lemma dom_disjoint (f o o' : gmap nat bytes) : dom o' = dom o -> f ##ₘ o -> f ##ₘ o'.
Proof. rewrite !map_disjoint_dom. by intros ->. Qed.

Lemma union_shift (t2 t1 f o : gmap nat bytes) : t2 ∪ ((t1 ∪ f) ∪ o) = (t2 ∪ t1) ∪ (f ∪ o).
Proof. by rewrite !(assoc_L (∪)). Qed.

(** Disjointness of maps from disjointness of their domains. *)
Ltac apart := rewrite ?map_disjoint_dom, ?dom_union_L, ?dom_insert_L, ?dom_singleton_L in *; set_solver.

Section Runs.
Implicit Types o : gmap nat bytes.

Lemma runs_ret {A} (a : A) o : runs o (mret a) (Ok a) o.
Proof.
  split; [done|]. intros f d B k y Hd Hk. cbn. specialize (Hk [] ∅).
  rewrite map_empty_union in Hk. apply Hk; [set_solver|constructor|apply map_disjoint_empty_l].
Qed.

Lemma runs_raise {A} e o : runs o (raise e : Fn A) (Err e) o.
Proof.
  split; [done|]. intros f d B k y Hd Hk. cbn. specialize (Hk [] ∅).
  rewrite map_empty_union in Hk. apply Hk; [set_solver|constructor|apply map_disjoint_empty_l].
Qed.

Lemma runs_bind {A B} (m : Fn A) (g : A -> Fn B) a r o o1 o2 :
  runs o m (Ok a) o1 -> runs o1 (g a) r o2 -> runs o (m ≫= g) r o2.
Proof.
  intros [D1 H1] [D2 H2]. split; [congruence|]. intros f d C k y Hd Hk. apply prog_bind_assoc, H1; [done|].
  intros ds1 t1 Ht1 Hnd1 Hd1. rewrite (assoc_L (∪)). apply H2; [apart|].
  intros ds2 t2 Ht2 Hnd2 Hd2. rewrite app_assoc, union_shift. apply Hk.
  - rewrite dom_union_L, list_to_set_app_L. congruence.
  - apply NoDup_app. split_and!; [done| |done]. intros x Hx1 Hx2. apart.
  - apart.
Qed.

Lemma runs_bind_err {A B} (m : Fn A) (g : A -> Fn B) e o o1 :
  runs o m (Err e) o1 -> runs o (m ≫= g) (Err e) o1.
Proof. intros [D1 H1]. split; [done|]. intros f d C k y Hd Hk. apply prog_bind_assoc, H1; [done|]. exact Hk. Qed.

(** A buffer of its own, which it puts back when it returns. *)
Lemma runs_get {A} (g : nat -> Fn A) r o o' :
  dom o' = dom o -> (forall x, x ∉ dom o -> exists b, runs (<[x := []]> o) (g x) r (<[x := b]> o')) ->
  runs o (GetBuffer ≫= g) r o'.
Proof.
  intros D H. split; [done|]. intros f d B k y Hd Hk. cbn. constructor. intros x Hx.
  rewrite dom_union_L in Hx. apply not_elem_of_union in Hx as [Hxf Hxo]. destruct (H x Hxo) as (b & Db & Hb).
  rewrite insert_union_r by (by apply not_elem_of_dom). apply Hb; [apply map_disjoint_insert_r_2; [by apply not_elem_of_dom|done]|].
  intros ds t Ht Hnd Hdt. rewrite <- insert_union_r by (by apply not_elem_of_dom).
  assert (Hxt : x ∉ dom t) by (clear -Hdt; apart).
  assert (Hxo' : x ∉ dom o') by (by rewrite D).
  rewrite insert_union_singleton_l, (assoc_L (∪)).
  change (x :: d) with ([x] ++ d). rewrite (assoc_L (++)). apply Hk.
  - rewrite dom_union_L, dom_singleton_L, list_to_set_app_L, Ht. cbn. set_solver.
  - apply NoDup_app. split_and!; [done| |apply NoDup_singleton]. intros z Hz ->%list_elem_of_singleton. apply Hxt. rewrite Ht. by apply elem_of_list_to_set.
  - apply map_disjoint_union_l_2; [clear -Hdt; apart|]. apply map_disjoint_singleton_l_2, lookup_union_None_2; by apply not_elem_of_dom.
Qed.

(** The deferred calls. *)
Lemma yields_put_all {B} ds : forall (t o : gmap nat bytes) (k : Prog B) y,
  dom t = list_to_set ds -> NoDup ds -> t ##ₘ o -> yields o k y -> yields (t ∪ o) (put_all ds k) y.
Proof.
  induction ds as [|x ds IH]; intros t o k y Ht Hnd Hd Hk; cbn [put_all].
  - apply dom_empty_inv_L in Ht as ->. by rewrite map_empty_union.
  - apply NoDup_cons in Hnd as [Hx Hnd]. assert (Hin : x ∈ dom t) by (rewrite Ht; set_solver).
    apply elem_of_dom in Hin as [b Hb]. apply (yields_put _ _ b); [by apply lookup_union_Some_l|].
    rewrite delete_union, (delete_id o) by (by eapply map_disjoint_Some_l). apply IH; try done.
    + rewrite dom_delete_L, Ht. cbn. set_solver.
    + by apply map_disjoint_delete_l.
Qed.

Lemma runs_func {A} (m : Fn A) r o o' : runs o m r o' -> runs o (func m) r o'.
Proof.
  intros [D H]. split; [done|]. intros f d B k y Hd Hk. unfold func. apply prog_bind_assoc, H; [done|].
  intros ds t Ht Hnd Hdt. rewrite app_nil_r. cbn [fst snd].
  assert (E : forall p : Prog (result error A * list nat), prog_bind (put_all ds p) k = put_all ds (prog_bind p k)).
  { clear. intros p. induction ds as [|x ds IH]; cbn; [done|]. by rewrite IH. }
  rewrite E. apply yields_put_all; try done. cbn [prog_bind]. specialize (Hk [] ∅). rewrite map_empty_union in Hk.
  apply Hk; [set_solver|constructor|apply map_disjoint_empty_l].
Qed.

(** The operations on a buffer that is held. *)
Lemma runs_Bytes x b o : o !! x = Some b -> runs o (Bytes x) (Ok b) o.
Proof.
  intros Hx. split; [done|]. intros f d B k y Hd Hk. cbn. econstructor.
  - by apply lookup_union_Some_r.
  - specialize (Hk [] ∅). rewrite map_empty_union in Hk. apply Hk; [set_solver|constructor|apply map_disjoint_empty_l].
Qed.

Lemma runs_Len x b o : o !! x = Some b -> runs o (Len x) (Ok (length b)) o.
Proof. intros Hx. eapply runs_bind; [by apply runs_Bytes|apply runs_ret]. Qed.

Lemma runs_Write x b c o : o !! x = Some b -> runs o (Write x c) (Ok tt) (<[x := b ++ c]> o).
Proof.
  intros Hx. split; [rewrite dom_insert_L; apply elem_of_dom_2 in Hx; set_solver|]. intros f d B k y Hd Hk. cbn. econstructor.
  - by apply lookup_union_Some_r.
  - rewrite insert_union_r by (by eapply map_disjoint_Some_r). specialize (Hk [] ∅). rewrite map_empty_union in Hk.
    apply Hk; [set_solver|constructor|apply map_disjoint_empty_l].
Qed.

Lemma runs_Write_eq x b c o o' : o !! x = Some b -> <[x := b ++ c]> o = o' -> runs o (Write x c) (Ok tt) o'.
Proof. intros Hx <-. by apply runs_Write. Qed.
End Runs.

(** ** What a function writes

    [emits_at x b out m]: when buffer [x] holds [b], [m] appends [out] to it and
    changes no other buffer. *)
Definition emits_at (x : nat) (b out : bytes) (m : Fn unit) : Prop :=
  forall o, o !! x = Some b -> runs o m (Ok tt) (<[x := b ++ out]> o).

Section Emits.
Context (x : nat).

Lemma emits_Write b c : emits_at x b c (Write x c).
Proof. intros o. apply runs_Write. Qed.

Lemma emits_WriteByte b c : emits_at x b [c] (WriteByte x c).
Proof. apply emits_Write. Qed.

Lemma emits_bind b o1 o2 m1 m2 :
  emits_at x b o1 m1 -> emits_at x (b ++ o1) o2 m2 -> emits_at x b (o1 ++ o2) (m1;; m2).
Proof.
  intros H1 H2 o Ho. eapply runs_bind; [by apply H1|]. specialize (H2 (<[x := b ++ o1]> o)).
  rewrite insert_insert_eq, <- (assoc_L (++)) in H2. apply H2, lookup_insert_eq.
Qed.

Lemma emits_only_if b c out m : (c = true -> emits_at x b out m) -> emits_at x b (block c out) (only_if c m).
Proof.
  intros H. destruct c; cbn [block only_if]; [by apply H|]. intros o Ho. rewrite app_nil_r, insert_id by done. apply runs_ret.
Qed.

Lemma emits_each {A} (l : list A) (g : A -> bytes) body : (forall v b, emits_at x b (g v) (body v)) ->
  forall b, emits_at x b (concat (map g l)) (each l body).
Proof.
  intros H. induction l as [|v l IH]; intros b; cbn [each map concat]; [|by apply emits_bind].
  intros o Ho. rewrite app_nil_r, insert_id by done. apply runs_ret.
Qed.

Lemma emits_Len b out k : emits_at x b out (k (length b)) -> emits_at x b out (Len x ≫= k).
Proof. intros H o Ho. eapply runs_bind; [by apply runs_Len|]. by apply H. Qed.

Lemma emits_property b c k v : emits_at x b (block c (k :: v)) (property x c k v).
Proof. apply emits_only_if. intros _. apply (emits_bind b [k] v); [apply emits_WriteByte|apply emits_Write]. Qed.

(** What is first written to a buffer of the pool. *)
Lemma emits_section b out (f : nat -> Fn unit) (g : bytes -> Fn unit) out' :
  (forall pb, emits_at pb [] out (f pb)) -> emits_at x b out' (g out) ->
  emits_at x b out' (pb ← GetBuffer; f pb;; c ← Bytes pb; g c).
Proof.
  intros Hf Hg o Ho. apply runs_get; [rewrite dom_insert_L; apply elem_of_dom_2 in Ho; set_solver|].
  intros pb Hpb. assert (Hne : pb <> x) by (intros ->; apply Hpb, elem_of_dom; eauto). exists out.
  eapply runs_bind; [apply Hf, lookup_insert_eq|]. rewrite app_nil_l, insert_insert_eq.
  eapply runs_bind; [apply runs_Bytes, lookup_insert_eq|]. rewrite insert_insert_ne by done. apply Hg. by rewrite lookup_insert_ne.
Qed.

(** The steps of a function that writes to [x]. *)
Lemma runs_emits {A} b out m (k : Fn A) r o o' :
  emits_at x b out m -> runs (<[x := b ++ out]> o) k r o' -> runs (<[x := b]> o) (m;; k) r o'.
Proof. intros Hm Hk. eapply runs_bind; [apply Hm, lookup_insert_eq|]. by rewrite insert_insert_eq. Qed.
End Emits.

(** The conditions under which the user properties are written. *)
Lemma block_and c1 c2 b : block (c1 && c2) b = block c1 (block c2 b).
Proof. by destruct c1. Qed.

Lemma emits_user x b n mods (u : list UserProperty) :
  emits_at x b (block (fits_max_size mods n (length (encode_user u))) (encode_user u)) (
    pb ← GetBuffer;
    each u (fun v => WriteByte pb PropUser;; Write pb (encodeString (up_Key v));; Write pb (encodeString (up_Val v)));;
    l ← Len pb;
    only_if (fits_max_size mods n l) (u ← Bytes pb; Write x u)).
Proof.
  intros o Ho. apply runs_get; [rewrite dom_insert_L; apply elem_of_dom_2 in Ho; set_solver|].
  intros pb Hpb. assert (Hne : pb <> x) by (intros ->; apply Hpb, elem_of_dom; eauto). exists (encode_user u).
  eapply runs_emits; [apply emits_each with (g := fun v => PropUser :: encodeString (up_Key v) ++ encodeString (up_Val v))|].
  - intros v b'. apply (emits_bind pb b' [PropUser]); [apply emits_WriteByte|]. apply emits_bind; apply emits_Write.
  - fold (encode_user u). rewrite app_nil_l. eapply runs_bind; [apply runs_Len, lookup_insert_eq|]. rewrite insert_insert_ne by done.
    destruct (fits_max_size _ _ _); cbn [block only_if].
    + eapply runs_bind; [apply runs_Bytes, lookup_insert_eq|].
      apply runs_Write. by rewrite lookup_insert_ne.
    + rewrite app_nil_r, (insert_id (<[pb := encode_user u]> o) x b) by (by rewrite lookup_insert_ne). apply runs_ret.
Qed.

Lemma emits_Properties pkt mods p n x b : emits_at x b (Properties_Encode pkt mods p n) (pooled_Properties_Encode pkt mods p x n).
Proof.
  intros o Ho. apply runs_func, runs_get; [rewrite dom_insert_L; apply elem_of_dom_2 in Ho; set_solver|].
  intros buf Hbuf. assert (Hne : buf <> x) by (intros ->; apply Hbuf, elem_of_dom; eauto).
  exists (Properties_Encode_body pkt mods p n).
  assert (Hprop : forall b c k v (m : Fn unit) r o' o1, runs (<[buf := b ++ block c (k :: v)]> o1) m r o' ->
    runs (<[buf := b]> o1) (property buf c k v;; m) r o') by (intros; eapply runs_emits; [apply emits_property|done]).
  do 5 apply Hprop.
  eapply runs_emits.
  { apply emits_only_if. intros _. apply emits_each with (g := fun v => block (0 <? v) (PropSubscriptionIdentifier :: encodeLength v)).
    intros v b'. apply (emits_property buf b'). }
  do 10 apply Hprop.
  eapply runs_emits; [apply emits_only_if; intros _; apply emits_property|].
  do 5 apply Hprop.
  eapply runs_emits; [apply emits_only_if; intros _; apply emits_user|].
  do 4 apply Hprop.
  rewrite <- !block_and.
  match goal with |- runs (<[buf := ?c]> o) _ _ _ => replace c with (Properties_Encode_body pkt mods p n) end.
  2: { unfold Properties_Encode_body, encode_subids. rewrite <- !(assoc_L (++)), app_nil_l. done. }
  eapply runs_bind; [apply runs_Len, lookup_insert_eq|]. set (body := Properties_Encode_body _ _ _ _).
  rewrite insert_insert_ne by done.
  eapply runs_bind; [apply runs_Write; by rewrite lookup_insert_ne|]. eapply runs_bind; [apply runs_Bytes; by simplify_map_eq|].
  apply (runs_Write_eq x (b ++ encodeLength (Z.of_nat (length body)))); [apply lookup_insert_eq|].
  unfold Properties_Encode. fold body. by rewrite (assoc_L (++)), insert_insert_eq.
Qed.

Lemma emits_props pkt mods p n x b : emits_at x b (Properties_Encode pkt mods p n) (write_props pkt mods p x n).
Proof. eapply emits_section; [intros pb; apply emits_Properties|apply emits_Write]. Qed.

(** ** The encoders *)

Lemma emits_header fh buf c : emits_at buf c (FixedHeader_Encode fh) (pooled_FixedHeader_Encode fh buf).
Proof. apply (emits_bind buf c [FixedHeader_first_byte fh]); [apply emits_WriteByte|apply emits_Write]. Qed.

(** The fixed header and what is in [nb]. *)
Lemma runs_write_packet pk nb buf b c o :
  nb <> buf -> o !! nb = Some b -> o !! buf = Some c ->
  runs o (write_packet pk nb buf) (Ok (finish pk b).2) (<[buf := c ++ (finish pk b).1]> o).
Proof.
  intros Hne Hnb Hbuf. unfold write_packet. eapply runs_bind; [by apply runs_Len|]. cbv zeta. unfold finish. cbn [fst snd].
  set (pk' := pk <| pk_FixedHeader ::= _ |>).
  eapply runs_bind; [by apply emits_header|].
  eapply runs_bind; [apply runs_Bytes; rewrite lookup_insert_ne by done; exact Hnb|].
  eapply runs_bind; [apply runs_Write, lookup_insert_eq|]. rewrite insert_insert_eq, <- (assoc_L (++)). apply runs_ret.
Qed.

(** [encodes f g]: the function [f] appends to its buffer what [g] gives. *)
Definition encodes (f : nat -> Fn Packet) (g : result error (bytes * Packet)) : Prop :=
  forall buf c o, o !! buf = Some c ->
  match g with
  | Ok (b, pk) => runs o (f buf) (Ok pk) (<[buf := c ++ b]> o)
  | Err e => runs o (f buf) (Err e) o
  | _ => False
  end.

(** A function with a buffer of the pool, from its first to its last step. *)
Lemma runs_start {A} buf c out (k : nat -> Fn A) r o :
  o !! buf = Some c ->
  (forall nb, nb <> buf -> exists b, runs (<[nb := []]> o) (k nb) r (<[nb := b]> (<[buf := c ++ out]> o))) ->
  runs o (func (nb ← GetBuffer; k nb)) r (<[buf := c ++ out]> o).
Proof.
  intros Ho Hk. apply runs_func, runs_get; [rewrite dom_insert_L; apply elem_of_dom_2 in Ho; set_solver|].
  intros nb Hnb. apply Hk. intros ->. apply Hnb, elem_of_dom. eauto.
Qed.

Lemma runs_end pk nb buf b b' c o :
  nb <> buf -> o !! buf = Some c -> b = b' ->
  runs (<[nb := b]> o) (write_packet pk nb buf) (Ok (finish pk b').2) (<[nb := b']> (<[buf := c ++ (finish pk b').1]> o)).
Proof.
  intros Hne Ho <-. rewrite insert_insert_ne by done. apply runs_write_packet; [done|apply lookup_insert_eq|by rewrite lookup_insert_ne].
Qed.

(** Walks along what a function writes. *)
Ltac emit := cbv beta; lazymatch goal with
  | |- emits_at _ _ _ (Write _ _) => apply emits_Write
  | |- emits_at _ _ _ (WriteByte _ _) => apply emits_WriteByte
  | |- emits_at _ _ _ (packet_props _ _ _) => unfold packet_props; apply emits_props
  | |- emits_at _ _ _ (write_props _ _ _ _ _) => apply emits_props
  | |- emits_at _ _ _ (only_if _ _) => apply emits_only_if; intros _; emit
  | |- emits_at _ _ _ (Len _ ≫= _) => apply emits_Len; emit
  | |- emits_at _ _ _ (_ ≫= _) => eapply emits_bind; [emit|emit]
  end.
Ltac walk := repeat (lazymatch goal with
  | |- runs _ (Len _ ≫= _) _ _ => eapply runs_bind; [apply runs_Len, lookup_insert_eq|]; cbv beta
  | |- runs _ (_ ≫= _) _ _ => eapply runs_emits; [emit|]; cbv beta
  end).

Lemma encodes_packet pk b (k : nat -> nat -> Fn Packet) :
  (forall nb buf c o, nb <> buf -> o !! buf = Some c ->
    exists b', b' = b /\ runs (<[nb := []]> o) (k nb buf) (Ok (finish pk b').2) (<[nb := b']> (<[buf := c ++ (finish pk b').1]> o))) ->
  encodes (fun buf => func (nb ← GetBuffer; k nb buf)) (Ok (finish pk b)).
Proof.
  intros Hk buf c o Ho. destruct (finish pk b) as [out pk'] eqn:E. apply runs_start; [done|].
  intros nb Hne. exists b. destruct (Hk nb buf c o Hne Ho) as (b' & -> & H). by rewrite E in H.
Qed.
Ltac encoder := apply encodes_packet; intros nb buf c o Hne Ho; eexists; split; [|walk; apply runs_end; [done|done|reflexivity]].

Lemma encodes_Connect pk : encodes (pooled_ConnectEncode pk) (ConnectEncode pk).
Proof. encoder. by rewrite <- !(assoc_L (++)). Qed.

Lemma encodes_Connack pk : encodes (pooled_ConnackEncode pk) (ConnackEncode pk).
Proof. encoder. done. Qed.

Lemma encodes_Disconnect pk : encodes (pooled_DisconnectEncode pk) (DisconnectEncode pk).
Proof. encoder. done. Qed.

Lemma encodes_Suback pk : encodes (pooled_SubackEncode pk) (SubackEncode pk).
Proof. encoder. by rewrite <- !(assoc_L (++)). Qed.

Lemma encodes_Unsuback pk : encodes (pooled_UnsubackEncode pk) (UnsubackEncode pk).
Proof. encoder. by rewrite <- !(assoc_L (++)). Qed.

Lemma encodes_Auth pk : encodes (pooled_AuthEncode pk) (AuthEncode pk).
Proof. encoder. by rewrite <- !(assoc_L (++)). Qed.

Lemma encodes_ping pk :
  encodes (fun buf => pooled_FixedHeader_Encode (pk_FixedHeader pk) buf;; mret pk) (Ok (FixedHeader_Encode (pk_FixedHeader pk), pk)).
Proof.
  intros buf c o Ho. eapply runs_bind; [by apply emits_header|apply runs_ret].
Qed.

Lemma encodes_acks pk : encodes (pooled_encodePubAckRelRecComp pk) (encodePubAckRelRecComp pk).
Proof.
  apply encodes_packet. intros nb buf c o Hne Ho. eexists. split; [reflexivity|].
  eapply runs_emits; [emit|]. cbv zeta. rewrite app_nil_l. set (n := encodeUint16 (pk_PacketID pk)).
  eapply (runs_emits nb n (block (v5 pk) (let pb := encode_props pk (length n) in
    block ((Code_Code ErrUnspecifiedError <=? pk_ReasonCode pk) || (1 <? length pb)%nat) [pk_ReasonCode pk] ++ block (1 <? length pb)%nat pb))).
  - apply emits_only_if. intros _ o1 Ho1. cbv zeta. set (pb := encode_props pk (length n)).
    apply runs_get; [rewrite dom_insert_L; apply elem_of_dom_2 in Ho1; set_solver|].
    intros x Hx. assert (Hxn : x <> nb) by (intros ->; apply Hx, elem_of_dom; eauto). exists pb.
    eapply runs_bind; [apply runs_Len; rewrite lookup_insert_ne by done; exact Ho1|].
    eapply runs_emits; [apply emits_Properties|]. fold (encode_props pk (length n)). fold pb. rewrite app_nil_l.
    eapply runs_bind; [apply runs_Len, lookup_insert_eq|].
    rewrite (insert_insert_ne o1 x nb) by done. eapply runs_bind.
    { apply (emits_only_if nb n); [intros _; apply emits_WriteByte|by rewrite lookup_insert_ne]. }
    eapply runs_bind; [apply runs_Len; rewrite lookup_insert_ne by done; apply lookup_insert_eq|].
    set (c1 := block _ [pk_ReasonCode pk]). destruct (1 <? length pb)%nat; cbn [block only_if].
    + eapply runs_bind; [apply runs_Bytes; rewrite lookup_insert_ne by done; apply lookup_insert_eq|].
      eapply runs_Write_eq; [apply lookup_insert_eq|]. by rewrite insert_insert_eq, <- (assoc_L (++)).
    + rewrite app_nil_r. apply runs_ret.
  - apply runs_end; [done|done|]. destruct (v5 pk); cbn [block]; [done|by rewrite app_nil_r].
Qed.

(** The filters, in a buffer of their own. *)
Lemma runs_filters pk nb xb buf b x c o :
  nb <> buf -> xb <> buf -> xb <> nb -> o !! nb = Some b -> o !! buf = Some c ->
  let out := b ++ block (v5 pk) (encode_props pk (length b + length x)) ++ x in
  runs (<[xb := x]> o) (write_filters pk nb xb buf) (Ok (finish pk out).2)
    (<[xb := x]> (<[nb := out]> (<[buf := c ++ (finish pk out).1]> o))).
Proof.
  intros Hne1 Hne2 Hne3 Hb Hc out. unfold write_filters. rewrite (insert_insert_ne _ xb nb), (insert_insert_ne _ xb buf) by done.
  apply (runs_bind _ _ tt _ _ (<[nb := b ++ block (v5 pk) (encode_props pk (length b + length x))]> (<[xb := x]> o))).
  - destruct (v5 pk); cbn [block only_if].
    + eapply runs_bind; [apply runs_Len; rewrite lookup_insert_ne by done; exact Hb|].
      eapply runs_bind; [apply runs_Len, lookup_insert_eq|]. unfold packet_props. apply emits_props. by rewrite lookup_insert_ne.
    + rewrite app_nil_r, (insert_id _ nb b) by (by rewrite lookup_insert_ne). apply runs_ret.
  - eapply runs_bind; [apply runs_Bytes; rewrite lookup_insert_ne by done; apply lookup_insert_eq|].
    eapply runs_bind; [eapply runs_Write_eq; [apply lookup_insert_eq|]; by rewrite insert_insert_eq, <- (assoc_L (++))|].
    fold out. apply runs_end; [done|by rewrite lookup_insert_ne|done].
Qed.

(** [SubscribeEncode] and [UnsubscribeEncode]. *)
Lemma encodes_filters {F} pk (l : list F) (g : F -> bytes) (body : nat -> F -> Fn unit) :
  (forall xb v b, emits_at xb b (g v) (body xb v)) ->
  encodes (fun buf => func (
    if pk_PacketID pk =? 0 then raise (ECode ErrProtocolViolationNoPacketID)
    else
      nb ← GetBuffer;
      Write nb (encodeUint16 (pk_PacketID pk));;
      xb ← GetBuffer;
      each l (body xb);;
      write_filters pk nb xb buf))
    (if pk_PacketID pk =? 0 then Err (ECode ErrProtocolViolationNoPacketID)
     else
       let nb := encodeUint16 (pk_PacketID pk) in
       let xb := concat (map g l) in
       Ok (finish pk (nb ++ block (v5 pk) (encode_props pk (length nb + length xb)) ++ xb))).
Proof.
  intros Hbody buf c o Ho. destruct (pk_PacketID pk =? 0); [apply runs_func, runs_raise|]. cbv zeta.
  set (nb := encodeUint16 _). set (x := concat _). destruct (finish pk _) as [out pk'] eqn:E.
  apply runs_start; [done|]. intros n Hn. eexists. eapply runs_emits; [emit|]. rewrite app_nil_l.
  apply runs_get; [rewrite !dom_insert_L; apply elem_of_dom_2 in Ho; set_solver|]. intros xb Hxb.
  rewrite dom_insert_L in Hxb. apply not_elem_of_union in Hxb as [Hxn%not_elem_of_singleton Hxo].
  assert (Hxb : xb <> buf) by (intros ->; apply Hxo, elem_of_dom; eauto). exists x.
  eapply runs_emits; [apply emits_each, Hbody|]. fold x. rewrite app_nil_l.
  pose proof (runs_filters pk n xb buf nb x c (<[n := nb]> o) Hn Hxb Hxn (lookup_insert_eq _ _ _) ltac:(by rewrite lookup_insert_ne)) as H.
  cbv zeta in H. rewrite E in H. cbn [fst snd] in H. rewrite (insert_insert_ne _ buf n), insert_insert_eq in H by done. exact H.
Qed.

Lemma encodes_Publish pk : encodes (pooled_PublishEncode pk) (PublishEncode pk).
Proof.
  intros buf c o Ho. unfold PublishEncode, pooled_PublishEncode. cbv zeta. set (nb := encodeString _).
  destruct ((0 <? pk_Qos pk) && (pk_PacketID pk =? 0)) eqn:Ee.
  - apply andb_true_iff in Ee as [-> ->]. cbn [only_if]. mred. apply runs_func.
    apply runs_get; [done|]. intros n Hn. exists nb. eapply runs_emits; [emit|]. rewrite app_nil_l. fold nb.
    apply runs_bind_err, runs_raise.
  - set (m := block (0 <? pk_Qos pk) (encodeUint16 (pk_PacketID pk))).
    assert (E1 : (if 0 <? pk_Qos pk then if pk_PacketID pk =? 0 then Err (ECode ErrProtocolViolationNoPacketID)
      else Ok (nb ++ encodeUint16 (pk_PacketID pk)) else Ok nb) = Ok (nb ++ m) :> result error bytes).
    { subst m. destruct (0 <? pk_Qos pk); cbn [block]; [|by rewrite app_nil_r]. by destruct (pk_PacketID pk =? 0). }
    rewrite E1. mred. set (b := (nb ++ m) ++ block (v5 pk) _). unfold finish at 1.
    apply runs_start; [done|]. intros n Hne. exists b. eapply runs_emits; [emit|]. rewrite app_nil_l. fold nb.
    eapply (runs_emits n nb m).
    { intros o1 Ho1. subst m. destruct (0 <? pk_Qos pk); cbn [block only_if andb] in *; [rewrite Ee; by apply runs_Write|].
      rewrite app_nil_r, insert_id by done. apply runs_ret. }
    eapply runs_emits; [emit|]. fold (encode_props pk (length (nb ++ m) + length (pk_Payload pk))). fold b.
    eapply runs_bind; [apply runs_Len, lookup_insert_eq|]. cbv zeta. rewrite length_app.
    set (pk' := pk <| pk_FixedHeader ::= _ |>). rewrite (insert_insert_ne o n buf) by done.
    eapply runs_bind; [apply emits_header; by rewrite lookup_insert_ne|].
    eapply runs_bind; [apply runs_Bytes; rewrite lookup_insert_ne by done; apply lookup_insert_eq|].
    eapply runs_bind; [apply runs_Write, lookup_insert_eq|]. rewrite insert_insert_eq.
    eapply runs_bind; [eapply runs_Write_eq; [apply lookup_insert_eq|]; by rewrite insert_insert_eq, <- !(assoc_L (++))|]. apply runs_ret.
Qed.

Lemma encodes_Subscribe pk : encodes (pooled_SubscribeEncode pk) (SubscribeEncode pk).
Proof.
  apply (encodes_filters pk (pk_Filters pk) (encode_filter (v5 pk))). intros xb v b.
  apply emits_bind; [apply emits_Write|apply emits_WriteByte].
Qed.

Lemma encodes_Unsubscribe pk : encodes (pooled_UnsubscribeEncode pk) (UnsubscribeEncode pk).
Proof. apply (encodes_filters pk (pk_Filters pk) (fun sub => encodeString (sub_Filter sub))). intros xb v b. apply emits_Write. Qed.

Lemma encodes_if (c : bool) f1 f2 g1 g2 :
  encodes f1 g1 -> encodes f2 g2 -> encodes (fun buf => if c then f1 buf else f2 buf) (if c then g1 else g2).
Proof. by destruct c. Qed.

Lemma encodes_encode pk : encodes (pooled_encode pk) (encode_packet pk).
Proof.
  repeat apply encodes_if; [exact (encodes_Connect pk)|exact (encodes_Connack pk)|exact (encodes_Publish pk)|exact (encodes_acks pk)..
    |exact (encodes_Subscribe pk)|exact (encodes_Suback pk)|exact (encodes_Unsubscribe pk)|exact (encodes_Unsuback pk)
    |exact (encodes_ping pk)|exact (encodes_ping pk)|exact (encodes_Disconnect pk)|exact (encodes_Auth pk)|].
  intros buf c o Ho. apply runs_raise.
Qed.

(** A function that holds the one buffer it was given. *)
Lemma yields_run {A B} (m : Fn A) r x b b' (k : result error A * list nat -> Prog B) y :
  runs {[x := b]} m r {[x := b']} -> (forall o ds, o !! x = Some b' -> yields o (k (r, ds)) y) ->
  yields {[x := b]} (prog_bind (m []) k) y.
Proof.
  intros [_ H] Hk. specialize (H ∅ [] B k y (map_disjoint_empty_l _)). rewrite !map_empty_union in H. apply H.
  intros ds t _ _ Hd. rewrite app_nil_r. apply Hk.
  apply lookup_union_Some_r; [done|]. apply lookup_singleton_eq.
Qed.

Lemma encode_yields pk : yields ∅ (pooled_encode_packet pk) (encode_packet pk).
Proof.
  constructor. intros buf _. rewrite insert_empty.
  pose proof (encodes_encode pk buf [] {[buf := []]} (lookup_singleton_eq _ _)) as H.
  destruct (encode_packet pk) as [[b pk']|e| |]; try done.
  - rewrite insert_singleton_eq in H. cbn [app] in H. eapply (yields_run _ (Ok (b, pk'))); [|intros o ds _; constructor].
    eapply runs_bind; [exact H|]. eapply runs_bind; [apply runs_Bytes, lookup_singleton_eq|]. apply runs_ret.
  - eapply (yields_run _ (Err e)); [|intros o ds _; constructor]. apply runs_bind_err, H.
Qed.

(** C19: Encoding on the shared pool of buffers. Any number of encoders run at
    the same time on the one pool of the process, in any interleaving of their
    single reads and writes of buffers, whichever buffers the pool hands out
    and however it is emptied: an encoder that has ended has returned exactly
    what the encoder of its packet type gives (the bytes, or the error), every
    one of them can end, and every buffer in the pool is empty and in it once,
    so no byte of one packet comes into another. *)
Theorem encoders_isolated (pks : list Packet) (ts : list Tick) :
  let s := sys_run bufPool ts (pooled_encode_packet <$> pks, Memory0) in
  (forall i pk r, pks !! i = Some pk -> s.1 !! i = Some (PRet r) -> r = encode_packet pk) /\
  (NoDup (me_free s.2) /\ forall x, x ∈ me_free s.2 -> exists b, me_bufs s.2 !! x = Some b /\ bf_bytes b = []) /\
  exists ts' m', sys_run bufPool (ts ++ ts') (pooled_encode_packet <$> pks, Memory0) =
    ((fun pk => PRet (encode_packet pk)) <$> pks, m').
Proof.
  cbn zeta. assert (H : Forall2 (yields ∅) (pooled_encode_packet <$> pks) (encode_packet <$> pks)).
  { apply Forall2_fmap_2, Forall_Forall2_diag, Forall_true. intros pk. apply encode_yields. }
  destruct (isolation bufPool _ _ ts H) as (H1 & [Hnd Hf] & ts' & m' & E). split_and!.
  - intros i pk r Hi Hr. apply H1 in Hr. rewrite list_lookup_fmap, Hi in Hr. by injection Hr.
  - done.
  - intros x Hx. destruct (Hf x Hx) as (b & ? & ? & _). eauto.
  - exists ts', m'. rewrite E. by rewrite <- list_fmap_compose.
Qed.

(** Two encoders in turns, which share a buffer one after the other. *)
Example encoders_in_turns
  (ping := Packet0 <| pk_FixedHeader := FixedHeader0 <| fh_Type := Connack |> |> <| pk_ProtocolVersion := 5 |>)
  (pub := Packet0 <| pk_FixedHeader := FixedHeader0 <| fh_Type := Publish |> |> <| pk_TopicName := !"a/b" |> <| pk_Payload := !"hi" |>) :
  (sys_run bufPool (concat (replicate 30 [Run 0 (Some 0%nat) 64; Run 1 (Some 0%nat) 64; Run 2 (Some 0%nat) 64]))
     (pooled_encode_packet <$> [ping; pub; ping], Memory0)).1 = (fun pk => PRet (encode_packet pk)) <$> [ping; pub; ping].
Proof. vm_compute. reflexivity. Qed.
