(* ===== verification/Topics.v ===== *)
(** * Topics (topics.go)

    Topic aliases, the subscription maps, and the topics index: a trie of
    particles holding subscriptions and retained messages. Go maps are [gmap]s;
    the mutexes around each operation make the operations atomic, which is how
    they are modelled. *)
From S2P Require Import Prelude Codes Codec FixedHeader Properties Packets.

Definition SharePrefix : gostr := !"$SHARE".
Definition SysPrefix : gostr := !"$SYS".

(** ** Topic aliases *)

Record InboundTopicAliases := mkInbound {
  in_internal : gmap Z gostr;
  in_maximum : Z;
}.

Record OutboundTopicAliases := mkOutbound {
  out_internal : gmap gostr Z;
  out_cursor : Z;
  out_maximum : Z;
}.

Record TopicAliases := mkTopicAliases {
  ta_Inbound : InboundTopicAliases;
  ta_Outbound : OutboundTopicAliases;
}.

Definition NewInboundTopicAliases (topicAliasMaximum : Z) : InboundTopicAliases :=
  mkInbound ∅ topicAliasMaximum.

Definition NewOutboundTopicAliases (topicAliasMaximum : Z) : OutboundTopicAliases :=
  mkOutbound ∅ 0 topicAliasMaximum.

Definition NewTopicAliases (topicAliasMaximum : Z) : TopicAliases :=
  mkTopicAliases (NewInboundTopicAliases topicAliasMaximum) (NewOutboundTopicAliases topicAliasMaximum).

Definition InboundTopicAliases_Set (a : InboundTopicAliases) (id : Z) (topic : gostr)
    : gostr * InboundTopicAliases :=
  if in_maximum a =? 0 then (topic, a)
  else
    let store := (topic, a <| in_internal ::= <[id := topic]> |>) in
    match in_internal a !! id with
    | Some existing => if str_eqb topic [] then (existing, a) else store
    | None => store
    end.

Definition OutboundTopicAliases_Set (a : OutboundTopicAliases) (topic : gostr)
    : Z * bool * OutboundTopicAliases :=
  if out_maximum a =? 0 then (0, false, a)
  else match out_internal a !! topic with
  | Some i => (i, true, a)
  | None =>
      let i := out_cursor a in
      if out_maximum a <? to_u32 (i + 1) then (0, false, a)
      else
        let alias := to_u16 (to_u16 i + 1) in
        (alias, false, a <| out_internal ::= <[topic := alias]> |> <| out_cursor := to_u32 (i + 1) |>)
  end.

(** ** Subscription maps *)

Abbreviation Subscriptions := (gmap gostr Subscription).

Definition NewSubscriptions : Subscriptions := ∅.
Definition Subscriptions_Add (s : Subscriptions) (id : gostr) (val : Subscription) : Subscriptions :=
  <[id := val]> s.
Definition Subscriptions_GetAll (s : Subscriptions) : Subscriptions := s.
Definition Subscriptions_Get (s : Subscriptions) (id : gostr) : option Subscription := s !! id.
Definition Subscriptions_Len (s : Subscriptions) : nat := size s.
Definition Subscriptions_Delete (s : Subscriptions) (id : gostr) : Subscriptions := delete id s.

(** Keyed on share group, then on client id. *)
Abbreviation SharedSubscriptions := (gmap gostr Subscriptions).

Definition NewSharedSubscriptions : SharedSubscriptions := ∅.

(** [s.internal[group]]: nil when absent, which reads as an empty map. *)
Definition shared_group (s : SharedSubscriptions) (group : gostr) : Subscriptions := default ∅ (s !! group).

Definition SharedSubscriptions_Add (s : SharedSubscriptions) (group id : gostr) (val : Subscription)
    : SharedSubscriptions :=
  <[group := <[id := val]> (shared_group s group)]> s.

Definition SharedSubscriptions_Delete (s : SharedSubscriptions) (group id : gostr) : SharedSubscriptions :=
  match s !! group with
  | None => s
  | Some subs =>
      let subs := delete id subs in
      if (size subs =? 0)%nat then delete group s else <[group := subs]> s
  end.

Definition SharedSubscriptions_Get (s : SharedSubscriptions) (group id : gostr) : option Subscription :=
  subs ← s !! group; subs !! id.

Definition SharedSubscriptions_GroupLen (s : SharedSubscriptions) : nat := size s.

Definition SharedSubscriptions_Len (s : SharedSubscriptions) : nat :=
  map_fold (fun _ group n => n + size group)%nat 0%nat s.

Definition SharedSubscriptions_GetAll (s : SharedSubscriptions) : SharedSubscriptions := s.

(** An inline subscription; the handler is an opaque callback, named by a number. *)
Record InlineSubscription := mkInlineSubscription {
  is_Subscription : Subscription;
  is_Handler : Z;
}.

Abbreviation InlineSubscriptions := (gmap Z InlineSubscription).

Definition NewInlineSubscriptions : InlineSubscriptions := ∅.
Definition InlineSubscriptions_Add (s : InlineSubscriptions) (val : InlineSubscription) : InlineSubscriptions :=
  <[sub_Identifier (is_Subscription val) := val]> s.
Definition InlineSubscriptions_GetAll (s : InlineSubscriptions) : InlineSubscriptions := s.
Definition InlineSubscriptions_Get (s : InlineSubscriptions) (id : Z) : option InlineSubscription := s !! id.
Definition InlineSubscriptions_Len (s : InlineSubscriptions) : nat := size s.
Definition InlineSubscriptions_Delete (s : InlineSubscriptions) (id : Z) : InlineSubscriptions := delete id s.

(** ** Topic filters *)

Definition slash : Z := 47.

(** [isolateParticle]: the loop's remaining rounds are [d]. *)
Fixpoint isolateParticle (filter : gostr) (d : nat) : gostr * bool :=
  match index_byte slash filter with
  | Some end_ =>
      match d with
      | O => (take end_ filter, true)
      | S d' => isolateParticle (drop (S end_) filter) d'
      end
  | None => (filter, false)
  end.

(** ASCII lower case. *)
Definition to_lower (c : Z) : Z := if (65 <=? c) && (c <=? 90) then c + 32 else c.

(** [strings.EqualFold(s, t)] for ASCII [t] without the letter k: simple Unicode
    case folding adds only U+017F (bytes 197 191), which folds to s. *)
Fixpoint EqualFold (s t : gostr) : bool :=
  match t with
  | [] => match s with [] => true | _ => false end
  | c :: t' =>
      match s with
      | 197 :: 191 :: s' => (to_lower c =? 115) && EqualFold s' t'
      | b :: s' => (to_lower b =? to_lower c) && EqualFold s' t'
      | [] => false
      end
  end.

Definition IsSharedFilter (filter : gostr) : bool :=
  EqualFold (isolateParticle filter 0).1 SharePrefix.

Definition plus : gostr := !"+".
Definition hash : gostr := !"#".
Definition has_plus (s : gostr) : bool := contains_byte 43 s.
Definition has_hash (s : gostr) : bool := contains_byte 35 s.

Definition IsValidFilter (filter : gostr) (forPublish : bool) : bool :=
  if negb forPublish && (length filter =? 0)%nat then false
  else if forPublish && ((length SysPrefix <=? length filter)%nat
                         && EqualFold (take (length SysPrefix) filter) SysPrefix) then false
  else if forPublish && (has_plus filter || has_hash filter) then false
  else if match index_byte 35 filter with
          | Some wildhash => negb (wildhash =? length filter - 1)%nat
          | None => false
          end then false
  else
    let '(prefix, hasNext) := isolateParticle filter 0 in
    if negb hasNext && EqualFold prefix SharePrefix then false
    else if hasNext && EqualFold prefix SharePrefix then
      let '(group, hasNext) := isolateParticle filter 1 in
      if negb hasNext then false
      else negb (has_plus group || has_hash group)
    else true.

(** ** Particles

    The address of a particle is its path from the root, the list of keys on
    the way: its [key] is the last of them, its [parent] the path without it,
    and its [particles] are those stored one key further. *)

Abbreviation path := (list gostr).

Record particle := mkParticle {
  p_subscriptions : Subscriptions;
  p_shared : SharedSubscriptions;
  p_inline : InlineSubscriptions;
  p_retainPath : gostr;
}.

Definition newParticle : particle :=
  mkParticle NewSubscriptions NewSharedSubscriptions NewInlineSubscriptions [].

Record TopicsIndex := mkTopicsIndex {
  ti_Retained : Packets;
  ti_particles : gmap path particle;
}.

Definition NewTopicsIndex : TopicsIndex := mkTopicsIndex NewPackets {[ [] := newParticle ]}.

(** [n.particles.get(key)] *)
Definition particles_get (x : TopicsIndex) (n : path) (key : gostr) : option path :=
  match ti_particles x !! (n ++ [key]) with Some _ => Some (n ++ [key]) | None => None end.

(** The key of [p] and [p], if it is one key below [n]. *)
Definition child_of (n p : path) : option (gostr * path) :=
  match reverse p with
  | key :: r => if bool_decide (reverse r = n) then Some (key, p) else None
  | [] => None
  end.

(** [n.particles.getAll()] *)
Definition particles_getAll (x : TopicsIndex) (n : path) : gmap gostr path :=
  list_to_map (omap (fun kv => child_of n kv.1) (map_to_list (ti_particles x))).

Definition particles_len (x : TopicsIndex) (n : path) : nat := size (particles_getAll x n).

Definition particles_add (x : TopicsIndex) (p : path) (val : particle) : TopicsIndex :=
  x <| ti_particles ::= <[p := val]> |>.

(** [n.parent.particles.delete(n.key)] *)
Definition particles_delete (x : TopicsIndex) (p : path) : TopicsIndex :=
  x <| ti_particles ::= delete p |>.

Definition particle_at (x : TopicsIndex) (n : path) : particle := default newParticle (ti_particles x !! n).

Definition particle_update (x : TopicsIndex) (n : path) (f : particle -> particle) : TopicsIndex :=
  x <| ti_particles ::= alter f n |>.

(** The keys that the loops of [set] and [seek] visit: one round per key until
    [isolateParticle] reports no next one. A filter has at most one more
    particle than it has bytes. *)
Fixpoint particle_keys (fuel : nat) (filter : gostr) (d : nat) : list gostr :=
  match fuel with
  | O => []
  | S fuel' =>
      let '(key, hasNext) := isolateParticle filter d in
      key :: (if hasNext then particle_keys fuel' filter (S d) else [])
  end.

Definition keys_from (filter : gostr) (d : nat) : list gostr := particle_keys (S (length filter)) filter d.

Fixpoint set_keys (x : TopicsIndex) (n : path) (keys : list gostr) : TopicsIndex * path :=
  match keys with
  | [] => (x, n)
  | key :: keys' =>
      match particles_get x n key with
      | Some p => set_keys x p keys'
      | None => set_keys (particles_add x (n ++ [key]) newParticle) (n ++ [key]) keys'
      end
  end.

(** [set]: creates a topic address and returns its particle. *)
Definition TopicsIndex_set (x : TopicsIndex) (topic : gostr) (d : nat) : TopicsIndex * path :=
  set_keys x [] (keys_from topic d).

Fixpoint seek_keys (x : TopicsIndex) (n : path) (keys : list gostr) : option path :=
  match keys with
  | [] => Some n
  | key :: keys' =>
      match particles_get x n key with
      | Some p => seek_keys x p keys'
      | None => None
      end
  end.

Definition TopicsIndex_seek (x : TopicsIndex) (filter : gostr) (d : nat) : option path :=
  seek_keys x [] (keys_from filter d).

(** The condition of [trim]'s loop. *)
Definition trimmable (x : TopicsIndex) (n : path) : bool :=
  let p := particle_at x n in
  negb (bool_decide (n = [])) && str_eqb (p_retainPath p) [] &&
  (particles_len x n + Subscriptions_Len (p_subscriptions p) + SharedSubscriptions_Len (p_shared p)
   + InlineSubscriptions_Len (p_inline p) =? 0)%nat.

(** [trim] goes up to the root, one key at a time. *)
Fixpoint trim_loop (fuel : nat) (x : TopicsIndex) (n : path) : TopicsIndex :=
  match fuel with
  | O => x
  | S fuel' => if trimmable x n then trim_loop fuel' (particles_delete x n) (removelast n) else x
  end.

Definition TopicsIndex_trim (x : TopicsIndex) (n : path) : TopicsIndex := trim_loop (length n) x n.

(** ** Subscribing *)

Definition TopicsIndex_InlineSubscribe (x : TopicsIndex) (subscription : InlineSubscription)
    : bool * TopicsIndex :=
  let '(x, n) := TopicsIndex_set x (sub_Filter (is_Subscription subscription)) 0 in
  let existed := InlineSubscriptions_Get (p_inline (particle_at x n))
                   (sub_Identifier (is_Subscription subscription)) in
  (negb (bool_decide (is_Some existed)),
   particle_update x n (fun p => p <| p_inline ::= fun s => InlineSubscriptions_Add s subscription |>)).

Definition TopicsIndex_InlineUnsubscribe (x : TopicsIndex) (id : Z) (filter : gostr) : bool * TopicsIndex :=
  match TopicsIndex_seek x filter 0 with
  | None => (false, x)
  | Some n =>
      let x := particle_update x n (fun p => p <| p_inline ::= fun s => InlineSubscriptions_Delete s id |>) in
      (true, if (InlineSubscriptions_Len (p_inline (particle_at x n)) =? 0)%nat
             then TopicsIndex_trim x n else x)
  end.

Definition TopicsIndex_Subscribe (x : TopicsIndex) (client : gostr) (subscription : Subscription)
    : bool * TopicsIndex :=
  let prefix := (isolateParticle (sub_Filter subscription) 0).1 in
  if EqualFold prefix SharePrefix then
    let group := (isolateParticle (sub_Filter subscription) 1).1 in
    let '(x, n) := TopicsIndex_set x (sub_Filter subscription) 2 in
    let existed := SharedSubscriptions_Get (p_shared (particle_at x n)) group client in
    (negb (bool_decide (is_Some existed)),
     particle_update x n (fun p => p <| p_shared ::= fun s => SharedSubscriptions_Add s group client subscription |>))
  else
    let '(x, n) := TopicsIndex_set x (sub_Filter subscription) 0 in
    let existed := Subscriptions_Get (p_subscriptions (particle_at x n)) client in
    (negb (bool_decide (is_Some existed)),
     particle_update x n (fun p => p <| p_subscriptions ::= fun s => Subscriptions_Add s client subscription |>)).

Definition TopicsIndex_Unsubscribe (x : TopicsIndex) (filter client : gostr) : bool * TopicsIndex :=
  let prefix := (isolateParticle filter 0).1 in
  let shareSub := EqualFold prefix SharePrefix in
  let d := if shareSub then 2%nat else 0%nat in
  match TopicsIndex_seek x filter d with
  | None => (false, x)
  | Some n =>
      let x :=
        if shareSub then
          let group := (isolateParticle filter 1).1 in
          particle_update x n (fun p => p <| p_shared ::= fun s => SharedSubscriptions_Delete s group client |>)
        else
          particle_update x n (fun p => p <| p_subscriptions ::= fun s => Subscriptions_Delete s client |>) in
      (true, TopicsIndex_trim x n)
  end.

Definition TopicsIndex_RetainMessage (x : TopicsIndex) (pk : Packet) : Z * TopicsIndex :=
  let '(x, n) := TopicsIndex_set x (pk_TopicName pk) 0 in
  if (0 <? length (pk_Payload pk))%nat then
    let x := particle_update x n (fun p => p <| p_retainPath := pk_TopicName pk |>) in
    (1, x <| ti_Retained ::= fun r => Packets_Add r (pk_TopicName pk) pk |>)
  else
    let out := match Packets_Get (ti_Retained x) (pk_TopicName pk) with
               | Some pke => if (0 <? length (pk_Payload pke))%nat && fh_Retain (pk_FixedHeader pke)
                             then -1 else 0
               | None => 0
               end in
    let x := particle_update x n (fun p => p <| p_retainPath := [] |>) in
    let x := x <| ti_Retained ::= fun r => Packets_Delete r (pk_TopicName pk) |> in
    (out, TopicsIndex_trim x n).

(** ** Retained messages matching a filter *)

Section Scan.
Context `{RangeOrder}.

(** [scanMessages]; a call goes one key deeper into the index, so the height
    of the index bounds the recursion. *)
Fixpoint scanMessages (fuel : nat) (x : TopicsIndex) (filter : gostr) (d : nat) (n : path)
    (pks : list Packet) : list Packet :=
  match fuel with
  | O => pks
  | S fuel' =>
      if (length filter =? 0)%nat || (Packets_Len (ti_Retained x) =? 0)%nat then pks
      else if negb (has_hash filter) && negb (has_plus filter) then
        match Packets_Get (ti_Retained x) filter with
        | Some pk => pks ++ [pk]
        | None => pks
        end
      else
        let '(key, hasNext) := isolateParticle filter d in
        if str_eqb key plus || str_eqb key hash then
          fold_left (fun pks adjacent =>
            if (d =? 0)%nat && str_eqb adjacent.1 SysPrefix then pks
            else
              let retainPath := p_retainPath (particle_at x adjacent.2) in
              let pks := if negb hasNext && negb (str_eqb retainPath []) then
                           match Packets_Get (ti_Retained x) retainPath with
                           | Some pk => pks ++ [pk]
                           | None => pks
                           end
                         else pks in
              if hasNext || str_eqb key hash then scanMessages fuel' x filter (S d) adjacent.2 pks else pks)
            (range (particles_getAll x n)) pks
        else
          match particles_get x n key with
          | Some p =>
              if hasNext then scanMessages fuel' x filter (S d) p pks
              else match Packets_Get (ti_Retained x) (p_retainPath (particle_at x p)) with
                   | Some pk => pks ++ [pk]
                   | None => pks
                   end
          | None => pks
          end
  end.

(** The number of keys of the longest path. *)
Definition height (x : TopicsIndex) : nat := max_list (map (fun kv => length kv.1) (map_to_list (ti_particles x))).

Definition TopicsIndex_Messages (x : TopicsIndex) (filter : gostr) : list Packet :=
  scanMessages (S (height x)) x filter 0 [] [].

(** ** Subscribers of a topic *)

Record Subscribers := mkSubscribers {
  ss_Shared : gmap gostr Subscriptions;
  ss_SharedSelected : Subscriptions;
  ss_Subscriptions : Subscriptions;
  ss_InlineSubscriptions : InlineSubscriptions;
}.

(** [cls, ok := m[client]; if !ok { cls = sub }; m[client] = cls.Merge(sub)] *)
Definition merge_client (m : Subscriptions) (client : gostr) (sub : Subscription) : Subscriptions :=
  <[client := Subscription_Merge (default sub (m !! client)) sub]> m.

(** [len(sub.Filter) > 0 && topic[0] == '$' && (sub.Filter[0] == '+' || '#')],
    for a non-empty topic. *)
Definition excluded (topic : gostr) (sub : Subscription) : bool :=
  match sub_Filter sub, topic with
  | f :: _, t :: _ => (t =? 36) && ((f =? 43) || (f =? 35))
  | _, _ => false
  end.

Definition gatherSubscriptions (topic : gostr) (p : particle) (subs : Subscribers) : Subscribers :=
  fold_left (fun subs kv =>
    if excluded topic kv.2 then subs
    else subs <| ss_Subscriptions ::= fun m => merge_client m kv.1 kv.2 |>)
    (range (Subscriptions_GetAll (p_subscriptions p))) subs.

(** [m[filter][client] = sub], creating [m[filter]] when absent. *)
Definition share_add (m : gmap gostr Subscriptions) (filter client : gostr) (sub : Subscription)
    : gmap gostr Subscriptions :=
  <[filter := <[client := sub]> (default ∅ (m !! filter))]> m.

Definition gatherSharedSubscriptions (p : particle) (subs : Subscribers) : Subscribers :=
  fold_left (fun subs shares =>
    fold_left (fun subs kv => subs <| ss_Shared ::= fun m => share_add m (sub_Filter kv.2) kv.1 kv.2 |>)
      (range shares.2) subs)
    (range (SharedSubscriptions_GetAll (p_shared p))) subs.

(** Later particles replace an identifier's earlier subscription. *)
Definition gatherInlineSubscriptions (p : particle) (subs : Subscribers) : Subscribers :=
  subs <| ss_InlineSubscriptions ::= fun m => InlineSubscriptions_GetAll (p_inline p) ∪ m |>.

Definition gather (x : TopicsIndex) (topic : gostr) (n inline : path) (subs : Subscribers) : Subscribers :=
  gatherInlineSubscriptions (particle_at x inline)
    (gatherSharedSubscriptions (particle_at x n)
      (gatherSubscriptions topic (particle_at x n) subs)).

(** One round of the loop over [{key, "+"}]; [rec] is the recursive call. At
    the last level the multi-level wildcard below the particle is gathered too,
    unless the particle was reached by ["+"]. *)
Definition scan_key (rec : path -> Subscribers -> Subscribers) (x : TopicsIndex) (topic : gostr)
    (n : path) (hasNext : bool) (partKey : gostr) (subs : Subscribers) : Subscribers :=
  match particles_get x n partKey with
  | None => subs
  | Some p =>
      if hasNext then rec p subs
      else
        let subs := gather x topic p p subs in
        match particles_get x p hash with
        | Some wild => if negb (str_eqb partKey plus) then gather x topic wild p subs else subs
        | None => subs
        end
  end.

Fixpoint scanSubscribers (fuel : nat) (x : TopicsIndex) (topic : gostr) (d : nat) (n : path)
    (subs : Subscribers) : Subscribers :=
  match fuel with
  | O => subs
  | S fuel' =>
      if (length topic =? 0)%nat then subs
      else
        let '(key, hasNext) := isolateParticle topic d in
        let rec := scanSubscribers fuel' x topic (S d) in
        let subs := fold_left (fun subs partKey => scan_key rec x topic n hasNext partKey subs)
                      [key; plus] subs in
        match particles_get x n hash with
        | Some p => gather x topic p p subs
        | None => subs
        end
  end.

Definition TopicsIndex_Subscribers (x : TopicsIndex) (topic : gostr) : Subscribers :=
  scanSubscribers (S (length topic)) x topic 0 [] (mkSubscribers ∅ ∅ ∅ ∅).

(** ** Shared subscriptions *)

(** One subscriber of each group: the first that the iteration meets. *)
Definition Subscribers_SelectShared (s : Subscribers) : Subscribers :=
  fold_left (fun s group =>
    match range group.2 with
    | (client, sub) :: _ => s <| ss_SharedSelected ::= fun m => merge_client m client sub |>
    | [] => s
    end) (range (ss_Shared s)) (s <| ss_SharedSelected := ∅ |>).

Definition Subscribers_MergeSharedSelected (s : Subscribers) : Subscribers :=
  fold_left (fun s kv => s <| ss_Subscriptions ::= fun m => merge_client m kv.1 kv.2 |>)
    (range (ss_SharedSelected s)) s.
End Scan.
