(* ===== verification/Aliases.v ===== *)
(** * Topic aliases between the broker and a client

    The tables of topics.go: the invariant of the outbound table, and to which
    topics a receiver with an inbound table resolves the messages that reach it. *)
From S2P Require Import Prelude Codes Codec FixedHeader Properties Packets Topics.

(** ** The outbound table *)

Record outbound_ok (a : OutboundTopicAliases) : Prop := mkOutboundOk {
  ob_maximum : 0 <= out_maximum a < 65536;
  ob_cursor : 0 <= out_cursor a <= out_maximum a;
  ob_range : forall t i, out_internal a !! t = Some i -> 1 <= i <= out_cursor a;
  ob_inj : forall t1 t2 i, out_internal a !! t1 = Some i -> out_internal a !! t2 = Some i -> t1 = t2;
}.

(** What [Set] promises: no alias (0) when the client allows none or all are
    taken; the same alias for a topic that has one; otherwise the next one. *)
Record outbound_set_spec (a : OutboundTopicAliases) (topic : gostr)
    (alias : Z) (existed : bool) (a' : OutboundTopicAliases) : Prop := mkOutboundSet {
  os_ok : outbound_ok a';
  os_maximum : out_maximum a' = out_maximum a;
  os_keep : forall t i, out_internal a !! t = Some i -> out_internal a' !! t = Some i;
  os_existed : existed = true <-> 0 < alias /\ out_internal a !! topic = Some alias;
  os_alias : 0 < alias -> alias <= out_maximum a /\ out_internal a' !! topic = Some alias;
  os_none : alias <= 0 -> alias = 0 /\ a' = a /\
    (out_maximum a = 0 \/ (out_internal a !! topic = None /\ out_cursor a = out_maximum a));
  os_new : forall t i, out_internal a' !! t = Some i ->
    out_internal a !! t = Some i \/ (t = topic /\ i = alias /\ existed = false);
}.

Lemma OutboundTopicAliases_Set_ok a topic :
  outbound_ok a ->
  let '(alias, existed, a') := OutboundTopicAliases_Set a topic in
  outbound_set_spec a topic alias existed a'.
Proof.
  intros Hok. pose proof Hok as [Hm Hc Hr Hi]. unfold OutboundTopicAliases_Set.
  destruct (out_maximum a =? 0) eqn:H0; bool_to_prop.
  { constructor; try solve [done | auto | lia]. }
  destruct (out_internal a !! topic) as [i|] eqn:Ht.
  { pose proof (Hr _ _ Ht). constructor; try solve [done | auto | lia].
    - split; [|done]. intros _. split; [lia|done].
    - intros _. split; [lia|done]. }
  rewrite to_u32_id by (unfold is_u32; lia).
  destruct (out_maximum a <? out_cursor a + 1) eqn:Hfull; bool_to_prop.
  { constructor; try solve [done | auto | lia].
    - intros _. split_and!; [done..|]. right. split; [done|lia]. }
  rewrite (to_u16_id (out_cursor a)) by (unfold is_u16; lia).
  rewrite (to_u16_id (out_cursor a + 1)) by (unfold is_u16; lia).
  assert (forall t i, <[topic := out_cursor a + 1]> (out_internal a) !! t = Some i ->
    (t = topic /\ i = out_cursor a + 1) \/ (t <> topic /\ out_internal a !! t = Some i)) as Hins.
  { intros t i [[<- <-]|[? ?]]%lookup_insert_Some; auto. }
  constructor.
  - constructor; [exact Hm|change (0 <= out_cursor a + 1 <= out_maximum a); lia| |].
    + intros t i H. change (1 <= i <= out_cursor a + 1). apply Hins in H as [[-> ->]|[_ H]]; [lia|].
      apply Hr in H. lia.
    + intros t1 t2 i [[-> ->]|[_ H1]]%Hins [[-> H2]|[_ H2]]%Hins; [done| | |by eapply Hi].
      * apply Hr in H2. lia.
      * apply Hr in H1. lia.
  - done.
  - intros t i Hti. etransitivity; [apply lookup_insert_ne|exact Hti]. intros <-. congruence.
  - split; [done|]. intros [_ H]. congruence.
  - intros _. split; [lia|]. apply lookup_insert_eq.
  - lia.
  - intros t i [[-> ->]|[_ H]]%Hins; auto.
Qed.

Lemma NewOutbound_ok maximum : 0 <= maximum < 65536 -> outbound_ok (NewOutboundTopicAliases maximum).
Proof. intros H. constructor; cbn; [done|lia|done|done]. Qed.

(** ** Sending and receiving

    The sender's step is what [publishToClient] does with an alias: the topic
    is left out when the alias existed. The receiver resolves as
    [processPublish] does. *)

Definition send_topic (a : OutboundTopicAliases) (topic : gostr) : (Z * gostr) * OutboundTopicAliases :=
  let '(alias, existed, a') := OutboundTopicAliases_Set a topic in
  ((alias, if (0 <? alias) && existed then [] else topic), a').

Definition receive_topic (b : InboundTopicAliases) (m : Z * gostr) : gostr * InboundTopicAliases :=
  if 0 <? m.1 then InboundTopicAliases_Set b m.1 m.2 else (m.2, b).

(** Sends the topics one after the other; each message is received or lost on
    the way (the broker enters an alias before it can still drop the message).
    The result is the list of topics the receiver resolved. *)
Fixpoint exchange (a : OutboundTopicAliases) (b : InboundTopicAliases) (messages : list (gostr * bool)) : list gostr :=
  match messages with
  | [] => []
  | (topic, received) :: messages' =>
      let '(m, a') := send_topic a topic in
      if received then let '(t, b') := receive_topic b m in t :: exchange a' b' messages'
      else exchange a' b messages'
  end.

(** What the receiver makes of it: a topic for which there is an alias is
    resolved exactly when the first message of that topic arrived, and is the
    empty topic otherwise; a topic without an alias always comes by name. [told]
    are the topics with an alias, and whether their first message arrived. *)
Fixpoint understood (maximum : Z) (told : gmap gostr bool) (messages : list (gostr * bool)) : list gostr :=
  match messages with
  | [] => []
  | (topic, received) :: messages' =>
      let known := told !! topic in
      (if received then [if decide (known = Some false) then [] else topic] else []) ++
      understood maximum
        (if decide (known = None /\ Z.of_nat (size told) < maximum) then <[topic := received]> told else told) messages'
  end.

(** The receiver knows the aliases it was told and no other. *)
Record in_step (maximum : Z) (told : gmap gostr bool) (a : OutboundTopicAliases) (b : InboundTopicAliases) : Prop := mkInStep {
  st_ok : outbound_ok a;
  st_out : out_maximum a = maximum;
  st_in : in_maximum b <> 0;
  st_cursor : out_cursor a = Z.of_nat (size told);
  st_told : forall t i, out_internal a !! t = Some i -> exists heard, told !! t = Some heard /\
    if heard : bool then in_internal b !! i = Some t else default [] (in_internal b !! i) = [];
  st_untold : forall t, out_internal a !! t = None -> told !! t = None;
  st_fresh : forall i, out_cursor a < i -> in_internal b !! i = None;
}.

Lemma exchange_step maximum told a b topic received messages :
  0 < maximum -> in_step maximum told a b -> topic <> [] ->
  (forall told a b, in_step maximum told a b -> exchange a b messages = understood maximum told messages) ->
  exchange a b ((topic, received) :: messages) = understood maximum told ((topic, received) :: messages).
Proof.
  intros Hmax [Hok Hm Hb Hc Ht Hu Hf] Hne IH. cbn [exchange understood]. unfold send_topic.
  pose proof (OutboundTopicAliases_Set_ok a topic Hok) as Hset. pose proof (ob_maximum _ Hok) as Hrange.
  revert Hset. unfold OutboundTopicAliases_Set. rewrite (proj2 (Z.eqb_neq (out_maximum a) 0)) by lia.
  assert (He : str_eqb topic [] = false) by (by apply bool_decide_eq_false_2).
  destruct (out_internal a !! topic) as [i|] eqn:Ei.
  - (* the topic has an alias *)
    intros _. destruct (Ht _ _ Ei) as (heard & -> & Hi). pose proof (ob_range _ Hok _ _ Ei) as Hri.
    rewrite (decide_False (P := _ /\ _)) by (by intros [? _]). cbn [fst snd].
    rewrite (proj2 (Z.ltb_lt 0 i)) by lia. cbn [andb]. destruct received; [|apply IH; by constructor].
    unfold receive_topic, InboundTopicAliases_Set. cbn [fst snd]. rewrite (proj2 (Z.ltb_lt 0 i)) by lia.
    rewrite (proj2 (Z.eqb_neq (in_maximum b) 0)) by done. rewrite str_eqb_refl.
    destruct heard; [rewrite Hi, decide_False by done; cbn [app]; f_equal; apply IH; by constructor|].
    rewrite decide_True by done. destruct (in_internal b !! i) as [t|] eqn:Eb; [simpl in Hi; subst t|].
    { cbn [app]. f_equal. apply IH. by constructor. }
    cbn [app]. f_equal. apply IH. constructor; [done..| |done|].
    + intros t k Hk. destruct (Ht t k Hk) as (heard & Et & Hh). exists heard. split; [done|]. cbn.
      destruct (decide (i = k)) as [<-|Hik]; [|by rewrite lookup_insert_ne].
      rewrite (ob_inj _ Hok _ _ _ Hk Ei) in Et. rewrite lookup_insert_eq. destruct heard; [congruence|done].
    + intros k Hk. cbn. rewrite lookup_insert_ne by lia. by apply Hf.
  - pose proof (ob_cursor _ Hok) as Hcur. rewrite (Hu _ Ei), (to_u32_id (out_cursor a + 1)) by (unfold is_u32; lia).
    destruct (Z.ltb_spec (out_maximum a) (out_cursor a + 1)) as [Hfull|Hfree].
    + (* all aliases are taken *)
      intros _. rewrite (decide_False (P := _ /\ _)) by (intros [_ ?]; lia). cbn [fst snd Z.ltb Z.compare andb].
      rewrite decide_False by done. destruct received; [|apply IH; by constructor].
      unfold receive_topic. cbn [fst snd Z.ltb Z.compare app]. f_equal. apply IH. by constructor.
    + (* a new alias *)
      rewrite (to_u16_id (out_cursor a)) by (unfold is_u16; lia).
      rewrite (to_u16_id (out_cursor a + 1)) by (unfold is_u16; lia).
      set (a' := a <| out_internal ::= _ |> <| out_cursor := _ |>). intros Hset.
      rewrite (decide_True (P := _ /\ _)) by (split; [done|lia]). rewrite decide_False by done. rewrite andb_false_r.
      assert (Hstep : forall b', in_maximum b' = in_maximum b ->
        (forall i, i <> out_cursor a + 1 -> in_internal b' !! i = in_internal b !! i) ->
        (if received then in_internal b' !! (out_cursor a + 1) = Some topic
         else default [] (in_internal b' !! (out_cursor a + 1)) = []) ->
        in_step maximum (<[topic := received]> told) a' b').
      { intros b' Hb' Hsame Hnew. constructor; [apply Hset|exact Hm|by rewrite Hb'| | | |].
        - cbn. rewrite map_size_insert, (Hu _ Ei), Hc. lia.
        - intros t i. cbn. intros [[<- <-]|[Hne' Hi]]%lookup_insert_Some.
          + exists received. by rewrite lookup_insert_eq.
          + rewrite lookup_insert_ne by done. destruct (Ht _ _ Hi) as (h & E & Hh). exists h. split; [done|].
            rewrite Hsame; [done|]. pose proof (ob_range _ Hok _ _ Hi). lia.
        - intros t. cbn. intros [Hn Hne']%lookup_insert_None. rewrite lookup_insert_ne by done. by apply Hu.
        - intros i. cbn. intros Hi. rewrite Hsame by lia. apply Hf. lia. }
      pose proof (Hf (out_cursor a + 1) ltac:(lia)) as Hnone.
      destruct received; [|apply IH, Hstep; [done..|by rewrite Hnone]].
      unfold receive_topic, InboundTopicAliases_Set. cbn [fst snd]. rewrite (proj2 (Z.ltb_lt 0 _)) by lia.
      rewrite (proj2 (Z.eqb_neq (in_maximum b) 0)), Hnone by done. cbn [app]. f_equal. apply IH, Hstep; [done| |].
      * intros i Hi. cbn. by rewrite lookup_insert_ne.
      * cbn. by rewrite lookup_insert_eq.
Qed.

Lemma exchange_understood maximum messages told a b :
  0 < maximum -> Forall (fun m => m.1 <> []) messages -> in_step maximum told a b ->
  exchange a b messages = understood maximum told messages.
Proof.
  intros Hm Hne. revert told a b. induction Hne as [|[t r] messages Ht Hne IH]; [done|].
  intros told a b Hs. by apply exchange_step.
Qed.

(** No message that is the first of its topic is lost. *)
Definition introductions_received (messages : list (gostr * bool)) : Prop :=
  forall i t, messages !! i = Some (t, false) -> t ∈ (take i messages).*1.

Lemma understood_all maximum messages told :
  (forall t, told !! t <> Some false) ->
  (forall i t, messages !! i = Some (t, false) -> is_Some (told !! t) \/ Z.of_nat (size told) >= maximum \/ t ∈ (take i messages).*1) ->
  understood maximum told messages = (filter (fun m => m.2 = true) messages).*1.
Proof.
  induction messages as [|[t r] messages IH] in told |- *; intros Ht Hi; [done|]. cbn [understood].
  rewrite decide_False by apply Ht. rewrite IH.
  - destruct r; [by rewrite filter_cons_True|by rewrite filter_cons_False].
  - intros t'. case_decide as Hn; [|apply Ht]. destruct r; [intros [[_ ?]|[_ ?]]%lookup_insert_Some; [done|by eapply Ht]|].
    destruct (Hi 0%nat t eq_refl) as [[? E]|[Hs|H]]; [destruct Hn; congruence|lia|by apply elem_of_nil in H].
  - intros i t' H. destruct (Hi (S i) t' H) as [H1|[H1|H1]]; case_decide as Hn; try (by left); try (by right; left).
    + left. destruct (decide (t = t')) as [<-|]; [rewrite lookup_insert_eq; eauto|by rewrite lookup_insert_ne].
    + right. left. rewrite map_size_insert. destruct Hn as [-> _]. lia.
    + cbn in H1. apply elem_of_cons in H1 as [->|H1]; [|by right; right]. left. rewrite lookup_insert_eq. eauto.
    + cbn in H1. apply elem_of_cons in H1 as [->|H1]; [|by right; right].
      destruct (told !! t) eqn:E; [by left|]. right. left. apply dec_stable. intros ?. apply Hn. split; [done|lia].
Qed.

(** C39: what topic aliases keep, and what they lose. Over any sequence of
    messages sent to a client, with the tables created for any alias maximum,
    also after the aliases run out and when topics repeat, and when any of the
    messages are lost on the way: a message that arrives is resolved to its
    topic, except one sent under an alias whose first message was lost, which
    has the empty topic ([understood]). So no alias ever stands for another
    topic, and when no first message of a topic is lost, every message that
    arrives is resolved. *)
Theorem alias_roundtrip maximum messages :
  0 < maximum < 65536 -> Forall (fun m => m.1 <> []) messages ->
  let resolved := exchange (NewOutboundTopicAliases maximum) (NewInboundTopicAliases maximum) messages in
  resolved = understood maximum ∅ messages /\
  (introductions_received messages -> resolved = (filter (fun m => m.2 = true) messages).*1).
Proof.
  intros Hm Hne. cbv zeta. rewrite (exchange_understood maximum messages ∅); [|lia|done|].
  - split; [done|]. intros Hi. apply understood_all; [done|]. intros i t H. right. right. by apply (Hi i).
  - constructor; [apply NewOutbound_ok; lia|done|cbn; lia|done..].
Qed.

Lemma alias_roundtrip_witness :
  exchange (NewOutboundTopicAliases 2) (NewInboundTopicAliases 2)
    [(!"a", true); (!"b", true); (!"a", false); (!"c", true); (!"b", true)] = [!"a"; !"b"; !"c"; !"b"].
Proof.
  apply (alias_roundtrip 2); [lia|by repeat constructor|].
  intros [|[|[|[|[|i]]]]] t [= <-]. by left.
Defined.

(** The message that told the client the alias is lost: no later message under
    it can be resolved. *)
Lemma lost_introduction :
  exchange (NewOutboundTopicAliases 2) (NewInboundTopicAliases 2)
    [(!"a", false); (!"b", true); (!"a", true); (!"a", true)] = [!"b"; []; []].
Proof. vm_compute. reflexivity. Qed.

(** The outbound aliases stay between 1 and the maximum and distinct for
    distinct topics, whatever topics are sent. *)
Theorem outbound_aliases_distinct maximum topics :
  0 <= maximum < 65536 ->
  let a := fold_left (fun a t => (OutboundTopicAliases_Set a t).2) topics (NewOutboundTopicAliases maximum) in
  (forall t i, out_internal a !! t = Some i -> 1 <= i <= maximum) /\
  (forall t1 t2 i, out_internal a !! t1 = Some i -> out_internal a !! t2 = Some i -> t1 = t2).
Proof.
  intros Hm. cbn zeta.
  assert (forall l a, outbound_ok a ->
    let a' := fold_left (fun a t => (OutboundTopicAliases_Set a t).2) l a in
    outbound_ok a' /\ out_maximum a' = out_maximum a) as H.
  { induction l as [|t l IH]; intros a Ha; [done|]. cbn [fold_left].
    pose proof (OutboundTopicAliases_Set_ok a t Ha) as S.
    destruct (OutboundTopicAliases_Set a t) as [[alias existed] a']. cbn [snd].
    destruct (IH a' (os_ok _ _ _ _ _ S)) as [? ->]. split; [done|apply S]. }
  destruct (H topics _ (NewOutbound_ok maximum Hm)) as [[? ? Hr Hi] Hmax]. cbn [out_maximum NewOutboundTopicAliases] in Hmax.
  split; [|done]. intros t i Ht. apply Hr in Ht. lia.
Qed.

Lemma outbound_aliases_distinct_witness :
  let a := fold_left (fun a t => (OutboundTopicAliases_Set a t).2) [!"x"; !"y"; !"x"] (NewOutboundTopicAliases 5) in
  (forall t i, out_internal a !! t = Some i -> 1 <= i <= 5) /\
  (forall t1 t2 i, out_internal a !! t1 = Some i -> out_internal a !! t2 = Some i -> t1 = t2).
Proof. apply (outbound_aliases_distinct 5); lia. Defined.
