(* ===== verification/TopicsFacts.v ===== *)
(** * Correctness of the topics index: paths, updates and the invariant

    Topic filters are split into levels; a particle's address is the list of
    levels of its filter. *)
From S2P Require Import Prelude Codes Codec FixedHeader Properties Packets Topics.

(** ** Levels of a topic or filter: the specification of [isolateParticle] *)

Fixpoint levels (s : gostr) : list gostr :=
  match s with
  | [] => [[]]
  | c :: s' =>
      if c =? slash then [] :: levels s'
      else match levels s' with
           | l :: ls => (c :: l) :: ls
           | [] => [[c]]
           end
  end.

Fixpoint join (ls : list gostr) : gostr :=
  match ls with
  | [] => []
  | [l] => l
  | l :: ls' => l ++ [slash] ++ join ls'
  end.

Lemma levels_nonempty s : levels s <> [].
Proof. destruct s as [|c s]; [done|]. cbn. destruct (c =? slash); [done|]. by destruct (levels s). Qed.

Lemma join_levels s : join (levels s) = s.
Proof.
  induction s as [|c s IH]; [done|]. cbn. pose proof (levels_nonempty s) as Hne.
  destruct (c =? slash) eqn:E; bool_to_prop.
  - subst. destruct (levels s) as [|l ls]; [done|]. change (slash :: join (l :: ls) = slash :: s). by rewrite IH.
  - destruct (levels s) as [|l [|l2 ls]]; [done|..]; cbn in *; by rewrite IH.
Qed.

#[export] Instance levels_inj : Inj (=) (=) levels.
Proof. intros s t H. by rewrite <- (join_levels s), <- (join_levels t), H. Qed.

Lemma index_byte_None c s : index_byte c s = None -> contains_byte c s = false.
Proof.
  induction s as [|x s IH]; [done|]. cbn. rewrite Z.eqb_sym.
  destruct (c =? x); cbn; [done|]. destruct (index_byte c s); [done|auto].
Qed.

Lemma levels_no_slash s : index_byte slash s = None -> levels s = [s].
Proof.
  induction s as [|x s IH]; [done|]. cbn. destruct (x =? slash); [done|].
  destruct (index_byte slash s); [done|]. intros _. by rewrite IH.
Qed.

Lemma levels_slash s e :
  index_byte slash s = Some e -> levels s = take e s :: levels (drop (S e) s).
Proof.
  revert e. induction s as [|x s IH]; [done|]. intros e. cbn.
  destruct (x =? slash); [intros [= <-]; done|].
  destruct (index_byte slash s) as [e'|]; [|done]. intros [= <-].
  rewrite (IH e') by done. done.
Qed.

(** [isolateParticle] returns the [d]-th level and whether there is another;
    past the end, the last level. *)
Lemma isolateParticle_levels s d :
  isolateParticle s d =
    match levels s !! d with
    | Some k => (k, (S d <? length (levels s))%nat)
    | None => (List.last (levels s) [], false)
    end.
Proof.
  revert s. induction d as [|d IH]; intros s; cbn [isolateParticle];
    destruct (index_byte slash s) as [e|] eqn:E.
  - rewrite (levels_slash _ _ E). cbn. rewrite (proj2 (Nat.ltb_lt _ _)); [done|].
    pose proof (levels_nonempty (drop (S e) s)). destruct (levels _); [done|cbn; lia].
  - by rewrite (levels_no_slash _ E).
  - rewrite IH, (levels_slash _ _ E). cbn [lookup list_lookup].
    destruct (levels (drop (S e) s) !! d) eqn:El; cbn [length]; [done|].
    pose proof (levels_nonempty (drop (S e) s)). by destruct (levels _).
  - by rewrite (levels_no_slash _ E).
Qed.

Lemma length_levels s : (length (levels s) <= S (length s))%nat.
Proof.
  induction s as [|c s IH]; cbn; [lia|]. destruct (c =? slash); cbn; [lia|].
  destruct (levels s); cbn in *; lia.
Qed.

Lemma particle_keys_drop fuel s d :
  (d < length (levels s))%nat -> (length (levels s) - d <= fuel)%nat ->
  particle_keys fuel s d = drop d (levels s).
Proof.
  revert d. induction fuel as [|fuel IH]; intros d Hd Hf; [lia|]. cbn [particle_keys].
  rewrite isolateParticle_levels. destruct (levels s !! d) as [k|] eqn:E.
  - rewrite (drop_S _ _ _ E). f_equal. destruct (S d <? _)%nat eqn:Hn; bool_to_prop.
    + apply IH; lia.
    + symmetry. apply drop_ge. lia.
  - apply lookup_ge_None in E. lia.
Qed.

Lemma keys_from_levels s d : (d < length (levels s))%nat -> keys_from s d = drop d (levels s).
Proof. intros Hd. apply particle_keys_drop; [done|]. pose proof (length_levels s). lia. Qed.

Lemma keys_from_0 s : keys_from s 0 = levels s.
Proof.
  rewrite keys_from_levels; [by rewrite drop_0|].
  pose proof (levels_nonempty s). destruct (levels s); cbn; [done|lia].
Qed.

(** The address of a subscription: for a shared filter the levels after the
    prefix and the group. *)
Definition share_depth (filter : gostr) : nat := if IsSharedFilter filter then 2%nat else 0%nat.
Definition address (filter : gostr) : path := keys_from filter (share_depth filter).

(** ** Reading an index *)

Lemma particles_of_update x n f : ti_particles (particle_update x n f) = alter f n (ti_particles x).
Proof. done. Qed.

Lemma particles_of_add x p v : ti_particles (particles_add x p v) = <[p := v]> (ti_particles x).
Proof. done. Qed.

Lemma particles_of_delete x p : ti_particles (particles_delete x p) = delete p (ti_particles x).
Proof. done. Qed.

Lemma particles_get_spec x n k :
  particles_get x n k = if bool_decide (is_Some (ti_particles x !! (n ++ [k]))) then Some (n ++ [k]) else None.
Proof.
  unfold particles_get. destruct (ti_particles x !! (n ++ [k])); [done|].
  rewrite bool_decide_eq_false_2; [done|]. by intros [? ?].
Qed.

Lemma child_of_spec n p k q : child_of n p = Some (k, q) <-> p = n ++ [k] /\ q = p.
Proof.
  unfold child_of. destruct p as [|l p _] using rev_ind.
  - cbn. split; [done|]. intros [H _]. by destruct n.
  - rewrite reverse_snoc, reverse_involutive.
    destruct (decide (p = n)) as [->|Hne].
    + rewrite bool_decide_eq_true_2 by done. split; [intros [= -> <-]; done|].
      intros [H ->]. apply app_inj_2 in H as [_ [= ->]]; done.
    + rewrite bool_decide_eq_false_2 by done. split; [done|]. intros [H _].
      apply app_inj_2 in H as [? _]; done.
Qed.

Lemma particles_getAll_spec x n k q :
  particles_getAll x n !! k = Some q <-> q = n ++ [k] /\ is_Some (ti_particles x !! q).
Proof.
  unfold particles_getAll.
  set (l := omap (fun kv => child_of n kv.1) (map_to_list (ti_particles x))).
  assert (forall k q, (k, q) ∈ l <-> q = n ++ [k] /\ is_Some (ti_particles x !! q)) as Hl.
  { intros k' q'. unfold l. rewrite list_elem_of_omap. split.
    - intros ([p v] & Hin & Hc). cbn in Hc. apply child_of_spec in Hc as [-> ->].
      apply elem_of_map_to_list in Hin. eauto.
    - intros [-> [v Hv]]. exists (n ++ [k'], v). split; [by apply elem_of_map_to_list|].
      cbn. by apply child_of_spec. }
  rewrite <- Hl. split; [apply elem_of_list_to_map_2|].
  intros Hin. apply elem_of_list_to_map_1'; [|done].
  intros q' Hq'. apply Hl in Hin as [-> _], Hq' as [-> _]. done.
Qed.

Lemma particles_len_0 x n :
  particles_len x n = 0%nat <-> forall k, ti_particles x !! (n ++ [k]) = None.
Proof.
  unfold particles_len. rewrite map_size_empty_iff. split.
  - intros H k. apply eq_None_not_Some. intros Hs.
    assert (particles_getAll x n !! k = Some (n ++ [k])) as E by (by apply particles_getAll_spec).
    by rewrite H, lookup_empty in E.
  - intros H. apply map_empty. intros k. apply eq_None_not_Some. intros [q Hq].
    apply particles_getAll_spec in Hq as [-> [v Hv]]. by rewrite H in Hv.
Qed.

(** ** The invariant of the index *)

(** Every particle has its parent, and no share group is kept empty. *)
Record index_ok (x : TopicsIndex) : Prop := mkIndexOk {
  ok_root : is_Some (ti_particles x !! []);
  ok_parent : forall p k, is_Some (ti_particles x !! (p ++ [k])) -> is_Some (ti_particles x !! p);
  ok_groups : forall p g, p_shared (particle_at x p) !! g <> Some ∅;
}.

(** A particle with no content. *)
Definition bare (n : particle) : bool :=
  str_eqb (p_retainPath n) [] &&
  (Subscriptions_Len (p_subscriptions n) + SharedSubscriptions_Len (p_shared n)
   + InlineSubscriptions_Len (p_inline n) =? 0)%nat.

(** No dead leaf: a particle other than the root has content or a child. *)
Definition tidy_but (dead : path -> Prop) (x : TopicsIndex) : Prop :=
  forall p, trimmable x p = true -> is_Some (ti_particles x !! p) -> dead p.

Definition tidy : TopicsIndex -> Prop := tidy_but (fun _ => False).

Lemma trimmable_spec x p :
  trimmable x p = true <->
  p <> [] /\ bare (particle_at x p) = true /\ forall k, ti_particles x !! (p ++ [k]) = None.
Proof.
  unfold trimmable, bare. rewrite <- particles_len_0, !andb_true_iff, negb_true_iff, bool_decide_eq_false,
    !Nat.eqb_eq. intuition lia.
Qed.

Lemma SharedSubscriptions_Len_0 s :
  SharedSubscriptions_Len s = 0%nat -> forall g m, s !! g = Some m -> m = ∅.
Proof.
  unfold SharedSubscriptions_Len.
  apply (map_fold_weak_ind (fun n s => n = 0%nat -> forall g m, s !! g = Some m -> m = ∅)).
  - intros _ g m H. by rewrite lookup_empty in H.
  - intros g m s' n Hg IH H0 g' m'. rewrite lookup_insert_Some. intros [[<- <-]|[_ H]].
    + apply map_size_empty_iff. cbn in H0. lia.
    + refine (IH _ _ _ H). cbn in H0. lia.
Qed.

Lemma bare_newParticle n : (forall g, p_shared n !! g <> Some ∅) -> bare n = true -> n = newParticle.
Proof.
  intros Hg H. apply andb_true_iff in H as [Hr Hs].
  destruct (str_eqb_spec (p_retainPath n) []) as [Hp|]; [|done]. apply Nat.eqb_eq in Hs.
  destruct n as [subs shared inline rp]. cbn [p_subscriptions p_shared p_inline p_retainPath] in *.
  assert (Subscriptions_Len subs = 0 /\ SharedSubscriptions_Len shared = 0 /\
    InlineSubscriptions_Len inline = 0)%nat as (H1 & H2 & H3) by lia.
  apply map_size_empty_iff in H1, H3. subst.
  assert (shared = ∅) as ->; [|done]. apply map_empty. intros g. apply eq_None_not_Some. intros [m Hm].
  pose proof (SharedSubscriptions_Len_0 _ H2 _ _ Hm). subst. by apply (Hg g).
Qed.

Lemma particle_at_Some x p n : ti_particles x !! p = Some n -> particle_at x p = n.
Proof. intros H. unfold particle_at. by rewrite H. Qed.

Lemma particle_at_None x p : ti_particles x !! p = None -> particle_at x p = newParticle.
Proof. intros H. unfold particle_at. by rewrite H. Qed.

(** Below a missing particle there is none. *)
Lemma particles_below x p q : index_ok x -> ti_particles x !! p = None -> ti_particles x !! (p ++ q) = None.
Proof.
  intros Hok Hp. induction q as [|k q IH] using rev_ind; [by rewrite app_nil_r|].
  rewrite app_assoc. apply eq_None_not_Some. intros Hs. apply (ok_parent _ Hok) in Hs.
  rewrite IH in Hs. by destruct Hs.
Qed.

(** ** [set] *)

(** Strictly below [n] on the way to [n ++ keys]. *)
Definition on_way (n keys p : path) : Prop :=
  exists k ks rest, keys = (k :: ks) ++ rest /\ p = n ++ k :: ks.

Lemma set_keys_spec x n keys :
  let '(x', n') := set_keys x n keys in
  n' = n ++ keys /\ ti_Retained x' = ti_Retained x /\
  forall p, (is_Some (ti_particles x !! p) -> ti_particles x' !! p = ti_particles x !! p) /\
            (ti_particles x !! p = None -> on_way n keys p -> ti_particles x' !! p = Some newParticle) /\
            (~ on_way n keys p -> ti_particles x' !! p = ti_particles x !! p).
Proof.
  revert x n. induction keys as [|k keys IH]; intros x n; cbn [set_keys].
  - rewrite app_nil_r. split_and!; [done..|]. intros p. split_and!; [done| |done].
    intros _ (k & ks & rest & H & _). done.
  - assert (forall p, on_way n (k :: keys) p <-> p = n ++ [k] \/ on_way (n ++ [k]) keys p) as Hw.
    { intros p. split.
      - intros (k' & [|k2 ks] & rest & [= <- Hk] & ->); [by left|right].
        exists k2, ks, rest. by rewrite <- app_assoc.
      - intros [->|(k2 & ks & rest & -> & ->)]; [exists k, [], keys|exists k, (k2 :: ks), rest];
          [done|by rewrite <- app_assoc]. }
    unfold particles_get. destruct (ti_particles x !! (n ++ [k])) as [v|] eqn:E.
    + specialize (IH x (n ++ [k])). destruct (set_keys x (n ++ [k]) keys) as [x' n'].
      destruct IH as (-> & -> & IH). rewrite <- app_assoc. split_and!; [done..|]. intros p.
      destruct (IH p) as (I1 & I2 & I3). rewrite Hw. split_and!; [done| |].
      * intros Hp [->|]; [congruence|by apply I2].
      * intros Hn. apply I3. tauto.
    + specialize (IH (particles_add x (n ++ [k]) newParticle) (n ++ [k])).
      destruct (set_keys _ _ keys) as [x' n']. destruct IH as (-> & -> & IH).
      rewrite <- app_assoc. split_and!; [done..|]. intros p. destruct (IH p) as (I1 & I2 & I3). rewrite Hw.
      unfold particles_add in *. cbn in *.
      destruct (decide (p = n ++ [k])) as [->|Hne].
      * rewrite lookup_insert_eq in *. rewrite E. split_and!; [by intros [? ?]|by auto|].
        intros Hn. exfalso. auto.
      * rewrite lookup_insert_ne in * by done. split_and!; [done|intros Hp [?|?]; auto; done|].
        intros Hn. apply I3. tauto.
Qed.

Lemma on_way_dec n keys p : on_way n keys p \/ ~ on_way n keys p.
Proof.
  destruct (decide (n `prefix_of` p)) as [[l ->]|Hn].
  - destruct (decide (l <> [] /\ l `prefix_of` keys)) as [[Hl [rest ->]]|Hn].
    + left. destruct l as [|k ks]; [done|]. by exists k, ks, rest.
    + right. intros (k & ks & rest & -> & H). apply app_inv_head in H as ->. apply Hn.
      split; [done|by exists rest].
  - right. intros (k & ks & rest & _ & ->). apply Hn. by eexists.
Qed.

Lemma on_way_parent keys p k : on_way [] keys (p ++ [k]) -> p = [] \/ on_way [] keys p.
Proof.
  intros (k1 & ks & rest & Hk & Hp). destruct p as [|l p]; [by left|right]. cbn in Hp.
  injection Hp as <- <-. exists l, p, ([k] ++ rest). split; [|done]. rewrite Hk. cbn. by rewrite <- app_assoc.
Qed.

Lemma on_way_next keys p : on_way [] keys p -> p = keys \/ exists k, on_way [] keys (p ++ [k]).
Proof.
  intros (k1 & ks & [|k rest] & -> & ->); [left; by rewrite app_nil_r|right].
  exists k, k1, (ks ++ [k]), rest. split; [|done]. cbn. by rewrite <- app_assoc.
Qed.

Lemma keys_from_nonempty filter d : keys_from filter d <> [].
Proof. unfold keys_from. cbn. by destruct (isolateParticle filter d). Qed.

(** What [set] promises: the address exists, no content changes, and only the
    address itself may be left as a dead leaf. *)
Record set_spec (x : TopicsIndex) (topic : gostr) (d : nat) (x' : TopicsIndex) (n : path) : Prop := mkSetSpec {
  set_address : n = keys_from topic d;
  set_Retained : ti_Retained x' = ti_Retained x;
  set_particle_at : forall p, particle_at x' p = particle_at x p;
  set_exists : is_Some (ti_particles x' !! n);
  set_ok : index_ok x -> index_ok x';
  set_tidy : tidy x -> tidy_but (eq n) x';
}.

Lemma TopicsIndex_set_spec x topic d :
  let '(x', n) := TopicsIndex_set x topic d in set_spec x topic d x' n.
Proof.
  unfold TopicsIndex_set. pose proof (set_keys_spec x [] (keys_from topic d)) as H.
  pose proof (keys_from_nonempty topic d) as Hne.
  destruct (set_keys x [] (keys_from topic d)) as [x' n]. cbn [app] in H.
  destruct H as (-> & HR & H). set (keys := keys_from topic d) in *.
  assert (forall p, is_Some (ti_particles x !! p) -> is_Some (ti_particles x' !! p)) as Hmono.
  { intros p Hp. by rewrite (proj1 (H p) Hp). }
  assert (forall p, on_way [] keys p -> is_Some (ti_particles x' !! p)) as Hway.
  { intros p Hp. destruct (ti_particles x !! p) eqn:E; [apply Hmono; eauto|].
    destruct (H p) as (_ & H2 & _). rewrite H2 by done. eauto. }
  assert (forall p, is_Some (ti_particles x' !! p) -> is_Some (ti_particles x !! p) \/ on_way [] keys p) as Hinv.
  { intros p Hp. destruct (on_way_dec [] keys p) as [|Hn]; [by right|left].
    destruct (H p) as (_ & _ & H3). by rewrite <- H3. }
  assert (forall p, particle_at x' p = particle_at x p) as Hat.
  { intros p. unfold particle_at. destruct (H p) as (H1 & H2 & H3).
    destruct (ti_particles x !! p) eqn:E; [rewrite H1; eauto|].
    destruct (on_way_dec [] keys p) as [Hw|Hn]; [by rewrite H2|by rewrite H3]. }
  assert (on_way [] keys keys) as Hkeys.
  { destruct keys as [|k ks]; [done|]. exists k, ks, []. by rewrite app_nil_r. }
  constructor; [done|done|done|auto| |].
  - intros Hok. constructor; [by apply Hmono, Hok| |intros p g; rewrite Hat; apply Hok].
    intros p k [Hp|Hp]%Hinv; [by apply Hmono, (ok_parent _ Hok p k)|].
    destruct (on_way_parent _ _ _ Hp) as [->|Hw]; [by apply Hmono, Hok|auto].
  - intros Ht p Htrim Hp. apply trimmable_spec in Htrim as (Hp0 & Hb & Hc).
    rewrite Hat in Hb. destruct (ti_particles x !! p) eqn:E.
    + exfalso. refine (Ht p _ _); [|eauto]. apply trimmable_spec. split_and!; [done|done|].
      intros k. apply eq_None_not_Some. intros Hk%Hmono. rewrite Hc in Hk. by destruct Hk.
    + destruct (Hinv p Hp) as [Hx|Hw]; [rewrite E in Hx; by destruct Hx|].
      destruct (on_way_next _ _ Hw) as [->|[k Hk]]; [done|].
      apply Hway in Hk. rewrite Hc in Hk. by destruct Hk.
Qed.

(** ** [seek] *)

Lemma seek_keys_spec x n keys :
  is_Some (ti_particles x !! n) -> index_ok x ->
  seek_keys x n keys = if bool_decide (is_Some (ti_particles x !! (n ++ keys))) then Some (n ++ keys) else None.
Proof.
  intros Hn Hok. revert n Hn. induction keys as [|k keys IH]; intros n Hn; cbn [seek_keys].
  - rewrite app_nil_r. by rewrite bool_decide_eq_true_2.
  - unfold particles_get. destruct (ti_particles x !! (n ++ [k])) eqn:E.
    + rewrite IH by eauto. by rewrite <- app_assoc.
    + change (n ++ k :: keys) with (n ++ [k] ++ keys). rewrite app_assoc.
      rewrite (particles_below _ _ _ Hok E). by rewrite bool_decide_eq_false_2 by (by intros [? ?]).
Qed.

Lemma TopicsIndex_seek_spec x filter d :
  index_ok x ->
  TopicsIndex_seek x filter d =
    if bool_decide (is_Some (ti_particles x !! keys_from filter d)) then Some (keys_from filter d) else None.
Proof. intros Hok. apply (seek_keys_spec x []); [apply Hok|done]. Qed.

(** ** Updating a particle *)

Lemma particle_update_at x n f p :
  is_Some (ti_particles x !! n) ->
  particle_at (particle_update x n f) p = if decide (p = n) then f (particle_at x n) else particle_at x p.
Proof.
  intros [v Hv]. unfold particle_at. rewrite particles_of_update. destruct (decide (p = n)) as [->|Hne].
  - by rewrite lookup_alter_eq, Hv.
  - by rewrite lookup_alter_ne by done.
Qed.

Lemma particle_update_exists x n f p :
  is_Some (ti_particles (particle_update x n f) !! p) <-> is_Some (ti_particles x !! p).
Proof. rewrite particles_of_update. apply lookup_alter_is_Some. Qed.

Lemma particle_update_ok x n f :
  is_Some (ti_particles x !! n) -> index_ok x ->
  (forall g, p_shared (f (particle_at x n)) !! g <> Some ∅) -> index_ok (particle_update x n f).
Proof.
  intros Hn Hok Hf. constructor.
  - apply particle_update_exists, Hok.
  - intros p k. rewrite !particle_update_exists. apply (ok_parent _ Hok).
  - intros p g. rewrite particle_update_at by done. destruct (decide (p = n)); [apply Hf|apply Hok].
Qed.

Lemma particle_update_trimmable x n f p :
  is_Some (ti_particles x !! n) -> p <> n ->
  trimmable (particle_update x n f) p = true -> trimmable x p = true.
Proof.
  intros Hn Hp. rewrite !trimmable_spec, particle_update_at by done.
  destruct (decide (p = n)); [done|]. intros (? & ? & Hc). split_and!; [done..|].
  intros k. apply eq_None_not_Some. intros Hk. apply (particle_update_exists x n f) in Hk.
  rewrite Hc in Hk. by destruct Hk.
Qed.

Lemma particle_update_tidy x n f :
  is_Some (ti_particles x !! n) -> tidy_but (eq n) x ->
  tidy_but (eq n) (particle_update x n f) /\
  (bare (f (particle_at x n)) = false -> tidy (particle_update x n f)).
Proof.
  intros Hn Ht. assert (tidy_but (eq n) (particle_update x n f)) as H1.
  { intros p Hp He. destruct (decide (p = n)) as [->|Hne]; [done|]. apply Ht.
    - by apply (particle_update_trimmable x n f).
    - by apply (particle_update_exists x n f). }
  split; [done|]. intros Hb p Hp He. pose proof (H1 p Hp He) as <-.
  apply trimmable_spec in Hp as (_ & Hp & _). rewrite particle_update_at in Hp by done.
  destruct (decide (n = n)); congruence.
Qed.

(** ** [trim] *)

Record trim_spec (x x' : TopicsIndex) : Prop := mkTrimSpec {
  trim_Retained : ti_Retained x' = ti_Retained x;
  trim_particle_at : forall p, particle_at x' p = particle_at x p;
  trim_ok : index_ok x';
}.

Lemma trim_step x n :
  index_ok x -> trimmable x n = true -> trim_spec x (particles_delete x n).
Proof.
  intros Hok Htr. apply trimmable_spec in Htr as (Hne & Hb & Hc).
  assert (forall p, particle_at (particles_delete x n) p = particle_at x p) as Hat.
  { intros p. unfold particle_at at 1. rewrite particles_of_delete.
    destruct (decide (p = n)) as [->|Hp]; [|by rewrite lookup_delete_ne].
    rewrite lookup_delete_eq. symmetry. apply bare_newParticle; [apply Hok|done]. }
  constructor; [done|done|]. constructor.
  - rewrite particles_of_delete, lookup_delete_ne by done. apply Hok.
  - intros p k. rewrite particles_of_delete. intros Hs.
    assert (p ++ [k] <> n) as Hk by (intros Heq; rewrite Heq, lookup_delete_eq in Hs; by destruct Hs).
    rewrite lookup_delete_ne in Hs by done. destruct (decide (p = n)) as [->|Hp].
    + rewrite Hc in Hs. by destruct Hs.
    + rewrite lookup_delete_ne by done. by apply (ok_parent _ Hok p k).
  - intros p g. rewrite Hat. apply Hok.
Qed.

Lemma trim_loop_spec fuel x n : index_ok x -> trim_spec x (trim_loop fuel x n).
Proof.
  revert x n. induction fuel as [|fuel IH]; intros x n Hok; cbn [trim_loop]; [by constructor|].
  destruct (trimmable x n) eqn:E; [|by constructor].
  destruct (trim_step x n Hok E) as [H1 H2 H3]. destruct (IH (particles_delete x n) (removelast n) H3) as [H4 H5 H6].
  constructor; [congruence| |done]. intros p. by rewrite H5.
Qed.

Lemma TopicsIndex_trim_spec x n : index_ok x -> trim_spec x (TopicsIndex_trim x n).
Proof. apply trim_loop_spec. Qed.

(** Trimming removes the dead leaf it starts from, and every particle above
    that becomes one. *)
Lemma trim_loop_tidy fuel x n :
  (length n <= fuel)%nat -> tidy_but (eq n) x -> tidy (trim_loop fuel x n).
Proof.
  revert x n. induction fuel as [|fuel IH]; intros x n Hf Ht; cbn [trim_loop].
  - destruct n; cbn in Hf; [|lia]. intros p Hp He. pose proof (Ht p Hp He) as <-.
    apply trimmable_spec in Hp as [? _]. done.
  - destruct (trimmable x n) eqn:E; [|intros p Hp He; pose proof (Ht p Hp He) as <-; congruence].
    apply trimmable_spec in E as (Hne & _ & _). destruct n as [|k n _] using rev_ind; [done|].
    rewrite removelast_last. apply IH; [rewrite length_app in Hf; cbn in Hf; lia|].
    intros p Hp He. rewrite particles_of_delete in He.
    assert (p <> n ++ [k]) as Hpn by (intros ->; rewrite lookup_delete_eq in He; by destruct He).
    rewrite lookup_delete_ne in He by done.
    destruct (decide (n = p)) as [|Hnp]; [done|]. exfalso. apply Hpn. symmetry. apply Ht; [|done].
    apply trimmable_spec in Hp as (H1 & H2 & H3). apply trimmable_spec.
    unfold particle_at in H2. rewrite particles_of_delete, lookup_delete_ne in H2 by done.
    split_and!; [done|done|]. intros k'. specialize (H3 k').
    rewrite particles_of_delete, lookup_delete_ne in H3; [done|]. intros Hk. apply app_inj_2 in Hk as [? _]; done.
Qed.

Lemma TopicsIndex_trim_tidy x n : tidy_but (eq n) x -> tidy (TopicsIndex_trim x n).
Proof. by apply trim_loop_tidy. Qed.

(** ** The effect of an operation on the index

    Every operation changes the content of one particle, seen through
    [particle_at], and keeps the shape invariants. *)
Record effect (x x' : TopicsIndex) (n : path) (f : particle -> particle) : Prop := mkEffect {
  eff_at : forall p, particle_at x' p = if decide (p = n) then f (particle_at x n) else particle_at x p;
  eff_Retained : ti_Retained x' = ti_Retained x;
  eff_ok : index_ok x';
  eff_tidy : tidy x -> tidy x';
}.

(** A change that keeps share groups non-empty. *)
Definition keeps_groups (f : particle -> particle) : Prop :=
  forall p, (forall g, p_shared p !! g <> Some ∅) -> forall g, p_shared (f p) !! g <> Some ∅.

Lemma keeps_groups_same f : (forall p, p_shared (f p) = p_shared p) -> keeps_groups f.
Proof. intros H p Hp g. by rewrite H. Qed.

Lemma set_update_effect x topic d f :
  index_ok x -> keeps_groups f -> bare (f (particle_at x (keys_from topic d))) = false ->
  let '(x1, n) := TopicsIndex_set x topic d in
  n = keys_from topic d /\ particle_at x1 n = particle_at x n /\ effect x (particle_update x1 n f) n f.
Proof.
  intros Hok Hf Hb. pose proof (TopicsIndex_set_spec x topic d) as S.
  destruct (TopicsIndex_set x topic d) as [x1 n]. destruct S as [Hn HR Hat He Hok1 Ht].
  split_and!; [done|done|]. subst n. constructor.
  - intros p. rewrite particle_update_at by done. by rewrite !Hat.
  - exact HR.
  - apply particle_update_ok; [done|auto|]. apply Hf. intros g. rewrite Hat. apply Hok.
  - intros Htidy. apply particle_update_tidy; [done|auto|]. by rewrite Hat.
Qed.

(** Changing a particle that exists in [x1], an index with the content of [x]
    in which only that particle may be a dead leaf, and trimming from it. *)
Lemma update_trim_effect x x1 n f :
  (forall p, particle_at x1 p = particle_at x p) -> ti_Retained x1 = ti_Retained x ->
  index_ok x1 -> is_Some (ti_particles x1 !! n) -> (tidy x -> tidy_but (eq n) x1) -> keeps_groups f ->
  effect x (TopicsIndex_trim (particle_update x1 n f) n) n f.
Proof.
  intros Hat1 HR1 Hok Hn Ht Hf.
  assert (index_ok (particle_update x1 n f)) as Hok1 by (apply particle_update_ok; [done|done|]; apply Hf, Hok).
  destruct (TopicsIndex_trim_spec (particle_update x1 n f) n Hok1) as [HR Hat Hok2]. constructor.
  - intros p. rewrite Hat, particle_update_at by done. by rewrite !Hat1.
  - by rewrite HR.
  - done.
  - intros Hx. apply TopicsIndex_trim_tidy, particle_update_tidy; auto.
Qed.

Lemma remove_effect x n f :
  index_ok x -> keeps_groups f -> is_Some (ti_particles x !! n) ->
  effect x (TopicsIndex_trim (particle_update x n f) n) n f.
Proof. intros Hok Hf Hn. apply update_trim_effect; auto. intros Ht p Hp He. by destruct (Ht p Hp He). Qed.

(** ** Subscribing and unsubscribing *)

Definition share_group (filter : gostr) : gostr := (isolateParticle filter 1).1.

(** The subscription of a client to a filter, shared or not. *)
Definition subscription_of (x : TopicsIndex) (filter client : gostr) : option Subscription :=
  let n := particle_at x (address filter) in
  if IsSharedFilter filter then SharedSubscriptions_Get (p_shared n) (share_group filter) client
  else Subscriptions_Get (p_subscriptions n) client.

(** Two filters name the same subscription when they are equal, or when both
    are shared with the same group and the same filter after the prefix (the
    prefix is compared without regard to case). *)
Definition same_slot (f g : gostr) : Prop :=
  IsSharedFilter f = IsSharedFilter g /\ address f = address g /\
  (IsSharedFilter f = true -> share_group f = share_group g).

#[export] Instance same_slot_dec f g : Decision (same_slot f g).
Proof. unfold same_slot. destruct (IsSharedFilter f); apply _. Defined.

Lemma same_slot_plain f g : IsSharedFilter f = false -> same_slot f g <-> f = g.
Proof.
  intros Hf. split; [|by intros ->]. intros (H1 & H2 & _). unfold address, share_depth in H2.
  rewrite <- H1, Hf, !keys_from_0 in H2. by apply (inj levels).
Qed.

Definition subscribe_update (client : gostr) (s : Subscription) (p : particle) : particle :=
  if IsSharedFilter (sub_Filter s)
  then p <| p_shared ::= fun m => SharedSubscriptions_Add m (share_group (sub_Filter s)) client s |>
  else p <| p_subscriptions ::= fun m => Subscriptions_Add m client s |>.

Definition unsubscribe_update (filter client : gostr) (p : particle) : particle :=
  if IsSharedFilter filter
  then p <| p_shared ::= fun m => SharedSubscriptions_Delete m (share_group filter) client |>
  else p <| p_subscriptions ::= fun m => Subscriptions_Delete m client |>.

Lemma subscribe_update_keeps client s : keeps_groups (subscribe_update client s).
Proof.
  intros p Hp g. unfold subscribe_update. destruct (IsSharedFilter _); [|apply Hp]. cbn.
  unfold SharedSubscriptions_Add. rewrite lookup_insert_Some. intros [[_ H]|[_ H]]; [|by apply (Hp g)].
  by apply insert_non_empty in H.
Qed.

Lemma unsubscribe_update_keeps filter client : keeps_groups (unsubscribe_update filter client).
Proof.
  intros p Hp g. unfold unsubscribe_update. destruct (IsSharedFilter _); [|apply Hp]. cbn.
  unfold SharedSubscriptions_Delete. destruct (p_shared p !! _); [|apply Hp].
  destruct (_ =? 0)%nat eqn:E; bool_to_prop.
  - rewrite lookup_delete_Some. intros [_ H]. by apply (Hp g).
  - rewrite lookup_insert_Some. intros [[_ H]|[_ H]]; [|by apply (Hp g)].
    rewrite H in E. by rewrite map_size_empty in E.
Qed.

Lemma SharedSubscriptions_Len_pos s g m c v :
  s !! g = Some m -> m !! c = Some v -> SharedSubscriptions_Len s <> 0%nat.
Proof. intros Hg Hc H. by rewrite (SharedSubscriptions_Len_0 _ H _ _ Hg), lookup_empty in Hc. Qed.

Lemma Subscriptions_Len_pos (s : Subscriptions) c v : s !! c = Some v -> Subscriptions_Len s <> 0%nat.
Proof. intros Hc H. apply map_size_empty_iff in H. subst. by rewrite lookup_empty in Hc. Qed.

Lemma subscribe_update_not_bare client s p : bare (subscribe_update client s p) = false.
Proof.
  unfold bare, subscribe_update. apply andb_false_iff. right. apply Nat.eqb_neq.
  intros [[H1 H2]%Nat.eq_add_0 _]%Nat.eq_add_0.
  destruct (IsSharedFilter _); [revert H2|revert H1].
  - eapply SharedSubscriptions_Len_pos; apply lookup_insert_eq.
  - eapply Subscriptions_Len_pos. apply lookup_insert_eq.
Qed.

Lemma Subscribe_effect x client s :
  index_ok x ->
  let '(new, x') := TopicsIndex_Subscribe x client s in
  new = negb (bool_decide (is_Some (subscription_of x (sub_Filter s) client))) /\
  effect x x' (address (sub_Filter s)) (subscribe_update client s).
Proof.
  intros Hok. unfold TopicsIndex_Subscribe.
  pose proof (set_update_effect x (sub_Filter s) (share_depth (sub_Filter s)) (subscribe_update client s)
    Hok (subscribe_update_keeps _ _) (subscribe_update_not_bare _ _ _)) as E.
  unfold subscription_of, address, share_depth, subscribe_update, IsSharedFilter in *.
  destruct (EqualFold _ _); destruct (TopicsIndex_set _ _ _) as [x1 n];
    destruct E as (-> & -> & E); split; done.
Qed.

Lemma Unsubscribe_effect x filter client :
  index_ok x ->
  let '(found, x') := TopicsIndex_Unsubscribe x filter client in
  found = bool_decide (is_Some (ti_particles x !! address filter)) /\
  effect x x' (address filter) (if found then unsubscribe_update filter client else id).
Proof.
  intros Hok. unfold TopicsIndex_Unsubscribe.
  change (if EqualFold (isolateParticle filter 0).1 SharePrefix then 2%nat else 0%nat) with (share_depth filter).
  rewrite TopicsIndex_seek_spec by done. fold (address filter).
  destruct (bool_decide_reflect (is_Some (ti_particles x !! address filter))) as [Hs|Hn].
  - split; [done|].
    pose proof (remove_effect x (address filter) (unsubscribe_update filter client) Hok
      (unsubscribe_update_keeps _ _) Hs) as E.
    unfold unsubscribe_update, IsSharedFilter in *. by destruct (EqualFold _ _).
  - split; [done|]. constructor; [|done..]. intros p. by destruct (decide _) as [->|].
Qed.

Lemma SharedSubscriptions_Get_Add m g c s g' c' :
  SharedSubscriptions_Get (SharedSubscriptions_Add m g c s) g' c' =
    if decide (g = g' /\ c = c') then Some s else SharedSubscriptions_Get m g' c'.
Proof.
  unfold SharedSubscriptions_Get, SharedSubscriptions_Add, shared_group.
  destruct (decide (g = g')) as [<-|Hg].
  - rewrite lookup_insert_eq. cbn. destruct (decide (c = c')) as [<-|Hc].
    + rewrite lookup_insert_eq. by rewrite decide_True.
    + rewrite lookup_insert_ne by done. rewrite decide_False by tauto. by destruct (m !! g).
  - rewrite lookup_insert_ne by done. by rewrite decide_False by tauto.
Qed.

Lemma SharedSubscriptions_Get_Delete m g c g' c' :
  SharedSubscriptions_Get (SharedSubscriptions_Delete m g c) g' c' =
    if decide (g = g' /\ c = c') then None else SharedSubscriptions_Get m g' c'.
Proof.
  unfold SharedSubscriptions_Get, SharedSubscriptions_Delete.
  destruct (m !! g) as [subs|] eqn:Hm.
  2: { destruct (decide _) as [[<- <-]|]; [by rewrite Hm|done]. }
  destruct (size (delete c subs) =? 0)%nat eqn:E; bool_to_prop.
  - apply map_size_empty_iff in E. destruct (decide (g = g')) as [<-|Hg].
    + rewrite lookup_delete_eq, Hm. cbn. destruct (decide _); [done|].
      symmetry. rewrite <- (lookup_delete_ne subs c) by tauto. by rewrite E, lookup_empty.
    + rewrite lookup_delete_ne by done. by rewrite decide_False by tauto.
  - destruct (decide (g = g')) as [<-|Hg].
    + rewrite lookup_insert_eq, Hm. cbn. destruct (decide (c = c')) as [<-|Hc].
      * rewrite lookup_delete_eq. by rewrite decide_True.
      * rewrite lookup_delete_ne by done. by rewrite decide_False by tauto.
    + rewrite lookup_insert_ne by done. by rewrite decide_False by tauto.
Qed.

Lemma particle_at_exists x p : particle_at x p <> newParticle -> is_Some (ti_particles x !! p).
Proof. unfold particle_at. destruct (ti_particles x !! p); [eauto|done]. Qed.

Lemma subscription_of_exists x f c :
  is_Some (subscription_of x f c) -> is_Some (ti_particles x !! address f).
Proof.
  intros [s Hs]. apply particle_at_exists. intros E. unfold subscription_of in Hs. rewrite E in Hs.
  by destruct (IsSharedFilter f).
Qed.

Lemma subscription_of_subscribe x x' client s f c :
  effect x x' (address (sub_Filter s)) (subscribe_update client s) ->
  subscription_of x' f c =
    if decide (same_slot f (sub_Filter s) /\ c = client) then Some s else subscription_of x f c.
Proof.
  intros E. unfold subscription_of. rewrite (eff_at _ _ _ _ E). unfold subscribe_update.
  destruct (decide (same_slot f (sub_Filter s) /\ c = client)) as [[(H1 & H2 & H3) ->]|Hn].
  - rewrite H2, decide_True, <- H1 by done. destruct (IsSharedFilter f); cbn.
    + rewrite SharedSubscriptions_Get_Add, decide_True by (split; [symmetry; auto|done]). done.
    + apply lookup_insert_eq.
  - destruct (decide (address f = address (sub_Filter s))) as [Ha|Ha]; [|done]. rewrite <- Ha.
    unfold same_slot in Hn.
    destruct (IsSharedFilter (sub_Filter s)), (IsSharedFilter f); try done; cbn.
    + rewrite SharedSubscriptions_Get_Add, decide_False; [done|]. intros [? ?]. apply Hn. split_and!; auto.
    + apply lookup_insert_ne. intros ->. apply Hn. split_and!; done.
Qed.

Lemma subscription_of_unsubscribe x x' filter client f c :
  effect x x' (address filter) (unsubscribe_update filter client) ->
  subscription_of x' f c =
    if decide (same_slot f filter /\ c = client) then None else subscription_of x f c.
Proof.
  intros E. unfold subscription_of. rewrite (eff_at _ _ _ _ E). unfold unsubscribe_update.
  destruct (decide (same_slot f filter /\ c = client)) as [[(H1 & H2 & H3) ->]|Hn].
  - rewrite H2, decide_True, <- H1 by done. destruct (IsSharedFilter f); cbn.
    + rewrite SharedSubscriptions_Get_Delete, decide_True by (split; [symmetry; auto|done]). done.
    + apply lookup_delete_eq.
  - destruct (decide (address f = address filter)) as [Ha|Ha]; [|done]. rewrite <- Ha.
    unfold same_slot in Hn.
    destruct (IsSharedFilter filter), (IsSharedFilter f); try done; cbn.
    + rewrite SharedSubscriptions_Get_Delete, decide_False; [done|]. intros [? ?]. apply Hn. split_and!; auto.
    + apply lookup_delete_ne. intros ->. apply Hn. split_and!; done.
Qed.

Lemma NewTopicsIndex_at p : particle_at NewTopicsIndex p = newParticle.
Proof.
  unfold particle_at, NewTopicsIndex. cbn [ti_particles]. destruct (decide (p = [])) as [->|].
  - by rewrite lookup_singleton_eq.
  - by rewrite lookup_singleton_ne.
Qed.

Lemma NewTopicsIndex_ok : index_ok NewTopicsIndex.
Proof.
  constructor.
  - exists newParticle. apply lookup_singleton_eq.
  - intros p k [v H]. unfold NewTopicsIndex in H. cbn [ti_particles] in H.
    apply lookup_singleton_Some in H as [H _]. by destruct p.
  - intros p g. rewrite NewTopicsIndex_at. done.
Qed.

Lemma NewTopicsIndex_tidy : tidy NewTopicsIndex.
Proof.
  intros p Hp [v He]. apply trimmable_spec in Hp as [Hne _].
  unfold NewTopicsIndex in He. cbn [ti_particles] in He.
  apply lookup_singleton_Some in He as [He _]. by apply Hne.
Qed.

(** C36: [Subscribe] is an insertion. On every well-formed index it reports
    whether the client had no subscription under that filter, and afterwards a
    lookup of any filter and client gives the new subscription for that filter
    and client (for a shared filter: that group and topic) and what it gave
    before for every other. *)
Theorem Subscribe_lookup x client s f c :
  index_ok x ->
  let '(new, x') := TopicsIndex_Subscribe x client s in
  new = negb (bool_decide (is_Some (subscription_of x (sub_Filter s) client))) /\
  subscription_of x' f c =
    if decide (same_slot f (sub_Filter s) /\ c = client) then Some s else subscription_of x f c.
Proof.
  intros Hok. pose proof (Subscribe_effect x client s Hok) as E.
  destruct (TopicsIndex_Subscribe x client s) as [new x']. destruct E as [-> E].
  split; [done|]. by apply subscription_of_subscribe.
Qed.

Definition sub_sample : Subscription := Subscription0 <| sub_Filter := !"a/+/b" |> <| sub_Qos := 1 |>.
Definition share_sample : Subscription := Subscription0 <| sub_Filter := !"$share/g/a/b" |> <| sub_Qos := 2 |>.

Lemma Subscribe_lookup_witness :
  let '(new, x') := TopicsIndex_Subscribe NewTopicsIndex !"c1" share_sample in
  new = true /\ subscription_of x' !"$SHARE/g/a/b" !"c1" = Some share_sample.
Proof.
  exact (Subscribe_lookup NewTopicsIndex !"c1" share_sample !"$SHARE/g/a/b" !"c1" NewTopicsIndex_ok).
Defined.

(** [Unsubscribe] is a deletion: afterwards the client has no subscription
    under that filter and every other subscription is as before; it returns
    true whenever the client had the subscription. *)
Theorem Unsubscribe_lookup x filter client f c :
  index_ok x ->
  let '(found, x') := TopicsIndex_Unsubscribe x filter client in
  (is_Some (subscription_of x filter client) -> found = true) /\
  subscription_of x' f c =
    if decide (same_slot f filter /\ c = client) then None else subscription_of x f c.
Proof.
  intros Hok. pose proof (Unsubscribe_effect x filter client Hok) as E.
  destruct (TopicsIndex_Unsubscribe x filter client) as [found x']. destruct E as [Hf E].
  split.
  - intros Hs%subscription_of_exists. rewrite Hf. by apply bool_decide_eq_true_2.
  - destruct found; [by apply subscription_of_unsubscribe|].
    symmetry in Hf. apply bool_decide_eq_false in Hf.
    assert (subscription_of x' f c = subscription_of x f c) as ->.
    { unfold subscription_of. rewrite (eff_at _ _ _ _ E). by destruct (decide _) as [->|]. }
    destruct (decide _) as [[Hs ->]|]; [|done]. destruct (subscription_of x f client) eqn:Es; [|done].
    exfalso. apply Hf. destruct Hs as (_ & <- & _). eapply subscription_of_exists. eauto.
Qed.

Lemma Unsubscribe_lookup_witness :
  let x := (TopicsIndex_Subscribe NewTopicsIndex !"c1" sub_sample).2 in
  let '(found, x') := TopicsIndex_Unsubscribe x !"a/+/b" !"c1" in
  (is_Some (subscription_of x !"a/+/b" !"c1") -> found = true) /\
  subscription_of x' !"a/+/b" !"c1" = None.
Proof.
  refine (Unsubscribe_lookup (TopicsIndex_Subscribe NewTopicsIndex !"c1" sub_sample).2
    !"a/+/b" !"c1" !"a/+/b" !"c1" _).
  pose proof (Subscribe_effect NewTopicsIndex !"c1" sub_sample NewTopicsIndex_ok) as E.
  destruct (TopicsIndex_Subscribe _ _ _). apply E.
Defined.

(** The result of [Unsubscribe] does not tell whether the client was
    subscribed: an existing particle is enough. *)
Lemma Unsubscribe_other_client :
  (TopicsIndex_Unsubscribe (TopicsIndex_Subscribe NewTopicsIndex !"c1" sub_sample).2 !"a/+/b" !"c2").1 = true.
Proof. vm_compute. reflexivity. Qed.

(** ** Inline subscriptions and retained messages *)

Definition inline_add (s : InlineSubscription) (p : particle) : particle :=
  p <| p_inline ::= fun m => InlineSubscriptions_Add m s |>.
Definition inline_delete (id : Z) (p : particle) : particle :=
  p <| p_inline ::= fun m => InlineSubscriptions_Delete m id |>.
Definition set_retainPath (t : gostr) (p : particle) : particle := p <| p_retainPath := t |>.

Lemma bare_inline p s : bare (inline_add s p) = false.
Proof.
  unfold bare. apply andb_false_iff. right. apply Nat.eqb_neq.
  intros [_ H]%Nat.eq_add_0. apply map_size_empty_iff in H. revert H. apply insert_non_empty.
Qed.

Lemma bare_retain p t : t <> [] -> bare (set_retainPath t p) = false.
Proof. intros Ht. unfold bare. apply andb_false_iff. left. by apply bool_decide_eq_false_2. Qed.

Lemma InlineSubscribe_effect x s :
  index_ok x ->
  let n := levels (sub_Filter (is_Subscription s)) in
  let '(new, x') := TopicsIndex_InlineSubscribe x s in
  new = negb (bool_decide (is_Some (p_inline (particle_at x n) !! sub_Identifier (is_Subscription s)))) /\
  effect x x' n (inline_add s).
Proof.
  intros Hok. cbn zeta. unfold TopicsIndex_InlineSubscribe.
  pose proof (set_update_effect x (sub_Filter (is_Subscription s)) 0 (inline_add s) Hok
    (keeps_groups_same (inline_add s) (fun _ => eq_refl)) (bare_inline _ _)) as E.
  destruct (TopicsIndex_set _ _ _) as [x1 n]. rewrite keys_from_0 in E.
  destruct E as (-> & -> & E). by split.
Qed.

Lemma InlineUnsubscribe_effect x id filter :
  index_ok x ->
  let '(found, x') := TopicsIndex_InlineUnsubscribe x id filter in
  effect x x' (levels filter) (if found then inline_delete id else Datatypes.id).
Proof.
  intros Hok. unfold TopicsIndex_InlineUnsubscribe. rewrite TopicsIndex_seek_spec, keys_from_0 by done.
  destruct (bool_decide_reflect (is_Some (ti_particles x !! levels filter))) as [Hs|Hn].
  - fold (inline_delete id). change (fun p => p <| p_inline ::= _ |>) with (inline_delete id).
    pose proof (remove_effect x (levels filter) (inline_delete id) Hok
      (keeps_groups_same (inline_delete id) (fun _ => eq_refl)) Hs) as E.
    destruct (_ =? 0)%nat eqn:Hlen; [exact E|]. bool_to_prop. constructor.
    + intros p. by apply particle_update_at.
    + done.
    + apply particle_update_ok; [done|done|]. intros g. apply Hok.
    + intros Ht. apply particle_update_tidy; [done| |].
      { intros p Hp He. by destruct (Ht p Hp He). }
      rewrite particle_update_at, decide_True in Hlen by done.
      unfold bare. apply andb_false_iff. right. apply Nat.eqb_neq. lia.
  - constructor; [|done..]. intros p. by destruct (decide _) as [->|].
Qed.

Lemma RetainMessage_effect x pk :
  index_ok x ->
  let n := levels (pk_TopicName pk) in
  let '(out, x') := TopicsIndex_RetainMessage x pk in
  if (0 <? length (pk_Payload pk))%nat then
    out = 1 /\ (pk_TopicName pk <> [] ->
      effect (x <| ti_Retained ::= <[pk_TopicName pk := pk]> |>) x' n (set_retainPath (pk_TopicName pk)))
  else
    out = match ti_Retained x !! pk_TopicName pk with
          | Some pke => if (0 <? length (pk_Payload pke))%nat && fh_Retain (pk_FixedHeader pke) then -1 else 0
          | None => 0
          end /\
    effect (x <| ti_Retained ::= delete (pk_TopicName pk) |>) x' n (set_retainPath []).
Proof.
  intros Hok. cbn zeta. unfold TopicsIndex_RetainMessage.
  pose proof (TopicsIndex_set_spec x (pk_TopicName pk) 0) as S.
  destruct (TopicsIndex_set _ _ _) as [x1 n]. destruct S as [Hn HR Hat He Hok1 Ht].
  rewrite keys_from_0 in Hn. subst n. specialize (Hok1 Hok).
  destruct (0 <? length (pk_Payload pk))%nat.
  - split; [done|]. intros Hne. constructor.
    + intros p. pose proof (particle_update_at x1 _ (set_retainPath (pk_TopicName pk)) p He) as E.
      rewrite !Hat in E. exact E.
    + transitivity (<[pk_TopicName pk := pk]> (ti_Retained x1)); [done|by rewrite HR].
    + assert (index_ok (particle_update x1 (levels (pk_TopicName pk)) (set_retainPath (pk_TopicName pk)))) as [? ? ?].
      { apply particle_update_ok; [done..|]. intros g. apply Hok1. }
      by constructor.
    + intros Htidy. apply (particle_update_tidy x1 (levels (pk_TopicName pk)) (set_retainPath (pk_TopicName pk)));
        [done|by apply Ht|by apply bare_retain].
  - unfold Packets_Get. rewrite HR. split; [done|].
    assert (forall n f g, (particle_update x1 n f) <| ti_Retained ::= g |>
      = particle_update (x1 <| ti_Retained ::= g |>) n f) as -> by done.
    apply (update_trim_effect (x <| ti_Retained ::= delete (pk_TopicName pk) |>)
      (x1 <| ti_Retained ::= fun r => Packets_Delete r (pk_TopicName pk) |>)
      (levels (pk_TopicName pk)) (set_retainPath [])).
    + exact Hat.
    + transitivity (delete (pk_TopicName pk) (ti_Retained x1)); [done|by rewrite HR].
    + destruct Hok1. by constructor.
    + exact He.
    + exact Ht.
    + by apply keeps_groups_same.
Qed.

(** What [RetainMessage] does to the retained messages and the subscriptions. *)
Lemma RetainMessage_step x pk :
  index_ok x -> pk_TopicName pk <> [] ->
  index_ok (TopicsIndex_RetainMessage x pk).2 /\
  (forall f c, subscription_of (TopicsIndex_RetainMessage x pk).2 f c = subscription_of x f c) /\
  ti_Retained (TopicsIndex_RetainMessage x pk).2 =
    (if (0 <? length (pk_Payload pk))%nat then <[pk_TopicName pk := pk]> else delete (pk_TopicName pk)) (ti_Retained x).
Proof.
  intros Hok Hne. pose proof (RetainMessage_effect x pk Hok) as E. cbn zeta in E.
  assert (Hsub : forall x0 x' n t, (forall p, particle_at x0 p = particle_at x p) -> effect x0 x' n (set_retainPath t) ->
    forall f c, subscription_of x' f c = subscription_of x f c).
  { intros x0 x' n t H0 E' f c. unfold subscription_of. rewrite (eff_at _ _ _ _ E'), !H0. destruct (decide _) as [->|]; done. }
  destruct (TopicsIndex_RetainMessage x pk) as [out x']. cbn [snd].
  destruct (0 <? length (pk_Payload pk))%nat; [destruct E as [_ E]; specialize (E Hne)|destruct E as [_ E]];
    (split_and!; [apply E|eapply Hsub; [|exact E]; done|exact (eff_Retained _ _ _ _ E)]).
Qed.
