(* ===== verification/TopicsInvariant.v ===== *)
(** * The invariant of the topics index over all its operations

    The index as a state machine: the operations the broker performs on it are
    steps, and every reachable index satisfies [index_inv]. *)
From S2P Require Import Prelude Codes Codec FixedHeader Properties Packets Topics TopicsFacts.

(** The shape invariants, and that every particle holds only what belongs to
    its address: subscriptions to its filter, share groups by the group of
    their filter, and the retained message of its topic. *)
Record index_inv (x : TopicsIndex) : Prop := mkIndexInv {
  inv_ok : index_ok x;
  inv_tidy : tidy x;
  inv_subs : forall p c s, p_subscriptions (particle_at x p) !! c = Some s ->
    IsSharedFilter (sub_Filter s) = false /\ address (sub_Filter s) = p;
  inv_shared : forall p g c s, SharedSubscriptions_Get (p_shared (particle_at x p)) g c = Some s ->
    IsSharedFilter (sub_Filter s) = true /\ address (sub_Filter s) = p /\ share_group (sub_Filter s) = g;
  inv_inline : forall p i s, p_inline (particle_at x p) !! i = Some s ->
    levels (sub_Filter (is_Subscription s)) = p /\ sub_Identifier (is_Subscription s) = i;
  inv_retainPath : forall p, p_retainPath (particle_at x p) = [] \/ levels (p_retainPath (particle_at x p)) = p;
  inv_retained : forall t pk, ti_Retained x !! t = Some pk ->
    pk_TopicName pk = t /\ t <> [] /\ pk_Payload pk <> [] /\ p_retainPath (particle_at x (levels t)) = t;
}.

(** One operation on the index. A retained message has a topic name (the broker
    resolves topic aliases before it retains); [expire] is the removal of an
    expired message from the map of retained messages by the server. *)
Inductive index_step : TopicsIndex -> TopicsIndex -> Prop :=
| step_subscribe x client s : index_step x (TopicsIndex_Subscribe x client s).2
| step_unsubscribe x filter client : index_step x (TopicsIndex_Unsubscribe x filter client).2
| step_inline_subscribe x s : index_step x (TopicsIndex_InlineSubscribe x s).2
| step_inline_unsubscribe x id filter : index_step x (TopicsIndex_InlineUnsubscribe x id filter).2
| step_retain x pk : pk_TopicName pk <> [] -> index_step x (TopicsIndex_RetainMessage x pk).2
| step_expire x t : index_step x (x <| ti_Retained ::= delete t |>).

(** How a change at one particle carries the invariants of content over. *)
Lemma effect_content {A} (proj : particle -> A) (P : path -> A -> Prop) x x' n f :
  effect x x' n f -> (forall p, P p (proj (particle_at x p))) ->
  P n (proj (f (particle_at x n))) -> forall p, P p (proj (particle_at x' p)).
Proof. intros E H Hn p. rewrite (eff_at _ _ _ _ E). by destruct (decide (p = n)) as [->|]. Qed.

(** The part of the invariant on the content of particles. *)
Record content_inv (p : path) (n : particle) : Prop := mkContentInv {
  ci_subs : forall c s, p_subscriptions n !! c = Some s ->
    IsSharedFilter (sub_Filter s) = false /\ address (sub_Filter s) = p;
  ci_shared : forall g c s, SharedSubscriptions_Get (p_shared n) g c = Some s ->
    IsSharedFilter (sub_Filter s) = true /\ address (sub_Filter s) = p /\ share_group (sub_Filter s) = g;
  ci_inline : forall i s, p_inline n !! i = Some s ->
    levels (sub_Filter (is_Subscription s)) = p /\ sub_Identifier (is_Subscription s) = i;
  ci_retainPath : p_retainPath n = [] \/ levels (p_retainPath n) = p;
}.

Lemma index_inv_alt x :
  index_inv x <-> index_ok x /\ tidy x /\ (forall p, content_inv p (particle_at x p)) /\
    (forall t pk, ti_Retained x !! t = Some pk ->
      pk_TopicName pk = t /\ t <> [] /\ pk_Payload pk <> [] /\ p_retainPath (particle_at x (levels t)) = t).
Proof.
  split.
  - intros [H1 H2 H3 H4 H5 H6 H7]. split_and!; [done..| |done].
    intros p. constructor; [apply H3|apply H4|apply H5|apply H6].
  - intros (H1 & H2 & H3 & H4). constructor; [done..| | | | |done]; intros p; apply (H3 p).
Qed.

Lemma content_inv_new p : content_inv p newParticle.
Proof. constructor; [done..|by left]. Qed.

Lemma NewTopicsIndex_inv : index_inv NewTopicsIndex.
Proof.
  apply index_inv_alt. split_and!; [apply NewTopicsIndex_ok|apply NewTopicsIndex_tidy| |done].
  intros p. rewrite NewTopicsIndex_at. apply content_inv_new.
Qed.

Section Step.
Context (x x' : TopicsIndex) (Hinv : index_inv x).

(** A step that changes one particle and no retained message. *)
Lemma effect_inv n f :
  effect x x' n f -> content_inv n (f (particle_at x n)) ->
  p_retainPath (f (particle_at x n)) = p_retainPath (particle_at x n) -> index_inv x'.
Proof.
  intros E Hc Hr. apply index_inv_alt in Hinv as (H1 & H2 & H3 & H4). apply index_inv_alt.
  split_and!; [apply E|by apply E|exact (effect_content (fun n => n) _ _ _ _ _ E H3 Hc)|].
  intros t pk. rewrite (eff_Retained _ _ _ _ E). intros Ht. destruct (H4 t pk Ht) as (? & ? & ? & Hp).
  split_and!; [done..|]. rewrite (eff_at _ _ _ _ E). destruct (decide (levels t = n)) as [<-|]; [|done].
  by rewrite Hr.
Qed.

Lemma content_at p : content_inv p (particle_at x p).
Proof. by apply index_inv_alt in Hinv as (_ & _ & H & _). Qed.
End Step.

Lemma Subscribe_inv x client s : index_inv x -> index_inv (TopicsIndex_Subscribe x client s).2.
Proof.
  intros Hinv. pose proof (Subscribe_effect x client s (inv_ok _ Hinv)) as E.
  destruct (TopicsIndex_Subscribe x client s) as [new x']. destruct E as [_ E]. cbn [snd].
  eapply (effect_inv x); [done|exact E| |unfold subscribe_update; by destruct (IsSharedFilter _)].
  destruct (content_at x Hinv (address (sub_Filter s))) as [H1 H2 H3 H4].
  unfold subscribe_update. destruct (IsSharedFilter (sub_Filter s)) eqn:Hs.
  - constructor; [exact H1| |exact H3|exact H4]. intros g c s'. cbn. rewrite SharedSubscriptions_Get_Add.
    destruct (decide _) as [[<- <-]|]; [intros [= <-]; done|apply H2].
  - constructor; [|exact H2|exact H3|exact H4]. intros c s'. cbn. unfold Subscriptions_Add.
    rewrite lookup_insert_Some. intros [[_ <-]|[_ H]]; [done|by apply (H1 c)].
Qed.

Lemma Unsubscribe_inv x filter client : index_inv x -> index_inv (TopicsIndex_Unsubscribe x filter client).2.
Proof.
  intros Hinv. pose proof (Unsubscribe_effect x filter client (inv_ok _ Hinv)) as E.
  destruct (TopicsIndex_Unsubscribe x filter client) as [found x']. destruct E as [_ E]. cbn [snd].
  pose proof (content_at x Hinv (address filter)) as Hc. unfold unsubscribe_update in E.
  eapply (effect_inv x); [done|exact E| |by destruct found, (IsSharedFilter filter)].
  destruct found; [|done]. destruct Hc as [H1 H2 H3 H4]. destruct (IsSharedFilter filter).
  - constructor; [exact H1| |exact H3|exact H4]. intros g c s'. cbn. rewrite SharedSubscriptions_Get_Delete.
    destruct (decide _); [done|apply H2].
  - constructor; [|exact H2|exact H3|exact H4]. intros c s'. cbn. unfold Subscriptions_Delete.
    rewrite lookup_delete_Some. intros [_ H]. by apply (H1 c).
Qed.

Lemma InlineSubscribe_inv x s : index_inv x -> index_inv (TopicsIndex_InlineSubscribe x s).2.
Proof.
  intros Hinv. pose proof (InlineSubscribe_effect x s (inv_ok _ Hinv)) as E. cbn zeta in E.
  destruct (TopicsIndex_InlineSubscribe x s) as [new x']. destruct E as [_ E]. cbn [snd].
  eapply (effect_inv x); [done|exact E| |done].
  destruct (content_at x Hinv (levels (sub_Filter (is_Subscription s)))) as [H1 H2 H3 H4].
  constructor; [exact H1|exact H2| |exact H4]. intros i s'. cbn. unfold InlineSubscriptions_Add.
  rewrite lookup_insert_Some. intros [[<- <-]|[_ H]]; [done|by apply (H3 i)].
Qed.

Lemma InlineUnsubscribe_inv x id filter : index_inv x -> index_inv (TopicsIndex_InlineUnsubscribe x id filter).2.
Proof.
  intros Hinv. pose proof (InlineUnsubscribe_effect x id filter (inv_ok _ Hinv)) as E.
  destruct (TopicsIndex_InlineUnsubscribe x id filter) as [found x']. cbn [snd].
  eapply (effect_inv x); [done|exact E| |by destruct found].
  destruct (content_at x Hinv (levels filter)) as [H1 H2 H3 H4]. destruct found; [|done].
  constructor; [exact H1|exact H2| |exact H4]. intros i s'. cbn. unfold InlineSubscriptions_Delete.
  rewrite lookup_delete_Some. intros [_ H]. by apply (H3 i).
Qed.

Lemma RetainMessage_inv x pk :
  pk_TopicName pk <> [] -> index_inv x -> index_inv (TopicsIndex_RetainMessage x pk).2.
Proof.
  intros Hne Hinv. pose proof (RetainMessage_effect x pk (inv_ok _ Hinv)) as E. cbn zeta in E.
  destruct (TopicsIndex_RetainMessage x pk) as [out x']. cbn [snd].
  pose proof (content_at x Hinv) as Hc. apply index_inv_alt in Hinv as (Ho & Ht & _ & Hr).
  apply index_inv_alt. destruct (0 <? length (pk_Payload pk))%nat eqn:Hp; bool_to_prop.
  - destruct E as [_ E]. specialize (E Hne). split_and!; [apply E|by apply E| |].
    + eapply (effect_content (fun n => n) content_inv); [exact E|exact Hc|].
      destruct (Hc (levels (pk_TopicName pk))) as [H1 H2 H3 H4]. by constructor; [..|right].
    + intros t pk'. assert (ti_Retained x' = <[pk_TopicName pk := pk]> (ti_Retained x)) as -> by apply E.
      rewrite (eff_at _ _ _ _ E). intros [[<- <-]|[Hnt H]]%lookup_insert_Some.
      * rewrite decide_True by done. split_and!; try done. intros Hz. rewrite Hz in Hp. cbn in Hp. lia.
      * rewrite decide_False by (intros ?%(inj levels); done). apply (Hr t pk' H).
  - destruct E as [_ E]. split_and!; [apply E|by apply E| |].
    + eapply (effect_content (fun n => n) content_inv); [exact E|exact Hc|].
      destruct (Hc (levels (pk_TopicName pk))) as [H1 H2 H3 H4]. by constructor; [..|left].
    + intros t pk'. assert (ti_Retained x' = delete (pk_TopicName pk) (ti_Retained x)) as -> by apply E.
      rewrite (eff_at _ _ _ _ E). intros [Hnt H]%lookup_delete_Some.
      rewrite decide_False by (intros ?%(inj levels); done). apply (Hr t pk' H).
Qed.

Lemma expire_inv x t : index_inv x -> index_inv (x <| ti_Retained ::= delete t |>).
Proof.
  intros [[H1 H2 H3] H4 H5 H6 H7 H8 H9]. constructor; [by constructor|exact H4|exact H5|exact H6|exact H7|exact H8|].
  intros t' pk H. change (delete t (ti_Retained x) !! t' = Some pk) in H.
  apply lookup_delete_Some in H as [_ H]. by apply H9.
Qed.

Lemma index_step_inv x x' : index_step x x' -> index_inv x -> index_inv x'.
Proof.
  destruct 1; auto using Subscribe_inv, Unsubscribe_inv, InlineSubscribe_inv, InlineUnsubscribe_inv,
    RetainMessage_inv, expire_inv.
Qed.

Lemma reachable_inv x : rtc index_step NewTopicsIndex x -> index_inv x.
Proof.
  pose proof NewTopicsIndex_inv as H. revert H. generalize NewTopicsIndex.
  intros x0 H Hr. induction Hr; eauto using index_step_inv.
Qed.

(** C13: every index that subscribing, unsubscribing, the same inline,
    retaining messages that have a topic name, and removing expired ones can
    lead to from the empty one satisfies the invariant: the trie is closed under
    parents; every leaf below the root holds a subscription or the path of a
    topic a message was retained on (also after that message expired); each
    subscription, share group and inline subscription is stored at the address
    of its own filter, and each retained message is found from the particle of
    its topic. *)
Theorem index_invariant x : rtc index_step NewTopicsIndex x -> index_inv x.
Proof. apply reachable_inv. Qed.

Lemma index_invariant_witness :
  index_inv (TopicsIndex_Unsubscribe (TopicsIndex_Subscribe NewTopicsIndex !"c1" sub_sample).2 !"a/+/b" !"c1").2.
Proof.
  apply index_invariant. eapply rtc_l; [apply step_subscribe|].
  eapply rtc_l; [apply step_unsubscribe|]. apply rtc_refl.
Defined.

(** Removing an expired message leaves the path of its topic: the particle has
    nothing to give any more and is not trimmed. *)
Lemma expired_topic_stays :
  let pk := Packet0 <| pk_TopicName := !"a" |> <| pk_Payload := !"v" |> in
  let x := (TopicsIndex_RetainMessage NewTopicsIndex pk).2 <| ti_Retained ::= delete !"a" |> in
  ti_Retained x = ∅ /\ p_retainPath (particle_at x [!"a"]) = !"a" /\
  p_subscriptions (particle_at x [!"a"]) = ∅ /\ p_shared (particle_at x [!"a"]) = ∅ /\ p_inline (particle_at x [!"a"]) = ∅.
Proof. vm_compute. done. Qed.

(** A message retained without a topic name leaves a bare leaf. *)
Lemma empty_topic_dead_leaf :
  let x := (TopicsIndex_RetainMessage NewTopicsIndex (Packet0 <| pk_Payload := !"v" |>)).2 in
  is_Some (ti_particles x !! [[]]) /\ bare (particle_at x [[]]) = true /\ ~ tidy x.
Proof.
  cbv zeta. set (x := (TopicsIndex_RetainMessage _ _).2).
  assert (H : is_Some (ti_particles x !! [[]])) by (vm_compute; eauto).
  assert (Hb : bare (particle_at x [[]]) = true) by (vm_compute; reflexivity).
  split_and!; [done..|]. intros Ht. refine (Ht [[]] _ H). vm_compute. reflexivity.
Qed.
