(* ===== verification/TopicsMatch.v ===== *)
(** * Which subscribers a topic reaches

    [Subscribers] walks the trie; here the walk is shown to visit exactly the
    particles whose filter matches the topic, and what it gathers is described
    client by client. *)
From S2P Require Import Prelude Codes Codec FixedHeader Properties Packets Topics TopicsFacts TopicsInvariant.

(** ** Matching, as MQTT 4.7 defines it, on the levels of filter and topic *)

Fixpoint matches (f t : list gostr) : bool :=
  match f with
  | [] => match t with [] => true | _ => false end
  | k :: f' =>
      if str_eqb k hash && bool_decide (f' = []) then true
      else match t with
           | [] => false
           | l :: t' => (str_eqb k plus || str_eqb k l) && matches f' t'
           end
  end.

(** The case the walk leaves out: ["+/#"] at the end of a filter does not match
    the parent level. *)
Definition missed (f t : list gostr) : bool :=
  (length f =? S (length t))%nat && bool_decide (drop (length t - 1) f = [plus; hash]).

(** A name without wildcards. *)
Definition plain (t : list gostr) : Prop := Forall (fun l => l <> plus /\ l <> hash) t.

(** The particles of the walk from [n] for the levels [ts], in its order, each
    with the particle whose inline subscriptions are gathered with it. *)
Fixpoint visits (n : path) (ts : list gostr) : list (path * path) :=
  match ts with
  | [] => []
  | t :: ts' =>
      (match ts' with
       | [] => [(n ++ [t], n ++ [t]); (n ++ [t; hash], n ++ [t]); (n ++ [plus], n ++ [plus])]
       | _ => visits (n ++ [t]) ts' ++ visits (n ++ [plus]) ts'
       end) ++ [(n ++ [hash], n ++ [hash])]
  end.

Fixpoint reaches (f t : list gostr) {struct t} : bool :=
  match t with
  | [] => false
  | l :: t' =>
      bool_decide (f = [hash]) ||
      match t' with
      | [] => bool_decide (f = [l]) || bool_decide (f = [l; hash]) || bool_decide (f = [plus])
      | _ => match f with
             | k :: f' => (str_eqb k l || str_eqb k plus) && reaches f' t'
             | [] => false
             end
      end
  end.

Lemma reaches_last f l :
  reaches f [l] = true <-> f = [hash] \/ f = [l] \/ f = [l; hash] \/ f = [plus].
Proof. cbn [reaches]. rewrite !orb_true_iff, !bool_decide_eq_true. tauto. Qed.

Lemma reaches_more f l t :
  t <> [] ->
  reaches f (l :: t) = bool_decide (f = [hash]) ||
    match f with k :: f' => (str_eqb k l || str_eqb k plus) && reaches f' t | [] => false end.
Proof. by destruct t. Qed.

Lemma visits_more n t ts :
  ts <> [] ->
  visits n (t :: ts) = (visits (n ++ [t]) ts ++ visits (n ++ [plus]) ts) ++ [(n ++ [hash], n ++ [hash])].
Proof. by destruct ts. Qed.

Lemma visits_reaches n ts p :
  (exists q, (p, q) ∈ visits n ts) <-> exists f, p = n ++ f /\ reaches f ts = true.
Proof.
  revert n p. induction ts as [|t ts IH]; intros n p.
  { cbn. split; [intros [q Hq%elem_of_nil]; done|intros (f & _ & ?); done]. }
  destruct ts as [|t2 ts].
  - setoid_rewrite reaches_last. cbn [visits app].
    setoid_rewrite elem_of_cons. setoid_rewrite elem_of_cons. setoid_rewrite elem_of_cons.
    setoid_rewrite list_elem_of_singleton. naive_solver.
  - setoid_rewrite reaches_more; [|done]. rewrite visits_more by done.
    remember (t2 :: ts) as rest eqn:Er. clear Er. split.
    + intros [q Hq]. rewrite !elem_of_app in Hq. destruct Hq as [[Hq|Hq]|Hq].
      * destruct (proj1 (IH (n ++ [t]) p) (ex_intro _ q Hq)) as (f & -> & Hf).
        exists (t :: f). rewrite <- app_assoc. split; [done|]. rewrite str_eqb_refl, Hf. by rewrite orb_true_r.
      * destruct (proj1 (IH (n ++ [plus]) p) (ex_intro _ q Hq)) as (f & -> & Hf).
        exists (plus :: f). rewrite <- app_assoc. split; [done|].
        rewrite str_eqb_refl, Hf. by rewrite !orb_true_r.
      * apply list_elem_of_singleton in Hq as [= -> ->]. exists [hash]. split; [done|].
        by rewrite bool_decide_eq_true_2.
    + intros (f & -> & Hf). apply orb_true_iff in Hf as [Hf|Hf].
      * apply bool_decide_eq_true in Hf as ->. exists (n ++ [hash]). rewrite !elem_of_app. right. by apply list_elem_of_singleton.
      * destruct f as [|k f]; [done|]. apply andb_true_iff in Hf as [Hk Hf].
        change (n ++ k :: f) with (n ++ [k] ++ f). rewrite app_assoc.
        destruct (proj2 (IH (n ++ [k]) ((n ++ [k]) ++ f))) as [q Hq]; [by eexists|].
        exists q. rewrite !elem_of_app. left.
        apply orb_true_iff in Hk as [Hk|Hk]; apply bool_decide_eq_true in Hk as ->; auto.
Qed.

Lemma missed_cons k f l t : t <> [] -> missed (k :: f) (l :: t) = missed f t.
Proof. intros H. unfold missed. destruct t as [|l2 t]; [done|].
  replace (length (l :: l2 :: t) - 1)%nat with (S (length t)) by (cbn; lia).
  by replace (length (l2 :: t) - 1)%nat with (length t) by (cbn; lia).
Qed.

Lemma matches_nil f : matches f [] = true -> f = [] \/ f = [hash].
Proof.
  destruct f as [|k f]; [auto|]. cbn [matches]. destruct (str_eqb_spec k hash) as [->|]; [cbn [andb]|done].
  destruct (bool_decide_reflect (f = [])) as [->|]; [auto|done].
Qed.

Lemma reaches_matches_last f l :
  l <> plus -> l <> hash -> reaches f [l] = matches f [l] && negb (missed f [l]).
Proof.
  intros Hp Hh. apply eq_true_iff_eq. rewrite reaches_last, andb_true_iff, negb_true_iff.
  unfold missed. split.
  - intros [->|[->|[->| ->]]].
    + done.
    + cbn [matches]. rewrite str_eqb_refl, orb_true_r. by destruct (_ && _).
    + cbn [matches]. rewrite str_eqb_refl, orb_true_r, andb_false_r. split; [done|].
      apply bool_decide_eq_false_2. by intros [= ->].
    + done.
  - intros [Hm Hn]. destruct f as [|k f]; [done|]. cbn [matches] in Hm.
    destruct (str_eqb k hash && bool_decide (f = [])) eqn:E.
    + apply andb_true_iff in E as [Ek Ef]. apply bool_decide_eq_true in Ek, Ef. subst. auto.
    + apply andb_true_iff in Hm as [Hk Hm]. apply matches_nil in Hm.
      apply orb_true_iff in Hk as [Hk|Hk]; apply bool_decide_eq_true in Hk as ->.
      * destruct Hm as [-> | ->]; [auto|]. cbn in Hn. by rewrite bool_decide_eq_true_2 in Hn.
      * destruct Hm as [-> | ->]; auto.
Qed.

Lemma reaches_matches f t :
  plain t -> t <> [] -> reaches f t = matches f t && negb (missed f t).
Proof.
  intros Hp. revert f. induction Hp as [|l t [Hlp Hlh] Ht IH]; intros f Hne; [done|].
  destruct (decide (t = [])) as [->|Hmore]; [by apply reaches_matches_last|].
  rewrite reaches_more by done. destruct f as [|k f]; [done|].
  rewrite missed_cons by done. cbn [matches]. rewrite (IH f) by done.
  destruct (bool_decide_reflect (k :: f = [hash])) as [[= -> ->]|Hk].
  - cbn. unfold missed. by destruct t.
  - cbn [orb]. destruct (str_eqb_spec k hash) as [->|Hkh]; cbn [andb].
    + rewrite (bool_decide_eq_false_2 (f = [])) by (intros ->; done).
      destruct (str_eqb_spec hash l); [congruence|]. done.
    + by rewrite orb_comm, andb_assoc.
Qed.

(** ** The walk is a fold over the visited particles *)

Section Walk.
Context {RO : RangeOrder}.

Lemma gatherSubscriptions_new topic subs : gatherSubscriptions topic newParticle subs = subs.
Proof.
  unfold gatherSubscriptions. change (Subscriptions_GetAll _) with (∅ : gmap gostr Subscription).
  by rewrite range_empty.
Qed.

Lemma gatherShared_new subs : gatherSharedSubscriptions newParticle subs = subs.
Proof.
  unfold gatherSharedSubscriptions.
  change (SharedSubscriptions_GetAll _) with (∅ : gmap gostr (gmap gostr Subscription)).
  by rewrite range_empty.
Qed.

Lemma gatherInline_new subs : gatherInlineSubscriptions newParticle subs = subs.
Proof.
  destruct subs as [a b c d].
  change (mkSubscribers a b c ((∅ : InlineSubscriptions) ∪ d) = mkSubscribers a b c d).
  by rewrite (left_id_L ∅ (∪)).
Qed.

Lemma gather_new x topic n m subs :
  particle_at x n = newParticle -> particle_at x m = newParticle -> gather x topic n m subs = subs.
Proof.
  intros Hn Hm. unfold gather. rewrite Hn, Hm.
  by rewrite gatherSubscriptions_new, gatherShared_new, gatherInline_new.
Qed.

(** Gathering the inline subscriptions of a particle twice changes nothing. *)
Lemma gather_missing_wild x topic n w subs :
  particle_at x w = newParticle -> gather x topic w n (gather x topic n n subs) = gather x topic n n subs.
Proof.
  intros Hw. unfold gather at 1. rewrite Hw, gatherSubscriptions_new, gatherShared_new.
  unfold gather, gatherInlineSubscriptions. cbn. f_equal.
  by rewrite (assoc_L (∪)), (idemp_L (∪)).
Qed.

Definition gather_all (x : TopicsIndex) (topic : gostr) (vs : list (path * path)) (subs : Subscribers) : Subscribers :=
  fold_left (fun subs v => gather x topic v.1 v.2 subs) vs subs.

Lemma gather_all_app x topic v1 v2 subs :
  gather_all x topic (v1 ++ v2) subs = gather_all x topic v2 (gather_all x topic v1 subs).
Proof. apply fold_left_app. Qed.

Lemma visits_below n ts : Forall (fun v => n `prefix_of` v.1 /\ n `prefix_of` v.2) (visits n ts).
Proof.
  revert n. induction ts as [|t ts IH]; intros n; [constructor|].
  assert (forall k l, n ++ k `prefix_of` l -> n `prefix_of` l) as Hpre.
  { intros k l H. etrans; [|exact H]. by apply prefix_app_r. }
  destruct (decide (ts = [])) as [->|Hne].
  - cbn [visits app]. repeat constructor; by apply prefix_app_r.
  - rewrite visits_more by done. rewrite !Forall_app. split_and!.
    + eapply Forall_impl; [apply IH|]. intros v [? ?]. eauto.
    + eapply Forall_impl; [apply IH|]. intros v [? ?]. eauto.
    + repeat constructor; by apply prefix_app_r.
Qed.

Lemma gather_all_missing x topic n ts subs :
  index_ok x -> ti_particles x !! n = None -> gather_all x topic (visits n ts) subs = subs.
Proof.
  intros Hok Hn. pose proof (visits_below n ts) as Hv. unfold gather_all.
  induction Hv as [|v vs [[q1 H1] [q2 H2]] _ IH]; [done|]. cbn [fold_left].
  rewrite gather_new; [done|rewrite H1|rewrite H2]; by apply particle_at_None, particles_below.
Qed.

Lemma scan_key_missing rec x topic n hasNext k subs :
  ti_particles x !! (n ++ [k]) = None -> scan_key rec x topic n hasNext k subs = subs.
Proof. intros H. unfold scan_key, particles_get. by rewrite H. Qed.

Lemma scan_key_last rec x topic n k subs :
  index_ok x -> k <> plus ->
  scan_key rec x topic n false k subs =
    gather_all x topic [(n ++ [k], n ++ [k]); (n ++ [k; hash], n ++ [k])] subs.
Proof.
  intros Hok Hk. assert (n ++ [k; hash] = (n ++ [k]) ++ [hash]) as Hkh by (by rewrite <- app_assoc).
  unfold scan_key, particles_get, gather_all. cbn [fold_left fst snd]. rewrite Hkh.
  destruct (ti_particles x !! (n ++ [k])) eqn:E.
  - destruct (ti_particles x !! ((n ++ [k]) ++ [hash])) eqn:Ew.
    + destruct (str_eqb_spec k plus); [done|]. done.
    + by rewrite gather_missing_wild by (by apply particle_at_None).
  - pose proof (particles_below _ _ [hash] Hok E) as Ew.
    by rewrite !gather_new by (by apply particle_at_None).
Qed.

Lemma scan_key_plus rec x topic n subs :
  scan_key rec x topic n false plus subs = gather_all x topic [(n ++ [plus], n ++ [plus])] subs.
Proof.
  unfold scan_key, particles_get, gather_all. cbn [fold_left fst snd].
  destruct (ti_particles x !! (n ++ [plus])) eqn:E.
  - destruct (ti_particles x !! ((n ++ [plus]) ++ [hash])); [|done]. by rewrite str_eqb_refl.
  - by rewrite gather_new by (by apply particle_at_None).
Qed.

Lemma scan_hash x topic n subs :
  match particles_get x n hash with Some p => gather x topic p p subs | None => subs end
  = gather_all x topic [(n ++ [hash], n ++ [hash])] subs.
Proof.
  unfold particles_get, gather_all. cbn [fold_left fst snd].
  destruct (ti_particles x !! (n ++ [hash])) eqn:E; [done|].
  by rewrite gather_new by (by apply particle_at_None).
Qed.

Lemma scanSubscribers_visits fuel x topic d n subs :
  index_ok x -> topic <> [] -> plain (levels topic) -> (d < length (levels topic))%nat ->
  (length (levels topic) - d <= fuel)%nat ->
  scanSubscribers fuel x topic d n subs = gather_all x topic (visits n (drop d (levels topic))) subs.
Proof.
  intros Hok Hne Hp. revert d n subs. induction fuel as [|fuel IH]; intros d n subs Hd Hf; [lia|].
  cbn [scanSubscribers]. rewrite (proj2 (Nat.eqb_neq _ _)) by (by destruct topic).
  rewrite isolateParticle_levels. destruct (levels topic !! d) as [t|] eqn:Et;
    [|apply lookup_ge_None in Et; lia].
  assert (t <> plus) as Htp by (by apply (proj1 (Forall_lookup _ _) Hp d t Et)).
  rewrite (drop_S _ _ _ Et), scan_hash. cbn [fold_left].
  destruct (S d <? length (levels topic))%nat eqn:Hn; bool_to_prop.
  - rewrite visits_more by (intros E; apply (f_equal length) in E; rewrite length_drop in E; cbn in E; lia).
    rewrite !gather_all_app. f_equal.
    assert (forall k s, scan_key (scanSubscribers fuel x topic (S d)) x topic n true k s =
      gather_all x topic (visits (n ++ [k]) (drop (S d) (levels topic))) s) as Hk.
    { intros k s. destruct (ti_particles x !! (n ++ [k])) eqn:E.
      - unfold scan_key, particles_get. rewrite E. apply IH; lia.
      - rewrite scan_key_missing by done. by rewrite gather_all_missing. }
    by rewrite !Hk.
  - rewrite (drop_ge _ (S d)) by lia. cbn [visits].
    rewrite scan_key_plus, scan_key_last by done. reflexivity.
Qed.

Lemma Subscribers_visits x topic :
  index_ok x -> topic <> [] -> plain (levels topic) ->
  TopicsIndex_Subscribers x topic =
    gather_all x topic (visits [] (levels topic)) (mkSubscribers ∅ ∅ ∅ ∅).
Proof.
  intros Hok Hne Hp. unfold TopicsIndex_Subscribers. pose proof (levels_nonempty topic).
  pose proof (length_levels topic).
  rewrite scanSubscribers_visits; [by rewrite drop_0|done..| |lia].
  destruct (levels topic); [done|cbn; lia].
Qed.
End Walk.

(** ** What a client gets *)

Section Gathered.
Context {RO : RangeOrder}.


(** A fold over the entries of a map that changes one key of an accumulated map
    at each entry, seen at one key. *)
Lemma fold_entries {A B} (f : gmap gostr B -> gostr -> A -> gmap gostr B) (step : A -> option B -> option B) l m c :
  NoDup l.*1 ->
  (forall m k v, f m k v !! c = if decide (k = c) then step v (m !! c) else m !! c) ->
  fold_left (fun m kv => f m kv.1 kv.2) l m !! c =
    match (list_to_map l : gmap gostr A) !! c with Some v => step v (m !! c) | None => m !! c end.
Proof.
  intros Hnd Hf. revert m. induction l as [|[k v] l IH]; intros m; [done|].
  apply NoDup_cons in Hnd as [Hk Hnd]. cbn [fold_left fst snd list_to_map foldr].
  rewrite IH by done. rewrite Hf. destruct (decide (k = c)) as [->|Hne].
  - rewrite lookup_insert_eq. by rewrite not_elem_of_list_to_map_1.
  - by rewrite lookup_insert_ne.
Qed.

Lemma fold_range {A B} (f : gmap gostr B -> gostr -> A -> gmap gostr B) (step : A -> option B -> option B)
    (entries : gmap gostr A) m c :
  (forall m k v, f m k v !! c = if decide (k = c) then step v (m !! c) else m !! c) ->
  fold_left (fun m kv => f m kv.1 kv.2) (range entries) m !! c =
    match entries !! c with Some v => step v (m !! c) | None => m !! c end.
Proof.
  intros Hf. rewrite (fold_entries f step) by (done || apply range_NoDup).
  assert ((list_to_map (range entries) : gmap gostr A) = entries) as ->; [|done].
  rewrite <- (list_to_map_to_list entries) at 2. apply list_to_map_proper; [apply range_NoDup|].
  apply range_perm.
Qed.

(** One more matching subscription of a client. *)
Definition merge_step (s : Subscription) (o : option Subscription) : option Subscription :=
  Some (Subscription_Merge (default s o) s).

Definition gather_step (topic : gostr) (s : Subscription) (o : option Subscription) : option Subscription :=
  if excluded topic s then o else merge_step s o.

Lemma merge_client_lookup m k s c :
  merge_client m k s !! c = if decide (k = c) then merge_step s (m !! c) else m !! c.
Proof.
  unfold merge_client, merge_step. destruct (decide (k = c)) as [->|]; [apply lookup_insert_eq|by apply lookup_insert_ne].
Qed.

Lemma gatherSubscriptions_spec topic p subs :
  gatherSubscriptions topic p subs = subs <| ss_Subscriptions :=
    fold_left (fun m kv => if excluded topic kv.2 then m else merge_client m kv.1 kv.2)
      (range (p_subscriptions p)) (ss_Subscriptions subs) |>.
Proof.
  unfold gatherSubscriptions, Subscriptions_GetAll. generalize (range (p_subscriptions p)). intros l.
  revert subs. induction l as [|[k s] l IH]; intros subs; [by destruct subs|]. cbn [fold_left fst snd].
  destruct (excluded topic s); rewrite IH; [done|]. by destruct subs.
Qed.

Lemma gatherSubscriptions_lookup topic p subs c :
  ss_Subscriptions (gatherSubscriptions topic p subs) !! c =
    match p_subscriptions p !! c with
    | Some s => gather_step topic s (ss_Subscriptions subs !! c)
    | None => ss_Subscriptions subs !! c
    end.
Proof.
  rewrite gatherSubscriptions_spec. cbn [ss_Subscriptions].
  apply (fold_range (fun m k s => if excluded topic s then m else merge_client m k s) (gather_step topic)).
  intros m k v. unfold gather_step. destruct (excluded topic v); [by destruct (decide _)|].
  apply merge_client_lookup.
Qed.

Lemma gatherShared_Subscriptions p subs :
  ss_Subscriptions (gatherSharedSubscriptions p subs) = ss_Subscriptions subs.
Proof.
  unfold gatherSharedSubscriptions. generalize (range (SharedSubscriptions_GetAll (p_shared p))). intros l.
  revert subs. induction l as [|[g m] l IH]; intros subs; [done|]. cbn [fold_left snd]. rewrite IH.
  generalize (range m). clear IH. intros l'. revert subs. induction l' as [|kv l' IH]; intros subs; [done|].
  cbn [fold_left]. by rewrite IH.
Qed.

Lemma gather_Subscriptions x topic n i subs c :
  ss_Subscriptions (gather x topic n i subs) !! c =
    match p_subscriptions (particle_at x n) !! c with
    | Some s => gather_step topic s (ss_Subscriptions subs !! c)
    | None => ss_Subscriptions subs !! c
    end.
Proof.
  unfold gather. change (ss_Subscriptions (gatherInlineSubscriptions ?p ?s)) with (ss_Subscriptions s).
  by rewrite gatherShared_Subscriptions, gatherSubscriptions_lookup.
Qed.

(** The subscription of [c] at a particle, if the topic may reach it. *)
Definition eligible (x : TopicsIndex) (topic c : gostr) (n : path) : option Subscription :=
  match p_subscriptions (particle_at x n) !! c with
  | Some s => if excluded topic s then None else Some s
  | None => None
  end.

(** The subscriptions of [c] that the walk merges, in its order. *)
Definition matching_subs (x : TopicsIndex) (topic c : gostr) : list Subscription :=
  omap (fun v => eligible x topic c v.1) (visits [] (levels topic)).

Definition merge_all (l : list Subscription) : option Subscription :=
  fold_left (fun o s => merge_step s o) l None.

Lemma gather_all_client x topic vs subs c :
  ss_Subscriptions (gather_all x topic vs subs) !! c =
    fold_left (fun o s => merge_step s o) (omap (fun v => eligible x topic c v.1) vs)
      (ss_Subscriptions subs !! c).
Proof.
  revert subs. induction vs as [|v vs IH]; intros subs; [done|].
  change (gather_all x topic (v :: vs) subs) with (gather_all x topic vs (gather x topic v.1 v.2 subs)).
  rewrite IH, gather_Subscriptions. cbn [omap list_omap]. unfold eligible at 2, gather_step.
  destruct (p_subscriptions (particle_at x v.1) !! c) as [s|]; [|done]. by destruct (excluded topic s).
Qed.

Lemma Subscribers_client x topic c :
  index_ok x -> topic <> [] -> plain (levels topic) ->
  ss_Subscriptions (TopicsIndex_Subscribers x topic) !! c = merge_all (matching_subs x topic c).
Proof. intros Hok Hne Hp. by rewrite Subscribers_visits, gather_all_client. Qed.

Lemma merge_fold_Some l s0 : exists s, fold_left (fun o s => merge_step s o) l (Some s0) = Some s.
Proof. revert s0. induction l as [|s l IH]; intros s0; [by eexists|]. apply IH. Qed.

Lemma merge_all_Some l : is_Some (merge_all l) <-> l <> [].
Proof.
  destruct l as [|s l]; [split; [by intros [? ?]|done]|]. split; [done|]. intros _.
  apply merge_fold_Some.
Qed.

(** The merged subscription: the highest qos, and no-local if any has it. *)
Lemma merge_fold_spec l s0 s :
  fold_left (fun o s => merge_step s o) l (Some s0) = Some s ->
  (sub_Qos s = sub_Qos s0 \/ exists s', s' ∈ l /\ sub_Qos s = sub_Qos s') /\
  sub_Qos s0 <= sub_Qos s /\ (forall s', s' ∈ l -> sub_Qos s' <= sub_Qos s) /\
  (sub_NoLocal s = true <-> sub_NoLocal s0 = true \/ exists s', s' ∈ l /\ sub_NoLocal s' = true).
Proof.
  revert s0. induction l as [|s1 l IH]; intros s0 H.
  - cbn in H. injection H as <-. split_and!; [by left|lia|by intros ? ?%elem_of_nil|].
    split; [by left|]. intros [?|(? & ?%elem_of_nil & _)]; done.
  - destruct (IH (Subscription_Merge s0 s1) H) as (H1 & H2 & H3 & H4). clear IH H.
    assert (sub_Qos (Subscription_Merge s0 s1) = Z.max (sub_Qos s0) (sub_Qos s1)) as Hq.
    { cbn. destruct (sub_Qos s0 <? sub_Qos s1) eqn:E; bool_to_prop; lia. }
    assert (sub_NoLocal (Subscription_Merge s0 s1) = sub_NoLocal s1 || sub_NoLocal s0) as Hl
      by (cbn; by destruct (sub_NoLocal s1)).
    rewrite Hq in H1, H2. rewrite Hl, orb_true_iff in H4. split_and!.
    + destruct H1 as [->|(s' & ? & ->)]; [|right; exists s'; set_solver].
      destruct (Z.max_spec (sub_Qos s0) (sub_Qos s1)) as [[_ ->]|[_ ->]]; [right; exists s1; set_solver|by left].
    + lia.
    + intros s' [->|?]%elem_of_cons; [lia|auto].
    + rewrite H4. setoid_rewrite elem_of_cons. naive_solver.
Qed.

Lemma merge_all_spec l s :
  merge_all l = Some s ->
  (exists s', s' ∈ l /\ sub_Qos s = sub_Qos s') /\ (forall s', s' ∈ l -> sub_Qos s' <= sub_Qos s) /\
  (sub_NoLocal s = true <-> exists s', s' ∈ l /\ sub_NoLocal s' = true).
Proof.
  destruct l as [|s1 l]; [done|]. intros H.
  change (fold_left (fun o s => merge_step s o) l (Some (Subscription_Merge s1 s1)) = Some s) in H.
  apply merge_fold_spec in H as (H1 & H2 & H3 & H4).
  assert (sub_Qos (Subscription_Merge s1 s1) = sub_Qos s1) as Hq by (cbn; by destruct (_ <? _)).
  assert (sub_NoLocal (Subscription_Merge s1 s1) = sub_NoLocal s1) as Hl
    by (cbn; by destruct (sub_NoLocal s1)).
  rewrite Hq in H1, H2. rewrite Hl in H4. setoid_rewrite elem_of_cons. naive_solver.
Qed.
End Gathered.

(** [s] is a subscription of [c] that the walk finds for [topic]. *)
Definition delivers (x : TopicsIndex) (topic c : gostr) (s : Subscription) : Prop :=
  IsSharedFilter (sub_Filter s) = false /\ subscription_of x (sub_Filter s) c = Some s /\
  matches (levels (sub_Filter s)) (levels topic) = true /\
  missed (levels (sub_Filter s)) (levels topic) = false /\
  excluded topic s = false.

(** Filters that start with a wildcard do not match topics that start with [$]. *)
Definition dollar_barred (filter topic : gostr) : Prop :=
  hd_error topic = Some 36 /\ (hd_error filter = Some 43 \/ hd_error filter = Some 35).

(** A filter matches a topic, as MQTT 4.7 says. *)
Definition mqtt_matches (filter topic : gostr) : Prop :=
  matches (levels filter) (levels topic) = true /\ ~ dollar_barred filter topic.

(** [s] is a (non-shared) subscription of [c] that matches the topic. *)
Definition entitled (x : TopicsIndex) (topic c : gostr) (s : Subscription) : Prop :=
  IsSharedFilter (sub_Filter s) = false /\ subscription_of x (sub_Filter s) c = Some s /\
  mqtt_matches (sub_Filter s) topic.

Section Claims.
Context {RO : RangeOrder}.

Lemma address_plain f : IsSharedFilter f = false -> address f = levels f.
Proof. intros H. unfold address, share_depth. rewrite H. apply keys_from_0. Qed.

Lemma elem_of_matching_subs x topic c s :
  index_inv x -> plain (levels topic) -> s ∈ matching_subs x topic c <-> delivers x topic c s.
Proof.
  intros Hinv Hp. unfold matching_subs, delivers. rewrite list_elem_of_omap. unfold eligible. split.
  - intros ([n i] & Hv & He). cbn [fst] in He.
    destruct (p_subscriptions (particle_at x n) !! c) as [s'|] eqn:Hs; [|done].
    destruct (excluded topic s') eqn:Hex; [done|]. injection He as ->.
    destruct (inv_subs _ Hinv _ _ _ Hs) as [Hsh Ha]. rewrite address_plain in Ha by done. subst n.
    destruct (proj1 (visits_reaches [] (levels topic) (levels (sub_Filter s)))) as (f & -> & Hf);
      [by eexists|]. cbn [app] in *.
    rewrite reaches_matches in Hf by (done || apply levels_nonempty).
    apply andb_true_iff in Hf as [Hm Hmi]. apply negb_true_iff in Hmi. split_and!; try done.
    unfold subscription_of. rewrite Hsh, address_plain by done. exact Hs.
  - intros (Hsh & Hs & Hm & Hmi & Hex).
    assert (reaches (levels (sub_Filter s)) (levels topic) = true) as Hf.
    { rewrite reaches_matches by (done || apply levels_nonempty). by rewrite Hm, Hmi. }
    destruct (proj2 (visits_reaches [] (levels topic) (levels (sub_Filter s)))) as [q Hq]; [by eexists|].
    exists (levels (sub_Filter s), q). split; [done|]. cbn [fst].
    unfold subscription_of in Hs. rewrite Hsh, address_plain in Hs by done.
    unfold Subscriptions_Get in Hs. by rewrite Hs, Hex.
Qed.

(** The code's test of a first wildcard is the rule for topics that start with [$]. *)
Lemma excluded_dollar topic s : excluded topic s = true <-> dollar_barred (sub_Filter s) topic.
Proof.
  unfold excluded, dollar_barred. destruct (sub_Filter s) as [|f fs], topic as [|t ts]; cbn [hd_error].
  1-3: split; [done|]; intros ([=] & [[=]|[=]]).
  rewrite andb_true_iff, orb_true_iff, !Z.eqb_eq. split; [intros [-> [-> | ->]]; auto|intros ([= ->] & [[= ->]|[= ->]]); auto].
Qed.

Lemma delivers_entitled x topic c s :
  delivers x topic c s <-> entitled x topic c s /\ missed (levels (sub_Filter s)) (levels topic) = false.
Proof.
  unfold delivers, entitled, mqtt_matches. rewrite <- excluded_dollar, not_true_iff_false. tauto.
Qed.

(** C9: which clients [Subscribers] finds. In every reachable index and for
    every topic name without wildcards, the entitled subscriptions of a client
    are its (non-shared) ones whose filter matches the topic by MQTT 4.7. When
    the client is not in the result, it has none of them, except ones whose
    filter ends in ["+/#"] just below the topic, which the code misses; when it
    is, it has one that is not of that form, the entry has the highest qos among
    those, and it is no-local exactly when one of those is. *)
Theorem Subscribers_exact x topic c :
  index_inv x -> topic <> [] -> plain (levels topic) ->
  let skipped s := missed (levels (sub_Filter s)) (levels topic) in
  match ss_Subscriptions (TopicsIndex_Subscribers x topic) !! c with
  | None => forall s, entitled x topic c s -> skipped s = true
  | Some m =>
      (exists s, entitled x topic c s /\ skipped s = false /\ sub_Qos m = sub_Qos s) /\
      (forall s, entitled x topic c s -> skipped s = false -> sub_Qos s <= sub_Qos m) /\
      (sub_NoLocal m = true <-> exists s, entitled x topic c s /\ skipped s = false /\ sub_NoLocal s = true)
  end.
Proof.
  intros Hinv Hne Hp. cbv zeta. rewrite Subscribers_client by (done || apply Hinv).
  assert (forall s, s ∈ matching_subs x topic c <->
    entitled x topic c s /\ missed (levels (sub_Filter s)) (levels topic) = false) as Hd
    by (intros s; rewrite elem_of_matching_subs by done; apply delivers_entitled).
  destruct (merge_all (matching_subs x topic c)) as [m|] eqn:E.
  { apply merge_all_spec in E. setoid_rewrite Hd in E. naive_solver. }
  intros s Hs. apply not_false_iff_true. intros Hm.
  assert (~ is_Some (merge_all (matching_subs x topic c))) as Hn by (rewrite E; by intros [? ?]).
  apply Hn, merge_all_Some. intros E'. assert (s ∈ matching_subs x topic c) as H by (by apply Hd).
  rewrite E' in H. by apply elem_of_nil in H.
Qed.
End Claims.

Definition index_sample : TopicsIndex :=
  (TopicsIndex_Subscribe
    (TopicsIndex_Subscribe NewTopicsIndex !"c1" (Subscription0 <| sub_Filter := !"a/#" |> <| sub_Qos := 2 |>)).2
    !"c1" sub_sample).2.

Lemma index_sample_inv : index_inv index_sample.
Proof.
  apply reachable_inv. eapply rtc_l; [apply step_subscribe|].
  eapply rtc_l; [apply step_subscribe|]. apply rtc_refl.
Qed.

Lemma plain_dec_spec t : forallb (fun l => negb (str_eqb l plus) && negb (str_eqb l hash)) t = true -> plain t.
Proof.
  unfold plain. rewrite forallb_forall, Forall_forall. intros H l Hl. apply list_elem_of_In in Hl.
  apply H in Hl. bool_to_prop. split; by intros ->.
Qed.

Lemma Subscribers_exact_witness :
  sub_Qos <$> ss_Subscriptions (TopicsIndex_Subscribers index_sample !"a/x/b") !! !"c1" = Some 2 /\
  let skipped s := missed (levels (sub_Filter s)) (levels !"a/x/b") in
  match ss_Subscriptions (TopicsIndex_Subscribers index_sample !"a/x/b") !! !"c1" with
  | None => forall s, entitled index_sample !"a/x/b" !"c1" s -> skipped s = true
  | Some m =>
      (exists s, entitled index_sample !"a/x/b" !"c1" s /\ skipped s = false /\ sub_Qos m = sub_Qos s) /\
      (forall s, entitled index_sample !"a/x/b" !"c1" s -> skipped s = false -> sub_Qos s <= sub_Qos m) /\
      (sub_NoLocal m = true <->
        exists s, entitled index_sample !"a/x/b" !"c1" s /\ skipped s = false /\ sub_NoLocal s = true)
  end.
Proof.
  split; [vm_compute; reflexivity|].
  apply (Subscribers_exact index_sample !"a/x/b" !"c1" index_sample_inv); [done|].
  apply plain_dec_spec. vm_compute. reflexivity.
Defined.

(** ["+/#"] does not match the parent level, and an inline subscription at
    ["a/#"] is not found for the topic ["a"] (its particle's parent is gathered
    in its place). *)
Lemma plus_hash_missed :
  ss_Subscriptions (TopicsIndex_Subscribers
    (TopicsIndex_Subscribe NewTopicsIndex !"c1" (Subscription0 <| sub_Filter := !"+/#" |>)).2 !"a") = ∅ /\
  matches (levels !"+/#") (levels !"a") = true.
Proof. split; vm_compute; reflexivity. Qed.

Lemma inline_parent_missed :
  ss_InlineSubscriptions (TopicsIndex_Subscribers
    (TopicsIndex_InlineSubscribe NewTopicsIndex
      (mkInlineSubscription (Subscription0 <| sub_Filter := !"a/#" |> <| sub_Identifier := 1 |>) 0)).2 !"a") = ∅ /\
  matches (levels !"a/#") (levels !"a") = true.
Proof. split; vm_compute; reflexivity. Qed.
