(* ===== verification/TopicsShared.v ===== *)
(** * Shared subscriptions

    Which shared subscriptions a topic reaches, and the selection of one client
    per share group. *)
From S2P Require Import Prelude Codes Codec FixedHeader Properties Packets Topics TopicsFacts TopicsInvariant TopicsMatch.

Section Shared.
Context {RO : RangeOrder}.

(** ** The shared subscriptions gathered *)

(** The clients and subscriptions of a particle's share groups, in the order
    of the loops. *)
Definition shared_entries (p : particle) : list (gostr * Subscription) :=
  concat (map (fun g => range g.2) (range (p_shared p))).

Lemma elem_of_shared_entries p c s :
  (c, s) ∈ shared_entries p <-> exists g, SharedSubscriptions_Get (p_shared p) g c = Some s.
Proof.
  unfold shared_entries, SharedSubscriptions_Get. rewrite list_elem_of_In, in_concat. split.
  - intros (l & Hl & Hc). apply in_map_iff in Hl as ([g m] & <- & Hg).
    apply list_elem_of_In, elem_of_range in Hg, Hc. exists g. by rewrite Hg.
  - intros [g Hg]. destruct (p_shared p !! g) as [m|] eqn:E; [|done]. exists (range m). split.
    + apply in_map_iff. exists (g, m). split; [done|]. by apply list_elem_of_In, elem_of_range.
    + by apply list_elem_of_In, elem_of_range.
Qed.

Definition add_entry (m : gmap gostr Subscriptions) (e : gostr * Subscription) : gmap gostr Subscriptions :=
  share_add m (sub_Filter e.2) e.1 e.2.

Lemma gatherShared_entries p subs :
  ss_Shared (gatherSharedSubscriptions p subs) = fold_left add_entry (shared_entries p) (ss_Shared subs).
Proof.
  unfold gatherSharedSubscriptions, shared_entries, SharedSubscriptions_GetAll.
  generalize (range (p_shared p)). intros l. revert subs.
  induction l as [|[g m] l IH]; intros subs; [done|]. cbn [fold_left snd map concat].
  rewrite IH, fold_left_app. f_equal. generalize (range m). clear IH. intros l'. revert subs.
  induction l' as [|e l' IH]; intros subs; [done|]. cbn [fold_left]. by rewrite IH.
Qed.

Lemma gatherSubscriptions_Shared topic p subs :
  ss_Shared (gatherSubscriptions topic p subs) = ss_Shared subs.
Proof. by rewrite gatherSubscriptions_spec. Qed.

Lemma gather_all_Shared x topic vs subs :
  ss_Shared (gather_all x topic vs subs) =
    fold_left add_entry (concat (map (fun v => shared_entries (particle_at x v.1)) vs)) (ss_Shared subs).
Proof.
  revert subs. induction vs as [|v vs IH]; intros subs; [done|].
  change (gather_all x topic (v :: vs) subs) with (gather_all x topic vs (gather x topic v.1 v.2 subs)).
  rewrite IH. cbn [map concat]. rewrite fold_left_app. f_equal. unfold gather.
  change (ss_Shared (gatherInlineSubscriptions ?p ?s)) with (ss_Shared s).
  by rewrite gatherShared_entries, gatherSubscriptions_Shared.
Qed.

(** The entry of a client under a filter. *)
Definition shared_at (m : gmap gostr Subscriptions) (f c : gostr) : option Subscription :=
  SharedSubscriptions_Get m f c.

Lemma add_entry_at m e f c :
  shared_at (add_entry m e) f c = if decide (sub_Filter e.2 = f /\ e.1 = c) then Some e.2 else shared_at m f c.
Proof. apply (SharedSubscriptions_Get_Add m (sub_Filter e.2) e.1 e.2 f c). Qed.

(** When all entries of a client under a filter agree, the fold has exactly them. *)
Lemma fold_entries_at l f c s :
  (forall s1 s2, (c, s1) ∈ l -> (c, s2) ∈ l -> sub_Filter s1 = f -> sub_Filter s2 = f -> s1 = s2) ->
  shared_at (fold_left add_entry l ∅) f c = Some s <-> (c, s) ∈ l /\ sub_Filter s = f.
Proof.
  induction l as [|[c' s'] l IH] using rev_ind; intros Hu.
  - split; [done|]. by intros [?%elem_of_nil _].
  - rewrite fold_left_app. cbn [fold_left]. rewrite add_entry_at. cbn [fst snd].
    setoid_rewrite elem_of_app in Hu. setoid_rewrite list_elem_of_singleton in Hu.
    rewrite elem_of_app, list_elem_of_singleton. destruct (decide _) as [[Hf ->]|Hn].
    + split; [intros [= <-]; auto|]. intros [H Hs]. f_equal. apply (Hu s' s); auto.
    + rewrite IH by (intros s1 s2 ? ?; apply Hu; auto). naive_solver.
Qed.

(** [s] is a shared subscription of [c], and the part of its filter after the
    group matches the topic level by level. *)
Definition shared_member (x : TopicsIndex) (topic c : gostr) (s : Subscription) : Prop :=
  IsSharedFilter (sub_Filter s) = true /\ subscription_of x (sub_Filter s) c = Some s /\
  matches (address (sub_Filter s)) (levels topic) = true.

Lemma elem_of_visited_shared x topic c s :
  index_inv x -> plain (levels topic) ->
  (c, s) ∈ concat (map (fun v => shared_entries (particle_at x v.1)) (visits [] (levels topic)))
  <-> shared_member x topic c s /\ missed (address (sub_Filter s)) (levels topic) = false.
Proof.
  intros Hinv Hp. rewrite list_elem_of_In, in_concat. unfold shared_member. split.
  - intros (l & Hl & Hc). apply in_map_iff in Hl as ([n i] & <- & Hv). cbn [fst] in Hc.
    apply list_elem_of_In, elem_of_shared_entries in Hc as [g Hg].
    destruct (inv_shared _ Hinv _ _ _ _ Hg) as (Hs & Ha & Hgr). subst.
    apply list_elem_of_In in Hv.
    destruct (proj1 (visits_reaches [] (levels topic) (address (sub_Filter s)))) as (f & E & Hf);
      [by eexists|]. cbn [app] in E. subst f.
    rewrite reaches_matches in Hf by (done || apply levels_nonempty).
    apply andb_true_iff in Hf as [Hm Hmi]. apply negb_true_iff in Hmi. split_and!; try done.
    unfold subscription_of. by rewrite Hs.
  - intros ((Hs & Hsub & Hm) & Hmi). unfold subscription_of in Hsub. rewrite Hs in Hsub.
    assert (reaches (address (sub_Filter s)) (levels topic) = true) as Hf.
    { rewrite reaches_matches by (done || apply levels_nonempty). by rewrite Hm, Hmi. }
    destruct (proj2 (visits_reaches [] (levels topic) (address (sub_Filter s)))) as [q Hq]; [by eexists|].
    exists (shared_entries (particle_at x (address (sub_Filter s)))). split.
    + apply in_map_iff. exists (address (sub_Filter s), q). split; [done|]. by apply list_elem_of_In.
    + apply list_elem_of_In, elem_of_shared_entries. eauto.
Qed.

(** C35: the share groups of a topic. In every reachable index and for every
    topic name without wildcards, [Subscribers] lists a client under a shared
    filter exactly when the client is subscribed to that shared filter and the
    part of it after the group matches the topic level by level, with two
    departures from MQTT 4.7 that are the code's: a filter that ends in ["+/#"]
    just below the topic is missed, and a topic that starts with [$] is not
    kept from filters that start with a wildcard. *)
Theorem Shared_exact x topic f c s :
  index_inv x -> topic <> [] -> plain (levels topic) ->
  SharedSubscriptions_Get (ss_Shared (TopicsIndex_Subscribers x topic)) f c = Some s <->
  sub_Filter s = f /\ shared_member x topic c s /\ missed (address f) (levels topic) = false.
Proof.
  intros Hinv Hne Hp. rewrite Subscribers_visits, gather_all_Shared by (done || apply Hinv).
  trans ((c, s) ∈ concat (map (fun v => shared_entries (particle_at x v.1)) (visits [] (levels topic))) /\ sub_Filter s = f).
  2: { rewrite elem_of_visited_shared by done. split; [intros [[? ?] <-]; done|intros (<- & ? & ?); done]. }
  apply fold_entries_at. intros s1 s2 H1%elem_of_visited_shared H2%elem_of_visited_shared <- Hf; try done.
  destruct H1 as [(_ & H1 & _) _], H2 as [(_ & H2 & _) _]. rewrite Hf in H2. congruence.
Qed.

(** ** Selection *)

Lemma select_fold_Some (l : list (gostr * gmap gostr Subscription)) (m : Subscribers) (c : gostr) :
  is_Some (ss_SharedSelected (fold_left (fun s group =>
    match range group.2 with
    | (client, sub) :: _ => s <| ss_SharedSelected ::= fun m => merge_client m client sub |>
    | [] => s
    end) l m) !! c) <->
  is_Some (ss_SharedSelected m !! c) \/ exists f (g : Subscriptions) s r, (f, g) ∈ l /\ range g = (c, s) :: r.
Proof.
  revert m. induction l as [|[f g] l IH]; intros m.
  - split; [by left|]. intros [?|(? & ? & ? & ? & ?%elem_of_nil & _)]; done.
  - cbn [fold_left snd]. rewrite IH. setoid_rewrite elem_of_cons. destruct (range g) as [|[c' s'] r] eqn:E.
    + split; [intros [?|(? & ? & ? & ? & ? & ?)]; [by left|right; eauto 10]|].
      intros [?|(f' & g' & s & r & [[= -> ->]|?] & Hr)]; [by left|congruence|right; eauto 10].
    + change (ss_SharedSelected (m <| ss_SharedSelected ::= ?g |>)) with (g (ss_SharedSelected m)).
      cbn beta. rewrite merge_client_lookup. destruct (decide (c' = c)) as [->|Hne].
      * split; [right; exists f, g, s', r; auto|left; by eexists].
      * split; [intros [?|(? & ? & ? & ? & ? & ?)]; [by left|right; eauto 10]|].
        intros [?|(f' & g' & s & r' & [[= -> ->]|?] & Hr)]; [by left|congruence|right; eauto 10].
Qed.

(** C34: [SelectShared] selects exactly one member of every share group,
    whatever order the maps are iterated in: there is a choice of one client
    per group such that the clients selected are the chosen ones. *)
Theorem SelectShared_one_per_group s :
  exists choice : gostr -> gostr,
    (forall f g, ss_Shared s !! f = Some g -> g <> ∅ -> is_Some (g !! choice f)) /\
    (forall c, is_Some (ss_SharedSelected (Subscribers_SelectShared s) !! c) <->
               exists f g, ss_Shared s !! f = Some g /\ g <> ∅ /\ choice f = c).
Proof.
  exists (fun f => match range (default ∅ (ss_Shared s !! f)) with (c, _) :: _ => c | [] => [] end).
  assert (forall g : Subscriptions, range g = [] -> g = ∅) as Hnil.
  { intros g Hg. apply map_empty. intros k. apply eq_None_not_Some. intros [v Hv%elem_of_range].
    rewrite Hg in Hv. by apply elem_of_nil in Hv. }
  split.
  - intros f g Hf Hg. rewrite Hf. cbn [default]. cbn. destruct (range g) as [|[c v] r] eqn:E; [by apply Hnil in E|].
    exists v. apply elem_of_range. rewrite E. left.
  - intros c. unfold Subscribers_SelectShared. rewrite select_fold_Some. split.
    + intros [[v Hv]|(f & g & v & r & Hf & Hr)]; [done|].
      apply elem_of_range in Hf. exists f, g. rewrite Hf. cbn. rewrite Hr. split_and!; try done.
      intros ->. by rewrite range_empty in Hr.
    + intros (f & g & Hf & Hg & Hc). right. rewrite Hf in Hc. cbn in Hc.
      destruct (range g) as [|[c' v] r] eqn:E; [by apply Hnil in E|]. subst c'.
      exists f, g, v, r. split; [by apply elem_of_range|done].
Qed.
End Shared.

Definition shared_index : TopicsIndex :=
  (TopicsIndex_Subscribe (TopicsIndex_Subscribe NewTopicsIndex !"c1" share_sample).2 !"c2" share_sample).2.

Lemma shared_index_inv : index_inv shared_index.
Proof.
  apply reachable_inv. eapply rtc_l; [apply step_subscribe|].
  eapply rtc_l; [apply step_subscribe|]. apply rtc_refl.
Qed.

Lemma Shared_exact_witness :
  SharedSubscriptions_Get (ss_Shared (TopicsIndex_Subscribers shared_index !"a/b")) !"$share/g/a/b" !"c2"
    = Some share_sample <->
  sub_Filter share_sample = !"$share/g/a/b" /\ shared_member shared_index !"a/b" !"c2" share_sample /\
  missed (address !"$share/g/a/b") (levels !"a/b") = false.
Proof.
  apply (Shared_exact shared_index !"a/b" !"$share/g/a/b" !"c2" share_sample shared_index_inv); [done|].
  apply plain_dec_spec. vm_compute. reflexivity.
Defined.

(** A shared filter that starts with a wildcard also receives the topics that
    start with [$]. *)
Lemma shared_wildcard_dollar :
  is_Some (SharedSubscriptions_Get (ss_Shared (TopicsIndex_Subscribers
    (TopicsIndex_Subscribe NewTopicsIndex !"c1" (Subscription0 <| sub_Filter := !"$share/g/#" |>)).2
    !"$SYS/broker")) !"$share/g/#" !"c1").
Proof. vm_compute. by eexists. Qed.
