(* ===== verification/TopicsRetained.v ===== *)
(** * Retained messages matching a filter

    [Messages] returns each retained message whose topic matches, once. *)
From S2P Require Import Prelude Codes Codec FixedHeader Properties Packets Topics TopicsFacts TopicsInvariant TopicsMatch.

(** ** Matching as the scan does it: the multi-level wildcard needs a level *)

Fixpoint rmatches (f t : list gostr) {struct t} : bool :=
  match t with
  | [] => bool_decide (f = [])
  | l :: t' =>
      match f with
      | [] => false
      | k :: f' =>
          if str_eqb k hash && bool_decide (f' = []) then true
          else (str_eqb k plus || str_eqb k l) && rmatches f' t'
      end
  end.

Lemma rmatches_matches f t :
  rmatches f t = matches f t && (length f <=? length t)%nat.
Proof.
  revert f. induction t as [|l t IH]; intros [|k f]; [done| |done|].
  - cbn [rmatches length]. by rewrite andb_false_r.
  - cbn [rmatches matches length]. rewrite IH.
    destruct (str_eqb k hash && bool_decide (f = [])) eqn:E.
    + apply andb_true_iff in E as [_ E]. apply bool_decide_eq_true in E as ->. done.
    + by rewrite andb_assoc.
Qed.

(** ** Functions that append to a list of packets *)

Definition yields (g : list Packet -> list Packet) (P : Packet -> Prop) : Prop :=
  forall pks, exists found, g pks = pks ++ found /\ (forall pk, pk ∈ found <-> P pk) /\
    NoDup (map pk_TopicName found).

Lemma yields_none : yields (fun pks => pks) (fun _ => False).
Proof. intros pks. exists []. rewrite app_nil_r. split_and!; [done| |constructor]. by intros pk; split; [intros ?%elem_of_nil|]. Qed.

Lemma yields_ext g P Q : yields g P -> (forall pk, P pk <-> Q pk) -> yields g Q.
Proof. intros Hg HPQ pks. destruct (Hg pks) as (found & ? & Hf & ?). exists found. split_and!; [done| |done].
  intros pk. by rewrite Hf, HPQ. Qed.

Lemma yields_fun g g' P : yields g P -> (forall pks, g' pks = g pks) -> yields g' P.
Proof. intros Hg E pks. rewrite E. apply Hg. Qed.

Lemma yields_option (o : option Packet) :
  yields (fun pks => match o with Some pk => pks ++ [pk] | None => pks end) (fun pk => o = Some pk).
Proof.
  destruct o as [pk|]; [|apply (yields_ext _ _ _ yields_none); done].
  intros pks. exists [pk]. split_and!; [done| |repeat constructor; by intros ?%elem_of_nil].
  intros pk'. rewrite list_elem_of_singleton. naive_solver.
Qed.

Lemma yields_seq g h P Q :
  yields g P -> yields h Q -> (forall p q, P p -> Q q -> pk_TopicName p <> pk_TopicName q) ->
  yields (fun pks => h (g pks)) (fun pk => P pk \/ Q pk).
Proof.
  intros Hg Hh Hd pks. destruct (Hg pks) as (f1 & -> & H1 & N1).
  destruct (Hh (pks ++ f1)) as (f2 & -> & H2 & N2). exists (f1 ++ f2). rewrite app_assoc.
  split_and!; [done| |].
  - intros pk. rewrite elem_of_app, H1, H2. done.
  - rewrite map_app. apply NoDup_app. split_and!; [done| |done].
    intros t Ht1 Ht2. apply list_elem_of_In, in_map_iff in Ht1 as (p & <- & Hp), Ht2 as (q & Hq & Hq').
    apply list_elem_of_In in Hp, Hq'. apply H1 in Hp. apply H2 in Hq'. by apply (Hd p q).
Qed.

Lemma yields_fold {A} (step : list Packet -> A -> list Packet) (P : A -> Packet -> Prop) l :
  (forall a, a ∈ l -> yields (fun pks => step pks a) (P a)) -> NoDup l ->
  (forall a b p q, a ∈ l -> b ∈ l -> a <> b -> P a p -> P b q -> pk_TopicName p <> pk_TopicName q) ->
  yields (fun pks => fold_left step l pks) (fun pk => exists a, a ∈ l /\ P a pk).
Proof.
  intros Hs Hnd Hd. induction l as [|a l IH].
  - apply (yields_ext _ _ _ yields_none). intros pk. split; [done|]. by intros (? & ?%elem_of_nil & _).
  - apply NoDup_cons in Hnd as [Ha Hnd]. cbn [fold_left].
    assert (yields (fun pks => fold_left step l pks) (fun pk => exists a, a ∈ l /\ P a pk)) as Hl.
    { apply IH; [|done|].
      - intros b Hb. apply Hs. by right.
      - intros b c p q Hb Hc. apply Hd; by right. }
    eapply yields_ext; [apply (yields_seq _ _ _ _ (Hs a ltac:(left)) Hl)|].
    + intros p q Hp (b & Hb & Hq). apply (Hd a b); [left|by right| |done..]. by intros ->.
    + intros pk. setoid_rewrite elem_of_cons. naive_solver.
Qed.

(** ** The scan *)

Section ScanMessages.
Context {RO : RangeOrder} (x : TopicsIndex) (Hinv : index_inv x) (filter : gostr).
Hypothesis Hwild : has_hash filter = true \/ has_plus filter = true.
Hypothesis Hhash : hash ∉ removelast (levels filter).

(** The levels of the filter still to match at depth [d]; past its end, the
    last level again. *)
Definition rest_at (d : nat) : list gostr :=
  if (d <? length (levels filter))%nat then drop d (levels filter) else [List.last (levels filter) []].

Lemma last_drop (l : list gostr) d k :
  l !! d = Some k -> length l = S d -> List.last l [] = k.
Proof.
  intros Hk Hl. destruct l as [|a l _] using rev_ind; [done|]. rewrite length_app in Hl. cbn in Hl.
  rewrite last_last. rewrite lookup_app_r, list_lookup_singleton_Some in Hk by lia. by destruct Hk.
Qed.

Lemma isolate_rest d :
  exists k r, rest_at d = k :: r /\ isolateParticle filter d = (k, negb (bool_decide (r = []))) /\
    rest_at (S d) = if bool_decide (r = []) then [k] else r.
Proof.
  rewrite isolateParticle_levels. unfold rest_at.
  destruct (d <? length (levels filter))%nat eqn:Hd; bool_to_prop.
  - destruct (levels filter !! d) as [k|] eqn:Hk; [|apply lookup_ge_None in Hk; lia].
    exists k, (drop (S d) (levels filter)). rewrite (drop_S _ _ _ Hk). split; [done|].
    destruct (S d <? length (levels filter))%nat eqn:Hn; bool_to_prop.
    + rewrite bool_decide_eq_false_2; [done|]. intros E. apply (f_equal length) in E.
      rewrite length_drop in E. cbn in E. lia.
    + rewrite bool_decide_eq_true_2 by (apply drop_ge; lia). split; [done|].
      by rewrite (last_drop _ _ _ Hk) by lia.
  - rewrite lookup_ge_None_2 by lia. exists (List.last (levels filter) []), [].
    rewrite bool_decide_eq_true_2 by done. split_and!; [done..|].
    by rewrite (proj2 (Nat.ltb_ge _ _)) by lia.
Qed.

Lemma removelast_lookup (l : list gostr) i k : l !! i = Some k -> (S i < length l)%nat -> k ∈ removelast l.
Proof.
  intros Hi Hl. destruct l as [|a l _] using rev_ind; [done|]. rewrite removelast_last.
  rewrite length_app in Hl. cbn in Hl. rewrite lookup_app_l in Hi by lia. by eapply list_elem_of_lookup_2.
Qed.

(** ["#"] can only be the last of the levels to match. *)
Lemma rest_hash d r : rest_at d = hash :: r -> r = [].
Proof.
  unfold rest_at. destruct (d <? _)%nat eqn:Hd; bool_to_prop; [|by intros [= _ ->]].
  intros E. destruct r as [|k r]; [done|]. exfalso. apply Hhash.
  apply (removelast_lookup _ d).
  - rewrite <- (Nat.add_0_r d), <- lookup_drop, E. done.
  - apply (f_equal length) in E. rewrite length_drop in E. cbn in E. lia.
Qed.

(** The retained message of a particle. *)
Definition retained_at (p : path) (pk : Packet) : Prop :=
  p_retainPath (particle_at x p) <> [] /\ ti_Retained x !! p_retainPath (particle_at x p) = Some pk.

Lemma retained_at_topic p pk : retained_at p pk -> levels (pk_TopicName pk) = p.
Proof.
  intros [Hne Hr]. destruct (inv_retained _ Hinv _ _ Hr) as (-> & _).
  destruct (inv_retainPath _ Hinv p); done.
Qed.

Lemma retained_at_iff p pk : retained_at p pk <-> ti_Retained x !! p_retainPath (particle_at x p) = Some pk.
Proof.
  split; [by intros [_ ?]|]. intros H. split; [|done]. intros E. rewrite E in H.
  by destruct (inv_retained _ Hinv _ _ H) as (_ & ? & _).
Qed.

Lemma retained_at_exists p pk : retained_at p pk -> is_Some (ti_particles x !! p).
Proof. intros [Hne _]. apply particle_at_exists. intros E. by rewrite E in Hne. Qed.

(** What the scan from [n] with the levels [f] to match looks for. A wildcard
    at the top does not reach the levels below [$SYS]. *)
Definition wildcard (k : gostr) : bool := str_eqb k plus || str_eqb k hash.

Definition hidden (d : nat) (k a : gostr) : bool := (d =? 0)%nat && wildcard k && str_eqb a SysPrefix.

Definition sought (d : nat) (f : list gostr) (n : path) (pk : Packet) : Prop :=
  exists q, rmatches f q = true /\ retained_at (n ++ q) pk /\
    match f, q with k :: _, a :: _ => hidden d k a = false | _, _ => True end.

Lemma sought_topic d f n pk : sought d f n pk -> exists q, levels (pk_TopicName pk) = n ++ q.
Proof. intros (q & _ & H%retained_at_topic & _). by exists q. Qed.

Lemma height_bound p : is_Some (ti_particles x !! p) -> (length p <= height x)%nat.
Proof.
  intros [v Hv]. unfold height. apply max_list_elem_of_le. apply list_elem_of_In, in_map_iff.
  exists (p, v). split; [done|]. by apply list_elem_of_In, elem_of_map_to_list.
Qed.

(** The message of one particle, taken or not. *)
Lemma yields_retained p :
  yields (fun pks => if negb (str_eqb (p_retainPath (particle_at x p)) [])
                     then match ti_Retained x !! p_retainPath (particle_at x p) with
                          | Some pk => pks ++ [pk] | None => pks end
                     else pks) (retained_at p).
Proof.
  destruct (str_eqb_spec (p_retainPath (particle_at x p)) []) as [E|Hne]; cbn [negb].
  - apply (yields_ext _ _ _ yields_none). intros pk. split; [done|]. by intros [? _].
  - apply (yields_ext _ _ _ (yields_option _)). intros pk. unfold retained_at. tauto.
Qed.

Lemma rmatches_hash_nil q : rmatches [hash] q = true <-> q <> [].
Proof. by destruct q. Qed.

Section Adjacent.
Context (d : nat) (n : path) (a : gostr) (rec : list Packet -> list Packet).

(** One round of the loop over the particles below [n], for a wildcard [k]
    followed by [r]. *)
Definition visit_adjacent (k : gostr) (r : list gostr) (pks : list Packet) : list Packet :=
  if (d =? 0)%nat && str_eqb a SysPrefix then pks
  else
    let hasNext := negb (bool_decide (r = [])) in
    let retainPath := p_retainPath (particle_at x (n ++ [a])) in
    let pks := if negb hasNext && negb (str_eqb retainPath []) then
                 match Packets_Get (ti_Retained x) retainPath with
                 | Some pk => pks ++ [pk]
                 | None => pks
                 end
               else pks in
    if hasNext || str_eqb k hash then rec pks else pks.

Definition below (k : gostr) (r : list gostr) (pk : Packet) : Prop :=
  exists q, rmatches (k :: r) (a :: q) = true /\ retained_at (n ++ a :: q) pk /\ hidden d k a = false.

Lemma visit_adjacent_yields k r :
  wildcard k = true -> (k = hash -> r = []) ->
  yields rec (sought (S d) (if bool_decide (r = []) then [k] else r) (n ++ [a])) ->
  yields (visit_adjacent k r) (below k r).
Proof.
  intros Hk Hr Hrec. unfold below, hidden. rewrite Hk.
  destruct ((d =? 0)%nat && str_eqb a SysPrefix) eqn:Hhid.
  { apply (yields_fun (fun pks => pks)); [|intros pks; unfold visit_adjacent; by rewrite Hhid].
    apply (yields_ext _ _ _ yields_none). intros pk. split; [done|]. intros (q & _ & _ & H).
    by rewrite andb_true_r, Hhid in H. }
  assert (forall q, n ++ a :: q = (n ++ [a]) ++ q) as Hassoc by (intros q; by rewrite <- app_assoc).
  assert (forall d' f pk, sought (S d') f (n ++ [a]) pk <->
    exists q, rmatches f q = true /\ retained_at (n ++ a :: q) pk) as Hsought.
  { intros d' f pk. unfold sought. split; intros (q & Hm & H); exists q.
    { rewrite Hassoc. by destruct H. }
    rewrite Hassoc in H.
    split_and!; [done..|]. by destruct f, q. }
  destruct (bool_decide_reflect (r = [])) as [->|Hne].
  - destruct (str_eqb_spec k hash) as [->|Hkh].
    + eapply yields_fun; [|intros pks; unfold visit_adjacent; rewrite Hhid; reflexivity]. cbn [negb andb orb].
      eapply yields_ext; [apply (yields_seq _ _ _ _ (yields_retained (n ++ [a])) Hrec)|].
      * intros p q Hp%retained_at_topic (q' & Hm & Hq & _). apply retained_at_topic in Hq.
        intros E. rewrite E, Hq in Hp. apply rmatches_hash_nil in Hm.
        apply (f_equal length) in Hp. rewrite length_app in Hp. destruct q'; [done|cbn in Hp; lia].
      * intros pk. cbn beta iota. rewrite Hsought. split.
        -- intros [H|(q & _ & H)]; [exists []|exists q]; by rewrite andb_true_r.
        -- intros (q & _ & H & _). destruct q as [|b q]; [by left|right]. by exists (b :: q).
    + assert (k = plus) as ->.
      { unfold wildcard in Hk. destruct (str_eqb_spec k plus); [done|]. by destruct (str_eqb_spec k hash). }
      eapply yields_fun; [|intros pks; unfold visit_adjacent; rewrite Hhid; reflexivity].
      eapply yields_ext; [apply (yields_retained (n ++ [a]))|]. intros pk. rewrite andb_true_r. split.
      * intros H. by exists [].
      * intros (q & Hm & H & _). destruct q; [done|]. done.
  - assert (k = plus) as ->.
    { unfold wildcard in Hk. destruct (str_eqb_spec k plus); [done|].
      destruct (str_eqb_spec k hash) as [->|]; [|done]. by destruct Hne, Hr. }
    eapply yields_fun; [|intros pks; unfold visit_adjacent; rewrite Hhid, bool_decide_eq_false_2 by done; reflexivity].
    eapply yields_ext; [apply Hrec|]. intros pk. rewrite Hsought, andb_true_r.
    split; [intros (q & ? & ?); by exists q|intros (q & ? & ? & _); by exists q].
Qed.
End Adjacent.

Lemma exists_above n a q : is_Some (ti_particles x !! (n ++ a :: q)) -> is_Some (ti_particles x !! (n ++ [a])).
Proof.
  intros Hs. destruct (ti_particles x !! (n ++ [a])) eqn:E; [by eexists|].
  apply (particles_below _ _ q (inv_ok _ Hinv)) in E. rewrite <- app_assoc in E. cbn in E.
  rewrite E in Hs. by destruct Hs.
Qed.

Lemma sought_wildcard d k r n pk :
  wildcard k = true ->
  (exists a, a ∈ range (particles_getAll x n) /\ below d n a.1 k r pk) <-> sought d (k :: r) n pk.
Proof.
  intros Hk. split.
  - intros ([a p] & _ & q & ? & ? & ?). by exists (a :: q).
  - intros ([|a q] & Hm & Hr & Hhid); [done|]. exists (a, n ++ [a]). split.
    + apply elem_of_range, particles_getAll_spec. split; [done|].
      apply (exists_above n a q). by eapply retained_at_exists.
    + by exists q.
Qed.

Lemma rmatches_literal k r q :
  wildcard k = false -> rmatches (k :: r) q = true <-> exists q', q = k :: q' /\ rmatches r q' = true.
Proof.
  intros Hk. unfold wildcard in Hk. apply orb_false_iff in Hk as [Hkp Hkh].
  destruct q as [|b q]; cbn [rmatches]; [split; [done|by intros (? & ? & _)]|]. rewrite Hkp, Hkh. cbn [andb orb].
  rewrite andb_true_iff. split.
  - intros [Hb%bool_decide_eq_true ?]. subst. by exists q.
  - intros (q' & [= -> ->] & ?). by rewrite str_eqb_refl.
Qed.

Lemma sought_literal d k r n pk :
  wildcard k = false ->
  sought d (k :: r) n pk <-> exists q, rmatches r q = true /\ retained_at ((n ++ [k]) ++ q) pk.
Proof.
  intros Hk. unfold sought, hidden. rewrite Hk, andb_false_r.
  setoid_rewrite (rmatches_literal k r _ Hk). split.
  - intros (q & (q' & -> & ?) & Hr & _). exists q'. rewrite <- app_assoc. done.
  - intros (q & ? & Hr). exists (k :: q). rewrite <- app_assoc in Hr. split_and!; [by exists q|done|done].
Qed.

Lemma scan_literal d k r n (rec : list Packet -> list Packet) :
  wildcard k = false -> (r <> [] -> yields rec (sought (S d) r (n ++ [k]))) ->
  yields (fun pks => if negb (bool_decide (r = [])) then rec pks
                     else match Packets_Get (ti_Retained x) (p_retainPath (particle_at x (n ++ [k]))) with
                          | Some pk => pks ++ [pk] | None => pks end) (sought d (k :: r) n).
Proof.
  intros Hk Hrec. destruct (bool_decide_reflect (r = [])) as [->|Hne]; cbn [negb].
  - apply (yields_ext _ _ _ (yields_option _)). intros pk. rewrite sought_literal by done.
    unfold Packets_Get. rewrite <- retained_at_iff. split.
    + intros H. exists []. by rewrite app_nil_r.
    + intros ([|] & ? & H); [|done]. by rewrite app_nil_r in H.
  - apply (yields_ext _ _ _ (Hrec Hne)). intros pk. rewrite sought_literal by done. unfold sought. split.
    + intros (q & ? & ? & _). by exists q.
    + intros (q & ? & ?). exists q. split_and!; [done..|]. by destruct r, q.
Qed.

Lemma scan_yields fuel d n :
  is_Some (ti_particles x !! n) -> (height x < length n + fuel)%nat ->
  yields (scanMessages fuel x filter d n) (sought d (rest_at d) n).
Proof.
  revert d n. induction fuel as [|fuel IH]; intros d n Hn Hf; [apply height_bound in Hn; lia|].
  assert ((length filter =? 0)%nat = false) as Hne.
  { apply Nat.eqb_neq. destruct filter; [|done]. by destruct Hwild. }
  assert (negb (has_hash filter) && negb (has_plus filter) = false) as Hw.
  { destruct Hwild as [-> | ->]; [done|]. by rewrite andb_false_r. }
  destruct (Packets_Len (ti_Retained x) =? 0)%nat eqn:Hlen.
  { apply (yields_fun (fun pks => pks)).
    - apply (yields_ext _ _ _ yields_none). intros pk. split; [done|]. intros (q & _ & [_ H] & _).
      apply Nat.eqb_eq, map_size_empty_iff in Hlen. rewrite Hlen in H. by rewrite lookup_empty in H.
    - intros pks. cbn [scanMessages]. by rewrite Hne, Hlen. }
  destruct (isolate_rest d) as (k & r & E1 & E2 & E3). rewrite E1.
  assert (forall a, is_Some (ti_particles x !! (n ++ [a])) ->
    yields (scanMessages fuel x filter (S d) (n ++ [a])) (sought (S d) (rest_at (S d)) (n ++ [a]))) as Hrec.
  { intros a Ha. apply IH; [done|]. rewrite length_app. cbn. lia. }
  rewrite E3 in Hrec. destruct (wildcard k) eqn:Hk.
  - eapply yields_fun; [|intros pks; cbn [scanMessages]; rewrite Hne, Hlen, Hw, E2;
      unfold wildcard in Hk; cbn [orb]; rewrite Hk; reflexivity].
    eapply yields_ext; [|intros pk; by apply sought_wildcard].
    apply (yields_fold _ (fun a => below d n a.1 k r)).
    + intros [a p] Ha. apply elem_of_range, particles_getAll_spec in Ha as [-> Ha].
      apply (visit_adjacent_yields d n a (scanMessages fuel x filter (S d) (n ++ [a])) k r Hk); [|by apply Hrec].
      intros ->. by apply (rest_hash d).
    + eapply NoDup_fmap_1. apply range_NoDup.
    + intros [a p] [b p'] pk1 pk2 Ha Hb Hab (q1 & _ & H1 & _) (q2 & _ & H2 & _). cbn [fst] in *.
      apply elem_of_range, particles_getAll_spec in Ha as [-> _], Hb as [-> _].
      apply retained_at_topic in H1, H2. intros E. rewrite E, H2 in H1.
      apply app_inv_head in H1 as [= -> _]. done.
  - eapply yields_fun; [|intros pks; cbn [scanMessages]; rewrite Hne, Hlen, Hw, E2;
      unfold wildcard in Hk; cbn [orb]; rewrite Hk; reflexivity].
    unfold particles_get. destruct (ti_particles x !! (n ++ [k])) eqn:Ek.
    + apply (scan_literal d k r n); [done|]. intros Hr. rewrite bool_decide_eq_false_2 in Hrec by done.
      apply Hrec. by eexists.
    + apply (yields_ext _ _ _ yields_none). intros pk. split; [done|].
      intros (q & _ & H)%sought_literal; [|done]. apply retained_at_exists in H.
      rewrite (particles_below _ _ q (inv_ok _ Hinv) Ek) in H. by destruct H.
Qed.
End ScanMessages.

(** ** The messages a filter gets *)

Definition first_level (s : gostr) : gostr := hd [] (levels s).

(** A filter receives a retained message when it matches the topic by MQTT 4.7,
    has no more levels than the topic, and does not reach below [$SYS] with a
    top-level wildcard. *)
Definition retained_for (filter topic : gostr) : Prop :=
  matches (levels filter) (levels topic) = true /\
  (length (levels filter) <= length (levels topic))%nat /\
  ~ (wildcard (first_level filter) = true /\ first_level topic = SysPrefix).

Lemma level_byte s k c : k ∈ levels s -> c ∈ k -> c ∈ s.
Proof.
  revert k. induction s as [|b s IH]; intros k; cbn [levels].
  - intros ->%list_elem_of_singleton. done.
  - destruct (b =? slash).
    + intros [->|Hk]%elem_of_cons Hc; [by apply elem_of_nil in Hc|]. right. eauto.
    + pose proof (levels_nonempty s). destruct (levels s) as [|l ls]; [done|].
      intros [->|Hk]%elem_of_cons Hc; [|right; apply (IH k); [by right|done]].
      apply elem_of_cons in Hc as [->|Hc]; [left|right]. apply (IH l); [left|done].
Qed.

Lemma no_wildcards_plain s : has_hash s = false -> has_plus s = false -> plain (levels s).
Proof.
  intros Hh Hp. unfold plain. apply Forall_forall. intros k Hk. split; intros ->.
  - assert (43 ∈ s) as H by (apply (level_byte s plus); [done|left]).
    apply contains_byte_spec in H. unfold has_plus in Hp. congruence.
  - assert (35 ∈ s) as H by (apply (level_byte s hash); [done|left]).
    apply contains_byte_spec in H. unfold has_hash in Hh. congruence.
Qed.

Lemma matches_plain f t : plain f -> matches f t = true <-> f = t.
Proof.
  intros Hf. revert t. induction Hf as [|k f [Hp Hh] Hf IH]; intros t; cbn [matches].
  - destruct t; split; done.
  - destruct (str_eqb_spec k hash); [done|]. cbn [andb]. destruct t as [|l t]; [split; done|].
    destruct (str_eqb_spec k plus); [done|]. cbn [orb]. rewrite andb_true_iff, IH.
    split; [intros [->%bool_decide_eq_true ->]; done|]. intros [= -> ->]. by rewrite str_eqb_refl.
Qed.

Section Messages.
Context {RO : RangeOrder} (x : TopicsIndex) (Hinv : index_inv x) (filter : gostr).

Lemma retained_at_levels p pk :
  retained_at x p pk <-> exists t, levels t = p /\ ti_Retained x !! t = Some pk.
Proof.
  split.
  - intros H. exists (pk_TopicName pk). split; [by apply (retained_at_topic x Hinv)|].
    destruct H as [_ H]. destruct (inv_retained _ Hinv _ _ H) as (-> & _). done.
  - intros (t & <- & H). destruct (inv_retained _ Hinv _ _ H) as (_ & Hne & _ & Hp).
    unfold retained_at. by rewrite Hp.
Qed.

Lemma rest_at_0 : rest_at filter 0 = levels filter.
Proof.
  unfold rest_at. rewrite drop_0. pose proof (levels_nonempty filter).
  by destruct (levels filter).
Qed.

Lemma sought_retained_for pk :
  sought x 0 (levels filter) [] pk <-> exists t, ti_Retained x !! t = Some pk /\ retained_for filter t.
Proof.
  unfold sought, retained_for, first_level. cbn [app].
  setoid_rewrite rmatches_matches. setoid_rewrite andb_true_iff. setoid_rewrite Nat.leb_le.
  setoid_rewrite retained_at_levels. pose proof (levels_nonempty filter) as Hnf. split.
  - intros (q & [Hm Hl] & (t & <- & Ht) & Hhid). exists t. split_and!; [done..|]. intros [Hw Hs].
    pose proof (levels_nonempty t). destruct (levels filter) as [|k f], (levels t) as [|a q]; try done.
    cbn in Hw, Hs. subst a. unfold hidden in Hhid. rewrite Hw, str_eqb_refl in Hhid. done.
  - intros (t & Ht & Hm & Hl & Hn). exists (levels t). split_and!; [done|done|by exists t|].
    destruct (levels filter) as [|k f], (levels t) as [|a q]; try done. cbn in Hn. unfold hidden. cbn [Nat.eqb andb].
    destruct (wildcard k); [|done]. destruct (str_eqb_spec a SysPrefix); [|done]. by destruct Hn.
Qed.

Lemma Messages_yields :
  filter <> [] -> hash ∉ removelast (levels filter) ->
  yields (scanMessages (S (height x)) x filter 0 [])
    (fun pk => exists t, ti_Retained x !! t = Some pk /\ retained_for filter t).
Proof.
  intros Hne Hhash.
  assert (has_hash filter = true \/ has_plus filter = true \/
          (has_hash filter = false /\ has_plus filter = false)) as Hcase
    by (destruct (has_hash filter), (has_plus filter); auto).
  destruct Hcase as [Hw|[Hw|[Hh Hp]]].
  1-2: eapply yields_ext; [apply (scan_yields x Hinv filter); [auto|done|apply (inv_ok _ Hinv)|cbn; lia]|];
    intros pk; rewrite rest_at_0; apply sought_retained_for.
  pose proof (no_wildcards_plain filter Hh Hp) as Hplain.
  assert (forall t, retained_for filter t <-> t = filter) as Hrf.
  { intros t. unfold retained_for. rewrite (matches_plain _ _ Hplain). split.
    - intros [H%(inj levels) _]. done.
    - intros ->. split_and!; [done|done|]. intros [Hw _]. unfold first_level in Hw.
      pose proof (levels_nonempty filter). destruct (levels filter) as [|k f]; [done|].
      apply Forall_cons_1 in Hplain as [[? ?] _]. cbn in Hw. unfold wildcard in Hw.
      destruct (str_eqb_spec k plus), (str_eqb_spec k hash); done. }
  eapply yields_ext; [eapply yields_fun; [apply (yields_option (ti_Retained x !! filter))|]|].
  - intros pks. cbn [scanMessages]. rewrite (proj2 (Nat.eqb_neq _ _)) by (by destruct filter). cbn [orb].
    rewrite Hh, Hp. cbn [negb andb].
    destruct (Packets_Len (ti_Retained x) =? 0)%nat eqn:Hlen; [|done].
    apply Nat.eqb_eq, map_size_empty_iff in Hlen. by rewrite Hlen, lookup_empty.
  - intros pk. cbn beta. setoid_rewrite Hrf. split; [intros H; by exists filter|]. by intros (t & ? & ->).
Qed.
End Messages.

(** The filter has one level more than the topic: if it matches, it is the
    topic's ["/#"] filter at its parent level. *)
Definition at_parent (filter topic : gostr) : Prop := length (levels filter) = S (length (levels topic)).

(** The topic starts with [$] (but not with the level [$SYS]), and the filter
    with the wildcard that MQTT 4.7.2 bars from it and the code does not. *)
Definition dollar_leaked (filter topic : gostr) : Prop :=
  matches (levels filter) (levels topic) = true /\ dollar_barred filter topic /\ first_level topic <> SysPrefix.

Lemma matches_length f t : matches f t = true -> (length f <= S (length t))%nat.
Proof.
  revert t. induction f as [|k f IH]; intros t; cbn [matches]; [cbn; lia|].
  destruct (bool_decide_reflect (f = [])) as [->|Hf]; [cbn; lia|]. rewrite andb_false_r.
  destruct t as [|l t]; [done|]. intros [_ H]%andb_true_iff. apply IH in H. cbn. lia.
Qed.

(** Below a topic that starts with [$] the first level of a matching filter is
    a wildcard exactly when the filter starts with one. *)
Lemma levels_head s c : c <> slash -> hd_error s = Some c <-> hd_error (first_level s) = Some c.
Proof.
  intros Hc. unfold first_level. destruct s as [|b s]; [done|]. cbn [levels hd_error].
  destruct (Z.eqb_spec b slash) as [Hb|Hb]; [cbn [hd hd_error]; split; [intros [= <-]|]; done|].
  by destruct (levels s).
Qed.

Lemma barred_wildcard filter topic :
  matches (levels filter) (levels topic) = true -> hd_error topic = Some 36 ->
  dollar_barred filter topic <-> wildcard (first_level filter) = true.
Proof.
  intros Hm Ht. unfold dollar_barred. rewrite !(levels_head filter) by done. pose proof Ht as Ht0. apply levels_head in Ht; [|done].
  unfold first_level in *. pose proof (levels_nonempty filter). destruct (levels filter) as [|k f]; [done|].
  destruct (levels topic) as [|l t]; [done|]. cbn [hd] in *. unfold wildcard. split.
  - intros [_ Hk]. cbn [matches] in Hm. destruct (str_eqb_spec k hash); [by rewrite orb_true_r|].
    destruct (str_eqb_spec k plus); [done|]. cbn in Hm. apply andb_true_iff in Hm as [->%bool_decide_eq_true _].
    destruct Hk; congruence.
  - intros [->%bool_decide_eq_true| ->%bool_decide_eq_true]%orb_true_iff; (split; [done|]); [by left|by right].
Qed.

Lemma retained_for_mqtt filter topic :
  retained_for filter topic <-> ~ at_parent filter topic /\ (mqtt_matches filter topic \/ dollar_leaked filter topic).
Proof.
  unfold retained_for, at_parent, mqtt_matches, dollar_leaked.
  assert (Hsys : first_level topic = SysPrefix -> hd_error topic = Some 36) by (intros H; apply levels_head; [done|by rewrite H]).
  split.
  - intros (Hm & Hl & Hn). split; [lia|].
    destruct (decide (hd_error topic = Some 36)) as [Hd|Hd]; [|left; split; [done|]; by intros [? _]].
    rewrite (barred_wildcard _ _ Hm Hd). destruct (wildcard (first_level filter)); [|left; split; done].
    right. split_and!; [done..|]. intros Hs. by apply Hn.
  - intros [Hp H]. assert (Hm : matches (levels filter) (levels topic) = true) by (by destruct H as [[? _]|[? _]]).
    split; [done|]. split; [apply matches_length in Hm; lia|]. intros [Hw Hs].
    pose proof (proj2 (barred_wildcard _ _ Hm (Hsys Hs)) Hw) as Hb. destruct H as [[_ H]|(_ & _ & H)]; done.
Qed.

(** C12: which retained messages [Messages] returns, in every reachable index
    and for every non-empty filter in which ["#"] is at most the last level:
    exactly those retained for a topic that the filter matches by MQTT 4.7, with
    two departures that are the code's: a message retained on the parent level
    of ["…/#"] is not returned, and a filter that starts with a wildcard does
    get the messages on topics that start with [$], except those below [$SYS].
    No topic occurs twice. *)
Theorem Messages_exact {RO : RangeOrder} x filter :
  index_inv x -> filter <> [] -> hash ∉ removelast (levels filter) ->
  (forall pk, pk ∈ TopicsIndex_Messages x filter <->
     exists t, ti_Retained x !! t = Some pk /\ ~ at_parent filter t /\ (mqtt_matches filter t \/ dollar_leaked filter t)) /\
  NoDup (map pk_TopicName (TopicsIndex_Messages x filter)).
Proof.
  intros Hinv Hne Hhash. unfold TopicsIndex_Messages.
  destruct (Messages_yields x Hinv filter Hne Hhash []) as (found & -> & H1 & H2). setoid_rewrite <- retained_for_mqtt. by split.
Qed.

Definition retained_sample (t : gostr) : Packet :=
  Packet0 <| pk_FixedHeader := mkFixedHeader 0 Publish 0 false true |> <| pk_TopicName := t |> <| pk_Payload := !"v" |>.

Definition retained_index : TopicsIndex :=
  (TopicsIndex_RetainMessage (TopicsIndex_RetainMessage NewTopicsIndex (retained_sample !"a/b")).2
    (retained_sample !"a")).2.

Lemma retained_index_inv : index_inv retained_index.
Proof.
  apply reachable_inv.
  apply (rtc_l _ _ (TopicsIndex_RetainMessage NewTopicsIndex (retained_sample !"a/b")).2);
    [by apply step_retain|by apply rtc_once, step_retain].
Qed.

Lemma Messages_exact_witness :
  TopicsIndex_Messages retained_index !"a/#" = [retained_sample !"a/b"] /\
  (forall pk, pk ∈ TopicsIndex_Messages retained_index !"a/#" <->
     exists t, ti_Retained retained_index !! t = Some pk /\ ~ at_parent !"a/#" t /\
       (mqtt_matches !"a/#" t \/ dollar_leaked !"a/#" t)) /\
  NoDup (map pk_TopicName (TopicsIndex_Messages retained_index !"a/#")).
Proof.
  split; [vm_compute; reflexivity|].
  apply (Messages_exact retained_index !"a/#" retained_index_inv); [done|].
  change (removelast (levels !"a/#")) with [!"a"]. by intros [=]%list_elem_of_singleton.
Defined.

(** The retained message of ["a"] is not returned for ["a/#"], although MQTT
    4.7.1.2 makes that filter match its parent level. *)
Lemma retained_parent_missed :
  retained_sample !"a" ∉ TopicsIndex_Messages retained_index !"a/#" /\
  matches (levels !"a/#") (levels !"a") = true.
Proof.
  split; [|vm_compute; reflexivity].
  replace (TopicsIndex_Messages retained_index !"a/#") with [retained_sample !"a/b"] by (vm_compute; reflexivity).
  by intros [=]%list_elem_of_singleton.
Qed.

(** A message retained on a topic that starts with [$] is returned for ["#"]. *)
Lemma retained_dollar_leaked :
  let x := (TopicsIndex_RetainMessage NewTopicsIndex (retained_sample !"$a/b")).2 in
  TopicsIndex_Messages x !"#" = [retained_sample !"$a/b"] /\ ~ mqtt_matches !"#" !"$a/b".
Proof. split; [vm_compute; reflexivity|]. intros [_ H]. apply H. split; [done|by right]. Qed.
