(* ===== verification/Inflight.v ===== *)
(** * In-flight messages and flow-control quotas (inflight.go)

    The map of in-flight packets of a client, keyed on packet id, with the
    receive and send quotas. Every operation holds the locks of what it
    touches, so each is one atomic step on the record. [now] is the clock
    reading of [time.Now().Unix()]. *)
From S2P Require Import Prelude Codes Codec FixedHeader Properties Packets.

Definition InflightExpiryDeferred : Z := -1.
Definition InflightExpiryReserved : Z := -2.

Inductive reserveResult := reserveOK | reserveIDTaken | reserveFull.

Record Inflight := mkInflight {
  if_internal : gmap Z Packet;
  if_receiveQuota : Z;
  if_sendQuota : Z;
  if_maximumReceiveQuota : Z;
  if_maximumSendQuota : Z;
}.

Definition NewInflights : Inflight := mkInflight ∅ 0 0 0 0.

Definition Inflight_Len (i : Inflight) : Z := Z.of_nat (size (if_internal i)).

Definition Inflight_Set (i : Inflight) (m : Packet) : bool * Inflight :=
  (negb (bool_decide (is_Some (if_internal i !! pk_PacketID m))),
   i <| if_internal ::= <[pk_PacketID m := m]> |>).

(** The placeholder that claims a packet id. *)
Definition reservation (now id : Z) : Packet :=
  Packet0 <| pk_PacketID := id |> <| pk_Expiry := InflightExpiryReserved |> <| pk_Created := now |>.

Definition Inflight_TryReserve (now : Z) (i : Inflight) (id max : Z) : reserveResult * Inflight :=
  if (0 <? max) && (max <=? Inflight_Len i) then (reserveFull, i)
  else match if_internal i !! id with
  | Some _ => (reserveIDTaken, i)
  | None => (reserveOK, i <| if_internal ::= <[id := reservation now id]> |>)
  end.

Definition Inflight_Reserve (now : Z) (i : Inflight) (id : Z) : bool * Inflight :=
  match Inflight_TryReserve now i id 0 with
  | (reserveOK, i) => (true, i)
  | (_, i) => (false, i)
  end.

(** [ReplaceCounted]; the result is also what is added to the gauge, when one
    is given. *)
Definition Inflight_ReplaceCounted (i : Inflight) (m : Packet) : bool * Inflight :=
  let store := (true, i <| if_internal ::= <[pk_PacketID m := m]> |>) in
  match if_internal i !! pk_PacketID m with
  | Some old => if negb (pk_Expiry old =? InflightExpiryReserved) then (false, i) else store
  | None => store
  end.

Definition Inflight_Replace (i : Inflight) (m : Packet) : bool * Inflight := Inflight_ReplaceCounted i m.

Definition Inflight_Get (i : Inflight) (id : Z) : option Packet := if_internal i !! id.

Definition Inflight_Delete (i : Inflight) (id : Z) : bool * Inflight :=
  (bool_decide (is_Some (if_internal i !! id)), i <| if_internal ::= delete id |>).

(** A message that holds send quota: sent with qos, and not parked or reserved. *)
Definition holds_quota (v : Packet) : bool :=
  negb (pk_Expiry v =? InflightExpiryDeferred) && negb (pk_Expiry v =? InflightExpiryReserved) &&
  (0 <? pk_Qos v).

Definition sentHoldingQuota (i : Inflight) : Z :=
  Z.of_nat (length (List.filter (fun kv => holds_quota kv.2) (map_to_list (if_internal i)))).

(** [left := max - int32(sentHoldingQuota); if left < 0 { left = 0 }] *)
Definition quota_left (max holding : Z) : Z :=
  let left := to_i32 (max - to_i32 holding) in
  if left <? 0 then 0 else left.

Definition Inflight_Clone (i : Inflight) : Inflight :=
  {|
    if_internal := if_internal i;
    if_receiveQuota := if_receiveQuota i;
    if_sendQuota := if 0 <? if_maximumSendQuota i
                    then quota_left (if_maximumSendQuota i) (sentHoldingQuota i) else 0;
    if_maximumReceiveQuota := if_maximumReceiveQuota i;
    if_maximumSendQuota := if_maximumSendQuota i;
  |}.

Definition Inflight_ReconcileSendQuotaCap (i : Inflight) (max : Z) : Inflight :=
  if max <=? 0 then i
  else i <| if_maximumSendQuota := max |> <| if_sendQuota := quota_left max (sentHoldingQuota i) |>.

(** The order of [GetAll] and [TakeNextImmediate]: creation times cut to 16 bits. *)
Definition created_before (a b : Packet) : bool := to_u16 (pk_Created a) <? to_u16 (pk_Created b).
Definition created_le (a b : Packet) : Prop := to_u16 (pk_Created a) <= to_u16 (pk_Created b).

#[export] Instance created_le_dec a b : Decision (created_le a b).
Proof. unfold created_le. apply _. Defined.

Section Iterating.
Context {RO : RangeOrder}.

(** [sort.Slice] on the values, in whatever order the map gave them; among
    equal keys any order is possible, as the iteration order is arbitrary. *)
Definition Inflight_GetAll (i : Inflight) (immediate : bool) : list Packet :=
  merge_sort created_le
    (List.filter (fun v => negb immediate || (pk_Expiry v =? InflightExpiryDeferred))
      (range (if_internal i)).*2).

Definition Inflight_NextImmediate (i : Inflight) : option Packet := head (Inflight_GetAll i true).

(** The loop of [TakeNextImmediate]: the deferred entry created first. *)
Definition earliest_deferred (entries : list (Z * Packet)) : option (Z * Packet) :=
  fold_left (fun selected kv =>
    if negb (pk_Expiry kv.2 =? InflightExpiryDeferred) then selected
    else match selected with
         | None => Some kv
         | Some s => if created_before kv.2 s.2 then Some kv else Some s
         end) entries None.

Definition Inflight_TakeNextImmediate (i : Inflight) : option Packet * Inflight :=
  match earliest_deferred (range (if_internal i)) with
  | None => (None, i)
  | Some (id, selected) =>
      let selected := selected <| pk_Expiry := 0 |> in
      (Some selected, i <| if_internal ::= <[id := selected]> |>)
  end.
End Iterating.

Definition Inflight_RecoverStarvedSendQuota (i : Inflight) : bool * Inflight :=
  if (Inflight_Len i =? 0) ||
     negb (forallb (fun kv => pk_Expiry kv.2 =? InflightExpiryDeferred) (map_to_list (if_internal i)))
  then (false, i)
  else if (0 <? if_sendQuota i) || (if_maximumSendQuota i =? 0) then (false, i)
  else (true, i <| if_sendQuota := 1 |>).

Definition Inflight_ResetSendQuotaIfEmpty (i : Inflight) : bool * Inflight :=
  if negb (Inflight_Len i =? 0) then (false, i)
  else if if_maximumSendQuota i <=? 0 then (false, i)
  else if if_sendQuota i =? if_maximumSendQuota i then (false, i)
  else (true, i <| if_sendQuota := if_maximumSendQuota i |>).

Definition Inflight_DecreaseReceiveQuota (i : Inflight) : bool * Inflight :=
  if if_receiveQuota i <=? 0 then (false, i)
  else (true, i <| if_receiveQuota := to_i32 (if_receiveQuota i - 1) |>).

Definition Inflight_IncreaseReceiveQuota (i : Inflight) : bool * Inflight :=
  if if_maximumReceiveQuota i <=? if_receiveQuota i then (false, i)
  else (true, i <| if_receiveQuota := to_i32 (if_receiveQuota i + 1) |>).

Definition Inflight_ResetReceiveQuota (i : Inflight) (n : Z) : Inflight :=
  i <| if_maximumReceiveQuota := n |> <| if_receiveQuota := n |>.

Definition Inflight_DecreaseSendQuota (i : Inflight) : bool * Inflight :=
  if if_sendQuota i <=? 0 then (false, i)
  else (true, i <| if_sendQuota := to_i32 (if_sendQuota i - 1) |>).

Definition Inflight_IncreaseSendQuota (i : Inflight) : bool * Inflight :=
  if if_maximumSendQuota i <=? if_sendQuota i then (false, i)
  else (true, i <| if_sendQuota := to_i32 (if_sendQuota i + 1) |>).

Definition Inflight_ResetSendQuota (i : Inflight) (n : Z) : Inflight :=
  i <| if_maximumSendQuota := n |> <| if_sendQuota := n |>.

Record Quotas := mkQuotas {
  qs_length : Z;
  qs_sendQuota : Z;
  qs_maxSendQuota : Z;
  qs_receiveQuota : Z;
  qs_maxReceiveQuota : Z;
}.

Definition Inflight_QuotaStats (i : Inflight) : Quotas :=
  mkQuotas (Inflight_Len i) (if_sendQuota i) (if_maximumSendQuota i) (if_receiveQuota i)
    (if_maximumReceiveQuota i).

(** The counts of deferred and of reserved entries, and the quotas. *)
Definition Inflight_QuotaStatsDetailed (i : Inflight) : Z * Z * Quotas :=
  let count e := Z.of_nat (length (List.filter (fun kv => pk_Expiry kv.2 =? e) (map_to_list (if_internal i)))) in
  (count InflightExpiryDeferred, count InflightExpiryReserved, Inflight_QuotaStats i).
