(* ===== verification/InflightFacts.v ===== *)
(** * Correctness of the in-flight map and its quotas *)
From S2P Require Import Prelude Codes Codec FixedHeader Properties Packets Inflight.

(** ** The invariant over all operations *)

Definition is_quota (n : Z) : Prop := 0 <= n < 2 ^ 31.

Lemma is_u16_quota n : is_u16 n -> is_quota n.
Proof. unfold is_u16, is_quota. lia. Qed.

Record inflight_ok (i : Inflight) : Prop := mkInflightOk {
  io_ids : forall id pk, if_internal i !! id = Some pk -> pk_PacketID pk = id /\ is_u16 id;
  io_receive : 0 <= if_receiveQuota i <= if_maximumReceiveQuota i;
  io_send : 0 <= if_sendQuota i <= if_maximumSendQuota i;
  io_max_receive : is_quota (if_maximumReceiveQuota i);
  io_max_send : is_quota (if_maximumSendQuota i);
}.

(** The operations that change an in-flight map, with their arguments. *)
Inductive inflight_op :=
| OpSet (m : Packet)
| OpTryReserve (now id max : Z)
| OpReplace (m : Packet)
| OpDelete (id : Z)
| OpTakeNextImmediate
| OpClone
| OpReconcileSendQuotaCap (max : Z)
| OpRecoverStarvedSendQuota
| OpResetSendQuotaIfEmpty
| OpDecreaseReceiveQuota
| OpIncreaseReceiveQuota
| OpResetReceiveQuota (n : Z)
| OpDecreaseSendQuota
| OpIncreaseSendQuota
| OpResetSendQuota (n : Z).

(** The arguments have the widths of their Go types, and quotas are not negative. *)
Definition op_ok (o : inflight_op) : Prop :=
  match o with
  | OpSet m | OpReplace m => is_u16 (pk_PacketID m)
  | OpTryReserve _ id _ => is_u16 id
  | OpReconcileSendQuotaCap n | OpResetReceiveQuota n | OpResetSendQuota n => is_quota n
  | _ => True
  end.

Section Ops.
Context {RO : RangeOrder}.

Definition apply_op (i : Inflight) (o : inflight_op) : Inflight :=
  match o with
  | OpSet m => (Inflight_Set i m).2
  | OpTryReserve now id max => (Inflight_TryReserve now i id max).2
  | OpReplace m => (Inflight_ReplaceCounted i m).2
  | OpDelete id => (Inflight_Delete i id).2
  | OpTakeNextImmediate => (Inflight_TakeNextImmediate i).2
  | OpClone => Inflight_Clone i
  | OpReconcileSendQuotaCap n => Inflight_ReconcileSendQuotaCap i n
  | OpRecoverStarvedSendQuota => (Inflight_RecoverStarvedSendQuota i).2
  | OpResetSendQuotaIfEmpty => (Inflight_ResetSendQuotaIfEmpty i).2
  | OpDecreaseReceiveQuota => (Inflight_DecreaseReceiveQuota i).2
  | OpIncreaseReceiveQuota => (Inflight_IncreaseReceiveQuota i).2
  | OpResetReceiveQuota n => Inflight_ResetReceiveQuota i n
  | OpDecreaseSendQuota => (Inflight_DecreaseSendQuota i).2
  | OpIncreaseSendQuota => (Inflight_IncreaseSendQuota i).2
  | OpResetSendQuota n => Inflight_ResetSendQuota i n
  end.
End Ops.

Lemma to_i32_id z : - 2 ^ 31 <= z < 2 ^ 31 -> to_i32 z = z.
Proof. intros H. unfold to_i32. rewrite Z.mod_small by lia. lia. Qed.

(** Storing a packet under its own id keeps the ids right. *)
Lemma insert_ids (m : gmap Z Packet) id pk :
  (forall k v, m !! k = Some v -> pk_PacketID v = k /\ is_u16 k) -> pk_PacketID pk = id -> is_u16 id ->
  forall k v, <[id := pk]> m !! k = Some v -> pk_PacketID v = k /\ is_u16 k.
Proof. intros Hm Hpk Hid k v [[<- <-]|[_ H]]%lookup_insert_Some; [done|by apply Hm]. Qed.

Lemma sentHoldingQuota_bound i : inflight_ok i -> 0 <= sentHoldingQuota i <= 65536.
Proof.
  intros Hok. unfold sentHoldingQuota. split; [lia|].
  pose proof (filter_length_le (fun kv => holds_quota kv.2) (map_to_list (if_internal i))) as H.
  assert (length (map_to_list (if_internal i)) <= Z.to_nat 65536)%nat; [|lia].
  assert ((map_to_list (if_internal i)).*1 ⊆+ map Z.of_nat (seq 0 (Z.to_nat 65536))) as Hsub.
  { apply NoDup_submseteq; [apply NoDup_fst_map_to_list|]. intros id Hid.
    apply list_elem_of_fmap in Hid as ([k v] & -> & Hkv). apply elem_of_map_to_list in Hkv.
    destruct (io_ids _ Hok _ _ Hkv) as [_ Hu]. unfold is_u16 in Hu. cbn [fst].
    apply list_elem_of_In, in_map_iff. exists (Z.to_nat k). split; [lia|]. apply in_seq. lia. }
  apply submseteq_length in Hsub. by rewrite length_fmap, length_map, length_seq in Hsub.
Qed.

Lemma quota_left_spec max h :
  is_quota max -> 0 <= h <= 65536 -> quota_left max h = Z.max 0 (max - h).
Proof.
  unfold is_quota. intros Hm Hh. unfold quota_left. rewrite (to_i32_id h) by lia.
  rewrite to_i32_id by lia. destruct (_ <? 0) eqn:E; bool_to_prop; lia.
Qed.

Section Invariant.
Context {RO : RangeOrder}.

Lemma earliest_deferred_in l kv : earliest_deferred l = Some kv -> kv ∈ l.
Proof.
  unfold earliest_deferred.
  assert (forall o, fold_left (fun selected kv =>
    if negb (pk_Expiry kv.2 =? InflightExpiryDeferred) then selected
    else match selected with
         | None => Some kv
         | Some s => if created_before kv.2 s.2 then Some kv else Some s
         end) l o = Some kv -> kv ∈ l \/ o = Some kv) as H; [|intros E; by destruct (H None E)].
  induction l as [|e l IH]; intros o E; [by right|]. cbn [fold_left] in E.
  destruct (IH _ E) as [?|Ho]; [left; by right|].
  destruct (negb _); [by right|]. destruct o as [s|].
  - destruct (created_before e.2 s.2); [left|by right]. injection Ho as ->. left.
  - injection Ho as ->. left. left.
Qed.

Lemma apply_op_ok i o : inflight_ok i -> op_ok o -> inflight_ok (apply_op i o).
Proof.
  intros Hok Ho. pose proof Hok as [Hid Hr Hs Hmr Hms]. unfold is_quota in *.
  destruct o; cbn [apply_op op_ok] in *; unfold is_quota in *.
  - constructor; try done. by apply insert_ids.
  - unfold Inflight_TryReserve. destruct (_ && _); [done|].
    destruct (if_internal i !! id); [done|]. constructor; try done. by apply insert_ids.
  - unfold Inflight_ReplaceCounted. destruct (if_internal i !! pk_PacketID m) as [old|].
    + destruct (negb _); [done|]. constructor; try done. by apply insert_ids.
    + constructor; try done. by apply insert_ids.
  - constructor; try done. intros k v H. change (delete id (if_internal i) !! k = Some v) in H.
    apply lookup_delete_Some in H as [_ H]. by apply Hid.
  - unfold Inflight_TakeNextImmediate. destruct (earliest_deferred _) as [[id sel]|] eqn:E; [|done].
    apply earliest_deferred_in, elem_of_range in E. destruct (Hid _ _ E).
    constructor; try done. by apply insert_ids.
  - pose proof (sentHoldingQuota_bound i Hok). constructor; try done. unfold Inflight_Clone.
    cbn [if_sendQuota if_maximumSendQuota].
    destruct (0 <? if_maximumSendQuota i); [rewrite quota_left_spec by (unfold is_quota in *; lia)|]; lia.
  - pose proof (sentHoldingQuota_bound i Hok). unfold Inflight_ReconcileSendQuotaCap.
    destruct (max <=? 0) eqn:E; [done|]. bool_to_prop. constructor; try done.
    change (0 <= quota_left max (sentHoldingQuota i) <= max).
    rewrite quota_left_spec by (unfold is_quota in *; lia). lia.
  - unfold Inflight_RecoverStarvedSendQuota. destruct (_ || negb _); [done|].
    destruct (_ || _) eqn:E; [done|]. bool_to_prop. constructor; try done.
    change (0 <= 1 <= if_maximumSendQuota i). lia.
  - unfold Inflight_ResetSendQuotaIfEmpty. destruct (negb _); [done|]. destruct (_ <=? 0); [done|].
    destruct (_ =? _); [done|]. constructor; try done.
    change (0 <= if_maximumSendQuota i <= if_maximumSendQuota i). lia.
  - unfold Inflight_DecreaseReceiveQuota. destruct (_ <=? 0) eqn:E; [done|]. bool_to_prop. constructor; try done.
    change (0 <= to_i32 (if_receiveQuota i - 1) <= if_maximumReceiveQuota i). rewrite to_i32_id; lia.
  - unfold Inflight_IncreaseReceiveQuota. destruct (_ <=? _) eqn:E; [done|]. bool_to_prop. constructor; try done.
    change (0 <= to_i32 (if_receiveQuota i + 1) <= if_maximumReceiveQuota i). rewrite to_i32_id; lia.
  - constructor; try done. change (0 <= n <= n). lia.
  - unfold Inflight_DecreaseSendQuota. destruct (_ <=? 0) eqn:E; [done|]. bool_to_prop. constructor; try done.
    change (0 <= to_i32 (if_sendQuota i - 1) <= if_maximumSendQuota i). rewrite to_i32_id; lia.
  - unfold Inflight_IncreaseSendQuota. destruct (_ <=? _) eqn:E; [done|]. bool_to_prop. constructor; try done.
    change (0 <= to_i32 (if_sendQuota i + 1) <= if_maximumSendQuota i). rewrite to_i32_id; lia.
  - constructor; try done. change (0 <= n <= n). lia.
Qed.

Lemma NewInflights_ok : inflight_ok NewInflights.
Proof. by constructor. Qed.

(** C37: over any sequence of operations from a new in-flight map, every packet
    is stored under its own 16-bit id, and both quotas stay between 0 and their
    maximum, without overflow of their 32 bits. *)
Theorem inflight_invariant ops :
  Forall op_ok ops -> inflight_ok (fold_left apply_op ops NewInflights).
Proof.
  pose proof NewInflights_ok as H. revert H. generalize NewInflights.
  induction ops as [|o ops IH]; intros i Hi Ho; [done|]. apply Forall_cons_1 in Ho as [Ho1 Ho2].
  cbn [fold_left]. apply IH; [by apply apply_op_ok|done].
Qed.
End Invariant.

Lemma inflight_invariant_witness :
  inflight_ok (fold_left apply_op
    [OpResetSendQuota 2; OpTryReserve 100 7 10; OpDecreaseSendQuota; OpDecreaseSendQuota; OpDecreaseSendQuota;
     OpRecoverStarvedSendQuota; OpDelete 7; OpResetSendQuotaIfEmpty] NewInflights).
Proof. apply inflight_invariant. repeat constructor; unfold is_u16, is_quota; lia. Defined.

(** ** The order of messages *)

#[export] Instance created_le_total : Total created_le.
Proof. intros a b. unfold created_le. lia. Qed.
#[export] Instance created_le_trans : Transitive created_le.
Proof. intros a b c. unfold created_le. lia. Qed.

(** The entries [GetAll] returns. *)
Definition selected (immediate : bool) (v : Packet) : bool :=
  negb immediate || (pk_Expiry v =? InflightExpiryDeferred).

Section Order.
Context {RO : RangeOrder}.

Lemma GetAll_perm i immediate :
  Inflight_GetAll i immediate ≡ₚ List.filter (selected immediate) (map_to_list (if_internal i)).*2.
Proof.
  unfold Inflight_GetAll. rewrite merge_sort_Permutation. fold (selected immediate).
  assert (forall (l k : list Packet) f, l ≡ₚ k -> List.filter f l ≡ₚ List.filter f k) as Hf.
  { intros l k f H. induction H; cbn; repeat destruct (f _); eauto using Permutation. }
  apply Hf. by rewrite range_perm.
Qed.

Lemma StronglySorted_lookup {A} (R : relation A) (l : list A) :
  StronglySorted R l -> forall n m a b, (n < m)%nat -> l !! n = Some a -> l !! m = Some b -> R a b.
Proof.
  induction 1 as [|c l Hl IH Hall]; intros [|n] [|m] a b Hnm Ha Hb; cbn in *; simplify_eq; try lia.
  - rewrite Forall_lookup in Hall. by apply (Hall m).
  - apply (IH n m); [lia|done..].
Qed.

(** [GetAll] returns every in-flight message (every deferred one, when
    [immediate]) exactly once, whatever the iteration order of the map, and
    messages whose creation times fall in the same 2^16 second window (the key
    is cut to 16 bits) come in order of creation. *)
Theorem GetAll_sorted i immediate :
  Inflight_GetAll i immediate ≡ₚ List.filter (selected immediate) (map_to_list (if_internal i)).*2 /\
  forall n m a b, (n < m)%nat ->
    Inflight_GetAll i immediate !! n = Some a -> Inflight_GetAll i immediate !! m = Some b ->
    pk_Created a / 65536 = pk_Created b / 65536 -> pk_Created a <= pk_Created b.
Proof.
  split; [apply GetAll_perm|]. intros n m a b Hnm Ha Hb Hw.
  assert (StronglySorted created_le (Inflight_GetAll i immediate)) as Hs.
  { apply Sorted_StronglySorted; [apply _|]. apply Sorted_merge_sort; apply _. }
  pose proof (StronglySorted_lookup _ _ Hs n m a b Hnm Ha Hb) as Hd.
  unfold created_le, to_u16 in Hd. Z.to_euclidean_division_equations. lia.
Qed.
End Order.

Lemma GetAll_sorted_witness :
  let early := Packet0 <| pk_PacketID := 9 |> <| pk_Created := 100 |> in
  let late := Packet0 <| pk_PacketID := 2 |> <| pk_Created := 200 |> in
  let i := (Inflight_Set (Inflight_Set NewInflights late).2 early).2 in
  Inflight_GetAll i false = [early; late] /\ pk_Created early <= pk_Created late.
Proof.
  intros early late i. split; [vm_compute; reflexivity|].
  apply (proj2 (GetAll_sorted i false) 0%nat 1%nat); [lia|vm_compute; reflexivity..].
Defined.

(** Across a multiple of 2^16 seconds the later message comes first. *)
Lemma GetAll_wraps :
  let early := Packet0 <| pk_PacketID := 1 |> <| pk_Created := 65535 |> in
  let late := Packet0 <| pk_PacketID := 2 |> <| pk_Created := 65536 |> in
  Inflight_GetAll (Inflight_Set (Inflight_Set NewInflights early).2 late).2 false = [late; early].
Proof. vm_compute. reflexivity. Qed.

Section Take.
Context {RO : RangeOrder}.

Definition deferred (v : Packet) : bool := pk_Expiry v =? InflightExpiryDeferred.

Lemma earliest_fold_spec (l : list (Z * Packet)) (o : option (Z * Packet)) :
  (forall s, o = Some s -> deferred s.2 = true) ->
  match fold_left (fun selected kv =>
    if negb (pk_Expiry kv.2 =? InflightExpiryDeferred) then selected
    else match selected with
         | None => Some kv
         | Some s => if created_before kv.2 s.2 then Some kv else Some s
         end) l o with
  | None => o = None /\ forall kv, kv ∈ l -> deferred kv.2 = false
  | Some s => deferred s.2 = true /\ (s ∈ l \/ o = Some s) /\
      (forall kv, kv ∈ l -> deferred kv.2 = true -> created_le s.2 kv.2) /\
      (forall s', o = Some s' -> created_le s.2 s'.2)
  end.
Proof.
  revert o. induction l as [|e l IH]; intros o Ho; cbn [fold_left].
  - destruct o as [s|]; [|split; [done|by intros ? ?%elem_of_nil]].
    split_and!; [by apply Ho|by right|by intros ? ?%elem_of_nil|]. intros s' [= ->]. unfold created_le. lia.
  - destruct (pk_Expiry e.2 =? InflightExpiryDeferred) eqn:Ed; cbn [negb].
    + assert (exists s0, (match o with None => Some e
        | Some s => if created_before e.2 s.2 then Some e else Some s end) = Some s0 /\ deferred s0.2 = true /\
        (s0 = e \/ o = Some s0) /\ created_le s0.2 e.2 /\ forall s', o = Some s' -> created_le s0.2 s'.2)
        as (s0 & -> & Hd0 & Hs0 & He & Ho').
      { unfold created_before, created_le. destruct o as [s|].
        - destruct (_ <? _) eqn:Hlt; [apply Z.ltb_lt in Hlt|apply Z.ltb_ge in Hlt].
          + exists e. split_and!; [done|exact Ed|by left|lia|]. intros s' [= ->]. lia.
          + exists s. split_and!; [done|by apply Ho|by right|lia|]. intros s' [= ->]. lia.
        - exists e. split_and!; [done|exact Ed|by left|lia|done]. }
      specialize (IH (Some s0)). destruct (fold_left _ _ _) as [s|].
      * destruct IH as (H1 & H2 & H3 & H4); [intros s' [= ->]; done|]. pose proof (H4 s0 eq_refl) as H5.
        split_and!; [done| | |].
        -- destruct H2 as [?|[= ->]]; [left; by right|]. destruct Hs0 as [->| ->]; [left; left|by right].
        -- intros kv [->|Hk]%elem_of_cons Hd; [by etrans|by apply H3].
        -- intros s' Hs'. etrans; [exact H5|by apply Ho'].
      * destruct IH as [? _]; [intros s' [= ->]; done|done].
    + specialize (IH o Ho). destruct (fold_left _ _ _) as [s|].
      * destruct IH as (H1 & H2 & H3 & H4). split_and!; [done|destruct H2; [left; by right|by right]| |done].
        intros kv [->|Hk]%elem_of_cons Hd; [unfold deferred in Hd; congruence|by apply H3].
      * destruct IH as [-> H]. split; [done|]. intros kv [->|Hk]%elem_of_cons; [done|by apply H].
Qed.

Lemma TakeNextImmediate_cases i :
  let '(o, i') := Inflight_TakeNextImmediate i in
  match o with
  | None => i' = i /\ forall id v, if_internal i !! id = Some v -> deferred v = false
  | Some s => exists id v, if_internal i !! id = Some v /\ deferred v = true /\
      s = v <| pk_Expiry := 0 |> /\ i' = i <| if_internal ::= <[id := s]> |> /\
      forall id' v', if_internal i !! id' = Some v' -> deferred v' = true -> created_le v v'
  end.
Proof.
  unfold Inflight_TakeNextImmediate, earliest_deferred.
  pose proof (earliest_fold_spec (range (if_internal i)) None ltac:(done)) as H.
  destruct (fold_left _ _ _) as [[id v]|].
  - destruct H as (Hd & [Hin|?] & Hmin & _); [|done]. apply elem_of_range in Hin.
    exists id, v. split_and!; [done..|]. intros id' v' H'%elem_of_range Hd'. by apply (Hmin (id', v')).
  - destruct H as [_ H]. split; [done|]. intros id v Hv%elem_of_range. by apply (H (id, v)).
Qed.

(** [TakeNextImmediate] takes a deferred message if there is one, the one
    created first (by the 16-bit time), clears its mark and changes no other
    entry; it returns nothing exactly when no message is deferred. *)
Theorem TakeNextImmediate_spec i :
  let '(o, i') := Inflight_TakeNextImmediate i in
  match o with
  | None => i' = i /\ forall id v, if_internal i !! id = Some v -> deferred v = false
  | Some s => exists id v, if_internal i !! id = Some v /\ deferred v = true /\
      s = v <| pk_Expiry := 0 |> /\ i' = i <| if_internal ::= <[id := s]> |> /\
      forall id' v', if_internal i !! id' = Some v' -> deferred v' = true -> created_le v v'
  end.
Proof. apply TakeNextImmediate_cases. Qed.
End Take.

(** ** Recomputing the send quota *)

(** After a session takeover the send quota is exactly what the messages
    still unacknowledged leave: recomputing it for the receive maximum [max] of
    the new connection sets quota plus messages that hold quota to [max], or
    the quota to 0 when they are [max] or more; [Clone] does the same for its
    own maximum and keeps the messages. *)
Theorem send_quota_recomputed i max :
  inflight_ok i -> 0 < max < 2 ^ 31 ->
  let r := Inflight_ReconcileSendQuotaCap (Inflight_Clone i) max in
  if_internal r = if_internal i /\ if_maximumSendQuota r = max /\
  if_sendQuota r = Z.max 0 (max - sentHoldingQuota i) /\
  (0 < if_maximumSendQuota i ->
   if_sendQuota (Inflight_Clone i) = Z.max 0 (if_maximumSendQuota i - sentHoldingQuota i)).
Proof.
  intros Hok Hm. cbn zeta. pose proof (sentHoldingQuota_bound i Hok) as Hb.
  unfold Inflight_ReconcileSendQuotaCap. rewrite (proj2 (Z.leb_gt _ _)) by lia.
  split_and!; [done|done| |].
  - change (quota_left max (sentHoldingQuota i) = Z.max 0 (max - sentHoldingQuota i)).
    apply quota_left_spec; unfold is_quota; lia.
  - intros Hpos. unfold Inflight_Clone. cbn [if_sendQuota]. rewrite (proj2 (Z.ltb_lt _ _)) by done.
    apply quota_left_spec; [apply Hok|done].
Qed.

Definition inflight_sample : Inflight :=
  (Inflight_Set (Inflight_ResetSendQuota NewInflights 10)
    (Packet0 <| pk_PacketID := 3 |> <| pk_FixedHeader := mkFixedHeader 0 Publish 1 false false |>)).2.

Lemma inflight_sample_ok : inflight_ok inflight_sample.
Proof.
  apply (apply_op_ok _ (OpSet _)); [|by split; vm_compute].
  apply (apply_op_ok _ (OpResetSendQuota _)); [apply NewInflights_ok|unfold op_ok, is_quota; lia].
Qed.

Lemma send_quota_recomputed_witness :
  let r := Inflight_ReconcileSendQuotaCap (Inflight_Clone inflight_sample) 5 in
  if_internal r = if_internal inflight_sample /\ if_maximumSendQuota r = 5 /\ if_sendQuota r = 4 /\
  (0 < 10 -> if_sendQuota (Inflight_Clone inflight_sample) = 9).
Proof. exact (send_quota_recomputed inflight_sample 5 inflight_sample_ok ltac:(lia)). Defined.
