(* ===== verification/System.v ===== *)
(** * Server options and statistics (server.go, system/system.go)

    The capabilities and options a client and the server consult, and the
    counters of the [system.Info] structure. *)
From S2P Require Import Prelude.

Record Compatibilities := mkCompatibilities {
  co_ObscureNotAuthorized : bool;
  co_PassiveClientDisconnect : bool;
  co_AlwaysReturnResponseInfo : bool;
  co_RestoreSysInfoOnRestart : bool;
  co_NoInheritedPropertiesOnAck : bool;
}.

Record Capabilities := mkCapabilities {
  ca_MaximumClients : Z;
  ca_MaximumMessageExpiryInterval : Z;
  ca_MaximumClientWritesPending : Z;
  ca_MaximumSessionExpiryInterval : Z;
  ca_MaximumPacketSize : Z;
  ca_maximumPacketID : Z;
  ca_ReceiveMaximum : Z;
  ca_MaximumInflight : Z;
  ca_TopicAliasMaximum : Z;
  ca_SharedSubAvailable : Z;
  ca_MinimumProtocolVersion : Z;
  ca_Compatibilities : Compatibilities;
  ca_MaximumQos : Z;
  ca_RetainAvailable : Z;
  ca_WildcardSubAvailable : Z;
  ca_SubIDAvailable : Z;
}.

Definition Compatibilities0 : Compatibilities := mkCompatibilities false false false false false.

Definition NewDefaultServerCapabilities : Capabilities := {|
  ca_MaximumClients := 2 ^ 63 - 1;
  ca_MaximumMessageExpiryInterval := 60 * 60 * 24;
  ca_MaximumClientWritesPending := 1024 * 8;
  ca_MaximumSessionExpiryInterval := 2 ^ 32 - 1;
  ca_MaximumPacketSize := 0;
  ca_maximumPacketID := 65535;
  ca_ReceiveMaximum := 1024;
  ca_MaximumInflight := 1024 * 8;
  ca_TopicAliasMaximum := 65535;
  ca_SharedSubAvailable := 1;
  ca_MinimumProtocolVersion := 3;
  ca_Compatibilities := Compatibilities0;
  ca_MaximumQos := 2;
  ca_RetainAvailable := 1;
  ca_WildcardSubAvailable := 1;
  ca_SubIDAvailable := 1;
|}.

(** The options that the modelled code reads. *)
Record Options := mkOptions {
  op_Capabilities : Capabilities;
  op_ClientNetWriteBufferSize : Z;
  op_InlineClient : bool;
}.

(** [ensureDefaults] on the options read here: [nil] capabilities are the default ones. *)
Definition ensureDefaults (capabilities : option Capabilities) (writeBufferSize : Z) (inlineClient : bool) : Options :=
  let c := default NewDefaultServerCapabilities capabilities in
  let c := c <| ca_maximumPacketID := 65535 |> in
  let c := if ca_MaximumInflight c =? 0 then c <| ca_MaximumInflight := 1024 * 8 |> else c in
  mkOptions c (if writeBufferSize =? 0 then 1024 * 2 else writeBufferSize) inlineClient.

Definition DefaultOptions : Options := ensureDefaults None 0 false.

Record Info := mkInfo {
  in_Version : gostr;
  in_Started : Z;
  in_Time : Z;
  in_Uptime : Z;
  in_BytesReceived : Z;
  in_BytesSent : Z;
  in_ClientsConnected : Z;
  in_ClientsDisconnected : Z;
  in_ClientsMaximum : Z;
  in_ClientsTotal : Z;
  in_MessagesReceived : Z;
  in_MessagesSent : Z;
  in_MessagesDropped : Z;
  in_Retained : Z;
  in_Inflight : Z;
  in_InflightDropped : Z;
  in_Subscriptions : Z;
  in_PacketsReceived : Z;
  in_PacketsSent : Z;
  in_MemoryAlloc : Z;
  in_Threads : Z;
}.

Definition Info0 : Info := mkInfo [] 0 0 0 0 0 0 0 0 0 0 0 0 0 0 0 0 0 0 0 0.

(** [atomic.AddInt64(&info.X, n)]: 64-bit wrap-around. *)
Definition add64 (n x : Z) : Z := to_i64 (x + n).
