(* ===== verification/Clients.v ===== *)
(** * Clients (clients.go)

    The state of a client connection and its operations. Values of the
    environment are arguments: [now] is the clock, [xid] a fresh identifier; [Env]
    collects those of a whole handler. The
    bytes that have arrived and were not read yet are the connection's
    [net_stream]. A [Client] is one object; the server keeps them in a store
    and refers to them by address. *)
From S2P Require Import Prelude Codes Codec FixedHeader Properties Packets Wire Topics Inflight System.

Definition defaultKeepalive : Z := 10.
Definition defaultClientProtocolVersion : Z := 4.
Definition minimumKeepalive : Z := 5.

Record Will := mkWill {
  wi_Payload : bytes;
  wi_User : list UserProperty;
  wi_TopicName : gostr;
  wi_Flag : Z;
  wi_WillDelayInterval : Z;
  wi_Qos : Z;
  wi_Retain : bool;
}.

Definition Will0 : Will := mkWill [] [] [] 0 0 0 false.

Record ClientProperties := mkClientProperties {
  cp_Props : Properties;
  cp_Will : Will;
  cp_ClientUsername : bytes;
  cp_ProtocolVersion : Z;
  cp_CleanSession : bool;
}.

Record ClientConnection := mkClientConnection {
  net_Conn : bool;               (* Conn and bconn are not nil *)
  net_stream : bytes;            (* what bconn will deliver *)
  net_written : bytes;           (* what Conn has accepted *)
  net_outbuf : option bytes;     (* outbuf *)
  net_deadline : option Z;       (* the deadline set on Conn *)
  net_closed : bool;             (* Conn.Close() was called *)
  net_Remote : gostr;
  net_Listener : gostr;
  net_Inline : bool;
}.

Record ClientState := mkClientState {
  st_TopicAliases : TopicAliases;
  st_stopCause : option error;
  st_Inflight : Inflight;
  st_Subscriptions : Subscriptions;
  st_disconnected : Z;
  st_outbound : list Packet;     (* the queued packets; the channel's capacity is an option *)
  st_ended : bool;               (* endOnce has run *)
  st_isTakenOver : bool;
  st_packetID : Z;
  st_open : bool;                (* the open context is not cancelled *)
  st_outboundQty : Z;
  st_Keepalive : Z;
  st_ServerKeepalive : bool;
}.

Record Client := mkClient {
  cl_Properties : ClientProperties;
  cl_State : ClientState;
  cl_Net : ClientConnection;
  cl_ID : gostr;
}.

(** ** The map of clients, by address *)

Abbreviation Clients := (gmap gostr nat).

Definition NewClients : Clients := ∅.
Definition Clients_Add (m : Clients) (id : gostr) (val : nat) : Clients := <[id := val]> m.
Definition Clients_GetAll (m : Clients) : Clients := m.
Definition Clients_Get (m : Clients) (id : gostr) : option nat := m !! id.
Definition Clients_Len (m : Clients) : Z := Z.of_nat (size m).
Definition Clients_Delete (m : Clients) (id : gostr) : Clients := delete id m.

(** ** Hooks whose result the code uses

    A hook is code of the embedding application: each method is a function of
    its arguments. The hooks that only observe are events of a
    trace (ClientIO.v). *)

Record Hooks := mkHooks {
  hk_OnPacketRead : Client -> Packet -> Packet * option error;
  hk_OnPacketEncode : Client -> Packet -> Packet;
  hk_OnConnect : Client -> Packet -> option error;
  hk_OnConnectAuthenticate : Client -> Packet -> bool;
  hk_OnACLCheck : Client -> gostr -> bool -> bool;
  hk_OnAuthPacket : Client -> Packet -> option error;
  hk_OnSubscribe : Client -> Packet -> Packet;
  hk_OnUnsubscribe : Client -> Packet -> Packet;
  hk_OnSelectSubscribers : Subscribers -> Packet -> Subscribers;
  hk_OnPublish : Client -> Packet -> Packet * option error;
  hk_OnWill : Client -> Will -> Will;
}.

(** Every packet passes unchanged; who may connect, and use a topic, is given. *)
Definition transparent_hooks (authenticate : Client -> bool) (acl : Client -> gostr -> bool -> bool) : Hooks := {|
  hk_OnPacketRead := fun _ pk => (pk, None);
  hk_OnPacketEncode := fun _ pk => pk;
  hk_OnConnect := fun _ _ => None;
  hk_OnConnectAuthenticate := fun cl _ => authenticate cl;
  hk_OnACLCheck := acl;
  hk_OnAuthPacket := fun _ _ => None;
  hk_OnSubscribe := fun _ pk => pk;
  hk_OnUnsubscribe := fun _ pk => pk;
  hk_OnSelectSubscribers := fun subs _ => subs;
  hk_OnPublish := fun _ pk => (pk, None);
  hk_OnWill := fun _ will => will;
|}.

(** What a handler runs in: the options, the hooks, the clock, what the network
    does with the bytes written to a connection (the number it accepts and the
    error), the package variable [IsFixedPacketInfo], and the next unique id. *)
Record Env := mkEnv {
  ev_Options : Options;
  ev_Hooks : Hooks;
  ev_now : Z;
  ev_conn_write : ClientConnection -> bytes -> nat * option error;
  ev_IsFixedPacketInfo : bool;
  ev_xid : gostr;
}.

Definition ev_Capabilities (e : Env) : Capabilities := op_Capabilities (ev_Options e).

(** ** State changes on parts of a client *)

Definition with_inflight (cl : Client) (i : Inflight) : Client :=
  cl <| cl_State ::= fun st => st <| st_Inflight := i |> |>.
Definition cl_Inflight (cl : Client) : Inflight := st_Inflight (cl_State cl).

Definition Client_Closed (cl : Client) : bool := negb (st_open (cl_State cl)).
Definition Client_StopCause (cl : Client) : option error := st_stopCause (cl_State cl).
Definition Client_StopTime (cl : Client) : Z := st_disconnected (cl_State cl).
Definition Client_IsTakenOver (cl : Client) : bool := st_isTakenOver (cl_State cl).

Section Options.
Context (o : Options).
Let caps := op_Capabilities o.

(** [newClient(c, ops)]; [c] is the remote address of the connection, or nil. *)
Definition newClient (c : option gostr) : Client := {|
  cl_Properties := mkClientProperties Properties0 Will0 [] defaultClientProtocolVersion false;
  cl_State := {|
    st_TopicAliases := NewTopicAliases (ca_TopicAliasMaximum caps);
    st_stopCause := None;
    st_Inflight := NewInflights;
    st_Subscriptions := NewSubscriptions;
    st_disconnected := 0;
    st_outbound := [];
    st_ended := false;
    st_isTakenOver := false;
    st_packetID := 0;
    st_open := true;
    st_outboundQty := 0;
    st_Keepalive := defaultKeepalive;
    st_ServerKeepalive := false;
  |};
  cl_Net := {|
    net_Conn := bool_decide (is_Some c); net_stream := []; net_written := []; net_outbuf := None;
    net_deadline := None; net_closed := false; net_Remote := default [] c; net_Listener := [];
    net_Inline := false;
  |};
  cl_ID := [];
|}.

(** The will of a connect packet; its delay is cut to the session expiry. *)
Definition connect_will (pk : Packet) : Will :=
  let c := pk_Connect pk in
  let wd := pr_WillDelayInterval (cp_WillProperties c) in
  {|
    wi_Qos := cp_WillQos c;
    wi_Retain := cp_WillRetain c;
    wi_Payload := cp_WillPayload c;
    wi_TopicName := cp_WillTopic c;
    wi_WillDelayInterval :=
      if pr_SessionExpiryIntervalFlag (pk_Properties pk) &&
         (pr_SessionExpiryInterval (pk_Properties pk) <? wd)
      then pr_SessionExpiryInterval (pk_Properties pk) else wd;
    wi_User := pr_User (cp_WillProperties c);
    wi_Flag := 1;
  |}.

Definition ParseConnect (xid : gostr) (cl : Client) (lid : gostr) (pk : Packet) : Client :=
  let c := pk_Connect pk in
  let props := Properties_Copy (pk_Properties pk) false in
  let props := if ca_MaximumInflight caps <? pr_ReceiveMaximum props
               then props <| pr_ReceiveMaximum := ca_MaximumInflight caps |> else props in
  let i := Inflight_ResetReceiveQuota (cl_Inflight cl) (ca_ReceiveMaximum caps) in
  let i := if 5 <=? pk_ProtocolVersion pk
           then Inflight_ResetSendQuota i (pr_ReceiveMaximum props)
           else Inflight_ResetSendQuota i (ca_ReceiveMaximum caps) in
  let anonymous := str_eqb (cp_ClientIdentifier c) [] in
  cl <| cl_Net ::= fun n => n <| net_Listener := lid |> |>
     <| cl_Properties ::= fun p =>
          p <| cp_ProtocolVersion := pk_ProtocolVersion pk |>
            <| cp_ClientUsername := cp_Username c |>
            <| cp_CleanSession := cp_Clean c |>
            <| cp_Props := if anonymous then props <| pr_AssignedClientID := xid |> else props |>
            <| cp_Will ::= fun w => if cp_WillFlag c then connect_will pk else w |> |>
     <| cl_State ::= fun st =>
          st <| st_Keepalive := cp_Keepalive c |>
             <| st_Inflight := i |>
             <| st_TopicAliases ::= fun a =>
                  a <| ta_Outbound := NewOutboundTopicAliases (pr_TopicAliasMaximum props) |> |> |>
     <| cl_ID := if anonymous then xid else cp_ClientIdentifier c |>.

(** [keepalive+(keepalive/2)], on 16 bits. *)
Definition deadline_seconds (keepalive : Z) : Z := to_u16 (keepalive + keepalive / 2).

Definition refreshDeadline (now : Z) (cl : Client) (keepalive : Z) : Client :=
  if net_Conn (cl_Net cl)
  then cl <| cl_Net ::= fun n =>
         n <| net_deadline := if 0 <? keepalive then Some (now + deadline_seconds keepalive) else None |> |>
  else cl.

(** ** Packet ids *)

(** The loop of [nextPacketID]: one round per call; two passes over the ids
    bound the rounds. *)
Fixpoint nextPacketID_loop (fuel : nat) (now max started : Z) (overflowed : bool) (i : Z) (m : Inflight)
    : result error (Z * Inflight) :=
  match fuel with
  | O => Diverge
  | S fuel' =>
      if overflowed && (i =? started) then Err (ECode ErrQuotaExceeded)
      else if ca_maximumPacketID caps <=? i then nextPacketID_loop fuel' now max started true 0 m
      else
        let i := to_u32 (i + 1) in
        match Inflight_TryReserve now m (to_u16 i) max with
        | (reserveOK, m) => Ok (i, m)
        | (reserveFull, m) => Err (ECode ErrQuotaExceeded)
        | (reserveIDTaken, m) => nextPacketID_loop fuel' now max started overflowed i m
        end
  end.

Definition nextPacketID (now : Z) (cl : Client) (max : Z) : result error (Z * Client) :=
  let i := st_packetID (cl_State cl) in
  '(i, m) ← nextPacketID_loop (Z.to_nat (2 * ca_maximumPacketID caps + 4)) now max i false i (cl_Inflight cl);
  Ok (i, cl <| cl_State ::= fun st => st <| st_Inflight := m |> <| st_packetID := i |> |>).

Definition NextPacketID (now : Z) (cl : Client) : result error (Z * Client) := nextPacketID now cl 0.
Definition NextPacketIDUnderCap (now : Z) (cl : Client) (max : Z) : result error (Z * Client) :=
  nextPacketID now cl max.
End Options.
