(* ===== verification/ClientIO.v ===== *)
(** * Reading and writing packets of a client (clients.go)

    The operations that go through the connection, and those on the in-flight
    messages that also change the statistics. They act on a [ClientView]: a
    client, the shared [system.Info], and the trace of the events that were
    reported to the hooks. *)
From S2P Require Import Prelude Codes Effects Codec FixedHeader Properties Packets Wire Topics Inflight System Clients.

(** The calls of hooks that only observe, with the client as it is at the time
    of the call, and of the handlers of inline subscriptions. *)
Inductive Event :=
| OnPacketSent (cl : Client) (pk : Packet) (b : bytes)
| OnPacketProcessed (cl : Client) (pk : Packet) (err : option error)
| OnSessionEstablish (cl : Client) (pk : Packet)
| OnSessionEstablished (cl : Client) (pk : Packet)
| OnDisconnect (cl : Client) (err : option error) (expire : bool)
| OnSubscribed (cl : Client) (pk : Packet) (reasonCodes : bytes)
| OnUnsubscribed (cl : Client) (pk : Packet)
| OnPublished (cl : Client) (pk : Packet)
| OnPublishDropped (cl : Client) (pk : Packet)
| OnRetainMessage (cl : Client) (pk : Packet) (r : Z)
| OnRetainPublished (cl : Client) (pk : Packet)
| OnQosPublish (cl : Client) (pk : Packet) (sent : Z) (resends : Z)
| OnQosComplete (cl : Client) (pk : Packet)
| OnQosDropped (cl : Client) (pk : Packet)
| OnPacketIDExhausted (cl : Client) (pk : Packet)
| OnWillSent (cl : Client) (pk : Packet)
| OnClientExpired (cl : Client)
| OnRetainedExpired (filter : gostr)
| OnSysInfoTick (sys : Info)
| InlineHandler (handler : Z) (sub : Subscription) (pk : Packet).

Record ClientView := mkClientView {
  cv_client : Client;
  cv_Info : Info;
  cv_events : list Event;
}.

Definition set_client (f : Client -> Client) : GoM ClientView unit :=
  modify (fun cv => cv <| cv_client ::= f |>).
Definition set_info (f : Info -> Info) : GoM ClientView unit :=
  modify (fun cv => cv <| cv_Info ::= f |>).
(** [cl.ops.hooks.OnX(cl, ...)] *)
Definition emit (ev : Client -> Event) : GoM ClientView unit :=
  modify (fun cv => cv <| cv_events ::= fun l => l ++ [ev (cv_client cv)] |>).
Definition get_client : GoM ClientView Client := fun cv => (Ok (cv_client cv), cv).

(** An operation on the client's in-flight messages. *)
Definition inflight {A} (op : Inflight -> A * Inflight) : GoM ClientView A := fun cv =>
  let '(a, i) := op (cl_Inflight (cv_client cv)) in
  (Ok a, cv <| cv_client ::= fun cl => with_inflight cl i |>).

Definition set_net (f : ClientConnection -> ClientConnection) : GoM ClientView unit :=
  set_client (fun cl => cl <| cl_Net ::= f |>).

(** [Stop(err)]: only the first call has an effect. *)
Definition Client_Stop (now : Z) (err : option error) (cl : Client) : Client :=
  if st_ended (cl_State cl) then cl
  else cl <| cl_Net ::= fun n => n <| net_closed := net_Conn n || net_closed n |> |>
          <| cl_State ::= fun st =>
               st <| st_ended := true |>
                  <| st_stopCause := match err with Some _ => err | None => st_stopCause st end |>
                  <| st_open := false |>
                  <| st_disconnected := now |> |>.

(** [GetByListener]: the clients of a listener that are not closed. *)
Definition Clients_GetByListener {RO : RangeOrder} (heap : gmap nat Client) (m : Clients) (id : gostr) : list nat :=
  List.filter (fun a => match heap !! a with
                   | Some cl => str_eqb (net_Listener (cl_Net cl)) id && negb (Client_Closed cl)
                   | None => false
                   end) (range m).*2.

Section Env.
Context (e : Env).
Let caps := ev_Capabilities e.

(** ** Reading *)

(** After an error the connection is not read again: what the failed read had
    consumed is left in the stream. *)
Definition ReadFixedHeader : GoM ClientView FixedHeader :=
  cl ← get_client;
  if negb (net_Conn (cl_Net cl)) then throw EConnectionClosed
  else
    '(fh, n, stream) ← call (read_fixed_header (ca_MaximumPacketSize caps) (net_stream (cl_Net cl)));
    set_net (fun net => net <| net_stream := stream |>);;
    set_info (fun i => i <| in_BytesReceived ::= add64 n |>);;
    mret fh.

Definition ReadPacket (fh : FixedHeader) : GoM ClientView Packet :=
  set_info (fun i => i <| in_PacketsReceived ::= add64 1 |>);;
  cl ← get_client;
  if negb (net_Conn (cl_Net cl)) then panic
  else
    let pk := Packet0 <| pk_ProtocolVersion := cp_ProtocolVersion (cl_Properties cl) |>
                      <| pk_FixedHeader := fh |> in
    '(px, stream) ← call (read_full (fh_Remaining fh) (net_stream (cl_Net cl)));
    set_net (fun net => net <| net_stream := stream |>);;
    set_info (fun i => i <| in_BytesReceived ::= add64 (Z.of_nat (length px)) |>);;
    pk ← call (decode_packet pk px);
    when (pk_Type pk =? Publish) (set_info (fun i => i <| in_MessagesReceived ::= add64 1 |>));;
    cl ← get_client;
    match hk_OnPacketRead (ev_Hooks e) cl pk with
    | (pk, None) => mret pk
    | (_, Some err) => throw err
    end.

(** ** Writing *)

(** [b.WriteTo(cl.Net.Conn)] on a [bytes.Buffer]: the number of bytes written,
    and the error; the buffer keeps the rest. *)
Definition write_to (b : bytes) : GoM ClientView (nat * option error) :=
  match b with
  | [] => mret (0%nat, None)
  | _ =>
      cl ← get_client;
      let '(m, err) := ev_conn_write e (cl_Net cl) b in
      if (length b <? m)%nat then panic
      else
        set_net (fun n => n <| net_written ::= fun w => w ++ take m b |>);;
        match err with
        | Some _ => mret (m, err)
        | None => mret (m, if (m =? length b)%nat then None else Some EShortWrite)
        end
  end.

Definition flushOutbuf : GoM ClientView unit :=
  cl ← get_client;
  match net_outbuf (cl_Net cl) with
  | None => mret tt
  | Some b =>
      '(m, err) ← write_to b;
      match err with
      | None => set_net (fun n => n <| net_outbuf := None |>)
      | Some err => set_net (fun n => n <| net_outbuf := Some (drop m b) |>);; throw err
      end
  end.

(** The locked part of [WritePacket]: to the connection, or behind the bytes
    that wait in [outbuf]. The result has what is left in the buffer: it is
    drained when it is written to the connection itself. *)
Definition write_buffer (buf : bytes) : GoM ClientView (Z * bytes) :=
  let direct :=
    '(m, err) ← write_to buf;
    match err with
    | None => mret (Z.of_nat m, drop m buf)
    | Some err => throw err
    end in
  let append b := set_net (fun n => n <| net_outbuf := Some (b ++ buf) |>) in
  let size := Z.of_nat (length buf) in
  cl ← get_client;
  if bool_decide (st_outbound (cl_State cl) = []) then
    match net_outbuf (cl_Net cl) with
    | None => direct
    | Some b => append b;; flushOutbuf;; mret (size, buf)
    end
  else if bool_decide (net_outbuf (cl_Net cl) = None) && (op_ClientNetWriteBufferSize (ev_Options e) <=? size) then direct
  else
    let b := default [] (net_outbuf (cl_Net cl)) in
    append b;;
    if Z.of_nat (length b) + size <? op_ClientNetWriteBufferSize (ev_Options e) then mret (size, buf)
    else flushOutbuf;; mret (size, buf).

(** The packet as it is encoded: its remaining expiry, the client's version
    and what its properties allow. *)
Definition outgoing (cl : Client) (pk : Packet) : Packet :=
  let props := cp_Props (cl_Properties cl) in
  let pk :=
    if 0 <? pk_Expiry pk
    then pk <| pk_Properties ::= fun p =>
           p <| pr_MessageExpiryInterval := to_u32 (Z.max (pk_Expiry pk - ev_now e) 1) |> |>
    else pk in
  pk <| pk_ProtocolVersion := cp_ProtocolVersion (cl_Properties cl) |>
     <| pk_Mods ::= fun m =>
          m <| mod_MaxSize ::= fun n => if n =? 0 then pr_MaximumPacketSize props else n |>
            <| mod_DisallowProblemInfo ::= fun b =>
                 b || (pr_RequestProblemInfoFlag props && (pr_RequestProblemInfo props =? 0)) |>
            <| mod_AllowResponseInfo ::= fun b =>
                 b || negb (pk_Type pk =? Connack) || (pr_RequestResponseInfo props =? 1) ||
                 co_AlwaysReturnResponseInfo (ca_Compatibilities caps) |> |>.

Definition WritePacket (pk : Packet) : GoM ClientView unit :=
  cl ← get_client;
  if Client_Closed cl then throw EConnectionClosed
  else if negb (net_Conn (cl_Net cl)) then mret tt
  else
    let pk := hk_OnPacketEncode (ev_Hooks e) cl (outgoing cl pk) in
    '(buf, pk) ← call (encode_packet pk);
    let max := mod_MaxSize (pk_Mods pk) in
    if (0 <? max) && (max <? to_u32 (Z.of_nat (length buf))) then throw (ECode ErrPacketTooLarge)
    else
      '(n, rest) ← write_buffer buf;
      set_info (fun i => i <| in_BytesSent ::= add64 n |> <| in_PacketsSent ::= add64 1 |>);;
      when (pk_Type pk =? Publish) (set_info (fun i => i <| in_MessagesSent ::= add64 1 |>));;
      emit (fun cl => OnPacketSent cl pk rest).

(** One round of [WriteLoop] that finds a packet in the queue. *)
Definition WriteLoop_round : GoM ClientView unit :=
  cl ← get_client;
  match st_outbound (cl_State cl) with
  | [] => mret tt
  | pk :: queue =>
      set_client (fun cl => cl <| cl_State ::= fun st => st <| st_outbound := queue |> |>);;
      ignore (WritePacket pk);;
      set_client (fun cl => cl <| cl_State ::= fun st => st <| st_outboundQty ::= fun n => to_i32 (n - 1) |> |>)
  end.

(** [outbound <- &out] of a [select] with a default: whether there was room. *)
Definition enqueue (out : Packet) : GoM ClientView bool :=
  cl ← get_client;
  if Z.of_nat (length (st_outbound (cl_State cl))) <? ca_MaximumClientWritesPending caps then
    set_client (fun cl => cl <| cl_State ::= fun st =>
      st <| st_outbound ::= fun q => q ++ [out] |> <| st_outboundQty ::= fun n => to_i32 (n + 1) |> |>);;
    mret true
  else mret false.

(** ** In-flight messages *)

Context {RO : RangeOrder}.

Definition count_inflight (n : Z) : GoM ClientView unit :=
  set_info (fun i => i <| in_Inflight ::= add64 n |>).

Definition is_sentinel (tk : Packet) : bool :=
  (pk_Expiry tk =? InflightExpiryDeferred) || (pk_Expiry tk =? InflightExpiryReserved).

Definition ResendInflightMessages (force : bool) : GoM ClientView unit :=
  cl ← get_client;
  if Inflight_Len (cl_Inflight cl) =? 0 then mret tt
  else for_each (Inflight_GetAll (cl_Inflight cl) false) (fun tk =>
    if is_sentinel tk then mret tt
    else
      let tk := if pk_Type tk =? Publish
                then tk <| pk_FixedHeader ::= fun fh => fh <| fh_Dup := true |> |> else tk in
      emit (fun cl => OnQosPublish cl tk (pk_Created tk) 0);;
      WritePacket tk;;
      when ((pk_Type tk =? Puback) || (pk_Type tk =? Pubcomp))
        (ok ← inflight (fun i => Inflight_Delete i (pk_PacketID tk));
         when ok (emit (fun cl => OnQosComplete cl tk);; count_inflight (-1)))).

Definition ClearInflights : GoM ClientView unit :=
  cl ← get_client;
  for_each (Inflight_GetAll (cl_Inflight cl) false) (fun tk =>
    ok ← inflight (fun i => Inflight_Delete i (pk_PacketID tk));
    when ok
      (emit (fun cl => OnQosDropped cl tk);;
       when (negb (pk_Expiry tk =? InflightExpiryReserved)) (count_inflight (-1)))).

Definition ResetInflights : GoM ClientView unit :=
  cl ← get_client;
  for_each (Inflight_GetAll (cl_Inflight cl) false) (fun tk =>
    inflight (fun i => Inflight_Delete i (pk_PacketID tk));;
    mret tt).

(** Expired by its own expiry, or kept longer than the server allows. *)
Definition inflight_expired (now maximumExpiry : Z) (tk : Packet) : bool :=
  ((pk_ProtocolVersion tk =? 5) && (0 <? pk_Expiry tk) && (pk_Expiry tk <? now)) ||
  ((0 <? maximumExpiry) && (0 <? pk_Created tk) && (maximumExpiry <? now - pk_Created tk)).

Fixpoint clear_expired (now maximumExpiry : Z) (l : list Packet) : GoM ClientView (list Z) :=
  match l with
  | [] => mret []
  | tk :: l =>
      if is_sentinel tk || negb (inflight_expired now maximumExpiry tk)
      then clear_expired now maximumExpiry l
      else
        ok ← inflight (fun i => Inflight_Delete i (pk_PacketID tk));
        if (ok : bool) then
          when (0 <? pk_Qos tk) (inflight Inflight_IncreaseSendQuota;; mret tt);;
          emit (fun cl => OnQosDropped cl tk);;
          count_inflight (-1);;
          deleted ← clear_expired now maximumExpiry l;
          mret (pk_PacketID tk :: deleted)
        else clear_expired now maximumExpiry l
  end.

Definition ClearExpiredInflights (now maximumExpiry : Z) : GoM ClientView (list Z) :=
  cl ← get_client;
  clear_expired now maximumExpiry (Inflight_GetAll (cl_Inflight cl) false).
End Env.
