(* ===== verification/ClientIOFacts.v ===== *)
(** * Facts on writing: the bytes of a connection

    What a client's peer will receive is what the connection accepted followed
    by what waits in [outbuf]. [WritePacket] appends exactly the encoding of
    its packet to it, and touches nothing else of the client. *)
From S2P Require Import Prelude Codes Effects Codec FixedHeader Properties Packets Wire Topics Inflight System Clients ClientIO.

(** The contract of [io.Writer] that the code relies on: no more bytes are
    reported written than were given. *)
Definition writer_ok (e : Env) : Prop :=
  forall n b, ((ev_conn_write e n b).1 <= length b)%nat.

Definition pipeline (n : ClientConnection) : bytes := net_written n ++ default [] (net_outbuf n).

(** [cv'] is [cv] with [b] appended to what the peer will receive. *)
Definition sent (cv cv' : ClientView) (b : bytes) : Prop :=
  exists w ob,
    cv' = cv <| cv_client ::= fun cl => cl <| cl_Net ::= fun n => n <| net_written := w |> <| net_outbuf := ob |> |> |> /\
    w ++ default [] ob = pipeline (cl_Net (cv_client cv)) ++ b.

(** [cv'] differs from [cv] in the counters of [system.Info] and in the bytes on their way. *)
Definition untouched (cv cv' : ClientView) : Prop :=
  exists w ob,
    cv_client cv' = (cv_client cv) <| cl_Net ::= fun n => n <| net_written := w |> <| net_outbuf := ob |> |> /\
    in_Inflight (cv_Info cv') = in_Inflight (cv_Info cv).

Lemma encode_packet_returns pk : returns (encode_packet pk).
Proof.
  unfold encode_packet, returns. split_ifs; eauto.
  all: unfold PublishEncode, SubscribeEncode, UnsubscribeEncode; split_ifs; mred; eauto.
Qed.

Lemma sent_refl cv : sent cv cv [].
Proof. eexists _, _. split; [done|]. by rewrite app_nil_r. Qed.

Lemma sent_pipeline cv cv' b :
  sent cv cv' b -> pipeline (cl_Net (cv_client cv')) = pipeline (cl_Net (cv_client cv)) ++ b.
Proof. by intros (w & ob & -> & H). Qed.

Lemma sent_trans cv1 cv2 cv3 b c : sent cv1 cv2 b -> sent cv2 cv3 c -> sent cv1 cv3 (b ++ c).
Proof.
  intros H1 (w & ob & -> & E). apply sent_pipeline in H1 as E1. destruct H1 as (w1 & ob1 & -> & _).
  exists w, ob. split; [done|]. rewrite E, E1. by rewrite (assoc_L (++)).
Qed.

Lemma sent_outbuf cv b ob :
  ob = default [] (net_outbuf (cl_Net (cv_client cv))) ++ b ->
  sent cv (cv <| cv_client ::= fun cl => cl <| cl_Net ::= fun n => n <| net_outbuf := Some ob |> |> |>) b.
Proof.
  intros ->. exists (net_written (cl_Net (cv_client cv))), (Some (default [] (net_outbuf (cl_Net (cv_client cv))) ++ b)).
  split; [done|]. apply (assoc_L (++)).
Qed.

Section Writing.
Context (e : Env) (Hw : writer_ok e).

(** [write_to] hands a prefix to the connection: all of it when there is no error. *)
Lemma write_to_spec b cv :
  wp (write_to e b) cv (fun r cv' => exists m err,
    r = inl (m, err) /\ (m <= length b)%nat /\ (err = None -> m = length b) /\
    cv' = cv <| cv_client ::= fun cl => cl <| cl_Net ::= fun n => n <| net_written ::= fun w => w ++ take m b |> |> |>).
Proof.
  destruct b as [|x b].
  - exists 0%nat, None. split_and!; [done|done|done|]. cbn. by rewrite app_nil_r.
  - unfold write_to. apply wp_bind. cbn [get_client wp].
    pose proof (Hw (cl_Net (cv_client cv)) (x :: b)) as Hm.
    destruct (ev_conn_write e (cl_Net (cv_client cv)) (x :: b)) as [m err]. cbn [fst] in Hm.
    rewrite (proj2 (Nat.ltb_ge _ _)) by done. apply wp_bind, wp_modify.
    destruct err as [err|]; apply wp_ret; eexists m, _; (split; [done|]); (split; [done|]); (split; [|done]); [done|].
    destruct (Nat.eqb_spec m (length (x :: b))); [done|done].
Qed.

(** Flushing moves bytes along and loses none, even when the connection fails. *)
Lemma flushOutbuf_spec cv :
  wp (flushOutbuf e) cv (fun r cv' =>
    sent cv cv' [] /\ (r = inl tt -> net_outbuf (cl_Net (cv_client cv')) = None)).
Proof.
  unfold flushOutbuf. apply wp_bind. cbn [get_client wp].
  destruct (net_outbuf (cl_Net (cv_client cv))) as [b|] eqn:Eb; [|apply wp_ret; split; [apply sent_refl|done]].
  apply wp_bind. eapply wp_mono; [apply write_to_spec|].
  intros r cv' (m & err & -> & Hm & Hall & ->). unfold pipeline.
  destruct err as [err|].
  - apply wp_bind, wp_modify, wp_throw. split; [|done].
    exists (net_written (cl_Net (cv_client cv)) ++ take m b), (Some (drop m b)). split; [reflexivity|].
    unfold pipeline. rewrite Eb, app_nil_r. cbn [default from_option id].
    rewrite <- (assoc_L (++)). f_equal. apply take_drop.
  - apply wp_modify. rewrite Hall, take_ge by done. split; [|done].
    exists (net_written (cl_Net (cv_client cv)) ++ b), None. split; [reflexivity|].
    unfold pipeline. by rewrite Eb, !app_nil_r.
Qed.

(** Some prefix of [b] was appended; all of it unless there was an error, and
    then [rest] is left in the buffer. *)
Definition appended (rest b : bytes) (cv : ClientView) (r : Z * bytes + error) (cv' : ClientView) : Prop :=
  match r with
  | inl n => n = (Z.of_nat (length b), rest) /\ sent cv cv' b
  | inr _ => exists k, sent cv cv' (take k b)
  end.

(** The packet goes to the connection itself: nothing waits in [outbuf], and
    either no packet waits in the queue or this one is too large to buffer. *)
Definition written_directly (cl : Client) (buf : bytes) : bool :=
  bool_decide (net_outbuf (cl_Net cl) = None) &&
  (bool_decide (st_outbound (cl_State cl) = []) || (op_ClientNetWriteBufferSize (ev_Options e) <=? Z.of_nat (length buf))).

Lemma direct_spec buf cv :
  net_outbuf (cl_Net (cv_client cv)) = None ->
  wp ('(m, err) ← write_to e buf;
      match err with None => mret (Z.of_nat m, drop m buf) | Some err => throw err end) cv (appended [] buf cv).
Proof.
  intros Ho. apply wp_bind. eapply wp_mono; [apply write_to_spec|].
  intros r cv' (m & err & -> & Hm & Hall & ->).
  assert (Hs : forall k, sent cv (cv <| cv_client ::= fun cl => cl <| cl_Net ::= fun n =>
                          n <| net_written ::= fun w => w ++ take k buf |> |> |>) (take k buf)).
  { intros k. exists (net_written (cl_Net (cv_client cv)) ++ take k buf), None. split; [by rewrite <- Ho|].
    unfold pipeline. rewrite Ho. cbn [default from_option]. by rewrite !app_nil_r. }
  destruct err as [err|].
  - apply wp_throw. exists m. apply Hs.
  - apply wp_ret. rewrite (Hall eq_refl), drop_all. split; [done|]. specialize (Hs (length buf)).
    by rewrite firstn_all in *.
Qed.

Lemma append_flush_spec (flush : bool) buf ob cv :
  ob = default [] (net_outbuf (cl_Net (cv_client cv))) ->
  wp (set_net (fun n => n <| net_outbuf := Some (ob ++ buf) |>);;
      (if flush then flushOutbuf e;; mret (Z.of_nat (length buf), buf) else mret (Z.of_nat (length buf), buf)))
    cv (appended buf buf cv).
Proof.
  intros ->. apply wp_bind, wp_modify.
  pose proof (sent_outbuf cv buf _ eq_refl) as Ha.
  destruct flush; [|by apply wp_ret].
  apply wp_bind. eapply wp_mono; [apply flushOutbuf_spec|].
  intros r cv' [Hs _]. pose proof (sent_trans _ _ _ _ _ Ha Hs) as H. rewrite app_nil_r in H.
  destruct r; [by apply wp_ret|]. exists (length buf). by rewrite firstn_all.
Qed.

Lemma write_buffer_spec buf cv :
  wp (write_buffer e buf) cv (appended (if written_directly (cv_client cv) buf then [] else buf) buf cv).
Proof.
  unfold write_buffer, written_directly. apply wp_bind. cbn [get_client wp].
  destruct (bool_decide (st_outbound (cl_State (cv_client cv)) = [])); cbn [orb].
  - destruct (net_outbuf (cl_Net (cv_client cv))) as [b|] eqn:Eb; [|by apply direct_spec].
    apply (append_flush_spec true). by rewrite Eb.
  - destruct (bool_decide (net_outbuf (cl_Net (cv_client cv)) = None) && _) eqn:Hd.
    { apply direct_spec. bool_to_prop. done. }
    destruct (_ <? _); [by apply (append_flush_spec false)|by apply (append_flush_spec true)].
Qed.
End Writing.

(** The packet is larger than the client accepts. *)
Definition oversized (pk : Packet) (buf : bytes) : bool :=
  (0 <? mod_MaxSize (pk_Mods pk)) && (mod_MaxSize (pk_Mods pk) <? to_u32 (Z.of_nat (length buf))).

(** [system.Info] after a packet of [n] bytes was sent. *)
Definition count_sent (pk : Packet) (n : nat) (i : Info) : Info :=
  let i := i <| in_BytesSent ::= add64 (Z.of_nat n) |> <| in_PacketsSent ::= add64 1 |> in
  if pk_Type pk =? Publish then i <| in_MessagesSent ::= add64 1 |> else i.

Definition write_outcome (e : Env) (pk : Packet) (cv : ClientView) (r : unit + error) (cv' : ClientView) : Prop :=
  let cl := cv_client cv in
  if Client_Closed cl then r = inr EConnectionClosed /\ cv' = cv
  else if negb (net_Conn (cl_Net cl)) then r = inl tt /\ cv' = cv
  else match encode_packet (hk_OnPacketEncode (ev_Hooks e) cl (outgoing e cl pk)) with
  | Ok (buf, pk') =>
      if oversized pk' buf then r = inr (ECode ErrPacketTooLarge) /\ cv' = cv
      else match r with
      | inl _ => exists cv1, sent cv cv1 buf /\
          cv' = cv1 <| cv_Info ::= count_sent pk' (length buf) |>
                    <| cv_events ::= fun l => l ++ [OnPacketSent (cv_client cv1) pk' (if written_directly e cl buf then [] else buf)] |>
      | inr _ => exists k, sent cv cv' (take k buf)
      end
  | Err err => r = inr err /\ cv' = cv
  | _ => False
  end.

Lemma WritePacket_outcome e pk cv : writer_ok e -> wp (WritePacket e pk) cv (write_outcome e pk cv).
Proof.
  intros Hw. unfold WritePacket, write_outcome. apply wp_bind. cbn [get_client wp].
  destruct (Client_Closed (cv_client cv)); [by apply wp_throw|].
  destruct (negb (net_Conn (cl_Net (cv_client cv)))); [by apply wp_ret|].
  set (pk1 := hk_OnPacketEncode _ _ _). pose proof (encode_packet_returns pk1) as Hr.
  apply wp_bind. unfold call, wp at 1.
  destruct (encode_packet pk1) as [[buf pk']|err| |]; [|done|by destruct Hr as [[? ?]|[? ?]]..].
  unfold oversized. destruct (_ && _); [by apply wp_throw|].
  apply wp_bind. eapply wp_mono; [by apply write_buffer_spec|].
  intros [[n rest]|err] cv1; [|done]. intros [[= -> ->] Hs]. apply wp_bind, wp_modify, wp_bind, wp_when; intros Ht.
  all: repeat apply wp_modify; exists cv1; split; [done|]; unfold count_sent; rewrite Ht.
  all: done.
Qed.

(** C32: [WritePacket] on an open connection appends exactly the encoding of
    the packet to the bytes its peer will receive, behind those still buffered,
    and counts it; on an error it appends a prefix of it, or nothing when the
    packet cannot be encoded or is larger than the client accepts. A closed
    client is an error, a client without a connection is not written to. The
    hooks are told of a packet that was sent, with its bytes when it went
    through the output buffer and with none when it was written to the
    connection directly, which drains the buffer it was encoded in. Whatever the
    network does, the call returns. *)
Theorem WritePacket_stream e pk cv :
  writer_ok e ->
  wp (WritePacket e pk) cv (fun r cv' =>
    write_outcome e pk cv r cv' /\
    match encode_packet (hk_OnPacketEncode (ev_Hooks e) (cv_client cv) (outgoing e (cv_client cv) pk)) with
    | Ok (buf, _) =>
        (r = inl tt -> net_Conn (cl_Net (cv_client cv)) = true ->
         pipeline (cl_Net (cv_client cv')) = pipeline (cl_Net (cv_client cv)) ++ buf) /\
        exists k, pipeline (cl_Net (cv_client cv')) = pipeline (cl_Net (cv_client cv)) ++ take k buf
    | _ => cv' = cv
    end).
Proof.
  intros Hw. eapply wp_mono; [by apply WritePacket_outcome|]. intros r cv' H. split; [done|].
  unfold write_outcome in H.
  assert (H0 : forall buf : bytes, exists k, pipeline (cl_Net (cv_client cv)) = pipeline (cl_Net (cv_client cv)) ++ take k buf)
    by (intros; exists 0%nat; by rewrite app_nil_r).
  destruct (encode_packet _) as [[buf pk']|err| |].
  - destruct (Client_Closed (cv_client cv)); [destruct H as [-> ->]; split; [done|auto]|].
    destruct (negb _) eqn:Hn; [destruct H as [-> ->]; split; [|auto]; intros _ Hc; rewrite Hc in Hn; done|].
    destruct (oversized pk' buf); [destruct H as [-> ->]; split; [done|auto]|].
    destruct r as [[]|err].
    + destruct H as (cv1 & Hs & ->). apply sent_pipeline in Hs. split; [done|].
      exists (length buf). by rewrite firstn_all.
    + destruct H as [k Hs]. apply sent_pipeline in Hs. split; [done|]. by exists k.
  - destruct (Client_Closed _); [|destruct (negb _)]; by destruct H.
  - destruct (Client_Closed _); [|destruct (negb _)]; by destruct H.
  - destruct (Client_Closed _); [|destruct (negb _)]; by destruct H.
Qed.

(** A network that accepts everything. *)
Definition reliable_env : Env :=
  mkEnv DefaultOptions (transparent_hooks (fun _ => true) (fun _ _ _ => true)) 100 (fun _ b => (length b, None)) true !"xid".

Lemma reliable_ok : writer_ok reliable_env.
Proof. intros n b. done. Qed.

Lemma WritePacket_stream_witness :
  let cv := mkClientView (newClient DefaultOptions (Some [])) Info0 [] in
  exists cv', WritePacket reliable_env (Packet0 <| pk_FixedHeader := FixedHeader0 <| fh_Type := Pingresp |> |>) cv = (Ok tt, cv') /\
    pipeline (cl_Net (cv_client cv')) = [208; 0].
Proof.
  intros cv.
  pose proof (WritePacket_stream reliable_env (Packet0 <| pk_FixedHeader := FixedHeader0 <| fh_Type := Pingresp |> |>)
    cv reliable_ok) as H.
  unfold wp in H. destruct (WritePacket _ _ cv) as [r cv'] eqn:E.
  assert (r = Ok tt) as -> by (apply (f_equal fst) in E; cbn [fst] in E; rewrite <- E; vm_compute; reflexivity).
  exists cv'. split; [done|]. destruct H as (_ & H & _). by apply H.
Defined.

(** Nothing is buffered: the packet is written directly, and the hook is told of
    it with no bytes, as the write has drained the buffer that held them. *)
Lemma direct_write_reports_nothing :
  let pk := Packet0 <| pk_FixedHeader := FixedHeader0 <| fh_Type := Pingresp |> |> in
  let cv' := (WritePacket reliable_env pk (mkClientView (newClient DefaultOptions (Some [])) Info0 [])).2 in
  net_written (cl_Net (cv_client cv')) = [208; 0] /\
  exists cl pk', cv_events cv' = [OnPacketSent cl pk' []].
Proof. vm_compute. split; [reflexivity|]. by eexists _, _. Qed.

(** The peer reads nothing else: writing changes no other part of the client. *)
Lemma sent_untouched cv cv' b : sent cv cv' b -> untouched cv cv'.
Proof. intros (w & ob & -> & _). by exists w, ob. Qed.

Lemma untouched_refl cv : untouched cv cv.
Proof. by eexists _, _. Qed.

Lemma WritePacket_untouched e pk cv : writer_ok e -> wp (WritePacket e pk) cv (fun _ => untouched cv).
Proof.
  intros Hw. eapply wp_mono; [by apply WritePacket_outcome|]. intros r cv' H. unfold write_outcome in H.
  destruct (Client_Closed _); [destruct H as [_ ->]; apply untouched_refl|].
  destruct (negb _); [destruct H as [_ ->]; apply untouched_refl|].
  destruct (encode_packet _) as [[buf pk']|err| |]; [|destruct H as [_ ->]; apply untouched_refl|done..].
  destruct (oversized _ _); [destruct H as [_ ->]; apply untouched_refl|].
  destruct r as [[]|err].
  - destruct H as (cv1 & (w & ob & -> & _) & ->). exists w, ob. split; [done|].
    unfold count_sent. by destruct (_ =? _).
  - destruct H as [k Hs]. by apply sent_untouched in Hs.
Qed.
