(* ===== verification/ClientFacts.v ===== *)
(** * Facts on clients: packet ids, deadlines, in-flight cleanup, shutdown *)
From S2P Require Import Prelude Codes Effects Codec FixedHeader Properties Packets Wire Topics Inflight InflightFacts System Clients ClientIO.

(** ** Packet ids *)

Section PacketIds.
Context (o : Options) (now max : Z) (m : Inflight) (started : Z).
Let M := ca_maximumPacketID (op_Capabilities o).

Definition id_taken (id : Z) : Prop := is_Some (if_internal m !! id).

(** Whether [Inflight] may hold one more entry under the cap [max]; 0 means no cap. *)
Definition has_room : Prop := max <= 0 \/ Inflight_Len m < max.

(** [id] is the first free id after [started], going round at [M]. *)
Definition next_free (id : Z) : Prop :=
  1 <= id <= M /\ if_internal m !! id = None /\
  ((started < id /\ forall j, started < j < id -> id_taken j) \/
   (id <= started /\ (forall j, started < j <= M -> id_taken j) /\ forall j, 1 <= j < id -> id_taken j)).

(** The ids the loop has tried when it stands at [i]. *)
Definition tried (overflowed : bool) (i : Z) : Prop :=
  if overflowed
  then 0 <= i <= started /\ (forall j, started < j <= M -> id_taken j) /\ (forall j, 1 <= j <= i -> id_taken j)
  else started <= i <= M /\ (forall j, started < j <= i -> id_taken j).

Definition id_result (r : result error (Z * Inflight)) : Prop :=
  match r with
  | Ok (id, m') => has_room /\ next_free id /\ m' = m <| if_internal ::= <[id := reservation now id]> |>
  | Err err => err = ECode ErrQuotaExceeded /\ (~ has_room \/ forall j, 1 <= j <= M -> id_taken j)
  | _ => False
  end.

(** The rounds left, counting the one that goes back to 0. *)
Definition rounds (overflowed : bool) (i : Z) : Z :=
  if overflowed then started - i + 1 else M - i + started + 2.

Lemma tried_step overflowed i :
  tried overflowed i -> i < M -> ~ (overflowed = true /\ i = started) -> id_taken (i + 1) ->
  tried overflowed (i + 1).
Proof.
  intros Ht Hi Hns Htaken. destruct overflowed; cbn in *.
  - destruct Ht as (Hb & Hhi & Hlo).
    assert (i <> started) by (intros ->; auto).
    split_and!; [lia|lia|done|].
    intros j Hj. destruct (decide (j = i + 1)) as [->|]; [done|]. apply Hlo. lia.
  - destruct Ht as (Hb & Hlo). split; [lia|].
    intros j Hj. destruct (decide (j = i + 1)) as [->|]; [done|]. apply Hlo. lia.
Qed.

Lemma tried_next_free overflowed i :
  tried overflowed i -> 0 <= started -> i < M -> ~ (overflowed = true /\ i = started) ->
  if_internal m !! (i + 1) = None -> next_free (i + 1).
Proof.
  intros Ht H0 Hi Hns Hfree. unfold next_free. destruct overflowed; cbn in *.
  - destruct Ht as (Hb & Hhi & Hlo). assert (i <> started) by (intros ->; auto).
    split_and!; [lia|lia|done|]. right. split_and!; [lia|done|]. intros j Hj. apply Hlo. lia.
  - destruct Ht as (Hb & Hlo). split_and!; [lia|lia|done|].
    left. split; [lia|]. intros j Hj. apply Hlo. lia.
Qed.

Lemma nextPacketID_loop_spec fuel overflowed i :
  0 <= started <= M -> M < 65536 -> tried overflowed i -> rounds overflowed i <= Z.of_nat fuel ->
  id_result (nextPacketID_loop o fuel now max started overflowed i m).
Proof.
  intros Hs HM. induction fuel as [|fuel IH] in overflowed, i |- *; intros Ht Hr.
  { destruct overflowed; cbn in Ht, Hr; lia. }
  cbn [nextPacketID_loop]. fold M.
  assert (0 <= i) by (destruct overflowed; cbn in Ht; lia).
  destruct (overflowed && (i =? started)) eqn:Hstop.
  { bool_to_prop. subst. destruct Ht as (_ & Hhi & Hlo). split; [done|]. right.
    intros j Hj. destruct (decide (j <= started)); [apply Hlo | apply Hhi]; lia. }
  assert (Hns : ~ (overflowed = true /\ i = started)).
  { intros [-> ->]. rewrite Z.eqb_refl in Hstop. done. }
  destruct (M <=? i) eqn:Hmax; bool_to_prop.
  { destruct overflowed; cbn in Ht; [exfalso; destruct Ht; apply Hns; split; [done|lia]|].
    apply IH; cbn in *; [|lia]. destruct Ht as (Hb & Hlo).
    split_and!; [lia|lia| |lia]. intros j Hj. apply Hlo. lia. }
  assert (Hi : to_u32 (i + 1) = i + 1) by (apply to_u32_id; unfold is_u32; lia).
  rewrite Hi, (to_u16_id (i + 1)) by (unfold is_u16; lia).
  unfold Inflight_TryReserve.
  destruct ((0 <? max) && (max <=? Inflight_Len m)) eqn:Hfull; bool_to_prop.
  { split; [done|]. left. unfold has_room. lia. }
  assert (has_room).
  { unfold has_room. apply andb_false_iff in Hfull as [?|?]; bool_to_prop; lia. }
  destruct (if_internal m !! (i + 1)) eqn:Hid.
  - apply IH.
    + apply tried_step; auto. unfold id_taken. by rewrite Hid.
    + destruct overflowed; cbn in *; lia.
  - split; [done|]. split; [by eapply tried_next_free; eauto; lia|done].
Qed.
End PacketIds.

Lemma nextPacketID_outcome o now cl max :
  0 <= st_packetID (cl_State cl) <= ca_maximumPacketID (op_Capabilities o) ->
  ca_maximumPacketID (op_Capabilities o) < 65536 ->
  match nextPacketID o now cl max with
  | Ok (id, cl') =>
      has_room max (cl_Inflight cl) /\ next_free o (cl_Inflight cl) (st_packetID (cl_State cl)) id /\
      cl' = cl <| cl_State ::= fun st => st
        <| st_Inflight := (cl_Inflight cl) <| if_internal ::= <[id := reservation now id]> |> |> <| st_packetID := id |> |>
  | Err err =>
      err = ECode ErrQuotaExceeded /\
      (~ has_room max (cl_Inflight cl) \/
       forall j, 1 <= j <= ca_maximumPacketID (op_Capabilities o) -> id_taken (cl_Inflight cl) j)
  | _ => False
  end.
Proof.
  intros Hs HM. unfold nextPacketID.
  pose proof (nextPacketID_loop_spec o now max (cl_Inflight cl) (st_packetID (cl_State cl))
    (Z.to_nat (2 * ca_maximumPacketID (op_Capabilities o) + 4)) false (st_packetID (cl_State cl)) Hs HM) as H.
  assert (Ht : tried o (cl_Inflight cl) (st_packetID (cl_State cl)) false (st_packetID (cl_State cl)))
    by (split; [lia|intros; lia]).
  specialize (H Ht ltac:(cbn; lia)).
  destruct (nextPacketID_loop _ _ _ _ _ _ _ _) as [[id m']|err| |]; mred; [|done|done|done].
  destruct H as (Hroom & Hfree & ->). done.
Qed.

(** C33: A client is given the first packet id after its last one, going round
    at the maximum, that no in-flight message uses; the id is reserved in the
    in-flight map and remembered. The only error is [ErrQuotaExceeded], and only
    when the in-flight map has reached the cap or every id is in use; the search
    always ends. *)
Theorem nextPacketID_spec o now cl max :
  0 <= st_packetID (cl_State cl) <= ca_maximumPacketID (op_Capabilities o) ->
  ca_maximumPacketID (op_Capabilities o) < 65536 ->
  match nextPacketID o now cl max with
  | Ok (id, cl') =>
      has_room max (cl_Inflight cl) /\ next_free o (cl_Inflight cl) (st_packetID (cl_State cl)) id /\
      if_internal (cl_Inflight cl') = <[id := reservation now id]> (if_internal (cl_Inflight cl)) /\
      st_packetID (cl_State cl') = id
  | Err err =>
      err = ECode ErrQuotaExceeded /\
      (~ has_room max (cl_Inflight cl) \/
       forall j, 1 <= j <= ca_maximumPacketID (op_Capabilities o) -> id_taken (cl_Inflight cl) j)
  | _ => False
  end.
Proof.
  intros Hs HM. pose proof (nextPacketID_outcome o now cl max Hs HM) as H.
  destruct (nextPacketID _ _ _ _) as [[id cl']|err| |]; [|done|done|done].
  by destruct H as (Hroom & Hfree & ->).
Qed.

Lemma nextPacketID_spec_witness :
  exists id cl', nextPacketID DefaultOptions 7 (newClient DefaultOptions None) 0 = Ok (id, cl') /\
    next_free DefaultOptions NewInflights 0 id /\ st_packetID (cl_State cl') = id.
Proof.
  pose proof (nextPacketID_spec DefaultOptions 7 (newClient DefaultOptions None) 0
    ltac:(vm_compute; split; discriminate) ltac:(vm_compute; reflexivity)) as H.
  destruct (nextPacketID _ _ _ _) as [[id cl']|err| |]; [|exfalso..].
  - exists id, cl'. destruct H as (_ & ? & _ & ?). done.
  - destruct H as [_ [H|H]]; [apply H; left; done|].
    destruct (H 1 ltac:(vm_compute; split; discriminate)) as [? Hx]. vm_compute in Hx. discriminate.
  - done.
  - done.
Defined.

(** ** Deadlines *)

(** The read deadline is one and a half times the keepalive for every
    keepalive up to 43690 seconds; above that the 16-bit sum wraps around and
    the deadline is 65536 seconds too early. *)
Theorem deadline_exact keepalive :
  is_u16 keepalive ->
  deadline_seconds keepalive =
    if keepalive <=? 43690 then keepalive + keepalive / 2 else keepalive + keepalive / 2 - 65536.
Proof.
  unfold is_u16, deadline_seconds, to_u16. intros H.
  pose proof (Z.div_mod keepalive 2 ltac:(lia)). pose proof (Z.mod_pos_bound keepalive 2 ltac:(lia)).
  destruct (Z.leb_spec keepalive 43690).
  - apply Z.mod_small. lia.
  - symmetry. apply (Z.mod_unique _ _ 1); lia.
Qed.

Lemma deadline_exact_witness :
  deadline_seconds 60 = 90 /\ deadline_seconds 43691 = 0.
Proof. split; apply deadline_exact; vm_compute; split; [discriminate|done|discriminate|done]. Defined.

(** ** Clearing in-flight messages *)

Lemma to_i64_id z : is_i64 z -> to_i64 z = z.
Proof. unfold is_i64, to_i64. intros H. rewrite Z.mod_small by lia. lia. Qed.

(** The entries counted by the [Inflight] gauge: reservations never are. *)
Definition counted (tk : Packet) : bool := negb (pk_Expiry tk =? InflightExpiryReserved).
Definition count {A} (f : A -> bool) (l : list A) : Z := Z.of_nat (length (List.filter f l)).

Lemma count_cons {A} (f : A -> bool) x l : count f (x :: l) = (if f x then 1 else 0) + count f l.
Proof. unfold count. cbn. destruct (f x); cbn [length]; lia. Qed.

Lemma count_nonneg {A} (f : A -> bool) l : 0 <= count f l.
Proof. unfold count. lia. Qed.

Lemma count_perm {A} (f : A -> bool) l k : l ≡ₚ k -> count f l = count f k.
Proof. induction 1; rewrite ?count_cons in *; [done|lia|lia|lia]. Qed.

Section Clearing.
Context {RO : RangeOrder}.

(** The entries of [l] are in the map of [i], each at its own id. *)
Definition listed (i : Inflight) (l : list Packet) : Prop :=
  NoDup (pk_PacketID <$> l) /\ forall tk, tk ∈ l -> if_internal i !! pk_PacketID tk = Some tk.

Lemma GetAll_all i : Inflight_GetAll i false ≡ₚ (map_to_list (if_internal i)).*2.
Proof.
  rewrite GetAll_perm. generalize (map_to_list (if_internal i)).*2 as k.
  induction k as [|x k IH]; cbn; [done|by rewrite IH].
Qed.

Lemma GetAll_listed i : inflight_ok i -> listed i (Inflight_GetAll i false).
Proof.
  intros Hi. pose proof (GetAll_all i) as Hp.
  assert (Hid : forall k v, (k, v) ∈ map_to_list (if_internal i) -> pk_PacketID v = k).
  { intros k v H%elem_of_map_to_list. by apply (io_ids i Hi). }
  split.
  - rewrite Hp, <- list_fmap_compose.
    rewrite (list_fmap_ext (pk_PacketID ∘ snd) fst); [apply NoDup_fst_map_to_list|].
    intros n [k v] H%list_elem_of_lookup_2. by apply Hid.
  - intros tk. rewrite Hp, list_elem_of_fmap. intros ([k v] & -> & H). cbn.
    rewrite (Hid k v H). by apply elem_of_map_to_list.
Qed.

Lemma listed_tail i tk l :
  listed i (tk :: l) ->
  if_internal i !! pk_PacketID tk = Some tk /\ listed (Inflight_Delete i (pk_PacketID tk)).2 l.
Proof.
  intros [Hnd Hin]. cbn in Hnd. apply NoDup_cons in Hnd as [Hni Hnd]. split; [apply Hin; set_solver|].
  split; [done|]. intros x Hx. cbn.
  rewrite lookup_delete_ne; [apply Hin; set_solver|].
  intros E. apply Hni, list_elem_of_fmap. by exists x.
Qed.

Lemma inflight_run {A} (op : Inflight -> A * Inflight) cv :
  inflight op cv =
    (Ok (op (cl_Inflight (cv_client cv))).1,
     cv <| cv_client ::= fun cl => with_inflight cl (op (cl_Inflight (cv_client cv))).2 |>).
Proof. unfold inflight. by destruct (op _). Qed.

Definition clear_body (tk : Packet) : GoM ClientView unit :=
  ok ← inflight (fun i => Inflight_Delete i (pk_PacketID tk));
  when ok
    (emit (fun cl => OnQosDropped cl tk);;
     when (negb (pk_Expiry tk =? InflightExpiryReserved)) (count_inflight (-1))).

(** One turn of the loop deletes the entry and counts it off. *)
Lemma clear_body_run tk cv :
  if_internal (cl_Inflight (cv_client cv)) !! pk_PacketID tk = Some tk ->
  clear_body tk cv =
    (Ok tt, cv <| cv_client ::= fun cl => with_inflight cl (Inflight_Delete (cl_Inflight cl) (pk_PacketID tk)).2 |>
               <| cv_Info ::= fun n => if counted tk then n <| in_Inflight ::= add64 (-1) |> else n |>
               <| cv_events ::= fun l => l ++ [OnQosDropped (with_inflight (cv_client cv) (Inflight_Delete (cl_Inflight (cv_client cv)) (pk_PacketID tk)).2) tk] |>).
Proof.
  intros H. unfold clear_body, mbind, GoM_bind, inflight, Inflight_Delete.
  rewrite bool_decide_eq_true_2 by (by rewrite H). cbn [when].
  fold (counted tk). by destruct (counted tk).
Qed.

Lemma clear_loop l cv :
  listed (cl_Inflight (cv_client cv)) l ->
  is_i64 (in_Inflight (cv_Info cv)) -> is_i64 (in_Inflight (cv_Info cv) - count counted l) ->
  exists cv', for_each l clear_body cv = (Ok tt, cv') /\
    in_Inflight (cv_Info cv') = in_Inflight (cv_Info cv) - count counted l /\
    (exists i, cv_client cv' = with_inflight (cv_client cv) i /\
       if_sendQuota i = if_sendQuota (cl_Inflight (cv_client cv)) /\
       forall id, if_internal i !! id =
         if decide (id ∈ (pk_PacketID <$> l)) then None else if_internal (cl_Inflight (cv_client cv)) !! id).
Proof.
  induction l as [|tk l IH] in cv |- *; intros Hl Hg Hg'.
  - exists cv. split_and!; [done|unfold count; cbn; lia|]. by eexists.
  - apply listed_tail in Hl as [Htk Hl].
    set (cv1 := (clear_body tk cv).2).
    assert (E1 : clear_body tk cv = (Ok tt, cv1)) by (unfold cv1; by rewrite clear_body_run).
    assert (Hinfo : in_Inflight (cv_Info cv1) = in_Inflight (cv_Info cv) - (if counted tk then 1 else 0)).
    { unfold cv1. rewrite clear_body_run by done. rewrite count_cons in Hg'. pose proof (count_nonneg counted l).
      change (in_Inflight (if counted tk then (cv_Info cv) <| in_Inflight ::= add64 (-1) |> else cv_Info cv) =
        in_Inflight (cv_Info cv) - (if counted tk then 1 else 0)).
      destruct (counted tk); [|lia]. change (to_i64 (in_Inflight (cv_Info cv) + -1) = in_Inflight (cv_Info cv) - 1).
      rewrite to_i64_id; [lia|]. unfold is_i64 in *. lia. }
    assert (Hcl : cv_client cv1 = with_inflight (cv_client cv) (Inflight_Delete (cl_Inflight (cv_client cv)) (pk_PacketID tk)).2)
      by (unfold cv1; by rewrite clear_body_run).
    rewrite count_cons in *. pose proof (count_nonneg counted l).
    destruct (IH cv1) as (cv' & E & HI & i & Hi & Hq & Hm).
    + by rewrite Hcl.
    + rewrite Hinfo. unfold is_i64 in *. destruct (counted tk); lia.
    + rewrite Hinfo. unfold is_i64 in *. destruct (counted tk); lia.
    + exists cv'. split; [cbn [for_each]; unfold mbind, GoM_bind; by rewrite E1|].
      split; [rewrite HI, Hinfo; lia|]. exists i. rewrite Hcl in *. split_and!; [done|done|].
      intros id. rewrite (Hm id), fmap_cons.
      destruct (decide (id ∈ pk_PacketID <$> l)) as [Hin|Hni].
      * rewrite decide_True; [done|by right].
      * rewrite (decide_ext _ (id = pk_PacketID tk)) by (rewrite elem_of_cons; tauto).
        case_decide as Hd; [by subst; apply lookup_delete_eq|by apply lookup_delete_ne, not_eq_sym].
Qed.

(** [ClearInflights] empties the in-flight map and takes from the
    [Inflight] gauge exactly the entries that were counted in it: the id
    reservations are not. It changes no quota. *)
Theorem ClearInflights_exact cv :
  inflight_ok (cl_Inflight (cv_client cv)) ->
  is_i64 (in_Inflight (cv_Info cv)) ->
  is_i64 (in_Inflight (cv_Info cv) - count counted (map_to_list (if_internal (cl_Inflight (cv_client cv)))).*2) ->
  exists cv' i, ClearInflights cv = (Ok tt, cv') /\
    cv_client cv' = with_inflight (cv_client cv) i /\
    if_internal i = ∅ /\ if_sendQuota i = if_sendQuota (cl_Inflight (cv_client cv)) /\
    in_Inflight (cv_Info cv') =
      in_Inflight (cv_Info cv) - count counted (map_to_list (if_internal (cl_Inflight (cv_client cv)))).*2.
Proof.
  intros Hok Hg Hg'. pose proof (GetAll_all (cl_Inflight (cv_client cv))) as Hp.
  rewrite <- (count_perm _ _ _ Hp) in *.
  destruct (clear_loop _ cv (GetAll_listed _ Hok) Hg Hg') as (cv' & E & HI & i & Hi & Hq & Hm).
  exists cv', i. split_and!; [exact E|done| |done|done].
  apply map_empty. intros id. rewrite Hm. case_decide as Hd; [done|].
  apply eq_None_not_Some. intros [pk Hpk]. apply Hd.
  destruct (io_ids _ Hok id pk Hpk) as [<- _]. apply list_elem_of_fmap. exists pk. split; [done|].
  rewrite Hp. apply list_elem_of_fmap. exists (pk_PacketID pk, pk). split; [done|]. by apply elem_of_map_to_list.
Qed.
End Clearing.

Definition inflight_view : ClientView :=
  let cl := newClient DefaultOptions None in
  mkClientView (with_inflight cl inflight_sample) (Info0 <| in_Inflight := 9 |>) [].

Lemma ClearInflights_exact_witness :
  exists cv' i, ClearInflights inflight_view = (Ok tt, cv') /\
    cv_client cv' = with_inflight (cv_client inflight_view) i /\ if_internal i = ∅.
Proof.
  destruct (ClearInflights_exact inflight_view) as (cv' & i & H1 & H2 & H3 & _).
  - exact inflight_sample_ok.
  - vm_compute. split; [discriminate|reflexivity].
  - vm_compute. split; [discriminate|reflexivity].
  - by exists cv', i.
Defined.

(** ** Expiring in-flight messages *)

Definition expires (now maximumExpiry : Z) (tk : Packet) : bool :=
  negb (is_sentinel tk) && inflight_expired now maximumExpiry tk.

Lemma IncreaseSendQuota_sum i :
  inflight_ok i ->
  if_internal (Inflight_IncreaseSendQuota i).2 = if_internal i /\
  if_maximumSendQuota (Inflight_IncreaseSendQuota i).2 = if_maximumSendQuota i /\
  if_sendQuota (Inflight_IncreaseSendQuota i).2 = Z.min (if_maximumSendQuota i) (if_sendQuota i + 1).
Proof.
  intros Hi. pose proof (io_send i Hi). pose proof (io_max_send i Hi) as Hm. unfold is_quota in Hm.
  unfold Inflight_IncreaseSendQuota. destruct (Z.leb_spec (if_maximumSendQuota i) (if_sendQuota i)).
  - split_and!; [done|done|]. cbn [snd]. lia.
  - split_and!; [done|done|]. change (to_i32 (if_sendQuota i + 1) = Z.min (if_maximumSendQuota i) (if_sendQuota i + 1)).
    rewrite to_i32_id; lia.
Qed.

(** The in-flight map after an expired entry was removed. *)
Definition expire_one (tk : Packet) (i : Inflight) : Inflight :=
  let i := (Inflight_Delete i (pk_PacketID tk)).2 in
  if 0 <? pk_Qos tk then (Inflight_IncreaseSendQuota i).2 else i.

Lemma expire_one_spec tk i :
  inflight_ok i ->
  inflight_ok (expire_one tk i) /\
  if_internal (expire_one tk i) = delete (pk_PacketID tk) (if_internal i) /\
  if_maximumSendQuota (expire_one tk i) = if_maximumSendQuota i /\
  if_sendQuota (expire_one tk i) =
    if 0 <? pk_Qos tk then Z.min (if_maximumSendQuota i) (if_sendQuota i + 1) else if_sendQuota i.
Proof.
  intros Hi. assert (Hd : inflight_ok (Inflight_Delete i (pk_PacketID tk)).2)
    by exact (apply_op_ok i (OpDelete (pk_PacketID tk)) Hi I).
  unfold expire_one. destruct (0 <? pk_Qos tk); [|done].
  destruct (IncreaseSendQuota_sum _ Hd) as (H1 & H2 & H3).
  split; [exact (apply_op_ok _ OpIncreaseSendQuota Hd I)|]. by rewrite H1, H2, H3.
Qed.

Lemma clear_expired_step now mx tk l cv :
  if_internal (cl_Inflight (cv_client cv)) !! pk_PacketID tk = Some tk ->
  clear_expired now mx (tk :: l) cv =
    if expires now mx tk then
      (deleted ← clear_expired now mx l; mret (pk_PacketID tk :: deleted))
        (cv <| cv_client ::= fun cl => with_inflight cl (expire_one tk (cl_Inflight cl)) |>
            <| cv_Info ::= fun n => n <| in_Inflight ::= add64 (-1) |> |>
            <| cv_events ::= fun l => l ++ [OnQosDropped (with_inflight (cv_client cv) (expire_one tk (cl_Inflight (cv_client cv)))) tk] |>)
    else clear_expired now mx l cv.
Proof.
  intros H. cbn [clear_expired]. unfold expires.
  destruct (is_sentinel tk), (inflight_expired now mx tk); cbn [negb orb andb]; try done.
  unfold mbind at 1, GoM_bind at 1, inflight at 1, Inflight_Delete at 1.
  rewrite bool_decide_eq_true_2 by (by rewrite H). unfold expire_one.
  destruct (0 <? pk_Qos tk); [|done].
  unfold when, mbind at 1, GoM_bind at 1, mbind at 1, GoM_bind at 1. by rewrite inflight_run.
Qed.

Lemma clear_expired_spec now mx l cv :
  inflight_ok (cl_Inflight (cv_client cv)) -> listed (cl_Inflight (cv_client cv)) l ->
  let dead := List.filter (expires now mx) l in
  exists cv' i, clear_expired now mx l cv = (Ok (pk_PacketID <$> dead), cv') /\
    cv_client cv' = with_inflight (cv_client cv) i /\
    (forall id, if_internal i !! id =
       if decide (id ∈ (pk_PacketID <$> dead)) then None else if_internal (cl_Inflight (cv_client cv)) !! id) /\
    if_sendQuota i = Z.min (if_maximumSendQuota (cl_Inflight (cv_client cv)))
      (if_sendQuota (cl_Inflight (cv_client cv)) + count (fun tk => 0 <? pk_Qos tk) dead).
Proof.
  induction l as [|tk l IH] in cv |- *; intros Hok Hl dead.
  - exists cv, (cl_Inflight (cv_client cv)). split_and!; [done|done|done|]. subst dead. cbn.
    pose proof (io_send _ Hok). unfold count. cbn [List.filter length]. lia.
  - destruct Hl as [Hnd Hin]. assert (Hlt := listed_tail _ _ _ (conj Hnd Hin)). destruct Hlt as [Htk Hl].
    subst dead. rewrite (clear_expired_step now mx tk l cv Htk). cbn [List.filter].
    destruct (expires now mx tk).
    + set (cv1 := cv <| cv_client ::= _ |> <| cv_Info ::= _ |> <| cv_events ::= _ |>).
      destruct (expire_one_spec tk (cl_Inflight (cv_client cv)) Hok) as (Hok1 & Hm1 & Hx1 & Hs1).
      destruct (IH cv1 Hok1) as (cv' & i & E & Hc & Hm & Hs).
      { split; [by destruct Hl|]. intros x Hx. destruct Hl as [_ Hl].
        change (if_internal (expire_one tk (cl_Inflight (cv_client cv))) !! pk_PacketID x = Some x).
        rewrite Hm1. exact (Hl x Hx). }
      exists cv', i. split; [unfold mbind, GoM_bind; by rewrite E|]. split; [by rewrite Hc|].
      change (cl_Inflight (cv_client cv1)) with (expire_one tk (cl_Inflight (cv_client cv))) in *.
      split.
      * intros id. rewrite Hm, Hm1, fmap_cons. case_decide as Hd.
        -- rewrite decide_True; [done|by right].
        -- rewrite (decide_ext _ (id = pk_PacketID tk)) by (rewrite elem_of_cons; tauto).
           case_decide as Hd'; [by subst; apply lookup_delete_eq|by apply lookup_delete_ne, not_eq_sym].
      * rewrite Hs, Hs1, Hx1, count_cons. pose proof (io_send _ Hok). pose proof (count_nonneg (fun tk => 0 <? pk_Qos tk) (List.filter (expires now mx) l)).
        destruct (0 <? pk_Qos tk); lia.
    + apply IH; [done|]. split; [by apply NoDup_cons in Hnd as [_ ?]|]. intros x Hx. apply Hin. by right.
Qed.

(** C38: [ClearExpiredInflights] removes exactly the messages that have
    expired (never one that is parked or only reserved), reports their ids, and
    gives back one unit of send quota for each that was sent with a qos, never
    going above the maximum. *)
Theorem ClearExpiredInflights_exact `{RO : RangeOrder} now mx cv :
  inflight_ok (cl_Inflight (cv_client cv)) ->
  exists cv' i dead, ClearExpiredInflights now mx cv = (Ok (pk_PacketID <$> dead), cv') /\
    cv_client cv' = with_inflight (cv_client cv) i /\
    (forall tk, tk ∈ dead <-> if_internal (cl_Inflight (cv_client cv)) !! pk_PacketID tk = Some tk /\ expires now mx tk = true) /\
    (forall id tk, if_internal i !! id = Some tk <->
       if_internal (cl_Inflight (cv_client cv)) !! id = Some tk /\ expires now mx tk = false) /\
    if_sendQuota i = Z.min (if_maximumSendQuota (cl_Inflight (cv_client cv)))
      (if_sendQuota (cl_Inflight (cv_client cv)) + count (fun tk => 0 <? pk_Qos tk) dead).
Proof.
  intros Hok. set (m := cl_Inflight (cv_client cv)) in *. pose proof (GetAll_listed m Hok) as Hl.
  destruct (clear_expired_spec now mx (Inflight_GetAll m false) cv Hok Hl) as (cv' & i & E & Hc & Hm & Hs).
  set (dead := List.filter (expires now mx) (Inflight_GetAll m false)) in *.
  assert (Hdead : forall tk, tk ∈ dead <-> if_internal m !! pk_PacketID tk = Some tk /\ expires now mx tk = true).
  { intros tk. unfold dead. rewrite list_elem_of_In, filter_In, <- list_elem_of_In, (GetAll_all m), list_elem_of_fmap.
    split; [intros [([k v] & -> & H%elem_of_map_to_list) He]|intros [H He]]; (split; [|done]).
    - cbn. destruct (io_ids _ Hok k v H) as [-> _]. done.
    - exists (pk_PacketID tk, tk). split; [done|]. by apply elem_of_map_to_list. }
  exists cv', i, dead. split_and!; [done|done|done| |done].
  intros id tk. rewrite Hm. case_decide as Hd.
  - split; [done|]. intros [Hid He]. apply list_elem_of_fmap in Hd as (x & -> & Hx).
    apply Hdead in Hx as [Hx Hxe]. pose proof (eq_trans (eq_sym Hid) Hx) as [= ->]. congruence.
  - fold m. split; [|by intros [? _]]. intros Hid. split; [done|].
    destruct (expires now mx tk) eqn:He; [|done]. exfalso. apply Hd, list_elem_of_fmap. exists tk.
    destruct (io_ids _ Hok id tk Hid) as [<- _]. split; [done|]. by apply Hdead.
Qed.

Lemma ClearExpiredInflights_exact_witness :
  exists cv' i dead, ClearExpiredInflights 100 0 inflight_view = (Ok (pk_PacketID <$> dead), cv') /\
    cv_client cv' = with_inflight (cv_client inflight_view) i /\
    (forall tk, tk ∈ dead <-> if_internal inflight_sample !! pk_PacketID tk = Some tk /\ expires 100 0 tk = true).
Proof.
  destruct (ClearExpiredInflights_exact 100 0 inflight_view inflight_sample_ok) as (cv' & i & dead & H1 & H2 & H3 & _).
  by exists cv', i, dead.
Defined.

(** ** Stopping *)

(** Once a client was stopped it stays stopped: it is closed, its
    connection (if it has one) is closed, and neither the cause nor the time of
    the first stop changes with later ones. *)
Theorem Stop_once now err cl now' err' :
  let cl1 := Client_Stop now err cl in
  Client_Stop now' err' cl1 = cl1 /\
  (st_ended (cl_State cl) = false ->
   Client_Closed cl1 = true /\ Client_StopTime cl1 = now /\ net_closed (cl_Net cl1) = net_Conn (cl_Net cl) || net_closed (cl_Net cl) /\
   Client_StopCause cl1 = match err with Some _ => err | None => Client_StopCause cl end).
Proof.
  unfold Client_Stop. destruct (st_ended (cl_State cl)) eqn:E; [|done]. split; [|done]. by rewrite E.
Qed.

Lemma Stop_once_witness :
  Client_Closed (Client_Stop 5 None (newClient DefaultOptions None)) = true.
Proof. by apply (Stop_once 5 None (newClient DefaultOptions None) 6 None). Defined.
