(* ===== verification/Publish.v ===== *)
(** * Outgoing messages and acknowledgements of one client (server.go)

    The methods of [Server] that change a single client: publishing to it, the
    qos handshakes, resuming messages that wait for quota, disconnecting it.
    They are actions on the [ClientView] of that client. *)
From S2P Require Import Prelude Codes Effects Codec FixedHeader Properties Packets Wire Topics Aliases Inflight System Clients ClientIO.

(** [minimum(a, b)]: the smaller of the values that are not 0. *)
Definition minimum (a b : Z) : Z :=
  if negb (a =? 0) then (if negb (b =? 0) && (b <? a) then b else a)
  else b.

Section Handlers.
Context (e : Env) {RO : RangeOrder}.
Let caps := ev_Capabilities e.

Definition count_dropped : GoM ClientView unit := set_info (fun i => i <| in_InflightDropped ::= add64 1 |>).

(** Operations on the in-flight messages whose result is not used. *)
Definition inflight_ {A} (op : Inflight -> A * Inflight) : GoM ClientView unit := inflight op;; mret tt.
Definition inflight_set (f : Inflight -> Inflight) : GoM ClientView unit := inflight_ (fun i => (tt, f i)).

Definition set_topic_alias (f : TopicAliases -> TopicAliases) : GoM ClientView unit :=
  set_client (fun cl => cl <| cl_State ::= fun st => st <| st_TopicAliases ::= f |> |>).

Definition buildAck (packetID pkt qos : Z) (properties : Properties) (reason : Code) : Packet :=
  let properties := if co_NoInheritedPropertiesOnAck (ca_Compatibilities caps) then Properties0 else properties in
  let properties := if Code_Code ErrUnspecifiedError <=? Code_Code reason
                    then properties <| pr_ReasonString := Code_Reason reason |> else properties in
  Packet0 <| pk_FixedHeader := FixedHeader0 <| fh_Type := pkt |> <| fh_Qos := qos |> |>
          <| pk_PacketID := packetID |>
          <| pk_ReasonCode := Code_Code reason |>
          <| pk_Properties := properties |>
          <| pk_Created := ev_now e |>
          <| pk_Expiry := ev_now e + ca_MaximumMessageExpiryInterval caps |>.

(** The original message's payload, topic and origin, copied to a packet
    without a topic. *)
Definition complete_from (original pk : Packet) : Packet :=
  if (length (pk_TopicName pk) =? 0)%nat && (0 <? length (pk_TopicName original))%nat && ev_IsFixedPacketInfo e
  then pk <| pk_Payload := pk_Payload original |> <| pk_TopicName := pk_TopicName original |>
          <| pk_Origin := pk_Origin original |>
  else pk.

(** ** Deferred messages *)

Definition park (pk : Packet) : GoM ClientView unit :=
  inflight_ (fun i => Inflight_Set i (pk <| pk_Expiry := InflightExpiryDeferred |>)).

(** The loop of [resumeDeferredPublishes]. A round that does not end the loop
    leaves one deferred message less, so one round more than there are
    messages is enough. *)
Fixpoint resume_loop (fuel : nat) : GoM ClientView unit :=
  match fuel with
  | O => fun cv => (Diverge, cv)
  | S fuel' =>
      cl ← get_client;
      if if_sendQuota (cl_Inflight cl) <=? 0 then mret tt
      else
        next ← inflight Inflight_TakeNextImmediate;
        match next with
        | None => mret tt
        | Some next =>
            ok ← inflight Inflight_DecreaseSendQuota;
            if negb ok then park next
            else
              cl ← get_client;
              if negb (net_Conn (cl_Net cl)) || Client_Closed cl then
                park next;; inflight_ Inflight_IncreaseSendQuota
              else
                r ← attempt (WritePacket e next);
                match r with
                | inl _ => resume_loop fuel'
                | inr err =>
                    park next;;
                    inflight_ Inflight_IncreaseSendQuota;;
                    inflight_ Inflight_ResetSendQuotaIfEmpty;;
                    throw err
                end
        end
  end.

Definition resumeDeferredPublishes : GoM ClientView unit :=
  inflight_ Inflight_RecoverStarvedSendQuota;;
  cl ← get_client;
  resume_loop (S (size (if_internal (cl_Inflight cl))));;
  inflight_ Inflight_ResetSendQuotaIfEmpty.

(** ** Publishing to a client *)

(** The copy of the message for a subscription: its retain flag, subscription
    identifiers and qos. *)
Definition outgoing_publish (cl : Client) (sub : Subscription) (pk : Packet) : Packet :=
  let out := Packet_Copy pk false in
  let v := cp_ProtocolVersion (cl_Properties cl) in
  let out :=
    if negb (sub_FwdRetainedFlag sub) && (((v =? 5) && negb (sub_RetainAsPublished sub)) || (v <? 5))
    then out <| pk_FixedHeader ::= fun fh => fh <| fh_Retain := false |> |> else out in
  let out :=
    if (0 <? size (default ∅ (sub_Identifiers sub)))%nat
    then out <| pk_Properties ::= fun p =>
           p <| pr_SubscriptionIdentifier := merge_sort Z.le (range (default ∅ (sub_Identifiers sub))).*2 |> |>
    else out in
  out <| pk_FixedHeader ::= fun fh =>
           fh <| fh_Qos ::= fun q => if sub_Qos sub <? q then sub_Qos sub else q |>
              <| fh_Qos ::= fun q => if ca_MaximumQos caps <? q then ca_MaximumQos caps else q |> |>.

(** The outbound topic alias of the message, when the client accepts aliases. *)
Definition alias_publish (pk out : Packet) : GoM ClientView Packet :=
  cl ← get_client;
  if 0 <? pr_TopicAliasMaximum (cp_Props (cl_Properties cl)) then
    let '(alias, topic, a) := send_topic (ta_Outbound (st_TopicAliases (cl_State cl))) (pk_TopicName pk) in
    set_topic_alias (fun t => t <| ta_Outbound := a |>);;
    let out := out <| pk_Properties ::= fun p => p <| pr_TopicAlias := alias |> |> in
    mret (if 0 <? alias
          then out <| pk_Properties ::= fun p => p <| pr_TopicAliasFlag := true |> |> <| pk_TopicName := topic |>
          else out)
  else mret out.

Definition next_packet_id (max : Z) : GoM ClientView Z := fun cv =>
  match NextPacketIDUnderCap (ev_Options e) (ev_now e) (cv_client cv) max with
  | Ok (i, cl) => (Ok i, cv <| cv_client := cl |>)
  | Err err => (Err err, cv)
  | Panic => (Panic, cv)
  | Diverge => (Diverge, cv)
  end.

(** [ReplaceCounted(out, &s.Info.Inflight)] *)
Definition replace_counted (out : Packet) : GoM ClientView bool :=
  ok ← inflight (fun i => Inflight_ReplaceCounted i out);
  when ok (count_inflight 1);;
  mret ok.

(** The message collides with one that is in flight. *)
Definition drop_collision {A} (out : Packet) : GoM ClientView A :=
  inflight_ (fun i => Inflight_Delete i (pk_PacketID out));;
  count_dropped;;
  throw (ECode ErrQuotaExceeded).

(** Takes one unit of send quota from a version 5 client: whether quotas apply
    to the client, and whether the message must wait. Older clients have their
    quota reset when it has run out. *)
Definition take_send_quota : GoM ClientView (bool * bool) :=
  cl ← get_client;
  let max := if_maximumSendQuota (cl_Inflight cl) in
  if 5 <=? cp_ProtocolVersion (cl_Properties cl) then
    if 0 <? max then
      ok ← inflight Inflight_DecreaseSendQuota;
      mret (ok : bool, negb ok)
    else mret (false, false)
  else
    when ((if_sendQuota (cl_Inflight cl) =? 0) && (0 <? max))
      (inflight_set (fun i => Inflight_ResetSendQuota i (ca_ReceiveMaximum caps)));;
    mret (false, false).

(** A qos message gets a packet id and its place in the in-flight map; the
    result tells whether it is parked there until there is quota. *)
Definition track_publish (pk out : Packet) : GoM ClientView (Packet * bool) :=
  r ← attempt (next_packet_id (ca_MaximumInflight caps));
  match r with
  | inr _ =>
      emit (fun cl => OnPacketIDExhausted cl pk);;
      count_dropped;;
      throw (ECode ErrQuotaExceeded)
  | inl i =>
      let out := complete_from pk (out <| pk_PacketID := to_u16 i |>) in
      '(took, wait) ← take_send_quota;
      if (wait : bool) then
        let out := out <| pk_Expiry := InflightExpiryDeferred |> in
        ok ← replace_counted out;
        if negb ok then drop_collision out
        else
          emit (fun cl => OnQosPublish cl out (pk_Created out) 0);;
          ignore resumeDeferredPublishes;;
          mret (out, true)
      else
        ok ← replace_counted out;
        if negb ok then
          when took (inflight_ Inflight_IncreaseSendQuota);;
          drop_collision out
        else
          emit (fun cl => OnQosPublish cl out (pk_Created out) 0);;
          cl ← get_client;
          when (cp_ProtocolVersion (cl_Properties cl) <? 5) (inflight_ Inflight_DecreaseSendQuota);;
          mret (out, false)
  end.

(** A tracked message that cannot be sent is forgotten. *)
Definition untrack (out : Packet) : GoM ClientView unit :=
  ok ← inflight (fun i => Inflight_Delete i (pk_PacketID out));
  when ok (count_inflight (-1);; inflight_ Inflight_IncreaseSendQuota).

(** Queues the message for [WriteLoop]. *)
Definition queue_publish (pk out : Packet) : GoM ClientView Packet :=
  cl ← get_client;
  if negb (net_Conn (cl_Net cl)) || Client_Closed cl then
    when ((0 <? pk_Qos out) && (0 <? pk_PacketID out)) (untrack out);;
    throw (ECode CodeDisconnect)
  else
    ok ← enqueue e out;
    if (ok : bool) then mret out
    else
      set_info (fun i => i <| in_MessagesDropped ::= add64 1 |>);;
      emit (fun cl => OnPublishDropped cl pk);;
      when (0 <? pk_Qos out) (untrack out);;
      throw (ECode ErrPendingClientWritesExceeded).

Definition publishToClient (sub : Subscription) (pk : Packet) : GoM ClientView Packet :=
  cl ← get_client;
  if sub_NoLocal sub && str_eqb (pk_Origin pk) (cl_ID cl) then mret pk
  else if negb (hk_OnACLCheck (ev_Hooks e) cl (pk_TopicName pk) false) then throw (ECode ErrNotAuthorized)
  else
    out ← alias_publish pk (outgoing_publish cl sub pk);
    if 0 <? pk_Qos out then
      '(out, parked) ← track_publish pk out;
      if (parked : bool) then mret out else queue_publish pk out
    else queue_publish pk out.

(** ** Qos handshakes *)

Definition processPuback (pk : Packet) : GoM ClientView unit :=
  cl ← get_client;
  match Inflight_Get (cl_Inflight cl) (pk_PacketID pk) with
  | None => mret tt
  | Some inflightPk =>
      ok ← inflight (fun i => Inflight_Delete i (pk_PacketID pk));
      when (ok && negb (pk_Expiry inflightPk =? InflightExpiryReserved))
        (inflight_ Inflight_IncreaseSendQuota;;
         count_inflight (-1);;
         emit (fun cl => OnQosComplete cl (complete_from inflightPk pk)))
  end.

(** A handshake that its peer refused: the message is dropped. *)
Definition refuse_handshake (inflightPk pk : Packet) : GoM ClientView unit :=
  ok ← inflight (fun i => Inflight_Delete i (pk_PacketID pk));
  when ok (count_inflight (-1));;
  emit (fun cl => OnQosDropped cl (complete_from inflightPk pk)).

Definition refused (pk : Packet) : bool :=
  (Code_Code ErrUnspecifiedError <=? pk_ReasonCode pk) || negb (ReasonCodeValid pk).

Definition processPubrec (pk : Packet) : GoM ClientView unit :=
  cl ← get_client;
  match Inflight_Get (cl_Inflight cl) (pk_PacketID pk) with
  | None => WritePacket e (buildAck (pk_PacketID pk) Pubrel 1 (pk_Properties pk) ErrPacketIdentifierNotFound)
  | Some inflightPk =>
      if refused pk then refuse_handshake inflightPk pk
      else
        let ack := buildAck (pk_PacketID pk) Pubrel 1 (pk_Properties pk) CodeSuccess in
        inflight_ Inflight_DecreaseReceiveQuota;;
        let ack := complete_from inflightPk ack in
        inflight_ (fun i => Inflight_Set i ack);;
        WritePacket e ack
  end.

Definition processPubrel (pk : Packet) : GoM ClientView unit :=
  cl ← get_client;
  match Inflight_Get (cl_Inflight cl) (pk_PacketID pk) with
  | None => WritePacket e (buildAck (pk_PacketID pk) Pubcomp 0 (pk_Properties pk) ErrPacketIdentifierNotFound)
  | Some inflightPk =>
      if refused pk then refuse_handshake inflightPk pk
      else
        let ack := complete_from inflightPk (buildAck (pk_PacketID pk) Pubcomp 0 (pk_Properties pk) CodeSuccess) in
        inflight_ (fun i => Inflight_Set i ack);;
        WritePacket e ack;;
        inflight_ Inflight_IncreaseReceiveQuota;;
        inflight_ Inflight_IncreaseSendQuota;;
        ok ← inflight (fun i => Inflight_Delete i (pk_PacketID pk));
        when ok
          (count_inflight (-1);;
           emit (fun cl => OnQosComplete cl (complete_from inflightPk pk)))
  end.

Definition processPubcomp (pk : Packet) : GoM ClientView unit :=
  inflight_ Inflight_IncreaseReceiveQuota;;
  inflight_ Inflight_IncreaseSendQuota;;
  cl ← get_client;
  match Inflight_Get (cl_Inflight cl) (pk_PacketID pk) with
  | None => mret tt
  | Some inflightPk =>
      ok ← inflight (fun i => Inflight_Delete i (pk_PacketID pk));
      when ok
        (count_inflight (-1);;
         emit (fun cl => OnQosComplete cl (complete_from inflightPk pk)))
  end.

(** ** Disconnecting *)

Definition stop (err : option error) : GoM ClientView unit := set_client (Client_Stop (ev_now e) err).

Definition DisconnectClient (code : Code) : GoM ClientView unit :=
  let severe := Code_Code ErrUnspecifiedError <=? Code_Code code in
  let out := Packet0 <| pk_FixedHeader := FixedHeader0 <| fh_Type := Disconnect |> |>
                     <| pk_ReasonCode := Code_Code code |>
                     <| pk_Properties := Properties0 <| pr_ReasonString := if severe then Code_Reason code else [] |> |> in
  r ← attempt (WritePacket e out);
  let written := match r with inl _ => mret tt | inr err => throw err end in
  if negb (co_PassiveClientDisconnect (ca_Compatibilities caps)) then
    stop (Some (ECode code));;
    if severe then throw (ECode code) else written
  else written.

Definition processPingreq : GoM ClientView unit :=
  WritePacket e (Packet0 <| pk_FixedHeader := FixedHeader0 <| fh_Type := Pingresp |> |>).

Definition processAuth (pk : Packet) : GoM ClientView unit :=
  cl ← get_client;
  match hk_OnAuthPacket (ev_Hooks e) cl pk with
  | Some err => throw err
  | None => mret tt
  end.

(** ** Connecting *)

Definition readConnectionPacket : GoM ClientView Packet :=
  fh ← ReadFixedHeader e;
  if negb (fh_Type fh =? Connect) then throw (ECode ErrProtocolViolationRequireFirstConnect)
  else ReadPacket e fh.

Definition validateConnect (cl : Client) (pk : Packet) : Code :=
  let code := ConnectValidate pk in
  if negb (bool_decide (code = CodeSuccess)) then code
  else if (cp_ProtocolVersion (cl_Properties cl) <? 5) && negb (cp_Clean (pk_Connect pk)) &&
          str_eqb (cp_ClientIdentifier (pk_Connect pk)) [] then ErrUnspecifiedError
  else if cp_ProtocolVersion (cl_Properties cl) <? ca_MinimumProtocolVersion caps then ErrUnsupportedProtocolVersion
  else if ca_MaximumQos caps <? wi_Qos (cp_Will (cl_Properties cl)) then ErrQosNotSupported
  else if wi_Retain (cp_Will (cl_Properties cl)) && (ca_RetainAvailable caps =? 0) then ErrRetainNotSupported
  else code.

Definition SendConnack (reason : Code) (present : bool) (properties : option Properties) : GoM ClientView unit :=
  cl ← get_client;
  let properties := (default Properties0 properties) <| pr_ReceiveMaximum := ca_ReceiveMaximum caps |> in
  let properties :=
    if st_ServerKeepalive (cl_State cl)
    then properties <| pr_ServerKeepAlive := st_Keepalive (cl_State cl) |> <| pr_ServerKeepAliveFlag := true |>
    else properties in
  let connack present reason properties :=
    Packet0 <| pk_FixedHeader := FixedHeader0 <| fh_Type := Connack |> |>
            <| pk_SessionPresent := present |>
            <| pk_ReasonCode := Code_Code reason |>
            <| pk_Properties := properties |> in
  if Code_Code ErrUnspecifiedError <=? Code_Code reason then
    let reason := if cp_ProtocolVersion (cl_Properties cl) <? 5 then default reason (V5CodesToV3 reason) else reason in
    WritePacket e (connack false reason (properties <| pr_ReasonString := Code_Reason reason |>))
  else
    let properties :=
      if ca_MaximumQos caps <? 2
      then properties <| pr_MaximumQos := ca_MaximumQos caps |> <| pr_MaximumQosFlag := true |> else properties in
    let assigned := pr_AssignedClientID (cp_Props (cl_Properties cl)) in
    let properties :=
      if negb (str_eqb assigned []) then properties <| pr_AssignedClientID := assigned |> else properties in
    if ca_MaximumSessionExpiryInterval caps <? pr_SessionExpiryInterval (cp_Props (cl_Properties cl)) then
      let cut p := p <| pr_SessionExpiryInterval := ca_MaximumSessionExpiryInterval caps |>
                     <| pr_SessionExpiryIntervalFlag := true |> in
      set_client (fun cl => cl <| cl_Properties ::= fun c => c <| cp_Props ::= cut |> |>);;
      WritePacket e (connack present reason (cut properties))
    else WritePacket e (connack present reason properties).
End Handlers.
