(* ===== verification/PublishFacts.v ===== *)
(** * The handlers of one client are safe

    The invariant of a client, and that every action on it keeps it: none
    panics, every loop ends. *)
From S2P Require Import Prelude Codes Effects Codec FixedHeader Properties Packets Wire Topics Aliases Inflight InflightFacts System Clients ClientIO ClientIOFacts ClientFacts Publish.

(** What the handlers assume of their environment: the connection keeps the
    contract of [io.Writer], the limits have the widths of their types, the
    [OnPublish] hook returns a 16-bit packet id, and an error of it that wraps a
    code is that code (the code asserts it with [err.(packets.Code)]). *)
Record env_ok (e : Env) : Prop := mkEnvOk {
  eo_writer : writer_ok e;
  eo_max_id : 0 <= ca_maximumPacketID (ev_Capabilities e) < 65536;
  eo_receive : is_u16 (ca_ReceiveMaximum (ev_Capabilities e));
  eo_inflight : is_u16 (ca_MaximumInflight (ev_Capabilities e));
  eo_alias : is_u16 (ca_TopicAliasMaximum (ev_Capabilities e));
  eo_publish_id : forall cl pk pk' err,
    hk_OnPublish (ev_Hooks e) cl pk = (pk', err) -> is_u16 (pk_PacketID pk) -> is_u16 (pk_PacketID pk');
  eo_publish_code : forall cl pk pk' err,
    hk_OnPublish (ev_Hooks e) cl pk = (pk', Some err) -> is_Some (error_as_code err) -> is_Some (error_code err);
}.

Record client_ok (e : Env) (cl : Client) : Prop := mkClientOk {
  ko_inflight : inflight_ok (cl_Inflight cl);
  ko_packetID : 0 <= st_packetID (cl_State cl) <= ca_maximumPacketID (ev_Capabilities e);
  ko_aliases : outbound_ok (ta_Outbound (st_TopicAliases (cl_State cl)));
  ko_receive : is_u16 (pr_ReceiveMaximum (cp_Props (cl_Properties cl)));
}.

Section Handlers.
Context (e : Env).

Definition view_ok (cv : ClientView) : Prop := client_ok e (cv_client cv).

(** The state of the client that the invariant speaks of is unchanged. *)
Lemma view_ok_untouched cv cv' : untouched cv cv' -> view_ok cv -> view_ok cv'.
Proof. intros (w & ob & E & _) [H1 H2 H3 H4]. unfold view_ok. rewrite E. by constructor. Qed.

Lemma keeps_get_client {B} (k : Client -> GoM ClientView B) :
  (forall cl, client_ok e cl -> keeps view_ok (k cl)) -> keeps view_ok (get_client ≫= k).
Proof. intros Hk cv Hcv. apply wp_bind. by apply Hk. Qed.

Lemma keeps_set_info f : keeps view_ok (set_info f).
Proof. by apply keeps_modify. Qed.

Lemma keeps_emit ev : keeps view_ok (emit ev).
Proof. by apply keeps_modify. Qed.

Lemma keeps_set_net f : keeps view_ok (set_net f).
Proof. apply keeps_modify. intros cv [H1 H2 H3 H4]. by constructor. Qed.

Lemma keeps_count_inflight n : keeps view_ok (count_inflight n).
Proof. apply keeps_set_info. Qed.

Lemma keeps_count_dropped : keeps view_ok count_dropped.
Proof. apply keeps_set_info. Qed.

Lemma keeps_WritePacket pk : env_ok e -> keeps view_ok (WritePacket e pk).
Proof.
  intros He cv Hcv. eapply wp_mono; [apply WritePacket_untouched, He|].
  intros r cv' Hu. exact (view_ok_untouched _ _ Hu Hcv).
Qed.

Lemma view_ok_inflight cv i : view_ok cv -> inflight_ok i -> view_ok (cv <| cv_client ::= fun cl => with_inflight cl i |>).
Proof. intros [H1 H2 H3 H4] Hi. by constructor. Qed.

(** An operation on the in-flight messages that is one of those of the
    component's invariant. *)
Lemma keeps_inflight {RO : RangeOrder} {A} (op : Inflight -> A * Inflight) (o : inflight_op) :
  op_ok o -> (forall i, (op i).2 = apply_op i o) -> keeps view_ok (inflight op).
Proof.
  intros Ho Hop cv Hcv. unfold wp. rewrite inflight_run. apply view_ok_inflight; [done|].
  rewrite Hop. apply apply_op_ok; [apply Hcv|done].
Qed.

Lemma keeps_inflight_ {RO : RangeOrder} {A} (op : Inflight -> A * Inflight) (o : inflight_op) :
  op_ok o -> (forall i, (op i).2 = apply_op i o) -> keeps view_ok (inflight_ op).
Proof. intros Ho Hop. apply keeps_bind; [by eapply keeps_inflight|intros; apply keeps_ret]. Qed.

Lemma keeps_Delete id : keeps view_ok (inflight (fun i => Inflight_Delete i id)).
Proof. by apply (keeps_inflight _ (OpDelete id)). Qed.
Lemma keeps_IncreaseSendQuota : keeps view_ok (inflight Inflight_IncreaseSendQuota).
Proof. by apply (keeps_inflight _ OpIncreaseSendQuota). Qed.
Lemma keeps_DecreaseSendQuota : keeps view_ok (inflight Inflight_DecreaseSendQuota).
Proof. by apply (keeps_inflight _ OpDecreaseSendQuota). Qed.
Lemma keeps_IncreaseReceiveQuota : keeps view_ok (inflight Inflight_IncreaseReceiveQuota).
Proof. by apply (keeps_inflight _ OpIncreaseReceiveQuota). Qed.
Lemma keeps_DecreaseReceiveQuota : keeps view_ok (inflight Inflight_DecreaseReceiveQuota).
Proof. by apply (keeps_inflight _ OpDecreaseReceiveQuota). Qed.
Lemma keeps_RecoverStarved : keeps view_ok (inflight Inflight_RecoverStarvedSendQuota).
Proof. by apply (keeps_inflight _ OpRecoverStarvedSendQuota). Qed.
Lemma keeps_ResetIfEmpty : keeps view_ok (inflight Inflight_ResetSendQuotaIfEmpty).
Proof. by apply (keeps_inflight _ OpResetSendQuotaIfEmpty). Qed.
Lemma keeps_Set pk : is_u16 (pk_PacketID pk) -> keeps view_ok (inflight (fun i => Inflight_Set i pk)).
Proof. intros H. by apply (keeps_inflight _ (OpSet pk)). Qed.
Lemma keeps_Replace pk : is_u16 (pk_PacketID pk) -> keeps view_ok (inflight (fun i => Inflight_ReplaceCounted i pk)).
Proof. intros H. by apply (keeps_inflight _ (OpReplace pk)). Qed.

Lemma keeps_discard {A} (op : Inflight -> A * Inflight) : keeps view_ok (inflight op) -> keeps view_ok (inflight_ op).
Proof. intros H. apply keeps_bind; [done|intros; apply keeps_ret]. Qed.
End Handlers.

#[export] Hint Resolve keeps_set_info keeps_emit keeps_set_net keeps_count_inflight keeps_count_dropped keeps_WritePacket : keeps.
#[export] Hint Resolve keeps_Delete keeps_IncreaseSendQuota keeps_DecreaseSendQuota keeps_IncreaseReceiveQuota : keeps.
#[export] Hint Resolve keeps_DecreaseReceiveQuota keeps_RecoverStarved keeps_ResetIfEmpty keeps_Set keeps_Replace keeps_discard : keeps.

Section Safe.
Context (e : Env) (He : env_ok e) {RO : RangeOrder}.

Lemma keeps_enqueue out : keeps (view_ok e) (enqueue e out).
Proof.
  apply keeps_get_client. intros cl Hcl. keeps_go.
  apply keeps_modify. intros cv [H1 H2 H3 H4]. by constructor.
Qed.

Lemma keeps_stop err : keeps (view_ok e) (stop e err).
Proof.
  apply keeps_modify. intros cv [H1 H2 H3 H4].
  change (client_ok e (Client_Stop (ev_now e) err (cv_client cv))). unfold Client_Stop.
  destruct (st_ended (cl_State (cv_client cv))); by constructor.
Qed.

(** ** Deferred messages *)

Definition deferred_count (i : Inflight) : nat :=
  length (List.filter (fun kv => deferred kv.2) (map_to_list (if_internal i))).

Lemma deferred_count_size i : (deferred_count i <= size (if_internal i))%nat.
Proof. unfold deferred_count. rewrite <- length_map_to_list. apply List.filter_length_le. Qed.

Lemma count_insert (f : Packet -> bool) (m : gmap Z Packet) id v w :
  m !! id = Some v ->
  (length (List.filter (fun kv : Z * Packet => f kv.2) (map_to_list (<[id := w]> m))) + (if f v then 1 else 0) =
   length (List.filter (fun kv : Z * Packet => f kv.2) (map_to_list m)) + (if f w then 1 else 0))%nat.
Proof.
  intros Hv.
  assert (Hp : forall l k : list (Z * Packet), l ≡ₚ k ->
    length (List.filter (fun kv => f kv.2) l) = length (List.filter (fun kv => f kv.2) k)).
  { intros l k H. induction H as [|x l k _ IH|x y l|l1 l2 l3 _ IH1 _ IH2]; cbn; [done| | |congruence].
    - destruct (f x.2); cbn; congruence.
    - by destruct (f x.2), (f y.2). }
  rewrite <- (insert_delete_id m id v Hv) at 2. rewrite <- (insert_delete_eq m id w).
  rewrite (Hp _ _ (map_to_list_insert (delete id m) id w (lookup_delete_eq _ _))).
  rewrite (Hp _ _ (map_to_list_insert (delete id m) id v (lookup_delete_eq _ _))).
  cbn. destruct (f v), (f w); cbn; lia.
Qed.

(** A message but for the mark that it is parked. *)
Definition strip (v : Packet) : Packet := v <| pk_Expiry := 0 |>.

(** A taken message is one of the map, and no longer deferred. *)
Lemma TakeNextImmediate_taken i next i' :
  inflight_ok i -> Inflight_TakeNextImmediate i = (Some next, i') ->
  is_u16 (pk_PacketID next) /\ inflight_ok i' /\ deferred_count i = S (deferred_count i') /\
  if_sendQuota i' = if_sendQuota i /\ strip <$> if_internal i' = strip <$> if_internal i /\
  if_internal i' !! pk_PacketID next = Some next.
Proof.
  intros Hi E. pose proof (TakeNextImmediate_cases i) as H. rewrite E in H.
  destruct H as (id & v & Hv & Hd & -> & -> & _). destruct (io_ids i Hi id v Hv) as [Hid Hu].
  split_and!.
  - change (is_u16 (pk_PacketID v)). by rewrite Hid.
  - change (inflight_ok (Some (v <| pk_Expiry := 0 |>), i <| if_internal ::= <[id := v <| pk_Expiry := 0 |>]> |>).2).
    rewrite <- E. exact (apply_op_ok i OpTakeNextImmediate Hi I).
  - pose proof (count_insert deferred (if_internal i) id v (v <| pk_Expiry := 0 |>) Hv) as Hc.
    rewrite Hd in Hc. change (deferred (v <| pk_Expiry := 0 |>)) with false in Hc. unfold deferred_count.
    change (if_internal (i <| if_internal ::= <[id := v <| pk_Expiry := 0 |>]> |>))
      with (<[id := v <| pk_Expiry := 0 |>]> (if_internal i)). cbv iota in Hc. lia.
  - done.
  - change (strip <$> <[id := strip v]> (if_internal i) = strip <$> if_internal i).
    rewrite fmap_insert. apply insert_id. by rewrite lookup_fmap, Hv.
  - change (<[id := strip v]> (if_internal i) !! pk_PacketID v = Some (strip v)). rewrite Hid. apply lookup_insert_eq.
Qed.

Lemma no_deferred_count i :
  (forall id v, if_internal i !! id = Some v -> deferred v = false) -> deferred_count i = 0%nat.
Proof.
  intros H. unfold deferred_count.
  assert (Hl : forall kv, kv ∈ map_to_list (if_internal i) -> deferred kv.2 = false).
  { intros [id v] Hin%elem_of_map_to_list. by eapply H. }
  induction (map_to_list (if_internal i)) as [|kv l IH]; [done|]. cbn. rewrite Hl by (by left).
  apply IH. intros kv' Hin. apply Hl. by right.
Qed.

Lemma keeps_park pk : is_u16 (pk_PacketID pk) -> keeps (view_ok e) (park pk).
Proof. intros H. apply keeps_discard, keeps_Set, H. Qed.

(** ** What resuming changes

    The in-flight messages are the same but for the marks of those that were
    parked; the rest of the client but the bytes on their way is unchanged. *)
Definition resumed (cv cv' : ClientView) : Prop :=
  (exists i w ob, cv_client cv' =
     (with_inflight (cv_client cv) i) <| cl_Net ::= fun n => n <| net_written := w |> <| net_outbuf := ob |> |>) /\
  strip <$> if_internal (cl_Inflight (cv_client cv')) = strip <$> if_internal (cl_Inflight (cv_client cv)).

Definition connected (cl : Client) : bool := net_Conn (cl_Net cl) && negb (Client_Closed cl).

Lemma resumed_refl cv : resumed cv cv.
Proof. split; [|done]. by eexists _, _, _. Qed.

Lemma resumed_trans cv1 cv2 cv3 : resumed cv1 cv2 -> resumed cv2 cv3 -> resumed cv1 cv3.
Proof.
  intros [(i & w & ob & E) H1] [(i' & w' & ob' & E') H2]. split; [|congruence].
  exists i', w', ob'. by rewrite E', E.
Qed.

Lemma resumed_inflight cv i :
  strip <$> if_internal i = strip <$> if_internal (cl_Inflight (cv_client cv)) ->
  resumed cv (cv <| cv_client ::= fun cl => with_inflight cl i |>).
Proof. intros H. split; [|done]. by exists i, (net_written (cl_Net (cv_client cv))), (net_outbuf (cl_Net (cv_client cv))). Qed.

Lemma resumed_untouched cv cv' : untouched cv cv' -> resumed cv cv'.
Proof.
  intros (w & ob & E & _). split; [|by rewrite E]. exists (cl_Inflight (cv_client cv)), w, ob. by rewrite E.
Qed.

Lemma resumed_connected cv cv' : resumed cv cv' -> connected (cv_client cv') = connected (cv_client cv).
Proof. intros [(i & w & ob & E) _]. by rewrite E. Qed.

Lemma wp_inflight_ {A} (op : Inflight -> A * Inflight) cv Q :
  Q (inl tt) (cv <| cv_client ::= fun cl => with_inflight cl (op (cl_Inflight (cv_client cv))).2 |>) ->
  wp (inflight_ op) cv Q.
Proof. intros H. apply wp_bind. unfold wp. by rewrite inflight_run. Qed.

Lemma IncreaseSendQuota_internal i : if_internal (Inflight_IncreaseSendQuota i).2 = if_internal i.
Proof. unfold Inflight_IncreaseSendQuota. by destruct (_ <=? _). Qed.
Lemma DecreaseSendQuota_internal i : if_internal (Inflight_DecreaseSendQuota i).2 = if_internal i.
Proof. unfold Inflight_DecreaseSendQuota. by destruct (_ <=? _). Qed.
Lemma ResetIfEmpty_internal i : if_internal (Inflight_ResetSendQuotaIfEmpty i).2 = if_internal i.
Proof. unfold Inflight_ResetSendQuotaIfEmpty. by repeat case_match. Qed.
Lemma RecoverStarved_internal i : if_internal (Inflight_RecoverStarvedSendQuota i).2 = if_internal i.
Proof. unfold Inflight_RecoverStarvedSendQuota. by repeat case_match. Qed.

(** What is left of a loop that stopped: nothing deferred, or no quota. *)
Definition drained (cv : ClientView) : Prop :=
  if_sendQuota (cl_Inflight (cv_client cv)) <= 0 \/ deferred_count (cl_Inflight (cv_client cv)) = 0%nat.

Definition resume_outcome (cv : ClientView) (r : unit + error) (cv' : ClientView) : Prop :=
  view_ok e cv' /\ resumed cv cv' /\ (r = inl tt -> connected (cv_client cv) = true -> drained cv').

(** A message that could not be sent goes back. *)
Lemma park_back next cv (m : GoM ClientView unit) Q :
  view_ok e cv -> if_internal (cl_Inflight (cv_client cv)) !! pk_PacketID next = Some next ->
  is_u16 (pk_PacketID next) ->
  (forall cv', view_ok e cv' -> resumed cv cv' -> wp m cv' Q) ->
  wp (park next;; inflight_ Inflight_IncreaseSendQuota;; m) cv Q.
Proof.
  intros Hcv Hnext Hid Hm. apply wp_bind, wp_inflight_.
  set (cv1 := cv <| cv_client ::= _ |>).
  assert (H1 : view_ok e cv1).
  { apply view_ok_inflight; [done|]. refine (apply_op_ok _ (OpSet _) (ko_inflight _ _ Hcv) _). exact Hid. }
  assert (R1 : resumed cv cv1).
  { apply resumed_inflight.
    change (strip <$> <[pk_PacketID next := next <| pk_Expiry := InflightExpiryDeferred |>]> (if_internal (cl_Inflight (cv_client cv))) =
      strip <$> if_internal (cl_Inflight (cv_client cv))).
    rewrite fmap_insert. apply insert_id. rewrite lookup_fmap, Hnext. done. }
  apply wp_bind, wp_inflight_. apply Hm.
  - apply view_ok_inflight; [done|]. exact (apply_op_ok _ OpIncreaseSendQuota (ko_inflight _ _ H1) I).
  - eapply resumed_trans; [exact R1|]. apply resumed_inflight. by rewrite IncreaseSendQuota_internal.
Qed.

Lemma wp_ret_unit (m : GoM ClientView unit) cv (Q : unit + error -> ClientView -> Prop) :
  wp (m;; mret tt) cv Q -> wp m cv Q.
Proof. unfold wp, mbind, GoM_bind. destruct (m cv) as [[[]|err| |] cv']; done. Qed.

(** The loop ends with rounds to spare. *)
Lemma resume_loop_spec fuel cv :
  view_ok e cv -> (deferred_count (cl_Inflight (cv_client cv)) < fuel)%nat ->
  wp (resume_loop e fuel) cv (resume_outcome cv).
Proof.
  induction fuel as [|fuel IH] in cv |- *; intros Hcv Hf; [lia|].
  cbn [resume_loop]. apply wp_bind. cbn [get_client wp].
  destruct (Z.leb_spec (if_sendQuota (cl_Inflight (cv_client cv))) 0) as [Hq|Hq].
  { apply wp_ret. split_and!; [done|apply resumed_refl|]. by left. }
  apply wp_bind. unfold wp at 1. rewrite inflight_run.
  pose proof (TakeNextImmediate_cases (cl_Inflight (cv_client cv))) as Hc.
  destruct (Inflight_TakeNextImmediate (cl_Inflight (cv_client cv))) as [[next|] i'] eqn:E; cbn [fst snd].
  2: { destruct Hc as [-> Hnone]. apply wp_ret. split_and!; [done|by apply resumed_inflight|].
       right. by apply no_deferred_count. }
  destruct (TakeNextImmediate_taken _ _ _ (ko_inflight _ _ Hcv) E) as (Hid & Hi' & Hcount & Hsq & Hstrip & Hnext).
  apply wp_bind. unfold wp at 1. rewrite inflight_run.
  set (cv2 := _ <| cv_client ::= _ |> <| cv_client ::= _ |>).
  assert (Hmap : if_internal (cl_Inflight (cv_client cv2)) = if_internal i') by apply DecreaseSendQuota_internal.
  assert (Hcv2 : view_ok e cv2).
  { apply view_ok_inflight; [by apply view_ok_inflight|]. exact (apply_op_ok _ OpDecreaseSendQuota Hi' I). }
  assert (R2 : resumed cv cv2).
  { eapply resumed_trans; [by apply resumed_inflight|]. apply resumed_inflight. by rewrite DecreaseSendQuota_internal. }
  change (Inflight_DecreaseSendQuota _).1 with (Inflight_DecreaseSendQuota i').1.
  assert ((Inflight_DecreaseSendQuota i').1 = true) as ->.
  { unfold Inflight_DecreaseSendQuota. destruct (Z.leb_spec (if_sendQuota i') 0); [lia|done]. }
  cbn [negb]. rewrite <- Hmap in Hnext.
  apply wp_bind. cbn [get_client wp].
  change (net_Conn (cl_Net (cv_client cv2))) with (net_Conn (cl_Net (cv_client cv))).
  change (Client_Closed (cv_client cv2)) with (Client_Closed (cv_client cv)).
  destruct (negb (net_Conn (cl_Net (cv_client cv))) || Client_Closed (cv_client cv)) eqn:Hconn.
  { apply wp_ret_unit. change (wp ((park next;; inflight_ Inflight_IncreaseSendQuota;; mret tt)) cv2 (resume_outcome cv)).
    apply park_back; [done|done|done|]. intros cv' Hcv' R. apply wp_ret.
    split_and!; [done|by eapply resumed_trans|]. intros _ Hc'. unfold connected in Hc'.
    destruct (net_Conn _), (Client_Closed _); done. }
  apply wp_bind, wp_attempt. eapply wp_mono; [apply WritePacket_untouched, He|].
  intros [[]|err] cv3 Hu; pose proof (view_ok_untouched _ _ _ Hu Hcv2) as Hcv3; apply resumed_untouched in Hu as R3.
  - eapply wp_mono; [apply IH; [done|]|].
    + destruct Hu as (w & ob & -> & _). change (deferred_count (cl_Inflight (cv_client cv2)) < fuel)%nat.
      unfold deferred_count at 1. rewrite Hmap. unfold deferred_count in Hcount, Hf. lia.
    + intros r cv' (H1 & R & Hd). pose proof (resumed_trans _ _ _ R2 R3) as R23.
      split_and!; [done|by eapply resumed_trans|]. intros Hr Hc'. apply Hd; [done|].
      by rewrite (resumed_connected _ _ R23).
  - apply park_back; [done| |done|].
    + by destruct Hu as (w & ob & -> & _).
    + intros cv' Hcv' R. apply wp_bind, wp_inflight_, wp_throw.
      split_and!; [| |done].
      * apply view_ok_inflight; [done|]. exact (apply_op_ok _ OpResetSendQuotaIfEmpty (ko_inflight _ _ Hcv') I).
      * eapply resumed_trans; [exact R2|]. eapply resumed_trans; [exact R3|]. eapply resumed_trans; [exact R|].
        apply resumed_inflight. by rewrite ResetIfEmpty_internal.
Qed.

Lemma resume_outcome_spec cv : view_ok e cv -> wp (resumeDeferredPublishes e) cv (resume_outcome cv).
Proof.
  intros Hcv. unfold resumeDeferredPublishes. apply wp_bind, wp_inflight_.
  set (cv1 := cv <| cv_client ::= _ |>).
  assert (H1 : view_ok e cv1).
  { apply view_ok_inflight; [done|]. exact (apply_op_ok _ OpRecoverStarvedSendQuota (ko_inflight _ _ Hcv) I). }
  assert (R1 : resumed cv cv1) by (apply resumed_inflight; by rewrite RecoverStarved_internal).
  apply wp_bind. cbn [get_client wp]. apply wp_bind.
  eapply wp_mono; [apply resume_loop_spec; [done|]|].
  - pose proof (deferred_count_size (cl_Inflight (cv_client cv1))). lia.
  - intros [[]|err] cv' (H2 & R2 & Hd); [|split_and!; [done|by eapply resumed_trans|done]].
    apply wp_inflight_. split_and!.
    + apply view_ok_inflight; [done|]. exact (apply_op_ok _ OpResetSendQuotaIfEmpty (ko_inflight _ _ H2) I).
    + eapply resumed_trans; [exact R1|]. eapply resumed_trans; [exact R2|].
      apply resumed_inflight. by rewrite ResetIfEmpty_internal.
    + intros _ Hc. rewrite <- (resumed_connected _ _ R1) in Hc. specialize (Hd eq_refl Hc). unfold drained in *.
      change (if_sendQuota (Inflight_ResetSendQuotaIfEmpty (cl_Inflight (cv_client cv'))).2 <= 0 \/
        deferred_count (Inflight_ResetSendQuotaIfEmpty (cl_Inflight (cv_client cv'))).2 = 0%nat).
      unfold deferred_count. rewrite ResetIfEmpty_internal. fold (deferred_count (cl_Inflight (cv_client cv'))).
      unfold Inflight_ResetSendQuotaIfEmpty. destruct (Z.eqb_spec (Inflight_Len (cl_Inflight (cv_client cv'))) 0) as [Hz|_]; [|by cbn].
      right. pose proof (deferred_count_size (cl_Inflight (cv_client cv'))). unfold Inflight_Len in Hz. lia.
Qed.

Lemma keeps_resumeDeferredPublishes : keeps (view_ok e) (resumeDeferredPublishes e).
Proof. intros cv Hcv. eapply wp_mono; [by apply resume_outcome_spec|]. by intros r cv' (H & _). Qed.
End Safe.

#[export] Hint Resolve keeps_enqueue keeps_stop keeps_park keeps_resumeDeferredPublishes : keeps.

(** Handlers that start by looking at the client. *)
Ltac keeps_client := apply keeps_get_client; intros ? ?.

Section SafeHandlers.
Context (e : Env) (He : env_ok e) {RO : RangeOrder}.

(** ** Publishing *)

Lemma keeps_alias_publish pk out : keeps (view_ok e) (alias_publish pk out).
Proof.
  intros cv Hcv. unfold alias_publish. apply wp_bind. cbn [get_client wp].
  destruct (0 <? _); [|by apply wp_ret]. unfold send_topic.
  pose proof (OutboundTopicAliases_Set_ok (ta_Outbound (st_TopicAliases (cl_State (cv_client cv)))) (pk_TopicName pk)
    (ko_aliases _ _ Hcv)) as Hs.
  destruct (OutboundTopicAliases_Set _ _) as [[alias existed] a].
  apply wp_bind, wp_modify, wp_ret. destruct Hcv as [H1 H2 _ H4].
  by constructor; [| |exact (os_ok _ _ _ _ _ Hs)|].
Qed.

Lemma keeps_next_packet_id max : keeps (view_ok e) (next_packet_id e max).
Proof.
  intros cv Hcv. destruct Hcv as [H1 H2 H3 H4]. unfold wp, next_packet_id, NextPacketIDUnderCap.
  pose proof (nextPacketID_outcome (ev_Options e) (ev_now e) (cv_client cv) max H2 (proj2 (eo_max_id e He))) as H.
  destruct (nextPacketID _ _ _ _) as [[i cl']|err| |]; [|done|done|done].
  destruct H as (_ & Hfree & ->). destruct Hfree as (Hr & Hn & _).
  change (client_ok e ((cv_client cv) <| cl_State ::= fun st => st
    <| st_Inflight := (cl_Inflight (cv_client cv)) <| if_internal ::= <[i := reservation (ev_now e) i]> |> |> <| st_packetID := i |> |>)).
  pose proof (eo_max_id e He) as HM. unfold ev_Capabilities in *.
  constructor; [|change (0 <= i <= ca_maximumPacketID (op_Capabilities (ev_Options e))); lia|exact H3|exact H4].
  change (inflight_ok ((cl_Inflight (cv_client cv)) <| if_internal ::= <[i := reservation (ev_now e) i]> |>)).
  pose proof (apply_op_ok (cl_Inflight (cv_client cv)) (OpTryReserve (ev_now e) i 0) H1) as Hop.
  cbn [apply_op op_ok] in Hop. unfold Inflight_TryReserve in Hop. rewrite Hn in Hop. apply Hop. unfold is_u16. lia.
Qed.

Lemma keeps_replace_counted out : is_u16 (pk_PacketID out) -> keeps (view_ok e) (replace_counted out).
Proof. intros H. unfold replace_counted. keeps_go. Qed.

Lemma keeps_drop_collision {A} out : keeps (view_ok e) (drop_collision (A := A) out).
Proof. unfold drop_collision. keeps_go. Qed.

Lemma keeps_ResetSendQuota n : is_u16 n -> keeps (view_ok e) (inflight_set (fun i => Inflight_ResetSendQuota i n)).
Proof.
  intros H. apply (keeps_inflight_ e _ (OpResetSendQuota n)); [|done].
  unfold is_u16 in H. cbn. unfold is_quota. lia.
Qed.

Lemma keeps_take_send_quota : keeps (view_ok e) (take_send_quota e).
Proof. keeps_client. keeps_go. apply keeps_ResetSendQuota, He. Qed.

Lemma complete_from_id original pk : pk_PacketID (complete_from e original pk) = pk_PacketID pk.
Proof. unfold complete_from. by destruct (_ && _). Qed.

Lemma keeps_track_publish pk out : keeps (view_ok e) (track_publish e pk out).
Proof.
  unfold track_publish. apply keeps_bind; [apply keeps_attempt, keeps_next_packet_id|]. intros [i|err]; [|keeps_go].
  cbv zeta. set (out' := complete_from e pk _).
  assert (Hid : is_u16 (pk_PacketID out')) by (unfold out'; rewrite complete_from_id; apply to_u16_range).
  clearbody out'. apply keeps_bind; [apply keeps_take_send_quota|]. intros [took wait]. destruct wait.
  - apply keeps_bind; [by apply keeps_replace_counted|]. intros ok.
    destruct (negb ok); [apply keeps_drop_collision|]. keeps_go.
  - apply keeps_bind; [by apply keeps_replace_counted|]. intros ok.
    destruct (negb ok); [apply keeps_bind; [|intros; apply keeps_drop_collision]; keeps_go|].
    apply keeps_bind; [apply keeps_emit|intros _]. keeps_client. keeps_go.
Qed.

Lemma keeps_untrack out : keeps (view_ok e) (untrack out).
Proof. unfold untrack. keeps_go. Qed.

Lemma keeps_queue_publish pk out : keeps (view_ok e) (queue_publish e pk out).
Proof. keeps_client. keeps_go; apply keeps_untrack. Qed.

Lemma keeps_publishToClient sub pk : keeps (view_ok e) (publishToClient e sub pk).
Proof.
  keeps_client. destruct (_ && _); [apply keeps_ret|]. destruct (negb _); [apply keeps_throw|].
  apply keeps_bind; [apply keeps_alias_publish|]. intros out. destruct (0 <? _); [|apply keeps_queue_publish].
  apply keeps_bind; [apply keeps_track_publish|]. intros [out' parked].
  destruct parked; [apply keeps_ret|apply keeps_queue_publish].
Qed.

(** ** Handshakes and disconnection *)

Lemma keeps_refuse_handshake x pk : keeps (view_ok e) (refuse_handshake e x pk).
Proof. unfold refuse_handshake. keeps_go. Qed.

Lemma keeps_processPuback pk : keeps (view_ok e) (processPuback e pk).
Proof. keeps_client. keeps_go. Qed.

Lemma keeps_processPubrec pk : is_u16 (pk_PacketID pk) -> keeps (view_ok e) (processPubrec e pk).
Proof.
  intros Hid. keeps_client. keeps_go; [apply keeps_refuse_handshake|].
  apply keeps_discard, keeps_Set. by rewrite complete_from_id.
Qed.

Lemma keeps_processPubrel pk : is_u16 (pk_PacketID pk) -> keeps (view_ok e) (processPubrel e pk).
Proof.
  intros Hid. keeps_client. keeps_go; [apply keeps_refuse_handshake|].
  apply keeps_discard, keeps_Set. by rewrite complete_from_id.
Qed.

Lemma keeps_processPubcomp pk : keeps (view_ok e) (processPubcomp e pk).
Proof. unfold processPubcomp. keeps_go. Qed.

Lemma keeps_DisconnectClient code : keeps (view_ok e) (DisconnectClient e code).
Proof. unfold DisconnectClient. keeps_go. Qed.

Lemma keeps_processAuth pk : keeps (view_ok e) (processAuth e pk).
Proof. keeps_client. keeps_go. Qed.

Lemma keeps_SendConnack reason present props : keeps (view_ok e) (SendConnack e reason present props).
Proof.
  keeps_client. keeps_go. apply keeps_modify. intros cv [H1 H2 H3 H4]. by constructor.
Qed.

Lemma keeps_WriteLoop_round : keeps (view_ok e) (WriteLoop_round e).
Proof.
  keeps_client. keeps_go; apply keeps_modify; intros cv [H1 H2 H3 H4]; by constructor.
Qed.

(** ** In-flight cleanup *)

Lemma keeps_ClearInflights : keeps (view_ok e) ClearInflights.
Proof. keeps_client. keeps_go. Qed.

Lemma keeps_ResetInflights : keeps (view_ok e) ResetInflights.
Proof. keeps_client. keeps_go. Qed.

Lemma keeps_ResendInflightMessages force : keeps (view_ok e) (ResendInflightMessages e force).
Proof. keeps_client. keeps_go. Qed.

Lemma keeps_clear_expired now mx l : keeps (view_ok e) (clear_expired now mx l).
Proof. induction l as [|tk l IH]; cbn [clear_expired]; keeps_go. Qed.

Lemma keeps_ClearExpiredInflights now mx : keeps (view_ok e) (ClearExpiredInflights now mx).
Proof. keeps_client. apply keeps_clear_expired. Qed.
End SafeHandlers.

#[export] Hint Resolve keeps_publishToClient keeps_processPuback keeps_processPubrec keeps_processPubrel keeps_processPubcomp : keeps.
#[export] Hint Resolve keeps_DisconnectClient keeps_processAuth keeps_SendConnack keeps_WriteLoop_round : keeps.
#[export] Hint Resolve keeps_ClearInflights keeps_ResetInflights keeps_ResendInflightMessages keeps_ClearExpiredInflights : keeps.
