(* ===== verification/Delivery.v ===== *)
(** * Delivery of messages to a client

    What [publishToClient] does to the client on every path, and what resuming
    deferred messages achieves. *)
From S2P Require Import Prelude Codes Effects Codec FixedHeader Properties Packets Wire Topics Aliases Inflight InflightFacts System Clients ClientIO ClientIOFacts ClientFacts Publish PublishFacts.

Section Delivery.
Context (e : Env) (He : env_ok e) {RO : RangeOrder}.

Definition client_map (cl : Client) : gmap Z Packet := if_internal (cl_Inflight cl).
Definition client_queue (cl : Client) : list Packet := st_outbound (cl_State cl).
Definition view_map (cv : ClientView) : gmap Z Packet := client_map (cv_client cv).
Definition view_queue (cv : ClientView) : list Packet := client_queue (cv_client cv).

(** The parts of a client that decide where a message goes are unchanged. *)
Record steady (cv cv' : ClientView) : Prop := mkSteady {
  sd_queue : view_queue cv' = view_queue cv;
  sd_connected : connected (cv_client cv') = connected (cv_client cv);
  sd_id : cl_ID (cv_client cv') = cl_ID (cv_client cv);
  sd_properties : cl_Properties (cv_client cv') = cl_Properties (cv_client cv);
  sd_inline : net_Inline (cl_Net (cv_client cv')) = net_Inline (cl_Net (cv_client cv));
}.

Lemma steady_refl cv : steady cv cv.
Proof. done. Qed.

Lemma steady_trans cv1 cv2 cv3 : steady cv1 cv2 -> steady cv2 cv3 -> steady cv1 cv3.
Proof. intros [A1 A2 A3 A4 A5] [B1 B2 B3 B4 B5]. constructor; congruence. Qed.

Lemma steady_inflight cv i : steady cv (cv <| cv_client ::= fun cl => with_inflight cl i |>).
Proof. done. Qed.

Lemma steady_events cv f : steady cv (cv <| cv_events ::= f |>).
Proof. done. Qed.

Lemma resumed_steady cv cv' : resumed cv cv' -> steady cv cv'.
Proof. intros R. constructor; [|by apply resumed_connected|..]; destruct R as [(i & w & ob & E) _]; by rewrite ?E; unfold view_queue; rewrite ?E. Qed.

(** ** What is sent of a message *)

(** The alias and the topic name under which a topic is sent: an alias is never
    that of another topic, and the name is left out only under the alias that
    the client was told for it. *)
Record alias_for (a : OutboundTopicAliases) (allowed : bool) (topic name : gostr) (alias : Z) : Prop := mkAliasFor {
  af_allowed : 0 < alias -> allowed = true;
  af_own : forall t, out_internal a !! t = Some alias -> t = topic;
  af_name : name = topic \/ (name = [] /\ out_internal a !! topic = Some alias);
}.

(** The subscription identifiers of a message: those of the subscription in
    ascending order, if it has any. *)
Definition identifiers_for (sub : Subscription) (own l : list Z) : Prop :=
  if decide (default ∅ (sub_Identifiers sub) = ∅) then l = own
  else Sorted Z.le l /\ l ≡ₚ (map_to_list (default ∅ (sub_Identifiers sub))).*2.

(** [out] carries the message [pk] to [cl] under [sub]: the same type, payload,
    origin, time and properties, sent under its topic. *)
Record message_for (cl : Client) (sub : Subscription) (pk out : Packet) : Prop := mkMessageFor {
  mf_type : pk_Type out = pk_Type pk;
  mf_payload : pk_Payload out = pk_Payload pk;
  mf_origin : pk_Origin out = pk_Origin pk;
  mf_created : pk_Created out = pk_Created pk;
  mf_dup : fh_Dup (pk_FixedHeader out) = false;
  mf_qos : pk_Qos out = Z.min (Z.min (pk_Qos pk) (sub_Qos sub)) (ca_MaximumQos (ev_Capabilities e));
  mf_retain : let v := cp_ProtocolVersion (cl_Properties cl) in
    fh_Retain (pk_FixedHeader out) =
      fh_Retain (pk_FixedHeader pk) && (sub_FwdRetainedFlag sub || (v =? 5) && sub_RetainAsPublished sub || (5 <? v));
  mf_properties : exists alias ids,
    pk_Properties out = (pk_Properties pk) <| pr_TopicAlias := alias |> <| pr_TopicAliasFlag := 0 <? alias |>
      <| pr_SubscriptionIdentifier := ids |> /\
    alias_for (ta_Outbound (st_TopicAliases (cl_State cl)))
      (0 <? pr_TopicAliasMaximum (cp_Props (cl_Properties cl))) (pk_TopicName pk) (pk_TopicName out) alias /\
    identifiers_for sub (pr_SubscriptionIdentifier (pk_Properties pk)) ids;
}.

(** The packet id, the expiry and a topic filled in again are no part of it. *)
Lemma message_for_id cl sub pk out i :
  message_for cl sub pk out -> message_for cl sub pk (complete_from e pk (out <| pk_PacketID := i |>)).
Proof.
  intros [H1 H2 H3 H4 H5 H6 H7 (alias & ids & E & [A1 A2 A3] & Hi)]. unfold complete_from.
  destruct (_ && _); constructor; try done; exists alias, ids; by (split; [|split; [constructor; auto|]]).
Qed.

Lemma message_for_expiry cl sub pk out x : message_for cl sub pk out -> message_for cl sub pk (out <| pk_Expiry := x |>).
Proof. intros []. by constructor. Qed.

Lemma Properties_Copy_eq p : Properties_Copy p false = p <| pr_TopicAlias := 0 |> <| pr_TopicAliasFlag := false |>.
Proof.
  assert (H : map (fun v => mkUserProperty (up_Key v) (up_Val v)) (pr_User p) = pr_User p).
  { rewrite <- (map_id (pr_User p)) at 2. apply map_ext. by intros []. }
  unfold Properties_Copy. rewrite H. by destruct p.
Qed.

Lemma outgoing_qos cl sub pk :
  pk_Qos (outgoing_publish e cl sub pk) = Z.min (Z.min (pk_Qos pk) (sub_Qos sub)) (ca_MaximumQos (ev_Capabilities e)).
Proof.
  unfold outgoing_publish. cbv zeta. set (out := if (0 <? size _)%nat then _ else _).
  assert (Hq : pk_Qos out = pk_Qos pk) by (unfold out; by destruct (0 <? size _)%nat, (_ && _)). clearbody out.
  change (let q := if sub_Qos sub <? pk_Qos out then sub_Qos sub else pk_Qos out in
    (if ca_MaximumQos (ev_Capabilities e) <? q then ca_MaximumQos (ev_Capabilities e) else q) =
    Z.min (Z.min (pk_Qos pk) (sub_Qos sub)) (ca_MaximumQos (ev_Capabilities e))).
  cbv zeta. rewrite Hq. destruct (Z.ltb_spec (sub_Qos sub) (pk_Qos pk)).
  - destruct (Z.ltb_spec (ca_MaximumQos (ev_Capabilities e)) (sub_Qos sub)); lia.
  - destruct (Z.ltb_spec (ca_MaximumQos (ev_Capabilities e)) (pk_Qos pk)); lia.
Qed.

(** The properties of the copy before it gets an alias. *)
Lemma outgoing_properties cl sub pk :
  exists ids, identifiers_for sub (pr_SubscriptionIdentifier (pk_Properties pk)) ids /\
    pk_Properties (outgoing_publish e cl sub pk) =
      (pk_Properties pk) <| pr_TopicAlias := 0 |> <| pr_TopicAliasFlag := false |> <| pr_SubscriptionIdentifier := ids |>.
Proof.
  unfold outgoing_publish, identifiers_for. cbv zeta. set (ids := default ∅ (sub_Identifiers sub)).
  rewrite <- Properties_Copy_eq.
  destruct (Nat.ltb_spec 0 (size ids)) as [Hp|Hp].
  - exists (merge_sort Z.le (range ids).*2). split; [|by destruct (_ && _)].
    rewrite decide_False by (intros E; rewrite E, map_size_empty in Hp; lia).
    split; [apply Sorted_merge_sort, _|]. rewrite merge_sort_Permutation. apply fmap_Permutation, range_perm.
  - exists (pr_SubscriptionIdentifier (pk_Properties pk)). split; [|by destruct (_ && _)].
    rewrite decide_True; [done|]. apply map_size_empty_inv. lia.
Qed.

Lemma outgoing_retain cl sub pk (v := cp_ProtocolVersion (cl_Properties cl)) :
  fh_Retain (pk_FixedHeader (outgoing_publish e cl sub pk)) =
    fh_Retain (pk_FixedHeader pk) && (sub_FwdRetainedFlag sub || (v =? 5) && sub_RetainAsPublished sub || (5 <? v)).
Proof.
  unfold outgoing_publish. cbv zeta. fold v. destruct (0 <? size _)%nat.
  all: destruct (Z.eqb_spec v 5), (Z.ltb_spec v 5), (Z.ltb_spec 5 v); try lia.
  all: destruct (sub_FwdRetainedFlag sub), (sub_RetainAsPublished sub), (fh_Retain (pk_FixedHeader pk)) eqn:E; (done || exact E).
Qed.

(** The copy with an alias carries the message. *)
Lemma outgoing_message cl sub pk alias (name : gostr) :
  alias_for (ta_Outbound (st_TopicAliases (cl_State cl))) (0 <? pr_TopicAliasMaximum (cp_Props (cl_Properties cl)))
    (pk_TopicName pk) name alias ->
  message_for cl sub pk ((outgoing_publish e cl sub pk)
    <| pk_Properties ::= fun p => p <| pr_TopicAlias := alias |> <| pr_TopicAliasFlag := 0 <? alias |> |>
    <| pk_TopicName := name |>).
Proof.
  intros Ha. pose proof (outgoing_qos cl sub pk) as Hq. pose proof (outgoing_retain cl sub pk) as Hr.
  destruct (outgoing_properties cl sub pk) as (ids & Hi & E).
  assert (Ho : pk_Type (outgoing_publish e cl sub pk) = pk_Type pk /\ pk_Payload (outgoing_publish e cl sub pk) = pk_Payload pk /\
    pk_Origin (outgoing_publish e cl sub pk) = pk_Origin pk /\ pk_Created (outgoing_publish e cl sub pk) = pk_Created pk /\
    fh_Dup (pk_FixedHeader (outgoing_publish e cl sub pk)) = false).
  { unfold outgoing_publish. cbv zeta. by destruct (_ && _), (0 <? size _)%nat. }
  destruct Ho as (H1 & H2 & H3 & H4 & H5). generalize dependent (outgoing_publish e cl sub pk). intros out Hq Hr E H1 H2 H3 H4 H5.
  constructor; try done. exists alias, ids. split; [|by split].
  transitivity ((pk_Properties out) <| pr_TopicAlias := alias |> <| pr_TopicAliasFlag := 0 <? alias |>); [done|by rewrite E].
Qed.

Lemma outgoing_topic cl sub pk : pk_TopicName (outgoing_publish e cl sub pk) = pk_TopicName pk.
Proof. unfold outgoing_publish. cbv zeta. by destruct (_ && _), (0 <? size _)%nat. Qed.

Lemma outgoing_expiry cl sub pk : pk_Expiry (outgoing_publish e cl sub pk) = pk_Expiry pk.
Proof. unfold outgoing_publish. cbv zeta. by destruct (_ && _), (0 <? size _)%nat. Qed.

(** ** The steps of [publishToClient] *)

(** Which alias the outbound table gives. *)
Lemma send_topic_for a topic :
  outbound_ok a ->
  let '((alias, name), _) := send_topic a topic in 0 <= alias /\ alias_for a true topic name alias.
Proof.
  intros Ha. unfold send_topic. pose proof (OutboundTopicAliases_Set_ok a topic Ha) as S.
  destruct (OutboundTopicAliases_Set a topic) as [[alias existed] a']. destruct S as [Hok _ Hkeep Hex Hal Hnone _].
  destruct (Z.ltb_spec 0 alias) as [Hp|Hp]; cbn [andb].
  - split; [lia|]. constructor; [done|intros t Ht; apply (ob_inj _ Hok t topic alias); [by apply Hkeep|by apply Hal]|].
    destruct existed; [|by left]. right. split; [done|]. by apply Hex.
  - destruct (Hnone Hp) as (-> & _). split; [done|]. constructor; [done|intros t Ht|by left].
    apply (ob_range _ Ha) in Ht. lia.
Qed.

Lemma alias_publish_spec cl sub pk cv :
  view_ok e cv -> cl = cv_client cv ->
  wp (alias_publish pk (outgoing_publish e cl sub pk)) cv (fun r cv' =>
    view_ok e cv' /\ steady cv cv' /\ view_map cv' = view_map cv /\
    exists out, r = inl out /\ message_for cl sub pk out /\ pk_Expiry out = pk_Expiry pk).
Proof.
  intros Hcv ->. pose proof (keeps_alias_publish e pk (outgoing_publish e (cv_client cv) sub pk) cv Hcv) as Hk. revert Hk.
  pose proof (fun alias name => outgoing_message (cv_client cv) sub pk alias name) as Hm.
  pose proof (outgoing_topic (cv_client cv) sub pk) as Ht. pose proof (outgoing_expiry (cv_client cv) sub pk) as Hx.
  destruct (outgoing_properties (cv_client cv) sub pk) as (ids & _ & Ep).
  unfold alias_publish, wp, mbind, GoM_bind. cbn [get_client].
  pose proof (send_topic_for (ta_Outbound (st_TopicAliases (cl_State (cv_client cv)))) (pk_TopicName pk) (ko_aliases _ _ Hcv)) as Hs.
  set (out := outgoing_publish e (cv_client cv) sub pk) in *. clearbody out.
  destruct (0 <? _) eqn:Hmax; intros H.
  - destruct (send_topic _ _) as [[alias name] a]. destruct Hs as [Hal Hs]. split_and!; [done|done|done|].
    eexists. split; [reflexivity|]. specialize (Hm alias name Hs). revert Hm.
    destruct (Z.ltb_spec 0 alias) as [Hp|Hp]; [done|]. assert (alias = 0) as -> by lia. intros Hm.
    assert (Hn : name = pk_TopicName pk).
    { destruct (af_name _ _ _ _ _ Hs) as [|[_ Hin]]; [done|]. apply (ob_range _ (ko_aliases _ _ Hcv)) in Hin. lia. }
    split; [|done]. rewrite Hn in Hm. destruct out. cbn in *. subst. exact Hm.
  - split_and!; [done|done|done|]. exists out. split; [done|]. split; [|done].
    assert (Ha : alias_for (ta_Outbound (st_TopicAliases (cl_State (cv_client cv)))) false (pk_TopicName pk) (pk_TopicName pk) 0).
    { constructor; [done| |by left]. intros t Hin. apply (ob_range _ (ko_aliases _ _ Hcv)) in Hin. lia. }
    specialize (Hm 0 _ Ha). destruct out. cbn in *. subst. exact Hm.
Qed.

Lemma take_send_quota_spec cv :
  wp (take_send_quota e) cv (fun r cv' =>
    steady cv cv' /\ view_map cv' = view_map cv /\ exists took wait, r = inl (took, wait)).
Proof.
  unfold take_send_quota. apply wp_bind. cbn [get_client wp].
  destruct (5 <=? _).
  - destruct (0 <? _); [|apply wp_ret; eauto using steady_refl].
    apply wp_bind. unfold wp at 1. rewrite inflight_run. apply wp_ret.
    split_and!; [apply steady_inflight|apply DecreaseSendQuota_internal|eauto].
  - apply wp_bind, wp_when; intros _; [apply wp_inflight_|]; apply wp_ret; split_and!; eauto using steady_refl.
    apply steady_inflight.
Qed.

(** No packet id can be given: the in-flight map has reached the cap, or every id is in use. *)
Definition no_id (max : Z) (cl : Client) : Prop :=
  ~ has_room max (cl_Inflight cl) \/
  forall j, 1 <= j <= ca_maximumPacketID (ev_Capabilities e) -> is_Some (client_map cl !! j).

Lemma next_packet_id_spec max cv :
  view_ok e cv ->
  wp (next_packet_id e max) cv (fun r cv' => match r with
    | inl i => view_ok e cv' /\ steady cv cv' /\ 1 <= i < 65536 /\ view_map cv !! i = None /\
        view_map cv' = <[i := reservation (ev_now e) i]> (view_map cv)
    | inr _ => cv' = cv /\ no_id max (cv_client cv)
    end).
Proof.
  intros Hcv. pose proof (keeps_next_packet_id e He max cv Hcv) as Hk. revert Hk.
  unfold wp, next_packet_id, NextPacketIDUnderCap.
  pose proof (nextPacketID_outcome (ev_Options e) (ev_now e) (cv_client cv) max (ko_packetID _ _ Hcv)
    (proj2 (eo_max_id e He))) as H.
  destruct (nextPacketID _ _ _ _) as [[i cl']|err| |]; [|by destruct H|done|done].
  destruct H as (_ & (Hr & Hfree & _) & ->). intros Hk. pose proof (eo_max_id e He). unfold ev_Capabilities in *.
  split_and!; [done|done|lia|lia|done|done].
Qed.

(** A reservation gives way to its message. *)
Lemma replace_counted_spec out cv now :
  view_map cv !! pk_PacketID out = Some (reservation now (pk_PacketID out)) ->
  wp (replace_counted out) cv (fun r cv' =>
    r = inl true /\ steady cv cv' /\ view_map cv' = <[pk_PacketID out := out]> (view_map cv)).
Proof.
  intros H. unfold replace_counted. apply wp_bind. unfold wp at 1. rewrite inflight_run.
  assert (Inflight_ReplaceCounted (cl_Inflight (cv_client cv)) out =
    (true, (cl_Inflight (cv_client cv)) <| if_internal ::= <[pk_PacketID out := out]> |>)) as ->.
  { unfold Inflight_ReplaceCounted. unfold view_map, client_map in H. by rewrite H. }
  apply wp_bind, wp_when; [|done]. intros _. apply wp_modify, wp_ret. done.
Qed.

(** The message with its packet id, and the mark of a parked message. *)
Definition renumbered (pk out : Packet) (i : Z) (parked : bool) : Packet :=
  let out := complete_from e pk (out <| pk_PacketID := i |>) in
  if parked then out <| pk_Expiry := InflightExpiryDeferred |> else out.

(** The outcome of tracking a qos message. *)
Definition tracked (pk out : Packet) (cv : ClientView) (r : Packet * bool + error) (cv' : ClientView) : Prop :=
  steady cv cv' /\
  match r with
  | inr err => view_map cv' = view_map cv /\ err = ECode ErrQuotaExceeded /\
      no_id (ca_MaximumInflight (ev_Capabilities e)) (cv_client cv)
  | inl (out', parked) =>
      1 <= pk_PacketID out' < 65536 /\ view_map cv !! pk_PacketID out' = None /\
      out' = renumbered pk out (pk_PacketID out') parked /\
      if parked then strip <$> view_map cv' = strip <$> <[pk_PacketID out' := out']> (view_map cv)
      else view_map cv' = <[pk_PacketID out' := out']> (view_map cv)
  end.

Lemma complete_from_qos original pk : pk_Qos (complete_from e original pk) = pk_Qos pk.
Proof. unfold complete_from. by destruct (_ && _). Qed.

Lemma track_publish_spec pk out cv : view_ok e cv -> wp (track_publish e pk out) cv (tracked pk out cv).
Proof.
  intros Hcv. unfold track_publish. apply wp_bind, wp_attempt.
  eapply wp_mono; [by apply next_packet_id_spec|]. intros [i|err] cv1.
  2: { intros [-> Hno]. by apply wp_bind, wp_modify, wp_bind, wp_modify, wp_throw. }
  intros (Hcv1 & S1 & Hi & Hfree & Hm1). cbv zeta.
  rewrite (to_u16_id i) by (unfold is_u16; lia). set (out' := complete_from e pk _).
  assert (Hid : pk_PacketID out' = i) by (unfold out'; by rewrite complete_from_id).
  assert (Hq : forall b, (if b : bool then out' <| pk_Expiry := InflightExpiryDeferred |> else out') = renumbered pk out i b) by done.
  clearbody out'.
  apply wp_bind. pose proof (keeps_take_send_quota e He cv1 Hcv1) as Hk.
  eapply wp_mono; [apply wp_and; [exact Hk|apply take_send_quota_spec]|].
  intros r cv2 (Hcv2 & S2 & Hm2 & took & wait & ->).
  pose proof (steady_trans _ _ _ S1 S2) as S12.
  assert (Hres : view_map cv2 !! i = Some (reservation (ev_now e) i)) by (rewrite Hm2, Hm1; apply lookup_insert_eq).
  assert (Hins : forall w, <[i := w]> (view_map cv2) = <[i := w]> (view_map cv))
    by (intros w; by rewrite Hm2, Hm1, insert_insert_eq).
  destruct wait.
  - set (outd := out' <| pk_Expiry := InflightExpiryDeferred |>).
    assert (Hidd : pk_PacketID outd = i) by exact Hid.
    apply wp_bind.
    assert (Hk3 : wp (replace_counted outd) cv2 (fun _ => view_ok e)).
    { apply keeps_replace_counted; [|done]. rewrite Hidd. unfold is_u16. lia. }
    eapply wp_mono; [apply wp_and; [exact Hk3|apply (replace_counted_spec outd cv2 (ev_now e)); by rewrite Hidd]|].
    intros r cv3 (Hcv3 & -> & S3 & Hm3). cbn [negb].
    apply wp_bind, wp_modify. apply wp_bind, wp_ignore.
    eapply wp_mono; [apply resume_outcome_spec; [done|exact Hcv3]|].
    intros r cv4 (_ & R & _). apply wp_ret. rewrite Hidd, Hins in Hm3.
    pose proof (resumed_steady _ _ R) as S4. destruct R as [_ R].
    split; [exact (steady_trans _ _ _ S12 (steady_trans _ _ _ S3 (steady_trans _ _ _ (steady_events _ _) S4)))|].
    split_and!; [rewrite Hidd; lia|rewrite Hidd; lia|by rewrite Hidd|rewrite Hidd; exact (Hq true)|].
    unfold view_map at 1, client_map at 1. rewrite R. change (strip <$> view_map cv3 = strip <$> <[pk_PacketID outd := outd]> (view_map cv)).
    by rewrite Hm3, Hidd.
  - apply wp_bind. eapply wp_mono; [apply (replace_counted_spec out' cv2 (ev_now e)); by rewrite Hid|].
    intros r cv3 (-> & S3 & Hm3). cbn [negb]. rewrite Hid, Hins in Hm3.
    apply wp_bind, wp_modify. apply wp_bind. cbn [get_client wp]. apply wp_bind, wp_when; intros _.
    + apply wp_inflight_, wp_ret.
      split; [exact (steady_trans _ _ _ S12 (steady_trans _ _ _ S3 (steady_trans _ _ _ (steady_events _ _) (steady_inflight _ _))))|].
      split_and!; [rewrite Hid; lia|rewrite Hid; lia|by rewrite Hid|rewrite Hid; exact (Hq false)|]. rewrite Hid, <- Hm3.
      apply DecreaseSendQuota_internal.
    + apply wp_ret. split; [exact (steady_trans _ _ _ S12 (steady_trans _ _ _ S3 (steady_events _ _)))|].
      split_and!; [rewrite Hid; lia|rewrite Hid; lia|by rewrite Hid|rewrite Hid; exact (Hq false)|]. by rewrite Hid, <- Hm3.
Qed.

Lemma untrack_spec out cv :
  wp (untrack out) cv (fun r cv' => r = inl tt /\ steady cv cv' /\ view_map cv' = delete (pk_PacketID out) (view_map cv)).
Proof.
  unfold untrack. apply wp_bind. unfold wp at 1. rewrite inflight_run. apply wp_when; [|done]. intros _.
  apply wp_bind, wp_modify, wp_inflight_. split_and!; [done|done|]. apply IncreaseSendQuota_internal.
Qed.

(** A connected client with room in its queue. *)
Definition accepting (cl : Client) : Prop :=
  connected cl = true /\ Z.of_nat (length (client_queue cl)) < ca_MaximumClientWritesPending (ev_Capabilities e).

Lemma accepting_steady cv cv' : steady cv cv' -> accepting (cv_client cv') -> accepting (cv_client cv).
Proof. intros S [H1 H2]. unfold accepting. rewrite <- (sd_connected _ _ S). split; [done|]. pose proof (sd_queue _ _ S) as E. unfold view_queue in E. by rewrite <- E. Qed.

(** The outcome of queueing: the message is last in the queue, or forgotten. *)
Definition queued (out : Packet) (cv : ClientView) (r : Packet + error) (cv' : ClientView) : Prop :=
  net_Inline (cl_Net (cv_client cv')) = net_Inline (cl_Net (cv_client cv)) /\
  match r with
  | inl out' => out' = out /\ view_map cv' = view_map cv /\ view_queue cv' = view_queue cv ++ [out] /\ accepting (cv_client cv)
  | inr err =>
      view_queue cv' = view_queue cv /\
      view_map cv' = (if 0 <? pk_Qos out then delete (pk_PacketID out) (view_map cv) else view_map cv) /\
      ((err = ECode CodeDisconnect /\ connected (cv_client cv) = false) \/
       (err = ECode ErrPendingClientWritesExceeded /\
        ca_MaximumClientWritesPending (ev_Capabilities e) <= Z.of_nat (length (view_queue cv))))
  end.

Lemma queue_publish_spec pk out cv :
  (0 < pk_Qos out -> 0 < pk_PacketID out) -> wp (queue_publish e pk out) cv (queued out cv).
Proof.
  intros Hid. unfold queue_publish. apply wp_bind. cbn [get_client wp].
  assert (Hun : forall err cv1 (b : bool), b = (0 <? pk_Qos out) -> steady cv cv1 -> view_map cv1 = view_map cv ->
    ((err = ECode CodeDisconnect /\ connected (cv_client cv) = false) \/
     (err = ECode ErrPendingClientWritesExceeded /\
      ca_MaximumClientWritesPending (ev_Capabilities e) <= Z.of_nat (length (view_queue cv)))) ->
    wp (when b (untrack out);; throw (A := Packet) err) cv1 (queued out cv)).
  { intros err cv1 b -> S1 Hm Herr. apply wp_bind, wp_when; intros Hb.
    - eapply wp_mono; [apply untrack_spec|]. intros r cv2 (-> & S2 & Hm2). apply wp_throw.
      pose proof (steady_trans _ _ _ S1 S2) as S12. split_and!; [apply S12|apply S12| |done]. by rewrite Hb, Hm2, Hm.
    - apply wp_throw. split_and!; [apply S1|apply S1|by rewrite Hb|done]. }
  destruct (negb _ || _) eqn:Hc.
  - apply Hun; [|done|done|left; split; [done|]].
    + destruct (Z.ltb_spec 0 (pk_Qos out)); [|done]. apply Z.ltb_lt. auto.
    + unfold connected. by destruct (net_Conn _), (Client_Closed _).
  - apply wp_bind. unfold enqueue. apply wp_bind. cbn [get_client wp].
    destruct (Z.ltb_spec (Z.of_nat (length (st_outbound (cl_State (cv_client cv)))))
      (ca_MaximumClientWritesPending (ev_Capabilities e))) as [Hroom|Hfull].
    + apply wp_bind, wp_modify, wp_ret, wp_ret. split_and!; [done..|]. split; [|exact Hroom].
      apply orb_false_iff in Hc as [Hc1 Hc2]. apply negb_false_iff in Hc1. unfold connected. by rewrite Hc1, Hc2.
    + apply wp_ret. apply wp_bind, wp_modify, wp_bind, wp_modify. apply Hun; [done|done|done|]. by right.
Qed.

(** ** The outcome of [publishToClient] *)

(** Why a message is not delivered. *)
Inductive refusal (pk : Packet) (cl : Client) : error -> Prop :=
| refused_acl : hk_OnACLCheck (ev_Hooks e) cl (pk_TopicName pk) false = false ->
    refusal pk cl (ECode ErrNotAuthorized)
| refused_no_id : no_id (ca_MaximumInflight (ev_Capabilities e)) cl -> refusal pk cl (ECode ErrQuotaExceeded)
| refused_disconnected : connected cl = false -> refusal pk cl (ECode CodeDisconnect)
| refused_full : ca_MaximumClientWritesPending (ev_Capabilities e) <= Z.of_nat (length (client_queue cl)) ->
    refusal pk cl (ECode ErrPendingClientWritesExceeded).

(** Nothing for the client of a no-local subscription; else the message, queued
    or parked, or the reason why not. *)
Definition delivery (sub : Subscription) (pk : Packet) (cl : Client) (r : Packet + error) (cl' : Client) : Prop :=
  net_Inline (cl_Net cl') = net_Inline (cl_Net cl) /\
  match r with
  | inr err => client_map cl' = client_map cl /\ client_queue cl' = client_queue cl /\ refusal pk cl err
  | inl out =>
      if sub_NoLocal sub && str_eqb (pk_Origin pk) (cl_ID cl) then cl' = cl /\ out = pk
      else
        hk_OnACLCheck (ev_Hooks e) cl (pk_TopicName pk) false = true /\ message_for cl sub pk out /\
        let queued := client_queue cl' = client_queue cl ++ [out] /\ accepting cl /\ pk_Expiry out = pk_Expiry pk in
        if 0 <? pk_Qos out then
          1 <= pk_PacketID out < 65536 /\ client_map cl !! pk_PacketID out = None /\
          ((client_map cl' = <[pk_PacketID out := out]> (client_map cl) /\ queued) \/
           (strip <$> client_map cl' = strip <$> <[pk_PacketID out := out]> (client_map cl) /\ client_queue cl' = client_queue cl /\
            pk_Expiry out = InflightExpiryDeferred))
        else client_map cl' = client_map cl /\ queued
  end.

Lemma renumbered_for cl sub pk out i parked :
  message_for cl sub pk out -> message_for cl sub pk (renumbered pk out i parked) /\ pk_Qos (renumbered pk out i parked) = pk_Qos out /\
  pk_Expiry (renumbered pk out i parked) = if parked then InflightExpiryDeferred else pk_Expiry out.
Proof.
  intros H. pose proof (message_for_id cl sub pk out i H) as Hm. unfold renumbered. cbv zeta. split_and!.
  - destruct parked; [by apply message_for_expiry|done].
  - destruct parked; [change (pk_Qos (?o <| pk_Expiry := ?x |>)) with (pk_Qos o)|]; by rewrite complete_from_qos.
  - destruct parked; [done|]. unfold complete_from. by destruct (_ && _).
Qed.

(** Queueing ends a delivery. *)
Lemma queue_delivery sub pk cv out cv1 cv2 out' :
  sub_NoLocal sub && str_eqb (pk_Origin pk) (cl_ID (cv_client cv)) = false ->
  hk_OnACLCheck (ev_Hooks e) (cv_client cv) (pk_TopicName pk) false = true ->
  steady cv cv1 -> steady cv1 cv2 -> message_for (cv_client cv) sub pk out' -> pk_Expiry out' = pk_Expiry pk -> pk_Qos out' = pk_Qos out ->
  (0 < pk_Qos out' -> 1 <= pk_PacketID out' < 65536 /\ view_map cv !! pk_PacketID out' = None /\
     view_map cv2 = <[pk_PacketID out' := out']> (view_map cv)) ->
  (pk_Qos out' <= 0 -> view_map cv2 = view_map cv) ->
  wp (queue_publish e pk out') cv2 (fun r cv' => delivery sub pk (cv_client cv) r (cv_client cv')).
Proof.
  intros Hnl Hacl S1 S2 Hmf Hx Hq' Htr Hun. pose proof (steady_trans _ _ _ S1 S2) as S12.
  eapply wp_mono; [apply queue_publish_spec; intros H; destruct (Htr H); lia|].
  unfold delivery, queued. intros r cv3 [Hin Hr]. split; [rewrite Hin; apply S12|]. revert Hr. destruct r as [o|err].
  - intros (-> & Hm3 & Hq3 & Hacc%(accepting_steady _ _ S12)). rewrite (sd_queue _ _ S12) in Hq3. rewrite Hnl. unfold view_map, view_queue in *.
    split; [done|]. split; [done|]. cbv zeta. destruct (Z.ltb_spec 0 (pk_Qos out')) as [Hp|Hp].
    + destruct (Htr Hp) as (? & ? & Hm). split_and!; [lia|lia|done|]. left. split; [by rewrite Hm3, Hm|done].
    + split; [by rewrite Hm3, Hun|done].
  - intros (Hq3 & Hm3 & Herr). rewrite (sd_queue _ _ S12) in *. unfold view_map, view_queue in *. split_and!; [|done|].
    + rewrite Hm3. destruct (Z.ltb_spec 0 (pk_Qos out')) as [Hp|Hp]; [|auto].
      destruct (Htr Hp) as (? & Hn & ->). by apply delete_insert_id.
    + destruct Herr as [[-> Hc]|[-> Hf]].
      * constructor. by rewrite <- (sd_connected _ _ S12).
      * by constructor.
Qed.

Lemma publishToClient_outcome sub pk cv :
  view_ok e cv -> wp (publishToClient e sub pk) cv (fun r cv' => delivery sub pk (cv_client cv) r (cv_client cv')).
Proof.
  intros Hcv. unfold publishToClient. apply wp_bind. cbn [get_client wp].
  destruct (sub_NoLocal sub && _) eqn:Hnl; [apply wp_ret; unfold delivery; by rewrite Hnl|].
  destruct (hk_OnACLCheck _ _ _ _) eqn:Hacl; cbn [negb]; [|apply wp_throw; split; [done|]; by split_and!; [..|constructor]].
  apply wp_bind. eapply wp_mono; [by apply alias_publish_spec|].
  intros r cv1 (Hcv1 & S1 & Hm1 & out & -> & Hmf & Hx).
  destruct (Z.ltb_spec 0 (pk_Qos out)) as [Hp|Hp].
  - apply wp_bind. eapply wp_mono; [by apply track_publish_spec|]. intros [[out' parked]|err] cv2 [S2 Ht].
    + destruct Ht as (Hid & Hn & Ho & Ht). rewrite Hm1 in Hn, Ht.
      destruct (renumbered_for _ _ _ _ (pk_PacketID out') parked Hmf) as (Hmf' & Hq' & Hx'). rewrite <- Ho in Hmf', Hq', Hx'. destruct parked.
      * apply wp_ret. unfold delivery. split; [exact (sd_inline _ _ (steady_trans _ _ _ S1 S2))|]. rewrite Hnl. split; [done|]. split; [done|].
        cbv zeta. rewrite (proj2 (Z.ltb_lt _ _)) by lia.
        split_and!; [lia|lia|done|]. right. split; [done|]. split; [exact (sd_queue _ _ (steady_trans _ _ _ S1 S2))|done].
      * eapply (queue_delivery sub pk cv out cv1 cv2); [done..|by rewrite Hx'|done|done|lia].
    + destruct Ht as (Hm2 & -> & Hno). split; [exact (sd_inline _ _ (steady_trans _ _ _ S1 S2))|]. split_and!; [exact (eq_trans Hm2 Hm1)|exact (sd_queue _ _ (steady_trans _ _ _ S1 S2))|].
      constructor. unfold no_id, has_room, Inflight_Len, view_map, client_map in *. by rewrite Hm1 in Hno.
  - eapply (queue_delivery sub pk cv out cv1 cv1); [done..|lia|done].
Qed.
End Delivery.


Definition connected_view : ClientView := mkClientView (newClient DefaultOptions (Some [])) Info0 [].

Lemma connected_view_ok : view_ok reliable_env connected_view.
Proof.
  constructor; [apply NewInflights_ok|split; discriminate|apply NewOutbound_ok; split; [discriminate|reflexivity]|].
  split; [discriminate|reflexivity].
Qed.

Lemma reliable_env_ok : env_ok reliable_env.
Proof.
  constructor; try (vm_compute; split; [discriminate|reflexivity]).
  - exact reliable_ok.
  - intros cl pk pk' err [= <- _]. done.
  - intros cl pk pk' err [= _ ?].
Qed.

Definition hello : Packet :=
  Packet0 <| pk_FixedHeader := mkFixedHeader 0 Publish 1 false false |> <| pk_TopicName := !"a/b" |> <| pk_Payload := !"hi" |>.


(** C15: Resuming parked messages of a connected client ends with no message
    parked or no send quota left, loses no in-flight message (the map is the
    same but for the marks), and changes nothing else of the client but the
    bytes on their way; when the connection fails the message goes back. *)
Theorem resume_drains `{RO : RangeOrder} e cv :
  env_ok e -> view_ok e cv ->
  wp (resumeDeferredPublishes e) cv (fun r cv' =>
    view_ok e cv' /\ resumed cv cv' /\ (r = inl tt -> connected (cv_client cv) = true -> drained cv')).
Proof. intros He Hcv. by apply resume_outcome_spec. Qed.

Definition parked_inflight : Inflight :=
  let park i id := (Inflight_Set i (hello <| pk_PacketID := id |> <| pk_Expiry := InflightExpiryDeferred |>)).2 in
  park (park (park (Inflight_ResetSendQuota NewInflights 2) 1) 2) 3.

Definition parked_view : ClientView := connected_view <| cv_client ::= fun cl => with_inflight cl parked_inflight |>.

Lemma parked_view_ok : view_ok reliable_env parked_view.
Proof.
  apply view_ok_inflight; [apply connected_view_ok|].
  assert (Hs : forall i m, inflight_ok i -> is_u16 (pk_PacketID m) -> inflight_ok (Inflight_Set i m).2)
    by (intros i m Hi Hm; exact (apply_op_ok i (OpSet m) Hi Hm)).
  assert (Hq : inflight_ok (Inflight_ResetSendQuota NewInflights 2)).
  { refine (apply_op_ok _ (OpResetSendQuota 2) NewInflights_ok _). split; [discriminate|reflexivity]. }
  unfold parked_inflight. cbv zeta. apply Hs; [apply Hs; [apply Hs; [exact Hq|]|]|].
  all: split; [discriminate|reflexivity].
Qed.

Lemma resume_drains_witness :
  exists cv', resumeDeferredPublishes reliable_env parked_view = (Ok tt, cv') /\ drained cv'.
Proof.
  pose proof (resume_drains reliable_env parked_view reliable_env_ok parked_view_ok) as H. unfold wp in H.
  destruct (resumeDeferredPublishes _ parked_view) as [r cv'] eqn:E.
  assert (r = Ok tt) as -> by (apply (f_equal fst) in E; cbn [fst] in E; rewrite <- E; vm_compute; reflexivity).
  exists cv'. split; [done|]. by apply H.
Defined.
