(* ===== verification/Handshakes.v ===== *)
(** * The acknowledgements of a client

    What each acknowledgement does to the in-flight map and the quotas. *)
From S2P Require Import Prelude Codes Effects Codec FixedHeader Properties Packets Wire Topics Aliases Inflight InflightFacts System Clients ClientIO ClientIOFacts ClientFacts Publish PublishFacts Delivery.

Section Acks.
Context (e : Env) (He : env_ok e) {RO : RangeOrder}.

(** The in-flight map and the quotas of the client. *)
Definition window (cv : ClientView) : Inflight := cl_Inflight (cv_client cv).

(** [cv'] is [cv] with the in-flight map and quotas [w] and the gauge changed by [n]. *)
Definition moved (cv cv' : ClientView) (w : Inflight) (n : Z) : Prop :=
  cv_client cv' = with_inflight (cv_client cv) w /\
  in_Inflight (cv_Info cv') = add64 n (in_Inflight (cv_Info cv)).

(** The same, but for bytes written to the connection or its buffer. *)
Definition moved_writing (cv cv' : ClientView) (w : Inflight) : Prop :=
  exists written ob,
    cv_client cv' = (with_inflight (cv_client cv) w) <| cl_Net ::= fun n => n <| net_written := written |> <| net_outbuf := ob |> |> /\
    in_Inflight (cv_Info cv') = in_Inflight (cv_Info cv).

Lemma wp_inflight {A} (op : Inflight -> A * Inflight) cv (Q : A + error -> ClientView -> Prop) :
  Q (inl (op (window cv)).1) (cv <| cv_client ::= fun cl => with_inflight cl (op (window cv)).2 |>) ->
  wp (inflight op) cv Q.
Proof. intros H. unfold wp. by rewrite inflight_run. Qed.

(** The quotas go up to their maximum and down to 0. *)
Definition send_back (w : Inflight) : Inflight := w <| if_sendQuota := Z.min (if_maximumSendQuota w) (if_sendQuota w + 1) |>.
Definition receive_back (w : Inflight) : Inflight := w <| if_receiveQuota := Z.min (if_maximumReceiveQuota w) (if_receiveQuota w + 1) |>.
Definition receive_taken (w : Inflight) : Inflight := w <| if_receiveQuota := Z.max 0 (if_receiveQuota w - 1) |>.

Lemma IncreaseSendQuota_eq w : inflight_ok w -> (Inflight_IncreaseSendQuota w).2 = send_back w.
Proof.
  intros [_ _ Hs _ Hm]. unfold is_quota in Hm. unfold Inflight_IncreaseSendQuota, send_back. destruct (Z.leb_spec (if_maximumSendQuota w) (if_sendQuota w)).
  - rewrite Z.min_l by lia. replace (if_maximumSendQuota w) with (if_sendQuota w) by lia. by destruct w.
  - cbn [snd]. rewrite Z.min_r, to_i32_id by lia. done.
Qed.

Lemma IncreaseReceiveQuota_eq w : inflight_ok w -> (Inflight_IncreaseReceiveQuota w).2 = receive_back w.
Proof.
  intros [_ Hs _ Hm _]. unfold is_quota in Hm. unfold Inflight_IncreaseReceiveQuota, receive_back. destruct (Z.leb_spec (if_maximumReceiveQuota w) (if_receiveQuota w)).
  - rewrite Z.min_l by lia. replace (if_maximumReceiveQuota w) with (if_receiveQuota w) by lia. by destruct w.
  - cbn [snd]. rewrite Z.min_r, to_i32_id by lia. done.
Qed.

Lemma DecreaseReceiveQuota_eq w : inflight_ok w -> (Inflight_DecreaseReceiveQuota w).2 = receive_taken w.
Proof.
  intros [_ Hs _ Hm _]. unfold is_quota in Hm. unfold Inflight_DecreaseReceiveQuota, receive_taken. destruct (Z.leb_spec (if_receiveQuota w) 0).
  - rewrite Z.max_l by lia. replace 0 with (if_receiveQuota w) at 1 by lia. by destruct w.
  - cbn [snd]. rewrite Z.max_r, to_i32_id by lia. done.
Qed.

Lemma wp_increase_send cv (Q : unit + error -> ClientView -> Prop) :
  inflight_ok (window cv) ->
  Q (inl tt) (cv <| cv_client ::= fun cl => with_inflight cl (send_back (window cv)) |>) ->
  wp (inflight_ Inflight_IncreaseSendQuota) cv Q.
Proof. intros Hw HQ. apply wp_inflight_. by rewrite IncreaseSendQuota_eq. Qed.

(** [processPuback] of a known id. *)
Lemma puback_known pk v cv :
  view_ok e cv -> view_map cv !! pk_PacketID pk = Some v -> pk_Expiry v <> InflightExpiryReserved ->
  wp (processPuback e pk) cv (fun r cv' =>
    r = inl tt /\ moved cv cv' (send_back ((window cv) <| if_internal ::= delete (pk_PacketID pk) |>)) (-1)).
Proof.
  intros Hcv Hv Hr. unfold processPuback. apply wp_bind. cbn [get_client wp].
  unfold Inflight_Get. unfold view_map, client_map in Hv. rewrite Hv. apply wp_bind, wp_inflight.
  unfold window at 1 2. cbn [fst Inflight_Delete]. rewrite Hv, bool_decide_eq_true_2 by eauto.
  rewrite (proj2 (Z.eqb_neq _ _)) by done. cbn [andb negb when].
  apply wp_bind, wp_increase_send; [exact (apply_op_ok _ (OpDelete _) (ko_inflight _ _ Hcv) I)|].
  by apply wp_bind, wp_modify, wp_modify.
Qed.

(** [processPubrec] of a known id: the message is replaced by its release, or dropped. *)
Lemma pubrec_known pk v cv :
  view_ok e cv -> view_map cv !! pk_PacketID pk = Some v -> is_u16 (pk_PacketID pk) ->
  wp (processPubrec e pk) cv (fun r cv' =>
    if refused pk then r = inl tt /\ moved cv cv' ((window cv) <| if_internal ::= delete (pk_PacketID pk) |>) (-1)
    else exists ack, pk_Type ack = Pubrel /\ pk_PacketID ack = pk_PacketID pk /\ pk_Qos ack = 1 /\
      moved_writing cv cv' ((receive_taken (window cv)) <| if_internal ::= <[pk_PacketID pk := ack]> |>)).
Proof.
  intros Hcv Hv Hid. unfold processPubrec. apply wp_bind. cbn [get_client wp].
  unfold Inflight_Get. pose proof Hv as Hv'. unfold view_map, client_map in Hv. rewrite Hv. destruct (refused pk).
  - unfold refuse_handshake. apply wp_bind, wp_inflight. unfold window at 1. cbn [fst Inflight_Delete].
    rewrite Hv, bool_decide_eq_true_2 by eauto. cbn [when]. by apply wp_bind, wp_modify, wp_modify.
  - cbv zeta. apply wp_bind, wp_inflight_. apply wp_bind, wp_inflight_.
    set (ack := complete_from e v _).
    assert (Hack : pk_Type ack = Pubrel /\ pk_PacketID ack = pk_PacketID pk /\ pk_Qos ack = 1)
      by (unfold ack, complete_from; by destruct (_ && _)).
    destruct Hack as (Ht & Hi & Hq). clearbody ack.
    eapply wp_mono; [apply WritePacket_untouched, He|]. intros r cv2 (w & ob & E & Hg). exists ack. split_and!; [done..|].
    exists w, ob. split; [|exact Hg]. rewrite E, <- Hi.
    by rewrite <- (DecreaseReceiveQuota_eq (window cv) (ko_inflight _ _ Hcv)).
Qed.

(** [processPubcomp] of a known id. *)
Lemma pubcomp_known pk v cv :
  view_ok e cv -> view_map cv !! pk_PacketID pk = Some v ->
  wp (processPubcomp e pk) cv (fun r cv' =>
    r = inl tt /\ moved cv cv' ((send_back (receive_back (window cv))) <| if_internal ::= delete (pk_PacketID pk) |>) (-1)).
Proof.
  intros Hcv Hv. unfold processPubcomp. apply wp_bind, wp_inflight_.
  rewrite (IncreaseReceiveQuota_eq _ (ko_inflight _ _ Hcv)). fold (window cv). set (cv1 := cv <| cv_client ::= _ |>).
  assert (Hw1 : inflight_ok (window cv1)).
  { change (inflight_ok (receive_back (window cv))). rewrite <- (IncreaseReceiveQuota_eq (window cv) (ko_inflight _ _ Hcv)).
    exact (apply_op_ok _ OpIncreaseReceiveQuota (ko_inflight _ _ Hcv) I). }
  apply wp_bind, wp_increase_send; [done|]. apply wp_bind. cbn [get_client wp]. unfold Inflight_Get.
  change (if_internal (cl_Inflight (cv_client (cv1 <| cv_client ::= _ |>)))) with (view_map cv). rewrite Hv.
  apply wp_bind, wp_inflight. apply wp_when; intros Hok; [by apply wp_bind, wp_modify, wp_modify|].
  exfalso. cbn [fst Inflight_Delete] in Hok. apply bool_decide_eq_false in Hok. apply Hok. by exists v.
Qed.
End Acks.

(** C14: What the acknowledgements of a sent message do, and that they do
    nothing else to the client. A [Puback] removes the message and gives back
    one unit of send quota. An accepted [Pubrec] replaces the message by its
    [Pubrel] under the same id, takes one unit of receive quota and writes to
    the connection; a refused one drops the message, and gives no quota back (which
    the handshake would require). A [Pubcomp] removes the entry and gives back
    one unit of either quota. No quota passes its maximum or 0, and the gauge of in-flight messages counts what was
    removed. *)
Theorem acks_complete `{RO : RangeOrder} e pk v cv :
  env_ok e -> view_ok e cv -> view_map cv !! pk_PacketID pk = Some v -> pk_Expiry v <> InflightExpiryReserved ->
  is_u16 (pk_PacketID pk) ->
  wp (processPuback e pk) cv (fun r cv' =>
    r = inl tt /\ moved cv cv' (send_back ((window cv) <| if_internal ::= delete (pk_PacketID pk) |>)) (-1)) /\
  wp (processPubrec e pk) cv (fun r cv' =>
    if refused pk then r = inl tt /\ moved cv cv' ((window cv) <| if_internal ::= delete (pk_PacketID pk) |>) (-1)
    else exists ack, pk_Type ack = Pubrel /\ pk_PacketID ack = pk_PacketID pk /\ pk_Qos ack = 1 /\
      moved_writing cv cv' ((receive_taken (window cv)) <| if_internal ::= <[pk_PacketID pk := ack]> |>)) /\
  wp (processPubcomp e pk) cv (fun r cv' =>
    r = inl tt /\ moved cv cv' ((send_back (receive_back (window cv))) <| if_internal ::= delete (pk_PacketID pk) |>) (-1)).
Proof.
  intros He Hcv Hv Hr Hid.
  split; [by eapply puback_known|split; [by eapply pubrec_known|by eapply pubcomp_known]].
Qed.

Definition ack_sample (t : Z) : Packet :=
  Packet0 <| pk_FixedHeader := FixedHeader0 <| fh_Type := t |> |> <| pk_PacketID := 2 |>.

Lemma acks_complete_witness :
  wp (processPuback reliable_env (ack_sample Puback)) parked_view (fun r cv' =>
    window cv' = send_back ((window parked_view) <| if_internal ::= delete 2 |>)).
Proof.
  destruct (acks_complete reliable_env (ack_sample Puback)
    (hello <| pk_PacketID := 2 |> <| pk_Expiry := InflightExpiryDeferred |>) parked_view reliable_env_ok parked_view_ok) as (H & _).
  - vm_compute. reflexivity.
  - discriminate.
  - split; [discriminate|reflexivity].
  - eapply wp_mono; [exact H|]. intros r cv' (_ & Hm & _). exact (f_equal cl_Inflight Hm).
Defined.

(** A [Pubcomp] for an unknown id raises the quota. *)
Lemma pubcomp_unknown_raises :
  let cv := connected_view <| cv_client ::= fun cl => with_inflight cl (mkInflight ∅ 0 3 0 8) |> in
  if_sendQuota (window (processPubcomp reliable_env (ack_sample Pubcomp) cv).2) = 4.
Proof. vm_compute. reflexivity. Qed.
