(* ===== verification/Server.v ===== *)
(** * The server (server.go)

    The state of the broker and its handlers. The client objects live in a
    store and are referred to by address, as the [*Client] pointers of the
    code: an address in [sv_Clients] and one held by a connection's handler can
    be the same object. A handler runs as one step. *)
From S2P Require Import Prelude Codes Effects Codec FixedHeader Properties Packets Wire Topics Aliases Inflight System Clients ClientIO Publish.

Definition Version : gostr := !"2.7.9".
Definition LocalListener : gostr := !"local".
Definition InlineClientId : gostr := !"inline".

Record Server := mkServer {
  sv_store : gmap nat Client;        (* the client objects *)
  sv_Clients : Clients;
  sv_Topics : TopicsIndex;
  sv_Info : Info;
  sv_willDelayed : Packets;
  sv_inlineClient : option nat;
  sv_events : list Event;
}.

(** The client at an address, with the shared state; an address outside the
    store is a nil pointer. *)
Definition client_view (a : nat) (s : Server) : option ClientView :=
  cl ← sv_store s !! a; Some (mkClientView cl (sv_Info s) (sv_events s)).
Definition set_view (a : nat) (cv : ClientView) (s : Server) : Server :=
  s <| sv_store ::= <[a := cv_client cv]> |> <| sv_Info := cv_Info cv |> <| sv_events := cv_events cv |>.

(** An action on the client at an address. *)
Definition on_client {A} (a : nat) (m : GoM ClientView A) : GoM Server A := zoom (client_view a) (set_view a) m.

Definition set_Info (f : Info -> Info) : GoM Server unit := modify (fun s => s <| sv_Info ::= f |>).
Definition event (ev : Event) : GoM Server unit := modify (fun s => s <| sv_events ::= fun l => l ++ [ev] |>).

(** An operation on the topics index. *)
Definition topics {A} (op : TopicsIndex -> A * TopicsIndex) : GoM Server A := fun s =>
  let '(a, x) := op (sv_Topics s) in (Ok a, s <| sv_Topics := x |>).

Definition count_subscriptions (n : Z) : GoM Server unit := set_Info (fun i => i <| in_Subscriptions ::= add64 n |>).

Section Server.
Context (e : Env) {RO : RangeOrder}.
Let caps := ev_Capabilities e.

(** ** Creation *)

Definition NewClient (c : option gostr) (listener id : gostr) (inline : bool) : Client :=
  let cl := newClient (ev_Options e) c in
  let cl := cl <| cl_ID := id |> <| cl_Net ::= fun n => n <| net_Listener := listener |> |> in
  if inline then
    (with_inflight cl (Inflight_ResetReceiveQuota (cl_Inflight cl) (2 ^ 31 - 1)))
      <| cl_Net ::= fun n => n <| net_Inline := true |> |>
  else cl.

(** The address of a new object. *)
Definition fresh_address (s : Server) : nat := fresh (dom (sv_store s)).

Definition allocate (cl : Client) : GoM Server nat := fun s =>
  let a := fresh_address s in (Ok a, s <| sv_store ::= <[a := cl]> |>).

Definition New : Server :=
  let s := mkServer ∅ NewClients NewTopicsIndex (Info0 <| in_Version := Version |> <| in_Started := ev_now e |>) NewPackets None [] in
  if op_InlineClient (ev_Options e) then
    s <| sv_store := {[ 0%nat := NewClient None LocalListener InlineClientId true ]} |>
      <| sv_Clients := Clients_Add NewClients InlineClientId 0 |>
      <| sv_inlineClient := Some 0%nat |>
  else s.

(** ** Publishing *)

Definition message_expiry (pk : Packet) : Z :=
  minimum (ca_MaximumMessageExpiryInterval caps) (pr_MessageExpiryInterval (pk_Properties pk)).

Definition retainMessage (a : nat) (pk : Packet) : GoM Server unit :=
  if (ca_RetainAvailable caps =? 0) || pk_Ignore pk then mret tt
  else
    r ← topics (fun x => TopicsIndex_RetainMessage x (Packet_Copy pk false));
    on_client a (emit (fun cl => OnRetainMessage cl pk r));;
    s ← get_state;
    set_Info (fun i => i <| in_Retained := Z.of_nat (Packets_Len (ti_Retained (sv_Topics s))) |>).

(** The clients that get the message, and inline subscriptions. *)
Definition select_subscribers (x : TopicsIndex) (pk : Packet) : Subscribers :=
  let subs := TopicsIndex_Subscribers x (pk_TopicName pk) in
  if (0 <? size (ss_Shared subs))%nat then
    let subs := hk_OnSelectSubscribers (ev_Hooks e) subs pk in
    let subs := if (size (ss_SharedSelected subs) =? 0)%nat then Subscribers_SelectShared subs else subs in
    Subscribers_MergeSharedSelected subs
  else subs.

(** Creation and expiry times of a message that has none yet. *)
Definition stamp (pk : Packet) : Packet :=
  let pk := if pk_Created pk =? 0 then pk <| pk_Created := ev_now e |> else pk in
  if (pk_Expiry pk =? 0) && (0 <? message_expiry pk)
  then pk <| pk_Expiry := pk_Created pk + message_expiry pk |> else pk.

Definition publishToSubscribers (pk : Packet) : GoM Server unit :=
  if pk_Ignore pk then mret tt
  else
    let pk := stamp pk in
    s ← get_state;
    let subscribers := select_subscribers (sv_Topics s) pk in
    for_each (range (ss_InlineSubscriptions subscribers)) (fun kv =>
      event (InlineHandler (is_Handler kv.2) (is_Subscription kv.2) pk));;
    for_each (range (ss_Subscriptions subscribers)) (fun kv =>
      s ← get_state;
      match Clients_Get (sv_Clients s) kv.1 with
      | Some cl => ignore (on_client cl (publishToClient e kv.2 pk))
      | None => mret tt
      end).

Definition publishRetainedToClient (a : nat) (sub : Subscription) (existed : bool) : GoM Server unit :=
  if IsSharedFilter (sub_Filter sub) then mret tt
  else if ((sub_RetainHandling sub =? 1) && existed) || (sub_RetainHandling sub =? 2) then mret tt
  else
    s ← get_state;
    for_each (TopicsIndex_Messages (sv_Topics s) (sub_Filter sub)) (fun pkv =>
      r ← attempt (on_client a (publishToClient e (sub <| sub_FwdRetainedFlag := true |>) pkv));
      match r with
      | inr _ => mret tt
      | inl _ => on_client a (emit (fun cl => OnRetainPublished cl pkv))
      end).

(** The qos and the hooks decided; the message is retained, acknowledged and
    sent on. *)
Definition accept_publish (a : nat) (pk : Packet) : GoM Server unit :=
  when (fh_Retain (pk_FixedHeader pk)) (retainMessage a pk);;
  cl ← on_client a get_client;
  if (pk_Qos pk =? 0) || net_Inline (cl_Net cl) then
    publishToSubscribers pk;;
    on_client a (emit (fun cl => OnPublished cl pk))
  else
    on_client a (inflight_ Inflight_DecreaseReceiveQuota);;
    let ack := buildAck e (pk_PacketID pk) (if pk_Qos pk =? 2 then Pubrec else Puback) 0 (pk_Properties pk) CodeSuccess in
    let ack := complete_from e pk ack in
    cl ← on_client a get_client;
    let existing := Inflight_Get (cl_Inflight cl) (pk_PacketID pk) in
    let clash := match existing with
      | Some x => (pk_Type x =? Publish) || (pk_Type x =? Pubrec) ||
                  (pk_Expiry x =? InflightExpiryDeferred) || (pk_Expiry x =? InflightExpiryReserved)
      | None => false
      end in
    if (pk_Qos pk =? 2) && clash then
      on_client a (inflight_ Inflight_IncreaseReceiveQuota);;
      on_client a (WritePacket e (buildAck e (pk_PacketID pk) Pubrec 0 (pk_Properties pk) ErrPacketIdentifierInUse))
    else
      when (pk_Qos pk =? 2)
        (ok ← on_client a (inflight (fun i => Inflight_Set i ack));
         when ok
           (on_client a (count_inflight 1);;
            on_client a (emit (fun cl => OnQosPublish cl ack (pk_Created ack) 0))));;
      on_client a (WritePacket e ack);;
      when (pk_Qos pk =? 1)
        (on_client a (inflight_ Inflight_IncreaseReceiveQuota);;
         let ack := if (length (pk_Payload ack) =? 0)%nat
                    then ack <| pk_Payload := pk_Payload pk |> <| pk_TopicName := pk_TopicName pk |>
                             <| pk_Origin := pk_Origin pk |> else ack in
         on_client a (emit (fun cl => OnQosComplete cl ack)));;
      publishToSubscribers pk;;
      on_client a (emit (fun cl => OnPublished cl pk)).

Definition refuse_publish (a : nat) (cl : Client) (pk : Packet) : GoM Server unit :=
  if pk_Qos pk =? 0 then mret tt
  else if negb (cp_ProtocolVersion (cl_Properties cl) =? 5) then on_client a (DisconnectClient e ErrNotAuthorized)
  else
    let ackType := if pk_Qos pk =? 2 then Pubrec else Puback in
    on_client a (WritePacket e (buildAck e (pk_PacketID pk) ackType 0 (pk_Properties pk) ErrNotAuthorized)).

(** The verdict of the [OnPublish] hook. *)
Definition hooked_publish (a : nat) (pk : Packet) : GoM Server unit :=
  cl ← on_client a get_client;
  match hk_OnPublish (ev_Hooks e) cl pk with
  | (pkx, None) => accept_publish a pkx
  | (_, Some err) =>
      if error_is err ErrRejectPacket then mret tt
      else if error_is err CodeSuccessIgnore then accept_publish a (pk <| pk_Ignore := true |>)
      else if (cp_ProtocolVersion (cl_Properties cl) =? 5) && (0 <? pk_Qos pk) &&
              bool_decide (is_Some (error_as_code err)) then
        match error_code err with
        | Some code => on_client a (WritePacket e (buildAck e (pk_PacketID pk) Puback 0 (pk_Properties pk) code))
        | None => panic
        end
      else accept_publish a pk
  end.

Definition processPublish (a : nat) (pk : Packet) : GoM Server unit :=
  cl ← on_client a get_client;
  let inline := net_Inline (cl_Net cl) in
  if negb inline && negb (IsValidFilter (pk_TopicName pk) true) then mret tt
  else if if_receiveQuota (cl_Inflight cl) =? 0 then on_client a (DisconnectClient e ErrReceiveMaximum)
  else if negb inline && negb (hk_OnACLCheck (ev_Hooks e) cl (pk_TopicName pk) true) then refuse_publish a cl pk
  else
    let pk := pk <| pk_Origin := cl_ID cl |> <| pk_Created := ev_now e |> in
    let pk := if 0 <? message_expiry pk then pk <| pk_Expiry := pk_Created pk + message_expiry pk |> else pk in
    let waiting := match Inflight_Get (cl_Inflight cl) (pk_PacketID pk) with
                   | Some pki => pk_Type pki =? Pubrec
                   | None => false
                   end in
    if negb inline && waiting then
      on_client a (WritePacket e (buildAck e (pk_PacketID pk) Pubrec 0 (pk_Properties pk) ErrPacketIdentifierInUse))
    else
      topic ← (if pr_TopicAliasFlag (pk_Properties pk) && (0 <? pr_TopicAlias (pk_Properties pk)) then
                 let '(topic, b) := InboundTopicAliases_Set (ta_Inbound (st_TopicAliases (cl_State cl)))
                                      (pr_TopicAlias (pk_Properties pk)) (pk_TopicName pk) in
                 on_client a (set_topic_alias (fun t => t <| ta_Inbound := b |>));;
                 mret topic
               else mret (pk_TopicName pk));
      let pk := pk <| pk_TopicName := topic |> in
      let pk := if ca_MaximumQos caps <? pk_Qos pk
                then pk <| pk_FixedHeader ::= fun fh => fh <| fh_Qos := ca_MaximumQos caps |> |> else pk in
      hooked_publish a pk.

(** ** Subscribing *)

(** The reason code of one filter, and whether the subscription existed. *)
Definition subscribe_filter (a : nat) (code : Code) (sub : Subscription) : GoM Server (Z * bool) :=
  cl ← on_client a get_client;
  let answer r existed :=
    (if (Code_Code CodeGrantedQos2 <? r) && (cp_ProtocolVersion (cl_Properties cl) <? 5)
     then Code_Code ErrUnspecifiedError else r, existed) in
  if negb (bool_decide (code = CodeSuccess)) then mret (Code_Code code, false)
  else if negb (IsValidFilter (sub_Filter sub) false) then mret (answer (Code_Code ErrTopicFilterInvalid) false)
  else if sub_NoLocal sub && IsSharedFilter (sub_Filter sub) then
    mret (answer (Code_Code ErrProtocolViolationInvalidSharedNoLocal) false)
  else if negb (hk_OnACLCheck (ev_Hooks e) cl (sub_Filter sub) false) then
    mret (answer (Code_Code (if co_ObscureNotAuthorized (ca_Compatibilities caps)
                             then ErrUnspecifiedError else ErrNotAuthorized)) false)
  else
    isNew ← topics (fun x => TopicsIndex_Subscribe x (cl_ID cl) sub);
    when isNew (count_subscriptions 1);;
    on_client a (set_client (fun cl => cl <| cl_State ::= fun st =>
      st <| st_Subscriptions ::= fun m => Subscriptions_Add m (sub_Filter sub) sub |> |>));;
    mret (answer (if ca_MaximumQos caps <? sub_Qos sub then ca_MaximumQos caps else sub_Qos sub) (negb isNew)).

Fixpoint subscribe_filters (a : nat) (code : Code) (filters : list Subscription) : GoM Server (list (Z * bool)) :=
  match filters with
  | [] => mret []
  | sub :: filters =>
      r ← subscribe_filter a code sub;
      rs ← subscribe_filters a code filters;
      mret (r :: rs)
  end.

(** The acknowledgement of a subscribe or an unsubscribe packet. *)
Definition filters_ack (t : Z) (pk : Packet) (reasonCodes : bytes) (code : Code) : Packet :=
  Packet0 <| pk_FixedHeader := FixedHeader0 <| fh_Type := t |> |>
          <| pk_PacketID := pk_PacketID pk |>
          <| pk_ReasonCodes := reasonCodes |>
          <| pk_Properties := Properties0 <| pr_User := pr_User (pk_Properties pk) |>
               <| pr_ReasonString := if Code_Code ErrUnspecifiedError <=? Code_Code code
                                     then Code_Reason code else [] |> |>.

(** [ErrPacketIdentifierInUse] when the packet id is one of an in-flight message. *)
Definition id_code (cl : Client) (pk : Packet) : Code :=
  match Inflight_Get (cl_Inflight cl) (pk_PacketID pk) with
  | Some _ => ErrPacketIdentifierInUse
  | None => CodeSuccess
  end.

Definition processSubscribe (a : nat) (pk : Packet) : GoM Server unit :=
  cl ← on_client a get_client;
  let pk := hk_OnSubscribe (ev_Hooks e) cl pk in
  let code := id_code cl pk in
  answers ← subscribe_filters a code (pk_Filters pk);
  let reasonCodes := answers.*1 in
  on_client a (emit (fun cl => OnSubscribed cl pk reasonCodes));;
  on_client a (WritePacket e (filters_ack Suback pk reasonCodes code));;
  for_each (zip (pk_Filters pk) answers) (fun x =>
    if Code_Code ErrUnspecifiedError <=? x.2.1 then mret tt
    else publishRetainedToClient a x.1 x.2.2).

Definition unsubscribe_filter (a : nat) (code : Code) (sub : Subscription) : GoM Server Z :=
  if negb (bool_decide (code = CodeSuccess)) then mret (Code_Code code)
  else
    cl ← on_client a get_client;
    q ← topics (fun x => TopicsIndex_Unsubscribe x (sub_Filter sub) (cl_ID cl));
    when q (count_subscriptions (-1));;
    on_client a (set_client (fun cl => cl <| cl_State ::= fun st =>
      st <| st_Subscriptions ::= fun m => Subscriptions_Delete m (sub_Filter sub) |> |>));;
    mret (Code_Code (if (q : bool) then CodeSuccess else CodeNoSubscriptionExisted)).

Fixpoint unsubscribe_filters (a : nat) (code : Code) (filters : list Subscription) : GoM Server bytes :=
  match filters with
  | [] => mret []
  | sub :: filters =>
      r ← unsubscribe_filter a code sub;
      rs ← unsubscribe_filters a code filters;
      mret (r :: rs)
  end.

Definition processUnsubscribe (a : nat) (pk : Packet) : GoM Server unit :=
  cl ← on_client a get_client;
  let code := id_code cl pk in
  let pk := hk_OnUnsubscribe (ev_Hooks e) cl pk in
  reasonCodes ← unsubscribe_filters a code (pk_Filters pk);
  on_client a (emit (fun cl => OnUnsubscribed cl pk));;
  on_client a (WritePacket e (filters_ack Unsuback pk reasonCodes code)).

Definition UnsubscribeClient (a : nat) : GoM Server unit :=
  cl ← on_client a get_client;
  let filterMap := Subscriptions_GetAll (st_Subscriptions (cl_State cl)) in
  on_client a (set_client (fun cl => cl <| cl_State ::= fun st =>
    st <| st_Subscriptions ::= fun m => fold_left Subscriptions_Delete (range filterMap).*1 m |> |>));;
  if Client_IsTakenOver cl then mret tt
  else
    for_each (range filterMap) (fun kv =>
      q ← topics (fun x => TopicsIndex_Unsubscribe x kv.1 (cl_ID cl));
      when q (count_subscriptions (-1)));;
    on_client a (emit (fun cl => OnUnsubscribed cl
      (Packet0 <| pk_FixedHeader := FixedHeader0 <| fh_Type := Unsubscribe |> |>
               <| pk_Filters := (range filterMap).*2 |>))).

(** ** Wills *)

Definition sendLWT (a : nat) : GoM Server unit :=
  cl ← on_client a get_client;
  let will := cp_Will (cl_Properties cl) in
  if wi_Flag will =? 0 then mret tt
  else
    let modifiedLWT := hk_OnWill (ev_Hooks e) cl will in
    let pk := Packet0
      <| pk_FixedHeader := FixedHeader0 <| fh_Type := Publish |> <| fh_Retain := wi_Retain modifiedLWT |>
                                        <| fh_Qos := wi_Qos modifiedLWT |> |>
      <| pk_TopicName := wi_TopicName modifiedLWT |>
      <| pk_Payload := wi_Payload modifiedLWT |>
      <| pk_Properties := Properties0 <| pr_User := wi_User modifiedLWT |> |>
      <| pk_Origin := cl_ID cl |>
      <| pk_Created := ev_now e |> in
    if 0 <? wi_WillDelayInterval will then
      let pk := pk
        <| pk_Connect ::= fun c => c <| cp_WillProperties ::= fun p =>
             p <| pr_WillDelayInterval := wi_WillDelayInterval will |> |> |>
        <| pk_Expiry := ev_now e + wi_WillDelayInterval will |> in
      modify (fun s => s <| sv_willDelayed ::= fun m => Packets_Add m (cl_ID cl) pk |>)
    else
      when (fh_Retain (pk_FixedHeader pk)) (retainMessage a pk);;
      publishToSubscribers pk;;
      on_client a (set_client (fun cl => cl <| cl_Properties ::= fun p => p <| cp_Will ::= fun w => w <| wi_Flag := 0 |> |> |>));;
      on_client a (emit (fun cl => OnWillSent cl pk)).

(** ** Inbound packets *)

Definition processConnect (a : nat) : GoM Server unit :=
  sendLWT a;; throw (ECode ErrProtocolViolationSecondConnect).

Definition processDisconnect (a : nat) (pk : Packet) : GoM Server unit :=
  cl ← on_client a get_client;
  let flag := pr_SessionExpiryIntervalFlag (pk_Properties pk) in
  let interval := pr_SessionExpiryInterval (pk_Properties pk) in
  if flag && (0 <? interval) && (pr_SessionExpiryInterval (cp_Props (cl_Properties cl)) =? 0)
  then throw (ECode ErrProtocolViolationZeroNonZeroExpiry)
  else
    when flag (on_client a (set_client (fun cl => cl <| cl_Properties ::= fun c => c <| cp_Props ::= fun p =>
      p <| pr_SessionExpiryInterval := interval |> <| pr_SessionExpiryIntervalFlag := true |> |> |>)));;
    if pk_ReasonCode pk =? Code_Code CodeDisconnectWillMessage then throw (ECode CodeDisconnectWillMessage)
    else
      modify (fun s => s <| sv_willDelayed ::= fun m => Packets_Delete m (cl_ID cl) |>);;
      on_client a (stop e (Some (ECode CodeDisconnect))).

(** The dispatch of [processPacket], with the validation of each type. *)
Definition dispatch (a : nat) (pk : Packet) : GoM Server unit + error :=
  let t := pk_Type pk in
  let validated code (m : GoM Server unit) := if bool_decide (code = CodeSuccess) then inl m else inr (ECode code) in
  if t =? Connect then inl (processConnect a)
  else if t =? Disconnect then inl (processDisconnect a pk)
  else if t =? Pingreq then inl (on_client a (processPingreq e))
  else if t =? Publish then validated (PublishValidate pk (ca_TopicAliasMaximum caps)) (processPublish a pk)
  else if t =? Puback then inl (on_client a (processPuback e pk))
  else if t =? Pubrec then inl (on_client a (processPubrec e pk))
  else if t =? Pubrel then inl (on_client a (processPubrel e pk))
  else if t =? Pubcomp then inl (on_client a (processPubcomp e pk))
  else if t =? Subscribe then validated (SubscribeValidate pk) (processSubscribe a pk)
  else if t =? Unsubscribe then validated (UnsubscribeValidate pk) (processUnsubscribe a pk)
  else if t =? Auth then validated (AuthValidate pk) (on_client a (processAuth e pk))
  else inr (ENoPacketAvailable t).

Definition processPacket (a : nat) (pk : Packet) : GoM Server unit :=
  match dispatch a pk with
  | inr err => throw err
  | inl m =>
      r ← attempt m;
      let err := match r with inl _ => None | inr err => Some err end in
      on_client a (emit (fun cl => OnPacketProcessed cl pk err));;
      match err with
      | Some err => throw err
      | None => on_client a (resumeDeferredPublishes e)
      end
  end.

Definition receivePacket (a : nat) (pk : Packet) : GoM Server unit :=
  r ← attempt (processPacket a pk);
  match r with
  | inl _ => mret tt
  | inr err =>
      cl ← on_client a get_client;
      match error_code err with
      | Some code =>
          when ((cp_ProtocolVersion (cl_Properties cl) =? 5) && (Code_Code ErrUnspecifiedError <=? Code_Code code))
            (ignore (on_client a (DisconnectClient e code)))
      | None => mret tt
      end;;
      throw err
  end.

(** One round of [Client.Read]: [false] when the client is closed. *)
Definition Read_round (a : nat) : GoM Server bool :=
  cl ← on_client a get_client;
  if Client_Closed cl then mret false
  else
    on_client a (set_client (fun cl => refreshDeadline (ev_now e) cl (st_Keepalive (cl_State cl))));;
    fh ← on_client a (ReadFixedHeader e);
    pk ← on_client a (ReadPacket e fh);
    receivePacket a pk;;
    mret true.

(** [Client.Read(s.receivePacket)]: a round consumes at least two bytes of the
    stream, so one round more than there are bytes is enough. *)
Fixpoint Read_loop (fuel : nat) (a : nat) : GoM Server unit :=
  match fuel with
  | O => fun s => (Diverge, s)
  | S fuel' =>
      more ← Read_round a;
      if (more : bool) then Read_loop fuel' a else mret tt
  end.

Definition Read (a : nat) : GoM Server unit :=
  cl ← on_client a get_client;
  Read_loop (S (length (net_stream (cl_Net cl)))) a.
End Server.
