(* ===== verification/Sessions.v ===== *)
(** * Connections, sessions and housekeeping (server.go)

    Attaching a connection and taking over a session, the tasks of the event
    loop, the inline client's interface, and the steps of the whole broker. *)
From S2P Require Import Prelude Codes Effects Codec FixedHeader Properties Packets Wire Topics Aliases Inflight System Clients ClientIO Publish Server.

Section Sessions.
Context (e : Env) {RO : RangeOrder}.
Let caps := ev_Capabilities e.

(** ** Sessions *)

Definition set_takenover (a : nat) : GoM Server unit :=
  on_client a (set_client (fun cl => cl <| cl_State ::= fun st => st <| st_isTakenOver := true |> |>)).

(** The in-flight messages of the old connection, under the new one's quotas. *)
Definition inherit_inflight (existing cl : Client) : Inflight :=
  let i := Inflight_Clone (cl_Inflight existing) in
  let newMax := pr_ReceiveMaximum (cp_Props (cl_Properties cl)) in
  let i := Inflight_ReconcileSendQuotaCap i (if newMax =? 0 then ca_ReceiveMaximum caps else newMax) in
  if (if_maximumReceiveQuota i =? 0) && negb (ca_ReceiveMaximum caps =? 0)
  then Inflight_ResetReceiveQuota i (ca_ReceiveMaximum caps) else i.

(** The subscriptions of the old connection move to the new one. *)
Definition inherit_subscription (a : nat) (sub : Subscription) : GoM Server unit :=
  cl ← on_client a get_client;
  isNew ← topics (fun x => TopicsIndex_Subscribe x (cl_ID cl) sub);
  when isNew (count_subscriptions 1);;
  on_client a (set_client (fun cl => cl <| cl_State ::= fun st =>
    st <| st_Subscriptions ::= fun m => Subscriptions_Add m (sub_Filter sub) sub |> |>)).

Definition inheritClientSession (pk : Packet) (a : nat) : GoM Server bool :=
  cl ← on_client a get_client;
  s ← get_state;
  match Clients_Get (sv_Clients s) (cl_ID cl) with
  | Some x =>
      ignore (on_client x (DisconnectClient e ErrSessionTakenOver));;
      existing ← on_client x get_client;
      if cp_Clean (pk_Connect pk) ||
         (cp_CleanSession (cl_Properties existing) && (cp_ProtocolVersion (cl_Properties existing) <? 5)) then
        UnsubscribeClient x;;
        on_client x ClearInflights;;
        set_takenover x;;
        mret false
      else
        set_takenover x;;
        when (0 <? Inflight_Len (cl_Inflight existing))
          (on_client a (set_client (fun cl => with_inflight cl (inherit_inflight existing cl))));;
        for_each (range (st_Subscriptions (cl_State existing))).*2 (inherit_subscription a);;
        UnsubscribeClient x;;
        on_client x ResetInflights;;
        mret true
  | None =>
      when (in_ClientsMaximum (sv_Info s) <? in_ClientsConnected (sv_Info s))
        (set_Info (fun i => i <| in_ClientsMaximum ::= add64 1 |>));;
      mret false
  end.

(** ** Attaching a connection *)

Definition session_expires (cl : Client) : bool :=
  let v := cp_ProtocolVersion (cl_Properties cl) in
  ((v =? 5) && (pr_SessionExpiryInterval (cp_Props (cl_Properties cl)) =? 0)) ||
  ((v <? 5) && cp_CleanSession (cl_Properties cl)).

Definition delete_will (id : gostr) : GoM Server unit :=
  modify (fun s => s <| sv_willDelayed ::= fun m => Packets_Delete m id |>).

Definition count_connected (n : Z) (s : Server) : Server :=
  s <| sv_Info ::= fun i => i <| in_ClientsConnected ::= add64 n |> |>.

(** From the connect packet to the check of the credentials: the packet and its
    code, or the error the connection is refused with. *)
Definition accept_connection (a : nat) (listener : gostr) : GoM Server (Packet * Code) :=
  pk ← in_context !"read connection" (on_client a (readConnectionPacket e));
  on_client a (set_client (fun cl => ParseConnect (ev_Options e) (ev_xid e) cl listener pk));;
  cl ← on_client a get_client;
  s ← get_state;
  if ca_MaximumClients caps <=? in_ClientsConnected (sv_Info s) then
    ignore (on_client a (SendConnack e
      (if cp_ProtocolVersion (cl_Properties cl) <? 5 then ErrServerUnavailable else ErrServerBusy) false None));;
    throw (ECode ErrServerBusy)
  else
    let code := validateConnect e cl pk in
    if negb (bool_decide (code = CodeSuccess)) then
      in_context !"invalid connection send ack" (on_client a (SendConnack e code false None));;
      throw (ECode code)
    else match hk_OnConnect (ev_Hooks e) cl pk with
    | Some err => throw err
    | None =>
        on_client a (set_client (fun cl => refreshDeadline (ev_now e) cl (st_Keepalive (cl_State cl))));;
        cl ← on_client a get_client;
        if negb (hk_OnConnectAuthenticate (ev_Hooks e) cl pk) then
          in_context !"invalid connection send ack" (on_client a (SendConnack e ErrBadUsernameOrPassword false None));;
          throw (ECode ErrBadUsernameOrPassword)
        else mret (pk, code)
    end.

(** The session of an authenticated client begins. *)
Definition begin_session (a : nat) (pk : Packet) (code : Code) : GoM Server unit :=
  on_client a (emit (fun cl => OnSessionEstablish cl pk));;
  sessionPresent ← inheritClientSession pk a;
  cl ← on_client a get_client;
  modify (fun s => s <| sv_Clients ::= fun m => Clients_Add m (cl_ID cl) a |>);;
  in_context !"ack connection packet" (on_client a (SendConnack e code sessionPresent None));;
  delete_will (cl_ID cl);;
  when sessionPresent (in_context !"resend inflight" (on_client a (ResendInflightMessages e true)));;
  on_client a (emit (fun cl => OnSessionEstablished cl pk)).

(** [Read] has returned: the will is sent or dropped, a session that does not
    outlive its connection is removed. *)
Definition end_session (a : nat) (err : option error) : GoM Server unit :=
  match err with
  | Some _ => sendLWT e a;; on_client a (stop e err)
  | None => on_client a (set_client (fun cl => cl <| cl_Properties ::= fun p => p <| cp_Will := Will0 |> |>))
  end;;
  cl ← on_client a get_client;
  let expire := session_expires cl in
  on_client a (emit (fun cl => OnDisconnect cl err expire));;
  when (expire && negb (Client_IsTakenOver cl))
    (on_client a ClearInflights;;
     UnsubscribeClient a;;
     modify (fun s => s <| sv_Clients ::= fun m => Clients_Delete m (cl_ID cl) |>));;
  match err with
  | Some err => throw err
  | None => mret tt
  end.

(** [cl.Stop(nil)], deferred. *)
Definition stop_client (a : nat) (s : Server) : Server :=
  s <| sv_store ::= alter (Client_Stop (ev_now e) None) a |>.

Definition attachClient (a : nat) (listener : gostr) : GoM Server unit :=
  finally (stop_client a) (
    '(pk, code) ← accept_connection a listener;
    modify (count_connected 1);;
    finally (count_connected (-1)) (
      begin_session a pk code;;
      r ← attempt (Read e a);
      end_session a (match r with inl _ => None | inr err => Some err end))).

(** A connection from [remote] whose peer will send [stream] and then close. *)
Definition EstablishConnection (listener remote : gostr) (stream : bytes) : GoM Server unit :=
  a ← allocate ((NewClient e (Some remote) listener [] false)
                  <| cl_Net ::= fun n => n <| net_stream := stream |> |>);
  attachClient a listener.

(** ** The inline client *)

Definition InjectPacket (a : nat) (pk : Packet) : GoM Server unit :=
  cl ← on_client a get_client;
  let pk := pk <| pk_ProtocolVersion := cp_ProtocolVersion (cl_Properties cl) |> in
  processPacket e a pk;;
  set_Info (fun i => i <| in_PacketsReceived ::= add64 1 |>);;
  when (pk_Type pk =? Publish) (set_Info (fun i => i <| in_MessagesReceived ::= add64 1 |>)).

(** [s.inlineClient], which is nil unless the option is set. *)
Definition inline_address : GoM Server nat :=
  s ← get_state;
  match sv_inlineClient s with
  | Some a => mret a
  | None => panic
  end.

Definition Server_Publish (topic : gostr) (payload : bytes) (retain : bool) (qos : Z) : GoM Server unit :=
  if negb (op_InlineClient (ev_Options e)) then throw EInlineClientNotEnabled
  else
    a ← inline_address;
    InjectPacket a (Packet0
      <| pk_FixedHeader := FixedHeader0 <| fh_Type := Publish |> <| fh_Qos := qos |> <| fh_Retain := retain |> |>
      <| pk_TopicName := topic |>
      <| pk_Payload := payload |>
      <| pk_PacketID := qos |>).

Definition inline_packet (a : nat) (t : Z) (sub : Subscription) : GoM Server (Client * Packet) :=
  cl ← on_client a get_client;
  mret (cl, Packet0 <| pk_Origin := cl_ID cl |> <| pk_FixedHeader := FixedHeader0 <| fh_Type := t |> |>
                    <| pk_Filters := [sub] |>).

Definition Server_Subscribe (filter : gostr) (subscriptionId : Z) (handler : option Z) : GoM Server unit :=
  if negb (op_InlineClient (ev_Options e)) then throw EInlineClientNotEnabled
  else match handler with
  | None => throw (ECode ErrInlineSubscriptionHandlerInvalid)
  | Some handler =>
      if negb (IsValidFilter filter false) then throw (ECode ErrTopicFilterInvalid)
      else
        let sub := Subscription0 <| sub_Identifier := subscriptionId |> <| sub_Filter := filter |> in
        a ← inline_address;
        '(cl, pk) ← inline_packet a Subscribe sub;
        let pk := hk_OnSubscribe (ev_Hooks e) cl pk in
        topics (fun x => TopicsIndex_InlineSubscribe x (mkInlineSubscription sub handler));;
        on_client a (emit (fun cl => OnSubscribed cl pk [Code_Code CodeSuccess]));;
        s ← get_state;
        for_each (TopicsIndex_Messages (sv_Topics s) filter) (fun pkv => event (InlineHandler handler sub pkv))
  end.

Definition Server_Unsubscribe (filter : gostr) (subscriptionId : Z) : GoM Server unit :=
  if negb (op_InlineClient (ev_Options e)) then throw EInlineClientNotEnabled
  else if negb (IsValidFilter filter false) then throw (ECode ErrTopicFilterInvalid)
  else
    let sub := Subscription0 <| sub_Identifier := subscriptionId |> <| sub_Filter := filter |> in
    a ← inline_address;
    '(cl, pk) ← inline_packet a Unsubscribe sub;
    let pk := hk_OnUnsubscribe (ev_Hooks e) cl pk in
    topics (fun x => TopicsIndex_InlineUnsubscribe x subscriptionId filter);;
    on_client a (emit (fun cl => OnUnsubscribed cl pk)).

(** ** Housekeeping *)

(** [for id, client := range s.Clients.GetAll()] *)
Definition for_clients (body : gostr -> nat -> GoM Server unit) : GoM Server unit :=
  s ← get_state;
  for_each (range (Clients_GetAll (sv_Clients s))) (fun kv => body kv.1 kv.2).

Definition clearExpiredClients (dt : Z) : GoM Server unit :=
  for_clients (fun id a =>
    client ← on_client a get_client;
    let disconnected := Client_StopTime client in
    if disconnected =? 0 then mret tt
    else
      let props := cp_Props (cl_Properties client) in
      let expire :=
        if (cp_ProtocolVersion (cl_Properties client) =? 5) && pr_SessionExpiryIntervalFlag props
        then pr_SessionExpiryInterval props else ca_MaximumSessionExpiryInterval caps in
      when (disconnected + expire <? dt)
        (on_client a (emit OnClientExpired);;
         modify (fun s => s <| sv_Clients ::= fun m => Clients_Delete m id |>))).

Definition retained_expired (now : Z) (pk : Packet) : bool :=
  ((pk_ProtocolVersion pk =? 5) && (0 <? pk_Expiry pk) && (pk_Expiry pk <? now)) ||
  ((0 <? ca_MaximumMessageExpiryInterval caps) && (ca_MaximumMessageExpiryInterval caps <? now - pk_Created pk)).

Definition clearExpiredRetainedMessages (now : Z) : GoM Server unit :=
  s ← get_state;
  for_each (range (Packets_GetAll (ti_Retained (sv_Topics s)))) (fun kv =>
    when (retained_expired now kv.2)
      (topics (fun x => (tt, x <| ti_Retained ::= fun m => Packets_Delete m kv.1 |>));;
       event (OnRetainedExpired kv.1))).

Definition clearExpiredInflights (now : Z) : GoM Server unit :=
  for_clients (fun _ a =>
    deleted ← on_client a (ClearExpiredInflights now (ca_MaximumMessageExpiryInterval caps));
    when (0 <? length deleted)%nat
      (for_each deleted (fun id => on_client a (emit (fun cl => OnQosDropped cl (Packet0 <| pk_PacketID := id |>))));;
       ignore (on_client a (resumeDeferredPublishes e)))).

Definition resumeAllDeferredPublishes : GoM Server unit :=
  for_clients (fun _ a =>
    cl ← on_client a get_client;
    if Client_Closed cl || negb (net_Conn (cl_Net cl)) then mret tt
    else
      let '(deferred, _, q) := Inflight_QuotaStatsDetailed (cl_Inflight cl) in
      when ((0 <? deferred) && (0 <? qs_sendQuota q)) (ignore (on_client a (resumeDeferredPublishes e)))).

Definition sendDelayedLWT (dt : Z) : GoM Server unit :=
  s ← get_state;
  for_each (range (Packets_GetAll (sv_willDelayed s))) (fun kv =>
    let '(id, pk) := kv in
    when (pk_Expiry pk <? dt)
      (publishToSubscribers e pk;;
       s ← get_state;
       match Clients_Get (sv_Clients s) id with
       | Some a =>
           when (fh_Retain (pk_FixedHeader pk)) (retainMessage e a pk);;
           on_client a (set_client (fun cl => cl <| cl_Properties ::= fun p => p <| cp_Will := Will0 |> |>));;
           on_client a (emit (fun cl => OnWillSent cl pk))
       | None => mret tt
       end;;
       delete_will id)).

Definition closeListenerClients (listener : gostr) : GoM Server unit :=
  s ← get_state;
  for_each (Clients_GetByListener (sv_store s) (sv_Clients s) listener) (fun a =>
    ignore (on_client a (DisconnectClient e ErrServerShuttingDown))).
End Sessions.
