(* ===== verification/SysTopics.v ===== *)
(** * System topics and the event loop (server.go, system/system.go)

    The periodic publication of the statistics under [$SYS], and the branches of
    the event loop. The memory in use and the number of goroutines, which the
    Go runtime reports, are arguments. *)
From S2P Require Import Prelude Codes Effects Codec FixedHeader Properties Packets Topics Inflight System Clients ClientIO Publish Server Sessions.

Definition Int64toa (v : Z) : gostr := FormatInt v.

Definition Info_Clone (i : Info) : Info := {|
  in_Version := in_Version i;
  in_Started := in_Started i;
  in_Time := in_Time i;
  in_Uptime := in_Uptime i;
  in_BytesReceived := in_BytesReceived i;
  in_BytesSent := in_BytesSent i;
  in_ClientsConnected := in_ClientsConnected i;
  in_ClientsMaximum := in_ClientsMaximum i;
  in_ClientsTotal := in_ClientsTotal i;
  in_ClientsDisconnected := in_ClientsDisconnected i;
  in_MessagesReceived := in_MessagesReceived i;
  in_MessagesSent := in_MessagesSent i;
  in_MessagesDropped := in_MessagesDropped i;
  in_Retained := in_Retained i;
  in_Inflight := in_Inflight i;
  in_InflightDropped := in_InflightDropped i;
  in_Subscriptions := in_Subscriptions i;
  in_PacketsReceived := in_PacketsReceived i;
  in_PacketsSent := in_PacketsSent i;
  in_MemoryAlloc := in_MemoryAlloc i;
  in_Threads := in_Threads i;
|}.

(** The topics, without their prefix, and their payloads. *)
Definition sys_values (info : Info) : list (gostr * gostr) := [
  (!"/broker/version", in_Version info);
  (!"/broker/time", Int64toa (in_Time info));
  (!"/broker/uptime", Int64toa (in_Uptime info));
  (!"/broker/started", Int64toa (in_Started info));
  (!"/broker/load/bytes/received", Int64toa (in_BytesReceived info));
  (!"/broker/load/bytes/sent", Int64toa (in_BytesSent info));
  (!"/broker/clients/connected", Int64toa (in_ClientsConnected info));
  (!"/broker/clients/disconnected", Int64toa (in_ClientsDisconnected info));
  (!"/broker/clients/maximum", Int64toa (in_ClientsMaximum info));
  (!"/broker/clients/total", Int64toa (in_ClientsTotal info));
  (!"/broker/packets/received", Int64toa (in_PacketsReceived info));
  (!"/broker/packets/sent", Int64toa (in_PacketsSent info));
  (!"/broker/messages/received", Int64toa (in_MessagesReceived info));
  (!"/broker/messages/sent", Int64toa (in_MessagesSent info));
  (!"/broker/messages/dropped", Int64toa (in_MessagesDropped info));
  (!"/broker/messages/inflight", Int64toa (in_Inflight info));
  (!"/broker/retained", Int64toa (in_Retained info));
  (!"/broker/subscriptions", Int64toa (in_Subscriptions info));
  (!"/broker/system/memory", Int64toa (in_MemoryAlloc info));
  (!"/broker/system/threads", Int64toa (in_Threads info)) ].
Definition sys_topics (info : Info) : gmap gostr gostr :=
  list_to_map (map (fun tp => (SysPrefix ++ tp.1, tp.2)) (sys_values info)).

Section SysTopics.
Context (e : Env) {RO : RangeOrder} (memory threads : Z).

Definition sys_packet (topic payload : gostr) : Packet := Packet0
  <| pk_FixedHeader := FixedHeader0 <| fh_Type := Publish |> <| fh_Retain := true |> |>
  <| pk_Created := ev_now e |>
  <| pk_TopicName := topic |>
  <| pk_Payload := payload |>.

Definition publishSysTopics : GoM Server unit :=
  set_Info (fun i => i
    <| in_MemoryAlloc := to_i64 memory |>
    <| in_Threads := to_i64 threads |>
    <| in_Time := ev_now e |>
    <| in_Uptime := to_i64 (ev_now e - in_Started i) |>);;
  modify (fun s => s <| sv_Info ::= fun i => i <| in_ClientsTotal := Clients_Len (sv_Clients s) |> |>);;
  set_Info (fun i => i <| in_ClientsDisconnected := to_i64 (in_ClientsTotal i - in_ClientsConnected i) |>);;
  s ← get_state;
  let info := Info_Clone (sv_Info s) in
  for_each (range (sys_topics info)) (fun tp =>
    let pk := sys_packet tp.1 tp.2 in
    topics (fun x => TopicsIndex_RetainMessage x (Packet_Copy pk false));;
    publishToSubscribers e pk);;
  event (OnSysInfoTick info).

(** The tickers of the event loop. *)
Inductive loop_tick := SysTopicsTick | ClientExpiryTick | RetainedExpiryTick | WillDelaySendTick | InflightExpiryTick.

Definition eventLoop_case (tick : loop_tick) : GoM Server unit :=
  match tick with
  | SysTopicsTick => publishSysTopics
  | ClientExpiryTick => clearExpiredClients e (ev_now e)
  | RetainedExpiryTick => clearExpiredRetainedMessages e (ev_now e)
  | WillDelaySendTick => sendDelayedLWT e (ev_now e)
  | InflightExpiryTick => clearExpiredInflights e (ev_now e);; resumeAllDeferredPublishes e
  end.
End SysTopics.
