(* ===== verification/Frames.v ===== *)
(** * What the handlers leave alone

    No handler changes which connection a client is: its id, its protocol
    version, and the bytes its connection still has to read. Handlers that do
    not stop a client leave its life alone too: the listener it came from,
    whether it is closed and why. *)
From S2P Require Import Prelude Codes Effects Codec FixedHeader Properties Packets Wire Topics Aliases Inflight System Clients ClientIO Publish Server Sessions.

Definition identity (cl : Client) : gostr * bytes * Z * bool :=
  (cl_ID cl, net_stream (cl_Net cl), cp_ProtocolVersion (cl_Properties cl), net_Conn (cl_Net cl)).

Definition life (cl : Client) : gostr * bool * bool * bool * option error :=
  (net_Listener (cl_Net cl), net_closed (cl_Net cl), st_ended (cl_State cl), st_open (cl_State cl), st_stopCause (cl_State cl)).
(** Nor do they hand a session over. *)
Definition core (cl : Client) := (identity cl, life cl, st_isTakenOver (cl_State cl)).

Definition view_core (cv : ClientView) := core (cv_client cv).
Definition view_identity (cv : ClientView) := identity (cv_client cv).
Definition identities (s : Server) : gmap nat (gostr * bytes * Z * bool) := identity <$> sv_store s.

Definition cores (s : Server) := (core <$> sv_store s, sv_Clients s).

Lemma frames_core {A} (m : GoM ClientView A) : frames view_core m -> frames view_identity m.
Proof. intros H cv. exact (f_equal (fst ∘ fst) (H cv)). Qed.

(** ** One client *)

Lemma frames_set_client g : (forall cl, core (g cl) = core cl) -> frames view_core (set_client g).
Proof. intros H. apply frames_modify. intros cv. apply H. Qed.

Lemma frames_set_info g : frames view_core (set_info g).
Proof. by apply frames_modify. Qed.

Lemma frames_emit ev : frames view_core (emit ev).
Proof. by apply frames_modify. Qed.

Lemma frames_get_client : frames view_core get_client.
Proof. done. Qed.

Lemma frames_inflight {A} (op : Inflight -> A * Inflight) : frames view_core (inflight op).
Proof. intros cv. unfold inflight. by destruct (op _). Qed.

Lemma frames_inflight_ {A} (op : Inflight -> A * Inflight) : frames view_core (inflight_ op).
Proof. apply frames_bind; [apply frames_inflight|done]. Qed.

Lemma frames_inflight_set g : frames view_core (inflight_set g).
Proof. apply frames_inflight_. Qed.

Lemma frames_count_inflight n : frames view_core (count_inflight n).
Proof. apply frames_set_info. Qed.

Lemma frames_count_dropped : frames view_core count_dropped.
Proof. apply frames_set_info. Qed.

Lemma frames_set_topic_alias g : frames view_core (set_topic_alias g).
Proof. by apply frames_set_client. Qed.

Lemma frames_set_net_written b : frames view_core (set_net (fun n => n <| net_written ::= fun w => w ++ b |>)).
Proof. by apply frames_set_client. Qed.

Lemma frames_set_net_outbuf b : frames view_core (set_net (fun n => n <| net_outbuf := b |>)).
Proof. by apply frames_set_client. Qed.

#[export] Hint Resolve frames_set_info frames_emit frames_get_client frames_inflight frames_inflight_
  frames_inflight_set frames_count_inflight frames_count_dropped frames_set_topic_alias
  frames_set_net_written frames_set_net_outbuf : frames.
#[export] Hint Extern 2 (frames view_core (set_client _)) => by apply frames_set_client : frames.
#[export] Hint Resolve frames_core | 10 : frames.

Lemma frames_set_identity g : (forall cl, identity (g cl) = identity cl) -> frames view_identity (set_client g).
Proof. intros H. apply frames_modify. intros cv. apply H. Qed.
#[export] Hint Extern 2 (frames view_identity (set_client _)) => by apply frames_set_identity : frames.

Section Client.
Context (e : Env) {RO : RangeOrder}.

Lemma frames_write_to b : frames view_core (write_to e b).
Proof. unfold write_to. frames_go. Qed.
#[local] Hint Resolve frames_write_to : frames.

Lemma frames_flushOutbuf : frames view_core (flushOutbuf e).
Proof. unfold flushOutbuf. frames_go. Qed.
#[local] Hint Resolve frames_flushOutbuf : frames.

Lemma frames_write_buffer b : frames view_core (write_buffer e b).
Proof. unfold write_buffer. frames_go. Qed.
#[local] Hint Resolve frames_write_buffer : frames.

Lemma frames_WritePacket pk : frames view_core (WritePacket e pk).
Proof. unfold WritePacket. frames_go. Qed.
#[local] Hint Resolve frames_WritePacket : frames.

Lemma frames_enqueue pk : frames view_core (enqueue e pk).
Proof. unfold enqueue. frames_go. Qed.

Lemma frames_ResendInflightMessages force : frames view_core (ResendInflightMessages e force).
Proof. unfold ResendInflightMessages. frames_go. Qed.

Lemma frames_ClearInflights : frames view_core ClearInflights.
Proof. unfold ClearInflights. frames_go. Qed.

Lemma frames_ResetInflights : frames view_core ResetInflights.
Proof. unfold ResetInflights. frames_go. Qed.

Lemma frames_park pk : frames view_core (park pk).
Proof. apply frames_inflight_. Qed.
#[local] Hint Resolve frames_park frames_enqueue : frames.

Lemma frames_resume_loop fuel : frames view_core (resume_loop e fuel).
Proof. induction fuel as [|fuel IH]; cbn [resume_loop]; [done|]. frames_go. Qed.
#[local] Hint Resolve frames_resume_loop : frames.

Lemma frames_resumeDeferredPublishes : frames view_core (resumeDeferredPublishes e).
Proof. unfold resumeDeferredPublishes. frames_go. Qed.
#[local] Hint Resolve frames_resumeDeferredPublishes : frames.

Lemma nextPacketID_core o now cl max i cl' :
  NextPacketIDUnderCap o now cl max = Ok (i, cl') -> core cl' = core cl.
Proof.
  unfold NextPacketIDUnderCap, nextPacketID. intros H. destruct (nextPacketID_loop _ _ _ _ _ _ _ _) as [[j m]| | |]; by inversion H.
Qed.

Lemma frames_next_packet_id max : frames view_core (next_packet_id e max).
Proof.
  intros cv. unfold next_packet_id. destruct (NextPacketIDUnderCap _ _ _ _) as [[i cl]| | |] eqn:E; try done.
  by apply nextPacketID_core in E.
Qed.
#[local] Hint Resolve frames_next_packet_id : frames.

Lemma frames_publishToClient sub pk : frames view_core (publishToClient e sub pk).
Proof.
  unfold publishToClient, alias_publish, track_publish, replace_counted, drop_collision, take_send_quota,
    queue_publish, untrack. frames_go.
Qed.

Lemma frames_acks pk :
  frames view_core (processPuback e pk) /\ frames view_core (processPubrec e pk) /\
  frames view_core (processPubrel e pk) /\ frames view_core (processPubcomp e pk).
Proof. unfold processPuback, processPubrec, processPubrel, processPubcomp, refuse_handshake. split_and!; frames_go. Qed.

Lemma Client_Stop_identity err cl : identity (Client_Stop (ev_now e) err cl) = identity cl.
Proof. unfold Client_Stop. by destruct (st_ended _). Qed.

Lemma frames_stop err : frames view_identity (stop e err).
Proof. apply frames_set_identity. apply Client_Stop_identity. Qed.
#[local] Hint Resolve frames_stop : frames.

Lemma frames_DisconnectClient code : frames view_identity (DisconnectClient e code).
Proof. unfold DisconnectClient. frames_go. Qed.

Lemma frames_SendConnack c p props : frames view_core (SendConnack e c p props).
Proof. unfold SendConnack. frames_go. Qed.

Lemma frames_processAuth pk : frames view_core (processAuth e pk).
Proof. unfold processAuth. frames_go. Qed.
End Client.

#[export] Hint Resolve frames_WritePacket frames_ResendInflightMessages frames_ClearInflights frames_ResetInflights
  frames_resumeDeferredPublishes frames_publishToClient frames_stop frames_DisconnectClient frames_SendConnack
  frames_processAuth : frames.

(** ** The server *)

Lemma frames_on_client {A} a (m : GoM ClientView A) : frames view_identity m -> frames identities (on_client a m).
Proof.
  intros Hm s. unfold on_client, zoom, client_view. destruct (sv_store s !! a) as [cl|] eqn:E; cbn [mbind option_bind]; [|done].
  specialize (Hm (mkClientView cl (sv_Info s) (sv_events s))).
  destruct (m _) as [r cv]. cbn [snd] in *. unfold view_identity in Hm. change (cv_client (mkClientView cl (sv_Info s) (sv_events s))) with cl in Hm.
  unfold identities. change (sv_store (set_view a cv s)) with (<[a := cv_client cv]> (sv_store s)).
  rewrite fmap_insert, Hm. apply insert_id. by rewrite lookup_fmap, E.
Qed.

Lemma frames_topics {A} (op : TopicsIndex -> A * TopicsIndex) : frames identities (topics op).
Proof. intros s. unfold topics. by destruct (op _). Qed.

Lemma frames_server g : (forall s, sv_store (g s) = sv_store s) -> frames identities (modify g).
Proof. intros H. apply frames_modify. intros s. unfold identities. by rewrite H. Qed.

Lemma frames_event ev : frames identities (event ev).
Proof. by apply frames_server. Qed.

Lemma frames_set_Info g : frames identities (set_Info g).
Proof. by apply frames_server. Qed.

Lemma frames_count_subscriptions n : frames identities (count_subscriptions n).
Proof. apply frames_set_Info. Qed.

Lemma frames_delete_will id : frames identities (delete_will id).
Proof. by apply frames_server. Qed.

#[export] Hint Resolve frames_on_client frames_topics frames_event frames_set_Info frames_count_subscriptions
  frames_delete_will : frames.
#[export] Hint Extern 2 (frames identities (modify _)) => by apply frames_server : frames.

Section Server.
Context (e : Env) {RO : RangeOrder}.

Lemma frames_retainMessage a pk : frames identities (retainMessage e a pk).
Proof. unfold retainMessage. frames_go. Qed.

Lemma frames_publishToSubscribers pk : frames identities (publishToSubscribers e pk).
Proof. unfold publishToSubscribers. frames_go. Qed.
#[local] Hint Resolve frames_retainMessage frames_publishToSubscribers : frames.

Lemma frames_publishRetainedToClient a sub ex : frames identities (publishRetainedToClient e a sub ex).
Proof. unfold publishRetainedToClient. frames_go. Qed.
#[local] Hint Resolve frames_publishRetainedToClient : frames.

Lemma frames_accept_publish a pk : frames identities (accept_publish e a pk).
Proof. unfold accept_publish. frames_go. Qed.
#[local] Hint Resolve frames_accept_publish : frames.

Lemma frames_processPublish a pk : frames identities (processPublish e a pk).
Proof. unfold processPublish, hooked_publish, refuse_publish. frames_go. Qed.

Lemma frames_subscribe_filters a code fs : frames identities (subscribe_filters e a code fs).
Proof. induction fs as [|f fs IH]; cbn [subscribe_filters]; [done|]. unfold subscribe_filter. frames_go. Qed.

Lemma frames_unsubscribe_filters a code fs : frames identities (unsubscribe_filters a code fs).
Proof. induction fs as [|f fs IH]; cbn [unsubscribe_filters]; [done|]. unfold unsubscribe_filter. frames_go. Qed.
#[local] Hint Resolve frames_subscribe_filters frames_unsubscribe_filters : frames.

Lemma frames_processSubscribe a pk : frames identities (processSubscribe e a pk).
Proof. unfold processSubscribe. frames_go. Qed.

Lemma frames_processUnsubscribe a pk : frames identities (processUnsubscribe e a pk).
Proof. unfold processUnsubscribe. frames_go. Qed.

Lemma frames_UnsubscribeClient a : frames identities (UnsubscribeClient a).
Proof. unfold UnsubscribeClient. frames_go. Qed.

Lemma frames_sendLWT a : frames identities (sendLWT e a).
Proof. unfold sendLWT. frames_go. Qed.
#[local] Hint Resolve frames_processPublish frames_processSubscribe frames_processUnsubscribe
  frames_UnsubscribeClient frames_sendLWT : frames.

Lemma frames_processConnect a : frames identities (processConnect e a).
Proof. unfold processConnect. frames_go. Qed.

Lemma frames_processDisconnect a pk : frames identities (processDisconnect e a pk).
Proof. unfold processDisconnect. frames_go. Qed.
#[local] Hint Resolve frames_processConnect frames_processDisconnect : frames.

Lemma frames_dispatch a pk m : dispatch e a pk = inl m -> frames identities m.
Proof.
  unfold dispatch. cbv zeta. destruct (frames_acks e pk) as (? & ? & ? & ?).
  repeat match goal with |- (if ?c then _ else _) = _ -> _ => destruct c end.
  all: intros [= <-]; unfold processPingreq; eauto with frames.
Qed.

Lemma frames_processPacket a pk : frames identities (processPacket e a pk).
Proof.
  unfold processPacket. destruct (dispatch e a pk) as [m|err] eqn:E; [|done].
  apply frames_dispatch in E. frames_go.
Qed.
#[local] Hint Resolve frames_processPacket : frames.

Lemma frames_receivePacket a pk : frames identities (receivePacket e a pk).
Proof. unfold receivePacket. frames_go. Qed.

(** Taking over a session does not touch the connections either. *)
Lemma frames_inheritClientSession pk a : frames identities (inheritClientSession e pk a).
Proof. unfold inheritClientSession, inherit_subscription, set_takenover. frames_go. Qed.
#[local] Hint Resolve frames_inheritClientSession : frames.

Lemma frames_begin_session a pk code : frames identities (begin_session e a pk code).
Proof. unfold begin_session. frames_go. Qed.
End Server.

#[export] Hint Resolve frames_retainMessage frames_publishToSubscribers frames_UnsubscribeClient frames_sendLWT
  frames_receivePacket frames_begin_session frames_inheritClientSession : frames.

(** ** Handlers that stop no client *)

Lemma frames_on_client_core {A} a (m : GoM ClientView A) : frames view_core m -> frames cores (on_client a m).
Proof.
  intros Hm s. unfold on_client, zoom, client_view. destruct (sv_store s !! a) as [cl|] eqn:E; cbn [mbind option_bind]; [|done].
  specialize (Hm (mkClientView cl (sv_Info s) (sv_events s))).
  destruct (m _) as [r cv]. cbn [snd] in *. unfold view_core in Hm. change (cv_client (mkClientView cl (sv_Info s) (sv_events s))) with cl in Hm.
  unfold cores. change (sv_store (set_view a cv s)) with (<[a := cv_client cv]> (sv_store s)).
  change (sv_Clients (set_view a cv s)) with (sv_Clients s). f_equal.
  rewrite fmap_insert, Hm. apply insert_id. by rewrite lookup_fmap, E.
Qed.

Lemma frames_topics_core {A} (op : TopicsIndex -> A * TopicsIndex) : frames cores (topics op).
Proof. intros s. unfold topics. by destruct (op _). Qed.

Lemma frames_server_core g :
  (forall s, sv_store (g s) = sv_store s) -> (forall s, sv_Clients (g s) = sv_Clients s) -> frames cores (modify g).
Proof. intros H1 H2. apply frames_modify. intros s. unfold cores. by rewrite H1, H2. Qed.

Lemma frames_event_core ev : frames cores (event ev).
Proof. by apply frames_server_core. Qed.

Lemma frames_set_Info_core g : frames cores (set_Info g).
Proof. by apply frames_server_core. Qed.

Lemma frames_count_subscriptions_core n : frames cores (count_subscriptions n).
Proof. apply frames_set_Info_core. Qed.

#[export] Hint Resolve frames_on_client_core frames_topics_core frames_event_core frames_set_Info_core
  frames_count_subscriptions_core : frames.
#[export] Hint Extern 2 (frames cores (modify _)) => by apply frames_server_core : frames.

Section Quiet.
Context (e : Env) {RO : RangeOrder}.

Lemma frames_retainMessage_core a pk : frames cores (retainMessage e a pk).
Proof. unfold retainMessage. frames_go. Qed.

Lemma frames_publishToSubscribers_core pk : frames cores (publishToSubscribers e pk).
Proof. unfold publishToSubscribers. frames_go. Qed.

Lemma frames_UnsubscribeClient_core a : frames cores (UnsubscribeClient a).
Proof. unfold UnsubscribeClient. frames_go. Qed.
#[local] Hint Resolve frames_retainMessage_core frames_publishToSubscribers_core : frames.

Lemma frames_sendLWT_core a : frames cores (sendLWT e a).
Proof. unfold sendLWT. frames_go. Qed.
End Quiet.

#[export] Hint Resolve frames_retainMessage_core frames_publishToSubscribers_core frames_UnsubscribeClient_core
  frames_sendLWT_core : frames.
