(* ===== verification/ServerFacts.v ===== *)
(** * The handlers of the server are safe

    The invariant of the broker's state, and that every handler keeps it: from
    a state with the invariant no handler panics, every loop ends, and the
    state it leaves has the invariant, whatever it returns. *)
From S2P Require Import Prelude Codes Effects Codec FixedHeader Properties Packets Wire Topics TopicsFacts Aliases Inflight InflightFacts System Clients ClientIO ClientIOFacts ClientFacts Publish PublishFacts Server Sessions.

Lemma RetainMessage_index_ok x pk : index_ok x -> index_ok (TopicsIndex_RetainMessage x pk).2.
Proof.
  intros Hok. pose proof (RetainMessage_effect x pk Hok) as E. cbn zeta in E.
  unfold TopicsIndex_RetainMessage in *. pose proof (TopicsIndex_set_spec x (pk_TopicName pk) 0) as S.
  destruct (TopicsIndex_set _ _ _) as [x1 n]. destruct S as [Hn HR Hat He Hok1 Ht]. specialize (Hok1 Hok).
  destruct (0 <? length (pk_Payload pk))%nat; [|apply E].
  assert (index_ok (particle_update x1 n (set_retainPath (pk_TopicName pk)))) as [? ? ?].
  { apply particle_update_ok; [done..|]. intros g. apply Hok1. }
  by constructor.
Qed.

(** ** Actions on one client *)

(** [s'] differs from [s] in the counters, the trace and the client at [a], which is [cl'] now. *)
Definition only_client (a : nat) (s : Server) (cl' : Client) (s' : Server) : Prop :=
  exists i ev, s' = s <| sv_store ::= <[a := cl']> |> <| sv_Info := i |> <| sv_events := ev |>.

(** An action on one client, by what it keeps of that client. *)
Lemma wp_on_client {A} (P : A + error -> ClientView -> Prop) a (m : GoM ClientView A) s cl Q :
  sv_store s !! a = Some cl -> wp m (mkClientView cl (sv_Info s) (sv_events s)) P ->
  (forall r cv' s', P r cv' -> only_client a s (cv_client cv') s' -> Q r s') ->
  wp (on_client a m) s Q.
Proof.
  intros Ha Hm HQ. unfold on_client.
  apply wp_zoom with (t := mkClientView cl (sv_Info s) (sv_events s)); [unfold client_view; by rewrite Ha|].
  eapply wp_mono; [exact Hm|]. intros r cv' HP. apply (HQ r cv'); [done|]. by exists (cv_Info cv'), (cv_events cv').
Qed.

Lemma reinsert a s cl :
  sv_store s !! a = Some cl ->
  s <| sv_store ::= <[a := cl]> |> <| sv_Info := sv_Info s |> <| sv_events := sv_events s |> = s.
Proof.
  intros Ha. apply (f_equal (fun m => mkServer m (sv_Clients s) (sv_Topics s) (sv_Info s) (sv_willDelayed s)
    (sv_inlineClient s) (sv_events s)) (insert_id (sv_store s) a cl Ha)).
Qed.

Lemma look a s cl : sv_store s !! a = Some cl -> on_client a get_client s = (Ok cl, s).
Proof.
  intros Ha. unfold on_client, zoom, client_view. rewrite Ha. cbn [mbind option_bind get_client cv_client].
  f_equal. exact (reinsert a s cl Ha).
Qed.

Lemma wp_look {B} a s cl (k : Client -> GoM Server B) Q :
  sv_store s !! a = Some cl -> wp (k cl) s Q -> wp (on_client a get_client ≫= k) s Q.
Proof. intros Ha H. apply wp_bind. unfold wp at 1. by rewrite (look a s cl Ha). Qed.

(** ** The invariant *)

Record server_ok (e : Env) (s : Server) : Prop := mkServerOk {
  so_clients : forall a cl, sv_store s !! a = Some cl -> client_ok e cl;
  so_known : forall id a, sv_Clients s !! id = Some a -> is_Some (sv_store s !! a);
  so_inline : op_InlineClient (ev_Options e) = true ->
    exists a, sv_inlineClient s = Some a /\ is_Some (sv_store s !! a);
  so_topics : index_ok (sv_Topics s);
}.

(** The invariant, and the addresses of [L] are those of clients. *)
Definition live (e : Env) (L : list nat) (s : Server) : Prop :=
  server_ok e s /\ forall a, a ∈ L -> is_Some (sv_store s !! a).

Section Invariant.
Context (e : Env).

Lemma live_app L a s : live e L s -> is_Some (sv_store s !! a) -> live e (a :: L) s.
Proof. intros [H1 H2] Ha. split; [done|]. intros x [->|Hx]%elem_of_cons; auto. Qed.

Lemma live_tail L a s : live e (a :: L) s -> live e L s.
Proof. intros [H1 H2]. split; [done|]. intros x Hx. apply H2. by right. Qed.

Lemma live_known L s id a : live e L s -> sv_Clients s !! id = Some a -> is_Some (sv_store s !! a).
Proof. intros [H _]. apply H. Qed.

(** A continuation may use a further address that the state vouches for. *)
Lemma wp_live {A} L a (m : GoM Server A) s :
  live e L s -> is_Some (sv_store s !! a) -> keeps (live e (a :: L)) m -> wp m s (fun _ => live e L).
Proof.
  intros Hs Ha Hm. eapply wp_mono; [apply Hm, live_app; done|]. intros r s' H. exact (live_tail _ _ _ H).
Qed.

Lemma live_set_view L a s cv :
  live e L s -> is_Some (sv_store s !! a) -> client_ok e (cv_client cv) -> live e L (set_view a cv s).
Proof.
  intros [[H1 H2 H3 H4] HL] Ha Hcl.
  assert (Hs : forall x, is_Some (sv_store s !! x) -> is_Some (<[a := cv_client cv]> (sv_store s) !! x)).
  { intros x Hx. destruct (decide (x = a)) as [->|]; [rewrite lookup_insert_eq; eauto|by rewrite lookup_insert_ne]. }
  split; [constructor|].
  - intros x cl. change (<[a := cv_client cv]> (sv_store s) !! x = Some cl -> client_ok e cl).
    intros [[<- <-]|[_ Hx]]%lookup_insert_Some; [done|exact (H1 x cl Hx)].
  - intros id x Hx. apply Hs. exact (H2 id x Hx).
  - intros Ho. destruct (H3 Ho) as (x & Hx & Hsome). exists x. split; [done|]. by apply Hs.
  - exact H4.
  - intros x Hx. apply Hs. by apply HL.
Qed.

Lemma keeps_on_client {A} L a (m : GoM ClientView A) :
  a ∈ L -> keeps (view_ok e) m -> keeps (live e L) (on_client a m).
Proof.
  intros Ha Hm s Hs. destruct (proj2 Hs a Ha) as [cl Hcl].
  apply wp_zoom with (t := mkClientView cl (sv_Info s) (sv_events s)); [unfold client_view; by rewrite Hcl|].
  eapply wp_mono; [apply Hm; by apply (so_clients _ _ (proj1 Hs) a)|].
  intros r cv Hcv. by apply live_set_view; [|eauto|].
Qed.

(** The client a handler looks at satisfies its invariant. *)
Lemma keeps_look {B} L a (k : Client -> GoM Server B) :
  a ∈ L -> (forall cl, client_ok e cl -> keeps (live e L) (k cl)) ->
  keeps (live e L) (on_client a get_client ≫= k).
Proof.
  intros Ha Hk s Hs. destruct (proj2 Hs a Ha) as [cl Hcl]. apply wp_bind.
  apply wp_zoom with (t := mkClientView cl (sv_Info s) (sv_events s)); [unfold client_view; by rewrite Hcl|].
  apply Hk; [by apply (so_clients _ _ (proj1 Hs) a)|].
  apply live_set_view; [done|eauto|by apply (so_clients _ _ (proj1 Hs) a)].
Qed.

Lemma keeps_set_Info L f : keeps (live e L) (set_Info f).
Proof. apply keeps_modify. by intros s [[H1 H2 H3 H4] HL]. Qed.

Lemma keeps_count_subscriptions L n : keeps (live e L) (count_subscriptions n).
Proof. apply keeps_set_Info. Qed.

Lemma keeps_event L ev : keeps (live e L) (event ev).
Proof. apply keeps_modify. by intros s [[H1 H2 H3 H4] HL]. Qed.

Lemma keeps_delete_will L id : keeps (live e L) (delete_will id).
Proof. apply keeps_modify. by intros s [[H1 H2 H3 H4] HL]. Qed.

Lemma keeps_topics {A} L (op : TopicsIndex -> A * TopicsIndex) :
  (forall x, index_ok x -> index_ok (op x).2) -> keeps (live e L) (topics op).
Proof.
  intros Hop s [[H1 H2 H3 H4] HL]. unfold wp, topics. specialize (Hop _ H4). destruct (op (sv_Topics s)) as [a x].
  by split; [constructor|].
Qed.

Lemma keeps_topics_Subscribe L c sub : keeps (live e L) (topics (fun x => TopicsIndex_Subscribe x c sub)).
Proof.
  apply keeps_topics. intros x Hx. pose proof (Subscribe_effect x c sub Hx) as E.
  destruct (TopicsIndex_Subscribe x c sub). apply E.
Qed.

Lemma keeps_topics_Unsubscribe L f c : keeps (live e L) (topics (fun x => TopicsIndex_Unsubscribe x f c)).
Proof.
  apply keeps_topics. intros x Hx. pose proof (Unsubscribe_effect x f c Hx) as E.
  destruct (TopicsIndex_Unsubscribe x f c). apply E.
Qed.

Lemma keeps_topics_InlineSubscribe L sub : keeps (live e L) (topics (fun x => TopicsIndex_InlineSubscribe x sub)).
Proof.
  apply keeps_topics. intros x Hx. pose proof (InlineSubscribe_effect x sub Hx) as E.
  destruct (TopicsIndex_InlineSubscribe x sub). apply E.
Qed.

Lemma keeps_topics_InlineUnsubscribe L i f : keeps (live e L) (topics (fun x => TopicsIndex_InlineUnsubscribe x i f)).
Proof.
  apply keeps_topics. intros x Hx. pose proof (InlineUnsubscribe_effect x i f Hx) as E.
  destruct (TopicsIndex_InlineUnsubscribe x i f). apply E.
Qed.

Lemma keeps_topics_RetainMessage L pk : keeps (live e L) (topics (fun x => TopicsIndex_RetainMessage x pk)).
Proof. apply keeps_topics. intros x Hx. by apply RetainMessage_index_ok. Qed.

Lemma keeps_topics_expire L t :
  keeps (live e L) (topics (fun x => (tt, x <| ti_Retained ::= fun m => Packets_Delete m t |>))).
Proof. apply keeps_topics. intros x [? ? ?]. by constructor. Qed.

(** A change of a client outside what its invariant speaks of. *)
Lemma keeps_set_client L a f :
  a ∈ L -> (forall cl, client_ok e cl -> client_ok e (f cl)) -> keeps (live e L) (on_client a (set_client f)).
Proof. intros Ha Hf. apply keeps_on_client; [done|]. apply keeps_modify. intros cv. apply Hf. Qed.
End Invariant.

#[export] Hint Resolve keeps_set_Info keeps_count_subscriptions keeps_event keeps_delete_will keeps_on_client : keeps.
#[export] Hint Resolve keeps_topics_Subscribe keeps_topics_Unsubscribe keeps_topics_InlineSubscribe : keeps.
#[export] Hint Resolve keeps_topics_InlineUnsubscribe keeps_topics_RetainMessage keeps_topics_expire : keeps.
#[export] Hint Extern 1 (_ ∈ _ :: _) => by left : keeps.

Section Handlers.
Context (e : Env) (He : env_ok e) {RO : RangeOrder}.

(** The state is looked at, not changed. *)
Lemma keeps_state {B} L (k : Server -> GoM Server B) :
  (forall s, live e L s -> wp (k s) s (fun _ => live e L)) -> keeps (live e L) (get_state ≫= k).
Proof. apply keeps_get_state. Qed.

Lemma keeps_state_pure {B} L (k : Server -> GoM Server B) :
  (forall s, keeps (live e L) (k s)) -> keeps (live e L) (get_state ≫= k).
Proof. intros H. apply keeps_state. intros s Hs. by apply H. Qed.

(** ** Publishing *)

Lemma keeps_retainMessage L a pk : a ∈ L -> keeps (live e L) (retainMessage e a pk).
Proof.
  intros Ha. unfold retainMessage. destruct (_ || _); [apply keeps_ret|].
  apply keeps_bind; [eauto with keeps|intros r]. apply keeps_bind; [eauto with keeps|intros _].
  apply keeps_state_pure. eauto with keeps.
Qed.

Lemma keeps_publishToSubscribers L pk : keeps (live e L) (publishToSubscribers e pk).
Proof.
  unfold publishToSubscribers. destruct (pk_Ignore pk); [apply keeps_ret|]. cbv zeta.
  apply keeps_state_pure. intros s0. apply keeps_bind; [keeps_go|intros _].
  apply keeps_for_each. intros kv _. apply keeps_state. intros s Hs.
  destruct (Clients_Get _ _) as [a|] eqn:Ea; [|by apply wp_ret].
  eapply wp_live; [done|by eapply live_known|].
  apply keeps_ignore, keeps_on_client; [by left|by apply keeps_publishToClient].
Qed.

Lemma keeps_publishRetainedToClient L a sub existed :
  a ∈ L -> keeps (live e L) (publishRetainedToClient e a sub existed).
Proof.
  intros Ha. unfold publishRetainedToClient. destruct (IsSharedFilter _); [apply keeps_ret|].
  destruct (_ || _); [apply keeps_ret|]. apply keeps_state_pure. intros s. keeps_go.
Qed.

Lemma keeps_accept_publish L a pk :
  a ∈ L -> is_u16 (pk_PacketID pk) -> keeps (live e L) (accept_publish e a pk).
Proof.
  intros Ha Hid. unfold accept_publish.
  apply keeps_bind; [apply keeps_when; intros _; by apply keeps_retainMessage|intros _].
  apply keeps_look; [done|]. intros cl Hcl. destruct (_ || _).
  - apply keeps_bind; [apply keeps_publishToSubscribers|eauto with keeps].
  - apply keeps_bind; [eauto with keeps|intros _]. cbv zeta. apply keeps_look; [done|]. intros cl' Hcl'.
    destruct (_ && _); [keeps_go|].
    apply keeps_bind.
    { apply keeps_when. intros _. apply keeps_bind; [|intros; keeps_go].
      apply keeps_on_client; [done|]. apply keeps_Set. by rewrite complete_from_id. }
    intros _. apply keeps_bind; [eauto with keeps|intros _]. apply keeps_bind; [keeps_go|intros _].
    apply keeps_bind; [apply keeps_publishToSubscribers|eauto with keeps].
Qed.

Lemma keeps_hooked_publish L a pk :
  a ∈ L -> is_u16 (pk_PacketID pk) -> keeps (live e L) (hooked_publish e a pk).
Proof.
  intros Ha Hid. apply keeps_look; [done|]. intros cl Hcl.
  destruct (hk_OnPublish _ _ _) as [pkx [err|]] eqn:Eh.
  - destruct (error_is _ _); [apply keeps_ret|]. destruct (error_is _ _); [by apply keeps_accept_publish|].
    destruct (_ && _) eqn:Hb; [|by apply keeps_accept_publish].
    bool_to_prop. destruct (eo_publish_code e He cl pk pkx err Eh) as [code ->]; [done|]. eauto with keeps.
  - apply keeps_accept_publish; [done|]. by eapply (eo_publish_id e He).
Qed.

Lemma keeps_set_topic_alias L a b :
  a ∈ L -> keeps (live e L) (on_client a (set_topic_alias (fun t => t <| ta_Inbound := b |>))).
Proof. intros Ha. apply keeps_set_client; [done|]. intros cl [H1 H2 H3 H4]. by constructor. Qed.

Lemma keeps_processPublish L a pk :
  a ∈ L -> is_u16 (pk_PacketID pk) -> keeps (live e L) (processPublish e a pk).
Proof.
  intros Ha Hid. unfold processPublish. apply keeps_look; [done|]. intros cl Hcl. cbv zeta.
  destruct (_ && _); [apply keeps_ret|]. destruct (_ =? 0); [eauto with keeps|].
  destruct (_ && _); [unfold refuse_publish; keeps_go|].
  set (pk1 := pk <| pk_Origin := _ |> <| pk_Created := _ |>).
  set (pk2 := if 0 <? message_expiry e pk1 then _ else _).
  assert (Hid2 : is_u16 (pk_PacketID pk2)) by (unfold pk2; by destruct (0 <? _)). clearbody pk2.
  destruct (_ && _); [eauto with keeps|].
  apply keeps_bind; [|intros topic].
  - destruct (_ && _); [|apply keeps_ret]. destruct (InboundTopicAliases_Set _ _ _) as [topic b].
    apply keeps_bind; [by apply keeps_set_topic_alias|intros _; apply keeps_ret].
  - apply keeps_hooked_publish; [done|]. by destruct (_ <? _).
Qed.

(** ** Subscriptions *)

Lemma keeps_set_subscriptions L a f :
  a ∈ L -> keeps (live e L) (on_client a (set_client (fun cl => cl <| cl_State ::= fun st => st <| st_Subscriptions ::= f |> |>))).
Proof. intros Ha. apply keeps_set_client; [done|]. intros cl [H1 H2 H3 H4]. by constructor. Qed.

Lemma keeps_subscribe_filter L a code sub : a ∈ L -> keeps (live e L) (subscribe_filter e a code sub).
Proof.
  intros Ha. apply keeps_look; [done|]. intros cl Hcl. cbv zeta. keeps_go. by apply keeps_set_subscriptions.
Qed.

Lemma keeps_subscribe_filters L a code subs : a ∈ L -> keeps (live e L) (subscribe_filters e a code subs).
Proof.
  intros Ha. induction subs as [|sub subs IH]; cbn [subscribe_filters]; keeps_go.
  by apply keeps_subscribe_filter.
Qed.

Lemma keeps_processSubscribe L a pk : a ∈ L -> keeps (live e L) (processSubscribe e a pk).
Proof.
  intros Ha. apply keeps_look; [done|]. intros cl Hcl. cbv zeta.
  apply keeps_bind; [by apply keeps_subscribe_filters|intros answers]. keeps_go.
  by apply keeps_publishRetainedToClient.
Qed.

Lemma keeps_unsubscribe_filters L a code subs : a ∈ L -> keeps (live e L) (unsubscribe_filters a code subs).
Proof.
  intros Ha. induction subs as [|sub subs IH]; cbn [unsubscribe_filters]; keeps_go.
  unfold unsubscribe_filter. destruct (negb _); [apply keeps_ret|]. apply keeps_look; [done|]. intros cl Hcl.
  keeps_go. by apply keeps_set_subscriptions.
Qed.

Lemma keeps_processUnsubscribe L a pk : a ∈ L -> keeps (live e L) (processUnsubscribe e a pk).
Proof.
  intros Ha. apply keeps_look; [done|]. intros cl Hcl. cbv zeta.
  apply keeps_bind; [by apply keeps_unsubscribe_filters|intros codes]. keeps_go.
Qed.

Lemma keeps_UnsubscribeClient L a : a ∈ L -> keeps (live e L) (UnsubscribeClient a).
Proof.
  intros Ha. apply keeps_look; [done|]. intros cl Hcl. cbv zeta.
  apply keeps_bind; [by apply keeps_set_subscriptions|intros _]. keeps_go.
Qed.

(** ** Wills and the dispatch *)

Lemma keeps_set_properties L a f :
  a ∈ L -> (forall p, pr_ReceiveMaximum (cp_Props (f p)) = pr_ReceiveMaximum (cp_Props p)) ->
  keeps (live e L) (on_client a (set_client (fun cl => cl <| cl_Properties ::= f |>))).
Proof.
  intros Ha Hf. apply keeps_set_client; [done|]. intros cl [H1 H2 H3 H4]. constructor; [done..|].
  change (is_u16 (pr_ReceiveMaximum (cp_Props (f (cl_Properties cl))))). by rewrite Hf.
Qed.

Lemma keeps_sendLWT L a : a ∈ L -> keeps (live e L) (sendLWT e a).
Proof.
  intros Ha. apply keeps_look; [done|]. intros cl Hcl. cbv zeta.
  destruct (_ =? 0); [apply keeps_ret|]. destruct (0 <? _).
  { apply keeps_modify. by intros s [[H1 H2 H3 H4] HL]. }
  apply keeps_bind; [apply keeps_when; intros _; by apply keeps_retainMessage|intros _].
  apply keeps_bind; [apply keeps_publishToSubscribers|intros _].
  apply keeps_bind; [by apply keeps_set_properties|eauto with keeps].
Qed.

Lemma keeps_processDisconnect L a pk : a ∈ L -> keeps (live e L) (processDisconnect e a pk).
Proof.
  intros Ha. apply keeps_look; [done|]. intros cl Hcl. cbv zeta. keeps_go.
  by apply keeps_set_properties.
Qed.

Lemma dispatch_keeps L a pk m :
  a ∈ L -> is_u16 (pk_PacketID pk) -> dispatch e a pk = inl m -> keeps (live e L) m.
Proof.
  intros Ha Hid. unfold dispatch. intros H.
  repeat match type of H with
  | (if ?b then _ else _) = inl _ => destruct b; [first [injection H as <-|idtac]|]
  end; try discriminate H.
  all: repeat match type of H with (if ?b then _ else _) = inl _ => destruct b end; try discriminate H; try injection H as <-.
  - apply keeps_bind; [by apply keeps_sendLWT|intros; apply keeps_throw].
  - by apply keeps_processDisconnect.
  - apply keeps_on_client; [done|]. by apply keeps_WritePacket.
  - by apply keeps_processPublish.
  - apply keeps_on_client; [done|]. apply keeps_processPuback.
  - apply keeps_on_client; [done|]. by apply keeps_processPubrec.
  - apply keeps_on_client; [done|]. by apply keeps_processPubrel.
  - apply keeps_on_client; [done|]. apply keeps_processPubcomp.
  - by apply keeps_processSubscribe.
  - by apply keeps_processUnsubscribe.
  - apply keeps_on_client; [done|]. apply keeps_processAuth.
Qed.

Lemma keeps_processPacket L a pk :
  a ∈ L -> is_u16 (pk_PacketID pk) -> keeps (live e L) (processPacket e a pk).
Proof.
  intros Ha Hid. unfold processPacket. destruct (dispatch e a pk) as [m|err] eqn:Ed; [|apply keeps_throw].
  apply keeps_bind; [apply keeps_attempt; by eapply dispatch_keeps|]. intros [[]|err]; cbv zeta.
  all: apply keeps_bind; [eauto with keeps|intros _]; eauto with keeps.
Qed.

Lemma keeps_receivePacket L a pk :
  a ∈ L -> is_u16 (pk_PacketID pk) -> keeps (live e L) (receivePacket e a pk).
Proof.
  intros Ha Hid. unfold receivePacket. apply keeps_bind; [apply keeps_attempt; by apply keeps_processPacket|].
  intros [[]|err]; [apply keeps_ret|]. apply keeps_look; [done|]. intros cl Hcl. keeps_go.
Qed.
End Handlers.

(** ** Sessions and housekeeping *)

Section Sessions.
Context (e : Env) (He : env_ok e) {RO : RangeOrder}.

Lemma keeps_set_takenover L a : a ∈ L -> keeps (live e L) (set_takenover a).
Proof. intros Ha. apply keeps_set_client; [done|]. intros cl [H1 H2 H3 H4]. by constructor. Qed.

Lemma inherit_inflight_ok existing cl :
  inflight_ok (cl_Inflight existing) -> client_ok e cl -> inflight_ok (inherit_inflight e existing cl).
Proof.
  intros Hi Ha. unfold inherit_inflight. cbv zeta. pose proof (eo_receive e He) as Hr. pose proof (ko_receive _ _ Ha) as Hc. unfold is_u16 in *.
  assert (H1 : inflight_ok (Inflight_Clone (cl_Inflight existing))) by exact (apply_op_ok _ OpClone Hi I).
  set (n := if _ =? 0 then _ else _).
  assert (Hn : is_quota n) by (unfold n, is_quota; destruct (_ =? 0); unfold is_u16 in *; lia).
  assert (H2 := apply_op_ok _ (OpReconcileSendQuotaCap n) H1 Hn). cbn [apply_op] in H2.
  destruct (_ && _); [|done]. refine (apply_op_ok _ (OpResetReceiveQuota _) H2 _). cbn. unfold is_quota. lia.
Qed.

Lemma keeps_inherit_subscription L a sub : a ∈ L -> keeps (live e L) (inherit_subscription a sub).
Proof.
  intros Ha. apply keeps_look; [done|]. intros cl Hcl. keeps_go. by apply keeps_set_subscriptions.
Qed.

Lemma keeps_for_clients L body :
  (forall L' id a, a ∈ L' -> keeps (live e L') (body id a)) -> keeps (live e L) (for_clients body).
Proof.
  intros Hb s Hs. apply wp_bind, wp_get_state.
  apply wp_for_each with (I := live e ((range (sv_Clients s)).*2 ++ L)).
  - split; [apply Hs|]. intros a [Ha|Ha]%elem_of_app; [|by apply Hs].
    apply list_elem_of_fmap in Ha as ([id x] & -> & Hx%elem_of_range). exact (so_known _ _ (proj1 Hs) id x Hx).
  - intros [id a] s' Hin Hs'. apply Hb; [|done]. apply elem_of_app. left.
    apply list_elem_of_fmap. by exists (id, a).
  - intros r s' [H1 H2]. split; [done|]. intros a Ha. apply H2, elem_of_app. by right.
Qed.

(** [DisconnectClient], and the subscriptions and messages move or go. *)
Lemma keeps_inheritClientSession L pk a : a ∈ L -> keeps (live e L) (inheritClientSession e pk a).
Proof.
  intros Ha. apply keeps_look; [done|]. intros cl Hcl. apply keeps_state. intros s Hs.
  destruct (Clients_Get _ _) as [x|] eqn:Ex.
  2: { cut (keeps (live e L) (when (in_ClientsMaximum (sv_Info s) <? in_ClientsConnected (sv_Info s))
         (set_Info (fun i => i <| in_ClientsMaximum ::= add64 1 |>));; mret false)); [auto|]. keeps_go. }
  eapply wp_live; [done|by eapply live_known|]. assert (Hx : x ∈ x :: L) by by left.
  assert (Ha' : a ∈ x :: L) by by right.
  apply keeps_bind; [keeps_go|intros _]. apply keeps_look; [done|]. intros existing Hex. destruct (_ || _).
  - apply keeps_bind; [by apply keeps_UnsubscribeClient|intros _].
    apply keeps_bind; [keeps_go|intros _]. apply keeps_bind; [by apply keeps_set_takenover|intros; apply keeps_ret].
  - apply keeps_bind; [by apply keeps_set_takenover|intros _].
    apply keeps_bind.
    { apply keeps_when. intros _. apply keeps_set_client; [done|]. intros c Hc. pose proof Hc as [H1 H2 H3 H4].
      constructor; [|done..]. apply inherit_inflight_ok; [apply Hex|done]. }
    intros _. apply keeps_bind; [apply keeps_for_each; intros; by apply keeps_inherit_subscription|intros _].
    apply keeps_bind; [by apply keeps_UnsubscribeClient|intros _]. keeps_go.
Qed.

Lemma keeps_forget L id : keeps (live e L) (modify (fun s => s <| sv_Clients ::= fun m => Clients_Delete m id |>)).
Proof.
  apply keeps_modify. intros s [[H1 H2 H3 H4] HL]. split; [constructor|]; try done.
  intros i a. change (delete id (sv_Clients s) !! i = Some a -> is_Some (sv_store s !! a)).
  intros [_ H]%lookup_delete_Some. exact (H2 i a H).
Qed.

Lemma keeps_begin_session L a pk code : a ∈ L -> keeps (live e L) (begin_session e a pk code).
Proof.
  intros Ha. unfold begin_session. apply keeps_bind; [eauto with keeps|intros _].
  apply keeps_bind; [by apply keeps_inheritClientSession|intros present].
  apply keeps_look; [done|]. intros cl Hcl. apply keeps_bind.
  { apply keeps_modify. intros s [[H1 H2 H3 H4] HL]. split; [constructor|]; try done.
    intros i x. change (<[cl_ID cl := a]> (sv_Clients s) !! i = Some x -> is_Some (sv_store s !! x)).
    intros [[_ <-]|[_ H]]%lookup_insert_Some; [by apply HL|exact (H2 i x H)]. }
  intros _. keeps_go.
Qed.

Lemma keeps_end_session L a err : a ∈ L -> keeps (live e L) (end_session e a err).
Proof.
  intros Ha. unfold end_session. apply keeps_bind; [|intros _].
  - destruct err; [|by apply keeps_set_properties].
    apply keeps_bind; [by apply keeps_sendLWT|eauto with keeps].
  - apply keeps_look; [done|]. intros cl Hcl. cbv zeta. apply keeps_bind; [eauto with keeps|intros _].
    apply keeps_bind; [|intros _; destruct err; eauto with keeps].
    apply keeps_when. intros _. apply keeps_bind; [eauto with keeps|intros _].
    apply keeps_bind; [by apply keeps_UnsubscribeClient|intros _; apply keeps_forget].
Qed.

(** ** Housekeeping *)

Lemma keeps_clearExpiredClients L dt : keeps (live e L) (clearExpiredClients e dt).
Proof.
  apply keeps_for_clients. intros L' id a Ha. apply keeps_look; [done|]. intros cl Hcl. cbv zeta. keeps_go.
  apply keeps_forget.
Qed.

Lemma keeps_clearExpiredRetainedMessages L now : keeps (live e L) (clearExpiredRetainedMessages e now).
Proof. apply keeps_state_pure. intros s. keeps_go. Qed.

Lemma keeps_clearExpiredInflights L now : keeps (live e L) (clearExpiredInflights e now).
Proof. apply keeps_for_clients. intros L' id a Ha. keeps_go. Qed.

Lemma keeps_resumeAllDeferredPublishes L : keeps (live e L) (resumeAllDeferredPublishes e).
Proof.
  apply keeps_for_clients. intros L' id a Ha. apply keeps_look; [done|]. intros cl Hcl. keeps_go.
Qed.

Lemma keeps_sendDelayedLWT L dt : keeps (live e L) (sendDelayedLWT e dt).
Proof.
  apply keeps_state_pure. intros s0. apply keeps_for_each. intros [id pk] _. apply keeps_when. intros _.
  apply keeps_bind; [by apply keeps_publishToSubscribers|intros _]. apply keeps_state. intros s Hs.
  destruct (Clients_Get _ _) as [a|] eqn:Ea.
  - eapply wp_live; [done|by eapply live_known|]. assert (Ha : a ∈ a :: L) by by left.
    apply keeps_bind; [|intros _; apply keeps_delete_will].
    apply keeps_bind; [apply keeps_when; intros _; by apply keeps_retainMessage|intros _].
    apply keeps_bind; [by apply keeps_set_properties|eauto with keeps].
  - cut (keeps (live e L) (mret tt;; delete_will id)); [auto|]. keeps_go.
Qed.

Lemma keeps_closeListenerClients L listener : keeps (live e L) (closeListenerClients e listener).
Proof.
  intros s Hs. apply wp_bind, wp_get_state.
  set (l := Clients_GetByListener _ _ _).
  apply wp_for_each with (I := live e (l ++ L)).
  - split; [apply Hs|]. intros a [Ha|Ha]%elem_of_app; [|by apply Hs].
    unfold l, Clients_GetByListener in Ha. apply list_elem_of_In, filter_In in Ha as [_ Ha].
    destruct (sv_store s !! a); [eauto|done].
  - intros a s' Hin Hs'. revert s' Hs'. apply keeps_ignore, keeps_on_client; [apply elem_of_app; by left|].
    by apply keeps_DisconnectClient.
  - intros r s' [H1 H2]. split; [done|]. intros a Ha. apply H2, elem_of_app. by right.
Qed.
End Sessions.
