(* ===== verification/Broker.v ===== *)
(** * The broker as a state machine

    The actions of the broker (connections, packets, the write loops, the
    tickers of the event loop, the inline client) as steps between states, each
    in an environment of its own: the clock, the network and the hooks may
    differ from step to step, the options do not. Every state that can be
    reached satisfies the invariant, and no action can panic in it. *)
From S2P Require Import Prelude Codes Effects Codec FixedHeader Properties Packets Wire Topics TopicsFacts Aliases Inflight InflightFacts System Clients ClientIO ClientIOFacts ClientFacts Publish PublishFacts Delivery Server Sessions SysTopics ServerFacts.

(** A connect packet as decoding gives it: its 16-bit properties fit. *)
Definition connect_ok (pk : Packet) : Prop :=
  is_u16 (pr_ReceiveMaximum (pk_Properties pk)) /\ is_u16 (pr_TopicAliasMaximum (pk_Properties pk)).

(** A new connection whose connect packet was accepted. *)
Definition open_session {RO : RangeOrder} (e : Env) (listener remote : gostr) (pk : Packet) : GoM Server unit :=
  a ← allocate (ParseConnect (ev_Options e) (ev_xid e) (NewClient e (Some remote) listener [] false) listener pk);
  begin_session e a pk CodeSuccess.

Inductive action {RO : RangeOrder} (e : Env) (s : Server) : GoM Server unit -> Prop :=
| act_connect listener remote pk : connect_ok pk -> action e s (open_session e listener remote pk)
| act_receive a pk : is_Some (sv_store s !! a) -> is_u16 (pk_PacketID pk) -> action e s (receivePacket e a pk)
| act_write a : is_Some (sv_store s !! a) -> action e s (on_client a (WriteLoop_round e))
| act_end a err : is_Some (sv_store s !! a) -> action e s (end_session e a err)
| act_stop a err : is_Some (sv_store s !! a) -> action e s (on_client a (stop e err))
| act_disconnect a code : is_Some (sv_store s !! a) -> action e s (on_client a (DisconnectClient e code))
| act_expire_clients dt : action e s (clearExpiredClients e dt)
| act_expire_retained dt : action e s (clearExpiredRetainedMessages e dt)
| act_expire_inflights dt : action e s (clearExpiredInflights e dt)
| act_resume : action e s (resumeAllDeferredPublishes e)
| act_wills dt : action e s (sendDelayedLWT e dt)
| act_close listener : action e s (closeListenerClients e listener)
| act_publish topic payload retain qos : is_u16 qos -> action e s (Server_Publish e topic payload retain qos)
| act_subscribe filter id handler : action e s (Server_Subscribe e filter id handler)
| act_unsubscribe filter id : action e s (Server_Unsubscribe e filter id)
| act_tick memory threads tick : action e s (eventLoop_case e memory threads tick).

Section Actions.
Context (e : Env) (He : env_ok e) {RO : RangeOrder}.

Lemma NewClient_ok c listener id inline : client_ok e (NewClient e c listener id inline).
Proof.
  pose proof (eo_max_id e He). pose proof (NewOutbound_ok _ (eo_alias e He)).
  unfold NewClient. destruct inline; constructor; try done.
  all: change (0 <= 0 <= ca_maximumPacketID (ev_Capabilities e)); lia.
Qed.

Lemma ParseConnect_ok xid cl lid pk :
  client_ok e cl -> connect_ok pk -> client_ok e (ParseConnect (ev_Options e) xid cl lid pk).
Proof.
  intros [H1 H2 H3 H4] [Hr Ha]. unfold ParseConnect. cbv zeta.
  set (props := if _ <? _ then _ else _).
  assert (Hp : is_u16 (pr_ReceiveMaximum props) /\ pr_TopicAliasMaximum props = pr_TopicAliasMaximum (pk_Properties pk)).
  { unfold props. destruct (_ <? _); split; try done. exact (eo_inflight e He). }
  destruct Hp as [Hpr Hpa]. clearbody props.
  set (i1 := Inflight_ResetReceiveQuota (cl_Inflight cl) _).
  assert (Hi1 : inflight_ok i1).
  { refine (apply_op_ok _ (OpResetReceiveQuota _) H1 _). apply is_u16_quota, (eo_receive e He). }
  constructor.
  - change (inflight_ok (if 5 <=? pk_ProtocolVersion pk then Inflight_ResetSendQuota i1 (pr_ReceiveMaximum props)
      else Inflight_ResetSendQuota i1 (ca_ReceiveMaximum (op_Capabilities (ev_Options e))))).
    destruct (5 <=? _); refine (apply_op_ok _ (OpResetSendQuota _) Hi1 _); apply is_u16_quota; [done|apply (eo_receive e He)].
  - exact H2.
  - refine (NewOutbound_ok _ _). change (is_u16 (pr_TopicAliasMaximum props)). by rewrite Hpa.
  - change (is_u16 (pr_ReceiveMaximum (if str_eqb (cp_ClientIdentifier (pk_Connect pk)) []
      then props <| pr_AssignedClientID := xid |> else props))). by destruct (str_eqb _ _).
Qed.

(** A new object has an address of its own. *)
Lemma allocate_ok L cl s (Q : nat + error -> Server -> Prop) :
  client_ok e cl -> live e L s ->
  (forall a s', live e (a :: L) s' -> Q (inl a) s') -> wp (allocate cl) s Q.
Proof.
  intros Hcl [[H1 H2 H3 H4] HL] HQ. unfold wp, allocate.
  set (a := fresh_address s). apply HQ.
  assert (Hs : forall x, is_Some (sv_store s !! x) -> is_Some (<[a := cl]> (sv_store s) !! x)).
  { intros x Hx. destruct (decide (x = a)) as [->|]; [rewrite lookup_insert_eq; eauto|by rewrite lookup_insert_ne]. }
  split; [constructor|].
  - intros x c. change (<[a := cl]> (sv_store s) !! x = Some c -> client_ok e c).
    intros [[<- <-]|[_ Hx]]%lookup_insert_Some; [done|exact (H1 x c Hx)].
  - intros id x Hx. apply Hs. exact (H2 id x Hx).
  - intros Ho. destruct (H3 Ho) as (x & Hx & Hsome). exists x. split; [done|]. by apply Hs.
  - exact H4.
  - intros x [->|Hx]%elem_of_cons; [|by apply Hs, HL].
    change (is_Some (<[a := cl]> (sv_store s) !! a)). rewrite lookup_insert_eq. eauto.
Qed.

Lemma keeps_open_session L listener remote pk :
  connect_ok pk -> keeps (live e L) (open_session e listener remote pk).
Proof.
  intros Hpk s Hs. apply wp_bind. eapply allocate_ok; [|done|].
  - apply ParseConnect_ok; [apply NewClient_ok|done].
  - intros a s' Hs'. eapply wp_mono; [apply keeps_begin_session; [done|by left|exact Hs']|].
    intros r s'' H. exact (live_tail _ _ _ _ H).
Qed.

(** The inline client, when the option is set. *)
Lemma wp_inline {B} L (k : nat -> GoM Server B) s :
  op_InlineClient (ev_Options e) = true -> live e L s ->
  (forall a, keeps (live e (a :: L)) (k a)) -> wp (inline_address ≫= k) s (fun _ => live e L).
Proof.
  intros Ho Hs Hk. destruct (so_inline _ _ (proj1 Hs) Ho) as (a & Ha & Hsome).
  apply wp_bind. unfold inline_address. apply wp_bind, wp_get_state. rewrite Ha. apply wp_ret.
  by apply (wp_live e L a).
Qed.

Lemma keeps_InjectPacket L a pk : a ∈ L -> is_u16 (pk_PacketID pk) -> keeps (live e L) (InjectPacket e a pk).
Proof.
  intros Ha Hid. apply keeps_look; [done|]. intros cl Hcl. cbv zeta.
  apply keeps_bind; [by apply keeps_processPacket|intros _]. keeps_go.
Qed.

Lemma keeps_Server_Publish L topic payload retain qos :
  is_u16 qos -> keeps (live e L) (Server_Publish e topic payload retain qos).
Proof.
  intros Hq. unfold Server_Publish. destruct (op_InlineClient (ev_Options e)) eqn:Ho; [|apply keeps_throw].
  intros s Hs. apply wp_inline; [done|done|]. intros a. by apply keeps_InjectPacket; [left|].
Qed.

Lemma keeps_Server_Subscribe L filter id handler : keeps (live e L) (Server_Subscribe e filter id handler).
Proof.
  unfold Server_Subscribe. destruct (op_InlineClient (ev_Options e)) eqn:Ho; [|apply keeps_throw]. cbn [negb].
  destruct handler as [handler|]; [|apply keeps_throw]. destruct (negb _); [apply keeps_throw|].
  intros s Hs. apply wp_inline; [done|done|]. intros a. assert (Ha : a ∈ a :: L) by by left.
  apply keeps_bind; [apply keeps_look; [done|]; intros; apply keeps_ret|]. intros [cl pk]. cbv zeta.
  apply keeps_bind; [eauto with keeps|intros _]. apply keeps_bind; [eauto with keeps|intros _].
  apply keeps_state_pure. intros s'. keeps_go.
Qed.

Lemma keeps_Server_Unsubscribe L filter id : keeps (live e L) (Server_Unsubscribe e filter id).
Proof.
  unfold Server_Unsubscribe. destruct (op_InlineClient (ev_Options e)) eqn:Ho; [|apply keeps_throw]. cbn [negb].
  destruct (negb _); [apply keeps_throw|].
  intros s Hs. apply wp_inline; [done|done|]. intros a. assert (Ha : a ∈ a :: L) by by left.
  apply keeps_bind; [apply keeps_look; [done|]; intros; apply keeps_ret|]. intros [cl pk]. keeps_go.
Qed.

Lemma keeps_publishSysTopics L memory threads : keeps (live e L) (publishSysTopics e memory threads).
Proof.
  unfold publishSysTopics. apply keeps_bind; [apply keeps_set_Info|intros _]. apply keeps_bind.
  { apply keeps_modify. by intros s [[H1 H2 H3 H4] HL]. }
  intros _. apply keeps_bind; [apply keeps_set_Info|intros _]. apply keeps_state_pure. intros s. cbv zeta.
  apply keeps_bind; [|intros _; apply keeps_event]. apply keeps_for_each. intros tp _.
  apply keeps_bind; [apply keeps_topics_RetainMessage|intros _]. by apply keeps_publishToSubscribers.
Qed.

Lemma keeps_eventLoop_case L memory threads tick : keeps (live e L) (eventLoop_case e memory threads tick).
Proof.
  destruct tick; [apply keeps_publishSysTopics|apply keeps_clearExpiredClients|apply keeps_clearExpiredRetainedMessages
    |by apply keeps_sendDelayedLWT|].
  apply keeps_bind; [by apply keeps_clearExpiredInflights|intros _; by apply keeps_resumeAllDeferredPublishes].
Qed.

Lemma action_safe s m : server_ok e s -> action e s m -> wp m s (fun _ => server_ok e).
Proof.
  intros Hs Ha.
  assert (H0 : live e [] s) by (split; [done|by intros a ?%elem_of_nil]).
  assert (Hl : forall a, is_Some (sv_store s !! a) -> live e [a] s) by (intros a Hsome; by apply live_app).
  assert (Hw : forall L, live e L s -> keeps (live e L) m -> wp m s (fun _ => server_ok e)).
  { intros L HL Hm. eapply wp_mono; [by apply Hm|]. intros r s' H. exact (proj1 H). }
  destruct Ha as [listener remote pk Hpk|a pk Ha Hid|a Ha|a err Ha|a err Ha|a code Ha|dt|dt|dt| |dt|listener
    |topic payload retain qos Hq|filter id handler|filter id|memory threads tick].
  - apply (Hw []); [done|]. by apply keeps_open_session.
  - apply (Hw [a]); [auto|]. apply keeps_receivePacket; [done|by left|done].
  - apply (Hw [a]); [auto|]. apply keeps_on_client; [by left|]. by apply keeps_WriteLoop_round.
  - apply (Hw [a]); [auto|]. apply keeps_end_session; [done|by left].
  - apply (Hw [a]); [auto|]. apply keeps_on_client; [by left|]. apply keeps_stop.
  - apply (Hw [a]); [auto|]. apply keeps_on_client; [by left|]. by apply keeps_DisconnectClient.
  - apply (Hw []); [done|]. apply keeps_clearExpiredClients.
  - apply (Hw []); [done|]. apply keeps_clearExpiredRetainedMessages.
  - apply (Hw []); [done|]. by apply keeps_clearExpiredInflights.
  - apply (Hw []); [done|]. by apply keeps_resumeAllDeferredPublishes.
  - apply (Hw []); [done|]. by apply keeps_sendDelayedLWT.
  - apply (Hw []); [done|]. by apply keeps_closeListenerClients.
  - apply (Hw []); [done|]. by apply keeps_Server_Publish.
  - apply (Hw []); [done|]. by apply keeps_Server_Subscribe.
  - apply (Hw []); [done|]. by apply keeps_Server_Unsubscribe.
  - apply (Hw []); [done|]. apply keeps_eventLoop_case.
Qed.

Lemma New_ok : server_ok e (New e).
Proof.
  unfold New. destruct (op_InlineClient (ev_Options e)) eqn:Ho; constructor.
  - intros a cl. change ((({[ 0%nat := NewClient e None LocalListener InlineClientId true ]}) : gmap nat Client) !! a = Some cl -> client_ok e cl).
    intros [_ <-]%lookup_singleton_Some. apply NewClient_ok.
  - intros id a. change (<[InlineClientId := 0%nat]> (∅ : Clients) !! id = Some a ->
      is_Some ((({[ 0%nat := NewClient e None LocalListener InlineClientId true ]}) : gmap nat Client) !! a)).
    intros [[_ <-]|[_ H]]%lookup_insert_Some; [|by rewrite lookup_empty in H].
    rewrite lookup_singleton_eq. eauto.
  - intros _. exists 0%nat. split; [done|].
    change (is_Some ((({[ 0%nat := NewClient e None LocalListener InlineClientId true ]}) : gmap nat Client) !! 0%nat)).
    rewrite lookup_singleton_eq. eauto.
  - apply NewTopicsIndex_ok.
  - done.
  - done.
  - congruence.
  - apply NewTopicsIndex_ok.
Qed.
End Actions.

(** The invariant speaks of the options only. *)
Lemma server_ok_options e e' s : ev_Options e = ev_Options e' -> server_ok e s -> server_ok e' s.
Proof.
  intros E [H1 H2 H3 H4]. constructor; [|done| |done].
  - intros a cl H. destruct (H1 a cl H) as [K1 K2 K3 K4]. constructor; try done.
    unfold ev_Capabilities in *. by rewrite <- E.
  - by rewrite <- E.
Qed.

(** ** The machine *)

Inductive broker_step {RO : RangeOrder} (o : Options) : Server -> Server -> Prop :=
| broker_action e s m :
    ev_Options e = o -> env_ok e -> action e s m -> broker_step o s (m s).2.

Lemma wp_returns {S A} (m : GoM S A) s P :
  wp m s (fun _ => P) -> returns (m s).1 /\ P (m s).2.
Proof. unfold wp, returns. destruct (m s) as [[a|err| |] s']; cbn; naive_solver. Qed.

Lemma broker_reachable {RO : RangeOrder} e0 s :
  env_ok e0 -> rtc (broker_step (ev_Options e0)) (New e0) s -> server_ok e0 s.
Proof.
  intros He0 H. pose proof (New_ok e0 He0) as Hs. revert H Hs. generalize (New e0).
  induction 1 as [s|s1 s2 s3 Hstep _ IH]; [done|]. intros Hs. apply IH.
  destruct Hstep as [e s m Eo He Ha].
  apply (server_ok_options e); [done|]. apply (wp_returns m s (server_ok e)).
  refine (action_safe e He s m _ Ha). by apply (server_ok_options e0).
Qed.

(** C2: Safety of the broker. In every state that a new server reaches by any
    sequence of connections, received packets, write rounds, disconnections,
    housekeeping ticks and calls of the inline client, every further action
    returns (no panic, no endless loop), with a value or an error, and leaves a
    state with the invariant: quotas within their limits, in-flight entries
    stored under their own 16-bit ids, distinct outbound aliases, no dangling
    client reference, a topics index closed under parents. The network may
    fail, the clock and the hooks may change from action to action. *)
Theorem broker_safe {RO : RangeOrder} e0 e s m :
  env_ok e0 -> rtc (broker_step (ev_Options e0)) (New e0) s ->
  ev_Options e = ev_Options e0 -> env_ok e -> action e s m ->
  returns (m s).1 /\ server_ok e (m s).2.
Proof.
  intros He0 Hr Eo He Ha. apply wp_returns. refine (action_safe e He s m _ Ha).
  apply (server_ok_options e0); [done|]. by apply broker_reachable.
Qed.

(** A client has connected; it subscribes. *)
Definition connect_sample : Packet :=
  Packet0 <| pk_FixedHeader := FixedHeader0 <| fh_Type := Connect |> |> <| pk_ProtocolVersion := 4 |>
    <| pk_Connect ::= fun c => c <| cp_ClientIdentifier := !"c1" |> <| cp_Clean := true |> |>.
Definition subscribe_sample : Packet :=
  Packet0 <| pk_FixedHeader := FixedHeader0 <| fh_Type := Subscribe |> <| fh_Qos := 1 |> |> <| pk_PacketID := 9 |>
    <| pk_Filters := [Subscription0 <| sub_Filter := !"a/#" |> <| sub_Qos := 1 |>] |>.

Definition session_sample : Server := (open_session reliable_env !"tcp" !"peer" connect_sample (New reliable_env)).2.
Definition address_sample : nat := default 0%nat (sv_Clients session_sample !! (!"c1")).

Lemma session_sample_reachable : rtc (broker_step (ev_Options reliable_env)) (New reliable_env) session_sample.
Proof.
  apply rtc_once. apply (broker_action (ev_Options reliable_env) reliable_env); [done|exact reliable_env_ok|]. apply act_connect.
  split; split; (discriminate || reflexivity).
Defined.

Lemma broker_safe_witness :
  returns ((receivePacket reliable_env address_sample subscribe_sample session_sample).1) /\
  server_ok reliable_env (receivePacket reliable_env address_sample subscribe_sample session_sample).2.
Proof.
  apply (broker_safe reliable_env reliable_env session_sample (receivePacket reliable_env address_sample subscribe_sample)).
  - exact reliable_env_ok.
  - exact session_sample_reachable.
  - reflexivity.
  - exact reliable_env_ok.
  - apply act_receive; [vm_compute; eauto|split; [discriminate|reflexivity]].
Defined.
