(* ===== verification/Connection.v ===== *)
(** * A whole connection

    From its first byte to its end, a connection that sends any bytes is
    handled to the end: reading stops, and the state of the broker keeps its
    invariant. *)
From S2P Require Import Prelude Codes Effects Codec FixedHeader Properties PropertiesFacts Packets Wire WireFacts Typing Topics TopicsFacts Aliases Inflight InflightFacts System Clients ClientIO ClientIOFacts ClientFacts Publish PublishFacts Delivery Server Sessions Frames ServerFacts Broker.

(** ** Specifications up to a panic

    [wpu P m s Q]: [m] returns as [wp m s Q] says, or it panics, and then [P]
    explains why. *)
Definition wpu {S A} (P : Prop) (m : GoM S A) (s : S) (Q : A + error -> S -> Prop) : Prop :=
  ((m s).1 = Panic /\ P) \/ wp m s Q.

Section Wpu.
Context {S : Type} (P : Prop).

Lemma wpu_wp {A} (m : GoM S A) s Q : wp m s Q -> wpu P m s Q.
Proof. by right. Qed.

Lemma wpu_mono {A} (m : GoM S A) s (Q R : A + error -> S -> Prop) :
  wpu P m s Q -> (forall r s', Q r s' -> R r s') -> wpu P m s R.
Proof. intros [H|H] HQ; [by left|right]. by eapply wp_mono. Qed.

Lemma wpu_bind {A B} (m : GoM S A) (k : A -> GoM S B) s (Q : B + error -> S -> Prop) :
  wpu P m s (fun r s' => match r with inl a => wpu P (k a) s' Q | inr err => Q (inr err) s' end) ->
  wpu P (m ≫= k) s Q.
Proof.
  intros [[H HP]|H].
  - left. split; [|done]. unfold mbind, GoM_bind. by destruct (m s) as [[a|err| |] s'].
  - unfold wp in H. unfold wpu, wp, mbind, GoM_bind. destruct (m s) as [[a|err| |] s']; first [exact H | by right].
Qed.

Lemma wpu_finally {A} cleanup (m : GoM S A) s (Q : A + error -> S -> Prop) :
  wpu P m s (fun r s' => Q r (cleanup s')) -> wpu P (finally cleanup m) s Q.
Proof.
  unfold wpu, wp, finally. destruct (m s) as [[a|err| |] s']; cbn; intros [[H HP]|H]; auto; done.
Qed.

Lemma wpu_attempt {A} (m : GoM S A) s (Q : (A + error) + error -> S -> Prop) :
  wpu P m s (fun r s' => Q (inl r) s') -> wpu P (attempt m) s Q.
Proof.
  unfold wpu, wp, attempt. destruct (m s) as [[a|err| |] s']; cbn; intros [[H HP]|H]; auto; done.
Qed.

Lemma wpu_in_context {A} what (m : GoM S A) s (Q : A + error -> S -> Prop) :
  wpu P m s (fun r s' => Q (match r with inl a => inl a | inr err => inr (EContext what err) end) s') ->
  wpu P (in_context what m) s Q.
Proof.
  unfold wpu, wp, in_context. destruct (m s) as [[a|err| |] s']; cbn; intros [[H HP]|H]; auto; done.
Qed.
End Wpu.

Lemma wpu_zoom {S T A} P part update (m : GoM T A) (s : S) t Q :
  part s = Some t -> wpu P m t (fun r t' => Q r (update t' s)) -> wpu P (zoom part update m) s Q.
Proof.
  unfold wpu, wp, zoom. intros -> [[H HP]|H]; [left|right]; by destruct (m t) as [[a|e| |] t'].
Qed.

(** ** Reading from the stream *)

Lemma read_fixed_header_returns m s : returns (read_fixed_header m s).
Proof.
  unfold read_fixed_header, returns. destruct s as [|b s]; [eauto|].
  destruct (FixedHeader_Decode_type FixedHeader0 b) as [(fh & -> & _)|[err ->]]; mred; [|eauto].
  destruct (DecodeLength_returns s) as [[[[n bu] s2] ->]|[err ->]]; mred; [|eauto]. destruct (_ && _); eauto.
Qed.

(** A header takes at least two bytes. *)
Lemma read_fixed_header_suffix m s fh n rest :
  read_fixed_header m s = Ok (fh, n, rest) -> exists k, rest = drop k s /\ (2 <= k)%nat /\ (k <= length s)%nat.
Proof.
  unfold read_fixed_header. destruct s as [|b s]; [done|].
  destruct (FixedHeader_Decode_type FixedHeader0 b) as [(fh' & -> & _)|[err ->]]; mred; [|done].
  destruct (DecodeLength s) as [[[v bu] s2]| | |] eqn:E; mred; try done.
  destruct (_ && _); [done|]. intros [= _ _ <-].
  apply DecodeLength_loop_suffix in E as (used & -> & Hu). exists (S (length used)).
  rewrite length_cons, length_app. split_and!; [|lia..]. cbn [drop]. by rewrite drop_app_length.
Qed.

(** What the hooks of a connection may do to a packet that was read: Go's
    types hold of what they return. *)
Definition reads_typed (e : Env) : Prop :=
  forall cl pk pk', Packet_typed pk -> hk_OnPacketRead (ev_Hooks e) cl pk = (pk', None) -> Packet_typed pk'.

(** The deferred calls of a connection keep the invariant. *)
Lemma stop_client_ok e a s : live e [a] s -> server_ok e (stop_client e a s).
Proof.
  intros Hs. assert (Hk : keeps (live e [a]) (on_client a (stop e None))) by (apply keeps_on_client; [by left|apply keeps_stop]).
  specialize (Hk s Hs). destruct (proj2 Hs a ltac:(by left)) as [c Hca].
  unfold wp, on_client, zoom, client_view in Hk. rewrite Hca in Hk. cbn in Hk.
  assert (Ealt : alter (Client_Stop (ev_now e) None) a (sv_store s) = <[a := Client_Stop (ev_now e) None c]> (sv_store s)).
  { apply map_eq. intros x. destruct (decide (x = a)) as [->|Hx].
    - rewrite lookup_alter_eq, lookup_insert_eq. by rewrite Hca.
    - by rewrite lookup_alter_ne, lookup_insert_ne by done. }
  apply (f_equal (fun m => mkServer m (sv_Clients s) (sv_Topics s) (sv_Info s) (sv_willDelayed s)
    (sv_inlineClient s) (sv_events s))) in Ealt.
  refine (eq_ind_r (server_ok e) _ Ealt). exact (proj1 Hk).
Qed.

Lemma count_connected_live e L z s : live e L s -> live e L (count_connected z s).
Proof. by intros [[? ? ? ?] ?]. Qed.

Section Reading.
Context (e : Env) (He : env_ok e) (Hh : reads_typed e) {RO : RangeOrder}.
Let maxsize := ca_MaximumPacketSize (ev_Capabilities e).

Definition stream_of (cl : Client) : bytes := net_stream (cl_Net cl).
Definition version_of (cl : Client) : Z := cp_ProtocolVersion (cl_Properties cl).
Definition with_stream (cl : Client) (s : bytes) : Client := cl <| cl_Net ::= fun n => n <| net_stream := s |> |>.

Lemma ReadFixedHeader_spec cv :
  wp (ReadFixedHeader e) cv (fun r cv' =>
    match r with
    | inl fh => exists n st, net_Conn (cl_Net (cv_client cv)) = true /\
        read_fixed_header maxsize (stream_of (cv_client cv)) = Ok (fh, n, st) /\
        cv_client cv' = with_stream (cv_client cv) st
    | inr _ => cv' = cv
    end).
Proof.
  unfold ReadFixedHeader. apply wp_bind. unfold wp at 1, get_client.
  destruct (net_Conn (cl_Net (cv_client cv))) eqn:Ec; cbn [negb]; [|by apply wp_throw].
  fold maxsize. fold (stream_of (cv_client cv)). apply wp_bind. unfold wp at 1, call.
  destruct (read_fixed_header_returns maxsize (stream_of (cv_client cv))) as [[[[fh n] st] Er]|[err Er]]; rewrite Er.
  - exists n, st. done.
  - done.
Qed.

Lemma ReadPacket_spec P cv fh :
  net_Conn (cl_Net (cv_client cv)) = true -> is_u8 (version_of (cv_client cv)) ->
  bytes_ok (stream_of (cv_client cv)) -> FixedHeader_typed fh ->
  (read_body (version_of (cv_client cv)) fh (stream_of (cv_client cv)) = Panic -> P) ->
  wpu P (ReadPacket e fh) cv (fun r cv' => exists k,
    cv_client cv' = with_stream (cv_client cv) (drop k (stream_of (cv_client cv))) /\
    match r with inl pk => Packet_typed pk | inr _ => True end).
Proof.
  intros Hc Hv Hb Hfh HP. unfold ReadPacket. apply wpu_bind, wpu_wp, wp_modify.
  match goal with |- wpu _ _ ?x _ => set (cv1 := x) end.
  change (cv_client cv) with (cv_client cv1) in *. clearbody cv1. clear cv.
  apply wpu_bind, wpu_wp. unfold wp, get_client. rewrite Hc. cbn [negb].
  fold (version_of (cv_client cv1)). fold (stream_of (cv_client cv1)).
  unfold read_body in HP. apply wpu_bind. unfold call.
  destruct (read_full (fh_Remaining fh) (stream_of (cv_client cv1))) as [[px st]|err| |] eqn:Ef; mred.
  2: { right. exists 0%nat. by rewrite drop_0. }
  2-3: unfold read_full in Ef; by destruct (_ <? _) in Ef.
  unfold read_full in Ef. destruct (_ <? _) in Ef; [done|]. injection Ef as <- <-.
  right. unfold wp. set (px := take _ _) in *. cbn [mbind result_bind] in HP.
  assert (Hpx : bytes_ok px) by by apply Forall_take.
  set (pk := Packet0 <| pk_ProtocolVersion := _ |> <| pk_FixedHeader := fh |>) in *.
  assert (Hpk : Packet_typed pk) by (by apply Packet0_typed).
  apply wpu_bind, wpu_wp, wp_modify. apply wpu_bind, wpu_wp, wp_modify. apply wpu_bind.
  destruct (decode_packet_returns pk px) as [[[pk1 E]|[err E]]|(E & _)].
  - rewrite E. right. unfold wp, call.
    assert (H1 : Packet_typed pk1) by exact (decode_packet_typed px Hpx pk Hpk pk1 E).
    apply wpu_bind, wpu_wp, wp_when; intros _; [apply wp_modify|];
      (apply wpu_bind, wpu_wp; unfold wp, get_client;
       match goal with |- context [hk_OnPacketRead (ev_Hooks e) ?c pk1] =>
         destruct (hk_OnPacketRead (ev_Hooks e) c pk1) as [pk2 [err|]] eqn:Eh end;
       [apply wpu_wp, wp_throw; by eexists
       |apply wpu_wp, wp_ret; eexists; split; [reflexivity|]; exact (Hh _ _ _ H1 Eh)]).
  - rewrite E. right. unfold wp, call. by eexists.
  - rewrite E in HP |- *. left. split; [done|]. by apply HP.
Qed.

(** ** The read loop *)

Lemma wpu_on_client {A} (P : Prop) (R : A + error -> ClientView -> Prop) a (m : GoM ClientView A) s cl Q :
  sv_store s !! a = Some cl -> wpu P m (mkClientView cl (sv_Info s) (sv_events s)) R ->
  (forall r cv' s', R r cv' -> only_client a s (cv_client cv') s' -> Q r s') ->
  wpu P (on_client a m) s Q.
Proof.
  intros Ha Hm HQ. unfold on_client.
  apply wpu_zoom with (t := mkClientView cl (sv_Info s) (sv_events s)); [unfold client_view; by rewrite Ha|].
  eapply wpu_mono; [exact Hm|]. intros r cv' HP. apply (HQ r cv'); [done|]. by exists (cv_Info cv'), (cv_events cv').
Qed.

Context (whole : bytes) (Hwhole : bytes_ok whole) (a : nat).

(** The connection at [a] has read [n] bytes of [whole]. *)
Definition reading (n : nat) (s : Server) : Prop :=
  live e [a] s /\
  exists cl, sv_store s !! a = Some cl /\ stream_of cl = drop n whole /\ is_u8 (version_of cl).

(** The one reason for which handling a connection can panic: some packet in
    its bytes makes the decoder panic. *)
Definition panics_on (stream : bytes) : Prop := exists n v, read_packet maxsize v (drop n stream) = Panic.

Lemma live_only s cl' s' : live e [a] s -> client_ok e cl' -> only_client a s cl' s' -> live e [a] s'.
Proof.
  intros Hs Hcl (i & ev & ->). apply (live_set_view e [a] a s (mkClientView cl' i ev)); [done| |done].
  apply (proj2 Hs). by left.
Qed.

Lemma only_client_lookup s cl' s' : only_client a s cl' s' -> sv_store s' !! a = Some cl'.
Proof. intros (i & ev & ->). apply lookup_insert_eq. Qed.

Lemma with_stream_ok cl st : client_ok e cl -> client_ok e (with_stream cl st).
Proof. by intros [? ? ? ?]. Qed.

Lemma refreshDeadline_same cl k :
  client_ok e cl ->
  client_ok e (refreshDeadline (ev_now e) cl k) /\ identity (refreshDeadline (ev_now e) cl k) = identity cl.
Proof. intros [? ? ? ?]. unfold refreshDeadline. destruct (net_Conn _); by split. Qed.

Lemma reading_frame {A} n (m : GoM Server A) :
  keeps (live e [a]) m -> frames identities m -> keeps (reading n) m.
Proof.
  intros Hm Hf s [Hs (cl & Ha & Hst & Hv)].
  eapply wp_mono; [apply (wp_frame identities); [exact Hf|by apply Hm]|].
  intros r s' [Hs' Hi]. split; [done|].
  apply (f_equal (lookup a)) in Hi. unfold identities in Hi. rewrite !lookup_fmap, Ha in Hi. cbn in Hi.
  destruct (sv_store s' !! a) as [cl'|] eqn:E; [|done]. exists cl'. split; [done|].
  injection Hi as _ Hst' Hv' _. unfold stream_of, version_of. by rewrite Hst', Hv'.
Qed.

Lemma reading_receive n pk :
  is_u16 (pk_PacketID pk) -> keeps (reading n) (receivePacket e a pk).
Proof.
  intros Hid. apply reading_frame; [|apply frames_receivePacket]. apply (keeps_receivePacket e He [a]); [by left|done].
Qed.

Lemma Read_round_spec n s :
  reading n s ->
  wpu (panics_on whole) (Read_round e a) s (fun r s' =>
    live e [a] s' /\ (r = inl true -> exists n', reading n' s' /\ (n < n' <= length whole)%nat)).
Proof.
  intros [Hs (cl & Ha & Hst & Hv)]. pose proof (so_clients _ _ (proj1 Hs) a cl Ha) as Hcl.
  unfold Read_round. apply wpu_bind, wpu_wp. unfold wp. rewrite (look a s cl Ha).
  destruct (Client_Closed cl); [apply wpu_wp, wp_ret; done|].
  destruct (refreshDeadline_same cl (st_Keepalive (cl_State cl)) Hcl) as [Hcl0 Hid0].
  set (cl0 := refreshDeadline _ _ _) in *. injection Hid0 as _ Hst0 Hv0 Hc0.
  fold (stream_of cl0) (stream_of cl) in Hst0. fold (version_of cl0) (version_of cl) in Hv0.
  apply wpu_bind. apply (wpu_on_client _ (fun r cv => r = inl tt /\ cv_client cv = cl0) a _ s cl); [done|by right|].
  intros r cv s0 [-> E0] Ho. rewrite E0 in Ho. pose proof (live_only _ _ _ Hs Hcl0 Ho) as Hs0.
  apply only_client_lookup in Ho as Ha0.
  apply wpu_bind. eapply wpu_on_client; [exact Ha0|apply wpu_wp, ReadFixedHeader_spec|].
  intros [fh|err] cv1 s1.
  2: { intros -> Ho1. split; [|done]. by eapply live_only. }
  intros (m & st & Hconn & Eh & E1) Ho1. cbn [cv_client] in *. rewrite E1 in Ho1.
  pose proof (live_only _ _ _ Hs0 (with_stream_ok cl0 st Hcl0) Ho1) as Hs1. apply only_client_lookup in Ho1 as Ha1.
  pose proof Eh as Eh'. apply read_fixed_header_suffix in Eh as (k & -> & Hk2 & Hkl).
  rewrite Hst0, Hst, drop_drop in *. rewrite length_drop in Hkl.
  apply wpu_bind. eapply wpu_on_client; [exact Ha1| |].
  - apply (ReadPacket_spec (panics_on whole)); [exact Hconn|change (is_u8 (version_of cl0)); by rewrite Hv0| | |].
    + by apply bytes_ok_drop.
    + eapply header_read_typed; [|exact Eh']. by apply bytes_ok_drop.
    + intros Hp. exists n, (version_of cl0). unfold read_packet. rewrite Eh'. mred. exact Hp.
  - intros r2 cv2 s2 (j & E2 & Hr) Ho2. rewrite E2 in Ho2.
    pose proof (live_only _ _ _ Hs1 (with_stream_ok _ _ (with_stream_ok _ _ Hcl0)) Ho2) as Hs2.
    apply only_client_lookup in Ho2 as Ha2. destruct r2 as [pk|err]; [|done].
    assert (Hrd : reading (n + k + j) s2).
    { split; [exact Hs2|]. eexists. split; [exact Ha2|]. split; [|change (is_u8 (version_of cl0)); by rewrite Hv0].
      change (drop j (drop (n + k) whole) = drop (n + k + j) whole). apply drop_drop. }
    apply wpu_bind, wpu_wp. eapply wp_mono; [apply reading_receive; [apply Hr|exact Hrd]|].
    intros [[]|err] s3 H3; [|split; [apply H3|done]]. apply wpu_wp, wp_ret. split; [apply H3|]. intros _.
    destruct H3 as [H3 (cl3 & Ha3 & Hst3 & Hv3)]. exists ((n + k + j) `min` length whole)%nat. split; [|lia].
    split; [done|]. exists cl3. split; [done|]. split; [|done]. rewrite Hst3.
    destruct (decide (n + k + j <= length whole)%nat); [by rewrite Nat.min_l|].
    rewrite Nat.min_r by lia. rewrite !drop_ge by lia. done.
Qed.

Lemma Read_loop_spec fuel n s :
  reading n s -> (n <= length whole)%nat -> (length whole - n < fuel)%nat ->
  wpu (panics_on whole) (Read_loop e fuel a) s (fun _ => live e [a]).
Proof.
  revert n s. induction fuel as [|fuel IH]; intros n s Hs Hn Hf; [lia|]. cbn [Read_loop].
  apply wpu_bind. eapply wpu_mono; [by apply Read_round_spec|].
  intros [[]|err] s' [Hl Hr]; [|by apply wpu_wp, wp_ret|done].
  destruct (Hr eq_refl) as (n' & Hs' & Hn'). apply (IH n'); [done|lia..].
Qed.

(** ** From the first byte to the end *)

Lemma connect_ok_typed pk : Packet_typed pk -> connect_ok pk.
Proof. intros H. destruct (Properties_typed_wf _ (ty_Properties pk H)). by split. Qed.

Lemma readConnectionPacket_spec cv n :
  net_Conn (cl_Net (cv_client cv)) = true -> is_u8 (version_of (cv_client cv)) ->
  stream_of (cv_client cv) = drop n whole ->
  wpu (panics_on whole) (readConnectionPacket e) cv (fun r cv' => exists k,
    cv_client cv' = with_stream (cv_client cv) (drop k whole) /\
    match r with inl pk => Packet_typed pk | inr _ => True end).
Proof.
  intros Hc Hv Hst. unfold readConnectionPacket. apply wpu_bind, wpu_wp. eapply wp_mono; [apply ReadFixedHeader_spec|].
  intros [fh|err] cv1.
  2: { intros ->. exists n. split; [|done]. rewrite <- Hst. done. }
  intros (m & st & _ & Eh & E1). pose proof Eh as Eh'. apply read_fixed_header_suffix in Eh as (k & -> & _ & _).
  rewrite Hst, drop_drop in *. destruct (negb _); [apply wpu_wp, wp_throw; eauto|].
  eapply wpu_mono; [apply (ReadPacket_spec (panics_on whole))|].
  - by rewrite E1.
  - by rewrite E1.
  - rewrite E1. by apply bytes_ok_drop.
  - eapply header_read_typed; [|exact Eh']. by apply bytes_ok_drop.
  - rewrite E1. intros Hp. exists n, (version_of (cv_client cv)). unfold read_packet. rewrite Eh'. mred. exact Hp.
  - intros r cv2 (j & E2 & Hr). rewrite E1 in E2. exists (n + k + j)%nat. split; [|done]. rewrite E2.
    change (with_stream (cv_client cv) (drop j (drop (n + k) whole)) = with_stream (cv_client cv) (drop (n + k + j) whole)).
    by rewrite drop_drop.
Qed.

Lemma reading_bound n s : reading n s -> exists n', reading n' s /\ (n' <= length whole)%nat.
Proof.
  intros [Hs (cl & Ha & Hst & Hv)]. destruct (decide (n <= length whole)%nat); [exists n; split; [|done]; split; eauto|].
  exists (length whole). split; [|done]. split; [done|]. exists cl. split_and!; try done.
  rewrite Hst, !drop_ge by lia. done.
Qed.

(** What is written to the client while it connects changes none of this. *)
Lemma reading_on_client {A} n (m : GoM ClientView A) :
  keeps (view_ok e) m -> frames view_identity m -> keeps (reading n) (on_client a m).
Proof.
  intros Hm Hf. apply reading_frame; [|by apply frames_on_client]. apply keeps_on_client; [by left|done].
Qed.

Lemma accept_connection_spec listener n s cl :
  live e [a] s -> sv_store s !! a = Some cl -> net_Conn (cl_Net cl) = true -> is_u8 (version_of cl) ->
  stream_of cl = drop n whole ->
  wpu (panics_on whole) (accept_connection e a listener) s (fun r s' =>
    match r with inl _ => exists n', reading n' s' | inr _ => live e [a] s' end).
Proof.
  intros Hs Ha Hc Hv Hst. pose proof (so_clients _ _ (proj1 Hs) a cl Ha) as Hcl.
  unfold accept_connection. apply wpu_bind, wpu_in_context.
  eapply wpu_on_client; [exact Ha|by apply (readConnectionPacket_spec _ n)|].
  intros r cv1 s1 (k & E1 & Hr) Ho1. cbn [cv_client] in E1. rewrite E1 in Ho1.
  pose proof (live_only _ _ _ Hs (with_stream_ok cl _ Hcl) Ho1) as Hs1. apply only_client_lookup in Ho1 as Ha1.
  destruct r as [pk|err]; [|done].
  set (cl1 := with_stream cl (drop k whole)) in *. pose proof (with_stream_ok cl (drop k whole) Hcl) as Hcl1. fold cl1 in Hcl1.
  set (cl2 := ParseConnect (ev_Options e) (ev_xid e) cl1 listener pk).
  assert (Hcl2 : client_ok e cl2) by (apply (ParseConnect_ok e He); [done|by apply connect_ok_typed]).
  apply wpu_bind. apply (wpu_on_client _ (fun r cv => r = inl tt /\ cv_client cv = cl2) a _ s1 cl1); [done|by right|].
  intros r2 cv2 s2 [-> E2] Ho2. rewrite E2 in Ho2.
  pose proof (live_only _ _ _ Hs1 Hcl2 Ho2) as Hs2. apply only_client_lookup in Ho2 as Ha2.
  assert (Hr2 : reading k s2).
  { split; [done|]. exists cl2. split; [done|]. split; [done|]. change (is_u8 (pk_ProtocolVersion pk)). apply Hr. }
  apply wpu_wp. eapply wp_mono; [|].
  - apply (wp_bind _ _ _ (fun r s' => match r with inl _ => reading k s' | inr _ => reading k s' end)).
    unfold wp at 1. rewrite (look a s2 cl2 Ha2). apply wp_bind, wp_get_state.
    assert (HSend : forall c, keeps (reading k) (on_client a (SendConnack e c false None))).
    { intros c. apply reading_on_client; [by apply keeps_SendConnack|apply frames_core, frames_SendConnack]. }
    destruct (_ <=? _).
    { apply (keeps_bind _ _ _ (keeps_ignore _ _ (HSend _)) (fun _ => keeps_throw _ _) s2 Hr2). }
    destruct (negb (bool_decide _)).
    { apply (keeps_bind _ _ _ (keeps_in_context _ _ _ (HSend _)) (fun _ => keeps_throw _ _) s2 Hr2). }
    destruct (hk_OnConnect _ _ _) as [err|]; [by apply wp_throw|].
    revert Hr2. generalize s2. change (keeps (reading k) (
      on_client a (set_client (fun cl => refreshDeadline (ev_now e) cl (st_Keepalive (cl_State cl))));;
      cl ← on_client a get_client;
      if negb (hk_OnConnectAuthenticate (ev_Hooks e) cl pk) then
        in_context !"invalid connection send ack" (on_client a (SendConnack e ErrBadUsernameOrPassword false None));;
        throw (ECode ErrBadUsernameOrPassword)
      else mret (pk, validateConnect e cl2 pk))).
    apply keeps_bind; [|intros _; apply keeps_bind; [apply reading_on_client; [|done]; by intros cv Hcv|intros cl3]].
    + apply reading_on_client.
      * apply keeps_modify. intros cv Hcv. exact (proj1 (refreshDeadline_same _ _ Hcv)).
      * apply frames_set_identity. intros c. unfold refreshDeadline. cbv beta. by destruct (net_Conn (cl_Net c)) eqn:Ec.
    + destruct (negb _); [|apply keeps_ret]. apply keeps_bind; [apply keeps_in_context, HSend|intros _; apply keeps_throw].
  - intros [x|err] s' H; [by exists k|apply H].
Qed.

Lemma attachClient_spec listener n s cl :
  live e [a] s -> sv_store s !! a = Some cl -> net_Conn (cl_Net cl) = true -> is_u8 (version_of cl) ->
  stream_of cl = drop n whole ->
  wpu (panics_on whole) (attachClient e a listener) s (fun _ s' => server_ok e s').
Proof.
  intros Hs Ha Hc Hv Hst. unfold attachClient. apply wpu_finally.
  eapply (wpu_mono _ _ _ (fun _ s' => live e [a] s')); [|by intros r s'; apply stop_client_ok].
  apply wpu_bind. eapply wpu_mono; [by eapply accept_connection_spec|].
  intros [[pk code]|err] s1; [|done]. intros [n1 H1].
  apply wpu_bind, wpu_wp, wp_modify. apply wpu_finally.
  eapply (wpu_mono _ _ _ (fun _ s' => live e [a] s')); [|intros r s'; apply count_connected_live].
  assert (H2 : reading n1 (count_connected 1 s1)) by (destruct H1 as [Hl H1]; split; [by apply count_connected_live|exact H1]).
  apply wpu_bind, wpu_wp. eapply wp_mono.
  { apply (reading_frame n1); [apply (keeps_begin_session e He); by left|apply frames_begin_session|exact H2]. }
  intros [[]|err] s2 H3; [|apply H3]. apply wpu_bind, wpu_attempt.
  apply reading_bound in H3 as (n2 & H3 & Hn2). pose proof H3 as (Hl3 & cl3 & Ha3 & Hst3 & _).
  eapply wpu_mono.
  - unfold Read. apply wpu_bind, wpu_wp. unfold wp. rewrite (look a s2 cl3 Ha3).
    fold (stream_of cl3). rewrite Hst3. apply (Read_loop_spec _ n2); [done|done|]. rewrite length_drop. lia.
  - intros r s3 H4. apply wpu_wp, (keeps_end_session e He [a]); [by left|exact H4].
Qed.
End Reading.

Lemma NewClient_reading e listener remote stream :
  let cl := (NewClient e (Some remote) listener [] false) <| cl_Net ::= fun n => n <| net_stream := stream |> |> in
  net_Conn (cl_Net cl) = true /\ is_u8 (version_of cl) /\ stream_of cl = stream.
Proof. by split_and!. Qed.

(** C3: A connection is handled to its end whatever its peer sends. For every
    sequence of bytes, and whatever the network does to the answers, the call
    of [EstablishConnection] (connect, session takeover, the read loop with
    every handler, the will and the end of the session) terminates and returns,
    with or without an error, in a state with the broker's invariant; the one
    exception is a sequence that contains a packet the decoder panics on. *)
Theorem connection_terminates {RO : RangeOrder} e listener remote stream s :
  env_ok e -> reads_typed e -> server_ok e s -> bytes_ok stream ->
  let r := EstablishConnection e listener remote stream s in
  (returns r.1 /\ server_ok e r.2) \/ (r.1 = Panic /\ panics_on e stream).
Proof.
  intros He Hh Hs Hb r.
  assert (H : wpu (panics_on e stream) (EstablishConnection e listener remote stream) s (fun _ => server_ok e)).
  { unfold EstablishConnection. apply wpu_bind, wpu_wp.
    destruct (NewClient_reading e listener remote stream) as (Hc & Hv & Hst). set (cl := _ <| cl_Net ::= _ |>) in *.
    assert (Hcl : client_ok e cl) by (destruct (NewClient_ok e He (Some remote) listener [] false); by constructor).
    assert (Hl : wp (allocate cl) s (fun r s' => forall a, r = inl a -> live e [a] s')).
    { apply (allocate_ok e [] cl s _ Hcl); [split; [done|by intros ? ?%elem_of_nil]|]. by intros a s' Hs' ? [= <-]. }
    unfold wp, allocate in Hl |- *. specialize (Hl _ eq_refl).
    apply (attachClient_spec e He Hh stream Hb _ listener 0 _ cl Hl); [apply lookup_insert_eq|done..]. }
  subst r. destruct H as [[H HP]|H]; [by right|left]. exact (wp_returns _ _ _ H).
Qed.

Lemma transparent_reads_typed : reads_typed reliable_env.
Proof. intros cl pk pk' H [= <-]. exact H. Qed.

(** A client that connects, publishes and disconnects. *)
Definition session_bytes : bytes :=
  [16; 13; 0; 4; 77; 81; 84; 84; 4; 2; 0; 60; 0; 1; 99;
   48; 4; 0; 1; 116; 120; 224; 0].

Lemma connection_terminates_witness :
  (EstablishConnection reliable_env !"tcp" !"peer" session_bytes (New reliable_env)).1 = Ok tt /\
  let r := EstablishConnection reliable_env !"tcp" !"peer" session_bytes (New reliable_env) in
  (returns r.1 /\ server_ok reliable_env r.2) \/ (r.1 = Panic /\ panics_on reliable_env session_bytes).
Proof.
  split; [vm_compute; reflexivity|].
  apply (connection_terminates reliable_env !"tcp" !"peer" session_bytes (New reliable_env)).
  - exact reliable_env_ok.
  - exact transparent_reads_typed.
  - exact (New_ok reliable_env reliable_env_ok).
  - repeat (constructor; [unfold is_u8; lia|]). constructor.
Defined.
