(* ===== verification/ServerDelivery.v ===== *)
(** * Delivery of a message to its subscribers

    What [publishToSubscribers] does to every client of the broker. *)
From S2P Require Import Prelude Codes Effects Codec FixedHeader Properties Packets Wire Topics TopicsFacts TopicsMatch Aliases Inflight InflightFacts System Clients ClientIO ClientIOFacts ClientFacts Publish PublishFacts Delivery Server Sessions ServerFacts Broker.

(** No client object is known under two ids. *)
Definition distinct_clients (s : Server) : Prop :=
  forall id id' a, sv_Clients s !! id = Some a -> sv_Clients s !! id' = Some a -> id = id'.

Section Fanout.
Context (e : Env) (He : env_ok e) {RO : RangeOrder}.

(** One client gets the message; the rest of the server but the counters and the trace is unchanged. *)
Lemma on_client_publish a cl sub pk s :
  sv_store s !! a = Some cl -> client_ok e cl ->
  wp (ignore (on_client a (publishToClient e sub pk))) s (fun r s' =>
    r = inl tt /\ exists cl' i ev o, client_ok e cl' /\ delivery e sub pk cl o cl' /\
      s' = s <| sv_store ::= <[a := cl']> |> <| sv_Info := i |> <| sv_events := ev |>).
Proof.
  intros Ha Hcl. apply wp_ignore. unfold on_client.
  apply wp_zoom with (t := mkClientView cl (sv_Info s) (sv_events s)); [unfold client_view; by rewrite Ha|].
  set (cv := mkClientView cl _ _). assert (Hcv : view_ok e cv) by exact Hcl.
  eapply wp_mono; [apply wp_and; [exact (keeps_publishToClient e He sub pk cv Hcv)|exact (publishToClient_outcome e He sub pk cv Hcv)]|].
  intros r cv' [Hok Hd]. split; [done|]. by exists (cv_client cv'), (cv_Info cv'), (cv_events cv'), r.
Qed.

(** [cl] became [cl'] by the messages of [l] that are for address [a]. *)
Definition served (s : Server) (l : list (gostr * Subscription)) (pk : Packet) (a : nat) (cl cl' : Client) : Prop :=
  (exists id sub o, (id, sub) ∈ l /\ sv_Clients s !! id = Some a /\ delivery e sub pk cl o cl') \/
  ((forall id sub, (id, sub) ∈ l -> sv_Clients s !! id <> Some a) /\ cl' = cl).

(** What the fan-out leaves alone. *)
Definition same_index (s s' : Server) : Prop :=
  sv_Clients s' = sv_Clients s /\ sv_Topics s' = sv_Topics s /\ sv_willDelayed s' = sv_willDelayed s /\
  sv_inlineClient s' = sv_inlineClient s.

Definition fanout_body (pk : Packet) (kv : gostr * Subscription) : GoM Server unit :=
  s ← get_state;
  match Clients_Get (sv_Clients s) kv.1 with
  | Some cl => ignore (on_client cl (publishToClient e kv.2 pk))
  | None => mret tt
  end.

Lemma served_nil s pk a cl : served s [] pk a cl cl.
Proof. right. split; [|done]. intros id sub H. by apply elem_of_nil in H. Qed.

Lemma served_skip s id sub l pk a cl cl' :
  sv_Clients s !! id <> Some a -> served s l pk a cl cl' -> served s ((id, sub) :: l) pk a cl cl'.
Proof.
  intros Hid [(id' & sub' & o & Hin & H1 & H2)|[H ->]].
  - left. exists id', sub', o. split; [by right|done].
  - right. split; [|done]. intros id' sub' [[= -> ->]|Hin]%elem_of_cons; [done|]. by eapply H.
Qed.

Lemma fanout_loop l pk s :
  server_ok e s -> distinct_clients s -> NoDup l.*1 ->
  wp (for_each l (fanout_body pk)) s (fun r s' =>
    r = inl tt /\ server_ok e s' /\ same_index s s' /\
    forall a cl, sv_store s !! a = Some cl -> exists cl', sv_store s' !! a = Some cl' /\ served s l pk a cl cl').
Proof.
  induction l as [|[id sub] l IH] in s |- *; intros Hs Hd Hnd; cbn [for_each].
  { apply wp_ret. split_and!; [done|done|done|]. intros a cl Ha. exists cl. split; [done|apply served_nil]. }
  apply NoDup_cons in Hnd as [Hni Hnd]. apply wp_bind. unfold fanout_body at 1. apply wp_bind, wp_get_state. cbn [fst snd].
  unfold Clients_Get. destruct (sv_Clients s !! id) as [a|] eqn:Eid.
  - destruct (so_known _ _ Hs id a Eid) as [cl Ha]. pose proof (so_clients _ _ Hs a cl Ha) as Hcl.
    eapply wp_mono; [by apply (on_client_publish a cl)|].
    intros r s1 (-> & cl' & i & ev & o & Hcl' & Hdel & ->). set (s1 := s <| sv_store ::= _ |> <| sv_Info := _ |> <| sv_events := _ |>).
    assert (Hs1 : server_ok e s1).
    { apply (live_set_view e [] a s (mkClientView cl' i ev)); [split; [done|by intros ? ?%elem_of_nil]|eauto|done]. }
    assert (Hst : sv_store s1 = <[a := cl']> (sv_store s)) by done.
    eapply wp_mono; [apply IH; [done|done|done]|]. intros r s2 (-> & Hs2 & Hsame & H2). split_and!; [done|done|done|].
    intros x c Hx. destruct (decide (x = a)) as [->|Hne].
    + rewrite Ha in Hx. injection Hx as <-.
      destruct (H2 a cl') as (c' & Hc' & Hserved); [rewrite Hst; apply lookup_insert_eq|].
      exists c'. split; [done|]. left. exists id, sub, o. split; [by left|]. split; [done|].
      destruct Hserved as [(id' & sub' & o' & Hin & H3 & _)|[_ ->]]; [|done].
      exfalso. apply Hni. rewrite (Hd id id' a Eid H3). apply list_elem_of_fmap. by exists (id', sub').
    + destruct (H2 x c) as (c' & Hc' & Hserved); [rewrite Hst, lookup_insert_ne; done|].
      exists c'. split; [done|]. apply served_skip; [congruence|done].
  - apply wp_ret. eapply wp_mono; [apply IH; done|]. intros r s2 (-> & Hs2 & Hsame & H2). split_and!; [done|done|done|].
    intros x c Hx. destruct (H2 x c Hx) as (c' & Hc' & Hserved). exists c'. split; [done|].
    apply served_skip; [congruence|done].
Qed.

(** The handlers of the inline subscriptions only leave events. *)
Lemma inline_loop (l : list (Z * InlineSubscription)) pk s :
  for_each l (fun kv => event (InlineHandler (is_Handler kv.2) (is_Subscription kv.2) pk)) s =
    (Ok tt, s <| sv_events ::= fun ev => ev ++ ((fun kv => InlineHandler (is_Handler kv.2) (is_Subscription kv.2) pk) <$> l) |>).
Proof.
  induction l as [|kv l IH] in s |- *; cbn [for_each].
  - unfold mret, GoM_ret. f_equal. cbn. by rewrite app_nil_r.
  - unfold mbind, GoM_bind, event, modify. rewrite IH. f_equal. cbn. by rewrite <- (assoc_L (++)).
Qed.

Lemma fanout pk s :
  server_ok e s -> distinct_clients s -> pk_Ignore pk = false ->
  exists s', publishToSubscribers e pk s = (Ok tt, s') /\ server_ok e s' /\ same_index s s' /\
    forall a cl, sv_store s !! a = Some cl -> exists cl', sv_store s' !! a = Some cl' /\
      served s (range (ss_Subscriptions (select_subscribers e (sv_Topics s) (stamp e pk)))) (stamp e pk) a cl cl'.
Proof.
  intros Hs Hd Hig. unfold publishToSubscribers. rewrite Hig. cbv zeta.
  set (subs := select_subscribers e (sv_Topics s) (stamp e pk)).
  unfold mbind at 1, GoM_bind at 1, get_state at 1. cbv beta iota. fold subs.
  unfold mbind at 1, GoM_bind at 1. rewrite inline_loop.
  set (s1 := s <| sv_events ::= _ |>).
  assert (Hs1 : server_ok e s1) by (destruct Hs as [H1 H2 H3 H4]; by constructor).
  pose proof (fanout_loop (range (ss_Subscriptions subs)) (stamp e pk) s1 Hs1 Hd (range_NoDup _)) as H.
  unfold wp, fanout_body in H.
  destruct (for_each _ _ s1) as [[[]|err| |] s'] eqn:E; [|by destruct H as [? _]|done|done].
  destruct H as (_ & Hs' & Hsame & H). exists s'. split_and!; [done|done|apply Hsame..|exact H].
Qed.
End Fanout.

(** ** Which message is sent, and to whom *)

(** The server fills in the time a message came and when it expires, when
    these are not given yet, and changes nothing else of it. *)
Record stamped (e : Env) (pk pk' : Packet) : Prop := mkStamped {
  sp_rest : pk' = pk <| pk_Created := pk_Created pk' |> <| pk_Expiry := pk_Expiry pk' |>;
  sp_created : pk_Created pk' = if decide (pk_Created pk = 0) then ev_now e else pk_Created pk;
  sp_expiry : let most := ca_MaximumMessageExpiryInterval (ev_Capabilities e) in
    let asked := pr_MessageExpiryInterval (pk_Properties pk) in
    let given := if decide (most = 0 \/ asked = 0) then Z.max most asked else Z.min most asked in
    pk_Expiry pk' = if decide (pk_Expiry pk = 0 /\ 0 < given) then pk_Created pk' + given else pk_Expiry pk;
}.

(** The members of share groups that are selected for a message, out of what
    the hooks made of the subscribers: those the hooks selected, or one of each
    group when they selected none. *)
Definition selected `{RangeOrder} (asked : Subscribers) : Subscriptions :=
  if decide (ss_SharedSelected asked = ∅) then ss_SharedSelected (Subscribers_SelectShared asked)
  else ss_SharedSelected asked.

(** [id] is to be sent the message, under [sub]: as the index found it when no
    shared subscription matches; else as the hooks left it, and a selected
    share merged in. *)
Definition recipient `{RangeOrder} (e : Env) (x : TopicsIndex) (pk : Packet) (id : gostr) (sub : Subscription) : Prop :=
  let found := TopicsIndex_Subscribers x (pk_TopicName pk) in
  let asked := hk_OnSelectSubscribers (ev_Hooks e) found pk in
  if decide (ss_Shared found = ∅) then ss_Subscriptions found !! id = Some sub
  else match selected asked !! id with
       | Some share => sub = Subscription_Merge (default share (ss_Subscriptions asked !! id)) share
       | None => ss_Subscriptions asked !! id = Some sub
       end.

Lemma stamp_stamped e pk : stamped e pk (stamp e pk).
Proof.
  set (most := ca_MaximumMessageExpiryInterval (ev_Capabilities e)).
  set (asked := pr_MessageExpiryInterval (pk_Properties pk)).
  set (p1 := if pk_Created pk =? 0 then pk <| pk_Created := ev_now e |> else pk).
  assert (H1 : p1 = pk <| pk_Created := if decide (pk_Created pk = 0) then ev_now e else pk_Created pk |>).
  { unfold p1. destruct (Z.eqb_spec (pk_Created pk) 0), (decide (pk_Created pk = 0)); (done || by destruct pk). }
  set (given := if decide (most = 0 \/ asked = 0) then Z.max most asked else Z.min most asked).
  assert (Hm : message_expiry e p1 = given \/ message_expiry e p1 <= 0 /\ given <= 0).
  { replace (message_expiry e p1) with (minimum most asked) by (by rewrite H1). unfold minimum, given. clear.
    case_decide; destruct (Z.eqb_spec most 0), (Z.eqb_spec asked 0), (Z.ltb_spec asked most); cbn [negb andb]; lia. }
  assert (E : stamp e pk = p1 <| pk_Expiry := if decide (pk_Expiry pk = 0 /\ 0 < given) then pk_Created p1 + given else pk_Expiry pk |>).
  { unfold stamp. fold p1. replace (pk_Expiry p1) with (pk_Expiry pk) by (by rewrite H1).
    destruct (Z.eqb_spec (pk_Expiry pk) 0), (Z.ltb_spec 0 (message_expiry e p1)), (decide (pk_Expiry pk = 0 /\ 0 < given)); cbn [andb].
    all: try (exfalso; lia). 1: by replace (message_expiry e p1) with given by lia.
    all: rewrite H1; by destruct pk. }
  rewrite E, H1. by constructor.
Qed.

Lemma merge_selected_lookup `{RangeOrder} (subs : Subscribers) id :
  ss_Subscriptions (Subscribers_MergeSharedSelected subs) !! id =
    match ss_SharedSelected subs !! id with
    | Some share => Some (Subscription_Merge (default share (ss_Subscriptions subs !! id)) share)
    | None => ss_Subscriptions subs !! id
    end.
Proof.
  assert (E : forall l subs, ss_Subscriptions (fold_left
      (fun s kv => s <| ss_Subscriptions ::= fun m => merge_client m kv.1 kv.2 |>) l subs) =
    fold_left (fun m kv => merge_client m kv.1 kv.2) l (ss_Subscriptions subs)).
  { induction l as [|kv l IH]; intros x; [done|]. cbn [fold_left]. by rewrite IH. }
  unfold Subscribers_MergeSharedSelected. rewrite E. apply (fold_range merge_client merge_step).
  intros m k v. apply merge_client_lookup.
Qed.

Lemma SelectShared_Subscriptions `{RangeOrder} (subs : Subscribers) :
  ss_Subscriptions (Subscribers_SelectShared subs) = ss_Subscriptions subs.
Proof.
  unfold Subscribers_SelectShared. set (s0 := subs <| ss_SharedSelected := ∅ |>).
  change (ss_Subscriptions subs) with (ss_Subscriptions s0). clearbody s0. generalize (range (ss_Shared subs)). intros l.
  induction l as [|g l IH] in s0 |- *; [done|]. cbn [fold_left]. rewrite IH. by destruct (range g.2) as [|[]].
Qed.

(** The recipients are the subscribers the code goes over. *)
Lemma recipient_selected `{RangeOrder} e x pk id sub :
  recipient e x pk id sub <-> ss_Subscriptions (select_subscribers e x pk) !! id = Some sub.
Proof.
  unfold recipient, select_subscribers, selected. set (found := TopicsIndex_Subscribers _ _).
  set (asked := hk_OnSelectSubscribers _ _ _). destruct (decide (ss_Shared found = ∅)) as [E0|E0].
  { by rewrite E0, map_size_empty. }
  apply map_size_non_empty_iff in E0. destruct (Nat.ltb_spec 0 (size (ss_Shared found))); [|lia].
  rewrite merge_selected_lookup.
  destruct (decide (ss_SharedSelected asked = ∅)) as [E1|E1].
  - rewrite E1, map_size_empty. cbn [Nat.eqb]. rewrite SelectShared_Subscriptions.
    destruct (ss_SharedSelected _ !! id); [|done]. split; [by intros ->|by intros [= <-]].
  - apply map_size_non_empty_iff in E1. destruct (Nat.eqb_spec (size (ss_SharedSelected asked)) 0); [lia|].
    destruct (ss_SharedSelected _ !! id); [|done]. split; [by intros ->|by intros [= <-]].
Qed.

(** C8: Publishing reaches the subscribers. A message that is not ignored gets
    its times ([stamped]) and is then delivered once (in the sense of
    [delivery]: a copy with the payload, topic, properties and times of the
    message is queued or parked, or it is refused for the reason given) to every
    client that is a recipient, under the subscription it is one with: the
    subscribers the index finds and, where share groups match, the members the
    hooks or the server select. Every other client is left exactly as it was,
    and so are the topics index, the map of clients and the delayed wills. The
    call itself never fails. *)
Theorem publishToSubscribers_delivers `{RO : RangeOrder} e pk s :
  env_ok e -> server_ok e s -> distinct_clients s -> pk_Ignore pk = false ->
  exists s' pk', publishToSubscribers e pk s = (Ok tt, s') /\ server_ok e s' /\ same_index s s' /\ stamped e pk pk' /\
    forall a cl, sv_store s !! a = Some cl -> exists cl', sv_store s' !! a = Some cl' /\
      (forall id sub, sv_Clients s !! id = Some a -> recipient e (sv_Topics s) pk' id sub ->
         exists o, delivery e sub pk' cl o cl') /\
      ((forall id sub, sv_Clients s !! id = Some a -> ~ recipient e (sv_Topics s) pk' id sub) -> cl' = cl).
Proof.
  intros He Hs Hd Hig. destruct (fanout e He pk s Hs Hd Hig) as (s' & E & Hs' & Hsame & H).
  exists s', (stamp e pk). split; [done|]. split; [done|]. split; [done|]. split; [apply stamp_stamped|].
  intros a cl Ha. destruct (H a cl Ha) as (cl' & Ha' & Hserved). exists cl'. split; [done|].
  destruct Hserved as [(id & sub & o & Hin & Hid & Hdel)|[Hnone ->]].
  - apply elem_of_range, recipient_selected in Hin. split; [|intros Hn; by destruct (Hn id sub Hid)].
    intros id' sub' Hid' Hsub'. exists o. rewrite (Hd id' id a Hid' Hid) in Hsub'.
    apply recipient_selected in Hin, Hsub'. congruence.
  - split; [|done]. intros id sub Hid Hsub. exfalso. apply recipient_selected in Hsub.
    apply (Hnone id sub); [by apply elem_of_range|done].
Qed.

(** ** A broker with one subscriber *)

Definition server_sample : Server := (receivePacket reliable_env address_sample subscribe_sample session_sample).2.

Lemma server_sample_ok : server_ok reliable_env server_sample.
Proof.
  assert (H1 : server_ok reliable_env session_sample).
  { exact (broker_reachable _ _ reliable_env_ok session_sample_reachable). }
  apply (wp_returns _ _ (server_ok reliable_env)). refine (action_safe reliable_env reliable_env_ok _ _ H1 _).
  apply act_receive; [|split; [discriminate|reflexivity]].
  vm_compute. eauto.
Qed.

Lemma server_sample_distinct : distinct_clients server_sample.
Proof.
  assert (E : sv_Clients server_sample = {[ !"c1" := address_sample ]}) by (vm_compute; reflexivity).
  intros id id' a. rewrite E. intros [<- _]%lookup_singleton_Some [<- _]%lookup_singleton_Some. done.
Qed.

Lemma publishToSubscribers_delivers_witness :
  exists s' pk' cl cl' o, publishToSubscribers reliable_env hello server_sample = (Ok tt, s') /\
    sv_store server_sample !! address_sample = Some cl /\ sv_store s' !! address_sample = Some cl' /\
    stamped reliable_env hello pk' /\
    delivery reliable_env (Subscription0 <| sub_Filter := !"a/#" |> <| sub_Qos := 1 |> <| sub_Identifiers := Some {[ !"a/#" := 0 ]} |>)
      pk' cl o cl'.
Proof.
  destruct (publishToSubscribers_delivers reliable_env hello server_sample reliable_env_ok server_sample_ok
    server_sample_distinct eq_refl) as (s' & pk' & E & _ & _ & Hst & H).
  destruct (sv_store server_sample !! address_sample) as [cl|] eqn:Ea; [|vm_compute in Ea; discriminate].
  destruct (H address_sample cl Ea) as (cl' & Ha' & Hdel & _).
  assert (Ht : pk_TopicName pk' = pk_TopicName hello) by (rewrite (sp_rest _ _ _ Hst); reflexivity).
  destruct (Hdel !"c1" (Subscription0 <| sub_Filter := !"a/#" |> <| sub_Qos := 1 |> <| sub_Identifiers := Some {[ !"a/#" := 0 ]} |>))
    as [o Ho]; [vm_compute; reflexivity| |].
  { unfold recipient. rewrite Ht. vm_compute. reflexivity. }
  exists s', pk', cl, cl', o. exact (conj E (conj eq_refl (conj Ha' (conj Hst Ho)))).
Defined.
