(* ===== verification/Qos2.v ===== *)
(** * Qos 2 from a publisher: no message is passed on twice

    A qos 2 publish leaves a [Pubrec] entry under its packet id; while it is
    there, a publish with that id is answered and goes no further. *)
From S2P Require Import Prelude Codes Effects Codec FixedHeader Properties Packets Wire Topics TopicsFacts Aliases Inflight InflightFacts System Clients ClientIO ClientIOFacts ClientFacts Publish PublishFacts Delivery Server Sessions ServerFacts Broker ServerDelivery.

(** The client, not the inline one, waits for the release of packet [id]. *)
Definition awaits_release (id : Z) (cl : Client) : Prop :=
  net_Inline (cl_Net cl) = false /\ exists x, client_map cl !! id = Some x /\ pk_Type x = Pubrec.

Section Once.
Context (e : Env) (He : env_ok e) {RO : RangeOrder}.

(** ** What other actions leave of the entry *)

Lemma strip_type x y : strip x = strip y -> pk_Type x = pk_Type y.
Proof. intros H. exact (f_equal pk_Type H). Qed.

Lemma delivery_awaits id sub pk cl o cl' :
  delivery e sub pk cl o cl' -> awaits_release id cl -> awaits_release id cl'.
Proof.
  intros [Hin Hd] (Hni & x & Hx & Ht). split; [congruence|]. destruct o as [out|err].
  2: { destruct Hd as (Hm & _). exists x. by rewrite Hm. }
  destruct (_ && _); [destruct Hd as [-> _]; by exists x|]. destruct Hd as (_ & _ & Hd). cbv zeta in Hd. destruct (0 <? _).
  2: { destruct Hd as (Hm & _). exists x. by rewrite Hm. }
  destruct Hd as (_ & Hn & Hd). assert (Hne : pk_PacketID out <> id) by congruence.
  assert (Hins : <[pk_PacketID out := out]> (client_map cl) !! id = Some x) by (by rewrite lookup_insert_ne).
  destruct Hd as [[Hm _]|[Hm _]]; [exists x; by rewrite Hm|].
  apply (f_equal (fun m => m !! id)) in Hm. rewrite !lookup_fmap, Hins in Hm.
  destruct (client_map cl' !! id) as [y|] eqn:Hy; [|done]. exists y. split; [done|].
  rewrite (strip_type y x (inj Some _ _ Hm)). done.
Qed.

(** The state with the invariant, in which the client at [a] satisfies [P]. *)
Definition holding (a : nat) (P : Client -> Prop) (s : Server) : Prop :=
  server_ok e s /\ distinct_clients s /\ exists cl, sv_store s !! a = Some cl /\ P cl.

Definition waiting (a : nat) (id : Z) : Server -> Prop := holding a (awaits_release id).

Lemma only_client_ok a s cl cl' s' :
  server_ok e s -> sv_store s !! a = Some cl -> client_ok e cl' -> only_client a s cl' s' -> server_ok e s'.
Proof.
  intros Hs Ha Hcl (i & ev & ->).
  apply (live_set_view e [] a s (mkClientView cl' i ev)); [split; [done|by intros ? ?%elem_of_nil]|eauto|done].
Qed.

Lemma wp_holding {A} a (P P' : Client -> Prop) (R : A + error -> Prop) (m : GoM ClientView A) s Q :
  holding a P s ->
  (forall cv, view_ok e cv -> P (cv_client cv) -> wp m cv (fun r cv' => R r /\ view_ok e cv' /\ P' (cv_client cv'))) ->
  (forall r s', R r -> holding a P' s' -> Q r s') -> wp (on_client a m) s Q.
Proof.
  intros (Hs & Hd & cl & Ha & HP) Hm HQ. pose proof (so_clients _ _ Hs a cl Ha) as Hcl.
  set (cv := mkClientView cl (sv_Info s) (sv_events s)).
  apply (wp_on_client (fun r cv' => R r /\ view_ok e cv' /\ P' (cv_client cv')) a m s cl); [done|by apply (Hm cv)|].
  intros r cv' s' (HR & Hok & HP') Hoc. apply HQ; [done|]. split; [by eapply only_client_ok|].
  destruct Hoc as (i & ev & ->). split; [exact Hd|]. exists (cv_client cv'). split; [apply lookup_insert_eq|done].
Qed.

Lemma holding_on_client {A} a (P : Client -> Prop) (m : GoM ClientView A) :
  (forall cv, view_ok e cv -> P (cv_client cv) -> wp m cv (fun r cv' => view_ok e cv' /\ P (cv_client cv'))) ->
  keeps (holding a P) (on_client a m).
Proof.
  intros Hm s Hs. apply (wp_holding a P P (fun _ => True) m s); [done| |done].
  intros cv Hcv HP. eapply wp_mono; [by apply Hm|done].
Qed.

Lemma holding_emit a P ev : keeps (holding a P) (on_client a (emit ev)).
Proof. apply holding_on_client. intros cv Hcv HP. by apply wp_modify. Qed.

Lemma holding_count a P n : keeps (holding a P) (on_client a (count_inflight n)).
Proof. apply holding_on_client. intros cv Hcv HP. by apply wp_modify. Qed.

Lemma waiting_WritePacket a id pk : keeps (waiting a id) (on_client a (WritePacket e pk)).
Proof.
  apply holding_on_client. intros cv Hcv (Hni & x & Hx & Ht). eapply wp_mono; [apply WritePacket_untouched, He|].
  intros r cv' Hu. split; [exact (view_ok_untouched _ _ _ Hu Hcv)|]. destruct Hu as (w & ob & E & _).
  split; [by rewrite E|]. exists x. by rewrite E.
Qed.

Lemma waiting_publishToSubscribers a id pk : keeps (waiting a id) (publishToSubscribers e pk).
Proof.
  intros s (Hs & Hd & cl & Ha & Hw). destruct (pk_Ignore pk) eqn:Hig.
  { unfold publishToSubscribers. rewrite Hig. apply wp_ret. split_and!; eauto. }
  destruct (fanout e He pk s Hs Hd Hig) as (s' & E & Hs' & Hsame & H). unfold wp. rewrite E.
  split; [done|]. destruct Hsame as (Hc & _). split; [unfold distinct_clients; by rewrite Hc|].
  destruct (H a cl Ha) as (cl' & Ha' & Hserved). exists cl'. split; [done|].
  destruct Hserved as [(i & sub & o & _ & _ & Hdel)|[_ ->]]; [by eapply delivery_awaits|done].
Qed.

(** ** The second publish *)

Lemma Stop_map now err cl : client_map (Client_Stop now err cl) = client_map cl /\ client_queue (Client_Stop now err cl) = client_queue cl.
Proof. unfold Client_Stop. by destruct (st_ended _). Qed.

(** What the client at [a] holds and queues is as before, and so is the rest of the server. *)
Definition goes_no_further (a : nat) (cl : Client) (s s' : Server) : Prop :=
  exists cl', only_client a s cl' s' /\ client_map cl' = client_map cl /\ client_queue cl' = client_queue cl.

Lemma no_further_on_client {A} a cl (m : GoM ClientView A) s :
  sv_store s !! a = Some cl ->
  (forall cv, wp m cv (fun _ cv' => view_map cv' = view_map cv /\ view_queue cv' = view_queue cv)) ->
  wp (on_client a m) s (fun _ => goes_no_further a cl s).
Proof.
  intros Ha Hm. set (cv := mkClientView cl (sv_Info s) (sv_events s)).
  apply (wp_on_client (fun _ cv' => view_map cv' = view_map cv /\ view_queue cv' = view_queue cv) a m s cl); [done|apply Hm|].
  intros r cv' s' [H1 H2] Hoc. by exists (cv_client cv').
Qed.

Lemma WritePacket_no_further pk cv :
  wp (WritePacket e pk) cv (fun _ cv' => view_map cv' = view_map cv /\ view_queue cv' = view_queue cv).
Proof.
  eapply wp_mono; [apply WritePacket_untouched, He|]. intros r cv' (w & ob & E & _).
  unfold view_map, view_queue. by rewrite E.
Qed.

Lemma DisconnectClient_no_further code cv :
  wp (DisconnectClient e code) cv (fun _ cv' => view_map cv' = view_map cv /\ view_queue cv' = view_queue cv).
Proof.
  unfold DisconnectClient. apply wp_bind, wp_attempt. eapply wp_mono; [apply WritePacket_no_further|].
  intros r cv1 [H1 H2]. cbv zeta. destruct (negb _).
  - apply wp_bind, wp_modify. destruct (Stop_map (ev_now e) (Some (ECode code)) (cv_client cv1)) as [S1 S2].
    assert (Hend : view_map (cv1 <| cv_client ::= Client_Stop (ev_now e) (Some (ECode code)) |>) = view_map cv /\
      view_queue (cv1 <| cv_client ::= Client_Stop (ev_now e) (Some (ECode code)) |>) = view_queue cv).
    { rewrite <- H1, <- H2. split; [exact S1|exact S2]. }
    destruct (_ <=? _); [by apply wp_throw|]. by destruct r; [apply wp_ret|apply wp_throw].
  - by destruct r; [apply wp_ret|apply wp_throw].
Qed.

Lemma no_further_refl a cl s : sv_store s !! a = Some cl -> goes_no_further a cl s s.
Proof.
  intros Ha. exists cl. split; [|done]. exists (sv_Info s), (sv_events s).
  symmetry. exact (reinsert a s cl Ha).
Qed.

Lemma duplicate_publish a cl pk s :
  sv_store s !! a = Some cl -> awaits_release (pk_PacketID pk) cl ->
  wp (processPublish e a pk) s (fun _ => goes_no_further a cl s).
Proof.
  intros Ha (Hin & x & Hx & Ht). unfold processPublish. apply (wp_look a s cl); [done|]. cbv zeta.
  rewrite Hin. cbn [negb andb].
  destruct (negb (IsValidFilter _ _)); [apply wp_ret; by apply no_further_refl|].
  destruct (_ =? 0); [apply no_further_on_client; [done|intros; apply DisconnectClient_no_further]|].
  destruct (negb (hk_OnACLCheck _ _ _ _)).
  { unfold refuse_publish. destruct (_ =? 0); [apply wp_ret; by apply no_further_refl|].
    destruct (negb _); (apply no_further_on_client; [done|intros]);
      [apply DisconnectClient_no_further|apply WritePacket_no_further]. }
  set (pk2 := if 0 <? _ then _ else _).
  assert (Hid : pk_PacketID pk2 = pk_PacketID pk) by (unfold pk2; by destruct (0 <? _)). clearbody pk2.
  unfold Inflight_Get. rewrite Hid. unfold client_map in Hx. rewrite Hx, Ht.
  apply no_further_on_client; [done|intros; apply WritePacket_no_further].
Qed.

(** ** The first publish *)

Lemma holding_retainMessage a P pk s :
  holding a P s -> wp (retainMessage e a pk) s (fun r s' => r = inl tt /\ holding a P s').
Proof.
  intros Hs. unfold retainMessage. destruct (_ || _); [by apply wp_ret|].
  apply wp_bind. unfold wp at 1, topics. destruct Hs as (Hs & Hd & Hw).
  pose proof (RetainMessage_index_ok (sv_Topics s) (Packet_Copy pk false) (so_topics _ _ Hs)) as Ht.
  destruct (TopicsIndex_RetainMessage _ _) as [r x]. destruct Hs as [H1 H2 H3 H4].
  apply wp_bind. apply (wp_holding a P P (fun r => r = inl tt)).
  - split; [by constructor|]. by split.
  - intros cv Hcv HP. by apply wp_modify.
  - intros r' s' -> ([K1 K2 K3 K4] & Hd' & Hw'). apply wp_bind, wp_get_state, wp_modify. split; [done|].
    split; [by constructor|]. by split.
Qed.

(** The client has nothing in flight under [id], and is not the inline client. *)
Definition id_free (id : Z) (cl : Client) : Prop := net_Inline (cl_Net cl) = false /\ client_map cl !! id = None.

Lemma holding_look {B} a P (k : Client -> GoM Server B) s Q :
  holding a P s -> (forall cl, P cl -> wp (k cl) s Q) -> wp (on_client a get_client ≫= k) s Q.
Proof. intros (_ & _ & cl & Ha & HP) Hk. apply (wp_look a s cl); [done|]. by apply Hk. Qed.

(** After the entry is set, everything that follows keeps it. *)
Lemma accept_qos2_rest a pk ack s :
  waiting a (pk_PacketID pk) s ->
  wp (on_client a (WritePacket e ack);; when false (mret tt);;
      publishToSubscribers e pk;; on_client a (emit (fun cl => OnPublished cl pk))) s (fun _ => waiting a (pk_PacketID pk)).
Proof.
  revert s. fold (keeps (waiting a (pk_PacketID pk)) (on_client a (WritePacket e ack);; when false (mret tt);;
      publishToSubscribers e pk;; on_client a (emit (fun cl => OnPublished cl pk)))).
  apply keeps_bind; [apply waiting_WritePacket|intros _]. apply keeps_bind; [apply keeps_ret|intros _].
  apply keeps_bind; [apply waiting_publishToSubscribers|intros _]. apply holding_emit.
Qed.

Lemma accept_qos2 a pk s :
  is_u16 (pk_PacketID pk) -> pk_Qos pk = 2 -> holding a (id_free (pk_PacketID pk)) s ->
  wp (accept_publish e a pk) s (fun _ => waiting a (pk_PacketID pk)).
Proof.
  intros Hid Hq Hs. unfold accept_publish. rewrite Hq.
  change (2 =? 0) with false. change (2 =? 2) with true. change (2 =? 1) with false.
  apply wp_bind. apply wp_mono with (Q := fun r s' => r = inl tt /\ holding a (id_free (pk_PacketID pk)) s').
  { apply wp_when; [intros _; by apply holding_retainMessage|done]. }
  intros r s1 [-> Hs1]. apply (holding_look a _ _ s1 _ Hs1). intros cl [Hin Hfree]. rewrite Hin. cbn [orb].
  apply wp_bind. apply (wp_holding a (id_free (pk_PacketID pk)) (id_free (pk_PacketID pk)) (fun r => r = inl tt)); [done| |].
  { intros cv Hcv HP. apply wp_inflight_. split; [done|]. split.
    - apply view_ok_inflight; [done|]. exact (apply_op_ok _ OpDecreaseReceiveQuota (ko_inflight _ _ Hcv) I).
    - destruct HP as [H1 H2]. split; [done|]. unfold client_map in *.
      change (if_internal (Inflight_DecreaseReceiveQuota (cl_Inflight (cv_client cv))).2 !! pk_PacketID pk = None).
      unfold Inflight_DecreaseReceiveQuota. by destruct (_ <=? 0). }
  intros r s2 -> Hs2. cbv zeta. apply (holding_look a _ _ s2 _ Hs2). intros cl2 [_ Hfree2].
  unfold Inflight_Get. unfold client_map in Hfree2. rewrite Hfree2. cbn [andb].
  set (ack := complete_from e pk _).
  assert (Hack : pk_PacketID ack = pk_PacketID pk /\ pk_Type ack = Pubrec).
  { unfold ack, complete_from. by destruct (_ && _). }
  destruct Hack as [Hai Hat]. clearbody ack. apply wp_bind. cbn [when].
  apply wp_bind. apply (wp_holding a (id_free (pk_PacketID pk)) (awaits_release (pk_PacketID pk)) (fun r => exists b, r = inl b)); [done| |].
  { intros cv Hcv [Hni _]. unfold wp. rewrite inflight_run. split; [eauto|]. split.
    - apply view_ok_inflight; [done|]. refine (apply_op_ok _ (OpSet ack) (ko_inflight _ _ Hcv) _). by rewrite <- Hai in Hid.
    - split; [done|]. exists ack. split; [|done]. change (<[pk_PacketID ack := ack]> (client_map (cv_client cv)) !! pk_PacketID pk = Some ack).
      rewrite Hai. apply lookup_insert_eq. }
  intros r s3 [ok ->] Hs3.
  assert (Hk : keeps (waiting a (pk_PacketID pk))
    (when ok (on_client a (count_inflight 1);; on_client a (emit (fun cl => OnQosPublish cl ack (pk_Created ack) 0))))).
  { apply keeps_when. intros _. apply keeps_bind; [apply holding_count|intros _; apply holding_emit]. }
  eapply wp_mono; [by apply Hk|]. intros [[]|err] s4 Hs4; [|done]. by apply accept_qos2_rest.
Qed.

(** The packet passes the checks of [processPublish]. *)
Record admitted (cl : Client) (pk : Packet) : Prop := mkAdmitted {
  ad_topic : IsValidFilter (pk_TopicName pk) true = true;
  ad_quota : if_receiveQuota (cl_Inflight cl) <> 0;
  ad_acl : hk_OnACLCheck (ev_Hooks e) cl (pk_TopicName pk) true = true;
  ad_hook : forall cl pk, hk_OnPublish (ev_Hooks e) cl pk = (pk, None);
  ad_qos : pk_Qos pk = 2 /\ 2 <= ca_MaximumQos (ev_Capabilities e);
  ad_id : is_u16 (pk_PacketID pk);
}.

Lemma first_publish a cl pk s :
  server_ok e s -> distinct_clients s -> sv_store s !! a = Some cl -> id_free (pk_PacketID pk) cl -> admitted cl pk ->
  wp (processPublish e a pk) s (fun _ => waiting a (pk_PacketID pk)).
Proof.
  intros Hs Hd Ha Hfree [A1 A2 A3 A4 [A5 A6] A7]. pose proof Hfree as [Hin Hf].
  unfold processPublish. apply (wp_look a s cl); [done|]. cbv zeta. rewrite Hin, A1, A3. cbn [negb andb].
  destruct (Z.eqb_spec (if_receiveQuota (cl_Inflight cl)) 0); [done|].
  set (pk1 := pk <| pk_Origin := _ |> <| pk_Created := _ |>).
  set (pk2 := if 0 <? message_expiry e pk1 then _ else _).
  assert (Hpk2 : pk_PacketID pk2 = pk_PacketID pk /\ pk_Qos pk2 = 2) by (unfold pk2; destruct (0 <? _); done).
  destruct Hpk2 as [Hid2 Hq2]. clearbody pk2. unfold Inflight_Get. rewrite Hid2. unfold client_map in Hf. rewrite Hf.
  assert (Hh : holding a (id_free (pk_PacketID pk)) s) by (split; [done|]; split; [done|]; by exists cl).
  apply wp_bind. apply wp_mono with (Q := fun r s' => (exists t, r = inl t) /\ holding a (id_free (pk_PacketID pk)) s').
  { destruct (_ && _); [|apply wp_ret; eauto]. destruct (InboundTopicAliases_Set _ _ _) as [topic b].
    apply wp_bind. apply (wp_holding a (id_free (pk_PacketID pk)) (id_free (pk_PacketID pk)) (fun r => r = inl tt)); [done| |].
    - intros cv [H1 H2 H3 H4] [K1 K2]. apply wp_modify. split; [done|]. split; [by constructor|]. by split.
    - intros r s' -> Hs'. apply wp_ret. eauto. }
  intros r s1 [[topic ->] Hs1].
  set (pk3 := pk2 <| pk_TopicName := topic |>).
  assert (Hpk3 : pk_Qos pk3 = 2) by exact Hq2. rewrite Hpk3.
  destruct (Z.ltb_spec (ca_MaximumQos (ev_Capabilities e)) 2); [lia|].
  apply (holding_look a _ _ s1 _ Hs1). intros cl1 _. rewrite A4.
  rewrite <- Hid2. change (pk_PacketID pk2) with (pk_PacketID pk3). apply accept_qos2; [| |].
  - change (is_u16 (pk_PacketID pk2)). by rewrite Hid2.
  - done.
  - change (holding a (id_free (pk_PacketID pk2)) s1). by rewrite Hid2.
Qed.
End Once.

(** C11: Qos 2 messages are passed on once. A client's qos 2 publish with a
    free packet id that passes the checks leaves the client awaiting the
    release of the id, whatever the network does; and in every state in which a
    client awaits the release of an id, a publish of it with that id (a
    retransmission, or any other message) changes no other client, no topic and
    no will, and neither the in-flight messages nor the queue of the publisher
    itself. *)
Theorem qos2_exactly_once `{RO : RangeOrder} e a cl pk s :
  env_ok e -> server_ok e s -> distinct_clients s ->
  sv_store s !! a = Some cl -> id_free (pk_PacketID pk) cl -> admitted e cl pk ->
  returns (processPublish e a pk s).1 /\
  (exists cl1, sv_store (processPublish e a pk s).2 !! a = Some cl1 /\ awaits_release (pk_PacketID pk) cl1) /\
  (forall e' s1 cl1 pk', env_ok e' -> sv_store s1 !! a = Some cl1 -> awaits_release (pk_PacketID pk) cl1 ->
     pk_PacketID pk' = pk_PacketID pk ->
     returns (processPublish e' a pk' s1).1 /\ goes_no_further a cl1 s1 (processPublish e' a pk' s1).2).
Proof.
  intros He Hs Hd Ha Hfree Hadm.
  destruct (wp_returns _ _ _ (first_publish e He a cl pk s Hs Hd Ha Hfree Hadm)) as [Hr Hw].
  split; [done|]. destruct Hw as (_ & _ & cl1 & Ha1 & Hwait). split; [by exists cl1|].
  intros e' s1 cl2 pk' He' Ha2 Hw2 Hpk'. rewrite <- Hpk' in Hw2. apply wp_returns. by apply duplicate_publish.
Qed.

Definition qos2_sample : Packet := hello <| pk_FixedHeader := mkFixedHeader 0 Publish 2 false false |> <| pk_PacketID := 7 |>.
Definition client_sample : Client := default (newClient DefaultOptions None) (sv_store server_sample !! address_sample).

Lemma client_sample_at : sv_store server_sample !! address_sample = Some client_sample.
Proof. unfold client_sample. destruct (sv_store server_sample !! address_sample) eqn:E; [done|]. vm_compute in E. discriminate. Qed.

Lemma qos2_sample_free : id_free (pk_PacketID qos2_sample) client_sample.
Proof. split; vm_compute; reflexivity. Qed.

Lemma qos2_sample_admitted : admitted reliable_env client_sample qos2_sample.
Proof.
  constructor; [vm_compute; reflexivity|vm_compute; discriminate|reflexivity|reflexivity|split; [reflexivity|vm_compute; discriminate]|].
  split; [discriminate|reflexivity].
Qed.

Lemma qos2_exactly_once_witness :
  returns (processPublish reliable_env address_sample qos2_sample server_sample).1 /\
  exists cl1, sv_store (processPublish reliable_env address_sample qos2_sample server_sample).2 !! address_sample = Some cl1 /\
    awaits_release 7 cl1.
Proof.
  destruct (qos2_exactly_once reliable_env address_sample client_sample qos2_sample server_sample reliable_env_ok
    server_sample_ok server_sample_distinct client_sample_at qos2_sample_free
    qos2_sample_admitted) as (H1 & H2 & _).
  exact (conj H1 H2).
Defined.
