(* ===== verification/SysTopicsFacts.v ===== *)
(** * The system topics that subscribers find

    A publication of the system topics retains every statistic under its topic,
    as it is reported to the hooks. *)
From S2P Require Import Prelude Codes Effects Codec FixedHeader Properties Packets Topics TopicsFacts Inflight System Clients ClientIO ClientIOFacts Publish PublishFacts Delivery Server Sessions SysTopics ServerFacts Broker ServerDelivery.

Lemma sys_topics_prefix info topic payload : sys_topics info !! topic = Some payload -> exists t, topic = SysPrefix ++ t.
Proof.
  intros H%elem_of_list_to_map_2. apply list_elem_of_In, in_map_iff in H as ([t p] & [= <- <-] & _). by exists t.
Qed.

(** The topics are distinct, so that each has its own value. *)
Lemma sys_topics_value info t payload : (t, payload) ∈ sys_values info -> sys_topics info !! (SysPrefix ++ t) = Some payload.
Proof.
  intros Hin. apply elem_of_list_to_map_1.
  - replace (map (fun tp => (SysPrefix ++ tp.1, tp.2)) (sys_values info)).*1 with (map (fun tp => SysPrefix ++ tp.1) (sys_values Info0)) by reflexivity.
    apply (bool_decide_unpack _). vm_compute. exact I.
  - apply list_elem_of_In, in_map_iff. exists (t, payload). by rewrite <- list_elem_of_In.
Qed.

Section Published.
Context (e : Env) (He : env_ok e) {RO : RangeOrder} (memory threads : Z).

(** What is retained for a statistic: nothing when it is empty. *)
Definition sys_retained (topic payload : gostr) : option Packet :=
  if (0 <? length payload)%nat then Some (Packet_Copy (sys_packet e topic payload) false) else None.

Definition publish_one (tp : gostr * gostr) : GoM Server unit :=
  topics (fun x => TopicsIndex_RetainMessage x (Packet_Copy (sys_packet e tp.1 tp.2) false));; publishToSubscribers e (sys_packet e tp.1 tp.2).

Lemma publish_one_spec topic payload s :
  topic <> [] -> server_ok e s -> distinct_clients s ->
  wp (publish_one (topic, payload)) s (fun r s' => r = inl tt /\ server_ok e s' /\ distinct_clients s' /\
    (forall t, ti_Retained (sv_Topics s') !! t = if decide (t = topic) then sys_retained topic payload else ti_Retained (sv_Topics s) !! t)).
Proof.
  intros Hne Hs Hd. set (copy := Packet_Copy (sys_packet e topic payload) false).
  destruct (RetainMessage_step (sv_Topics s) copy (so_topics _ _ Hs) Hne) as (Hok & _ & Hr).
  unfold publish_one. apply wp_bind. unfold wp at 1, topics. cbn [fst snd]. fold copy.
  destruct (TopicsIndex_RetainMessage (sv_Topics s) copy) as [out x]. cbn [snd] in Hok, Hr. set (s1 := s <| sv_Topics := x |>).
  assert (Hs1 : server_ok e s1) by (destruct Hs; by constructor).
  destruct (fanout e He (sys_packet e topic payload) s1 Hs1 Hd eq_refl) as (s2 & E & Hs2 & (Hc & Ht & _) & _).
  unfold wp. rewrite E. split_and!; [done|done|unfold distinct_clients; by rewrite Hc|].
  intros t. rewrite Ht. change (ti_Retained x !! t = if decide (t = topic) then sys_retained topic payload else ti_Retained (sv_Topics s) !! t).
  rewrite Hr. change (pk_TopicName copy) with topic. change (pk_Payload copy) with payload. unfold sys_retained. fold copy.
  destruct (decide (t = topic)) as [->|Hn], (0 <? length payload)%nat;
    [by rewrite lookup_insert_eq|by rewrite lookup_delete_eq|by rewrite lookup_insert_ne|by rewrite lookup_delete_ne].
Qed.

Lemma publish_all_spec info s :
  server_ok e s -> distinct_clients s ->
  wp (for_each (range (sys_topics info)) publish_one) s (fun r s' => r = inl tt /\ server_ok e s' /\
    (forall topic, sys_topics info !! topic = None -> ti_Retained (sv_Topics s') !! topic = ti_Retained (sv_Topics s) !! topic) /\
    (forall topic payload, sys_topics info !! topic = Some payload -> ti_Retained (sv_Topics s') !! topic = sys_retained topic payload)).
Proof.
  intros Hs Hd.
  set (I := fun s' => server_ok e s' /\ distinct_clients s' /\
    forall topic, sys_topics info !! topic = None -> ti_Retained (sv_Topics s') !! topic = ti_Retained (sv_Topics s) !! topic).
  eapply wp_mono; [apply (wp_for_each_all I (fun _ _ => True)
    (fun tp s' => ti_Retained (sv_Topics s') !! tp.1 = sys_retained tp.1 tp.2))|].
  - apply (NoDup_fmap_1 fst), range_NoDup.
  - intros [topic payload] s1 Hin%elem_of_range (Hs1 & Hd1 & Ho1) _.
    assert (Hne : topic <> []) by (destruct (sys_topics_prefix info topic payload Hin) as [t ->]; done).
    eapply wp_mono; [by apply publish_one_spec|]. intros r s2 (-> & Hs2 & Hd2 & Hr). split; [done|]. split; [split_and!; [done..|]|split].
    + intros t Ht. rewrite Hr. destruct (decide (t = topic)) as [->|]; [congruence|]. by apply Ho1.
    + cbn [fst snd]. rewrite Hr. by rewrite decide_True.
    + intros [t' p'] Hin'%elem_of_range Hne'. split; [|done]. cbn [fst snd]. intros HP. rewrite Hr.
      destruct (decide (t' = topic)) as [->|]; [|done]. destruct Hne'. f_equal. congruence.
  - by split_and!.
  - done.
  - intros r s' (-> & (Hs' & _ & Ho) & HP). split_and!; try done. intros topic payload Hin. apply (HP (topic, payload)). by apply elem_of_range.
Qed.

(** The statistics of the server at this moment: the clients are counted, and
    the others are the counters it keeps. *)
Definition statistics (s : Server) : Info :=
  let i := sv_Info s in
  let clients := Z.of_nat (size (sv_Clients s)) in {|
  in_Version := in_Version i;
  in_Started := in_Started i;
  in_Time := ev_now e;
  in_Uptime := to_i64 (ev_now e - in_Started i);
  in_BytesReceived := in_BytesReceived i;
  in_BytesSent := in_BytesSent i;
  in_ClientsConnected := in_ClientsConnected i;
  in_ClientsDisconnected := to_i64 (clients - in_ClientsConnected i);
  in_ClientsMaximum := in_ClientsMaximum i;
  in_ClientsTotal := clients;
  in_MessagesReceived := in_MessagesReceived i;
  in_MessagesSent := in_MessagesSent i;
  in_MessagesDropped := in_MessagesDropped i;
  in_Retained := in_Retained i;
  in_Inflight := in_Inflight i;
  in_InflightDropped := in_InflightDropped i;
  in_Subscriptions := in_Subscriptions i;
  in_PacketsReceived := in_PacketsReceived i;
  in_PacketsSent := in_PacketsSent i;
  in_MemoryAlloc := to_i64 memory;
  in_Threads := to_i64 threads;
|}.

(** The message [payload], published now, is retained on [topic]; an empty one
    leaves nothing there. *)
Definition retained_on (x : TopicsIndex) (topic payload : gostr) : Prop :=
  if decide (payload = []) then ti_Retained x !! topic = None
  else exists pk, ti_Retained x !! topic = Some pk /\ pk_TopicName pk = topic /\ pk_Payload pk = payload /\
    pk_Type pk = Publish /\ pk_Qos pk = 0 /\ fh_Retain (pk_FixedHeader pk) = true /\ pk_Created pk = ev_now e.

Lemma sys_retained_on x topic payload : ti_Retained x !! topic = sys_retained topic payload -> retained_on x topic payload.
Proof.
  unfold sys_retained, retained_on. intros H. destruct payload; [done|]. rewrite decide_False by done. rewrite H.
  eexists. split; [reflexivity|done].
Qed.

(** What is published of the statistics (the dropped in-flight messages are not). *)
Definition broker_topics (i : Info) : list (gostr * gostr) := [
  (!"$SYS/broker/version", in_Version i);
  (!"$SYS/broker/time", FormatInt (in_Time i));
  (!"$SYS/broker/uptime", FormatInt (in_Uptime i));
  (!"$SYS/broker/started", FormatInt (in_Started i));
  (!"$SYS/broker/load/bytes/received", FormatInt (in_BytesReceived i));
  (!"$SYS/broker/load/bytes/sent", FormatInt (in_BytesSent i));
  (!"$SYS/broker/clients/connected", FormatInt (in_ClientsConnected i));
  (!"$SYS/broker/clients/disconnected", FormatInt (in_ClientsDisconnected i));
  (!"$SYS/broker/clients/maximum", FormatInt (in_ClientsMaximum i));
  (!"$SYS/broker/clients/total", FormatInt (in_ClientsTotal i));
  (!"$SYS/broker/packets/received", FormatInt (in_PacketsReceived i));
  (!"$SYS/broker/packets/sent", FormatInt (in_PacketsSent i));
  (!"$SYS/broker/messages/received", FormatInt (in_MessagesReceived i));
  (!"$SYS/broker/messages/sent", FormatInt (in_MessagesSent i));
  (!"$SYS/broker/messages/dropped", FormatInt (in_MessagesDropped i));
  (!"$SYS/broker/messages/inflight", FormatInt (in_Inflight i));
  (!"$SYS/broker/retained", FormatInt (in_Retained i));
  (!"$SYS/broker/subscriptions", FormatInt (in_Subscriptions i));
  (!"$SYS/broker/system/memory", FormatInt (in_MemoryAlloc i));
  (!"$SYS/broker/system/threads", FormatInt (in_Threads i)) ].

Lemma broker_topics_eq i : map (fun tp => (SysPrefix ++ tp.1, tp.2)) (sys_values i) = broker_topics i.
Proof. reflexivity. Qed.

Lemma publishSysTopics_spec s :
  server_ok e s -> distinct_clients s ->
  exists s', publishSysTopics e memory threads s = (Ok tt, s') /\ server_ok e s' /\
    (forall topic payload, (topic, payload) ∈ broker_topics (statistics s) -> retained_on (sv_Topics s') topic payload) /\
    (forall topic, topic ∉ (broker_topics (statistics s)).*1 -> ti_Retained (sv_Topics s') !! topic = ti_Retained (sv_Topics s) !! topic) /\
    last (sv_events s') = Some (OnSysInfoTick (statistics s)).
Proof.
  intros Hs Hd. unfold publishSysTopics, set_Info, modify, get_state, mbind, GoM_bind. cbv beta iota zeta.
  match goal with |- context [Info_Clone (sv_Info ?x)] => set (s1 := x) end.
  assert (Hi : Info_Clone (sv_Info s1) = statistics s) by reflexivity. rewrite Hi.
  assert (Hs1 : server_ok e s1) by (destruct Hs; by constructor).
  pose proof (publish_all_spec (statistics s) s1 Hs1 Hd) as Hp. unfold wp in Hp.
  change (for_each (range (sys_topics (statistics s))) publish_one s1) with
    (for_each (range (sys_topics (statistics s))) (fun tp =>
       topics (fun x => TopicsIndex_RetainMessage x (Packet_Copy (sys_packet e tp.1 tp.2) false));; publishToSubscribers e (sys_packet e tp.1 tp.2)) s1) in Hp.
  destruct (for_each (range (sys_topics (statistics s))) _ s1) as [[[]|err| |] s2]; [|by destruct Hp|done|done].
  destruct Hp as (_ & Hs2 & Ho & HP). eexists _. split; [reflexivity|]. split_and!.
  - destruct Hs2; by constructor.
  - intros topic payload Hin. apply sys_retained_on. rewrite <- broker_topics_eq in Hin.
    apply list_elem_of_In, in_map_iff in Hin as ([t p] & [= <- <-] & Hin). apply HP, sys_topics_value. by apply list_elem_of_In.
  - intros topic Hn. apply Ho. apply not_elem_of_list_to_map_1. by rewrite broker_topics_eq.
  - apply last_snoc.
Qed.

(** C25: a publication of the system topics always completes and keeps the
    invariant of the server. Each of the twenty [$SYS] topics then has as its
    retained message the statistic it names ([broker_topics]): the counters of
    the server, the time and uptime, the memory and the goroutines that the
    runtime reports, and the clients counted at this moment ([statistics]); of
    no other topic has the retained message changed, and the hooks are told the
    same statistics last. *)
Theorem sys_topics_published s :
  server_ok e s -> distinct_clients s ->
  exists s', publishSysTopics e memory threads s = (Ok tt, s') /\ server_ok e s' /\
    (forall topic payload, (topic, payload) ∈ broker_topics (statistics s) -> retained_on (sv_Topics s') topic payload) /\
    (forall topic, topic ∉ (broker_topics (statistics s)).*1 -> ti_Retained (sv_Topics s') !! topic = ti_Retained (sv_Topics s) !! topic) /\
    last (sv_events s') = Some (OnSysInfoTick (statistics s)).
Proof. apply publishSysTopics_spec. Qed.
End Published.

Lemma sys_topics_published_witness : exists s',
  publishSysTopics reliable_env 4096 7 server_sample = (Ok tt, s') /\
  retained_on reliable_env (sv_Topics s') !"$SYS/broker/system/threads" !"7".
Proof.
  destruct (sys_topics_published reliable_env reliable_env_ok 4096 7 server_sample server_sample_ok server_sample_distinct)
    as (s' & E & _ & H & _).
  exists s'. split; [exact E|]. apply H. do 19 right. left.
Defined.
