(* ===== verification/Json.v ===== *)
(** * JSON documents (encoding/json)

    A document is a tree of values. [json_print] is the compact text that
    [json.Marshal] writes for it: strings with their escapes, among them those
    of [<], [>] and [&]. [json_parse] is the grammar that [json.Unmarshal]
    accepts, white space, escapes, surrogate pairs and the bound on the nesting
    included. A printed document is read back. *)
From S2P Require Import Prelude Codes Codec.

Inductive JSON :=
| JNull
| JBool (b : bool)
| JNumber (n : Z)             (* an integer *)
| JReal (text : gostr)       (* a number with a fraction or an exponent *)
| JString (s : gostr)
| JArray (l : list JSON)
| JObject (fields : list (gostr * JSON)).

(** ** Strings: bytes that are not UTF-8 become U+FFFD *)

Definition RuneError : gostr := [239; 191; 189].

Fixpoint utf8_coerce (b : gostr) : gostr :=
  match b with
  | [] => []
  | b0 :: t0 =>
      if b0 <? 128 then b0 :: utf8_coerce t0
      else if b0 <? 194 then RuneError ++ utf8_coerce t0
      else if b0 <? 224 then
        match t0 with
        | b1 :: t1 => if utf8_cont b1 then b0 :: b1 :: utf8_coerce t1 else RuneError ++ utf8_coerce t0
        | _ => RuneError ++ utf8_coerce t0
        end
      else if b0 <? 240 then
        match t0 with
        | b1 :: b2 :: t2 =>
            if ((if b0 =? 224 then 160 else 128) <=? b1) && (b1 <=? (if b0 =? 237 then 159 else 191)) && utf8_cont b2
            then b0 :: b1 :: b2 :: utf8_coerce t2 else RuneError ++ utf8_coerce t0
        | _ => RuneError ++ utf8_coerce t0
        end
      else if b0 <? 245 then
        match t0 with
        | b1 :: b2 :: b3 :: t3 =>
            if ((if b0 =? 240 then 144 else 128) <=? b1) && (b1 <=? (if b0 =? 244 then 143 else 191)) &&
               utf8_cont b2 && utf8_cont b3
            then b0 :: b1 :: b2 :: b3 :: utf8_coerce t3 else RuneError ++ utf8_coerce t0
        | _ => RuneError ++ utf8_coerce t0
        end
      else RuneError ++ utf8_coerce t0
  end.

Lemma utf8_coerce_valid s : utf8_Valid s = true -> utf8_coerce s = s.
Proof.
  induction s as [s IH] using (induction_ltof1 _ length). unfold ltof in IH.
  destruct s as [|b0 t0]; [done|]. cbn [utf8_Valid utf8_coerce].
  destruct (b0 <? 128); [intros; by rewrite IH by (cbn; lia || done)|].
  destruct (b0 <? 194); [done|].
  destruct (b0 <? 224); [destruct t0 as [|b1 t1]; [done|]; intros [-> H]%andb_true_iff; by rewrite IH by (cbn; lia || done)|].
  destruct (b0 <? 240).
  { destruct t0 as [|b1 [|b2 t2]]; [done..|]. intros [-> H]%andb_true_iff. by rewrite IH by (cbn; lia || done). }
  destruct (b0 <? 245); [|done].
  destruct t0 as [|b1 [|b2 [|b3 t3]]]; [done..|]. intros [-> H]%andb_true_iff. by rewrite IH by (cbn; lia || done).
Qed.

(** ** Writing *)

Definition quotation : Z := 34.
Definition backslash : Z := 92.

Definition hex_digit (n : Z) : Z := if n <? 10 then 48 + n else 87 + n.

(** The escape of an ASCII character, if it has one. *)
Definition escape (c : Z) : gostr :=
  if (c =? quotation) || (c =? backslash) then [backslash; c]
  else if c =? 8 then !"\b" else if c =? 12 then !"\f" else if c =? 10 then !"\n"
  else if c =? 13 then !"\r" else if c =? 9 then !"\t"
  else if (c <? 32) || (c =? 60) || (c =? 62) || (c =? 38) then !"\u00" ++ [hex_digit (c / 16); hex_digit (c mod 16)]
  else [c].

(** Three bytes of a rune: the line and paragraph separators are escaped. *)
Definition escape3 (b0 b1 b2 : Z) : gostr :=
  if (b0 =? 226) && (b1 =? 128) && ((b2 =? 168) || (b2 =? 169)) then !"\u202" ++ [hex_digit (b2 - 160)] else [b0; b1; b2].

Definition invalid_rune : gostr := !"\ufffd".

(** The runes of a string; a byte that starts none is written as U+FFFD. *)
Fixpoint quote_body (b : gostr) : gostr :=
  match b with
  | [] => []
  | b0 :: t0 =>
      if b0 <? 128 then escape b0 ++ quote_body t0
      else if b0 <? 194 then invalid_rune ++ quote_body t0
      else if b0 <? 224 then
        match t0 with
        | b1 :: t1 => if utf8_cont b1 then [b0; b1] ++ quote_body t1 else invalid_rune ++ quote_body t0
        | _ => invalid_rune ++ quote_body t0
        end
      else if b0 <? 240 then
        match t0 with
        | b1 :: b2 :: t2 =>
            if ((if b0 =? 224 then 160 else 128) <=? b1) && (b1 <=? (if b0 =? 237 then 159 else 191)) && utf8_cont b2
            then escape3 b0 b1 b2 ++ quote_body t2 else invalid_rune ++ quote_body t0
        | _ => invalid_rune ++ quote_body t0
        end
      else if b0 <? 245 then
        match t0 with
        | b1 :: b2 :: b3 :: t3 =>
            if ((if b0 =? 240 then 144 else 128) <=? b1) && (b1 <=? (if b0 =? 244 then 143 else 191)) &&
               utf8_cont b2 && utf8_cont b3
            then [b0; b1; b2; b3] ++ quote_body t3 else invalid_rune ++ quote_body t0
        | _ => invalid_rune ++ quote_body t0
        end
      else invalid_rune ++ quote_body t0
  end.
Definition quote (s : gostr) : gostr := quotation :: quote_body s ++ [quotation].

Definition comma : Z := 44.
Definition separated (l : list gostr) : gostr :=
  match l with
  | [] => []
  | x :: l => x ++ concat (map (cons comma) l)
  end.

Fixpoint json_print (j : JSON) : gostr :=
  match j with
  | JNull => !"null"
  | JBool b => if b then !"true" else !"false"
  | JNumber n => FormatInt n
  | JReal text => text
  | JString s => quote s
  | JArray l => !"[" ++ separated (map json_print l) ++ !"]"
  | JObject ms => !"{" ++ separated (map (fun m => quote m.1 ++ !":" ++ json_print m.2) ms) ++ !"}"
  end.

(** ** Reading *)

Definition is_space (c : Z) : bool := (c =? 32) || (c =? 9) || (c =? 13) || (c =? 10).
Fixpoint skip_space (s : gostr) : gostr :=
  match s with
  | c :: t => if is_space c then skip_space t else s
  | [] => []
  end.

(** A string up to its closing quotation mark, still with its escapes. *)
Fixpoint scan_string (s : gostr) : option (gostr * gostr) :=
  match s with
  | [] => None
  | c :: t =>
      if c =? quotation then Some ([], t)
      else if c <? 32 then None
      else if c =? backslash then
        match t with
        | [] => None
        | c2 :: t2 => '(raw, rest) ← scan_string t2; Some (c :: c2 :: raw, rest)
        end
      else '(raw, rest) ← scan_string t; Some (c :: raw, rest)
  end.

Definition hex_value (c : Z) : option Z :=
  if (48 <=? c) && (c <=? 57) then Some (c - 48)
  else if (97 <=? c) && (c <=? 102) then Some (c - 87)
  else if (65 <=? c) && (c <=? 70) then Some (c - 55) else None.
Definition hex4 (a b c d : Z) : option Z :=
  a ← hex_value a; b ← hex_value b; c ← hex_value c; d ← hex_value d;
  Some (((a * 16 + b) * 16 + c) * 16 + d).

(** [utf8.AppendRune] *)
Definition encode_rune (r : Z) : gostr :=
  if r <? 128 then [r]
  else if r <? 2048 then [192 + r / 64; 128 + r mod 64]
  else if r <? 65536 then [224 + r / 4096; 128 + r / 64 mod 64; 128 + r mod 64]
  else [240 + r / 262144; 128 + r / 4096 mod 64; 128 + r / 64 mod 64; 128 + r mod 64].

Definition is_high_surrogate (r : Z) : bool := (55296 <=? r) && (r <? 56320).
Definition is_low_surrogate (r : Z) : bool := (56320 <=? r) && (r <? 57344).

Definition unescaped (c : Z) : option Z :=
  if (c =? quotation) || (c =? backslash) || (c =? 47) then Some c
  else if c =? 98 then Some 8 else if c =? 102 then Some 12 else if c =? 110 then Some 10
  else if c =? 114 then Some 13 else if c =? 116 then Some 9 else None.

(** Two escapes of surrogates that form a pair are one rune; a surrogate alone is U+FFFD. *)
Fixpoint unescape (s : gostr) : option gostr :=
  match s with
  | [] => Some []
  | c :: t =>
      if c =? backslash then
        match t with
        | [] => None
        | u :: t1 =>
            if u =? 117 then
              match t1 with
              | a :: b :: c :: d :: t2 =>
                  r ← hex4 a b c d;
                  if is_high_surrogate r then
                    match t2 with
                    | bs :: u2 :: a2 :: b2 :: c2 :: d2 :: t3 =>
                        match (if (bs =? backslash) && (u2 =? 117) then hex4 a2 b2 c2 d2 else None) with
                        | Some r2 =>
                            if is_low_surrogate r2
                            then app (encode_rune (65536 + (r - 55296) * 1024 + (r2 - 56320))) <$> unescape t3
                            else app RuneError <$> unescape t2
                        | None => app RuneError <$> unescape t2
                        end
                    | _ => app RuneError <$> unescape t2
                    end
                  else if is_low_surrogate r then app RuneError <$> unescape t2
                  else app (encode_rune r) <$> unescape t2
              | _ => None
              end
            else x ← unescaped u; cons x <$> unescape t1
        end
      else cons c <$> unescape t
  end.

(** The string behind an opening quotation mark. *)
Definition parse_string (s : gostr) : option (gostr * gostr) :=
  '(raw, rest) ← scan_string s;
  v ← unescape raw;
  Some (utf8_coerce v, rest).

Definition digitb (c : Z) : bool := (48 <=? c) && (c <=? 57).
Fixpoint span_digits (s : gostr) : gostr * gostr :=
  match s with
  | c :: t => if digitb c then let '(ds, rest) := span_digits t in (c :: ds, rest) else ([], s)
  | [] => ([], [])
  end.

(** An optional fraction and exponent: their text. *)
Definition parse_fraction (s : gostr) : option (gostr * gostr) :=
  match s with
  | c :: t =>
      if c =? 46 then match span_digits t with ([], _) => None | (ds, rest) => Some (c :: ds, rest) end
      else Some ([], s)
  | [] => Some ([], [])
  end.
Definition parse_exponent (s : gostr) : option (gostr * gostr) :=
  match s with
  | c :: t =>
      if (c =? 101) || (c =? 69) then
        let '(sign, t) := match t with c2 :: t2 => if (c2 =? 43) || (c2 =? 45) then ([c2], t2) else ([], t) | [] => ([], []) end in
        match span_digits t with ([], _) => None | (ds, rest) => Some (c :: sign ++ ds, rest) end
      else Some ([], s)
  | [] => Some ([], [])
  end.

Definition parse_number (s : gostr) : option (JSON * gostr) :=
  let '(minus, t) := match s with c :: t => if c =? 45 then ([c], t) else ([], s) | [] => ([], []) end in
  let '(ds, rest) := span_digits t in
  if match ds with [] => true | [_] => false | d :: _ => d =? 48 end then None
  else
    '(frac, rest) ← parse_fraction rest;
    '(exp, rest) ← parse_exponent rest;
    match frac, exp with
    | [], [] => Some (JNumber (match minus with [] => digits_value ds | _ => - digits_value ds end), rest)
    | _, _ => Some (JReal (minus ++ ds ++ frac ++ exp), rest)
    end.

Definition literal (text : gostr) (j : JSON) (s : gostr) : option (JSON * gostr) :=
  if str_eqb (take (length text) s) text then Some (j, drop (length text) s) else None.

Definition maxNestingDepth : Z := 10000.

Fixpoint parse_value (fuel : nat) (depth : Z) (s : gostr) : option (JSON * gostr) :=
  match fuel with
  | O => None
  | S fuel =>
      match skip_space s with
      | [] => None
      | c :: t =>
          if c =? 123 then
            if maxNestingDepth <? depth + 1 then None
            else match skip_space t with
              | [] => None
              | c2 :: t2 =>
                  if c2 =? 125 then Some (JObject [], t2)
                  else '(ms, rest) ← parse_members fuel (depth + 1) t; Some (JObject ms, rest)
              end
          else if c =? 91 then
            if maxNestingDepth <? depth + 1 then None
            else match skip_space t with
              | [] => None
              | c2 :: t2 =>
                  if c2 =? 93 then Some (JArray [], t2)
                  else '(l, rest) ← parse_elements fuel (depth + 1) t; Some (JArray l, rest)
              end
          else if c =? quotation then '(v, rest) ← parse_string t; Some (JString v, rest)
          else if c =? 116 then literal !"true" (JBool true) (c :: t)
          else if c =? 102 then literal !"false" (JBool false) (c :: t)
          else if c =? 110 then literal !"null" JNull (c :: t)
          else parse_number (c :: t)
      end
  end
with parse_elements (fuel : nat) (depth : Z) (s : gostr) : option (list JSON * gostr) :=
  match fuel with
  | O => None
  | S fuel =>
      '(v, rest) ← parse_value fuel depth s;
      match skip_space rest with
      | [] => None
      | c :: t =>
          if c =? comma then '(l, rest) ← parse_elements fuel depth t; Some (v :: l, rest)
          else if c =? 93 then Some ([v], t) else None
      end
  end
with parse_members (fuel : nat) (depth : Z) (s : gostr) : option (list (gostr * JSON) * gostr) :=
  match fuel with
  | O => None
  | S fuel =>
      match skip_space s with
      | [] => None
      | c :: t =>
          if negb (c =? quotation) then None
          else
            '(key, rest) ← parse_string t;
            match skip_space rest with
            | [] => None
            | c2 :: t2 =>
                if negb (c2 =? 58) then None
                else
                  '(v, rest) ← parse_value fuel depth t2;
                  match skip_space rest with
                  | [] => None
                  | c3 :: t3 =>
                      if c3 =? comma then '(ms, rest) ← parse_members fuel depth t3; Some ((key, v) :: ms, rest)
                      else if c3 =? 125 then Some ([(key, v)], t3) else None
                  end
            end
      end
  end.

(** Every value and every separator takes a byte of the text, and two calls. *)
Definition json_parse (s : gostr) : option JSON :=
  '(j, rest) ← parse_value (2 * length s + 2) 0 s;
  match skip_space rest with [] => Some j | _ => None end.

Example print_sample :
  json_print (JObject [(!"a<b", JArray [JNumber (-12); JString [34; 7; 226; 128; 168; 195; 169]; JNull]); (!"t", JBool true)])
  = !"{" ++ [34] ++ !"a\u003cb" ++ [34] ++ !":[-12," ++ [34; 92; 34] ++ !"\u0007\u2028" ++ [195; 169; 34] ++ !",null]," ++
    [34; 116; 34] ++ !":true}".
Proof. reflexivity. Qed.
Example parse_sample :
  json_parse (!" { " ++ [34] ++ !"k\ud83d\ude00" ++ [34] ++ !" : [ 1.5e3 , -0, [ ] ] }  ")
  = Some (JObject [([107; 240; 159; 152; 128], JArray [JReal !"1.5e3"; JNumber 0; JArray []])]).
Proof. reflexivity. Qed.

(** ** Texts that are read back

    Integers of 64 bits and strings of UTF-8 bytes. *)

Definition utf8 (s : gostr) : Prop := utf8_Valid s = true /\ bytes_ok s.

Fixpoint text_ok (j : JSON) : Prop :=
  match j with
  | JNull | JBool _ => True
  | JNumber n => - 2 ^ 64 < n < 2 ^ 64
  | JReal _ => False
  | JString s => utf8 s
  | JArray l => foldr (fun j => and (text_ok j)) True l
  | JObject ms => foldr (fun m => and (utf8 m.1 /\ text_ok m.2)) True ms
  end.

Fixpoint json_depth (j : JSON) : nat :=
  match j with
  | JArray l => S (foldr (fun j => Nat.max (json_depth j)) 0%nat l)
  | JObject ms => S (foldr (fun m => Nat.max (json_depth m.2)) 0%nat ms)
  | _ => 0
  end.

Section JSONInd.
Context (P : JSON -> Prop).
Context (Hnull : P JNull) (Hbool : forall b, P (JBool b)) (Hnum : forall n, P (JNumber n)) (Hreal : forall t, P (JReal t)).
Context (Hstr : forall s, P (JString s)) (Harr : forall l, Forall P l -> P (JArray l)).
Context (Hobj : forall ms, Forall (fun m => P m.2) ms -> P (JObject ms)).
Fixpoint JSON_nested_ind (j : JSON) : P j :=
  match j with
  | JNull => Hnull
  | JBool b => Hbool b
  | JNumber n => Hnum n
  | JReal t => Hreal t
  | JString s => Hstr s
  | JArray l => Harr l ((fix all l : Forall P l := match l with [] => Forall_nil_2 _ | j :: l => Forall_cons_2 _ _ _ (JSON_nested_ind j) (all l) end) l)
  | JObject ms => Hobj ms ((fix all ms : Forall (fun m => P m.2) ms := match ms with [] => Forall_nil_2 _ | m :: ms => Forall_cons_2 _ _ _ (JSON_nested_ind m.2) (all ms) end) ms)
  end.
End JSONInd.

(** *** Strings *)

(** [e] is read as the bytes [v], whatever follows. *)
Record reads_as (e v : gostr) : Prop := {
  ra_scan : forall t, scan_string (e ++ t) = ('(raw, rest) ← scan_string t; Some (e ++ raw, rest));
  ra_unescape : forall t, unescape (e ++ t) = (app v <$> unescape t);
}.

Lemma reads_plain c : 32 <= c -> c <> quotation -> c <> backslash -> reads_as [c] [c].
Proof.
  intros H1 H2 H3. apply Z.eqb_neq in H2, H3. assert (H4 : (c <? 32) = false) by (apply Z.ltb_ge; lia).
  split; intros t; cbn; by rewrite ?H2, ?H3, ?H4.
Qed.

Lemma reads_as_app e1 v1 e2 v2 : reads_as e1 v1 -> reads_as e2 v2 -> reads_as (e1 ++ e2) (v1 ++ v2).
Proof.
  intros [H1 H1'] [H2 H2']. split; intros t; rewrite <- app_assoc.
  - rewrite H1, H2. destruct (scan_string t) as [[raw rest]|]; [|done]. cbn. by rewrite <- app_assoc.
  - rewrite H1', H2'. destruct (unescape t); [|done]. cbn. by rewrite <- app_assoc.
Qed.

Lemma reads_high c : 128 <= c -> reads_as [c] [c].
Proof. intros H. apply reads_plain; unfold quotation, backslash; lia. Qed.

Ltac reads_concrete := split; intros t; cbn; [destruct (scan_string t) as [[? ?]|]|destruct (unescape t)].

Lemma reads_escape c : 0 <= c < 128 -> reads_as (escape c) [c].
Proof.
  intros H. assert (exists n, c = Z.of_nat n /\ (n < 128)%nat) as (n & -> & Hn) by (exists (Z.to_nat c); lia). clear H.
  do 128 (destruct n as [|n];
    [match goal with |- reads_as (escape ?c) _ =>
       let e := eval vm_compute in (escape c) in let v := eval vm_compute in c in change (reads_as e [v]) end; by reads_concrete|]). lia.
Qed.

Lemma reads_escape3 b0 b1 b2 : 128 <= b0 -> 128 <= b1 -> 128 <= b2 -> reads_as (escape3 b0 b1 b2) [b0; b1; b2].
Proof.
  intros H0 H1 H2. unfold escape3. destruct (_ && _) eqn:E.
  - apply andb_true_iff in E as [[->%Z.eqb_eq ->%Z.eqb_eq]%andb_true_iff [->%Z.eqb_eq| ->%Z.eqb_eq]%orb_true_iff];
      by reads_concrete.
  - apply (reads_as_app [b0] [b0] [b1; b2] [b1; b2]); [by apply reads_high|].
    apply (reads_as_app [b1] [b1] [b2] [b2]); by apply reads_high.
Qed.

Lemma utf8_cont_ge b : utf8_cont b = true -> 128 <= b.
Proof. unfold utf8_cont. lia. Qed.

Lemma reads_quote s : utf8 s -> reads_as (quote_body s) s.
Proof.
  assert (Hnil : reads_as [] []) by (by reads_concrete).
  unfold utf8. induction s as [s IH] using (induction_ltof1 _ length). unfold ltof in IH. intros [Hv Hb]. revert Hv.
  destruct s as [|b0 t0]; [done|]. apply Forall_cons in Hb as [H0 Hb]. unfold is_u8 in H0. cbn [utf8_Valid quote_body].
  destruct (b0 <? 128) eqn:E0; bool_to_prop.
  { intros Hv. apply (reads_as_app _ [b0]); [apply reads_escape; lia|apply IH; [cbn; lia|done]]. }
  destruct (b0 <? 194) eqn:E1; [done|].
  destruct (b0 <? 224) eqn:E2.
  { destruct t0 as [|b1 t1]; [done|]. apply Forall_cons in Hb as [H1 Hb]. intros [Hc Hv]%andb_true_iff. rewrite Hc.
    apply utf8_cont_ge in Hc. apply (reads_as_app _ [b0; b1]); [|apply IH; [cbn; lia|done]].
    apply (reads_as_app [b0] [b0]); by apply reads_high. }
  destruct (b0 <? 240) eqn:E3.
  { destruct t0 as [|b1 [|b2 t2]]; [done..|]. apply Forall_cons in Hb as [H1 Hb]. apply Forall_cons in Hb as [H2 Hb].
    intros [Hc Hv]%andb_true_iff. rewrite Hc. apply andb_true_iff in Hc as [[Hc1 _]%andb_true_iff Hc2]. apply utf8_cont_ge in Hc2.
    apply (reads_as_app _ [b0; b1; b2]); [|apply IH; [cbn; lia|done]]. apply reads_escape3; [done| |done].
    destruct (b0 =? 224); lia. }
  destruct (b0 <? 245) eqn:E4; [|done].
  destruct t0 as [|b1 [|b2 [|b3 t3]]]; [done..|]. do 3 apply Forall_cons in Hb as [? Hb].
  intros [Hc Hv]%andb_true_iff. rewrite Hc.
  apply andb_true_iff in Hc as [[[Hc1 _]%andb_true_iff Hc2]%andb_true_iff Hc3]. apply utf8_cont_ge in Hc2, Hc3.
  apply (reads_as_app _ [b0; b1; b2; b3]); [|apply IH; [cbn; lia|done]].
  apply (reads_as_app [b0] [b0]); [by apply reads_high|]. apply (reads_as_app [b1] [b1]); [apply reads_high; destruct (b0 =? 240); lia|].
  apply (reads_as_app [b2] [b2]); by apply reads_high.
Qed.

Lemma parse_quote s rest : utf8 s -> parse_string (quote_body s ++ quotation :: rest) = Some (s, rest).
Proof.
  intros Hs. unfold parse_string. rewrite (ra_scan _ _ (reads_quote s Hs)). cbn. rewrite app_nil_r.
  pose proof (ra_unescape _ _ (reads_quote s Hs) []) as E. rewrite app_nil_r in E. rewrite E. cbn. rewrite app_nil_r.
  by rewrite utf8_coerce_valid by apply Hs.
Qed.

(** *** Numbers *)

(** What may follow a number. *)
Definition delimited (rest : gostr) : Prop :=
  match rest with [] => True | c :: _ => digitb c = false /\ c <> 46 /\ c <> 101 /\ c <> 69 end.

Lemma span_digits_app ds rest : Forall is_digit ds -> delimited rest -> span_digits (ds ++ rest) = (ds, rest).
Proof.
  intros Hd Hr. induction Hd as [|c ds Hc _ IH].
  - destruct rest as [|c rest]; [done|]. cbn. destruct Hr as [-> _]. done.
  - cbn. unfold is_digit in Hc. replace (digitb c) with true by (unfold digitb; lia). by rewrite IH.
Qed.

Lemma delimited_end rest : delimited rest -> parse_fraction rest = Some ([], rest) /\ parse_exponent rest = Some ([], rest).
Proof.
  destruct rest as [|c rest]; [done|]. intros (_ & H1%Z.eqb_neq & H2%Z.eqb_neq & H3%Z.eqb_neq). cbn. by rewrite H1, H2, H3.
Qed.

(** Only zero starts with a zero. *)
Lemma format_digits_head fuel n acc :
  0 < n < 10 ^ Z.of_nat (S fuel) -> exists d ds, format_digits fuel n acc = d :: ds /\ d <> 48.
Proof.
  revert n acc. induction fuel as [|fuel IH]; intros n acc Hn.
  - change (10 ^ Z.of_nat 1) with 10 in Hn. cbn. eexists _, _. split; [done|]. rewrite Z.mod_small by lia. lia.
  - cbn [format_digits]. destruct (n <? 10) eqn:E; bool_to_prop.
    + eexists _, _. split; [done|]. rewrite Z.mod_small by lia. lia.
    + rewrite Nat2Z.inj_succ, Z.pow_succ_r in Hn by lia. apply IH.
      split; [apply Z.div_str_pos; lia | apply Z.div_lt_upper_bound; lia].
Qed.

Lemma FormatUint_head n : 0 <= n < 2 ^ 64 ->
  exists d ds, FormatUint n = d :: ds /\ match ds with [] => false | _ => d =? 48 end = false.
Proof.
  intros H. destruct (decide (n = 0)) as [->|Hn]; [by eexists _, _|].
  destruct (format_digits_head 19 n []) as (d & ds & E & Hd); [lia|]. exists d, ds. split; [exact E|].
  destruct ds; [done|lia].
Qed.

Lemma parse_FormatInt n rest : - 2 ^ 64 < n < 2 ^ 64 -> delimited rest -> parse_number (FormatInt n ++ rest) = Some (JNumber n, rest).
Proof.
  intros Hn Hr. destruct (delimited_end rest Hr) as [Hf He].
  assert (Hu : forall m, 0 <= m < 2 ^ 64 -> exists d ds, FormatUint m = d :: ds /\ d <> 45 /\
    span_digits (d :: ds ++ rest) = (d :: ds, rest) /\ digits_value (d :: ds) = m /\
    match (d :: ds) with [] => true | [_] => false | d :: _ => d =? 48 end = false).
  { intros m Hm. destruct (FormatUint_head m Hm) as (d & ds & E & Hd). exists d, ds. pose proof (FormatUint_digit m) as Hds.
    rewrite E in Hds. split_and!; [done| |by apply (span_digits_app (d :: ds))|rewrite <- E; by apply FormatUint_value|].
    - apply Forall_cons in Hds as [? _]. unfold is_digit in *. lia.
    - by destruct ds. }
  unfold FormatInt, parse_number. destruct (n <? 0) eqn:E; bool_to_prop.
  - destruct (Hu (- n)) as (d & ds & -> & _ & Hs & Hv & Hz); [lia|]. cbn [app Z.eqb Pos.eqb]. rewrite Hs, Hz, Hf. cbn [mbind option_bind]. rewrite He. cbn [mbind option_bind].
    rewrite Hv. do 3 f_equal. lia.
  - destruct (Hu n) as (d & ds & -> & Hd%Z.eqb_neq & Hs & Hv & Hz); [lia|]. cbn [app]. rewrite Hd, Hs, Hz, Hf. cbn [mbind option_bind]. rewrite He. cbn [mbind option_bind].
    by rewrite Hv.
Qed.

(** *** Values *)

Lemma FormatInt_head n : - 2 ^ 64 < n < 2 ^ 64 -> exists c t, FormatInt n = c :: t /\ 45 <= c <= 57.
Proof.
  intros H. unfold FormatInt. destruct (n <? 0) eqn:E; bool_to_prop; [by eexists _, _|].
  destruct (FormatUint_head n) as (d & ds & Ed & _); [lia|]. exists d, ds. split; [done|].
  pose proof (FormatUint_digit n) as Hd. rewrite Ed in Hd. apply Forall_cons in Hd as [Hd _]. unfold is_digit in Hd. lia.
Qed.

(** A printed value starts with a character that is neither space nor a closing bracket. *)
Lemma print_head j : text_ok j -> exists c t, json_print j = c :: t /\ is_space c = false /\ c <> 93 /\ c <> 125.
Proof.
  destruct j as [|[]|n|text|s|l|ms]; intros H; try done; try (by eexists _, _).
  destruct (FormatInt_head n H) as (c & t & E & Hc). exists c, t. split; [done|]. unfold is_space. lia.
Qed.

Lemma skip_print j rest : text_ok j -> skip_space (json_print j ++ rest) = json_print j ++ rest.
Proof. intros H. destruct (print_head j H) as (c & t & -> & Hc & _). cbn. by rewrite Hc. Qed.

(** The parser reads back [j], with enough fuel and depth. *)
Definition parsed (j : JSON) : Prop :=
  forall fuel d rest, text_ok j -> Z.of_nat (json_depth j) + d <= maxNestingDepth -> (2 * length (json_print j) < fuel)%nat ->
  delimited rest -> parse_value fuel d (json_print j ++ rest) = Some (j, rest).

Lemma parse_separated l :
  Forall parsed l -> l <> [] -> forall fuel d rest,
  foldr (fun j => and (text_ok j)) True l -> Z.of_nat (foldr (fun j => Nat.max (json_depth j)) 0%nat l) + d <= maxNestingDepth ->
  (2 * length (separated (map json_print l)) + 1 < fuel)%nat ->
  parse_elements fuel d (separated (map json_print l) ++ 93 :: rest) = Some (l, rest).
Proof.
  induction 1 as [|j l Hj Hl IH]; [done|]. intros _ fuel d rest [Hok Hoks] Hd Hf. cbn [foldr] in Hd.
  destruct fuel as [|fuel]; [lia|]. cbn [parse_elements map separated] in *. rewrite length_app in Hf. rewrite <- app_assoc.
  destruct l as [|j2 l].
  - cbn [map concat app]. by rewrite (Hj fuel d (93 :: rest)) by (done || lia).
  - change (concat (map (cons comma) (map json_print (j2 :: l)))) with (comma :: separated (map json_print (j2 :: l))) in *.
    cbn [length] in Hf. rewrite (Hj fuel d) by (done || lia).
    cbn [mbind option_bind app skip_space]. change (is_space comma) with false. cbv iota. rewrite Z.eqb_refl.
    by rewrite (IH ltac:(done) fuel d rest Hoks) by lia.
Qed.

Definition member_text (m : gostr * JSON) : gostr := quote m.1 ++ !":" ++ json_print m.2.

Lemma member_text_app k j rest : member_text (k, j) ++ rest = quotation :: quote_body k ++ quotation :: 58 :: json_print j ++ rest.
Proof. unfold member_text, quote. cbn [fst snd app]. by rewrite <- !app_assoc. Qed.

Lemma parse_separated_members ms :
  Forall (fun m => parsed m.2) ms -> ms <> [] -> forall fuel d rest,
  foldr (fun m => and (utf8 m.1 /\ text_ok m.2)) True ms ->
  Z.of_nat (foldr (fun m => Nat.max (json_depth m.2)) 0%nat ms) + d <= maxNestingDepth ->
  (2 * length (separated (map member_text ms)) + 1 < fuel)%nat ->
  parse_members fuel d (separated (map member_text ms) ++ 125 :: rest) = Some (ms, rest).
Proof.
  induction 1 as [|[k j] ms Hj Hms IH]; [done|]. intros _ fuel d rest [[Hk Hok] Hoks] Hd Hf. cbn [foldr fst snd] in *.
  destruct fuel as [|fuel]; [lia|]. cbn [map separated] in *. rewrite length_app in Hf.
  assert (Hl : (length (json_print j) < length (member_text (k, j)))%nat).
  { unfold member_text, quote. cbn [fst snd]. rewrite !length_app. cbn. lia. }
  rewrite <- app_assoc, member_text_app.
  cbn [parse_members skip_space]. change (is_space quotation) with false. cbv iota. rewrite Z.eqb_refl. cbn [negb].
  rewrite parse_quote by done. cbn [mbind option_bind skip_space]. change (is_space 58) with false. cbv iota. cbn [Z.eqb Pos.eqb negb].
  destruct ms as [|m2 ms].
  - cbn [map concat app]. by rewrite (Hj fuel d (125 :: rest)) by (done || lia).
  - change (concat (map (cons comma) (map member_text (m2 :: ms)))) with (comma :: separated (map member_text (m2 :: ms))) in *.
    cbn [length] in Hf. rewrite (Hj fuel d) by (done || lia).
    cbn [mbind option_bind app skip_space]. change (is_space comma) with false. cbv iota. rewrite Z.eqb_refl.
    by rewrite (IH ltac:(done) fuel d rest Hoks) by lia.
Qed.

(** What a printed list starts with. *)
Lemma separated_head {A} (f : A -> gostr) l rest (P : Z -> Prop) :
  l <> [] -> (forall a, a ∈ l -> exists c t, f a = c :: t /\ is_space c = false /\ P c) ->
  exists c t, separated (map f l) ++ rest = c :: t /\ is_space c = false /\ P c.
Proof.
  destruct l as [|a l]; [done|]. intros _ H. destruct (H a) as (c & t & E & Hc); [left|]. cbn [map separated]. rewrite E.
  by eexists _, _.
Qed.

Lemma foldr_and_elem {A} (P : A -> Prop) l a : foldr (fun a => and (P a)) True l -> a ∈ l -> P a.
Proof. induction l as [|b l IH]; [by intros _ ?%elem_of_nil|]. intros [? ?] [->|?]%elem_of_cons; auto. Qed.

Lemma parse_array l fuel d rest :
  Forall parsed l -> text_ok (JArray l) -> Z.of_nat (json_depth (JArray l)) + d <= maxNestingDepth ->
  (2 * length (json_print (JArray l)) < S fuel)%nat -> parse_value (S fuel) d (json_print (JArray l) ++ rest) = Some (JArray l, rest).
Proof.
  intros Hl Hok Hd Hf. cbn [json_depth] in Hd. assert (E : (maxNestingDepth <? d + 1) = false) by lia.
  cbn [json_print] in *. rewrite <- !app_assoc. cbn [parse_value]. change (!"[") with [91] in *. change (!"]") with [93] in *.
  cbn [app skip_space] in *. change (is_space 91) with false. cbv iota. cbn [Z.eqb Pos.eqb]. cbv iota. rewrite E.
  destruct (decide (l = [])) as [->|Hne]; [done|].
  destruct (separated_head json_print l (93 :: rest) (fun c => c <> 93) Hne) as (c & t & Et & Hc & H93).
  { intros j Hj. destruct (print_head j) as (c & t & ? & ? & ? & _); [exact (foldr_and_elem text_ok l j Hok Hj)|]. eauto. }
  pose proof (parse_separated l Hl Hne fuel (d + 1) rest Hok) as Hp. rewrite Et in *. cbn [skip_space]. rewrite Hc.
  apply Z.eqb_neq in H93. rewrite H93, Hp; [done|lia|]. cbn [length] in Hf. rewrite length_app in Hf. lia.
Qed.

Lemma parse_object ms fuel d rest :
  Forall (fun m => parsed m.2) ms -> text_ok (JObject ms) -> Z.of_nat (json_depth (JObject ms)) + d <= maxNestingDepth ->
  (2 * length (json_print (JObject ms)) < S fuel)%nat -> parse_value (S fuel) d (json_print (JObject ms) ++ rest) = Some (JObject ms, rest).
Proof.
  intros Hl Hok Hd Hf. cbn [json_depth] in Hd. assert (E : (maxNestingDepth <? d + 1) = false) by lia.
  change (json_print (JObject ms)) with ([123] ++ separated (map member_text ms) ++ [125]) in *.
  rewrite <- !app_assoc. cbn [parse_value app skip_space] in *. change (is_space 123) with false. cbv iota. cbn [Z.eqb Pos.eqb]. cbv iota. rewrite E.
  destruct (decide (ms = [])) as [->|Hne]; [done|].
  destruct (separated_head member_text ms (125 :: rest) (fun c => c <> 125) Hne) as (c & t & Et & Hc & H125).
  { intros m _. by eexists _, _. }
  pose proof (parse_separated_members ms Hl Hne fuel (d + 1) rest Hok) as Hp. rewrite Et in *. cbn [skip_space]. rewrite Hc.
  apply Z.eqb_neq in H125. rewrite H125, Hp; [done|lia|]. cbn [length] in Hf. rewrite length_app in Hf. lia.
Qed.

Lemma parse_value_print j : parsed j.
Proof.
  induction j as [|b|n|text|s|l Hl|ms Hms] using JSON_nested_ind; intros fuel d rest Hok Hd Hf Hr; (destruct fuel as [|fuel]; [lia|]).
  - by destruct rest.
  - by destruct b, rest.
  - cbn [parse_value]. rewrite skip_print by done. assert (Hn := parse_FormatInt n rest Hok Hr).
    destruct (FormatInt_head n Hok) as (c & t & E & Hc). cbn [json_print]. rewrite E in *. cbn [app] in *.
    rewrite (proj2 (Z.eqb_neq c 123)), (proj2 (Z.eqb_neq c 91)), (proj2 (Z.eqb_neq c quotation)), (proj2 (Z.eqb_neq c 116)),
      (proj2 (Z.eqb_neq c 102)), (proj2 (Z.eqb_neq c 110)) by (unfold quotation; lia). done.
  - done.
  - cbn [parse_value]. rewrite skip_print by done. cbn [json_print]. unfold quote. cbn [app]. rewrite <- app_assoc. cbn [app].
    cbn [Z.eqb Pos.eqb quotation]. cbv iota. by rewrite parse_quote.
  - by apply parse_array.
  - by apply parse_object.
Qed.

(** The text of a document is read back as the document. *)
Lemma parse_print j : text_ok j -> Z.of_nat (json_depth j) <= maxNestingDepth -> json_parse (json_print j) = Some j.
Proof.
  intros Hok Hd. unfold json_parse. rewrite <- (app_nil_r (json_print j)) at 2.
  rewrite (parse_value_print j _ 0 []) by (done || lia). done.
Qed.
