(* ===== verification/JsonCodec.v ===== *)
(** * Go structs as JSON documents (encoding/json)

    What [json.Marshal] and [json.Unmarshal] do with the structs of the storage
    and auth packages: field names, [omitempty], byte slices in base64, the
    ranges of the integer types, and type errors that are reported after the
    rest of the document has been decoded. *)
From S2P Require Import Prelude Codes Codec Json.

(** ** Base64 ([base64.StdEncoding]) *)

Definition b64_char (i : Z) : Z :=
  if i <? 26 then 65 + i else if i <? 52 then 71 + i else if i <? 62 then i - 4 else if i =? 62 then 43 else 47.

Definition b64_value (c : Z) : option Z :=
  if (65 <=? c) && (c <=? 90) then Some (c - 65)
  else if (97 <=? c) && (c <=? 122) then Some (c - 71)
  else if (48 <=? c) && (c <=? 57) then Some (c + 4)
  else if c =? 43 then Some 62 else if c =? 47 then Some 63 else None.

Definition pad : Z := 61.

Fixpoint b64_encode (b : bytes) : gostr :=
  match b with
  | [] => []
  | [x] => [b64_char (x / 4); b64_char (x mod 4 * 16); pad; pad]
  | [x; y] => [b64_char (x / 4); b64_char (x mod 4 * 16 + y / 16); b64_char (y mod 16 * 4); pad]
  | x :: y :: z :: b =>
      b64_char (x / 4) :: b64_char (x mod 4 * 16 + y / 16) :: b64_char (y mod 16 * 4 + z / 64) ::
      b64_char (z mod 64) :: b64_encode b
  end.

Fixpoint b64_decode (s : gostr) : option bytes :=
  match s with
  | [] => Some []
  | c1 :: c2 :: c3 :: c4 :: s =>
      v1 ← b64_value c1; v2 ← b64_value c2;
      if c3 =? pad then
        if (c4 =? pad) && bool_decide (s = []) then Some [v1 * 4 + v2 / 16] else None
      else
        v3 ← b64_value c3;
        if c4 =? pad then
          if bool_decide (s = []) then Some [v1 * 4 + v2 / 16; v2 mod 16 * 16 + v3 / 4] else None
        else
          v4 ← b64_value c4;
          rest ← b64_decode s;
          Some (v1 * 4 + v2 / 16 :: v2 mod 16 * 16 + v3 / 4 :: v3 mod 4 * 64 + v4 :: rest)
  | _ => None
  end.

(** The decoder passes over line breaks. *)
Definition strip_newlines (s : gostr) : gostr := base.filter (fun c => c <> 10 /\ c <> 13) s.

Lemma b64_value_char i : 0 <= i < 64 -> b64_value (b64_char i) = Some i /\ b64_char i <> pad.
Proof.
  intros H. assert (exists n, i = Z.of_nat n /\ (n < 64)%nat) as (n & -> & Hn) by (exists (Z.to_nat i); lia).
  do 64 (destruct n as [|n]; [by split|]). lia.
Qed.

Lemma b64_roundtrip b : bytes_ok b -> b64_decode (b64_encode b) = Some b.
Proof.
  unfold bytes_ok, is_u8. intros Hb. revert Hb. induction b as [b IH] using (induction_ltof1 _ length). unfold ltof in IH.
  intros Hb. destruct b as [|x [|y [|z b]]]; [done|..]; repeat (apply Forall_cons in Hb as [? Hb]).
  - cbn [b64_encode b64_decode].
    destruct (b64_value_char (x / 4)) as [-> _]; [Z.to_euclidean_division_equations; lia|].
    destruct (b64_value_char (x mod 4 * 16)) as [-> _]; [Z.to_euclidean_division_equations; lia|].
    cbn. do 2 f_equal. Z.to_euclidean_division_equations; lia.
  - cbn [b64_encode b64_decode].
    destruct (b64_value_char (x / 4)) as [-> _]; [Z.to_euclidean_division_equations; lia|].
    destruct (b64_value_char (x mod 4 * 16 + y / 16)) as [-> _]; [Z.to_euclidean_division_equations; lia|].
    destruct (b64_value_char (y mod 16 * 4)) as [E3 N3]; [Z.to_euclidean_division_equations; lia|].
    apply Z.eqb_neq in N3. cbn [mbind option_bind]. rewrite N3, E3. cbn.
    do 2 f_equal; [|f_equal]; Z.to_euclidean_division_equations; lia.
  - cbn [b64_encode b64_decode].
    destruct (b64_value_char (x / 4)) as [-> _]; [Z.to_euclidean_division_equations; lia|].
    destruct (b64_value_char (x mod 4 * 16 + y / 16)) as [-> _]; [Z.to_euclidean_division_equations; lia|].
    destruct (b64_value_char (y mod 16 * 4 + z / 64)) as [E3 N3]; [Z.to_euclidean_division_equations; lia|].
    destruct (b64_value_char (z mod 64)) as [E4 N4]; [Z.to_euclidean_division_equations; lia|].
    apply Z.eqb_neq in N3, N4. cbn [mbind option_bind]. rewrite N3, E3. cbn [mbind option_bind]. rewrite N4, E4.
    rewrite IH by (cbn; lia || done). cbn.
    do 2 f_equal; [|f_equal; [|f_equal]]; Z.to_euclidean_division_equations; lia.
Qed.

(** ** Codecs of values

    [c_dec j a] decodes [j] over the value [a] that is there, and tells whether
    there was a type error; [c_empty] is what [omitempty] tests; [c_depth] bounds
    the nesting of a document. *)

Record Codec (A : Type) := mkCodec {
  c_zero : A;
  c_empty : A -> bool;
  c_enc : A -> JSON;
  c_dec : JSON -> A -> A * bool;
  c_depth : nat;
}.
Arguments c_zero {A}.
Arguments c_empty {A}.
Arguments c_enc {A}.
Arguments c_dec {A}.
Arguments c_depth {A}.

(** A value that survives a round trip, into the zero value of its type. *)
Record storable {A} (c : Codec A) (a : A) : Prop := mkStorable {
  st_dec : c_dec c (c_enc c a) (c_zero c) = (a, false);
  st_empty : c_empty c a = true -> a = c_zero c;
  st_text : text_ok (c_enc c a);
  st_depth : (json_depth (c_enc c a) <= c_depth c)%nat;
}.

Definition number_codec (lo hi : Z) : Codec Z := {|
  c_zero := 0;
  c_empty := fun n => n =? 0;
  c_enc := JNumber;
  c_dec := fun j a => match j with
    | JNumber n => if (lo <=? n) && (n <=? hi) then (n, false) else (a, true)
    | JNull => (a, false)
    | _ => (a, true)
    end;
  c_depth := 0;
|}.
Definition byte_codec := number_codec 0 255.
Definition uint16_codec := number_codec 0 65535.
Definition uint32_codec := number_codec 0 4294967295.
Definition int_codec := number_codec (- 2 ^ 63) (2 ^ 63 - 1).

Definition bool_codec : Codec bool := {|
  c_zero := false;
  c_empty := negb;
  c_enc := JBool;
  c_dec := fun j a => match j with JBool b => (b, false) | JNull => (a, false) | _ => (a, true) end;
  c_depth := 0;
|}.

Definition string_codec : Codec gostr := {|
  c_zero := [];
  c_empty := fun s => bool_decide (s = []);
  c_enc := JString;
  c_dec := fun j a => match j with JString s => (s, false) | JNull => (a, false) | _ => (a, true) end;
  c_depth := 0;
|}.

(** The elements of an array are decoded one by one into fresh values. *)
Definition decode_elements {A} (c : Codec A) (l : list JSON) : list A * bool :=
  let rs := map (fun j => c_dec c j (c_zero c)) l in (rs.*1, existsb snd rs).

Definition slice_codec {A} (c : Codec A) : Codec (list A) := {|
  c_zero := [];
  c_empty := fun l => bool_decide (length l = 0%nat);
  c_enc := fun l => JArray (map (c_enc c) l);
  c_dec := fun j a => match j with
    | JArray l => decode_elements c l
    | JNull => ([], false)
    | _ => (a, true)
    end;
  c_depth := S (c_depth c);
|}.

(** [[]byte]; a [nil] slice is written as [null]. *)
Definition bytes_codec : Codec bytes := {|
  c_zero := [];
  c_empty := fun b => bool_decide (b = []);
  c_enc := fun b => if bool_decide (b = []) then JNull else JString (b64_encode b);
  c_dec := fun j a => match j with
    | JString s => match b64_decode (strip_newlines s) with Some b => (b, false) | None => (a, true) end
    | JArray l => decode_elements byte_codec l
    | JNull => ([], false)
    | _ => (a, true)
    end;
  c_depth := 0;
|}.

(** ** Maps with string keys, written in the order of the keys *)

Fixpoint str_ltb (s t : gostr) : bool :=
  match s, t with
  | _, [] => false
  | [], _ => true
  | x :: s, y :: t => (x <? y) || ((x =? y) && str_ltb s t)
  end.
Definition str_leb (s t : gostr) : bool := negb (str_ltb t s).

Section Maps.
Context {A : Type} (c : Codec A).

Definition key_le (a b : gostr * A) : Prop := str_leb a.1 b.1 = true.
#[export] Instance key_le_dec : RelDecision key_le.
Proof. intros a b. unfold key_le. apply _. Defined.

Definition encode_map (m : gmap gostr A) : JSON :=
  JObject (map (fun kv => (kv.1, c_enc c kv.2)) (merge_sort key_le (map_to_list m))).

(** Every member is decoded into a fresh value and entered. *)
Definition decode_members (ms : list (gostr * JSON)) (m : gmap gostr A) : gmap gostr A * bool :=
  foldl (fun st kj => let '(a, err) := c_dec c kj.2 (c_zero c) in (<[kj.1 := a]> st.1, st.2 || err)) (m, false) ms.

Definition map_codec : Codec (gmap gostr A) := {|
  c_zero := ∅;
  c_empty := fun m => bool_decide (size m = 0%nat);
  c_enc := encode_map;
  c_dec := fun j m => match j with
    | JObject ms => decode_members ms m
    | JNull => (∅, false)
    | _ => (m, true)
    end;
  c_depth := S (c_depth c);
|}.

(** Maps and slices that may be [nil], of fields without [omitempty]: [c_empty] is not asked. *)
Definition nil_map_codec : Codec (option (gmap gostr A)) := {|
  c_zero := None;
  c_empty := fun o => match o with Some _ => false | None => true end;
  c_enc := fun o => match o with Some m => encode_map m | None => JNull end;
  c_dec := fun j o => match j with
    | JObject ms => let '(m, err) := decode_members ms (default ∅ o) in (Some m, err)
    | JNull => (None, false)
    | _ => (o, true)
    end;
  c_depth := S (c_depth c);
|}.
Definition nil_slice_codec : Codec (option (list A)) := {|
  c_zero := None;
  c_empty := fun o => match o with Some _ => false | None => true end;
  c_enc := fun o => match o with Some l => JArray (map (c_enc c) l) | None => JNull end;
  c_dec := fun j o => match j with
    | JArray l => let '(l, err) := decode_elements c l in (Some l, err)
    | JNull => (None, false)
    | _ => (o, true)
    end;
  c_depth := S (c_depth c);
|}.
End Maps.

(** ** Structs *)

Record Field (R : Type) := mkField {
  f_type : Type;
  f_name : gostr;
  f_omitempty : bool;
  f_codec : Codec f_type;
  f_view : R -> f_type;
  f_set : f_type -> R -> R;
}.
Arguments f_type {R}.
Arguments f_name {R}.
Arguments f_omitempty {R}.
Arguments f_codec {R}.
Arguments f_view {R}.
Arguments f_set {R}.
Arguments mkField {R f_type}.

(** Letters in upper case; the long s (U+017F) and the Kelvin sign (U+212A) fold to S and K. *)
Fixpoint fold_name (s : gostr) : gostr :=
  match s with
  | 197 :: 191 :: t => 83 :: fold_name t
  | 226 :: 132 :: 170 :: t => 75 :: fold_name t
  | c :: t => (if (97 <=? c) && (c <=? 122) then c - 32 else c) :: fold_name t
  | [] => []
  end.

Definition utf8b (s : gostr) : bool := utf8_Valid s && forallb (fun c => (0 <=? c) && (c <? 256)) s.

Lemma utf8b_spec s : utf8b s = true -> utf8 s.
Proof.
  intros [Hv Hb]%andb_true_iff. split; [done|]. rewrite forallb_forall in Hb. apply List.Forall_forall. intros c Hc%Hb. unfold is_u8. lia.
Qed.

Module FieldNotations.
Notation "'field' p 'as' n 'with' c" :=
  (mkField n%go false c p (fun a r => r <| p := a |>)) (at level 10, p at level 0, n at level 2, c at level 9, only parsing).
Notation "'field' p 'as' n 'omitempty' 'with' c" :=
  (mkField n%go true c p (fun a r => r <| p := a |>)) (at level 10, p at level 0, n at level 2, c at level 9, only parsing).
End FieldNotations.

Section Struct.
Context {R : Type} (fields : list (Field R)).

Definition member_of (r : R) (f : Field R) : list (gostr * JSON) :=
  if f_omitempty f && c_empty (f_codec f) (f_view f r) then []
  else [(f_name f, c_enc (f_codec f) (f_view f r))].

Definition marshal (r : R) : JSON := JObject (flat_map (member_of r) fields).

(** The field of that name, or else the first whose name differs only in case. *)
Definition find_field (k : gostr) : option (Field R) :=
  match find (fun f => str_eqb (f_name f) k) fields with
  | Some f => Some f
  | None => find (fun f => str_eqb (fold_name (f_name f)) (fold_name k)) fields
  end.

Definition unmarshal_member (st : R * bool) (m : gostr * JSON) : R * bool :=
  match find_field m.1 with
  | None => st
  | Some f => let '(a, err) := c_dec (f_codec f) m.2 (f_view f st.1) in (f_set f a st.1, st.2 || err)
  end.

Definition unmarshal (j : JSON) (r : R) : R * bool :=
  match j with
  | JObject ms => foldl unmarshal_member (r, false) ms
  | JNull => (r, false)
  | _ => (r, true)
  end.

Definition struct_codec (zero : R) : Codec R := {|
  c_zero := zero;
  c_empty := fun _ => false;
  c_enc := marshal;
  c_dec := unmarshal;
  c_depth := S (foldr (fun f => Nat.max (c_depth (f_codec f))) 0%nat fields);
|}.

(** The fields before [rest] have been decoded into [acc]: the next one is. *)
Lemma unmarshal_field f rest r acc :
  find_field (f_name f) = Some f -> storable (f_codec f) (f_view f r) ->
  f_view f acc = c_zero (f_codec f) -> f_set f (f_view f acc) acc = acc ->
  foldl unmarshal_member (acc, false) (flat_map (member_of r) (f :: rest))
  = foldl unmarshal_member (f_set f (f_view f r) acc, false) (flat_map (member_of r) rest).
Proof.
  intros Hf [Hs He _ _] Hz Hset. cbn [flat_map]. rewrite foldl_app. f_equal.
  unfold member_of. destruct (f_omitempty f); cbn [andb].
  - destruct (c_empty _ _) eqn:E.
    + cbn. rewrite (He eq_refl), <- Hz, Hset. done.
    + cbn. unfold unmarshal_member. cbn. by rewrite Hf, Hz, Hs.
  - cbn. unfold unmarshal_member. cbn. by rewrite Hf, Hz, Hs.
Qed.

(** The document of a struct whose fields survive can be written and read. *)
Lemma struct_text r :
  forallb (fun f => utf8b (f_name f)) fields = true -> Forall (fun f => storable (f_codec f) (f_view f r)) fields ->
  text_ok (marshal r) /\ (json_depth (marshal r) <= S (foldr (fun f => Nat.max (c_depth (f_codec f))) 0%nat fields))%nat.
Proof.
  intros Hn Hs. unfold marshal. cbn [text_ok json_depth]. induction Hs as [|f fs Hf _ IH]; [cbn; lia|].
  cbn [forallb] in Hn. apply andb_true_iff in Hn as [Hn Hns]. destruct (IH Hns) as [IH1 IH2]. cbn [flat_map]. unfold member_of at 1 3.
  destruct Hf as [_ _ Ht Hd]. destruct (f_omitempty f && _); cbn [app foldr fst snd]; [split; [done|lia]|].
  split; [split; [split; [by apply utf8b_spec|done]|done]|lia].
Qed.

Lemma struct_storable zero r :
  forallb (fun f => utf8b (f_name f)) fields = true -> Forall (fun f => storable (f_codec f) (f_view f r)) fields ->
  unmarshal (marshal r) zero = (r, false) -> storable (struct_codec zero) r.
Proof. intros Hn Hs Hd. destruct (struct_text r Hn Hs) as [Ht Hl]. by split. Qed.
End Struct.

(** ** Values that survive *)

Create HintDb json discriminated.

Lemma number_storable lo hi n : - 2 ^ 64 < lo -> hi < 2 ^ 64 -> lo <= n <= hi -> storable (number_codec lo hi) n.
Proof.
  intros Hlo Hhi H. split; cbn; [|lia..]. rewrite (proj2 (Z.leb_le lo n)), (proj2 (Z.leb_le n hi)) by lia. done.
Qed.
Lemma byte_storable n : is_u8 n -> storable byte_codec n.
Proof. unfold is_u8. intros. apply number_storable; lia. Qed.
Lemma uint16_storable n : is_u16 n -> storable uint16_codec n.
Proof. unfold is_u16. intros. apply number_storable; lia. Qed.
Lemma uint32_storable n : is_u32 n -> storable uint32_codec n.
Proof. unfold is_u32. intros. apply number_storable; lia. Qed.
Lemma int_storable n : is_i64 n -> storable int_codec n.
Proof. unfold is_i64. intros. apply number_storable; lia. Qed.
Lemma bool_storable b : storable bool_codec b.
Proof. by destruct b. Qed.

Lemma string_storable s : utf8 s -> storable string_codec s.
Proof. intros H. split; cbn; [done|intros ?; by bool_to_prop|done|lia]. Qed.

(** Base64 is ASCII without line breaks. *)
Lemma b64_encode_ascii b : bytes_ok b -> Forall (fun c => 43 <= c < 128) (b64_encode b).
Proof.
  unfold bytes_ok, is_u8. assert (Hc : forall i, 0 <= i < 64 -> 43 <= b64_char i < 128).
  { intros i Hi. unfold b64_char. repeat case_match; lia. }
  induction b as [b IH] using (induction_ltof1 _ length). unfold ltof in IH. intros Hb.
  destruct b as [|x [|y [|z b]]]; [constructor|..]; repeat (apply Forall_cons in Hb as [? Hb]); cbn [b64_encode];
    repeat (apply Forall_cons; split;
      [first [apply Hc; Z.to_euclidean_division_equations; lia | unfold pad; lia]|]); [constructor..|].
  apply IH; [cbn; lia|done].
Qed.

Lemma ascii_utf8 s : Forall (fun c => 0 <= c < 128) s -> utf8 s.
Proof.
  intros H. split.
  - induction H as [|c s Hc _ IH]; [done|]. cbn. by replace (c <? 128) with true by lia.
  - eapply Forall_impl; [exact H|]. unfold is_u8. intros; cbn in *; lia.
Qed.

Lemma strip_b64 b : bytes_ok b -> strip_newlines (b64_encode b) = b64_encode b.
Proof.
  intros H%b64_encode_ascii. unfold strip_newlines. induction H as [|c s Hc _ IH]; [done|].
  rewrite filter_cons_True by lia. by f_equal.
Qed.

Lemma bytes_storable b : bytes_ok b -> storable bytes_codec b.
Proof.
  intros H. split; cbn; [|intros ?; by bool_to_prop|..]; case_bool_decide as E; try done; try (cbn; lia).
  - by subst.
  - by rewrite strip_b64, b64_roundtrip.
  - apply ascii_utf8. eapply Forall_impl; [by apply b64_encode_ascii|]. intros; cbn in *; lia.
Qed.

Lemma slice_storable {A} (c : Codec A) l : Forall (storable c) l -> storable (slice_codec c) l.
Proof.
  intros H. split; cbn [slice_codec c_dec c_enc c_zero c_empty c_depth text_ok json_depth].
  - unfold decode_elements. rewrite map_map. induction H as [|a l [Ha _ _ _] _ IH]; [done|].
    cbn. rewrite Ha. cbn. injection IH as -> ->. done.
  - intros ?; bool_to_prop; by destruct l.
  - induction H as [|a l [_ _ Ha _] _ IH]; [done|]. by split.
  - apply le_n_S. induction H as [|a l [_ _ _ Ha] _ IH]; cbn; lia.
Qed.

Lemma decode_members_spec {A} (c : Codec A) (l : list (gostr * A)) m :
  Forall (fun kv => storable c kv.2) l -> NoDup l.*1 -> (forall k, k ∈ l.*1 -> m !! k = None) ->
  decode_members c (map (fun kv => (kv.1, c_enc c kv.2)) l) m = (list_to_map l ∪ m, false).
Proof.
  unfold decode_members. intros Hs. revert m. induction Hs as [|[k a] l [Ha _ _ _] _ IH]; intros m Hnd Hm.
  { cbn. by rewrite map_empty_union. }
  cbn [fmap list_fmap fst] in Hnd. apply NoDup_cons in Hnd as [Hk Hnd]. cbn [map foldl fst snd] in *. rewrite Ha. cbn [fst snd orb].
  rewrite IH; [|done|].
  - cbn [list_to_map foldr fst snd]. rewrite <- insert_union_l, insert_union_r; [done|]. by apply not_elem_of_list_to_map_1.
  - intros k' Hk'. rewrite lookup_insert_ne by (intros ->; done). apply Hm. by right.
Qed.

Lemma map_members {A} (c : Codec A) (m : gmap gostr A) :
  map_Forall (fun k a => utf8 k /\ storable c a) m ->
  (exists l, encode_map c m = JObject l /\ decode_members c l ∅ = (m, false)) /\
  text_ok (encode_map c m) /\ (json_depth (encode_map c m) <= S (c_depth c))%nat.
Proof.
  intros Hm. unfold encode_map. set (l := merge_sort _ _).
  assert (Hp : l ≡ₚ map_to_list m) by apply merge_sort_Permutation.
  assert (Hl : Forall (fun kv => utf8 kv.1 /\ storable c kv.2) l).
  { rewrite Hp. apply map_Forall_to_list in Hm. eapply Forall_impl; [exact Hm|]. by intros [k a]. }
  assert (Hnd : NoDup l.*1) by (rewrite Hp; apply NoDup_fst_map_to_list). split_and!.
  - eexists. split; [done|]. rewrite decode_members_spec; [|eapply Forall_impl; [exact Hl|by intros ? []]|done|by intros; rewrite lookup_empty].
    rewrite map_union_empty. f_equal. rewrite (list_to_map_proper l (map_to_list m)) by done. apply list_to_map_to_list.
  - clear -Hl. cbn [text_ok]. induction Hl as [|[k a] l [Hk [_ _ Ha _]] _ IH]; [done|]. by cbn.
  - clear -Hl. cbn [json_depth]. apply le_n_S. induction Hl as [|[k a] l [Hk [_ _ _ Ha]] _ IH]; cbn in *; lia.
Qed.

Lemma map_storable {A} (c : Codec A) m : map_Forall (fun k a => utf8 k /\ storable c a) m -> storable (map_codec c) m.
Proof.
  intros Hm. destruct (map_members c m Hm) as ((l & El & Ed) & Ht & Hd). split; cbn [map_codec c_dec c_enc c_zero c_empty]; [by rewrite El| |done..].
  intros ?. bool_to_prop. by apply map_size_empty_iff.
Qed.

Lemma nil_map_storable {A} (c : Codec A) o :
  match o with Some m => map_Forall (fun k a => utf8 k /\ storable c a) m | None => True end -> storable (nil_map_codec c) o.
Proof.
  destruct o as [m|]; [|by split; cbn; [|..|lia]]. intros Hm. destruct (map_members c m Hm) as ((l & El & Ed) & Ht & Hd).
  split; cbn [nil_map_codec c_dec c_enc c_zero c_empty default]; [rewrite El; cbn [id]; by rewrite Ed|done..].
Qed.

Lemma nil_slice_storable {A} (c : Codec A) o :
  match o with Some l => Forall (storable c) l | None => True end -> storable (nil_slice_codec c) o.
Proof.
  destruct o as [l|]; [|by split; cbn; [|..|lia]]. intros [Hd _ Ht Hl]%slice_storable.
  split; cbn [nil_slice_codec slice_codec c_dec c_enc c_zero c_empty c_depth] in *; [|done..]. by rewrite Hd.
Qed.

#[export] Hint Resolve byte_storable uint16_storable uint32_storable int_storable bool_storable
  string_storable bytes_storable slice_storable : json.
