(* ===== verification/Storage.v ===== *)
(** * Documents of the persistent store (hooks/storage/storage.go)

    The records that the storage hooks write, with the names and options of
    their json tags, and the conversion of a stored message to a packet. The
    theorem of the file is the round trip of every document. *)
From S2P Require Import Prelude Codes Codec FixedHeader Properties PropertiesFacts Packets System Clients Json JsonCodec.

(** Keys that denote the kinds of documents. *)
Definition SubscriptionKey : gostr := !"SUB".
Definition SysInfoKey : gostr := !"SYS".
Definition RetainedKey : gostr := !"RET".
Definition InflightKey : gostr := !"IFM".
Definition ClientKey : gostr := !"CL".

(** ** Clients *)

Record storage_ClientProperties := mkStorageClientProperties {
  scp_AuthenticationData : bytes;
  scp_User : list UserProperty;
  scp_AuthenticationMethod : gostr;
  scp_SessionExpiryInterval : Z;
  scp_MaximumPacketSize : Z;
  scp_ReceiveMaximum : Z;
  scp_TopicAliasMaximum : Z;
  scp_SessionExpiryIntervalFlag : bool;
  scp_RequestProblemInfo : Z;
  scp_RequestProblemInfoFlag : bool;
  scp_RequestResponseInfo : Z;
}.
Definition storage_ClientProperties0 := mkStorageClientProperties [] [] [] 0 0 0 0 false 0 false 0.

(** [ClientWill] has the fields of [mqtt.Will], to and from which it is converted. *)
Definition storage_ClientWill : Type := Will.

Record storage_Client := mkStorageClient {
  sc_Will : storage_ClientWill;
  sc_Properties : storage_ClientProperties;
  sc_Username : bytes;
  sc_ID : gostr;
  sc_T : gostr;
  sc_Remote : gostr;
  sc_Listener : gostr;
  sc_ProtocolVersion : Z;
  sc_Clean : bool;
}.
Definition storage_Client0 := mkStorageClient Will0 storage_ClientProperties0 [] [] [] [] [] 0 false.

(** ** Messages *)

Record storage_MessageProperties := mkStorageMessageProperties {
  smp_CorrelationData : bytes;
  smp_SubscriptionIdentifier : list Z;
  smp_User : list UserProperty;
  smp_ContentType : gostr;
  smp_ResponseTopic : gostr;
  smp_MessageExpiryInterval : Z;
  smp_TopicAlias : Z;
  smp_PayloadFormat : Z;
  smp_PayloadFormatFlag : bool;
}.
Definition storage_MessageProperties0 := mkStorageMessageProperties [] [] [] [] [] 0 0 0 false.

Record storage_Message := mkStorageMessage {
  sm_Properties : storage_MessageProperties;
  sm_Payload : bytes;
  sm_T : gostr;
  sm_ID : gostr;
  sm_Client : gostr;
  sm_Origin : gostr;
  sm_TopicName : gostr;
  sm_FixedHeader : FixedHeader;
  sm_Created : Z;
  sm_Sent : Z;
  sm_PacketID : Z;
}.
Definition storage_Message0 := mkStorageMessage storage_MessageProperties0 [] [] [] [] [] [] FixedHeader0 0 0 0.

Definition ToPacket (d : storage_Message) : Packet :=
  let pk := Packet0
    <| pk_FixedHeader := sm_FixedHeader d |>
    <| pk_PacketID := sm_PacketID d |>
    <| pk_TopicName := sm_TopicName d |>
    <| pk_Payload := sm_Payload d |>
    <| pk_Origin := sm_Origin d |>
    <| pk_Created := sm_Created d |>
    <| pk_Properties := Properties0
      <| pr_PayloadFormat := smp_PayloadFormat (sm_Properties d) |>
      <| pr_PayloadFormatFlag := smp_PayloadFormatFlag (sm_Properties d) |>
      <| pr_MessageExpiryInterval := smp_MessageExpiryInterval (sm_Properties d) |>
      <| pr_ContentType := smp_ContentType (sm_Properties d) |>
      <| pr_ResponseTopic := smp_ResponseTopic (sm_Properties d) |>
      <| pr_CorrelationData := smp_CorrelationData (sm_Properties d) |>
      <| pr_SubscriptionIdentifier := smp_SubscriptionIdentifier (sm_Properties d) |>
      <| pr_TopicAlias := smp_TopicAlias (sm_Properties d) |>
      <| pr_User := smp_User (sm_Properties d) |> |> in
  (Packet_Copy pk true) <| pk_FixedHeader ::= fun fh => fh <| fh_Dup := fh_Dup (sm_FixedHeader d) |> |>.

(** ** Subscriptions and system information *)

Record storage_Subscription := mkStorageSubscription {
  ss_T : gostr;
  ss_ID : gostr;
  ss_Client : gostr;
  ss_Filter : gostr;
  ss_Identifier : Z;
  ss_RetainHandling : Z;
  ss_Qos : Z;
  ss_RetainAsPublished : bool;
  ss_NoLocal : bool;
}.
Definition storage_Subscription0 := mkStorageSubscription [] [] [] [] 0 0 0 false false.

Record storage_SystemInfo := mkStorageSystemInfo {
  si_Info : Info;
  si_T : gostr;
  si_ID : gostr;
}.
Definition storage_SystemInfo0 := mkStorageSystemInfo Info0 [] [].

(** ** Their json fields *)

Import FieldNotations.

Definition UserProperty_fields : list (Field UserProperty) := [
  field up_Key as !"k" with string_codec;
  field up_Val as !"v" with string_codec ].
Definition UserProperty_codec := struct_codec UserProperty_fields (mkUserProperty [] []).

Definition ClientProperties_fields : list (Field storage_ClientProperties) := [
  field scp_AuthenticationData as !"authenticationData" omitempty with bytes_codec;
  field scp_User as !"user" omitempty with (slice_codec UserProperty_codec);
  field scp_AuthenticationMethod as !"authenticationMethod" omitempty with string_codec;
  field scp_SessionExpiryInterval as !"sessionExpiryInterval" omitempty with uint32_codec;
  field scp_MaximumPacketSize as !"maximumPacketSize" omitempty with uint32_codec;
  field scp_ReceiveMaximum as !"receiveMaximum" omitempty with uint16_codec;
  field scp_TopicAliasMaximum as !"topicAliasMaximum" omitempty with uint16_codec;
  field scp_SessionExpiryIntervalFlag as !"sessionExpiryIntervalFlag" omitempty with bool_codec;
  field scp_RequestProblemInfo as !"requestProblemInfo" omitempty with byte_codec;
  field scp_RequestProblemInfoFlag as !"requestProblemInfoFlag" omitempty with bool_codec;
  field scp_RequestResponseInfo as !"requestResponseInfo" omitempty with byte_codec ].

Definition ClientWill_fields : list (Field storage_ClientWill) := [
  field wi_Payload as !"payload" omitempty with bytes_codec;
  field wi_User as !"user" omitempty with (slice_codec UserProperty_codec);
  field wi_TopicName as !"topicName" omitempty with string_codec;
  field wi_Flag as !"flag" omitempty with uint32_codec;
  field wi_WillDelayInterval as !"willDelayInterval" omitempty with uint32_codec;
  field wi_Qos as !"qos" omitempty with byte_codec;
  field wi_Retain as !"retain" omitempty with bool_codec ].

Definition Client_fields : list (Field storage_Client) := [
  field sc_Will as !"will" with (struct_codec ClientWill_fields Will0);
  field sc_Properties as !"properties" with (struct_codec ClientProperties_fields storage_ClientProperties0);
  field sc_Username as !"username" with bytes_codec;
  field sc_ID as !"id" with string_codec;
  field sc_T as !"t" with string_codec;
  field sc_Remote as !"remote" with string_codec;
  field sc_Listener as !"listener" with string_codec;
  field sc_ProtocolVersion as !"protocolVersion" with byte_codec;
  field sc_Clean as !"clean" with bool_codec ].

Definition MessageProperties_fields : list (Field storage_MessageProperties) := [
  field smp_CorrelationData as !"correlationData" omitempty with bytes_codec;
  field smp_SubscriptionIdentifier as !"subscriptionIdentifier" omitempty with (slice_codec int_codec);
  field smp_User as !"user" omitempty with (slice_codec UserProperty_codec);
  field smp_ContentType as !"contentType" omitempty with string_codec;
  field smp_ResponseTopic as !"responseTopic" omitempty with string_codec;
  field smp_MessageExpiryInterval as !"messageExpiry" omitempty with uint32_codec;
  field smp_TopicAlias as !"topicAlias" omitempty with uint16_codec;
  field smp_PayloadFormat as !"payloadFormat" omitempty with byte_codec;
  field smp_PayloadFormatFlag as !"payloadFormatFlag" omitempty with bool_codec ].

Definition FixedHeader_fields : list (Field FixedHeader) := [
  field fh_Remaining as !"remaining" with int_codec;
  field fh_Type as !"type" with byte_codec;
  field fh_Qos as !"qos" with byte_codec;
  field fh_Dup as !"dup" with bool_codec;
  field fh_Retain as !"retain" with bool_codec ].

Definition Message_fields : list (Field storage_Message) := [
  field sm_Properties as !"properties" with (struct_codec MessageProperties_fields storage_MessageProperties0);
  field sm_Payload as !"payload" with bytes_codec;
  field sm_T as !"t" omitempty with string_codec;
  field sm_ID as !"id" omitempty with string_codec;
  field sm_Client as !"client" omitempty with string_codec;
  field sm_Origin as !"origin" omitempty with string_codec;
  field sm_TopicName as !"topic_name" omitempty with string_codec;
  field sm_FixedHeader as !"fixedheader" with (struct_codec FixedHeader_fields FixedHeader0);
  field sm_Created as !"created" omitempty with int_codec;
  field sm_Sent as !"sent" omitempty with int_codec;
  field sm_PacketID as !"packet_id" omitempty with uint16_codec ].

Definition Subscription_fields : list (Field storage_Subscription) := [
  field ss_T as !"t" omitempty with string_codec;
  field ss_ID as !"id" omitempty with string_codec;
  field ss_Client as !"client" omitempty with string_codec;
  field ss_Filter as !"filter" with string_codec;
  field ss_Identifier as !"identifier" omitempty with int_codec;
  field ss_RetainHandling as !"retain_handling" omitempty with byte_codec;
  field ss_Qos as !"qos" with byte_codec;
  field ss_RetainAsPublished as !"retain_as_pub" omitempty with bool_codec;
  field ss_NoLocal as !"no_local" omitempty with bool_codec ].

(** The fields of the embedded [system.Info] are fields of the document. *)
#[local] Notation "'info' p 'as' n 'with' c" :=
  (mkField n%go false c (fun r => p (si_Info r)) (fun a r => r <| si_Info ::= fun i => i <| p := a |> |>))
  (at level 10, p at level 0, n at level 2, c at level 9, only parsing).

Definition SystemInfo_fields : list (Field storage_SystemInfo) := [
  info in_Version as !"version" with string_codec;
  info in_Started as !"started" with int_codec;
  info in_Time as !"time" with int_codec;
  info in_Uptime as !"uptime" with int_codec;
  info in_BytesReceived as !"bytes_received" with int_codec;
  info in_BytesSent as !"bytes_sent" with int_codec;
  info in_ClientsConnected as !"clients_connected" with int_codec;
  info in_ClientsDisconnected as !"clients_disconnected" with int_codec;
  info in_ClientsMaximum as !"clients_maximum" with int_codec;
  info in_ClientsTotal as !"clients_total" with int_codec;
  info in_MessagesReceived as !"messages_received" with int_codec;
  info in_MessagesSent as !"messages_sent" with int_codec;
  info in_MessagesDropped as !"messages_dropped" with int_codec;
  info in_Retained as !"retained" with int_codec;
  info in_Inflight as !"inflight" with int_codec;
  info in_InflightDropped as !"inflight_dropped" with int_codec;
  info in_Subscriptions as !"subscriptions" with int_codec;
  info in_PacketsReceived as !"packets_received" with int_codec;
  info in_PacketsSent as !"packets_sent" with int_codec;
  info in_MemoryAlloc as !"memory_alloc" with int_codec;
  info in_Threads as !"threads" with int_codec;
  field si_T as !"t" with string_codec;
  field si_ID as !"id" with string_codec ].

(** ** MarshalBinary and UnmarshalBinary *)

Notation Data := gostr (only parsing).

(** One instance for each type with [MarshalBinary] and [UnmarshalBinary]. *)
Class Serializable (A : Type) := {
  s_codec : Codec A;
  s_shallow : (c_depth s_codec <= 100)%nat;
}.
Ltac serializable c := refine {| s_codec := c |}; apply Nat.leb_le; reflexivity.
#[export] Instance Client_serializable : Serializable storage_Client.
Proof. serializable (struct_codec Client_fields storage_Client0). Defined.
#[export] Instance Message_serializable : Serializable storage_Message.
Proof. serializable (struct_codec Message_fields storage_Message0). Defined.
#[export] Instance Subscription_serializable : Serializable storage_Subscription.
Proof. serializable (struct_codec Subscription_fields storage_Subscription0). Defined.
#[export] Instance SystemInfo_serializable : Serializable storage_SystemInfo.
Proof. serializable (struct_codec SystemInfo_fields storage_SystemInfo0). Defined.

Section Binary.
Context {A : Type} `{Serializable A}.

Definition MarshalBinary (d : A) : Data := json_print (c_enc s_codec d).

(** The value afterwards and the error. *)
Definition UnmarshalBinary (data : Data) (d : A) : A * option error :=
  match data with
  | [] => (d, None)
  | _ =>
      match json_parse data with
      | None => (d, Some EJSON)
      | Some j => let '(d, err) := c_dec s_codec j d in (d, if err then Some EJSON else None)
      end
  end.
End Binary.

(** ** What a document keeps: values of the Go types, with strings in UTF-8 *)

Definition user_storable (u : UserProperty) : Prop := utf8 (up_Key u) /\ utf8 (up_Val u).

Definition will_storable (w : storage_ClientWill) : Prop :=
  bytes_ok (wi_Payload w) /\ Forall user_storable (wi_User w) /\ utf8 (wi_TopicName w) /\ is_u32 (wi_Flag w) /\
  is_u32 (wi_WillDelayInterval w) /\ is_u8 (wi_Qos w).

Definition client_props_storable (p : storage_ClientProperties) : Prop :=
  bytes_ok (scp_AuthenticationData p) /\ Forall user_storable (scp_User p) /\ utf8 (scp_AuthenticationMethod p) /\
  is_u32 (scp_SessionExpiryInterval p) /\ is_u32 (scp_MaximumPacketSize p) /\ is_u16 (scp_ReceiveMaximum p) /\
  is_u16 (scp_TopicAliasMaximum p) /\ is_u8 (scp_RequestProblemInfo p) /\ is_u8 (scp_RequestResponseInfo p).

Definition client_storable (c : storage_Client) : Prop :=
  will_storable (sc_Will c) /\ client_props_storable (sc_Properties c) /\ bytes_ok (sc_Username c) /\ utf8 (sc_ID c) /\
  utf8 (sc_T c) /\ utf8 (sc_Remote c) /\ utf8 (sc_Listener c) /\ is_u8 (sc_ProtocolVersion c).

Definition message_props_storable (p : storage_MessageProperties) : Prop :=
  bytes_ok (smp_CorrelationData p) /\ Forall is_i64 (smp_SubscriptionIdentifier p) /\ Forall user_storable (smp_User p) /\
  utf8 (smp_ContentType p) /\ utf8 (smp_ResponseTopic p) /\ is_u32 (smp_MessageExpiryInterval p) /\
  is_u16 (smp_TopicAlias p) /\ is_u8 (smp_PayloadFormat p).

Definition header_storable (fh : FixedHeader) : Prop := is_i64 (fh_Remaining fh) /\ is_u8 (fh_Type fh) /\ is_u8 (fh_Qos fh).

Definition message_storable (m : storage_Message) : Prop :=
  message_props_storable (sm_Properties m) /\ bytes_ok (sm_Payload m) /\ utf8 (sm_T m) /\ utf8 (sm_ID m) /\
  utf8 (sm_Client m) /\ utf8 (sm_Origin m) /\ utf8 (sm_TopicName m) /\ header_storable (sm_FixedHeader m) /\
  is_i64 (sm_Created m) /\ is_i64 (sm_Sent m) /\ is_u16 (sm_PacketID m).

Definition subscription_storable (s : storage_Subscription) : Prop :=
  utf8 (ss_T s) /\ utf8 (ss_ID s) /\ utf8 (ss_Client s) /\ utf8 (ss_Filter s) /\ is_i64 (ss_Identifier s) /\
  is_u8 (ss_RetainHandling s) /\ is_u8 (ss_Qos s).

Definition info_storable (i : Info) : Prop :=
  utf8 (in_Version i) /\
  Forall (fun f => is_i64 (f i)) [in_Started; in_Time; in_Uptime; in_BytesReceived; in_BytesSent; in_ClientsConnected;
    in_ClientsDisconnected; in_ClientsMaximum; in_ClientsTotal; in_MessagesReceived; in_MessagesSent; in_MessagesDropped;
    in_Retained; in_Inflight; in_InflightDropped; in_Subscriptions; in_PacketsReceived; in_PacketsSent; in_MemoryAlloc; in_Threads].

Definition sysinfo_storable (s : storage_SystemInfo) : Prop :=
  info_storable (si_Info s) /\ utf8 (si_T s) /\ utf8 (si_ID s).

(** Decodes a struct field by field; each field is storable by its hypothesis. *)
Ltac struct_roundtrip :=
  apply struct_storable; [reflexivity|repeat (constructor; [solve [eauto 6 with json]|]); constructor|];
  unfold marshal, unmarshal;
  repeat (etransitivity; [eapply unmarshal_field; [reflexivity|solve [eauto 6 with json]|reflexivity|reflexivity]|]);
  reflexivity.

Lemma user_codec_ok u : user_storable u -> storable UserProperty_codec u.
Proof. intros [? ?]. struct_roundtrip. Qed.

Lemma users_codec_ok l : Forall user_storable l -> storable (slice_codec UserProperty_codec) l.
Proof. intros H. apply slice_storable. eapply Forall_impl; [exact H|]. apply user_codec_ok. Qed.

Lemma ints_codec_ok l : Forall is_i64 l -> storable (slice_codec int_codec) l.
Proof. intros H. apply slice_storable. eapply Forall_impl; [exact H|]. apply int_storable. Qed.

#[export] Hint Resolve users_codec_ok ints_codec_ok : json.

Lemma will_codec_ok w : will_storable w -> storable (struct_codec ClientWill_fields Will0) w.
Proof. intros (? & ? & ? & ? & ? & ?). struct_roundtrip. Qed.

Lemma client_props_codec_ok p :
  client_props_storable p -> storable (struct_codec ClientProperties_fields storage_ClientProperties0) p.
Proof. intros (? & ? & ? & ? & ? & ? & ? & ? & ?). struct_roundtrip. Qed.

Lemma message_props_codec_ok p :
  message_props_storable p -> storable (struct_codec MessageProperties_fields storage_MessageProperties0) p.
Proof. intros (? & ? & ? & ? & ? & ? & ? & ?). struct_roundtrip. Qed.

Lemma header_codec_ok fh : header_storable fh -> storable (struct_codec FixedHeader_fields FixedHeader0) fh.
Proof. intros (? & ? & ?). struct_roundtrip. Qed.

#[export] Hint Resolve will_codec_ok client_props_codec_ok message_props_codec_ok header_codec_ok : json.

Lemma client_codec_ok c : client_storable c -> storable (s_codec (A := storage_Client)) c.
Proof. intros (? & ? & ? & ? & ? & ? & ? & ?). struct_roundtrip. Qed.

Lemma message_codec_ok m : message_storable m -> storable (s_codec (A := storage_Message)) m.
Proof. intros (? & ? & ? & ? & ? & ? & ? & ? & ? & ? & ?). struct_roundtrip. Qed.

Lemma subscription_codec_ok s : subscription_storable s -> storable (s_codec (A := storage_Subscription)) s.
Proof. intros (? & ? & ? & ? & ? & ? & ?). struct_roundtrip. Qed.

Lemma sysinfo_codec_ok s : sysinfo_storable s -> storable (s_codec (A := storage_SystemInfo)) s.
Proof.
  intros ((? & Hi) & ? & ?). repeat (apply Forall_cons in Hi as [? Hi]). struct_roundtrip.
Qed.

Lemma binary_roundtrip {A} `{Serializable A} (a : A) :
  storable s_codec a -> UnmarshalBinary (MarshalBinary a) (c_zero s_codec) = (a, None).
Proof.
  intros [E _ Ht Hd]. pose proof s_shallow. unfold UnmarshalBinary, MarshalBinary.
  destruct (print_head _ Ht) as (c & t & Ec & _). rewrite parse_print by (done || (unfold maxNestingDepth; lia)). by rewrite Ec, E.
Qed.

(** C31: a client, a message, a subscription and the system information that
    are written to the store as json documents are read back unchanged, with no
    error: every field of every record is in its document, under the [omitempty]
    rules too. The values must be in the ranges of their Go types and the
    strings in UTF-8, as every string of a decoded packet is. *)
Theorem documents_roundtrip :
  (forall c, client_storable c -> UnmarshalBinary (MarshalBinary c) storage_Client0 = (c, None)) /\
  (forall m, message_storable m -> UnmarshalBinary (MarshalBinary m) storage_Message0 = (m, None)) /\
  (forall s, subscription_storable s -> UnmarshalBinary (MarshalBinary s) storage_Subscription0 = (s, None)) /\
  (forall i, sysinfo_storable i -> UnmarshalBinary (MarshalBinary i) storage_SystemInfo0 = (i, None)).
Proof.
  split_and!; intros a H.
  - exact (binary_roundtrip a (client_codec_ok a H)).
  - exact (binary_roundtrip a (message_codec_ok a H)).
  - exact (binary_roundtrip a (subscription_codec_ok a H)).
  - exact (binary_roundtrip a (sysinfo_codec_ok a H)).
Qed.

(** A client with a will and a user property, and a retained message. *)
Definition example_stored_client : storage_Client := {|
  sc_Will := Will0 <| wi_Payload := [0; 255; 7; 200] |> <| wi_TopicName := !"last/will" |> <| wi_Flag := 1 |> <| wi_Qos := 1 |>;
  sc_Properties := storage_ClientProperties0
    <| scp_SessionExpiryInterval := 3600 |> <| scp_User := [mkUserProperty !"os" [195; 169]] |>;
  sc_Username := !"zen"; sc_ID := !"c1"; sc_T := ClientKey; sc_Remote := !"10.0.0.1:99"; sc_Listener := !"t1";
  sc_ProtocolVersion := 5; sc_Clean := false |}.
Definition example_stored_message : storage_Message := storage_Message0
  <| sm_T := RetainedKey |> <| sm_TopicName := !"a/b" |> <| sm_Payload := [1; 2; 3; 4; 5] |> <| sm_Created := 1700000000 |>
  <| sm_FixedHeader := mkFixedHeader 9 3 1 false true |>
  <| sm_Properties := storage_MessageProperties0 <| smp_SubscriptionIdentifier := [7; 9] |> |>.

Lemma documents_roundtrip_witness :
  UnmarshalBinary (MarshalBinary example_stored_client) storage_Client0 = (example_stored_client, None) /\
  UnmarshalBinary (MarshalBinary example_stored_message) storage_Message0 = (example_stored_message, None) /\
  UnmarshalBinary (MarshalBinary (mkStorageSubscription SubscriptionKey !"SUB_c1:a/+" !"c1" !"a/+" 4 1 2 true false))
    storage_Subscription0 = (mkStorageSubscription SubscriptionKey !"SUB_c1:a/+" !"c1" !"a/+" 4 1 2 true false, None) /\
  UnmarshalBinary (MarshalBinary (mkStorageSystemInfo (Info0 <| in_Retained := 3 |>) SysInfoKey SysInfoKey))
    storage_SystemInfo0 = (mkStorageSystemInfo (Info0 <| in_Retained := 3 |>) SysInfoKey SysInfoKey, None).
Proof.
  destruct documents_roundtrip as (Hc & Hm & Hs & Hi).
  split_and!; [apply Hc | apply Hm | apply Hs | apply Hi];
    repeat match goal with
    | |- _ /\ _ => split
    | |- Forall _ _ => constructor
    | |- _ => reflexivity
    | |- _ => progress (unfold is_u8, is_u16, is_u32, is_i64; cbn; lia)
    | |- _ => red
    end.
Defined.
