(* ===== verification/HookChain.v ===== *)
(** * The hooks of a server (hooks.go; server.go, AddHook)

    A hook is an object with the methods of the [Hook] interface; its methods
    act on a state [W] that all hooks share a part of, and may panic; an [Err]
    is the error of a method that returns one.
    [Hooks] calls the hooks that provide a method in the order they were added.
    [chain_hooks] gives the handlers of the server the answers of such a chain. *)
From S2P Require Import Prelude Codes Effects Codec FixedHeader Properties Packets Topics Aliases Inflight System Clients ClientIO Storage.

(** The codes by which a hook says what it provides. *)
Definition code_SetOptions : Z := 0.
Definition code_OnSysInfoTick : Z := 1.
Definition code_OnStarted : Z := 2.
Definition code_OnStopped : Z := 3.
Definition code_OnConnectAuthenticate : Z := 4.
Definition code_OnACLCheck : Z := 5.
Definition code_OnConnect : Z := 6.
Definition code_OnSessionEstablish : Z := 7.
Definition code_OnSessionEstablished : Z := 8.
Definition code_OnDisconnect : Z := 9.
Definition code_OnAuthPacket : Z := 10.
Definition code_OnPacketRead : Z := 11.
Definition code_OnPacketEncode : Z := 12.
Definition code_OnPacketSent : Z := 13.
Definition code_OnPacketProcessed : Z := 14.
Definition code_OnSubscribe : Z := 15.
Definition code_OnSubscribed : Z := 16.
Definition code_OnSelectSubscribers : Z := 17.
Definition code_OnUnsubscribe : Z := 18.
Definition code_OnUnsubscribed : Z := 19.
Definition code_OnPublish : Z := 20.
Definition code_OnPublished : Z := 21.
Definition code_OnPublishDropped : Z := 22.
Definition code_OnRetainMessage : Z := 23.
Definition code_OnRetainPublished : Z := 24.
Definition code_OnQosPublish : Z := 25.
Definition code_OnQosComplete : Z := 26.
Definition code_OnQosDropped : Z := 27.
Definition code_OnPacketIDExhausted : Z := 28.
Definition code_OnWill : Z := 29.
Definition code_OnWillSent : Z := 30.
Definition code_OnClientExpired : Z := 31.
Definition code_OnRetainedExpired : Z := 32.
Definition code_StoredClients : Z := 33.
Definition code_StoredSubscriptions : Z := 34.
Definition code_StoredInflightMessages : Z := 35.
Definition code_StoredRetainedMessages : Z := 36.
Definition code_StoredSysInfo : Z := 37.

Section Hooks.
Context {W Config : Type}.

(** ** The interface *)

Record Hook := mkHook {
  h_ID : gostr;
  h_Provides : Z -> bool;
  h_Init : Config -> GoM W unit;
  h_Stop : GoM W unit;
  h_SetOpts : Capabilities -> GoM W unit;
  h_OnStarted : GoM W unit;
  h_OnStopped : GoM W unit;
  h_OnConnectAuthenticate : Client -> Packet -> GoM W bool;
  h_OnACLCheck : Client -> gostr -> bool -> GoM W bool;
  h_OnSysInfoTick : Info -> GoM W unit;
  h_OnConnect : Client -> Packet -> GoM W unit;
  h_OnSessionEstablish : Client -> Packet -> GoM W unit;
  h_OnSessionEstablished : Client -> Packet -> GoM W unit;
  h_OnDisconnect : Client -> option error -> bool -> GoM W unit;
  h_OnAuthPacket : Client -> Packet -> GoM W Packet;
  h_OnPacketRead : Client -> Packet -> GoM W Packet;
  h_OnPacketEncode : Client -> Packet -> GoM W Packet;
  h_OnPacketSent : Client -> Packet -> bytes -> GoM W unit;
  h_OnPacketProcessed : Client -> Packet -> option error -> GoM W unit;
  h_OnSubscribe : Client -> Packet -> GoM W Packet;
  h_OnSubscribed : Client -> Packet -> bytes -> GoM W unit;
  h_OnSelectSubscribers : Subscribers -> Packet -> GoM W Subscribers;
  h_OnUnsubscribe : Client -> Packet -> GoM W Packet;
  h_OnUnsubscribed : Client -> Packet -> GoM W unit;
  h_OnPublish : Client -> Packet -> GoM W Packet;
  h_OnPublished : Client -> Packet -> GoM W unit;
  h_OnPublishDropped : Client -> Packet -> GoM W unit;
  h_OnRetainMessage : Client -> Packet -> Z -> GoM W unit;
  h_OnRetainPublished : Client -> Packet -> GoM W unit;
  h_OnQosPublish : Client -> Packet -> Z -> Z -> GoM W unit;
  h_OnQosComplete : Client -> Packet -> GoM W unit;
  h_OnQosDropped : Client -> Packet -> GoM W unit;
  h_OnPacketIDExhausted : Client -> Packet -> GoM W unit;
  h_OnWill : Client -> Will -> GoM W Will;
  h_OnWillSent : Client -> Packet -> GoM W unit;
  h_OnClientExpired : Client -> GoM W unit;
  h_OnRetainedExpired : gostr -> GoM W unit;
  h_StoredClients : GoM W (list storage_Client);
  h_StoredSubscriptions : GoM W (list storage_Subscription);
  h_StoredInflightMessages : GoM W (list storage_Message);
  h_StoredRetainedMessages : GoM W (list storage_Message);
  h_StoredSysInfo : GoM W storage_SystemInfo;
}.

(** The default methods, which a hook overrides. *)
Definition HookBase : Hook := {|
  h_ID := !"base";
  h_Provides := fun _ => false;
  h_Init := fun _ => mret tt;
  h_Stop := mret tt;
  h_SetOpts := fun _ => mret tt;
  h_OnStarted := mret tt;
  h_OnStopped := mret tt;
  h_OnConnectAuthenticate := fun _ _ => mret false;
  h_OnACLCheck := fun _ _ _ => mret false;
  h_OnSysInfoTick := fun _ => mret tt;
  h_OnConnect := fun _ _ => mret tt;
  h_OnSessionEstablish := fun _ _ => mret tt;
  h_OnSessionEstablished := fun _ _ => mret tt;
  h_OnDisconnect := fun _ _ _ => mret tt;
  h_OnAuthPacket := fun _ pk => mret pk;
  h_OnPacketRead := fun _ pk => mret pk;
  h_OnPacketEncode := fun _ pk => mret pk;
  h_OnPacketSent := fun _ _ _ => mret tt;
  h_OnPacketProcessed := fun _ _ _ => mret tt;
  h_OnSubscribe := fun _ pk => mret pk;
  h_OnSubscribed := fun _ _ _ => mret tt;
  h_OnSelectSubscribers := fun subs _ => mret subs;
  h_OnUnsubscribe := fun _ pk => mret pk;
  h_OnUnsubscribed := fun _ _ => mret tt;
  h_OnPublish := fun _ pk => mret pk;
  h_OnPublished := fun _ _ => mret tt;
  h_OnPublishDropped := fun _ _ => mret tt;
  h_OnRetainMessage := fun _ _ _ => mret tt;
  h_OnRetainPublished := fun _ _ => mret tt;
  h_OnQosPublish := fun _ _ _ _ => mret tt;
  h_OnQosComplete := fun _ _ => mret tt;
  h_OnQosDropped := fun _ _ => mret tt;
  h_OnPacketIDExhausted := fun _ _ => mret tt;
  h_OnWill := fun _ will => mret will;
  h_OnWillSent := fun _ _ => mret tt;
  h_OnClientExpired := fun _ => mret tt;
  h_OnRetainedExpired := fun _ => mret tt;
  h_StoredClients := mret [];
  h_StoredSubscriptions := mret [];
  h_StoredInflightMessages := mret [];
  h_StoredRetainedMessages := mret [];
  h_StoredSysInfo := mret storage_SystemInfo0;
|}.

(** ** The set of hooks: the slice, its length, and the wait group *)

Record HookSet := mkHookSet {
  hs_internal : list Hook;
  hs_qty : Z;
  hs_wg : Z;
}.
Definition HookSet0 : HookSet := mkHookSet [] 0 0.

Definition Hooks_Len (h : HookSet) : Z := hs_qty h.
Definition Hooks_GetAll (h : HookSet) : list Hook := hs_internal h.

Definition Hooks_Provides (h : HookSet) (b : list Z) : bool :=
  existsb (fun hook => existsb (h_Provides hook) b) (Hooks_GetAll h).

Definition Hooks_Add (h : HookSet) (hook : Hook) (config : Config) : GoM W HookSet :=
  in_context (!"failed initialising " ++ h_ID hook ++ !" hook") (h_Init hook config);;
  mret (mkHookSet (Hooks_GetAll h ++ [hook]) (add64 1 (hs_qty h)) (hs_wg h + 1)).

Fixpoint stop_each (hooks : list Hook) (wg : Z) : GoM W Z :=
  match hooks with
  | [] => mret wg
  | hook :: hooks =>
      ignore (h_Stop hook);;
      if wg - 1 <? 0 then panic else stop_each hooks (wg - 1)
  end.

(** The caller waits until the counter of the wait group is zero. *)
Definition Hooks_Stop (h : HookSet) : GoM W HookSet :=
  wg ← stop_each (Hooks_GetAll h) (hs_wg h);
  if wg =? 0 then mret (h <| hs_wg := wg |>) else call Diverge.

(** [AddHook] and [AddHooksFromConfig] of the server. *)
Definition AddHook (caps : Capabilities) (h : HookSet) (hook : Hook) (config : Config) : GoM W HookSet :=
  h_SetOpts hook caps;; Hooks_Add h hook config.

Fixpoint AddHooksFromConfig (caps : Capabilities) (h : HookSet) (hooks : list (Hook * Config)) : GoM W HookSet :=
  match hooks with
  | [] => mret h
  | (hook, config) :: hooks => h ← AddHook caps h hook config; AddHooksFromConfig caps h hooks
  end.

(** ** Calling every hook *)

Section Calls.
Context (h : HookSet).

(** The loop of the methods that only tell the hooks. *)
Definition notify (b : Z) (call : Hook -> GoM W unit) : GoM W unit :=
  for_each (Hooks_GetAll h) (fun hook => when (h_Provides hook b) (call hook)).

Definition Hooks_OnSysInfoTick (sys : Info) : GoM W unit :=
  notify code_OnSysInfoTick (fun hook => h_OnSysInfoTick hook sys).
Definition Hooks_OnStarted : GoM W unit :=
  notify code_OnStarted (fun hook => h_OnStarted hook).
Definition Hooks_OnStopped : GoM W unit :=
  notify code_OnStopped (fun hook => h_OnStopped hook).
Definition Hooks_OnSessionEstablish (cl : Client) (pk : Packet) : GoM W unit :=
  notify code_OnSessionEstablish (fun hook => h_OnSessionEstablish hook cl pk).
Definition Hooks_OnSessionEstablished (cl : Client) (pk : Packet) : GoM W unit :=
  notify code_OnSessionEstablished (fun hook => h_OnSessionEstablished hook cl pk).
Definition Hooks_OnDisconnect (cl : Client) (err : option error) (expire : bool) : GoM W unit :=
  notify code_OnDisconnect (fun hook => h_OnDisconnect hook cl err expire).
Definition Hooks_OnPacketProcessed (cl : Client) (pk : Packet) (err : option error) : GoM W unit :=
  notify code_OnPacketProcessed (fun hook => h_OnPacketProcessed hook cl pk err).
Definition Hooks_OnPacketSent (cl : Client) (pk : Packet) (b : bytes) : GoM W unit :=
  notify code_OnPacketSent (fun hook => h_OnPacketSent hook cl pk b).
Definition Hooks_OnSubscribed (cl : Client) (pk : Packet) (reasonCodes : bytes) : GoM W unit :=
  notify code_OnSubscribed (fun hook => h_OnSubscribed hook cl pk reasonCodes).
Definition Hooks_OnUnsubscribed (cl : Client) (pk : Packet) : GoM W unit :=
  notify code_OnUnsubscribed (fun hook => h_OnUnsubscribed hook cl pk).
Definition Hooks_OnPublished (cl : Client) (pk : Packet) : GoM W unit :=
  notify code_OnPublished (fun hook => h_OnPublished hook cl pk).
Definition Hooks_OnPublishDropped (cl : Client) (pk : Packet) : GoM W unit :=
  notify code_OnPublishDropped (fun hook => h_OnPublishDropped hook cl pk).
Definition Hooks_OnRetainMessage (cl : Client) (pk : Packet) (r : Z) : GoM W unit :=
  notify code_OnRetainMessage (fun hook => h_OnRetainMessage hook cl pk r).
Definition Hooks_OnRetainPublished (cl : Client) (pk : Packet) : GoM W unit :=
  notify code_OnRetainPublished (fun hook => h_OnRetainPublished hook cl pk).
Definition Hooks_OnQosPublish (cl : Client) (pk : Packet) (sent resends : Z) : GoM W unit :=
  notify code_OnQosPublish (fun hook => h_OnQosPublish hook cl pk sent resends).
Definition Hooks_OnQosComplete (cl : Client) (pk : Packet) : GoM W unit :=
  notify code_OnQosComplete (fun hook => h_OnQosComplete hook cl pk).
Definition Hooks_OnPacketIDExhausted (cl : Client) (pk : Packet) : GoM W unit :=
  notify code_OnPacketIDExhausted (fun hook => h_OnPacketIDExhausted hook cl pk).
Definition Hooks_OnWillSent (cl : Client) (pk : Packet) : GoM W unit :=
  notify code_OnWillSent (fun hook => h_OnWillSent hook cl pk).
Definition Hooks_OnClientExpired (cl : Client) : GoM W unit :=
  notify code_OnClientExpired (fun hook => h_OnClientExpired hook cl).
Definition Hooks_OnRetainedExpired (filter : gostr) : GoM W unit :=
  notify code_OnRetainedExpired (fun hook => h_OnRetainedExpired hook filter).

(** The packet is filled in from the message that is in flight. *)
Definition dropped_info (cl : Client) (pk : Packet) : Packet :=
  match Inflight_Get (cl_Inflight cl) (pk_PacketID pk) with
  | Some inflightPk => pk <| pk_Payload := pk_Payload inflightPk |> <| pk_TopicName := pk_TopicName inflightPk |>
                          <| pk_Origin := pk_Origin inflightPk |>
  | None => pk
  end.
Definition Hooks_OnQosDropped (cl : Client) (pk : Packet) : GoM W unit :=
  let pk := dropped_info cl pk in
  notify code_OnQosDropped (fun hook => h_OnQosDropped hook cl pk).

(** [return err] at the first hook that fails. *)
Definition Hooks_OnConnect (cl : Client) (pk : Packet) : GoM W unit :=
  notify code_OnConnect (fun hook => h_OnConnect hook cl pk).

(** The loop of the methods that pass a value from hook to hook. *)
Fixpoint pass {A} (b : Z) (call : Hook -> A -> GoM W A) (hooks : list Hook) (x : A) : GoM W A :=
  match hooks with
  | [] => mret x
  | hook :: hooks => if h_Provides hook b then y ← call hook x; pass b call hooks y else pass b call hooks x
  end.

Definition Hooks_OnPacketEncode (cl : Client) (pk : Packet) : GoM W Packet :=
  pass code_OnPacketEncode (fun hook => h_OnPacketEncode hook cl) (Hooks_GetAll h) pk.
Definition Hooks_OnSubscribe (cl : Client) (pk : Packet) : GoM W Packet :=
  pass code_OnSubscribe (fun hook => h_OnSubscribe hook cl) (Hooks_GetAll h) pk.
Definition Hooks_OnUnsubscribe (cl : Client) (pk : Packet) : GoM W Packet :=
  pass code_OnUnsubscribe (fun hook => h_OnUnsubscribe hook cl) (Hooks_GetAll h) pk.
Definition Hooks_OnSelectSubscribers (subs : Subscribers) (pk : Packet) : GoM W Subscribers :=
  pass code_OnSelectSubscribers (fun hook subs => h_OnSelectSubscribers hook subs pk) (Hooks_GetAll h) subs.

(** The methods below return the packet they were given together with the
    first error that ends the loop. *)
Definition or_original (pk : Packet) (m : GoM W Packet) : GoM W (Packet * option error) :=
  r ← attempt m;
  match r with inl pkx => mret (pkx, None) | inr err => mret (pk, Some err) end.

Definition Hooks_OnAuthPacket (cl : Client) (pk : Packet) : GoM W (Packet * option error) :=
  or_original pk (pass code_OnAuthPacket (fun hook => h_OnAuthPacket hook cl) (Hooks_GetAll h) pk).
Definition Hooks_OnPublish (cl : Client) (pk : Packet) : GoM W (Packet * option error) :=
  or_original pk (pass code_OnPublish (fun hook => h_OnPublish hook cl) (Hooks_GetAll h) pk).

(** [continue] on an error, except one that [stop]s the loop. *)
Definition or_skip {A} (stop : error -> bool) (call : A -> GoM W A) (x : A) : GoM W A :=
  r ← attempt (call x);
  match r with inl y => mret y | inr err => if stop err then throw err else mret x end.

Definition Hooks_OnPacketRead (cl : Client) (pk : Packet) : GoM W (Packet * option error) :=
  or_original pk (pass code_OnPacketRead
    (fun hook => or_skip (fun err => error_is err ErrRejectPacket) (h_OnPacketRead hook cl)) (Hooks_GetAll h) pk).
Definition Hooks_OnWill (cl : Client) (will : Will) : GoM W Will :=
  pass code_OnWill (fun hook => or_skip (fun _ => false) (h_OnWill hook cl)) (Hooks_GetAll h) will.

(** One hook that agrees is enough. *)
Fixpoint any (b : Z) (call : Hook -> GoM W bool) (hooks : list Hook) : GoM W bool :=
  match hooks with
  | [] => mret false
  | hook :: hooks =>
      if h_Provides hook b then ok ← call hook; if (ok : bool) then mret true else any b call hooks
      else any b call hooks
  end.

Definition Hooks_OnConnectAuthenticate (cl : Client) (pk : Packet) : GoM W bool :=
  any code_OnConnectAuthenticate (fun hook => h_OnConnectAuthenticate hook cl pk) (Hooks_GetAll h).
Definition Hooks_OnACLCheck (cl : Client) (topic : gostr) (write : bool) : GoM W bool :=
  any code_OnACLCheck (fun hook => h_OnACLCheck hook cl topic write) (Hooks_GetAll h).

(** The first hook with something stored. *)
Fixpoint first_stored {A} (b : Z) (call : Hook -> GoM W A) (full : A -> bool) (none : A) (hooks : list Hook) : GoM W A :=
  match hooks with
  | [] => mret none
  | hook :: hooks =>
      if h_Provides hook b then v ← call hook; if full v then mret v else first_stored b call full none hooks
      else first_stored b call full none hooks
  end.

Definition Hooks_StoredClients : GoM W (list storage_Client) :=
  first_stored code_StoredClients h_StoredClients nonempty [] (Hooks_GetAll h).
Definition Hooks_StoredSubscriptions : GoM W (list storage_Subscription) :=
  first_stored code_StoredSubscriptions h_StoredSubscriptions nonempty [] (Hooks_GetAll h).
Definition Hooks_StoredInflightMessages : GoM W (list storage_Message) :=
  first_stored code_StoredInflightMessages h_StoredInflightMessages nonempty [] (Hooks_GetAll h).
Definition Hooks_StoredRetainedMessages : GoM W (list storage_Message) :=
  first_stored code_StoredRetainedMessages h_StoredRetainedMessages nonempty [] (Hooks_GetAll h).
Definition Hooks_StoredSysInfo : GoM W storage_SystemInfo :=
  first_stored code_StoredSysInfo h_StoredSysInfo (fun v => negb (str_eqb (in_Version (si_Info v)) [])) storage_SystemInfo0
    (Hooks_GetAll h).
End Calls.
End Hooks.
Arguments Hook : clear implicits.
Arguments HookSet : clear implicits.

(** ** The chain as the hooks of a server

    A call that the server makes to be told something by the hooks has its
    answer in the state [w]; a call that tells the hooks of an event changes
    the state. *)

Section Answers.
Context {W Config : Type}.

(** The value of a call that returns. *)
Definition answer {A} (a : A) (r : result error A * W) : A := match r.1 with Ok x => x | _ => a end.

Definition chain_hooks (h : HookSet W Config) (w : W) : Hooks := {|
  hk_OnPacketRead := fun cl pk => answer (pk, None) (Hooks_OnPacketRead h cl pk w);
  hk_OnPacketEncode := fun cl pk => answer pk (Hooks_OnPacketEncode h cl pk w);
  hk_OnConnect := fun cl pk => match (Hooks_OnConnect h cl pk w).1 with Err e => Some e | _ => None end;
  hk_OnConnectAuthenticate := fun cl pk => answer false (Hooks_OnConnectAuthenticate h cl pk w);
  hk_OnACLCheck := fun cl topic write => answer false (Hooks_OnACLCheck h cl topic write w);
  hk_OnAuthPacket := fun cl pk => (answer (pk, None) (Hooks_OnAuthPacket h cl pk w)).2;
  hk_OnSubscribe := fun cl pk => answer pk (Hooks_OnSubscribe h cl pk w);
  hk_OnUnsubscribe := fun cl pk => answer pk (Hooks_OnUnsubscribe h cl pk w);
  hk_OnSelectSubscribers := fun subs pk => answer subs (Hooks_OnSelectSubscribers h subs pk w);
  hk_OnPublish := fun cl pk => answer (pk, None) (Hooks_OnPublish h cl pk w);
  hk_OnWill := fun cl will => answer will (Hooks_OnWill h cl will w);
|}.

(** The call of the hooks for an event. *)
Definition tell (h : HookSet W Config) (ev : Event) : GoM W unit :=
  match ev with
  | OnPacketSent cl pk b => Hooks_OnPacketSent h cl pk b
  | OnPacketProcessed cl pk err => Hooks_OnPacketProcessed h cl pk err
  | OnSessionEstablish cl pk => Hooks_OnSessionEstablish h cl pk
  | OnSessionEstablished cl pk => Hooks_OnSessionEstablished h cl pk
  | OnDisconnect cl err expire => Hooks_OnDisconnect h cl err expire
  | OnSubscribed cl pk reasonCodes => Hooks_OnSubscribed h cl pk reasonCodes
  | OnUnsubscribed cl pk => Hooks_OnUnsubscribed h cl pk
  | OnPublished cl pk => Hooks_OnPublished h cl pk
  | OnPublishDropped cl pk => Hooks_OnPublishDropped h cl pk
  | OnRetainMessage cl pk r => Hooks_OnRetainMessage h cl pk r
  | OnRetainPublished cl pk => Hooks_OnRetainPublished h cl pk
  | OnQosPublish cl pk sent resends => Hooks_OnQosPublish h cl pk sent resends
  | OnQosComplete cl pk => Hooks_OnQosComplete h cl pk
  | OnQosDropped cl pk => Hooks_OnQosDropped h cl pk
  | OnPacketIDExhausted cl pk => Hooks_OnPacketIDExhausted h cl pk
  | OnWillSent cl pk => Hooks_OnWillSent h cl pk
  | OnClientExpired cl => Hooks_OnClientExpired h cl
  | OnRetainedExpired filter => Hooks_OnRetainedExpired h filter
  | OnSysInfoTick sys => Hooks_OnSysInfoTick h sys
  | InlineHandler _ _ _ => mret tt
  end.
End Answers.

(** ** Hooks with a state of their own in a chain

    A hook of the repository keeps its state in its own struct. In a chain the
    hooks run over one state, of which each of them sees its part. *)

Section Lift.
Context {K W CK C : Type} (get : W -> K) (set : K -> W -> W) (conf : C -> CK).

Definition lift {A} (m : GoM K A) : GoM W A := fun w => let '(r, k) := m (get w) in (r, set k w).

Definition lift_hook (h : Hook K CK) : Hook W C := {|
  h_ID := h_ID h;
  h_Provides := h_Provides h;
  h_Init := fun c => lift (h_Init h (conf c));
  h_Stop := lift (h_Stop h);
  h_SetOpts := fun a => lift (h_SetOpts h a);
  h_OnStarted := lift (h_OnStarted h);
  h_OnStopped := lift (h_OnStopped h);
  h_OnConnectAuthenticate := fun a b => lift (h_OnConnectAuthenticate h a b);
  h_OnACLCheck := fun a b c => lift (h_OnACLCheck h a b c);
  h_OnSysInfoTick := fun a => lift (h_OnSysInfoTick h a);
  h_OnConnect := fun a b => lift (h_OnConnect h a b);
  h_OnSessionEstablish := fun a b => lift (h_OnSessionEstablish h a b);
  h_OnSessionEstablished := fun a b => lift (h_OnSessionEstablished h a b);
  h_OnDisconnect := fun a b c => lift (h_OnDisconnect h a b c);
  h_OnAuthPacket := fun a b => lift (h_OnAuthPacket h a b);
  h_OnPacketRead := fun a b => lift (h_OnPacketRead h a b);
  h_OnPacketEncode := fun a b => lift (h_OnPacketEncode h a b);
  h_OnPacketSent := fun a b c => lift (h_OnPacketSent h a b c);
  h_OnPacketProcessed := fun a b c => lift (h_OnPacketProcessed h a b c);
  h_OnSubscribe := fun a b => lift (h_OnSubscribe h a b);
  h_OnSubscribed := fun a b c => lift (h_OnSubscribed h a b c);
  h_OnSelectSubscribers := fun a b => lift (h_OnSelectSubscribers h a b);
  h_OnUnsubscribe := fun a b => lift (h_OnUnsubscribe h a b);
  h_OnUnsubscribed := fun a b => lift (h_OnUnsubscribed h a b);
  h_OnPublish := fun a b => lift (h_OnPublish h a b);
  h_OnPublished := fun a b => lift (h_OnPublished h a b);
  h_OnPublishDropped := fun a b => lift (h_OnPublishDropped h a b);
  h_OnRetainMessage := fun a b c => lift (h_OnRetainMessage h a b c);
  h_OnRetainPublished := fun a b => lift (h_OnRetainPublished h a b);
  h_OnQosPublish := fun a b c d => lift (h_OnQosPublish h a b c d);
  h_OnQosComplete := fun a b => lift (h_OnQosComplete h a b);
  h_OnQosDropped := fun a b => lift (h_OnQosDropped h a b);
  h_OnPacketIDExhausted := fun a b => lift (h_OnPacketIDExhausted h a b);
  h_OnWill := fun a b => lift (h_OnWill h a b);
  h_OnWillSent := fun a b => lift (h_OnWillSent h a b);
  h_OnClientExpired := fun a => lift (h_OnClientExpired h a);
  h_OnRetainedExpired := fun a => lift (h_OnRetainedExpired h a);
  h_StoredClients := lift (h_StoredClients h);
  h_StoredSubscriptions := lift (h_StoredSubscriptions h);
  h_StoredInflightMessages := lift (h_StoredInflightMessages h);
  h_StoredRetainedMessages := lift (h_StoredRetainedMessages h);
  h_StoredSysInfo := lift (h_StoredSysInfo h);
|}.
End Lift.
