(* ===== verification/HookFacts.v ===== *)
(** * What a chain of hooks promises the server

    The handlers of the server are verified against the assumptions [env_ok]
    and [reads_typed] on the hooks they call. [Behaved] says the same of one
    hook; a chain of hooks that keep it discharges the assumptions. The answers
    of a chain are those of its hooks: any one may grant access, packets pass
    through the hooks in order, and adding and stopping count every hook once. *)
From S2P Require Import Prelude Codes Effects Codec FixedHeader Properties Packets Wire Typing Topics Aliases Inflight InflightFacts System Clients Storage ClientIO ClientIOFacts ClientFacts Publish PublishFacts Delivery Connection HookChain.

Section Chain.
Context {W Config : Type}.

(** What a method promises of its result and of its error. *)
Definition promises {A} (P : A -> Prop) (E : error -> Prop) (m : GoM W A) : Prop :=
  forall w, wp m w (fun r _ => match r with inl a => P a | inr err => E err end).

Lemma promises_ret {A} (P : A -> Prop) E a : P a -> promises P E (mret a).
Proof. by intros H w. Qed.

Lemma promises_bind {A B} (P : A -> Prop) (Q : B -> Prop) E (m : GoM W A) (k : A -> GoM W B) :
  promises P E m -> (forall a, P a -> promises Q E (k a)) -> promises Q E (m ≫= k).
Proof.
  intros Hm Hk w. apply wp_bind. eapply wp_mono; [apply Hm|]. intros [a|err] w' H; [by apply Hk|done].
Qed.

Lemma promises_pass {A} (P : A -> Prop) E b (call : Hook W Config -> A -> GoM W A) hooks x :
  (forall hook y, hook ∈ hooks -> P y -> promises P E (call hook y)) -> P x -> promises P E (pass b call hooks x).
Proof.
  induction hooks as [|hook hooks IH] in x |- *; intros Hc Hx; [by apply promises_ret|]. cbn.
  assert (forall y, P y -> promises P E (pass b call hooks y)) as Hrest.
  { intros y. apply IH. intros. apply Hc; [by right|done]. }
  destruct (h_Provides hook b); [|by apply Hrest].
  eapply promises_bind; [apply Hc; [left|done]|]. done.
Qed.

Lemma promises_or_skip {A} (P : A -> Prop) E stop (call : A -> GoM W A) x :
  promises P (fun _ => True) (call x) -> P x -> (forall err, stop err = true -> E err) -> promises P E (or_skip stop call x).
Proof.
  intros Hc Hx Hs w. apply wp_bind, wp_attempt. eapply wp_mono; [apply Hc|]. intros [y|err] w' H; [done|].
  destruct (stop err) eqn:D; [by apply Hs|done].
Qed.

(** The contract of one hook: no panic, a packet with the ranges of its Go types
    for such a packet, and publish errors that are codes where they wrap one. *)
Class Behaved (hook : Hook W Config) : Prop := {
  ho_publish : forall cl pk,
    promises (fun pk' => is_u16 (pk_PacketID pk) -> is_u16 (pk_PacketID pk')) (fun err => is_Some (error_as_code err) -> is_Some (error_code err))
      (h_OnPublish hook cl pk);
  ho_read : forall cl pk, Packet_typed pk -> promises Packet_typed (fun _ => True) (h_OnPacketRead hook cl pk);
}.

#[export] Instance HookBase_behaved : Behaved HookBase.
Proof. split; intros; by apply promises_ret. Qed.

Lemma answer_or_original pk (m : GoM W Packet) w (P : Packet -> Prop) (E : error -> Prop) pk' err :
  promises P E m -> answer (pk, None) (or_original pk m w) = (pk', err) ->
  match err with None => P pk' | Some e => pk' = pk /\ E e end.
Proof.
  intros Hm. specialize (Hm w). unfold answer, or_original, mbind, GoM_bind, attempt, wp in *.
  destruct (m w) as [[a|e| |] w']; cbn; try done; by intros [= <- <-].
Qed.

(** ** Which hooks are called, and with what

    A call of the chain goes over the hooks that provide the method, in the
    order they were added, with the value and the state that the hook before
    left: an error either [ends] the call or leaves the value as it was. *)
Inductive consult {A} (ends : error -> bool) (method : Hook W Config -> A -> GoM W A) :
    list (Hook W Config) -> A -> W -> result error A -> W -> Prop :=
| consult_done x w : consult ends method [] x w (Ok x) w
| consult_value hook hooks x w y w1 r w' :
    method hook x w = (Ok y, w1) -> consult ends method hooks y w1 r w' -> consult ends method (hook :: hooks) x w r w'
| consult_skipped hook hooks x w err w1 r w' :
    method hook x w = (Err err, w1) -> ends err = false ->
    consult ends method hooks x w1 r w' -> consult ends method (hook :: hooks) x w r w'
| consult_ended hook hooks x w err w1 :
    method hook x w = (Err err, w1) -> ends err = true -> consult ends method (hook :: hooks) x w (Err err) w1
| consult_panicked hook hooks x w w1 :
    method hook x w = (Panic, w1) -> consult ends method (hook :: hooks) x w Panic w1
| consult_hung hook hooks x w w1 :
    method hook x w = (Diverge, w1) -> consult ends method (hook :: hooks) x w Diverge w1.

Definition providers (b : Z) (hooks : list (Hook W Config)) : list (Hook W Config) :=
  filter (fun hook => h_Provides hook b = true) hooks.

Definition every (err : error) : bool := true.
Definition none (err : error) : bool := false.
Definition rejects (err : error) : bool := error_is err ErrRejectPacket.

Lemma providers_cons b hook hooks :
  providers b (hook :: hooks) = if h_Provides hook b then hook :: providers b hooks else providers b hooks.
Proof.
  unfold providers. destruct (h_Provides hook b) eqn:E; [by rewrite filter_cons_True|].
  rewrite filter_cons_False; [done|congruence].
Qed.

Lemma pass_consult {A} b (method : Hook W Config -> A -> GoM W A) hooks x w :
  consult every method (providers b hooks) x w (pass b method hooks x w).1 (pass b method hooks x w).2.
Proof.
  induction hooks as [|hook hooks IH] in x, w |- *; [constructor|]. rewrite providers_cons. cbn [pass].
  destruct (h_Provides hook b); [|apply IH]. unfold mbind, GoM_bind.
  destruct (method hook x w) as [[y|err| |] w1] eqn:E; [by eapply consult_value|by eapply consult_ended|by eapply consult_panicked|by eapply consult_hung].
Qed.

Lemma pass_skip_consult {A} b ends (method : Hook W Config -> A -> GoM W A) hooks x w :
  let out := pass b (fun hook => or_skip ends (method hook)) hooks x w in
  consult ends method (providers b hooks) x w out.1 out.2.
Proof.
  cbv zeta. induction hooks as [|hook hooks IH] in x, w |- *; [constructor|]. rewrite providers_cons. cbn [pass].
  destruct (h_Provides hook b); [|apply IH]. set (rest := pass b _ hooks) in *. clearbody rest.
  unfold or_skip, mbind, GoM_bind, attempt.
  destruct (method hook x w) as [[y|err| |] w1] eqn:E; [by eapply consult_value| |by eapply consult_panicked|by eapply consult_hung].
  destruct (ends err) eqn:D; [by eapply consult_ended|by eapply consult_skipped].
Qed.

Lemma notify_consult (h : HookSet W Config) b (method : Hook W Config -> GoM W unit) w :
  consult every (fun hook _ => method hook) (providers b (Hooks_GetAll h)) tt w (notify h b method w).1 (notify h b method w).2.
Proof.
  unfold notify. generalize (Hooks_GetAll h). intros hooks.
  induction hooks as [|hook hooks IH] in w |- *; [constructor|]. rewrite providers_cons. cbn [for_each].
  destruct (h_Provides hook b); cbn [when]; unfold mbind, GoM_bind; [|apply IH].
  destruct (method hook w) as [[[]|err| |] w1] eqn:E; [by eapply consult_value|by eapply consult_ended|by eapply consult_panicked|by eapply consult_hung].
Qed.

(** What the caller gets: the packet, or the one it gave with the error. *)
Definition handed (pk : Packet) (r : result error Packet) : result error (Packet * option error) :=
  match r with Ok y => Ok (y, None) | Err err => Ok (pk, Some err) | Panic => Panic | Diverge => Diverge end.

Lemma or_original_handed pk (m : GoM W Packet) w : or_original pk m w = (handed pk (m w).1, (m w).2).
Proof. unfold or_original, mbind, GoM_bind, attempt. by destruct (m w) as [[]]. Qed.

(** The method that a call of the server tells the hooks an event with. *)
Definition event_method (ev : Event) : option (Z * (Hook W Config -> GoM W unit)) :=
  match ev with
  | OnPacketSent cl pk b => Some (code_OnPacketSent, fun hook => h_OnPacketSent hook cl pk b)
  | OnPacketProcessed cl pk err => Some (code_OnPacketProcessed, fun hook => h_OnPacketProcessed hook cl pk err)
  | OnSessionEstablish cl pk => Some (code_OnSessionEstablish, fun hook => h_OnSessionEstablish hook cl pk)
  | OnSessionEstablished cl pk => Some (code_OnSessionEstablished, fun hook => h_OnSessionEstablished hook cl pk)
  | OnDisconnect cl err expire => Some (code_OnDisconnect, fun hook => h_OnDisconnect hook cl err expire)
  | OnSubscribed cl pk codes => Some (code_OnSubscribed, fun hook => h_OnSubscribed hook cl pk codes)
  | OnUnsubscribed cl pk => Some (code_OnUnsubscribed, fun hook => h_OnUnsubscribed hook cl pk)
  | OnPublished cl pk => Some (code_OnPublished, fun hook => h_OnPublished hook cl pk)
  | OnPublishDropped cl pk => Some (code_OnPublishDropped, fun hook => h_OnPublishDropped hook cl pk)
  | OnRetainMessage cl pk r => Some (code_OnRetainMessage, fun hook => h_OnRetainMessage hook cl pk r)
  | OnRetainPublished cl pk => Some (code_OnRetainPublished, fun hook => h_OnRetainPublished hook cl pk)
  | OnQosPublish cl pk sent resends => Some (code_OnQosPublish, fun hook => h_OnQosPublish hook cl pk sent resends)
  | OnQosComplete cl pk => Some (code_OnQosComplete, fun hook => h_OnQosComplete hook cl pk)
  | OnQosDropped cl pk => Some (code_OnQosDropped, fun hook => h_OnQosDropped hook cl (dropped_info cl pk))
  | OnPacketIDExhausted cl pk => Some (code_OnPacketIDExhausted, fun hook => h_OnPacketIDExhausted hook cl pk)
  | OnWillSent cl pk => Some (code_OnWillSent, fun hook => h_OnWillSent hook cl pk)
  | OnClientExpired cl => Some (code_OnClientExpired, fun hook => h_OnClientExpired hook cl)
  | OnRetainedExpired filter => Some (code_OnRetainedExpired, fun hook => h_OnRetainedExpired hook filter)
  | OnSysInfoTick sys => Some (code_OnSysInfoTick, fun hook => h_OnSysInfoTick hook sys)
  | InlineHandler _ _ _ => None
  end.

(** Every call of the chain consults its providers, and [chain_hooks] answers
    what the call returns. *)
Record consulted (h : HookSet W Config) (w : W) : Prop := mkConsulted {
  cs_publish : forall cl pk, exists r w',
    consult every (fun hook => h_OnPublish hook cl) (providers code_OnPublish (Hooks_GetAll h)) pk w r w' /\
    Hooks_OnPublish h cl pk w = (handed pk r, w') /\
    (forall a, handed pk r = Ok a -> hk_OnPublish (chain_hooks h w) cl pk = a);
  cs_read : forall cl pk, exists r w',
    consult rejects (fun hook => h_OnPacketRead hook cl) (providers code_OnPacketRead (Hooks_GetAll h)) pk w r w' /\
    Hooks_OnPacketRead h cl pk w = (handed pk r, w') /\
    (forall a, handed pk r = Ok a -> hk_OnPacketRead (chain_hooks h w) cl pk = a);
  cs_auth_packet : forall cl pk, exists r w',
    consult every (fun hook => h_OnAuthPacket hook cl) (providers code_OnAuthPacket (Hooks_GetAll h)) pk w r w' /\
    Hooks_OnAuthPacket h cl pk w = (handed pk r, w') /\
    (forall a, handed pk r = Ok a -> hk_OnAuthPacket (chain_hooks h w) cl pk = a.2);
  cs_encode : forall cl pk, exists r w',
    consult every (fun hook => h_OnPacketEncode hook cl) (providers code_OnPacketEncode (Hooks_GetAll h)) pk w r w' /\
    Hooks_OnPacketEncode h cl pk w = (r, w') /\ (forall a, r = Ok a -> hk_OnPacketEncode (chain_hooks h w) cl pk = a);
  cs_subscribe : forall cl pk, exists r w',
    consult every (fun hook => h_OnSubscribe hook cl) (providers code_OnSubscribe (Hooks_GetAll h)) pk w r w' /\
    Hooks_OnSubscribe h cl pk w = (r, w') /\ (forall a, r = Ok a -> hk_OnSubscribe (chain_hooks h w) cl pk = a);
  cs_unsubscribe : forall cl pk, exists r w',
    consult every (fun hook => h_OnUnsubscribe hook cl) (providers code_OnUnsubscribe (Hooks_GetAll h)) pk w r w' /\
    Hooks_OnUnsubscribe h cl pk w = (r, w') /\ (forall a, r = Ok a -> hk_OnUnsubscribe (chain_hooks h w) cl pk = a);
  cs_select : forall subs pk, exists r w',
    consult every (fun hook subs => h_OnSelectSubscribers hook subs pk)
      (providers code_OnSelectSubscribers (Hooks_GetAll h)) subs w r w' /\
    Hooks_OnSelectSubscribers h subs pk w = (r, w') /\
    (forall a, r = Ok a -> hk_OnSelectSubscribers (chain_hooks h w) subs pk = a);
  cs_will : forall cl will, exists r w',
    consult none (fun hook => h_OnWill hook cl) (providers code_OnWill (Hooks_GetAll h)) will w r w' /\
    Hooks_OnWill h cl will w = (r, w') /\ (forall a, r = Ok a -> hk_OnWill (chain_hooks h w) cl will = a);
  cs_connect : forall cl pk, exists r w',
    consult every (fun hook _ => h_OnConnect hook cl pk) (providers code_OnConnect (Hooks_GetAll h)) tt w r w' /\
    Hooks_OnConnect h cl pk w = (r, w') /\
    (hk_OnConnect (chain_hooks h w) cl pk = match r with Err err => Some err | _ => None end);
  cs_events : forall ev, exists r w',
    match event_method ev with
    | Some (b, method) => consult every (fun hook _ => method hook) (providers b (Hooks_GetAll h)) tt w r w'
    | None => r = Ok tt /\ w' = w
    end /\ tell h ev w = (r, w');
}.

Lemma called {A} (P : result error A -> W -> Prop) (out : result error A * W) d :
  P out.1 out.2 -> exists r w', P r w' /\ out = (r, w') /\ (forall a, r = Ok a -> answer d out = a).
Proof. intros H. destruct out as [r w']. exists r, w'. split_and!; [done..|]. by intros a ->. Qed.

Lemma called_handed (P : result error Packet -> W -> Prop) (m : GoM W Packet) pk w :
  P (m w).1 (m w).2 -> exists r w', P r w' /\ or_original pk m w = (handed pk r, w') /\
    (forall a, handed pk r = Ok a -> answer (pk, None) (or_original pk m w) = a).
Proof.
  intros H. rewrite or_original_handed. destruct (m w) as [r w']. exists r, w'. split_and!; [done..|].
  intros a Ha. unfold answer. cbn [fst]. by rewrite Ha.
Qed.

Lemma chain_consulted h w : consulted h w.
Proof.
  constructor; intros.
  - apply (called_handed (consult _ _ _ _ _)), pass_consult.
  - apply (called_handed (consult _ _ _ _ _)), pass_skip_consult.
  - destruct (called_handed (consult every (fun hook => h_OnAuthPacket hook cl) (providers code_OnAuthPacket (Hooks_GetAll h)) pk w)
      (pass code_OnAuthPacket (fun hook => h_OnAuthPacket hook cl) (Hooks_GetAll h) pk) pk w) as (r & w' & H1 & H2 & H3);
      [apply pass_consult|]. exists r, w'. split_and!; [done|done|]. intros a Ha. exact (f_equal snd (H3 a Ha)).
  - apply (called (consult _ _ _ _ _)), pass_consult.
  - apply (called (consult _ _ _ _ _)), pass_consult.
  - apply (called (consult _ _ _ _ _)), pass_consult.
  - apply (called (consult _ _ _ _ _)), (pass_consult code_OnSelectSubscribers (fun hook subs => h_OnSelectSubscribers hook subs pk)).
  - apply (called (consult _ _ _ _ _)), pass_skip_consult.
  - eexists _, _. split; [apply notify_consult|]. split; [apply surjective_pairing|done].
  - destruct ev; cbn [event_method]; try (eexists _, _; split; [apply notify_consult|apply surjective_pairing]).
    by exists (Ok tt), w.
Qed.


(** ** Access: one hook that agrees is enough *)

Lemma any_reads b (call : Hook W Config -> GoM W bool) (verdict : Hook W Config -> bool) hooks w :
  (forall hook, hook ∈ hooks -> h_Provides hook b = true -> call hook w = (Ok (verdict hook), w)) ->
  any b call hooks w = (Ok (existsb (fun hook => h_Provides hook b && verdict hook) hooks), w).
Proof.
  induction hooks as [|hook hooks IH]; intros Hc; [done|]. cbn [any existsb].
  assert (any b call hooks w = (Ok (existsb (fun hook => h_Provides hook b && verdict hook) hooks), w)) as IH'.
  { apply IH. intros. apply Hc; [by right|done]. }
  destruct (h_Provides hook b) eqn:P; cbn [andb orb]; [|exact IH'].
  unfold mbind, GoM_bind. rewrite Hc by (left || done). by destruct (verdict hook).
Qed.

(** C23: when the hooks judge without changing their state, a client may
    connect exactly when some hook that provides [OnConnectAuthenticate] accepts
    it, and may use a topic exactly when some hook that provides [OnACLCheck]
    accepts it: with no such hook nobody may. *)
Theorem access_any (h : HookSet W Config) cl pk topic write w (auth acl : Hook W Config -> bool) :
  (forall hook, hook ∈ Hooks_GetAll h -> h_OnConnectAuthenticate hook cl pk w = (Ok (auth hook), w)) ->
  (forall hook, hook ∈ Hooks_GetAll h -> h_OnACLCheck hook cl topic write w = (Ok (acl hook), w)) ->
  (hk_OnConnectAuthenticate (chain_hooks h w) cl pk = true <->
     exists hook, hook ∈ Hooks_GetAll h /\ h_Provides hook code_OnConnectAuthenticate = true /\ auth hook = true) /\
  (hk_OnACLCheck (chain_hooks h w) cl topic write = true <->
     exists hook, hook ∈ Hooks_GetAll h /\ h_Provides hook code_OnACLCheck = true /\ acl hook = true).
Proof.
  intros Ha Hc. cbn [chain_hooks hk_OnConnectAuthenticate hk_OnACLCheck].
  unfold Hooks_OnConnectAuthenticate, Hooks_OnACLCheck.
  rewrite (any_reads _ _ auth), (any_reads _ _ acl) by auto. unfold answer. cbn [fst].
  split; rewrite existsb_exists; split; intros (hook & Hin & H); exists hook; rewrite list_elem_of_In in *;
    [by apply andb_true_iff in H|by rewrite (proj1 H), (proj2 H)|by apply andb_true_iff in H|by rewrite (proj1 H), (proj2 H)].
Qed.

(** ** Adding and stopping *)

Definition hookset_ok (h : HookSet W Config) : Prop :=
  hs_qty h = Z.of_nat (length (hs_internal h)) /\ hs_wg h = Z.of_nat (length (hs_internal h)).

Lemma AddHook_ok caps h hook config w h' w' :
  hookset_ok h -> Z.of_nat (length (hs_internal h)) < 2 ^ 63 - 1 ->
  AddHook caps h hook config w = (Ok h', w') -> hookset_ok h' /\ hs_internal h' = hs_internal h ++ [hook].
Proof.
  intros [Hq Hg] Hl. unfold AddHook, Hooks_Add, in_context, mbind, GoM_bind.
  destruct (h_SetOpts hook caps w) as [[[]|err| |] w1]; try done.
  destruct (h_Init hook config w1) as [[[]|err| |] w2]; try done. intros [= <- _]. unfold hookset_ok. cbn.
  unfold Hooks_GetAll. rewrite length_app, Hq, Hg, Nat2Z.inj_add. change (Z.of_nat (length [hook])) with 1.
  split; [|done]. unfold add64. rewrite to_i64_id by (unfold is_i64; lia). done.
Qed.

Lemma AddHooksFromConfig_ok caps hooks h w h' w' :
  hookset_ok h -> Z.of_nat (length (hs_internal h) + length hooks) < 2 ^ 63 ->
  AddHooksFromConfig caps h hooks w = (Ok h', w') -> hookset_ok h' /\ hs_internal h' = hs_internal h ++ hooks.*1.
Proof.
  induction hooks as [|[hook config] hooks IH] in h, w |- *; intros Hh Hl; cbn [AddHooksFromConfig].
  - intros [= -> _]. by rewrite app_nil_r.
  - unfold mbind at 1, GoM_bind. destruct (AddHook caps h hook config w) as [[h1|err| |] w1] eqn:E; try done.
    apply AddHook_ok in E as [H1 E1]; [|done|cbn in Hl; lia]. intros E2.
    apply IH in E2 as [H2 ->]; [|done|rewrite E1, length_app; cbn in *; lia].
    split; [done|]. rewrite E1. cbn. by rewrite <- app_assoc.
Qed.

(** The state after every hook has been stopped, in order. *)
Definition stopped (hooks : list (Hook W Config)) (w : W) : W := foldl (fun w hook => (h_Stop hook w).2) w hooks.

Lemma stop_each_ok hooks wg w :
  Forall (fun hook => forall w, wp (h_Stop hook) w (fun _ _ => True)) hooks -> Z.of_nat (length hooks) <= wg ->
  stop_each hooks wg w = (Ok (wg - Z.of_nat (length hooks)), stopped hooks w).
Proof.
  intros Hs. induction Hs as [|hook hooks Hk _ IH] in wg, w |- *; intros Hl; cbn [stop_each length]; [by rewrite Z.sub_0_r|].
  cbn in Hl. unfold mbind, GoM_bind, ignore. specialize (Hk w). unfold wp in Hk. cbn [stopped foldl].
  assert (E : stop_each hooks (wg - 1) (h_Stop hook w).2 = (Ok (wg - Z.of_nat (S (length hooks))), stopped hooks (h_Stop hook w).2)).
  { rewrite IH by lia. do 2 f_equal. lia. }
  destruct (h_Stop hook w) as [[[]|err| |] w1]; try done; cbn [fst snd] in *;
    destruct (wg - 1 <? 0) eqn:D; bool_to_prop; [lia|done|lia|done].
Qed.

(** The hooks of a configuration that were all added are called in the
    order of the configuration and are counted, and [Stop] stops every one of
    them once, in that order, and returns. *)
Theorem hooks_lifecycle caps hooks w h w' w'' :
  AddHooksFromConfig caps HookSet0 hooks w = (Ok h, w') -> Z.of_nat (length hooks) < 2 ^ 63 ->
  Forall (fun hook => forall w, wp (h_Stop hook) w (fun _ _ => True)) hooks.*1 ->
  Hooks_GetAll h = hooks.*1 /\ Hooks_Len h = Z.of_nat (length hooks) /\
  Hooks_Stop h w'' = (Ok (h <| hs_wg := 0 |>), stopped hooks.*1 w'').
Proof.
  intros E Hl Hs. apply AddHooksFromConfig_ok in E as [[Hq Hg] Ei]; [|done|done].
  cbn in Ei. unfold Hooks_GetAll, Hooks_Len, Hooks_Stop, Hooks_GetAll. rewrite Hq, Hg, Ei, length_fmap. split_and!; [done..|].
  unfold mbind, GoM_bind. rewrite stop_each_ok; [|done|rewrite length_fmap; lia].
  rewrite length_fmap, Z.sub_diag. done.
Qed.
End Chain.

(** ** A chain: an access list, a counter of the messages, and nothing *)

Definition acl_hook : Hook Z unit := HookBase
  <| h_ID := !"acl" |>
  <| h_Provides := fun b => (b =? code_OnACLCheck) || (b =? code_OnConnectAuthenticate) |>
  <| h_OnConnectAuthenticate := fun cl _ => mret (str_eqb (cp_ClientUsername (cl_Properties cl)) !"zen") |>
  <| h_OnACLCheck := fun _ topic _ => mret (negb (contains_byte 43 topic)) |>.
Definition counter_hook : Hook Z unit := HookBase
  <| h_Provides := fun b => (b =? code_OnPublish) |>
  <| h_OnPublish := fun _ pk n => if n <? 100 then (Ok pk, n + 1) else (Err (ECode ErrQuotaExceeded), n) |>
  <| h_Stop := fun n => (Err (EOther 1), n + 1000) |>.
Definition example_hooks : HookSet Z unit := mkHookSet [HookBase; acl_hook; counter_hook] 3 3.

#[export] Instance acl_behaved : Behaved acl_hook.
Proof. split; intros; by apply promises_ret. Qed.
#[export] Instance counter_behaved : Behaved counter_hook.
Proof.
  split; intros cl pk; [|intros; by apply promises_ret]. intros n. unfold wp. cbn.
  destruct (n <? 100); [done|]. intros _. by exists ErrQuotaExceeded.
Qed.


Lemma access_any_witness (cl := newClient DefaultOptions None) :
  hk_OnACLCheck (chain_hooks example_hooks 5) cl !"a/b" true = true /\
  hk_OnConnectAuthenticate (chain_hooks example_hooks 5) cl Packet0 = false.
Proof.
  destruct (access_any example_hooks cl Packet0 !"a/b" true 5
    (fun hook => str_eqb (h_ID hook) !"acl" && str_eqb (cp_ClientUsername (cl_Properties cl)) !"zen")
    (fun hook => str_eqb (h_ID hook) !"acl" && negb (contains_byte 43 !"a/b"))) as [Ha Hc].
  - intros hook Hin. repeat (apply elem_of_cons in Hin as [->|Hin]; [reflexivity|]). by apply elem_of_nil in Hin.
  - intros hook Hin. repeat (apply elem_of_cons in Hin as [->|Hin]; [reflexivity|]). by apply elem_of_nil in Hin.
  - split; [|vm_compute; reflexivity]. apply Hc. exists acl_hook. split; [right; left|by split].
Defined.

Lemma hooks_lifecycle_witness (hooks := [(HookBase, tt); (counter_hook, tt)]) :
  Hooks_GetAll (mkHookSet hooks.*1 2 2) = hooks.*1 /\ Hooks_Len (mkHookSet hooks.*1 2 2) = 2 /\
  Hooks_Stop (mkHookSet hooks.*1 2 2) 7 = (Ok (mkHookSet hooks.*1 2 0), 1007).
Proof.
  apply (hooks_lifecycle NewDefaultServerCapabilities hooks 7 (mkHookSet hooks.*1 2 2) 7 7); [reflexivity|reflexivity|].
  repeat constructor; intros w; exact I.
Defined.
