(* ===== verification/Stores.v ===== *)
(** * What the storage hooks share

    The databases behind the hooks of hooks/storage/* are libraries outside the
    repository: an ordered key-value database ([Database]) for badger, bolt and
    pebble, and hash sets ([HashStore]) for redis, with the documented behaviour
    the hooks rely on as laws ([DatabaseLaws], [HashStoreLaws]). The documents
    that the four hooks write for an event are built by the same code in each of
    the four packages. *)
From S2P Require Import Prelude Codes Effects Codec FixedHeader Properties Packets Topics System Clients Json JsonCodec Storage.

(** ** Keys *)

Fixpoint has_prefix (p s : gostr) : bool :=
  match p, s with
  | [], _ => true
  | x :: p, y :: s => (x =? y) && has_prefix p s
  | _, [] => false
  end.

(** ** Databases *)

(** [db_entries] is what an iterator visits, in ascending order of the keys;
    [db_put] and [db_del] are transactions, which may fail; [db_read] is the
    error of reading the value of an entry. *)
Class Database (DB : Type) := {
  db_entries : DB -> list (gostr * Data);
  db_put : gostr -> Data -> DB -> option error * DB;
  db_del : gostr -> DB -> option error * DB;
  db_read : DB -> gostr -> option error;
  db_close : DB -> option error;
}.

Section Contents.
Context {DB : Type} `{Database DB}.

Definition db_contents (d : DB) : gmap gostr Data := list_to_map (db_entries d).

Class DatabaseLaws : Prop := {
  dl_sorted : forall d, StronglySorted (fun a b => str_ltb a.1 b.1 = true) (db_entries d);
  dl_put : forall k v d d', db_put k v d = (None, d') -> db_contents d' = <[k := v]> (db_contents d);
  dl_put_err : forall k v d d' err, db_put k v d = (Some err, d') -> db_entries d' = db_entries d;
  dl_del : forall k d d', db_del k d = (None, d') -> db_contents d' = delete k (db_contents d);
  dl_del_err : forall k d d' err, db_del k d = (Some err, d') -> db_entries d' = db_entries d;
}.

(** No operation fails. *)
Class Faultless : Prop := {
  fl_put : forall k v d, (db_put k v d).1 = None;
  fl_del : forall k d, (db_del k d).1 = None;
  fl_read : forall d k, db_read d k = None;
}.
End Contents.
Arguments DatabaseLaws DB {_}.
Arguments Faultless DB {_}.

(** Hash sets: [hash_all] is [HGetAll], a Go map. *)
Class HashStore (DB : Type) := {
  hash_all : DB -> gostr -> gmap gostr Data;
  hash_set : gostr -> gostr -> Data -> DB -> option error * DB;
  hash_del : gostr -> gostr -> DB -> option error * DB;
  hash_read : DB -> gostr -> option error;     (* the error of HGetAll and HGet *)
  hash_close : DB -> option error;
}.

Class HashStoreLaws (DB : Type) `{HashStore DB} : Prop := {
  hl_set : forall h f v d d', hash_set h f v d = (None, d') ->
    forall h', hash_all d' h' = if str_eqb h h' then <[f := v]> (hash_all d h') else hash_all d h';
  hl_del : forall h f d d', hash_del h f d = (None, d') ->
    forall h', hash_all d' h' = if str_eqb h h' then delete f (hash_all d h') else hash_all d h';
  hl_set_ok : forall h f v d, (hash_set h f v d).1 = None;
  hl_del_ok : forall h f d, (hash_del h f d).1 = None;
  hl_read_ok : forall d h, hash_read d h = None;
}.

(** The configuration given to [Init]: [nil], the options of the hook, or a
    value of another type. *)
Inductive Config (O : Type) :=
| NilConfig
| GivenConfig (o : O)
| OtherConfig.
Arguments NilConfig {O}.
Arguments GivenConfig {O} o.
Arguments OtherConfig {O}.

(** [err] of a call, as an error of the method. *)
Definition fail_with {S A} (err : option error) (a : A) : GoM S A :=
  match err with Some e => throw e | None => mret a end.

(** ** Documents *)

Definition client_doc (id : gostr) (cl : Client) : storage_Client :=
  let props := Properties_Copy (cp_Props (cl_Properties cl)) false in
  {|
    sc_ID := id;
    sc_T := ClientKey;
    sc_Remote := net_Remote (cl_Net cl);
    sc_Listener := net_Listener (cl_Net cl);
    sc_Username := cp_ClientUsername (cl_Properties cl);
    sc_Clean := cp_CleanSession (cl_Properties cl);
    sc_ProtocolVersion := cp_ProtocolVersion (cl_Properties cl);
    sc_Properties := storage_ClientProperties0
      <| scp_SessionExpiryInterval := pr_SessionExpiryInterval props |>
      <| scp_AuthenticationMethod := pr_AuthenticationMethod props |>
      <| scp_AuthenticationData := pr_AuthenticationData props |>
      <| scp_RequestProblemInfo := pr_RequestProblemInfo props |>
      <| scp_RequestResponseInfo := pr_RequestResponseInfo props |>
      <| scp_ReceiveMaximum := pr_ReceiveMaximum props |>
      <| scp_TopicAliasMaximum := pr_TopicAliasMaximum props |>
      <| scp_User := pr_User props |>
      <| scp_MaximumPacketSize := pr_MaximumPacketSize props |>;
    sc_Will := cp_Will (cl_Properties cl);
  |}.

Definition subscription_doc (id : gostr) (cl : Client) (sub : Subscription) (reasonCode : Z) : storage_Subscription := {|
  ss_ID := id;
  ss_T := SubscriptionKey;
  ss_Client := cl_ID cl;
  ss_Qos := reasonCode;
  ss_Filter := sub_Filter sub;
  ss_Identifier := sub_Identifier sub;
  ss_NoLocal := sub_NoLocal sub;
  ss_RetainHandling := sub_RetainHandling sub;
  ss_RetainAsPublished := sub_RetainAsPublished sub;
|}.

Definition message_props (props : Properties) : storage_MessageProperties := storage_MessageProperties0
  <| smp_PayloadFormat := pr_PayloadFormat props |>
  <| smp_MessageExpiryInterval := pr_MessageExpiryInterval props |>
  <| smp_ContentType := pr_ContentType props |>
  <| smp_ResponseTopic := pr_ResponseTopic props |>
  <| smp_CorrelationData := pr_CorrelationData props |>
  <| smp_SubscriptionIdentifier := pr_SubscriptionIdentifier props |>
  <| smp_TopicAlias := pr_TopicAlias props |>
  <| smp_User := pr_User props |>.

Definition retained_doc (id : gostr) (cl : Client) (pk : Packet) : storage_Message := storage_Message0
  <| sm_ID := id |>
  <| sm_T := RetainedKey |>
  <| sm_FixedHeader := pk_FixedHeader pk |>
  <| sm_TopicName := pk_TopicName pk |>
  <| sm_Payload := pk_Payload pk |>
  <| sm_Created := pk_Created pk |>
  <| sm_Client := cl_ID cl |>
  <| sm_Origin := pk_Origin pk |>
  <| sm_Properties := message_props (Properties_Copy (pk_Properties pk) false) |>.

(** [packetID] is the id that is stored with the message. *)
Definition inflight_doc (id : gostr) (packetID : Z) (cl : Client) (pk : Packet) (sent : Z) : storage_Message := storage_Message0
  <| sm_ID := id |>
  <| sm_T := InflightKey |>
  <| sm_Client := cl_ID cl |>
  <| sm_Origin := pk_Origin pk |>
  <| sm_PacketID := packetID |>
  <| sm_FixedHeader := pk_FixedHeader pk |>
  <| sm_TopicName := pk_TopicName pk |>
  <| sm_Payload := pk_Payload pk |>
  <| sm_Sent := sent |>
  <| sm_Created := pk_Created pk |>
  <| sm_Properties := message_props (Properties_Copy (pk_Properties pk) false) |>.

Definition sysinfo_doc (id : gostr) (sys : Info) : storage_SystemInfo := mkStorageSystemInfo sys SysInfoKey id.

(** [obj := T{}; err = obj.UnmarshalBinary(value); if err == nil { v = append(v, obj) }; return err] *)
Definition visit_append {A} `{Serializable A} (v : list A) (value : Data) : list A * option error :=
  match UnmarshalBinary value (c_zero s_codec) with
  | (obj, None) => (v ++ [obj], None)
  | (_, Some err) => (v, Some err)
  end.

(** ** An iterator that seeks a prefix *)

Fixpoint drop_while {A} (p : A -> bool) (l : list A) : list A :=
  match l with
  | [] => []
  | x :: l' => if p x then drop_while p l' else l
  end.

(** [Seek(key)]: the entries from the first one that is not smaller. *)
Definition seek (key : gostr) (entries : list (gostr * Data)) : list (gostr * Data) :=
  drop_while (fun e => str_ltb e.1 key) entries.

(** ** The hook objects: their configuration and their database, [nil] until opened *)

Record StoreHook (O DB : Type) := mkStoreHook {
  sh_config : O;
  sh_db : option DB;
}.
Arguments mkStoreHook {O DB}.
Arguments sh_config {O DB}.
Arguments sh_db {O DB}.

Section StoreHook.
Context {O DB : Type}.
Let H := StoreHook O DB.

(** [if h.db == nil { log; return a }] *)
Definition unless_closed {A} (a : A) (m : GoM H A) : GoM H A := fun h =>
  match sh_db h with None => (Ok a, h) | Some _ => m h end.

(** An action on the open database. *)
Definition on_db {A} (m : GoM DB A) : GoM H A := zoom sh_db (fun d h => h <| sh_db := Some d |>) m.

(** A transaction that returns an error. *)
Definition transact (f : DB -> option error * DB) : GoM DB unit := fun d =>
  let '(err, d) := f d in fail_with err tt d.

(** [for i := 0; i < len(pk.Filters); i++] with [reasonCodes[i]] *)
Fixpoint for_filters (filters : list Subscription) (reasonCodes : bytes) (body : Subscription -> Z -> GoM H unit) : GoM H unit :=
  match filters, reasonCodes with
  | [], _ => mret tt
  | f :: fs, c :: cs => body f c;; for_filters fs cs body
  | _, [] => panic
  end.
End StoreHook.
