(* ===== verification/Debug.v ===== *)
(** * The debug hook (hooks/debug/debug.go)

    The hook provides every method and writes what it is told to the log. *)
From S2P Require Import Prelude Codes Effects Codec FixedHeader Properties Packets Topics Aliases Inflight System Clients Storage HookChain ClientIO Stores.

Record debug_Options := mkDebugOptions {
  do_Enable : bool;
  do_ShowPacketData : bool;
  do_ShowPings : bool;
  do_ShowPasswords : bool;
}.
Definition debug_Options0 : debug_Options := mkDebugOptions false false false false.

(** ** Log records *)

(** The values of [map[string]any]. *)
Inductive Value :=
  | VString (s : gostr)
  | VInt (n : Z)
  | VBool (b : bool)
  | VBytes (b : bytes)
  | VIntMap (m : gmap gostr Z)
  | VStrings (l : list gostr)
  | VInts (l : list Z)
  | VPacket (pk : Packet)
  | VMeta (m : gmap gostr Value).

Abbreviation Meta := (gmap gostr Value).

Inductive Level := LevelDebug | LevelInfo.
Record Entry := mkEntry {
  en_level : Level;
  en_msg : gostr;
  en_attrs : list (gostr * Value);
}.

(** The logger is nil until [SetOpts], the configuration until [Init]. *)
Record DebugHook := mkDebugHook {
  dh_config : option debug_Options;
  dh_Log : bool;
  dh_entries : list Entry;
}.
Definition DebugHook0 : DebugHook := mkDebugHook None false [].

Definition log (level : Level) (msg : gostr) (attrs : list (gostr * Value)) : GoM DebugHook unit := fun h =>
  if dh_Log h then (Ok tt, h <| dh_entries ::= fun l => l ++ [mkEntry level msg attrs] |>) else (Panic, h).
Definition log_method (m : gostr) : GoM DebugHook unit := log LevelDebug [] [(!"method", VString m)].

Definition config : GoM DebugHook debug_Options := fun h =>
  match dh_config h with Some c => (Ok c, h) | None => (Panic, h) end.

(** ** The metadata of a packet *)

Definition PacketNames (t : Z) : gostr :=
  if t =? 0 then !"Reserved" else if t =? Connect then !"Connect" else if t =? Connack then !"Connack"
  else if t =? Publish then !"Publish" else if t =? Puback then !"Puback" else if t =? Pubrec then !"Pubrec"
  else if t =? Pubrel then !"Pubrel" else if t =? Pubcomp then !"Pubcomp" else if t =? Subscribe then !"Subscribe"
  else if t =? Suback then !"Suback" else if t =? Unsubscribe then !"Unsubscribe" else if t =? Unsuback then !"Unsuback"
  else if t =? Pingreq then !"Pingreq" else if t =? Pingresp then !"Pingresp" else if t =? Disconnect then !"Disconnect"
  else if t =? Auth then !"Auth" else [].

(** [strings.ToUpper] of one of these names. *)
Definition to_upper (s : gostr) : gostr := map (fun c => if (97 <=? c) && (c <=? 122) then c - 32 else c) s.

Definition connect_meta (o : debug_Options) (pk : Packet) : Meta :=
  let c := pk_Connect pk in
  let m : Meta := <[!"username" := VString (cp_Username c)]> (<[!"version" := VInt (pk_ProtocolVersion pk)]>
    (<[!"keepalive" := VInt (cp_Keepalive c)]> (<[!"clean" := VBool (cp_Clean c)]>
    (<[!"id" := VString (cp_ClientIdentifier c)]> ∅)))) in
  let m := if do_ShowPasswords o then <[!"password" := VString (cp_Password c)]> m else m in
  if cp_WillFlag c
  then <[!"will_payload" := VString (cp_WillPayload c)]> (<[!"will_topic" := VString (cp_WillTopic c)]> m)
  else m.

Definition publish_meta (pk : Packet) : Meta :=
  <[!"id" := VInt (pk_PacketID pk)]> (<[!"qos" := VInt (pk_Qos pk)]> (<[!"raw" := VBytes (pk_Payload pk)]>
    (<[!"payload" := VString (pk_Payload pk)]> (<[!"topic" := VString (pk_TopicName pk)]> ∅)))).

Definition reason_meta (pk : Packet) : Meta :=
  let m : Meta := <[!"reason" := VInt (pk_ReasonCode pk)]> (<[!"id" := VInt (pk_PacketID pk)]> ∅) in
  if (Code_Code CodeSuccess <? pk_ReasonCode pk) && (pk_ProtocolVersion pk =? 5)
  then <[!"reason_string" := VString (pr_ReasonString (pk_Properties pk))]> m else m.

(** The identifiers are collected in [ids], and [f] is logged for them. *)
Definition subscribe_meta (pk : Packet) : Meta :=
  let '(f, ids) := foldl (fun fi v => (<[sub_Filter v := sub_Qos v]> fi.1, <[sub_Filter v := sub_Identifier v]> fi.2))
    ((∅, ∅) : gmap gostr Z * gmap gostr Z) (pk_Filters pk) in
  <[!"subids" := VIntMap f]> (<[!"filters" := VIntMap f]> ∅).

Definition packet_meta (o : debug_Options) (pk : Packet) : Meta :=
  let t := pk_Type pk in
  let m : Meta :=
    if t =? Connect then connect_meta o pk
    else if t =? Publish then publish_meta pk
    else if existsb (Z.eqb t) [Connack; Disconnect; Puback; Pubrec; Pubrel; Pubcomp] then reason_meta pk
    else if t =? Subscribe then subscribe_meta pk
    else if t =? Unsubscribe then <[!"filters" := VStrings (map sub_Filter (pk_Filters pk))]> ∅
    else if (t =? Suback) || (t =? Unsuback) then <[!"reasons" := VInts (pk_ReasonCodes pk)]> ∅
    else ∅ in
  if do_ShowPacketData o then <[!"packet" := VPacket pk]> m else m.

Definition packetMeta (pk : Packet) : GoM DebugHook Meta := o ← config; mret (packet_meta o pk).

(** [h.Log.Debug(msg, "m", h.packetMeta(pk))] *)
Definition log_packet (msg : gostr) (pk : Packet) : GoM DebugHook unit :=
  m ← packetMeta pk; log LevelDebug msg [(!"m", VMeta m)].

(** ** The methods *)

Definition debug_Provides (b : Z) : bool := true.

Definition debug_Init (c : Config debug_Options) : GoM DebugHook unit :=
  match c with
  | OtherConfig => throw EInvalidConfigType
  | NilConfig => modify (fun h => h <| dh_config := Some debug_Options0 |>)
  | GivenConfig o => modify (fun h => h <| dh_config := Some o |>)
  end.

Definition debug_SetOpts (caps : Capabilities) : GoM DebugHook unit :=
  modify (fun h => h <| dh_Log := true |>);; log_method !"SetOpts".
Definition debug_Stop : GoM DebugHook unit := log_method !"Stop".
Definition debug_OnStarted : GoM DebugHook unit := log_method !"OnStarted".
Definition debug_OnStopped : GoM DebugHook unit := log_method !"OnStopped".

(** [(pk is a ping) && !h.config.ShowPings] *)
Definition ping_hidden (pk : Packet) : GoM DebugHook bool :=
  if (pk_Type pk =? Pingresp) || (pk_Type pk =? Pingreq) then o ← config; mret (negb (do_ShowPings o)) else mret false.

Definition debug_OnPacketRead (cl : Client) (pk : Packet) : GoM DebugHook Packet :=
  hidden ← ping_hidden pk;
  when (negb hidden) (log_packet (to_upper (PacketNames (pk_Type pk)) ++ !" << " ++ cl_ID cl) pk);;
  mret pk.
Definition debug_OnPacketSent (cl : Client) (pk : Packet) (b : bytes) : GoM DebugHook unit :=
  hidden ← ping_hidden pk;
  when (negb hidden) (log_packet (to_upper (PacketNames (pk_Type pk)) ++ !" >> " ++ cl_ID cl) pk).
Definition debug_OnRetainMessage (cl : Client) (pk : Packet) (r : Z) : GoM DebugHook unit :=
  log_packet !"retained message on topic" pk.
Definition debug_OnQosPublish (cl : Client) (pk : Packet) (sent resends : Z) : GoM DebugHook unit :=
  log_packet !"inflight out" pk.
Definition debug_OnQosComplete (cl : Client) (pk : Packet) : GoM DebugHook unit :=
  log_packet !"inflight complete" pk;;
  log LevelInfo !"OnQosComplete" [(!"client", VString (cl_ID cl)); (!"payload", VString (pk_Payload pk));
    (!"topic", VString (pk_TopicName pk)); (!"Origin", VString (pk_Origin pk)); (!"PacketID", VInt (pk_PacketID pk))].
Definition debug_OnQosDropped (cl : Client) (pk : Packet) : GoM DebugHook unit := log_packet !"inflight dropped" pk.
(** [OnLWTSent] is not a method of the interface [Hook], and nothing calls it. *)
Definition debug_OnLWTSent (cl : Client) (pk : Packet) : GoM DebugHook unit :=
  log LevelDebug !"sent lwt for client" [(!"method", VString !"OnLWTSent"); (!"client", VString (cl_ID cl))].
Definition debug_OnRetainedExpired (filter : gostr) : GoM DebugHook unit :=
  log LevelDebug !"retained message expired" [(!"method", VString !"OnRetainedExpired"); (!"topic", VString filter)].
Definition debug_OnClientExpired (cl : Client) : GoM DebugHook unit :=
  log LevelDebug !"client session expired" [(!"method", VString !"OnClientExpired"); (!"client", VString (cl_ID cl))].
Definition debug_StoredClients : GoM DebugHook (list storage_Client) := log_method !"StoredClients";; mret [].
Definition debug_StoredSubscriptions : GoM DebugHook (list storage_Subscription) := log_method !"StoredSubscriptions";; mret [].
Definition debug_StoredRetainedMessages : GoM DebugHook (list storage_Message) := log_method !"StoredRetainedMessages";; mret [].
Definition debug_StoredInflightMessages : GoM DebugHook (list storage_Message) := log_method !"StoredInflightMessages";; mret [].
Definition debug_StoredSysInfo : GoM DebugHook storage_SystemInfo := log_method !"StoredSysInfo";; mret storage_SystemInfo0.

Definition debug_hook : Hook DebugHook (Config debug_Options) := HookBase
  <| h_ID := !"debug" |>
  <| h_Provides := debug_Provides |>
  <| h_Init := debug_Init |>
  <| h_SetOpts := debug_SetOpts |>
  <| h_Stop := debug_Stop |>
  <| h_OnStarted := debug_OnStarted |>
  <| h_OnStopped := debug_OnStopped |>
  <| h_OnPacketRead := debug_OnPacketRead |>
  <| h_OnPacketSent := debug_OnPacketSent |>
  <| h_OnRetainMessage := debug_OnRetainMessage |>
  <| h_OnQosPublish := debug_OnQosPublish |>
  <| h_OnQosComplete := debug_OnQosComplete |>
  <| h_OnQosDropped := debug_OnQosDropped |>
  <| h_OnRetainedExpired := debug_OnRetainedExpired |>
  <| h_OnClientExpired := debug_OnClientExpired |>
  <| h_StoredClients := debug_StoredClients |>
  <| h_StoredSubscriptions := debug_StoredSubscriptions |>
  <| h_StoredRetainedMessages := debug_StoredRetainedMessages |>
  <| h_StoredInflightMessages := debug_StoredInflightMessages |>
  <| h_StoredSysInfo := debug_StoredSysInfo |>.
