(* ===== verification/DebugFacts.v ===== *)
(** * What the debug hook changes

    A chain with debug hooks gives the server the answers of the chain without
    them, and the log of a server shows no password it was not told to show. *)
From S2P Require Import Prelude Codes Effects Codec FixedHeader Properties Packets Topics Aliases Inflight System Clients ClientIO Storage HookChain Stores Debug.

(** ** Calls that see the same *)

(** A debug hook that was added: it has its logger and its configuration. *)
Definition ready (d : DebugHook) : Prop := dh_Log d = true /\ is_Some (dh_config d).

Section Sees.
Context {W : Type}.

(** [sees m m']: with debug hooks in the chain [m] does what [m'] does without. *)
Definition sees {A} (m : GoM (W * DebugHook) A) (m' : GoM W A) : Prop :=
  forall w d, ready d -> exists d', m (w, d) = ((m' w).1, ((m' w).2, d')) /\ ready d'.

Lemma sees_ret {A} (a : A) : sees (mret a) (mret a).
Proof. intros w d Hd. by exists d. Qed.

Lemma sees_bind {A B} (m : GoM (W * DebugHook) A) m' (k : A -> GoM (W * DebugHook) B) k' :
  sees m m' -> (forall a, sees (k a) (k' a)) -> sees (m ≫= k) (m' ≫= k').
Proof.
  intros Hm Hk w d Hd. destruct (Hm w d Hd) as (d1 & E & Hd1). unfold mbind, GoM_bind. rewrite E.
  destruct (m' w) as [[a|err| |] w1]; cbn [fst snd]; [by apply Hk|by exists d1..].
Qed.

Lemma sees_attempt {A} (m : GoM (W * DebugHook) A) m' : sees m m' -> sees (attempt m) (attempt m').
Proof.
  intros Hm w d Hd. destruct (Hm w d Hd) as (d1 & E & Hd1). unfold attempt. rewrite E.
  destruct (m' w) as [[a|err| |] w1]; by exists d1.
Qed.

Lemma sees_throw {A} e : sees (throw e : GoM _ A) (throw e).
Proof. intros w d Hd. by exists d. Qed.

(** A call that a debug hook answers with [a]. *)
Definition silent {A} (a : A) (m : GoM DebugHook A) : Prop := forall d, ready d -> exists d', m d = (Ok a, d') /\ ready d'.
Lemma silent_ret {A} (a : A) : silent a (mret a).
Proof. intros d Hd. by exists d. Qed.

Lemma silent_bind {A B} a (b : B) (m : GoM DebugHook A) k : silent a m -> silent b (k a) -> silent b (m ≫= k).
Proof. intros Hm Hk d Hd. destruct (Hm d Hd) as (d1 & E & H1). unfold mbind, GoM_bind. rewrite E. by apply Hk. Qed.

Lemma silent_log level msg attrs : silent tt (log level msg attrs).
Proof. intros d [Hl Hc]. unfold log. rewrite Hl. eexists. split; [done|]. by split. Qed.

Lemma silent_log_packet msg pk : silent tt (log_packet msg pk).
Proof.
  intros d [Hl [o Ho]]. unfold log_packet, packetMeta, config, log, mbind, GoM_bind. rewrite Ho. cbn. rewrite Hl.
  eexists. split; [done|]. split; [done|]. by exists o.
Qed.

Lemma silent_packet pk (m : GoM DebugHook unit) :
  silent tt m -> silent tt (hidden ← ping_hidden pk; when (negb hidden) m).
Proof.
  intros Hm d Hd. destruct Hd as [Hl [o Ho]]. unfold ping_hidden, config, mbind, GoM_bind.
  destruct (_ || _); [rewrite Ho; cbn|by apply Hm; split].
  destruct (negb (negb (do_ShowPings o))); [by apply Hm; split|]. exists d. split; [done|]. by split.
Qed.
End Sees.

#[export] Hint Resolve silent_ret silent_log silent_log_packet silent_packet : silent.

(** ** Chains *)

Section Chain.
Context {W C : Type}.

(** A chain with debug hooks ([None]) in any places, and the chain without. *)
Definition plain_hook (h : Hook W C) : Hook (W * DebugHook) C := lift_hook fst (fun k w => (k, w.2)) id h.
Definition debug_in (conf : C -> Config debug_Options) : Hook (W * DebugHook) C :=
  lift_hook snd (fun k w => (w.1, k)) conf debug_hook.
Definition with_debug conf (hooks : list (option (Hook W C))) : list (Hook (W * DebugHook) C) :=
  map (from_option plain_hook (debug_in conf)) hooks.
Definition without_debug (hooks : list (option (Hook W C))) : list (Hook W C) := omap id hooks.

Context (conf : C -> Config debug_Options).

Lemma sees_lift {A} (m : GoM W A) : sees (lift fst (fun k w => (k, w.2)) m) m.
Proof. intros w d Hd. unfold lift. cbn [fst snd]. destruct (m w) as [r w']. by exists d. Qed.

Lemma lift_silent {A} (a : A) (m : GoM DebugHook A) :
  silent a m -> sees (lift snd (fun k (w : W * DebugHook) => (w.1, k)) m) (mret a).
Proof. intros Hm w d Hd. unfold lift. cbn [fst snd]. destruct (Hm d Hd) as (d' & -> & Hd'). by exists d'. Qed.

(** The four loops over the hooks. *)
Lemma sees_for_each hooks (body : Hook (W * DebugHook) C -> GoM (W * DebugHook) unit) (body' : Hook W C -> GoM W unit) :
  (forall h, sees (body (plain_hook h)) (body' h)) -> sees (body (debug_in conf)) (mret tt) ->
  sees (for_each (with_debug conf hooks) body) (for_each (without_debug hooks) body').
Proof.
  intros Hp Hd. induction hooks as [|[h|] hooks IH]; cbn [with_debug map without_debug omap list_omap for_each from_option id]; [apply sees_ret| |].
  - apply sees_bind; [apply Hp|intros _; exact IH].
  - change (sees (body (debug_in conf);; for_each (with_debug conf hooks) body) (mret tt;; for_each (without_debug hooks) body')).
    apply sees_bind; [done|intros _; exact IH].
Qed.

Lemma sees_pass {A} b hooks (call : Hook (W * DebugHook) C -> A -> GoM (W * DebugHook) A) (call' : Hook W C -> A -> GoM W A) x :
  (forall h x, sees (call (plain_hook h) x) (call' h x)) -> (forall x, sees (call (debug_in conf) x) (mret x)) ->
  sees (pass b call (with_debug conf hooks) x) (pass b call' (without_debug hooks) x).
Proof.
  intros Hp Hd. induction hooks as [|[h|] hooks IH] in x |- *; cbn [with_debug map without_debug omap list_omap pass from_option id]; [apply sees_ret| |].
  - change (h_Provides (plain_hook h) b) with (h_Provides h b). destruct (h_Provides h b); [|apply IH].
    apply sees_bind; [apply Hp|intros y; apply IH].
  - change (sees (y ← call (debug_in conf) x; pass b call (with_debug conf hooks) y) (y ← mret x; pass b call' (without_debug hooks) y)).
    apply sees_bind; [apply Hd|intros y; apply IH].
Qed.

Lemma sees_any b hooks (call : Hook (W * DebugHook) C -> GoM (W * DebugHook) bool) (call' : Hook W C -> GoM W bool) :
  (forall h, sees (call (plain_hook h)) (call' h)) -> sees (call (debug_in conf)) (mret false) ->
  sees (any b call (with_debug conf hooks)) (any b call' (without_debug hooks)).
Proof.
  intros Hp Hd. induction hooks as [|[h|] hooks IH]; cbn [with_debug map without_debug omap list_omap any from_option id]; [apply sees_ret| |].
  - change (h_Provides (plain_hook h) b) with (h_Provides h b). destruct (h_Provides h b); [|apply IH].
    apply sees_bind; [apply Hp|intros []; [apply sees_ret|apply IH]].
  - change (sees (ok ← call (debug_in conf); if (ok : bool) then mret true else any b call (with_debug conf hooks))
      (ok ← mret false; if (ok : bool) then mret true else any b call' (without_debug hooks))).
    apply sees_bind; [apply Hd|intros []; [apply sees_ret|apply IH]].
Qed.

Lemma sees_first_stored {A} b hooks (call : Hook (W * DebugHook) C -> GoM (W * DebugHook) A) (call' : Hook W C -> GoM W A) full none v0 :
  (forall h, sees (call (plain_hook h)) (call' h)) -> sees (call (debug_in conf)) (mret v0) -> full v0 = false ->
  sees (first_stored b call full none (with_debug conf hooks)) (first_stored b call' full none (without_debug hooks)).
Proof.
  intros Hp Hd Hv. induction hooks as [|[h|] hooks IH]; cbn [with_debug map without_debug omap list_omap first_stored from_option id]; [apply sees_ret| |].
  - change (h_Provides (plain_hook h) b) with (h_Provides h b). destruct (h_Provides h b); [|apply IH].
    apply sees_bind; [apply Hp|intros v; destruct (full v); [apply sees_ret|apply IH]].
  - intros w d Hr. change (h_Provides (debug_in conf) b) with true. cbn iota. unfold mbind, GoM_bind.
    destruct (Hd w d Hr) as (d' & -> & Hr'). cbn [fst snd mret GoM_ret]. rewrite Hv. by apply IH.
Qed.

(** The two sets of hooks. *)
Context (hooks : list (option (Hook W C))) (q g q' g' : Z).
Let debugged : HookSet (W * DebugHook) C := mkHookSet (with_debug conf hooks) q g.
Let plain : HookSet W C := mkHookSet (without_debug hooks) q' g'.

Lemma sees_notify b (call : Hook (W * DebugHook) C -> GoM (W * DebugHook) unit) (call' : Hook W C -> GoM W unit) :
  (forall h, sees (call (plain_hook h)) (call' h)) -> sees (call (debug_in conf)) (mret tt) ->
  sees (notify debugged b call) (notify plain b call').
Proof.
  intros Hp Hd. apply sees_for_each; [|exact Hd]. intros h. change (h_Provides (plain_hook h) b) with (h_Provides h b).
  destruct (h_Provides h b); [apply Hp|apply sees_ret].
Qed.

Lemma silent_tell ev :
  match ev with
  | OnPacketSent cl pk b => silent tt (h_OnPacketSent debug_hook cl pk b)
  | OnRetainMessage cl pk r => silent tt (h_OnRetainMessage debug_hook cl pk r)
  | OnQosPublish cl pk sent resends => silent tt (h_OnQosPublish debug_hook cl pk sent resends)
  | OnQosComplete cl pk => silent tt (h_OnQosComplete debug_hook cl pk)
  | OnQosDropped cl pk => silent tt (h_OnQosDropped debug_hook cl (dropped_info cl pk))
  | OnRetainedExpired filter => silent tt (h_OnRetainedExpired debug_hook filter)
  | OnClientExpired cl => silent tt (h_OnClientExpired debug_hook cl)
  | _ => True
  end.
Proof.
  destruct ev; try done; try (apply silent_log_packet || apply silent_log || (apply silent_packet, silent_log_packet)).
  eapply silent_bind; [apply silent_log_packet|apply silent_log].
Qed.

Lemma sees_tell ev : sees (tell debugged ev) (tell plain ev).
Proof.
  pose proof (silent_tell ev) as Hs. destruct ev; cbn [tell]; try (apply sees_notify; [intros h; apply sees_lift|apply lift_silent; (exact Hs || apply silent_ret)]).
  apply sees_ret.
Qed.

(** What the server is answered. *)
Definition same_answers (k k' : Hooks) : Prop :=
  (forall cl pk, hk_OnPacketRead k cl pk = hk_OnPacketRead k' cl pk) /\
  (forall cl pk, hk_OnPacketEncode k cl pk = hk_OnPacketEncode k' cl pk) /\
  (forall cl pk, hk_OnConnect k cl pk = hk_OnConnect k' cl pk) /\
  (forall cl pk, hk_OnConnectAuthenticate k cl pk = hk_OnConnectAuthenticate k' cl pk) /\
  (forall cl topic write, hk_OnACLCheck k cl topic write = hk_OnACLCheck k' cl topic write) /\
  (forall cl pk, hk_OnAuthPacket k cl pk = hk_OnAuthPacket k' cl pk) /\
  (forall cl pk, hk_OnSubscribe k cl pk = hk_OnSubscribe k' cl pk) /\
  (forall cl pk, hk_OnUnsubscribe k cl pk = hk_OnUnsubscribe k' cl pk) /\
  (forall subs pk, hk_OnSelectSubscribers k subs pk = hk_OnSelectSubscribers k' subs pk) /\
  (forall cl pk, hk_OnPublish k cl pk = hk_OnPublish k' cl pk) /\
  (forall cl will, hk_OnWill k cl will = hk_OnWill k' cl will).

Lemma answer_sees {A} (a : A) (m : GoM (W * DebugHook) A) (m' : GoM W A) w d : ready d -> sees m m' -> answer a (m (w, d)) = answer a (m' w).
Proof. intros Hd Hm. destruct (Hm w d Hd) as (d' & -> & _). done. Qed.

Lemma sees_or_original pk m m' : sees m m' -> sees (or_original (W := W * DebugHook) pk m) (or_original pk m').
Proof. intros Hm. apply sees_bind; [by apply sees_attempt|]. intros [pkx|err]; apply sees_ret. Qed.

Lemma sees_or_skip {A} stop (call : A -> GoM (W * DebugHook) A) call' x :
  sees (call x) (call' x) -> sees (or_skip stop call x) (or_skip stop call' x).
Proof.
  intros Hc. apply sees_bind; [by apply sees_attempt|]. intros [y|err]; [apply sees_ret|].
  destruct (stop err); [apply sees_throw|apply sees_ret].
Qed.

Lemma silent_or_skip {A} stop (call : A -> GoM (W * DebugHook) A) x :
  sees (call x) (mret x) -> sees (or_skip stop call x) (mret x).
Proof.
  intros Hc w d Hd. destruct (Hc w d Hd) as (d' & E & Hd'). unfold or_skip, attempt, mbind, GoM_bind. rewrite E. by exists d'.
Qed.

Lemma debug_reads cl pk : silent pk (h_OnPacketRead debug_hook cl pk).
Proof.
  intros d Hd. destruct (silent_packet pk _ (silent_log_packet (to_upper (PacketNames (pk_Type pk)) ++ !" << " ++ cl_ID cl) pk) d Hd) as (d' & E & Hd').
  exists d'. split; [|done]. change (h_OnPacketRead debug_hook cl pk) with (debug_OnPacketRead cl pk).
  unfold debug_OnPacketRead, mbind, GoM_bind in *. destruct (ping_hidden pk d) as [[hidden|err| |] d1]; try done. by rewrite E.
Qed.

(** A method that the debug hook leaves to [HookBase]. *)
Tactic Notation "unchanged" uconstr(loop) := apply loop; intros; [apply sees_lift|apply lift_silent, silent_ret].

(** [Provides] is what a debug hook does answer: it is asked whether the chain
    has a store to restore from. *)
Lemma provides_debugged bs :
  Hooks_Provides debugged bs = true <-> Hooks_Provides plain bs = true \/ (None ∈ hooks /\ bs <> []).
Proof.
  unfold Hooks_Provides, debugged, plain, Hooks_GetAll. cbn [hs_internal].
  induction hooks as [|[h|] l IH]; cbn [with_debug map without_debug omap list_omap existsb from_option id].
  - split; [done|]. by intros [?|[?%elem_of_nil _]].
  - change (existsb (h_Provides (plain_hook h)) bs) with (existsb (h_Provides h) bs).
    rewrite !orb_true_iff, elem_of_cons. etrans; [apply or_iff_compat_l, IH|]. naive_solver.
  - change (existsb (h_Provides (debug_in conf)) bs) with (existsb (fun _ : Z => true) bs).
    rewrite elem_of_cons, orb_true_iff. etrans; [apply or_iff_compat_l, IH|]. destruct bs; naive_solver.
Qed.

(** C21: What debug hooks in any places of a chain of hooks change: nothing of
    what the server is answered or what the others do, but for the question
    whether the chain provides a method. Every other question of the server to
    the chain has the answer of the chain without them (a packet read, published
    or encoded passes on unchanged, no access is granted or refused), every
    event is passed to the others with the same effect and result, and what is
    restored is what the others have stored. [Provides], which the server asks
    before it restores from a store, is always answered yes. *)
Theorem debug_transparent w d :
  ready d ->
  same_answers (chain_hooks debugged (w, d)) (chain_hooks plain w) /\
  (forall ev, sees (tell debugged ev) (tell plain ev)) /\
  sees (Hooks_StoredClients debugged) (Hooks_StoredClients plain) /\
  sees (Hooks_StoredSubscriptions debugged) (Hooks_StoredSubscriptions plain) /\
  sees (Hooks_StoredInflightMessages debugged) (Hooks_StoredInflightMessages plain) /\
  sees (Hooks_StoredRetainedMessages debugged) (Hooks_StoredRetainedMessages plain) /\
  sees (Hooks_StoredSysInfo debugged) (Hooks_StoredSysInfo plain) /\
  (forall bs, Hooks_Provides debugged bs = true <-> Hooks_Provides plain bs = true \/ (None ∈ hooks /\ bs <> [])).
Proof.
  intros Hd. split_and!; [|exact sees_tell|..|exact provides_debugged].
  2-6: eapply sees_first_stored; [intros h; apply sees_lift|apply lift_silent; eapply silent_bind; [apply silent_log|apply silent_ret]|done].
  split_and!; intros; cbn [chain_hooks hk_OnPacketRead hk_OnPacketEncode hk_OnConnect hk_OnConnectAuthenticate hk_OnACLCheck hk_OnAuthPacket
    hk_OnSubscribe hk_OnUnsubscribe hk_OnSelectSubscribers hk_OnPublish hk_OnWill].
  1: { apply answer_sees; [done|]. apply sees_or_original, sees_pass; [intros h x; apply sees_or_skip, sees_lift|].
       intros x. apply silent_or_skip, lift_silent, debug_reads. }
  - apply answer_sees; [done|]. unchanged sees_pass.
  - unfold Hooks_OnConnect. destruct (sees_notify code_OnConnect (fun hook => h_OnConnect hook cl pk) (fun hook => h_OnConnect hook cl pk)
      ltac:(intros h; apply sees_lift) ltac:(apply lift_silent, silent_ret) w d Hd) as (d' & -> & _). done.
  - apply answer_sees; [done|]. unchanged sees_any.
  - apply answer_sees; [done|]. unchanged sees_any.
  - f_equal. apply answer_sees; [done|]. apply sees_or_original, sees_pass; intros; [apply sees_lift|apply lift_silent, silent_ret].
  - apply answer_sees; [done|]. unchanged sees_pass.
  - apply answer_sees; [done|]. unchanged sees_pass.
  - apply answer_sees; [done|]. unchanged (sees_pass code_OnSelectSubscribers hooks (fun hook subs => h_OnSelectSubscribers hook subs pk)).
  - apply answer_sees; [done|]. apply sees_or_original, sees_pass; intros; [apply sees_lift|apply lift_silent, silent_ret].
  - apply answer_sees; [done|]. apply sees_pass; intros; [apply sees_or_skip, sees_lift|apply silent_or_skip, lift_silent, silent_ret].
Qed.
End Chain.

(** ** What is logged *)

(** The packet with another password. *)
Definition with_password (pw : bytes) (pk : Packet) : Packet := pk <| pk_Connect ::= fun c => c <| cp_Password := pw |> |>.

Lemma meta_hides o pk pw :
  do_ShowPasswords o = false -> do_ShowPacketData o = false -> packet_meta o (with_password pw pk) = packet_meta o pk.
Proof. intros H1 H2. unfold packet_meta, connect_meta. rewrite H1, H2. done. Qed.

Lemma log_packet_hides msg pk pw d o :
  dh_config d = Some o -> do_ShowPasswords o = false -> do_ShowPacketData o = false ->
  log_packet msg (with_password pw pk) d = log_packet msg pk d.
Proof.
  intros Hc H1 H2. unfold log_packet, packetMeta, config, mbind, GoM_bind. rewrite Hc. cbn [mret GoM_ret].
  by rewrite meta_hides.
Qed.

(** C22: The log keeps passwords to itself. With [ShowPasswords] and
    [ShowPacketData] off, as they are by default, what the debug hook writes
    when a packet is read, sent, retained or tracked does not depend on the
    password in the packet. *)
Theorem passwords_hidden o d cl pk pw n m b :
  dh_config d = Some o -> do_ShowPasswords o = false -> do_ShowPacketData o = false ->
  let pk' := with_password pw pk in
  (debug_OnPacketRead cl pk' d).2 = (debug_OnPacketRead cl pk d).2 /\
  (debug_OnPacketSent cl pk' b d).2 = (debug_OnPacketSent cl pk b d).2 /\
  (debug_OnRetainMessage cl pk' n d).2 = (debug_OnRetainMessage cl pk n d).2 /\
  (debug_OnQosPublish cl pk' n m d).2 = (debug_OnQosPublish cl pk n m d).2 /\
  (debug_OnQosComplete cl pk' d).2 = (debug_OnQosComplete cl pk d).2 /\
  (debug_OnQosDropped cl pk' d).2 = (debug_OnQosDropped cl pk d).2.
Proof.
  intros Hc H1 H2. cbn zeta.
  assert (Hlog : forall msg d', dh_config d' = Some o -> log_packet msg (with_password pw pk) d' = log_packet msg pk d')
    by (intros; by eapply log_packet_hides).
  assert (Hping : ping_hidden (with_password pw pk) = ping_hidden pk) by done.
  assert (Hp : forall msg, (hidden ← ping_hidden pk; when (negb hidden) (log_packet msg (with_password pw pk))) d =
    (hidden ← ping_hidden pk; when (negb hidden) (log_packet msg pk)) d).
  { intros msg. unfold ping_hidden, config, mbind, GoM_bind. destruct (_ || _); [rewrite Hc; cbn|by apply Hlog].
    destruct (negb (negb _)); [by apply Hlog|done]. }
  split_and!; try (f_equal; by apply Hlog).
  - specialize (Hp (to_upper (PacketNames (pk_Type pk)) ++ !" << " ++ cl_ID cl)). unfold debug_OnPacketRead. rewrite Hping.
    change (pk_Type (with_password pw pk)) with (pk_Type pk). revert Hp. unfold mbind, GoM_bind.
    destruct (ping_hidden pk d) as [[hidden|err| |] d1]; try done. intros ->. by destruct (when _ _ d1) as [[[]|err| |] d2].
  - f_equal. apply Hp.
  - unfold debug_OnQosComplete, mbind, GoM_bind. rewrite (Hlog _ d Hc). done.
Qed.

(** ** Samples *)

Definition quiet_hook : DebugHook := mkDebugHook (Some debug_Options0) true [].

Lemma passwords_hidden_witness
    (pk := Packet0 <| pk_FixedHeader := FixedHeader0 <| fh_Type := Connect |> |> <| pk_Connect ::= fun c => c <| cp_Password := !"secret" |> |>) :
  (debug_OnPacketRead (newClient DefaultOptions None) pk quiet_hook).2 =
  (debug_OnPacketRead (newClient DefaultOptions None) (with_password [] pk) quiet_hook).2.
Proof.
  symmetry. apply (passwords_hidden debug_Options0 quiet_hook (newClient DefaultOptions None) pk [] 0 0 []); reflexivity.
Defined.

(** A hook that counts publishes, before and after debug hooks. *)
Definition publish_counter : Hook Z unit := HookBase
  <| h_Provides := fun b => b =? code_OnPublish |>
  <| h_OnPublish := fun _ pk n => (Ok (pk <| pk_Created := n |>), n + 1) |>.

Lemma debug_transparent_witness
    (chain := mkHookSet (with_debug (fun _ : unit => NilConfig) [None; Some publish_counter; None]) 3 3) (cl := newClient DefaultOptions None) :
  hk_OnPublish (chain_hooks chain (5, quiet_hook)) cl Packet0 = (Packet0 <| pk_Created := 5 |>, None) /\
  sees (tell chain (OnPublished cl Packet0)) (tell (mkHookSet [publish_counter] 1 1) (OnPublished cl Packet0)).
Proof.
  destruct (debug_transparent (fun _ : unit => NilConfig) [None; Some publish_counter; None] 3 3 1 1 5 quiet_hook) as ((_ & _ & _ & _ & _ & _ & _ & _ & _ & Hp & _) & Ht & _).
  - split; [reflexivity|eexists; reflexivity].
  - split; [|apply Ht]. rewrite Hp. reflexivity.
Defined.

(** The identifiers of a subscribe packet are logged as its qos values. *)
Lemma subids_are_qos (pk := Packet0 <| pk_Filters := [Subscription0 <| sub_Filter := !"a" |> <| sub_Identifier := 7 |>] |>) :
  subscribe_meta pk !! (!"subids") = Some (VIntMap {[ !"a" := 0 ]}).
Proof. vm_compute. reflexivity. Qed.
