(* ===== verification/Badger.v ===== *)
(** * The badger storage hook (hooks/storage/badger/badger.go)

    The methods of the hook over a [Database], and the hook object they make.
    The garbage collection of the value log runs in the database and does not
    change its contents; [Open] of the database is a parameter. *)
From Stdlib Require Import QArith.
From S2P Require Import Prelude Codes Effects Codec FixedHeader Properties Packets Topics Inflight System Clients Json JsonCodec Storage HookChain Stores.

Definition badger_clientKey (cl : Client) : gostr := ClientKey ++ !"_" ++ cl_ID cl.
Definition badger_subscriptionKey (cl : Client) (filter : gostr) : gostr :=
  SubscriptionKey ++ !"_" ++ cl_ID cl ++ !":" ++ filter.
Definition badger_retainedKey (topic : gostr) : gostr := RetainedKey ++ !"_" ++ topic.
Definition badger_inflightKey (cl : Client) (pk : Packet) : gostr :=
  InflightKey ++ !"_" ++ cl_ID cl ++ !":" ++ FormatID pk.
Definition badger_sysInfoKey : gostr := SysInfoKey.

(** The options of the database itself are left to [Open]. *)
Record badger_Options := mkBadgerOptions {
  bgo_Path : gostr;
  bgo_GcDiscardRatio : Q;
  bgo_GcInterval : Z;
}.
Definition badger_Options0 : badger_Options := mkBadgerOptions [] 0 0.

Definition badger_Provides (b : Z) : bool :=
  existsb (Z.eqb b) [code_OnSessionEstablished; code_OnDisconnect; code_OnSubscribed; code_OnUnsubscribed;
    code_OnRetainMessage; code_OnWillSent; code_OnQosPublish; code_OnQosComplete; code_OnQosDropped; code_OnSysInfoTick;
    code_OnClientExpired; code_OnRetainedExpired; code_StoredClients; code_StoredInflightMessages;
    code_StoredRetainedMessages; code_StoredSubscriptions; code_StoredSysInfo].

Section Badger.
Context {DB : Type} `{Database DB} (Open : badger_Options -> DB + error).
Let Hook := StoreHook badger_Options DB.

(** ** The database *)

Definition badger_setKv {A} `{Serializable A} (k : gostr) (v : A) : GoM Hook unit :=
  on_db (transact (db_put k (MarshalBinary v))).

Definition badger_delKv (k : gostr) : GoM Hook unit := on_db (transact (db_del k)).

Definition badger_getKv {A} `{Serializable A} (k : gostr) (v : A) : GoM Hook (A * option error) :=
  on_db (fun d =>
    match db_contents d !! k with
    | None => (Ok (v, Some EDBKeyNotFound), d)
    | Some value =>
        match db_read d k with
        | Some err => (Ok (v, Some err), d)
        | None => (Ok (UnmarshalBinary value v), d)
        end
    end).

(** [for iterator.Seek(prefix); iterator.ValidForPrefix(prefix); iterator.Next()] *)
Fixpoint badger_iter_loop {A} (d : DB) (prefix : gostr) (visit : list A -> Data -> list A * option error)
    (entries : list (gostr * Data)) (v : list A) : list A * option error :=
  match entries with
  | [] => (v, None)
  | (k, value) :: entries =>
      if has_prefix prefix k then
        match db_read d k with
        | Some err => (v, Some err)
        | None =>
            match visit v value with
            | (v, Some err) => (v, Some err)
            | (v, None) => badger_iter_loop d prefix visit entries v
            end
        end
      else (v, None)
  end.

Definition badger_iterKv {A} (prefix : gostr) (visit : list A -> Data -> list A * option error) : GoM Hook (list A * option error) :=
  on_db (fun d => (Ok (badger_iter_loop d prefix visit (seek prefix (db_entries d)) []), d)).

(** ** Starting and stopping *)

Definition badger_defaultDbFile : gostr := !".badger".
Definition badger_defaultGcInterval : Z := 5 * 60.
Definition badger_defaultGcDiscardRatio : Q := (1 # 2)%Q.

Definition badger_defaults (o : badger_Options) : badger_Options :=
  let o := if nonempty (bgo_Path o) then o else o <| bgo_Path := badger_defaultDbFile |> in
  let o := if bgo_GcInterval o =? 0 then o <| bgo_GcInterval := badger_defaultGcInterval |> else o in
  if Qle_bool (bgo_GcDiscardRatio o) 0 || Qle_bool 1 (bgo_GcDiscardRatio o)
  then o <| bgo_GcDiscardRatio := badger_defaultGcDiscardRatio |> else o.

Definition badger_Init (config : Config badger_Options) : GoM Hook unit := fun h =>
  match config with
  | OtherConfig => (Err EInvalidConfigType, h)
  | NilConfig | GivenConfig _ =>
      let o := badger_defaults match config with GivenConfig o => o | _ => badger_Options0 end in
      match Open o with
      | inl d => (Ok tt, mkStoreHook o (Some d))
      | inr err => (Err err, mkStoreHook o None)
      end
  end.

(** The hook keeps the closed database. *)
Definition badger_Stop : GoM Hook unit := on_db (fun d => fail_with (db_close d) tt d).

(** ** Events *)

Definition badger_updateClient (cl : Client) : GoM Hook unit :=
  unless_closed tt (ignore (badger_setKv (badger_clientKey cl) (client_doc (cl_ID cl) cl))).

Definition badger_OnSessionEstablished (cl : Client) (pk : Packet) : GoM Hook unit := badger_updateClient cl.
Definition badger_OnWillSent (cl : Client) (pk : Packet) : GoM Hook unit := badger_updateClient cl.

(** [errors.Is(cl.StopCause(), packets.ErrSessionTakenOver)] *)
Definition stopped_by_takeover (cause : option error) : bool :=
  match cause with Some err => error_is err ErrSessionTakenOver | None => false end.

Definition badger_OnDisconnect (cl : Client) (err : option error) (expire : bool) : GoM Hook unit :=
  unless_closed tt (
    badger_updateClient cl;;
    if negb expire then mret tt
    else if stopped_by_takeover (Client_StopCause cl) then mret tt
    else ignore (badger_delKv (badger_clientKey cl))).

Definition badger_OnSubscribed (cl : Client) (pk : Packet) (reasonCodes : bytes) : GoM Hook unit :=
  unless_closed tt (for_filters (pk_Filters pk) reasonCodes (fun f c =>
    let key := badger_subscriptionKey cl (sub_Filter f) in
    ignore (badger_setKv key (subscription_doc key cl f c)))).

Definition badger_OnUnsubscribed (cl : Client) (pk : Packet) : GoM Hook unit :=
  unless_closed tt (for_each (pk_Filters pk) (fun f => ignore (badger_delKv (badger_subscriptionKey cl (sub_Filter f))))).

Definition badger_OnRetainMessage (cl : Client) (pk : Packet) (r : Z) : GoM Hook unit :=
  unless_closed tt (
    if r =? -1 then ignore (badger_delKv (badger_retainedKey (pk_TopicName pk)))
    else let key := badger_retainedKey (pk_TopicName pk) in ignore (badger_setKv key (retained_doc key cl pk))).

Definition badger_OnQosPublish (cl : Client) (pk : Packet) (sent resends : Z) : GoM Hook unit :=
  unless_closed tt (
    let key := badger_inflightKey cl pk in ignore (badger_setKv key (inflight_doc key (pk_PacketID pk) cl pk sent))).

Definition badger_OnQosComplete (cl : Client) (pk : Packet) : GoM Hook unit :=
  unless_closed tt (ignore (badger_delKv (badger_inflightKey cl pk))).
Definition badger_OnQosDropped (cl : Client) (pk : Packet) : GoM Hook unit := badger_OnQosComplete cl pk.

Definition badger_OnSysInfoTick (sys : Info) : GoM Hook unit :=
  unless_closed tt (ignore (badger_setKv badger_sysInfoKey (sysinfo_doc badger_sysInfoKey sys))).

Definition badger_OnRetainedExpired (filter : gostr) : GoM Hook unit :=
  unless_closed tt (ignore (badger_delKv (badger_retainedKey filter))).
Definition badger_OnClientExpired (cl : Client) : GoM Hook unit :=
  unless_closed tt (ignore (badger_delKv (badger_clientKey cl))).

(** ** What is stored *)

(** [err = h.iterKv(prefix, ...); return] *)
Definition badger_stored {A} `{Serializable A} (prefix : gostr) : GoM Hook (list A) :=
  unless_closed [] (
    r ← badger_iterKv prefix visit_append;
    fail_with r.2 r.1).

Definition badger_StoredClients : GoM Hook (list storage_Client) := badger_stored ClientKey.
Definition badger_StoredSubscriptions : GoM Hook (list storage_Subscription) := badger_stored SubscriptionKey.
Definition badger_StoredRetainedMessages : GoM Hook (list storage_Message) := badger_stored RetainedKey.
Definition badger_StoredInflightMessages : GoM Hook (list storage_Message) := badger_stored InflightKey.

Definition badger_StoredSysInfo : GoM Hook storage_SystemInfo :=
  unless_closed storage_SystemInfo0 (
    r ← badger_getKv SysInfoKey storage_SystemInfo0;
    match r.2 with
    | Some EDBKeyNotFound | None => mret r.1
    | Some err => throw err
    end).

(** ** The hook *)

Definition badger_hook : HookChain.Hook Hook (Config badger_Options) := HookBase
  <| h_ID := !"badger-db" |>
  <| h_Provides := badger_Provides |>
  <| h_Init := badger_Init |>
  <| h_Stop := badger_Stop |>
  <| h_OnSessionEstablished := badger_OnSessionEstablished |>
  <| h_OnWillSent := badger_OnWillSent |>
  <| h_OnDisconnect := badger_OnDisconnect |>
  <| h_OnSubscribed := badger_OnSubscribed |>
  <| h_OnUnsubscribed := badger_OnUnsubscribed |>
  <| h_OnRetainMessage := badger_OnRetainMessage |>
  <| h_OnQosPublish := badger_OnQosPublish |>
  <| h_OnQosComplete := badger_OnQosComplete |>
  <| h_OnQosDropped := badger_OnQosDropped |>
  <| h_OnSysInfoTick := badger_OnSysInfoTick |>
  <| h_OnRetainedExpired := badger_OnRetainedExpired |>
  <| h_OnClientExpired := badger_OnClientExpired |>
  <| h_StoredClients := badger_StoredClients |>
  <| h_StoredSubscriptions := badger_StoredSubscriptions |>
  <| h_StoredRetainedMessages := badger_StoredRetainedMessages |>
  <| h_StoredInflightMessages := badger_StoredInflightMessages |>
  <| h_StoredSysInfo := badger_StoredSysInfo |>.
End Badger.
