(* ===== verification/Bolt.v ===== *)
(** * The bolt storage hook (hooks/storage/bolt/bolt.go)

    The methods of the hook over a [Database] (the bucket of the configuration),
    and the hook object they make. Opening the database and creating the bucket
    are parameters. Unlike the badger hook, it does not refresh a client that
    disconnects, stores in-flight messages without their packet id, and reports
    a closed database as an error. *)
From S2P Require Import Prelude Codes Effects Codec FixedHeader Properties Packets Topics Inflight System Clients Json JsonCodec Storage HookChain Stores.

Definition bolt_clientKey (cl : Client) : gostr := ClientKey ++ !"_" ++ cl_ID cl.
Definition bolt_subscriptionKey (cl : Client) (filter : gostr) : gostr :=
  SubscriptionKey ++ !"_" ++ cl_ID cl ++ !":" ++ filter.
Definition bolt_retainedKey (topic : gostr) : gostr := RetainedKey ++ !"_" ++ topic.
Definition bolt_inflightKey (cl : Client) (pk : Packet) : gostr :=
  InflightKey ++ !"_" ++ cl_ID cl ++ !":" ++ FormatID pk.
Definition bolt_sysInfoKey : gostr := SysInfoKey.

(** The options of the database itself are left to [Open]. *)
Record bolt_Options := mkBoltOptions {
  blo_Bucket : gostr;
  blo_Path : gostr;
}.

Definition bolt_Provides (b : Z) : bool :=
  existsb (Z.eqb b) [code_OnSessionEstablished; code_OnDisconnect; code_OnSubscribed; code_OnUnsubscribed;
    code_OnRetainMessage; code_OnWillSent; code_OnQosPublish; code_OnQosComplete; code_OnQosDropped; code_OnSysInfoTick;
    code_OnClientExpired; code_OnRetainedExpired; code_StoredClients; code_StoredInflightMessages;
    code_StoredRetainedMessages; code_StoredSubscriptions; code_StoredSysInfo].

Section Bolt.
Context {DB : Type} `{Database DB} (Open : bolt_Options -> DB + error)
  (CreateBucket : gostr -> DB -> option error * DB).
Let Hook := StoreHook bolt_Options DB.

(** ** The database *)

Definition bolt_setKv {A} `{Serializable A} (k : gostr) (v : A) : GoM Hook unit :=
  on_db (transact (db_put k (MarshalBinary v))).

Definition bolt_delKv (k : gostr) : GoM Hook unit := on_db (transact (db_del k)).

Definition bolt_getKv {A} `{Serializable A} (k : gostr) (v : A) : GoM Hook (A * option error) :=
  on_db (fun d =>
    match db_contents d !! k with
    | None => (Ok (v, Some EDBKeyNotFound), d)
    | Some value => (Ok (UnmarshalBinary value v), d)
    end).

(** [for k, v := c.Seek(prefix); k != nil && string(k[:len(prefix)]) == prefix; k, v = c.Next()]:
    slicing a key that is shorter than the prefix panics. *)
Fixpoint bolt_iter_loop {A} (prefix : gostr) (visit : list A -> Data -> list A * option error)
    (entries : list (gostr * Data)) (v : list A) : result error (list A * option error) :=
  match entries with
  | [] => Ok (v, None)
  | (k, value) :: entries =>
      if (length k <? length prefix)%nat then Panic
      else if str_eqb (take (length prefix) k) prefix then
        match visit v value with
        | (v, Some err) => Ok (v, Some err)
        | (v, None) => bolt_iter_loop prefix visit entries v
        end
      else Ok (v, None)
  end.

Definition bolt_iterKv {A} (prefix : gostr) (visit : list A -> Data -> list A * option error) : GoM Hook (list A * option error) :=
  on_db (fun d => (bolt_iter_loop prefix visit (seek prefix (db_entries d)) [], d)).

(** ** Starting and stopping *)

Definition bolt_defaultDbFile : gostr := !".bolt".
Definition bolt_defaultBucket : gostr := !"mochi".

Definition bolt_defaults (o : bolt_Options) : bolt_Options :=
  let o := if nonempty (blo_Path o) then o else o <| blo_Path := bolt_defaultDbFile |> in
  if nonempty (blo_Bucket o) then o else o <| blo_Bucket := bolt_defaultBucket |>.

Definition bolt_Init (config : Config bolt_Options) : GoM Hook unit := fun h =>
  match config with
  | OtherConfig => (Err EInvalidConfigType, h)
  | NilConfig | GivenConfig _ =>
      let o := bolt_defaults match config with GivenConfig o => o | _ => mkBoltOptions [] [] end in
      match Open o with
      | inr err => (Err err, mkStoreHook o None)
      | inl d => let '(err, d) := CreateBucket (blo_Bucket o) d in fail_with err tt (mkStoreHook o (Some d))
      end
  end.

Definition bolt_Stop : GoM Hook unit := fun h =>
  match sh_db h with
  | None => (Panic, h)
  | Some d => fail_with (db_close d) tt (h <| sh_db := None |>)
  end.

(** ** Events *)

Definition bolt_updateClient (cl : Client) : GoM Hook unit :=
  unless_closed tt (ignore (bolt_setKv (bolt_clientKey cl) (client_doc (cl_ID cl) cl))).

Definition bolt_OnSessionEstablished (cl : Client) (pk : Packet) : GoM Hook unit := bolt_updateClient cl.
Definition bolt_OnWillSent (cl : Client) (pk : Packet) : GoM Hook unit := bolt_updateClient cl.

(** [cl.StopCause() == packets.ErrSessionTakenOver] *)
Definition stopped_with_takeover (cause : option error) : bool :=
  match cause with Some (ECode c) => bool_decide (c = ErrSessionTakenOver) | _ => false end.

Definition bolt_OnDisconnect (cl : Client) (err : option error) (expire : bool) : GoM Hook unit :=
  unless_closed tt (
    if negb expire then mret tt
    else if stopped_with_takeover (Client_StopCause cl) then mret tt
    else ignore (bolt_delKv (bolt_clientKey cl))).

Definition bolt_OnSubscribed (cl : Client) (pk : Packet) (reasonCodes : bytes) : GoM Hook unit :=
  unless_closed tt (for_filters (pk_Filters pk) reasonCodes (fun f c =>
    let key := bolt_subscriptionKey cl (sub_Filter f) in
    ignore (bolt_setKv key (subscription_doc key cl f c)))).

Definition bolt_OnUnsubscribed (cl : Client) (pk : Packet) : GoM Hook unit :=
  unless_closed tt (for_each (pk_Filters pk) (fun f => ignore (bolt_delKv (bolt_subscriptionKey cl (sub_Filter f))))).

Definition bolt_OnRetainMessage (cl : Client) (pk : Packet) (r : Z) : GoM Hook unit :=
  unless_closed tt (
    if r =? -1 then ignore (bolt_delKv (bolt_retainedKey (pk_TopicName pk)))
    else let key := bolt_retainedKey (pk_TopicName pk) in ignore (bolt_setKv key (retained_doc key cl pk))).

Definition bolt_OnQosPublish (cl : Client) (pk : Packet) (sent resends : Z) : GoM Hook unit :=
  unless_closed tt (
    let key := bolt_inflightKey cl pk in ignore (bolt_setKv key (inflight_doc key 0 cl pk sent))).

Definition bolt_OnQosComplete (cl : Client) (pk : Packet) : GoM Hook unit :=
  unless_closed tt (ignore (bolt_delKv (bolt_inflightKey cl pk))).
Definition bolt_OnQosDropped (cl : Client) (pk : Packet) : GoM Hook unit := bolt_OnQosComplete cl pk.

Definition bolt_OnSysInfoTick (sys : Info) : GoM Hook unit :=
  unless_closed tt (ignore (bolt_setKv bolt_sysInfoKey (sysinfo_doc bolt_sysInfoKey sys))).

Definition bolt_OnRetainedExpired (filter : gostr) : GoM Hook unit :=
  unless_closed tt (ignore (bolt_delKv (bolt_retainedKey filter))).
Definition bolt_OnClientExpired (cl : Client) : GoM Hook unit :=
  unless_closed tt (ignore (bolt_delKv (bolt_clientKey cl))).

(** ** What is stored *)

(** [if h.db == nil { return v, storage.ErrDBFileNotOpen }] *)
Definition unless_not_open {A} (m : GoM Hook A) : GoM Hook A := fun h =>
  match sh_db h with None => (Err EDBFileNotOpen, h) | Some _ => m h end.

(** The error of the iteration is dropped. *)
Definition bolt_StoredClients : GoM Hook (list storage_Client) :=
  unless_not_open (r ← bolt_iterKv ClientKey visit_append; mret r.1).

Definition bolt_StoredSubscriptions : GoM Hook (list storage_Subscription) :=
  unless_not_open (r ← bolt_iterKv SubscriptionKey visit_append; fail_with r.2 r.1).
Definition bolt_StoredRetainedMessages : GoM Hook (list storage_Message) :=
  unless_not_open (r ← bolt_iterKv RetainedKey visit_append; fail_with r.2 r.1).
Definition bolt_StoredInflightMessages : GoM Hook (list storage_Message) :=
  unless_not_open (r ← bolt_iterKv InflightKey visit_append; fail_with r.2 r.1).

Definition bolt_StoredSysInfo : GoM Hook storage_SystemInfo :=
  unless_not_open (
    r ← bolt_getKv SysInfoKey storage_SystemInfo0;
    match r.2 with
    | Some EDBKeyNotFound | None => mret r.1
    | Some err => throw err
    end).

(** ** The hook *)

Definition bolt_hook : HookChain.Hook Hook (Config bolt_Options) := HookBase
  <| h_ID := !"bolt-db" |>
  <| h_Provides := bolt_Provides |>
  <| h_Init := bolt_Init |>
  <| h_Stop := bolt_Stop |>
  <| h_OnSessionEstablished := bolt_OnSessionEstablished |>
  <| h_OnWillSent := bolt_OnWillSent |>
  <| h_OnDisconnect := bolt_OnDisconnect |>
  <| h_OnSubscribed := bolt_OnSubscribed |>
  <| h_OnUnsubscribed := bolt_OnUnsubscribed |>
  <| h_OnRetainMessage := bolt_OnRetainMessage |>
  <| h_OnQosPublish := bolt_OnQosPublish |>
  <| h_OnQosComplete := bolt_OnQosComplete |>
  <| h_OnQosDropped := bolt_OnQosDropped |>
  <| h_OnSysInfoTick := bolt_OnSysInfoTick |>
  <| h_OnRetainedExpired := bolt_OnRetainedExpired |>
  <| h_OnClientExpired := bolt_OnClientExpired |>
  <| h_StoredClients := bolt_StoredClients |>
  <| h_StoredSubscriptions := bolt_StoredSubscriptions |>
  <| h_StoredRetainedMessages := bolt_StoredRetainedMessages |>
  <| h_StoredInflightMessages := bolt_StoredInflightMessages |>
  <| h_StoredSysInfo := bolt_StoredSysInfo |>.
End Bolt.
