(* ===== verification/Pebble.v ===== *)
(** * The pebble storage hook (hooks/storage/pebble/pebble.go)

    The methods of the hook over a [Database], and the hook object they make.
    Documents of a kind are read with an iterator over the range of keys from
    their prefix to [keyUpperBound] of it; a document that cannot be decoded is
    left out. [Open] of the database is a parameter. *)
From S2P Require Import Prelude Codes Effects Codec FixedHeader Properties Packets Topics Inflight System Clients Json JsonCodec Storage HookChain Stores Badger.

Definition pebble_clientKey (cl : Client) : gostr := ClientKey ++ !"_" ++ cl_ID cl.
Definition pebble_subscriptionKey (cl : Client) (filter : gostr) : gostr :=
  SubscriptionKey ++ !"_" ++ cl_ID cl ++ !":" ++ filter.
Definition pebble_retainedKey (topic : gostr) : gostr := RetainedKey ++ !"_" ++ topic.
Definition pebble_inflightKey (cl : Client) (pk : Packet) : gostr :=
  InflightKey ++ !"_" ++ cl_ID cl ++ !":" ++ FormatID pk.
Definition pebble_sysInfoKey : gostr := SysInfoKey.

(** The options of the database itself are left to [Open]. *)
Record pebble_Options := mkPebbleOptions {
  pbo_Path : gostr;
  pbo_Mode : gostr;
}.

(** The write options: [true] to synchronise every write. [strings.EqualFold]
    folds the case of letters, and the long s (bytes 197, 191) to an s. *)
Definition pebble_mode (o : pebble_Options) : bool :=
  let lower c := if (65 <=? c) && (c <=? 90) then c + 32 else c in
  let mode := match pbo_Mode o with 197 :: 191 :: rest => 115 :: rest | mode => mode end in
  str_eqb (map lower mode) !"sync".

(** [for i := len(end) - 1; i >= 0; i--]: the last byte that does not wrap is incremented. *)
Fixpoint upper_bound (rev_key : gostr) : option gostr :=
  match rev_key with
  | [] => None
  | x :: rest => if to_u8 (x + 1) =? 0 then upper_bound rest else Some (rev (to_u8 (x + 1) :: rest))
  end.
Definition keyUpperBound (b : gostr) : option gostr := upper_bound (rev b).

Definition pebble_Provides (b : Z) : bool :=
  existsb (Z.eqb b) [code_OnSessionEstablished; code_OnDisconnect; code_OnSubscribed; code_OnUnsubscribed;
    code_OnRetainMessage; code_OnWillSent; code_OnQosPublish; code_OnQosComplete; code_OnQosDropped; code_OnSysInfoTick;
    code_OnClientExpired; code_OnRetainedExpired; code_StoredClients; code_StoredInflightMessages;
    code_StoredRetainedMessages; code_StoredSubscriptions; code_StoredSysInfo].

Section Pebble.
Context {DB : Type} `{Database DB} (Open : pebble_Options -> bool -> DB + error).
Let Hook := StoreHook pebble_Options DB.

(** ** The database *)

Definition pebble_setKv {A} `{Serializable A} (k : gostr) (v : A) : GoM Hook unit :=
  on_db (transact (db_put k (MarshalBinary v))).

Definition pebble_delKv (k : gostr) : GoM Hook unit := on_db (transact (db_del k)).

Definition pebble_getKv {A} `{Serializable A} (k : gostr) (v : A) : GoM Hook (A * option error) :=
  on_db (fun d =>
    match db_contents d !! k with
    | None => (Ok (v, Some EDBKeyNotFound), d)
    | Some value =>
        match db_read d k with
        | Some err => (Ok (v, Some err), d)
        | None => (Ok (UnmarshalBinary value v), d)
        end
    end).

(** [NewIter] with [LowerBound] and [UpperBound]; a [nil] bound is none. *)
Definition in_range (lower : gostr) (upper : option gostr) (k : gostr) : bool :=
  str_leb lower k && match upper with Some u => str_ltb k u | None => true end.

Definition pebble_iter (prefix : gostr) (d : DB) : list Data :=
  (base.filter (fun e => in_range prefix (keyUpperBound prefix) e.1 = true) (db_entries d)).*2.

(** [for iter.First(); iter.Valid(); iter.Next()] *)
Fixpoint pebble_collect {A} `{Serializable A} (values : list Data) (v : list A) : list A :=
  match values with
  | [] => v
  | value :: values => pebble_collect values (visit_append v value).1
  end.

(** ** Starting and stopping *)

Definition pebble_defaultDbFile : gostr := !".pebble".

Definition pebble_Init (config : Config pebble_Options) : GoM Hook unit := fun h =>
  match config with
  | OtherConfig => (Err EInvalidConfigType, h)
  | NilConfig | GivenConfig _ =>
      let o := match config with GivenConfig o => o | _ => mkPebbleOptions [] [] end in
      let o := if nonempty (pbo_Path o) then o else o <| pbo_Path := pebble_defaultDbFile |> in
      match Open o (pebble_mode o) with
      | inl d => (Ok tt, mkStoreHook o (Some d))
      | inr err => (Err err, mkStoreHook o None)
      end
  end.

Definition pebble_Stop : GoM Hook unit := fun h =>
  match sh_db h with
  | None => (Panic, h)
  | Some d => fail_with (db_close d) tt (h <| sh_db := None |>)
  end.

(** ** Events *)

Definition pebble_updateClient (cl : Client) : GoM Hook unit :=
  unless_closed tt (ignore (pebble_setKv (pebble_clientKey cl) (client_doc (cl_ID cl) cl))).

Definition pebble_OnSessionEstablished (cl : Client) (pk : Packet) : GoM Hook unit := pebble_updateClient cl.
Definition pebble_OnWillSent (cl : Client) (pk : Packet) : GoM Hook unit := pebble_updateClient cl.

Definition pebble_OnDisconnect (cl : Client) (err : option error) (expire : bool) : GoM Hook unit :=
  unless_closed tt (
    pebble_updateClient cl;;
    if negb expire then mret tt
    else if stopped_by_takeover (Client_StopCause cl) then mret tt
    else ignore (pebble_delKv (pebble_clientKey cl))).

Definition pebble_OnSubscribed (cl : Client) (pk : Packet) (reasonCodes : bytes) : GoM Hook unit :=
  unless_closed tt (for_filters (pk_Filters pk) reasonCodes (fun f c =>
    let key := pebble_subscriptionKey cl (sub_Filter f) in
    ignore (pebble_setKv key (subscription_doc key cl f c)))).

Definition pebble_OnUnsubscribed (cl : Client) (pk : Packet) : GoM Hook unit :=
  unless_closed tt (for_each (pk_Filters pk) (fun f => ignore (pebble_delKv (pebble_subscriptionKey cl (sub_Filter f))))).

Definition pebble_OnRetainMessage (cl : Client) (pk : Packet) (r : Z) : GoM Hook unit :=
  unless_closed tt (
    if r =? -1 then ignore (pebble_delKv (pebble_retainedKey (pk_TopicName pk)))
    else let key := pebble_retainedKey (pk_TopicName pk) in ignore (pebble_setKv key (retained_doc key cl pk))).

Definition pebble_OnQosPublish (cl : Client) (pk : Packet) (sent resends : Z) : GoM Hook unit :=
  unless_closed tt (
    let key := pebble_inflightKey cl pk in ignore (pebble_setKv key (inflight_doc key (pk_PacketID pk) cl pk sent))).

Definition pebble_OnQosComplete (cl : Client) (pk : Packet) : GoM Hook unit :=
  unless_closed tt (ignore (pebble_delKv (pebble_inflightKey cl pk))).
Definition pebble_OnQosDropped (cl : Client) (pk : Packet) : GoM Hook unit := pebble_OnQosComplete cl pk.

Definition pebble_OnSysInfoTick (sys : Info) : GoM Hook unit :=
  unless_closed tt (ignore (pebble_setKv pebble_sysInfoKey (sysinfo_doc pebble_sysInfoKey sys))).

Definition pebble_OnRetainedExpired (filter : gostr) : GoM Hook unit :=
  unless_closed tt (ignore (pebble_delKv (pebble_retainedKey filter))).
Definition pebble_OnClientExpired (cl : Client) : GoM Hook unit :=
  unless_closed tt (ignore (pebble_delKv (pebble_clientKey cl))).

(** ** What is stored *)

Definition pebble_stored {A} `{Serializable A} (prefix : gostr) : GoM Hook (list A) :=
  unless_closed [] (on_db (fun d => (Ok (pebble_collect (pebble_iter prefix d) []), d))).

Definition pebble_StoredClients : GoM Hook (list storage_Client) := pebble_stored ClientKey.
Definition pebble_StoredSubscriptions : GoM Hook (list storage_Subscription) := pebble_stored SubscriptionKey.
Definition pebble_StoredRetainedMessages : GoM Hook (list storage_Message) := pebble_stored RetainedKey.
Definition pebble_StoredInflightMessages : GoM Hook (list storage_Message) := pebble_stored InflightKey.

Definition pebble_StoredSysInfo : GoM Hook storage_SystemInfo :=
  unless_closed storage_SystemInfo0 (
    r ← pebble_getKv pebble_sysInfoKey storage_SystemInfo0;
    match r.2 with
    | Some EDBKeyNotFound | None => mret r.1
    | Some err => throw err
    end).

(** ** The hook *)

Definition pebble_hook : HookChain.Hook Hook (Config pebble_Options) := HookBase
  <| h_ID := !"pebble-db" |>
  <| h_Provides := pebble_Provides |>
  <| h_Init := pebble_Init |>
  <| h_Stop := pebble_Stop |>
  <| h_OnSessionEstablished := pebble_OnSessionEstablished |>
  <| h_OnWillSent := pebble_OnWillSent |>
  <| h_OnDisconnect := pebble_OnDisconnect |>
  <| h_OnSubscribed := pebble_OnSubscribed |>
  <| h_OnUnsubscribed := pebble_OnUnsubscribed |>
  <| h_OnRetainMessage := pebble_OnRetainMessage |>
  <| h_OnQosPublish := pebble_OnQosPublish |>
  <| h_OnQosComplete := pebble_OnQosComplete |>
  <| h_OnQosDropped := pebble_OnQosDropped |>
  <| h_OnSysInfoTick := pebble_OnSysInfoTick |>
  <| h_OnRetainedExpired := pebble_OnRetainedExpired |>
  <| h_OnClientExpired := pebble_OnClientExpired |>
  <| h_StoredClients := pebble_StoredClients |>
  <| h_StoredSubscriptions := pebble_StoredSubscriptions |>
  <| h_StoredRetainedMessages := pebble_StoredRetainedMessages |>
  <| h_StoredInflightMessages := pebble_StoredInflightMessages |>
  <| h_StoredSysInfo := pebble_StoredSysInfo |>.
End Pebble.
