(* ===== verification/Redis.v ===== *)
(** * The redis storage hook (hooks/storage/redis/redis.go)

    The methods of the hook over a [HashStore], one hash set for each kind of
    document, and the hook object they make. The client of the redis service and
    its ping are parameters. The rows of a hash set are a Go map, visited in any
    order; a row that cannot be decoded is kept as far as it was decoded. *)
From S2P Require Import Prelude Codes Effects Codec FixedHeader Properties Packets Topics Inflight System Clients Json JsonCodec Storage HookChain Stores Bolt.

Definition redis_clientKey (cl : Client) : gostr := cl_ID cl.
Definition redis_subscriptionKey (cl : Client) (filter : gostr) : gostr := cl_ID cl ++ !":" ++ filter.
Definition redis_retainedKey (topic : gostr) : gostr := topic.
Definition redis_inflightKey (cl : Client) (pk : Packet) : gostr := cl_ID cl ++ !":" ++ FormatID pk.
Definition redis_sysInfoKey : gostr := SysInfoKey.

Definition redis_defaultAddr : gostr := !"localhost:6379".
Definition redis_defaultHPrefix : gostr := !"mochi-".

(** The options of the connection ([redis.Options]) that the hook sets. *)
Record redis_ConnOptions := mkRedisConnOptions {
  rc_Addr : gostr;
  rc_DB : Z;
  rc_Username : gostr;
  rc_Password : gostr;
}.

Record redis_Options := mkRedisOptions {
  rdo_Address : gostr;
  rdo_Username : gostr;
  rdo_Password : gostr;
  rdo_Database : Z;
  rdo_HPrefix : gostr;
  rdo_Options : option redis_ConnOptions;
}.

Definition redis_Provides (b : Z) : bool :=
  existsb (Z.eqb b) [code_OnSessionEstablished; code_OnDisconnect; code_OnSubscribed; code_OnUnsubscribed;
    code_OnRetainMessage; code_OnQosPublish; code_OnQosComplete; code_OnQosDropped; code_OnWillSent; code_OnSysInfoTick;
    code_OnClientExpired; code_OnRetainedExpired; code_StoredClients; code_StoredInflightMessages;
    code_StoredRetainedMessages; code_StoredSubscriptions; code_StoredSysInfo].

Section Redis.
Context {DB : Type} `{HashStore DB} {RO : RangeOrder} (NewClient : option redis_ConnOptions -> DB) (Ping : DB -> option error).
Let Hook := StoreHook redis_Options DB.

Definition redis_hKey (o : redis_Options) (s : gostr) : gostr := rdo_HPrefix o ++ s.

(** [h.db.HSet(h.ctx, h.hKey(kind), key, v).Err()] and [HDel] *)
Definition redis_HSet {A} `{Serializable A} (kind key : gostr) (v : A) : GoM Hook unit :=
  h ← get_state;
  on_db (transact (hash_set (redis_hKey (sh_config h) kind) key (MarshalBinary v))).
Definition redis_HDel (kind key : gostr) : GoM Hook unit :=
  h ← get_state;
  on_db (transact (hash_del (redis_hKey (sh_config h) kind) key)).

(** ** Starting and stopping *)

Definition redis_defaults (o : redis_Options) : redis_Options :=
  let o := match rdo_Options o with
    | Some _ => o
    | None =>
        let c := mkRedisConnOptions redis_defaultAddr 0 [] [] in
        o <| rdo_Options := Some (c <| rc_Addr := rdo_Address o |> <| rc_DB := rdo_Database o |>
                                    <| rc_Username := rdo_Username o |> <| rc_Password := rdo_Password o |>) |>
    end in
  if nonempty (rdo_HPrefix o) then o else o <| rdo_HPrefix := redis_defaultHPrefix |>.

Definition redis_Init (config : Config redis_Options) : GoM Hook unit := fun h =>
  match config with
  | OtherConfig => (Err EInvalidConfigType, h)
  | NilConfig | GivenConfig _ =>
      let o := redis_defaults match config with GivenConfig o => o | _ => mkRedisOptions [] [] [] 0 [] None end in
      let d := NewClient (rdo_Options o) in
      in_context !"failed to ping service" (fail_with (Ping d) tt) (mkStoreHook o (Some d))
  end.

Definition redis_Stop : GoM Hook unit := on_db (fun d => fail_with (hash_close d) tt d).

(** ** Events *)

Definition redis_updateClient (cl : Client) : GoM Hook unit :=
  unless_closed tt (ignore (redis_HSet ClientKey (redis_clientKey cl) (client_doc (redis_clientKey cl) cl))).

Definition redis_OnSessionEstablished (cl : Client) (pk : Packet) : GoM Hook unit := redis_updateClient cl.
Definition redis_OnWillSent (cl : Client) (pk : Packet) : GoM Hook unit := redis_updateClient cl.

Definition redis_OnDisconnect (cl : Client) (err : option error) (expire : bool) : GoM Hook unit :=
  unless_closed tt (
    if negb expire then mret tt
    else if stopped_with_takeover (Client_StopCause cl) then mret tt
    else ignore (redis_HDel ClientKey (redis_clientKey cl))).

Definition redis_OnSubscribed (cl : Client) (pk : Packet) (reasonCodes : bytes) : GoM Hook unit :=
  unless_closed tt (for_filters (pk_Filters pk) reasonCodes (fun f c =>
    let key := redis_subscriptionKey cl (sub_Filter f) in
    ignore (redis_HSet SubscriptionKey key (subscription_doc key cl f c)))).

Definition redis_OnUnsubscribed (cl : Client) (pk : Packet) : GoM Hook unit :=
  unless_closed tt (for_each (pk_Filters pk) (fun f =>
    ignore (redis_HDel SubscriptionKey (redis_subscriptionKey cl (sub_Filter f))))).

Definition redis_OnRetainMessage (cl : Client) (pk : Packet) (r : Z) : GoM Hook unit :=
  unless_closed tt (
    let key := redis_retainedKey (pk_TopicName pk) in
    if r =? -1 then ignore (redis_HDel RetainedKey key)
    else ignore (redis_HSet RetainedKey key (retained_doc key cl pk))).

Definition redis_OnQosPublish (cl : Client) (pk : Packet) (sent resends : Z) : GoM Hook unit :=
  unless_closed tt (
    let key := redis_inflightKey cl pk in ignore (redis_HSet InflightKey key (inflight_doc key 0 cl pk sent))).

Definition redis_OnQosComplete (cl : Client) (pk : Packet) : GoM Hook unit :=
  unless_closed tt (ignore (redis_HDel InflightKey (redis_inflightKey cl pk))).
Definition redis_OnQosDropped (cl : Client) (pk : Packet) : GoM Hook unit := redis_OnQosComplete cl pk.

Definition redis_OnSysInfoTick (sys : Info) : GoM Hook unit :=
  unless_closed tt (ignore (redis_HSet SysInfoKey redis_sysInfoKey (sysinfo_doc redis_sysInfoKey sys))).

Definition redis_OnRetainedExpired (filter : gostr) : GoM Hook unit :=
  unless_closed tt (ignore (redis_HDel RetainedKey (redis_retainedKey filter))).
Definition redis_OnClientExpired (cl : Client) : GoM Hook unit :=
  unless_closed tt (ignore (redis_HDel ClientKey (redis_clientKey cl))).

(** ** What is stored *)

(** [rows, err := HGetAll(...)], then the rows decoded as far as they can be. *)
Definition redis_stored {A} `{Serializable A} (kind : gostr) : GoM Hook (list A) :=
  unless_closed [] (
    h ← get_state;
    on_db (fun d =>
      match hash_read d (redis_hKey (sh_config h) kind) with
      | Some err => (Err err, d)
      | None =>
          let rows := range (hash_all d (redis_hKey (sh_config h) kind)) in
          (Ok (map (fun row => (UnmarshalBinary row.2 (c_zero s_codec)).1) rows), d)
      end)).

Definition redis_StoredClients : GoM Hook (list storage_Client) := redis_stored ClientKey.
Definition redis_StoredSubscriptions : GoM Hook (list storage_Subscription) := redis_stored SubscriptionKey.
Definition redis_StoredRetainedMessages : GoM Hook (list storage_Message) := redis_stored RetainedKey.
Definition redis_StoredInflightMessages : GoM Hook (list storage_Message) := redis_stored InflightKey.

(** [HGet] of a field that is not there gives an empty row. *)
Definition redis_StoredSysInfo : GoM Hook storage_SystemInfo :=
  unless_closed storage_SystemInfo0 (
    h ← get_state;
    on_db (fun d =>
      match hash_read d (redis_hKey (sh_config h) SysInfoKey) with
      | Some err => (Err err, d)
      | None =>
          let row := default [] (hash_all d (redis_hKey (sh_config h) SysInfoKey) !! SysInfoKey) in
          (Ok (UnmarshalBinary row storage_SystemInfo0).1, d)
      end)).

(** ** The hook *)

Definition redis_hook : HookChain.Hook Hook (Config redis_Options) := HookBase
  <| h_ID := !"redis-db" |>
  <| h_Provides := redis_Provides |>
  <| h_Init := redis_Init |>
  <| h_Stop := redis_Stop |>
  <| h_OnSessionEstablished := redis_OnSessionEstablished |>
  <| h_OnWillSent := redis_OnWillSent |>
  <| h_OnDisconnect := redis_OnDisconnect |>
  <| h_OnSubscribed := redis_OnSubscribed |>
  <| h_OnUnsubscribed := redis_OnUnsubscribed |>
  <| h_OnRetainMessage := redis_OnRetainMessage |>
  <| h_OnQosPublish := redis_OnQosPublish |>
  <| h_OnQosComplete := redis_OnQosComplete |>
  <| h_OnQosDropped := redis_OnQosDropped |>
  <| h_OnSysInfoTick := redis_OnSysInfoTick |>
  <| h_OnRetainedExpired := redis_OnRetainedExpired |>
  <| h_OnClientExpired := redis_OnClientExpired |>
  <| h_StoredClients := redis_StoredClients |>
  <| h_StoredSubscriptions := redis_StoredSubscriptions |>
  <| h_StoredRetainedMessages := redis_StoredRetainedMessages |>
  <| h_StoredInflightMessages := redis_StoredInflightMessages |>
  <| h_StoredSysInfo := redis_StoredSysInfo |>.
End Redis.
