(* ===== verification/StoreSpec.v ===== *)
(** * What a storage hook promises

    An abstract store: a finite map from typed keys to documents. [spec_step] is
    the effect of an event, [stored_clients] and its companions are what is read
    back. [KeepsStore] is the contract of a storage hook: it simulates the
    abstract store under every event, and reads back exactly its documents. The
    lemmas here are for databases that keep a document under the rendering of
    its key. *)
From S2P Require Import Prelude Codes Effects Codec FixedHeader Properties Packets Topics TopicsFacts Inflight System Clients Json JsonCodec Storage HookChain Stores ClientIO.

(** ** The abstract store *)

Inductive Key :=
| KClient (id : gostr)
| KSub (id filter : gostr)
| KRetained (topic : gostr)
| KInflight (id : gostr) (packet : Z)
| KSys.

#[export] Instance Key_eq_dec : EqDecision Key.
Proof. solve_decision. Defined.

Definition Key_code (k : Key) : gostr + (gostr * gostr) + gostr + (gostr * Z) + unit :=
  match k with
  | KClient id => inl (inl (inl (inl id)))
  | KSub id f => inl (inl (inl (inr (id, f))))
  | KRetained t => inl (inl (inr t))
  | KInflight id n => inl (inr (id, n))
  | KSys => inr tt
  end.
Definition Key_decode (c : gostr + (gostr * gostr) + gostr + (gostr * Z) + unit) : Key :=
  match c with
  | inl (inl (inl (inl id))) => KClient id
  | inl (inl (inl (inr (id, f)))) => KSub id f
  | inl (inl (inr t)) => KRetained t
  | inl (inr (id, n)) => KInflight id n
  | inr _ => KSys
  end.
#[export] Instance Key_countable : Countable Key.
Proof. by refine (inj_countable' Key_code Key_decode _); intros []. Qed.

Inductive Doc :=
| DClient (c : storage_Client)
| DSub (s : storage_Subscription)
| DMessage (m : storage_Message)
| DSys (i : storage_SystemInfo).

Notation Store := (gmap Key Doc).

(** The ways in which the hooks differ: the [ID] they put in a document, the
    packet id of a stored message, and when a disconnected client is written
    or kept. *)
Record Layout := mkLayout {
  ly_sub_id : Client -> gostr -> gostr;
  ly_retained_id : gostr -> gostr;
  ly_inflight_id : Client -> Packet -> gostr;
  ly_packet_id : Packet -> Z;
  ly_refresh : bool;
  ly_taken_over : option error -> bool;
}.

Section Spec.
Context (L : Layout).

Definition spec_client (cl : Client) (s : Store) : Store := <[KClient (cl_ID cl) := DClient (client_doc (cl_ID cl) cl)]> s.

Definition spec_step (ev : Event) (s : Store) : Store :=
  match ev with
  | OnSessionEstablished cl _ | OnWillSent cl _ => spec_client cl s
  | OnDisconnect cl _ expire =>
      let s := if ly_refresh L then spec_client cl s else s in
      if expire && negb (ly_taken_over L (Client_StopCause cl)) then delete (KClient (cl_ID cl)) s else s
  | OnSubscribed cl pk reasonCodes =>
      foldl (fun s '(f, c) => <[KSub (cl_ID cl) (sub_Filter f) := DSub (subscription_doc (ly_sub_id L cl (sub_Filter f)) cl f c)]> s)
        s (zip (pk_Filters pk) reasonCodes)
  | OnUnsubscribed cl pk => foldl (fun s f => delete (KSub (cl_ID cl) (sub_Filter f)) s) s (pk_Filters pk)
  | OnRetainMessage cl pk r =>
      if r =? -1 then delete (KRetained (pk_TopicName pk)) s
      else <[KRetained (pk_TopicName pk) := DMessage (retained_doc (ly_retained_id L (pk_TopicName pk)) cl pk)]> s
  | OnQosPublish cl pk sent _ =>
      <[KInflight (cl_ID cl) (pk_PacketID pk) :=
          DMessage (inflight_doc (ly_inflight_id L cl pk) (ly_packet_id L pk) cl pk sent)]> s
  | OnQosComplete cl pk | OnQosDropped cl pk => delete (KInflight (cl_ID cl) (pk_PacketID pk)) s
  | OnClientExpired cl => delete (KClient (cl_ID cl)) s
  | OnRetainedExpired filter => delete (KRetained filter) s
  | OnSysInfoTick sys => <[KSys := DSys (sysinfo_doc SysInfoKey sys)]> s
  | _ => s
  end.

Definition spec_run (evs : list Event) (s : Store) : Store := foldl (fun s ev => spec_step ev s) s evs.

Definition pick_client (kd : Key * Doc) : option storage_Client :=
  match kd with (KClient _, DClient c) => Some c | _ => None end.
Definition pick_subscription (kd : Key * Doc) : option storage_Subscription :=
  match kd with (KSub _ _, DSub c) => Some c | _ => None end.
Definition pick_retained (kd : Key * Doc) : option storage_Message :=
  match kd with (KRetained _, DMessage c) => Some c | _ => None end.
Definition pick_inflight (kd : Key * Doc) : option storage_Message :=
  match kd with (KInflight _ _, DMessage c) => Some c | _ => None end.

Definition stored_clients (s : Store) : list storage_Client := omap pick_client (map_to_list s).
Definition stored_subscriptions (s : Store) : list storage_Subscription := omap pick_subscription (map_to_list s).
Definition stored_retained (s : Store) : list storage_Message := omap pick_retained (map_to_list s).
Definition stored_inflight (s : Store) : list storage_Message := omap pick_inflight (map_to_list s).
Definition stored_sysinfo (s : Store) : storage_SystemInfo :=
  match s !! KSys with Some (DSys i) => i | _ => storage_SystemInfo0 end.

(** ** Events that can be stored

    The values are in the ranges of their types, with strings in UTF-8; a
    client that subscribes has no colon in its id, which would make the key of
    its subscriptions ambiguous. *)
Definition colon : Z := 58.
Definition client_kept (cl : Client) : Prop := client_storable (client_doc (cl_ID cl) cl).

Definition event_ok (ev : Event) : Prop :=
  match ev with
  | OnSessionEstablished cl _ | OnWillSent cl _ | OnDisconnect cl _ _ => client_kept cl
  | OnSubscribed cl pk reasonCodes =>
      colon ∉ cl_ID cl /\ length (pk_Filters pk) = length reasonCodes /\
      Forall (fun fc => subscription_storable (subscription_doc (ly_sub_id L cl (sub_Filter fc.1)) cl fc.1 fc.2))
        (zip (pk_Filters pk) reasonCodes)
  | OnUnsubscribed cl pk => pk_Filters pk <> [] -> colon ∉ cl_ID cl
  | OnRetainMessage cl pk _ => message_storable (retained_doc (ly_retained_id L (pk_TopicName pk)) cl pk)
  | OnQosPublish cl pk sent _ =>
      is_u16 (pk_PacketID pk) /\ message_storable (inflight_doc (ly_inflight_id L cl pk) (ly_packet_id L pk) cl pk sent)
  | OnQosComplete cl pk | OnQosDropped cl pk => is_u16 (pk_PacketID pk)
  | OnSysInfoTick sys => info_storable sys
  | _ => True
  end.

(** ** The contract of a storage hook *)

(** [tell] for a server whose only hook is [hook]. *)
Definition tell_one {W C} (hook : Hook W C) (ev : Event) : GoM W unit := tell (mkHookSet [hook] 1 1) ev.

Class KeepsStore {W C} (hook : Hook W C) (R : W -> Store -> Prop) : Prop := {
  ks_provides : Forall (fun b => h_Provides hook b = true)
    [code_StoredClients; code_StoredSubscriptions; code_StoredInflightMessages; code_StoredRetainedMessages; code_StoredSysInfo];
  ks_tell : forall ev w s, R w s -> event_ok ev ->
    wp (tell_one hook ev) w (fun r w' => r = inl tt /\ R w' (spec_step ev s));
  ks_clients : forall w s, R w s -> exists l, h_StoredClients hook w = (Ok l, w) /\ l ≡ₚ stored_clients s;
  ks_subscriptions : forall w s, R w s -> exists l, h_StoredSubscriptions hook w = (Ok l, w) /\ l ≡ₚ stored_subscriptions s;
  ks_retained : forall w s, R w s -> exists l, h_StoredRetainedMessages hook w = (Ok l, w) /\ l ≡ₚ stored_retained s;
  ks_inflight : forall w s, R w s -> exists l, h_StoredInflightMessages hook w = (Ok l, w) /\ l ≡ₚ stored_inflight s;
  ks_sysinfo : forall w s, R w s -> h_StoredSysInfo hook w = (Ok (stored_sysinfo s), w);
}.
End Spec.

(** A sequence of events. *)
Lemma keeps_run {W C} L (hook : Hook W C) R `{!KeepsStore L hook R} evs w s :
  R w s -> Forall (event_ok L) evs -> exists w', for_each evs (tell_one hook) w = (Ok tt, w') /\ R w' (spec_run L evs s).
Proof.
  intros Hw Hevs. induction Hevs as [|ev evs Hev _ IH] in w, s, Hw |- *; [by exists w|].
  pose proof (ks_tell L ev w s Hw Hev) as Hs. unfold wp in Hs. cbn [for_each]. unfold mbind, GoM_bind.
  destruct (tell_one hook ev w) as [[[]|err| |] w1]; try done; destruct Hs as [Hs Hw1]; [|done]. exact (IH w1 _ Hw1).
Qed.

(** ** The documents of a store *)

Lemma elem_of_stored_clients (s : Store) c : c ∈ stored_clients s <-> exists id, s !! KClient id = Some (DClient c).
Proof.
  unfold stored_clients. rewrite list_elem_of_omap. split.
  - intros ([k d] & Hin%elem_of_map_to_list & Hp). destruct k, d; try done. injection Hp as ->. by eexists.
  - intros (id & Hin). exists (KClient id, DClient c). by rewrite elem_of_map_to_list.
Qed.

Lemma elem_of_stored_subscriptions (s : Store) d : d ∈ stored_subscriptions s <-> exists id f, s !! KSub id f = Some (DSub d).
Proof.
  unfold stored_subscriptions. rewrite list_elem_of_omap. split.
  - intros ([k x] & Hin%elem_of_map_to_list & Hp). destruct k, x; try done. injection Hp as ->. by eexists _, _.
  - intros (id & f & Hin). exists (KSub id f, DSub d). by rewrite elem_of_map_to_list.
Qed.

Lemma elem_of_stored_retained (s : Store) m : m ∈ stored_retained s <-> exists t, s !! KRetained t = Some (DMessage m).
Proof.
  unfold stored_retained. rewrite list_elem_of_omap. split.
  - intros ([k x] & Hin%elem_of_map_to_list & Hp). destruct k, x; try done. injection Hp as ->. by eexists.
  - intros (t & Hin). exists (KRetained t, DMessage m). by rewrite elem_of_map_to_list.
Qed.

Lemma elem_of_stored_inflight (s : Store) m : m ∈ stored_inflight s <-> exists id n, s !! KInflight id n = Some (DMessage m).
Proof.
  unfold stored_inflight. rewrite list_elem_of_omap. split.
  - intros ([k x] & Hin%elem_of_map_to_list & Hp). destruct k, x; try done. injection Hp as ->. by eexists _, _.
  - intros (id & n & Hin). exists (KInflight id n, DMessage m). by rewrite elem_of_map_to_list.
Qed.

(** The documents say what they are stored as, and a client's subscriptions
    name different subscriptions of the index. (The packet id of an in-flight
    message need not be the one it is stored under.) *)
Record consistent (s : Store) : Prop := mkConsistent {
  co_client : forall id d, s !! KClient id = Some d -> exists c, d = DClient c /\ sc_ID c = id /\ client_storable c;
  co_sub : forall id f d, s !! KSub id f = Some d -> exists x, d = DSub x /\ ss_Client x = id /\ ss_Filter x = f;
  co_slots : forall id f f', is_Some (s !! KSub id f) -> is_Some (s !! KSub id f') -> same_slot f f' -> f = f';
  co_inflight : forall id n d, s !! KInflight id n = Some d -> exists m, d = DMessage m /\ sm_Client m = id;
  co_retained : forall t d, s !! KRetained t = Some d -> exists m, d = DMessage m /\ sm_TopicName m = t /\ t <> [];
}.

Lemma NoDup_omap_inj {A B} (f : A -> option B) l :
  NoDup l -> (forall x y b, x ∈ l -> y ∈ l -> f x = Some b -> f y = Some b -> x = y) -> NoDup (omap f l).
Proof.
  induction 1 as [|x l Hx Hl IH]; intros Hf; [constructor|]. cbn.
  assert (NoDup (omap f l)) by (apply IH; intros; eapply Hf; [by right|by right|done|done]).
  destruct (f x) as [b|] eqn:E; [|done]. constructor; [|done]. intros (y & Hy & Ey)%list_elem_of_omap.
  assert (x = y) as -> by (eapply Hf; [left|by right|done|done]). done.
Qed.

Lemma consistent_nodup (s : Store) :
  consistent s ->
  NoDup (sc_ID <$> stored_clients s) /\ NoDup (stored_subscriptions s) /\ NoDup (stored_retained s).
Proof.
  intros [H1 H2 _ _ H5]. pose proof (NoDup_map_to_list s) as Hs. split_and!.
  - apply NoDup_fmap_2_strong.
    + intros c c' (id & Hc)%elem_of_stored_clients (id' & Hc')%elem_of_stored_clients E.
      destruct (H1 _ _ Hc) as (? & [= <-] & E1 & _), (H1 _ _ Hc') as (? & [= <-] & E2 & _). congruence.
    + apply NoDup_omap_inj; [done|]. intros [k d] [k' d'] c Hk%elem_of_map_to_list Hk'%elem_of_map_to_list.
      destruct k, d, k', d'; try done. intros [= ->] [= ->].
      destruct (H1 _ _ Hk) as (? & [= <-] & E1 & _), (H1 _ _ Hk') as (? & [= <-] & E2 & _). congruence.
  - apply NoDup_omap_inj; [done|]. intros [k d] [k' d'] c Hk%elem_of_map_to_list Hk'%elem_of_map_to_list.
    destruct k, d, k', d'; try done. intros [= ->] [= ->].
    destruct (H2 _ _ _ Hk) as (? & [= <-] & E1 & E1'), (H2 _ _ _ Hk') as (? & [= <-] & E2 & E2'). congruence.
  - apply NoDup_omap_inj; [done|]. intros [k d] [k' d'] c Hk%elem_of_map_to_list Hk'%elem_of_map_to_list.
    destruct k, d, k', d'; try done. intros [= ->] [= ->].
    destruct (H5 _ _ Hk) as (? & [= <-] & E1 & _), (H5 _ _ Hk') as (? & [= <-] & E2 & _). congruence.
Qed.
