(* ===== verification/StoreScan.v ===== *)
(** * Reading the documents of one kind

    Badger walks an iterator from the first key that is not below the prefix
    while the prefix is there, bolt compares the first bytes of the keys of a
    cursor, pebble bounds an iterator by [keyUpperBound]. On an ordered database
    all three select exactly the entries whose key starts with the prefix. *)
From S2P Require Import Prelude Codes Effects Codec FixedHeader Properties Packets Topics Inflight System Clients Json JsonCodec Storage HookChain Stores Badger Bolt Pebble.

(** ** Byte order and prefixes *)

Lemma str_ltb_irrefl s : str_ltb s s = false.
Proof. induction s as [|x s IH]; [done|]. cbn. by rewrite Z.ltb_irrefl, Z.eqb_refl, IH. Qed.

Lemma str_ltb_app p s t : str_ltb (p ++ s) (p ++ t) = str_ltb s t.
Proof. induction p as [|x p IH]; [done|]. cbn. by rewrite Z.ltb_irrefl, Z.eqb_refl. Qed.

Lemma str_ltb_trans s t u : str_ltb s t = true -> str_ltb t u = true -> str_ltb s u = true.
Proof.
  revert t u. induction s as [|x s IH]; intros [|y t] [|z u]; cbn; try done.
  intros [H1%Z.ltb_lt|[->%Z.eqb_eq H1]%andb_true_iff]%orb_true_iff [H2%Z.ltb_lt|[->%Z.eqb_eq H2]%andb_true_iff]%orb_true_iff;
    apply orb_true_iff; try (left; apply Z.ltb_lt; lia).
  right. by rewrite Z.eqb_refl, (IH t u).
Qed.

Lemma has_prefix_app p s : has_prefix p (p ++ s) = true.
Proof. induction p as [|x p IH]; [done|]. cbn. by rewrite Z.eqb_refl. Qed.

Lemma has_prefix_spec p k : has_prefix p k = true <-> exists r, k = p ++ r.
Proof.
  split; [|intros [r ->]; apply has_prefix_app]. revert k. induction p as [|x p IH]; intros k; [by exists k|].
  destruct k as [|y k]; [done|]. cbn. intros [->%Z.eqb_eq [r ->]%IH]%andb_true_iff. by exists r.
Qed.

Lemma has_prefix_take p k : (length p <= length k)%nat -> has_prefix p k = str_eqb (take (length p) k) p.
Proof.
  revert k. induction p as [|x p IH]; intros [|y k] Hl; cbn in *; try done.
  rewrite IH by lia. destruct (Z.eqb_spec x y) as [->|Hn]; cbn.
  - destruct (str_eqb_spec (take (length p) k) p), (str_eqb_spec (y :: take (length p) k) (y :: p)); congruence.
  - destruct (str_eqb_spec (y :: take (length p) k) (x :: p)); congruence.
Qed.

(** A key below the prefix does not have it, nor does one above the keys that have it. *)
Lemma below_prefix p k : str_ltb k p = true -> has_prefix p k = false.
Proof.
  intros H. apply not_true_iff_false. intros [r ->]%has_prefix_spec.
  rewrite <- (app_nil_r p) in H at 2. rewrite str_ltb_app in H. by destruct r.
Qed.

Lemma above_prefix p k k' :
  str_ltb k p = false -> has_prefix p k = false -> str_ltb k k' = true -> str_ltb k' p = false /\ has_prefix p k' = false.
Proof.
  revert k k'. induction p as [|x p IH]; intros [|y k] [|z k']; cbn; try done.
  destruct (Z.eqb_spec x y) as [->|Hn]; cbn.
  - rewrite Z.ltb_irrefl, Z.eqb_refl. cbn. intros Hp Hk [H%Z.ltb_lt|[->%Z.eqb_eq H]%andb_true_iff]%orb_true_iff.
    + rewrite (proj2 (Z.ltb_ge z y)), (proj2 (Z.eqb_neq z y)), (proj2 (Z.eqb_neq y z)) by lia. done.
    + rewrite Z.ltb_irrefl, Z.eqb_refl. cbn. by apply (IH k).
  - rewrite (proj2 (Z.eqb_neq y x)) by lia. cbn. rewrite orb_false_r. intros Hp%Z.ltb_ge _ H.
    assert (y <= z) by (apply orb_true_iff in H as [H%Z.ltb_lt|[H%Z.eqb_eq _]%andb_true_iff]; lia).
    rewrite (proj2 (Z.ltb_ge z x)), (proj2 (Z.eqb_neq z x)), (proj2 (Z.eqb_neq x z)) by lia. done.
Qed.

(** ** The reference: the entries whose key has the prefix *)

Definition with_prefix (p : gostr) (entries : list (gostr * Data)) : list (gostr * Data) :=
  base.filter (fun e => has_prefix p e.1 = true) entries.

Fixpoint take_while {A} (p : A -> bool) (l : list A) : list A :=
  match l with
  | [] => []
  | x :: l => if p x then x :: take_while p l else []
  end.

Definition ascending (entries : list (gostr * Data)) : Prop := StronglySorted (fun a b => str_ltb a.1 b.1 = true) entries.

Lemma with_prefix_none p l : Forall (fun e => has_prefix p e.1 = false) l -> with_prefix p l = [].
Proof. unfold with_prefix. induction 1 as [|e l He _ IH]; [done|]. by rewrite filter_cons_False by congruence. Qed.

Lemma take_while_prefix p l :
  ascending l -> Forall (fun e => str_ltb e.1 p = false) l -> take_while (fun e => has_prefix p e.1) l = with_prefix p l.
Proof.
  induction 1 as [|[k v] l _ IH Hlt]; intros Hge; [done|]. apply Forall_cons in Hge as [Hk Hge].
  unfold with_prefix. cbn [take_while fst] in *. destruct (has_prefix p k) eqn:E.
  - rewrite filter_cons_True by done. by rewrite IH.
  - rewrite filter_cons_False by (cbn; congruence). symmetry. apply with_prefix_none.
    eapply Forall_impl; [exact Hlt|]. intros [k' v'] H. by apply (above_prefix p k).
Qed.

(** Seeking the prefix and walking while it is there. *)
Lemma seek_prefix p l : ascending l -> take_while (fun e => has_prefix p e.1) (seek p l) = with_prefix p l.
Proof.
  induction 1 as [|[k v] l Hl IH Hlt]; [done|]. unfold seek in *. cbn [drop_while fst].
  destruct (str_ltb k p) eqn:E.
  - rewrite IH. unfold with_prefix. by rewrite filter_cons_False by (cbn; rewrite below_prefix; done).
  - apply take_while_prefix; [by constructor|]. constructor; [done|]. eapply Forall_impl; [exact Hlt|].
    intros [k' v'] H. cbn in *. apply not_true_iff_false. intros H'. by rewrite (str_ltb_trans k k' p) in E.
Qed.

(** ** The range of pebble *)

Lemma str_leb_app p s t : str_leb (p ++ s) (p ++ t) = str_leb s t.
Proof. unfold str_leb. by rewrite str_ltb_app. Qed.

Lemma str_leb_prefix p k r : str_leb (p ++ r) k = true -> str_leb p k = true.
Proof.
  unfold str_leb. rewrite !negb_true_iff. revert k. induction p as [|x p IH]; intros k; [by destruct k|].
  destruct k as [|y k]; cbn; [done|]. intros [H1 H2]%orb_false_iff. rewrite H1. cbn.
  destruct (Z.eqb_spec y x); [|done]. cbn in *. by apply IH.
Qed.

(** [q ++ [x] <= k < q ++ [x + 1]] *)
Lemma one_byte_range q x k : str_leb (q ++ [x]) k && str_ltb k (q ++ [x + 1]) = has_prefix (q ++ [x]) k.
Proof.
  revert k. induction q as [|y q IH]; intros [|z k]; try done; cbn.
  - unfold str_leb. cbn. destruct (Z.eqb_spec x z) as [->|Hn]; cbn.
    + rewrite Z.ltb_irrefl, (proj2 (Z.ltb_lt z (z + 1))), Z.eqb_refl by lia. by destruct k.
    + rewrite (proj2 (Z.eqb_neq z x)) by lia. cbn. rewrite orb_false_r.
      destruct (Z.ltb_spec z x); cbn; [done|]. rewrite (proj2 (Z.ltb_ge z (x + 1))) by lia. cbn.
      destruct (Z.eqb_spec z (x + 1)); cbn; [by destruct k|done].
  - specialize (IH k). unfold str_leb in *. cbn. destruct (Z.eqb_spec y z) as [->|Hn]; cbn.
    + rewrite Z.ltb_irrefl, Z.eqb_refl. cbn. exact IH.
    + rewrite (proj2 (Z.eqb_neq z y)) by lia. cbn. rewrite !orb_false_r. by destruct (z <? y).
Qed.

Lemma keyUpperBound_snoc q x :
  keyUpperBound (q ++ [x]) = if to_u8 (x + 1) =? 0 then keyUpperBound q else Some (q ++ [to_u8 (x + 1)]).
Proof.
  unfold keyUpperBound. rewrite rev_app_distr. cbn. destruct (_ =? 0); [done|]. by rewrite rev_involutive.
Qed.

Lemma in_range_prefix p k : bytes_ok p -> bytes_ok k -> in_range p (keyUpperBound p) k = has_prefix p k.
Proof.
  intros Hp Hk. revert Hp. induction p as [|x q IH] using rev_ind; intros Hp; [by destruct k|].
  apply Forall_app in Hp as [Hq Hx]. apply Forall_cons in Hx as [Hx _]. unfold is_u8 in Hx. specialize (IH Hq).
  rewrite keyUpperBound_snoc. destruct (Z.eq_dec x 255) as [->|Hn].
  - change (to_u8 (255 + 1) =? 0) with true. cbn [negb]. unfold in_range in *. apply eq_bool_prop_intro.
    rewrite !Is_true_true, andb_true_iff. split.
    + intros [Hl Hu]. rewrite (str_leb_prefix _ _ _ Hl), Hu in IH. symmetry in IH. apply has_prefix_spec in IH as [r ->].
      rewrite str_leb_app in Hl. apply Forall_app in Hk as [_ Hr]. destruct r as [|y r]; [done|].
      apply Forall_cons in Hr as [Hy _]. unfold is_u8 in Hy. unfold str_leb in Hl. cbn in Hl.
      apply negb_true_iff, orb_false_iff in Hl as [Hl%Z.ltb_ge _]. assert (y = 255) as -> by lia.
      change (q ++ 255 :: r) with (q ++ [255] ++ r). rewrite app_assoc. apply has_prefix_app.
    + intros [r ->]%has_prefix_spec. rewrite <- app_assoc in IH |- *. rewrite has_prefix_app in IH.
      apply andb_true_iff in IH as [_ ->]. split; [|done]. rewrite str_leb_app. unfold str_leb. cbn. by destruct r.
  - unfold to_u8. rewrite Z.mod_small by lia. rewrite (proj2 (Z.eqb_neq (x + 1) 0)) by lia. apply one_byte_range.
Qed.

(** ** Collecting the documents *)

(** [visit] for every value, until an error. *)
Fixpoint walk {A} (visit : list A -> Data -> list A * option error) (values : list Data) (v : list A) : list A * option error :=
  match values with
  | [] => (v, None)
  | value :: values =>
      match visit v value with
      | (v, Some err) => (v, Some err)
      | (v, None) => walk visit values v
      end
  end.

Section Scans.
Context {DB : Type} `{Database DB} {Laws : DatabaseLaws DB}.

Lemma badger_loop_walk {A} (d : DB) p (visit : list A -> Data -> list A * option error) l v :
  (forall k, db_read d k = None) ->
  badger_iter_loop d p visit l v = walk visit (take_while (fun e => has_prefix p e.1) l).*2 v.
Proof.
  intros Hr. induction l as [|[k value] l IH] in v |- *; [done|]. cbn. destruct (has_prefix p k); [|done].
  rewrite Hr. cbn. destruct (visit v value) as [v' [err|]]; [done|]. apply IH.
Qed.

Lemma bolt_loop_walk {A} p (visit : list A -> Data -> list A * option error) l v :
  Forall (fun e => (length p <= length e.1)%nat) l ->
  bolt_iter_loop p visit l v = Ok (walk visit (take_while (fun e => has_prefix p e.1) l).*2 v).
Proof.
  induction l as [|[k value] l IH] in v |- *; [done|]. intros [Hk Hl]%Forall_cons. cbn in *.
  rewrite (proj2 (Nat.ltb_ge _ _)) by lia. rewrite has_prefix_take by lia. destruct (str_eqb _ _); [|done]. cbn.
  destruct (visit v value) as [v' [err|]]; [done|]. by apply IH.
Qed.

Lemma seek_Forall (P : gostr * Data -> Prop) p l : Forall P l -> Forall P (seek p l).
Proof.
  unfold seek. induction 1 as [|e l He Hl IH]; [done|]. cbn. destruct (str_ltb e.1 p); [exact IH|by constructor].
Qed.

(** C30: the three embedded databases are scanned alike. On a database whose
    entries are in ascending order of their keys and can be read, badger's
    iterator and bolt's cursor hand exactly the values of the entries whose key
    starts with the prefix to [visit], in order, until it fails, and pebble's
    bounded iterator yields exactly those values. Bolt needs every key to be at
    least as long as the prefix, where it would panic, and pebble needs the keys
    to be byte strings. *)
Theorem scans_agree {A} (d : DB) p (visit : list A -> Data -> list A * option error) :
  (forall k, db_read d k = None) -> bytes_ok p ->
  Forall (fun e => (length p <= length e.1)%nat /\ bytes_ok e.1) (db_entries d) ->
  let expected := walk visit (with_prefix p (db_entries d)).*2 [] in
  (forall o, badger_iterKv p visit (mkStoreHook o (Some d)) = (Ok expected, mkStoreHook o (Some d))) /\
  (forall o, bolt_iterKv p visit (mkStoreHook o (Some d)) = (Ok expected, mkStoreHook o (Some d))) /\
  pebble_iter p d = (with_prefix p (db_entries d)).*2.
Proof.
  intros Hr Hp He expected. pose proof (dl_sorted d) as Hs. unfold expected. rewrite <- (seek_prefix p) by done. split_and!.
  - intros o. unfold badger_iterKv, on_db, zoom. cbn [sh_db]. by rewrite badger_loop_walk.
  - intros o. unfold bolt_iterKv, on_db, zoom. cbn [sh_db]. rewrite bolt_loop_walk; [done|].
    apply seek_Forall. eapply Forall_impl; [exact He|]. by intros e [].
  - rewrite seek_prefix by done. unfold pebble_iter, with_prefix. f_equal. clear Hs expected.
    induction He as [|[k value] l [_ Hk] _ IH]; [done|]. rewrite !filter_cons. cbn. rewrite in_range_prefix by done.
    destruct (decide _); by rewrite IH.
Qed.
End Scans.

(** ** A database in memory *)

Lemma str_ltb_total s t : str_ltb s t = false -> str_ltb t s = false -> s = t.
Proof.
  revert t. induction s as [|x s IH]; intros [|y t]; cbn; try done.
  intros [H1%Z.ltb_ge H2]%orb_false_iff [H3%Z.ltb_ge H4]%orb_false_iff. assert (x = y) as -> by lia.
  rewrite Z.eqb_refl in *. f_equal. by apply IH.
Qed.

Definition entry_le (a b : gostr * Data) : Prop := str_leb a.1 b.1 = true.
#[export] Instance entry_le_dec a b : Decision (entry_le a b).
Proof. unfold entry_le. apply _. Defined.

#[export] Instance entry_le_total : Total entry_le.
Proof.
  intros a b. unfold entry_le, str_leb. rewrite !negb_true_iff. destruct (str_ltb b.1 a.1) eqn:E; [right|by left].
  apply not_true_iff_false. intros H. pose proof (str_ltb_trans _ _ _ E H) as H'. by rewrite str_ltb_irrefl in H'.
Qed.
#[export] Instance entry_le_trans : Transitive entry_le.
Proof.
  intros a b c. unfold entry_le, str_leb. rewrite !negb_true_iff. intros H1 H2. apply not_true_iff_false. intros H.
  destruct (str_ltb a.1 b.1) eqn:E.
  - by rewrite (str_ltb_trans c.1 a.1 b.1) in H2.
  - rewrite (str_ltb_total a.1 b.1) in H by done. congruence.
Qed.

Definition memory_entries (d : gmap gostr Data) : list (gostr * Data) := merge_sort entry_le (map_to_list d).

#[export] Instance memory_db : Database (gmap gostr Data) := {
  db_entries := memory_entries;
  db_put := fun k v d => (None, <[k := v]> d);
  db_del := fun k d => (None, delete k d);
  db_read := fun _ _ => None;
  db_close := fun _ => None;
}.

Lemma memory_entries_perm d : memory_entries d ≡ₚ map_to_list d.
Proof. apply merge_sort_Permutation. Qed.

Lemma memory_contents (d : gmap gostr Data) : db_contents d = d.
Proof.
  unfold db_contents. cbn. rewrite (list_to_map_proper (memory_entries d) (map_to_list d)).
  - apply list_to_map_to_list.
  - rewrite memory_entries_perm. apply NoDup_fst_map_to_list.
  - apply memory_entries_perm.
Qed.

Lemma strictly_sorted (l : list (gostr * Data)) : NoDup l.*1 -> StronglySorted entry_le l -> ascending l.
Proof.
  intros Hn Hs. induction Hs as [|a l Hs IH Hle]; [constructor|]. cbn in Hn. apply NoDup_cons in Hn as [Ha Hn].
  constructor; [by apply IH|]. rewrite Forall_forall in Hle |- *. intros b Hb. specialize (Hle b Hb).
  unfold entry_le, str_leb in Hle. apply negb_true_iff in Hle. apply not_false_iff_true. intros E.
  apply Ha. rewrite (str_ltb_total _ _ E Hle). by apply list_elem_of_fmap_2.
Qed.

#[export] Instance memory_db_laws : DatabaseLaws (gmap gostr Data).
Proof.
  split.
  - intros d. apply strictly_sorted; [|apply StronglySorted_merge_sort; apply _].
    cbn. rewrite memory_entries_perm. apply NoDup_fst_map_to_list.
  - intros k v d d' [= <-]. by rewrite !memory_contents.
  - intros k v d d' err [=].
  - intros k d d' [= <-]. by rewrite !memory_contents.
  - intros k d d' err [=].
Qed.
#[export] Instance memory_db_faultless : Faultless (gmap gostr Data).
Proof. by split. Qed.

(** Three clients and a subscription, read in the order of the keys. *)
Definition example_db : gmap gostr Data :=
  list_to_map [(!"SUB_b:x", []); (!"CL_b", !"null"); (!"CL_c", !"3"); (!"CL_a", !"1")].
Definition count_values (v : list nat) (value : Data) : list nat * option error :=
  match json_parse value with Some (JNumber n) => (v ++ [Z.to_nat n], None) | Some _ => (v, None) | None => (v, Some EJSON) end.

Lemma scans_agree_witness :
  (forall o, badger_iterKv ClientKey count_values (mkStoreHook o (Some example_db))
             = (Ok ([1; 3]%nat, None), mkStoreHook o (Some example_db))) /\
  (forall o, bolt_iterKv ClientKey count_values (mkStoreHook o (Some example_db))
             = (Ok ([1; 3]%nat, None), mkStoreHook o (Some example_db))) /\
  pebble_iter ClientKey example_db = [!"1"; !"null"; !"3"].
Proof.
  assert (E : db_entries example_db = [(!"CL_a", !"1"); (!"CL_b", !"null");
    (!"CL_c", !"3"); (!"SUB_b:x", [])]) by (vm_compute; reflexivity).
  destruct (scans_agree example_db ClientKey count_values) as (Hb & Ho & Hp); [done|repeat constructor; unfold is_u8; cbn; lia| |].
  - rewrite E. repeat (constructor; [split; [cbn; lia|repeat constructor; unfold is_u8; cbn; lia]|]). constructor.
  - rewrite E in Hb, Ho, Hp. split_and!; [intros o; rewrite Hb; reflexivity | intros o; rewrite Ho; reflexivity | exact Hp].
Defined.
