(* ===== verification/StoreRefines.v ===== *)
(** * The storage hooks implement the abstract store

    A database renders an abstract store when it holds exactly its documents,
    each under the rendering of its key. The rendering of the embedded
    databases is one string, that of redis a hash set and a field; both are
    injective on the keys of well-formed events. Every operation of the four
    hooks keeps the relation. *)
From S2P Require Import Prelude Codes Effects Codec FixedHeader Properties Packets Topics Inflight System Clients Json JsonCodec Storage HookChain Stores Badger Bolt Pebble Redis ClientIO StoreSpec StoreScan.

(** ** Documents *)

Definition marshal_doc (d : Doc) : Data :=
  match d with
  | DClient c => MarshalBinary c
  | DSub s => MarshalBinary s
  | DMessage m => MarshalBinary m
  | DSys i => MarshalBinary i
  end.

Definition key_ok (k : Key) : Prop :=
  match k with
  | KSub id _ => colon ∉ id
  | KInflight _ n => is_u16 n
  | _ => True
  end.

Definition doc_ok (k : Key) (d : Doc) : Prop :=
  key_ok k /\
  match k, d with
  | KClient _, DClient c => client_storable c
  | KSub _ _, DSub s => subscription_storable s
  | KRetained _, DMessage m | KInflight _ _, DMessage m => message_storable m
  | KSys, DSys i => sysinfo_storable i
  | _, _ => False
  end.

(** ** Rendered stores

    [look] is what the database holds under a key. *)

Section Rendered.
Context {K : Type} {EqK : EqDecision K} (render : Key -> K).
Context (render_inj : forall k1 k2, key_ok k1 -> key_ok k2 -> render k1 = render k2 -> k1 = k2).

Definition renders (look : K -> option Data) (s : Store) : Prop :=
  (forall k v, look k = Some v <-> exists key doc, s !! key = Some doc /\ render key = k /\ marshal_doc doc = v) /\
  (forall key doc, s !! key = Some doc -> doc_ok key doc).

Lemma renders_empty : renders (fun _ => None) ∅.
Proof. split; [|done]. intros k v. split; [done|]. by intros (? & ? & ? & _). Qed.

Lemma renders_insert look look' s key doc :
  renders look s -> doc_ok key doc -> look' (render key) = Some (marshal_doc doc) ->
  (forall k, k <> render key -> look' k = look k) -> renders look' (<[key := doc]> s).
Proof.
  intros [Hm Hs] Hd Hl Hl'. split.
  - intros k v. destruct (decide (k = render key)) as [->|Hne].
    + rewrite Hl. split.
      * intros [= <-]. exists key, doc. by rewrite lookup_insert_eq.
      * intros (key' & doc' & [[<- <-]|[Hne Hk]]%lookup_insert_Some & E & <-); [done|].
        exfalso. apply Hne. apply render_inj; [apply Hd|by apply (Hs _ _ Hk)|done].
    + rewrite Hl', Hm by done. split; intros (key' & doc' & Hk & <- & <-); exists key', doc'.
      * rewrite lookup_insert_ne; [done|congruence].
      * rewrite lookup_insert_ne in Hk; [done|congruence].
  - intros key' doc' [[<- <-]|[_ Hk]]%lookup_insert_Some; [done|by apply Hs].
Qed.

Lemma renders_delete look look' s key :
  renders look s -> key_ok key -> look' (render key) = None ->
  (forall k, k <> render key -> look' k = look k) -> renders look' (delete key s).
Proof.
  intros [Hm Hs] Hd Hl Hl'. split.
  - intros k v. destruct (decide (k = render key)) as [->|Hne].
    + rewrite Hl. split; [done|]. intros (key' & doc' & [Hne Hk]%lookup_delete_Some & E & _).
      exfalso. apply Hne. apply render_inj; [done|by apply (Hs _ _ Hk)|done].
    + rewrite Hl', Hm by done. split; intros (key' & doc' & Hk & <- & <-); exists key', doc'.
      * rewrite lookup_delete_ne; [done|congruence].
      * rewrite lookup_delete_ne in Hk; [done|congruence].
  - intros key' doc' [_ Hk']%lookup_delete_Some. by apply Hs.
Qed.

Lemma renders_lookup look s key : renders look s -> key_ok key -> look (render key) = marshal_doc <$> s !! key.
Proof.
  intros [Hm Hs] Hk. destruct (look (render key)) as [v|] eqn:E.
  - apply Hm in E as (key' & doc & Hl & Er & <-). apply render_inj in Er as ->; [by rewrite Hl|by apply (Hs _ _ Hl)|done].
  - destruct (s !! key) as [doc|] eqn:El; [|done]. exfalso. apply eq_None_not_Some in E. apply E. exists (marshal_doc doc).
    apply Hm. by exists key, doc.
Qed.
End Rendered.

(** ** Reading back

    [pick] selects the documents of a type from the abstract store, [sel] the
    keys the database scans for them. *)
Section ReadBack.
Context {A : Type} `{Serializable A} (pick : Key * Doc -> option A) (sel : Key -> bool).
Context (pick_sel : forall k d, doc_ok k d -> is_Some (pick (k, d)) <-> sel k = true).
Context (pick_doc : forall k d, doc_ok k d -> forall a, pick (k, d) = Some a -> marshal_doc d = MarshalBinary a /\ storable s_codec a).

Definition decoded (value : Data) : A := (UnmarshalBinary value (c_zero s_codec)).1.

Lemma pick_decoded k d a :
  doc_ok k d -> pick (k, d) = Some a -> UnmarshalBinary (marshal_doc d) (c_zero s_codec) = (a, None).
Proof. intros Hd Hp. destruct (pick_doc k d Hd a Hp) as [-> Hs]. by apply binary_roundtrip. Qed.

Context {K : Type} (proj : Key -> K) (s : Store) (l : list (K * Data)).
Context (s_ok : forall k d, s !! k = Some d -> doc_ok k d).
Context (proj_inj : forall k1 k2, key_ok k1 -> key_ok k2 -> sel k1 = true -> sel k2 = true -> proj k1 = proj k2 -> k1 = k2).
Context (l_nodup : NoDup l).
Context (l_spec : forall k v, (k, v) ∈ l <->
  exists key doc, s !! key = Some doc /\ sel key = true /\ proj key = k /\ marshal_doc doc = v).

Lemma scanned_perm : l ≡ₚ (fun kd => (proj kd.1, marshal_doc kd.2)) <$> base.filter (fun kd => sel kd.1 = true) (map_to_list s).
Proof using s_ok proj_inj l_nodup l_spec.
  apply NoDup_Permutation; [done|..].
  - apply NoDup_fmap_2_strong; [|apply NoDup_filter, NoDup_map_to_list].
    intros [k1 d1] [k2 d2] [E1 H1%elem_of_map_to_list]%list_elem_of_filter [E2 H2%elem_of_map_to_list]%list_elem_of_filter [= E _].
    apply proj_inj in E as ->; [congruence|by apply (s_ok _ _ H1)|by apply (s_ok _ _ H2)|done|done].
  - intros [k v]. rewrite l_spec, list_elem_of_fmap. split.
    + intros (key & doc & Hl & Hs & <- & <-). exists (key, doc). rewrite list_elem_of_filter, elem_of_map_to_list. done.
    + intros ([key doc] & [= -> ->] & [Hs Hl%elem_of_map_to_list]%list_elem_of_filter). by exists key, doc.
Qed.

Lemma decoded_perm : decoded <$> l.*2 ≡ₚ omap pick (map_to_list s).
Proof using pick_sel pick_doc s_ok proj_inj l_nodup l_spec.
  rewrite scanned_perm. assert (Forall (fun kd => doc_ok kd.1 kd.2) (map_to_list s)) as Hok.
  { apply Forall_forall. intros [k d] Hin%elem_of_map_to_list. by apply s_ok. }
  clear l_spec l_nodup. induction Hok as [|[k d] ml Hd _ IH]; [done|]. cbn in Hd. rewrite filter_cons. cbn [fst].
  destruct (pick (k, d)) as [a|] eqn:Ep; cbn; rewrite Ep; destruct (decide (sel k = true)) as [E|E].
  - cbn. rewrite IH. unfold decoded. by rewrite (pick_decoded k d a).
  - exfalso. apply E, pick_sel with d; [done|]. by eexists.
  - exfalso. apply (pick_sel k d) in E as [? E]; [|done]. congruence.
  - exact IH.
Qed.

Lemma scanned_decode : Forall (fun value => exists a, UnmarshalBinary value (c_zero s_codec) = (a, None)) l.*2.
Proof using pick_sel pick_doc s_ok l_spec.
  apply Forall_forall. intros value ([k v] & -> & Hin)%list_elem_of_fmap.
  apply l_spec in Hin as (key & doc & Hl & Hs & <- & <-). pose proof (s_ok _ _ Hl) as Hd.
  apply (pick_sel key doc) in Hs as [a Ha]; [|done]. exists a. by apply (pick_decoded key).
Qed.
End ReadBack.

Lemma walk_decoded {A} `{Serializable A} values (v : list A) :
  Forall (fun value => exists a, UnmarshalBinary value (c_zero s_codec) = (a, None)) values ->
  walk visit_append values v = (v ++ (decoded <$> values), None).
Proof.
  intros Hv. induction Hv as [|value values [a Ha] _ IH] in v |- *; [by rewrite app_nil_r|].
  cbn [walk fmap list_fmap]. unfold visit_append at 1, decoded at 1. rewrite Ha. rewrite IH, <- app_assoc. done.
Qed.

Lemma collect_decoded {A} `{Serializable A} values (v : list A) :
  Forall (fun value => exists a, UnmarshalBinary value (c_zero s_codec) = (a, None)) values ->
  pebble_collect values v = v ++ (decoded <$> values).
Proof.
  intros Hv. induction Hv as [|value values [a Ha] _ IH] in v |- *; [by rewrite app_nil_r|].
  cbn [pebble_collect fmap list_fmap]. unfold visit_append at 1, decoded at 1. rewrite Ha. cbn [fst]. rewrite IH, <- app_assoc. done.
Qed.

(** ** Renderings *)

Definition render_kv (k : Key) : gostr :=
  match k with
  | KClient id => ClientKey ++ !"_" ++ id
  | KSub id f => SubscriptionKey ++ !"_" ++ id ++ !":" ++ f
  | KRetained t => RetainedKey ++ !"_" ++ t
  | KInflight id n => InflightKey ++ !"_" ++ id ++ !":" ++ FormatUint n
  | KSys => SysInfoKey
  end.

Definition render_hash (prefix : gostr) (k : Key) : gostr * gostr :=
  match k with
  | KClient id => (prefix ++ ClientKey, id)
  | KSub id f => (prefix ++ SubscriptionKey, id ++ !":" ++ f)
  | KRetained t => (prefix ++ RetainedKey, t)
  | KInflight id n => (prefix ++ InflightKey, id ++ !":" ++ FormatUint n)
  | KSys => (prefix ++ SysInfoKey, SysInfoKey)
  end.

(** The first colon, or the last one, separates the two parts of a key. *)
Lemma first_colon_inj (a a' b b' : gostr) :
  colon ∉ a -> colon ∉ a' -> a ++ !":" ++ b = a' ++ !":" ++ b' -> a = a' /\ b = b'.
Proof.
  revert a'. induction a as [|x a IH]; intros [|y a'] Ha Ha' E.
  - by injection E.
  - exfalso. injection E as E _. apply Ha'. rewrite <- E. left.
  - exfalso. injection E as E _. apply Ha. rewrite E. left.
  - cbn in E. injection E as -> E. destruct (IH a') as [-> ->]; [set_solver|set_solver|done|done].
Qed.

Lemma last_colon_inj (a a' b b' : gostr) :
  colon ∉ b -> colon ∉ b' -> a ++ !":" ++ b = a' ++ !":" ++ b' -> a = a' /\ b = b'.
Proof.
  intros Hb Hb' E. apply (f_equal reverse) in E. rewrite !reverse_app in E. cbn in E. rewrite <- !app_assoc in E.
  apply (first_colon_inj (reverse b) (reverse b')) in E as [Eb Ea]; [|by rewrite elem_of_reverse..].
  apply (f_equal reverse) in Ea, Eb. by rewrite !reverse_involutive in Ea, Eb.
Qed.

Lemma FormatUint_no_colon n : colon ∉ FormatUint n.
Proof.
  intros H. pose proof (FormatUint_digit n) as Hd. rewrite Forall_forall in Hd. apply Hd in H.
  unfold is_digit, colon in H. lia.
Qed.

Lemma inflight_key_inj (id id' : gostr) n n' :
  is_u16 n -> is_u16 n' -> id ++ !":" ++ FormatUint n = id' ++ !":" ++ FormatUint n' -> id = id' /\ n = n'.
Proof.
  unfold is_u16. intros Hn Hn' E. apply last_colon_inj in E as [-> E]; [|apply FormatUint_no_colon..].
  split; [done|]. apply FormatUint_inj; [lia..|done].
Qed.

Lemma render_kv_inj k1 k2 : key_ok k1 -> key_ok k2 -> render_kv k1 = render_kv k2 -> k1 = k2.
Proof.
  destruct k1, k2; cbn [key_ok render_kv]; intros H1 H2 E; try discriminate E; try done.
  - by injection E as ->.
  - injection E as E. by apply first_colon_inj in E as [-> ->].
  - by injection E as ->.
  - injection E as E. by apply inflight_key_inj in E as [-> ->].
Qed.

Lemma render_hash_inj prefix k1 k2 : key_ok k1 -> key_ok k2 -> render_hash prefix k1 = render_hash prefix k2 -> k1 = k2.
Proof.
  destruct k1, k2; cbn [key_ok render_hash]; intros H1 H2 [Ep E]%pair_equal_spec; try (apply app_inv_head in Ep; discriminate Ep); try done.
  - by subst.
  - by apply first_colon_inj in E as [-> ->].
  - by subst.
  - by apply inflight_key_inj in E as [-> ->].
Qed.

(** ** Events *)

Section Events.
Context {W C : Type} (hook : Hook W C) (L : Layout) (R : W -> Store -> Prop).

(** [m] returns and changes the abstract store by [f]. *)
Definition steps (m : GoM W unit) (f : Store -> Store) : Prop :=
  forall w s, R w s -> wp m w (fun r w' => r = inl tt /\ R w' (f s)).

Lemma steps_ret : steps (mret tt) id.
Proof. intros w s Hw. by apply wp_ret. Qed.

Lemma steps_seq m n f g : steps m f -> steps n g -> steps (m;; n) (fun s => g (f s)).
Proof.
  intros Hm Hn w s Hw. apply wp_bind. eapply wp_mono; [by apply Hm|]. intros r w' [-> Hw']. by apply Hn.
Qed.

Lemma steps_for_each {A} (l : list A) body f :
  (forall x, x ∈ l -> steps (body x) (f x)) -> steps (for_each l body) (fun s => foldl (fun s x => f x s) s l).
Proof.
  intros Hb. induction l as [|x l IH]; [apply steps_ret|]. cbn [for_each foldl].
  apply (steps_seq _ _ (f x) (fun s => foldl (fun s x => f x s) s l)); [apply Hb; left|].
  apply IH. intros. apply Hb. by right.
Qed.

(** The method of the hook that an event calls. *)
Definition method (ev : Event) : GoM W unit :=
  match ev with
  | OnSessionEstablished cl pk => h_OnSessionEstablished hook cl pk
  | OnWillSent cl pk => h_OnWillSent hook cl pk
  | OnDisconnect cl err expire => h_OnDisconnect hook cl err expire
  | OnSubscribed cl pk reasonCodes => h_OnSubscribed hook cl pk reasonCodes
  | OnUnsubscribed cl pk => h_OnUnsubscribed hook cl pk
  | OnRetainMessage cl pk r => h_OnRetainMessage hook cl pk r
  | OnQosPublish cl pk sent resends => h_OnQosPublish hook cl pk sent resends
  | OnQosComplete cl pk => h_OnQosComplete hook cl pk
  | OnQosDropped cl pk => h_OnQosDropped hook cl (dropped_info cl pk)
  | OnClientExpired cl => h_OnClientExpired hook cl
  | OnRetainedExpired filter => h_OnRetainedExpired hook filter
  | OnSysInfoTick sys => h_OnSysInfoTick hook sys
  | _ => mret tt
  end.

Lemma steps_notify b call f :
  (if h_Provides hook b then steps (call hook) f else steps (mret tt) f) -> steps (notify (mkHookSet [hook] 1 1) b call) f.
Proof.
  intros Hc w s Hw. unfold notify. cbn [Hooks_GetAll hs_internal for_each]. apply wp_bind.
  destruct (h_Provides hook b); cbn [when]; (eapply wp_mono; [by apply Hc|]); intros r w' [-> H]; by apply wp_ret.
Qed.

Lemma steps_tell ev :
  (forall b, h_Provides hook b = badger_Provides b) -> steps (method ev) (spec_step L ev) ->
  steps (tell_one hook ev) (spec_step L ev).
Proof.
  intros Hp Hm. destruct ev; cbn [tell_one tell]; try (apply steps_notify; rewrite Hp; exact Hm). exact Hm.
Qed.
End Events.

(** The loop over the filters of a subscribe packet. *)
Lemma steps_for_filters {O DB} (R : StoreHook O DB -> Store -> Prop) fs cs body f :
  length fs = length cs -> (forall x c, (x, c) ∈ zip fs cs -> steps R (body x c) (f x c)) ->
  steps R (for_filters fs cs body) (fun s => foldl (fun s '(x, c) => f x c s) s (zip fs cs)).
Proof.
  revert cs. induction fs as [|x fs IH]; intros [|c cs] Hl Hb; try done.
  cbn [for_filters zip zip_with foldl].
  apply (steps_seq R _ _ (f x c) (fun s => foldl (fun s '(x, c) => f x c s) s (zip fs cs))); [apply Hb; left|].
  apply IH; [by injection Hl|]. intros. apply Hb. by right.
Qed.

(** ** The embedded databases *)

Definition badger_layout : Layout :=
  mkLayout badger_subscriptionKey badger_retainedKey badger_inflightKey pk_PacketID true stopped_by_takeover.
Definition bolt_layout : Layout :=
  mkLayout bolt_subscriptionKey bolt_retainedKey bolt_inflightKey (fun _ => 0) false stopped_with_takeover.
Definition pebble_layout : Layout :=
  mkLayout pebble_subscriptionKey pebble_retainedKey pebble_inflightKey pk_PacketID true stopped_by_takeover.
Definition redis_layout : Layout :=
  mkLayout redis_subscriptionKey redis_retainedKey redis_inflightKey (fun _ => 0) false stopped_with_takeover.

Section KV.
Context {DB : Type} `{Database DB} {Laws : DatabaseLaws DB} {Good : Faultless DB} {O : Type}.

Definition holds (w : StoreHook O DB) (s : Store) : Prop :=
  exists d, sh_db w = Some d /\ renders render_kv (fun k => db_contents d !! k) s.

Lemma steps_open m f : steps holds m f -> steps holds (unless_closed tt m) f.
Proof. intros Hm w s Hw. unfold wp, unless_closed. pose proof Hw as (d & -> & _). by apply Hm. Qed.

Lemma steps_transact (op : DB -> option error * DB) f :
  (forall d s, renders render_kv (fun k => db_contents d !! k) s ->
     (op d).1 = None /\ renders render_kv (fun k => db_contents (op d).2 !! k) (f s)) ->
  steps holds (ignore (on_db (transact op))) f.
Proof.
  intros Hop [o db] s (d & Hd & Hr). cbn in Hd. subst db. destruct (Hop d s Hr) as [He Hr'].
  unfold wp, ignore, on_db, zoom, transact. cbn. destruct (op d) as [err d']. cbn in He, Hr'. subst err. cbn.
  split; [done|]. by exists d'.
Qed.

Lemma steps_put key doc :
  doc_ok key doc -> steps holds (ignore (on_db (transact (db_put (render_kv key) (marshal_doc doc))))) (insert key doc).
Proof.
  intros Hd. apply steps_transact. intros d s Hr. pose proof (fl_put (render_kv key) (marshal_doc doc) d) as He.
  split; [done|]. destruct (db_put _ _ d) as [err d'] eqn:E. cbn in *. subst err. apply dl_put in E. rewrite E.
  apply (renders_insert _ render_kv_inj (fun k => db_contents d !! k)); [done..| |]; [by rewrite lookup_insert_eq|].
  intros k Hk. by rewrite lookup_insert_ne.
Qed.

Lemma steps_del key : key_ok key -> steps holds (ignore (on_db (transact (db_del (render_kv key))))) (delete key).
Proof.
  intros Hk. apply steps_transact. intros d s Hr. pose proof (fl_del (render_kv key) d) as He.
  split; [done|]. destruct (db_del _ d) as [err d'] eqn:E. cbn in *. subst err. apply dl_del in E. rewrite E.
  apply (renders_delete _ render_kv_inj (fun k => db_contents d !! k)); [done..| |]; [by rewrite lookup_delete_eq|].
  intros k Hn. by rewrite lookup_delete_ne.
Qed.

Lemma db_entries_spec (d : DB) k v : (k, v) ∈ db_entries d <-> db_contents d !! k = Some v.
Proof.
  unfold db_contents. rewrite <- elem_of_list_to_map; [done|].
  pose proof (dl_sorted d) as Hs. induction Hs as [|a l _ IH Hlt]; [constructor|]. cbn. apply NoDup_cons. split; [|done].
  intros (b & Eb & Hb)%list_elem_of_fmap. rewrite Forall_forall in Hlt. specialize (Hlt b Hb). rewrite <- Eb in Hlt.
  by rewrite str_ltb_irrefl in Hlt.
Qed.

Lemma db_entries_nodup (d : DB) : NoDup (db_entries d).
Proof.
  pose proof (dl_sorted d) as Hs. induction Hs as [|a l _ IH Hlt]; constructor; [|done].
  intros Ha. rewrite Forall_forall in Hlt. specialize (Hlt a Ha). by rewrite str_ltb_irrefl in Hlt.
Qed.

(** The entries that a scan for [p] finds are the renderings of the selected keys. *)
Section KVScan.
Context {A : Type} `{Serializable A} (pick : Key * Doc -> option A) (p : gostr).
Context (pick_sel : forall k d, doc_ok k d -> is_Some (pick (k, d)) <-> has_prefix p (render_kv k) = true).
Context (pick_doc : forall k d, doc_ok k d -> forall a, pick (k, d) = Some a -> marshal_doc d = MarshalBinary a /\ storable s_codec a).
Context (d : DB) (s : Store) (Hr : renders render_kv (fun k => db_contents d !! k) s).

Lemma with_prefix_spec k v : (k, v) ∈ with_prefix p (db_entries d) <->
  exists key doc, s !! key = Some doc /\ has_prefix p (render_kv key) = true /\ render_kv key = k /\ marshal_doc doc = v.
Proof using Hr Laws.
  unfold with_prefix. rewrite list_elem_of_filter, db_entries_spec, (proj1 Hr). cbn. split.
  - intros (Hp & key & doc & Hk & <- & <-). by exists key, doc.
  - intros (key & doc & Hk & Hp & <- & <-). split; [done|]. by exists key, doc.
Qed.

Lemma kv_decoded : decoded <$> (with_prefix p (db_entries d)).*2 ≡ₚ omap pick (map_to_list s).
Proof using Hr Laws pick_sel pick_doc.
  apply (decoded_perm pick (fun k => has_prefix p (render_kv k)) pick_sel pick_doc render_kv); [apply Hr|..].
  - intros. by apply render_kv_inj.
  - apply NoDup_filter, db_entries_nodup.
  - apply with_prefix_spec.
Qed.

Lemma kv_decode_ok :
  Forall (fun value => exists a : A, UnmarshalBinary value (c_zero s_codec) = (a, None)) (with_prefix p (db_entries d)).*2.
Proof using Hr Laws pick_sel pick_doc.
  apply (scanned_decode pick (fun k => has_prefix p (render_kv k)) pick_sel pick_doc render_kv s); [apply Hr|apply with_prefix_spec].
Qed.

Lemma badger_scan :
  walk visit_append (take_while (fun e => has_prefix p e.1) (seek p (db_entries d))).*2 []
  = (decoded <$> (with_prefix p (db_entries d)).*2, None).
Proof using Hr Laws pick_sel pick_doc. rewrite seek_prefix by apply dl_sorted. by rewrite walk_decoded by apply kv_decode_ok. Qed.
End KVScan.
End KV.

(** Which keys each scan finds, and the documents there. *)
Section Kinds.
Context (k : Key) (d : Doc) (Hd : doc_ok k d).

Lemma pick_client_sel : is_Some (pick_client (k, d)) <-> has_prefix ClientKey (render_kv k) = true.
Proof using Hd. destruct Hd as [_ Hd']. destruct k, d; cbn in *; try done; split; try done; by eexists. Qed.
Lemma pick_subscription_sel : is_Some (pick_subscription (k, d)) <-> has_prefix SubscriptionKey (render_kv k) = true.
Proof using Hd. destruct Hd as [_ Hd']. destruct k, d; cbn in *; try done; split; try done; by eexists. Qed.
Lemma pick_retained_sel : is_Some (pick_retained (k, d)) <-> has_prefix RetainedKey (render_kv k) = true.
Proof using Hd. destruct Hd as [_ Hd']. destruct k, d; cbn in *; try done; split; try done; by eexists. Qed.
Lemma pick_inflight_sel : is_Some (pick_inflight (k, d)) <-> has_prefix InflightKey (render_kv k) = true.
Proof using Hd. destruct Hd as [_ Hd']. destruct k, d; cbn in *; try done; split; try done; by eexists. Qed.

Lemma pick_client_doc a : pick_client (k, d) = Some a -> marshal_doc d = MarshalBinary a /\ storable s_codec a.
Proof using Hd. destruct Hd as [_ Hd']. destruct k, d; try done. intros [= <-]. split; [done|by apply client_codec_ok]. Qed.
Lemma pick_subscription_doc a : pick_subscription (k, d) = Some a -> marshal_doc d = MarshalBinary a /\ storable s_codec a.
Proof using Hd. destruct Hd as [_ Hd']. destruct k, d; try done. intros [= <-]. split; [done|by apply subscription_codec_ok]. Qed.
Lemma pick_retained_doc a : pick_retained (k, d) = Some a -> marshal_doc d = MarshalBinary a /\ storable s_codec a.
Proof using Hd. destruct Hd as [_ Hd']. destruct k, d; try done. intros [= <-]. split; [done|by apply message_codec_ok]. Qed.
Lemma pick_inflight_doc a : pick_inflight (k, d) = Some a -> marshal_doc d = MarshalBinary a /\ storable s_codec a.
Proof using Hd. destruct Hd as [_ Hd']. destruct k, d; try done. intros [= <-]. split; [done|by apply message_codec_ok]. Qed.
End Kinds.
