(* ===== verification/StoreHooks.v ===== *)
(** * The four storage hooks keep the contract

    [KeepsStore] for badger, bolt, pebble and redis over any database that
    obeys its laws and does not fail. *)
From S2P Require Import Prelude Codes Effects Codec FixedHeader Properties Packets Topics Inflight System Clients Json JsonCodec Storage HookChain Stores Badger Bolt Pebble Redis ClientIO StoreSpec StoreScan StoreRefines.

Lemma client_doc_ok cl : client_kept cl -> doc_ok (KClient (cl_ID cl)) (DClient (client_doc (cl_ID cl) cl)).
Proof. intros H. split; [exact I|exact H]. Qed.

Lemma sysinfo_doc_ok sys : info_storable sys -> doc_ok KSys (DSys (sysinfo_doc SysInfoKey sys)).
Proof. intros H. split; [exact I|]. assert (utf8 SysInfoKey) by (split; [done|by repeat constructor]). by split_and!. Qed.

(** Every subscription of a subscribe packet can be stored. *)
Lemma subscribed_ok L cl pk cs f c :
  event_ok L (OnSubscribed cl pk cs) -> (f, c) ∈ zip (pk_Filters pk) cs ->
  doc_ok (KSub (cl_ID cl) (sub_Filter f)) (DSub (subscription_doc (ly_sub_id L cl (sub_Filter f)) cl f c)).
Proof. intros (Hid & _ & Hf) Hin. rewrite Forall_forall in Hf. split; [exact Hid|exact (Hf (f, c) Hin)]. Qed.

Lemma dropped_info_id cl pk : pk_PacketID (dropped_info cl pk) = pk_PacketID pk.
Proof. unfold dropped_info. by destruct (Inflight_Get _ _). Qed.

Lemma elem_of_not_nil {A} (x : A) l : x ∈ l -> l <> [].
Proof. intros H ->. by apply elem_of_nil in H. Qed.

(** The system information that is stored, if any. *)
Lemma sysinfo_stored {K} (look : K -> option Data) render (s : Store) :
  (forall k1 k2, key_ok k1 -> key_ok k2 -> render k1 = render k2 -> k1 = k2) -> renders render look s ->
  match look (render KSys) with
  | Some value => UnmarshalBinary value storage_SystemInfo0 = (stored_sysinfo s, None)
  | None => stored_sysinfo s = storage_SystemInfo0
  end.
Proof.
  intros Hinj Hr. rewrite (renders_lookup render Hinj look s KSys Hr I). unfold stored_sysinfo.
  destruct (s !! KSys) as [doc|] eqn:E; [|done]. apply (proj2 Hr) in E as [_ Hd]. destruct doc as [| | |i]; try done.
  exact (binary_roundtrip i (sysinfo_codec_ok i Hd)).
Qed.

(** ** The events of the embedded databases

    [L] says what a hook writes; its methods differ from the terms below only in
    the names they use. *)
Section KVEvents.
Context {DB : Type} `{Database DB} {Laws : DatabaseLaws DB} {Good : Faultless DB} {O : Type} (L : Layout).
Let R := holds (DB := DB) (O := O).
Let put (key : Key) (doc : Doc) : GoM (StoreHook O DB) unit :=
  ignore (on_db (transact (db_put (render_kv key) (marshal_doc doc)))).
Let del (key : Key) : GoM (StoreHook O DB) unit := ignore (on_db (transact (db_del (render_kv key)))).

Lemma kv_update cl :
  client_kept cl -> steps R (unless_closed tt (put (KClient (cl_ID cl)) (DClient (client_doc (cl_ID cl) cl)))) (spec_client cl).
Proof. intros Hc. apply steps_open. exact (steps_put _ _ (client_doc_ok cl Hc)). Qed.

Lemma kv_expire cl expire :
  steps R (if negb expire then mret tt else if ly_taken_over L (Client_StopCause cl) then mret tt else del (KClient (cl_ID cl)))
    (fun s => if expire && negb (ly_taken_over L (Client_StopCause cl)) then delete (KClient (cl_ID cl)) s else s).
Proof.
  destruct expire; [|apply steps_ret]. cbn [negb andb]. destruct (ly_taken_over _ _); [apply steps_ret|].
  exact (steps_del (KClient (cl_ID cl)) I).
Qed.

Lemma kv_disconnect_refresh cl err expire :
  ly_refresh L = true -> client_kept cl ->
  steps R (unless_closed tt (
    unless_closed tt (put (KClient (cl_ID cl)) (DClient (client_doc (cl_ID cl) cl)));;
    if negb expire then mret tt else if ly_taken_over L (Client_StopCause cl) then mret tt else del (KClient (cl_ID cl))))
  (spec_step L (OnDisconnect cl err expire)).
Proof.
  intros HL Hc. apply steps_open. unfold spec_step. rewrite HL.
  exact (steps_seq R _ _ _ _ (kv_update cl Hc) (kv_expire cl expire)).
Qed.

Lemma kv_disconnect_keep cl err expire :
  ly_refresh L = false ->
  steps R (unless_closed tt (
    if negb expire then mret tt else if ly_taken_over L (Client_StopCause cl) then mret tt else del (KClient (cl_ID cl))))
  (spec_step L (OnDisconnect cl err expire)).
Proof. intros HL. apply steps_open. unfold spec_step. rewrite HL. exact (kv_expire cl expire). Qed.

Lemma kv_subscribed cl pk cs :
  event_ok L (OnSubscribed cl pk cs) ->
  steps R (unless_closed tt (for_filters (pk_Filters pk) cs (fun f c => put (KSub (cl_ID cl) (sub_Filter f))
    (DSub (subscription_doc (ly_sub_id L cl (sub_Filter f)) cl f c))))) (spec_step L (OnSubscribed cl pk cs)).
Proof.
  intros Hok. apply steps_open.
  refine (steps_for_filters R (pk_Filters pk) cs _ (fun f c => insert (KSub (cl_ID cl) (sub_Filter f))
    (DSub (subscription_doc (ly_sub_id L cl (sub_Filter f)) cl f c))) (proj1 (proj2 Hok)) _).
  intros f c Hin. exact (steps_put _ _ (subscribed_ok L _ _ _ _ _ Hok Hin)).
Qed.

Lemma kv_unsubscribed cl pk :
  event_ok L (OnUnsubscribed cl pk) ->
  steps R (unless_closed tt (for_each (pk_Filters pk) (fun f => del (KSub (cl_ID cl) (sub_Filter f)))))
    (spec_step L (OnUnsubscribed cl pk)).
Proof.
  intros Hok. apply steps_open. refine (steps_for_each R (pk_Filters pk) _ (fun f => delete (KSub (cl_ID cl) (sub_Filter f))) _).
  intros f Hf. exact (steps_del (KSub (cl_ID cl) (sub_Filter f)) (Hok (elem_of_not_nil _ _ Hf))).
Qed.

Lemma kv_retain cl pk r :
  event_ok L (OnRetainMessage cl pk r) ->
  steps R (unless_closed tt (if r =? -1 then del (KRetained (pk_TopicName pk)) else
    put (KRetained (pk_TopicName pk)) (DMessage (retained_doc (ly_retained_id L (pk_TopicName pk)) cl pk))))
    (spec_step L (OnRetainMessage cl pk r)).
Proof.
  intros Hok. apply steps_open. unfold spec_step. destruct (r =? -1); [exact (steps_del (KRetained (pk_TopicName pk)) I)|].
  exact (steps_put (KRetained (pk_TopicName pk)) (DMessage _) (conj I Hok)).
Qed.

Lemma kv_publish cl pk sent resends :
  event_ok L (OnQosPublish cl pk sent resends) ->
  steps R (unless_closed tt (put (KInflight (cl_ID cl) (pk_PacketID pk))
    (DMessage (inflight_doc (ly_inflight_id L cl pk) (ly_packet_id L pk) cl pk sent))))
    (spec_step L (OnQosPublish cl pk sent resends)).
Proof. intros Hok. apply steps_open. exact (steps_put (KInflight (cl_ID cl) (pk_PacketID pk)) (DMessage _) Hok). Qed.

Lemma kv_complete cl pk :
  is_u16 (pk_PacketID pk) ->
  steps R (unless_closed tt (del (KInflight (cl_ID cl) (pk_PacketID pk)))) (spec_step L (OnQosComplete cl pk)).
Proof. intros Hok. apply steps_open. exact (steps_del (KInflight (cl_ID cl) (pk_PacketID pk)) Hok). Qed.

Lemma kv_dropped cl pk :
  is_u16 (pk_PacketID pk) ->
  steps R (unless_closed tt (del (KInflight (cl_ID cl) (pk_PacketID (dropped_info cl pk))))) (spec_step L (OnQosDropped cl pk)).
Proof.
  intros Hok. rewrite dropped_info_id. exact (kv_complete cl pk Hok).
Qed.

Lemma kv_delete key ev :
  key_ok key -> spec_step L ev = delete key -> steps R (unless_closed tt (del key)) (spec_step L ev).
Proof. intros Hk ->. apply steps_open. exact (steps_del key Hk). Qed.

Lemma kv_tick sys :
  info_storable sys -> steps R (unless_closed tt (put KSys (DSys (sysinfo_doc SysInfoKey sys)))) (spec_step L (OnSysInfoTick sys)).
Proof. intros Hs. apply steps_open. exact (steps_put _ _ (sysinfo_doc_ok sys Hs)). Qed.
End KVEvents.

(** ** Badger *)

Section Badger.
Context {DB : Type} `{Database DB} {Laws : DatabaseLaws DB} {Good : Faultless DB} (Open : badger_Options -> DB + error).
Let R := holds (DB := DB) (O := badger_Options).

Lemma badger_steps ev : event_ok badger_layout ev -> steps R (method (badger_hook Open) ev) (spec_step badger_layout ev).
Proof.
  destruct ev; intros Hok; try apply steps_ret.
  - exact (kv_update cl Hok).
  - exact (kv_disconnect_refresh badger_layout cl err expire eq_refl Hok).
  - exact (kv_subscribed badger_layout cl pk reasonCodes Hok).
  - exact (kv_unsubscribed badger_layout cl pk Hok).
  - exact (kv_retain badger_layout cl pk r Hok).
  - exact (kv_publish badger_layout cl pk sent resends Hok).
  - exact (kv_complete badger_layout cl pk Hok).
  - exact (kv_dropped badger_layout cl pk Hok).
  - exact (kv_update cl Hok).
  - exact (kv_delete badger_layout (KClient (cl_ID cl)) (OnClientExpired cl) I eq_refl).
  - exact (kv_delete badger_layout (KRetained filter) (OnRetainedExpired filter) I eq_refl).
  - exact (kv_tick badger_layout sys Hok).
Qed.

Lemma badger_stored_keeps {A} `{Serializable A} p (pick : Key * Doc -> option A) w s :
  (forall k d, doc_ok k d -> is_Some (pick (k, d)) <-> has_prefix p (render_kv k) = true) ->
  (forall k d, doc_ok k d -> forall a, pick (k, d) = Some a -> marshal_doc d = MarshalBinary a /\ storable s_codec a) ->
  R w s -> exists l, badger_stored p w = (Ok l, w) /\ l ≡ₚ omap pick (map_to_list s).
Proof.
  intros Hsel Hdoc. destruct w as [o db]. intros (d & Hd & Hr). cbn in Hd. subst db.
  exists (decoded <$> (with_prefix p (db_entries d)).*2). split; [|by apply (kv_decoded pick p Hsel Hdoc)].
  unfold badger_stored, unless_closed, mbind, GoM_bind, badger_iterKv, on_db, zoom. cbn.
  rewrite badger_loop_walk by apply fl_read. by rewrite (badger_scan pick p Hsel Hdoc d s Hr).
Qed.

Lemma badger_getKv_read {A} `{Serializable A} (v : A) o d k :
  badger_getKv k v (mkStoreHook o (Some d))
  = (Ok (match db_contents d !! k with Some value => UnmarshalBinary value v | None => (v, Some EDBKeyNotFound) end),
     mkStoreHook o (Some d)).
Proof.
  unfold badger_getKv, on_db, zoom. cbn. destruct (db_contents d !! k) as [value|]; [|done]. by rewrite fl_read.
Qed.

Lemma badger_sysinfo_keeps o (d : DB) (s : Store) :
  match db_contents d !! SysInfoKey with
  | Some value => UnmarshalBinary value storage_SystemInfo0 = (stored_sysinfo s, None)
  | None => stored_sysinfo s = storage_SystemInfo0
  end ->
  badger_StoredSysInfo (mkStoreHook o (Some d)) = (Ok (stored_sysinfo s), mkStoreHook o (Some d)).
Proof.
  intros Hs. unfold badger_StoredSysInfo, unless_closed, mbind, GoM_bind. cbn [sh_db]. rewrite badger_getKv_read.
  destruct (db_contents d !! SysInfoKey) as [value|]; by rewrite Hs.
Qed.

#[export] Instance badger_keeps : KeepsStore badger_layout (badger_hook Open) R.
Proof.
  split.
  - by repeat constructor.
  - intros ev w s Hw Hok. apply (steps_tell (badger_hook Open) badger_layout R ev); [done|by apply badger_steps|done].
  - intros w s. exact (badger_stored_keeps ClientKey pick_client w s pick_client_sel pick_client_doc).
  - intros w s. exact (badger_stored_keeps SubscriptionKey pick_subscription w s pick_subscription_sel pick_subscription_doc).
  - intros w s. exact (badger_stored_keeps RetainedKey pick_retained w s pick_retained_sel pick_retained_doc).
  - intros w s. exact (badger_stored_keeps InflightKey pick_inflight w s pick_inflight_sel pick_inflight_doc).
  - intros [o db] s (d & Hd & Hr). cbn in Hd. subst db. pose proof (sysinfo_stored _ render_kv s render_kv_inj Hr) as Hs.
    exact (badger_sysinfo_keeps o d s Hs).
Qed.
End Badger.

(** ** Bolt *)

Lemma render_kv_long k : (3 <= length (render_kv k))%nat.
Proof. destruct k; cbn; lia. Qed.

Section Bolt.
Context {DB : Type} `{Database DB} {Laws : DatabaseLaws DB} {Good : Faultless DB}.
Context (Open : bolt_Options -> DB + error) (CreateBucket : gostr -> DB -> option error * DB).
Let R := holds (DB := DB) (O := bolt_Options).
Let hook := bolt_hook Open CreateBucket.

Lemma bolt_steps ev : event_ok bolt_layout ev -> steps R (method hook ev) (spec_step bolt_layout ev).
Proof.
  destruct ev; intros Hok; try apply steps_ret.
  - exact (kv_update cl Hok).
  - exact (kv_disconnect_keep bolt_layout cl err expire eq_refl).
  - exact (kv_subscribed bolt_layout cl pk reasonCodes Hok).
  - exact (kv_unsubscribed bolt_layout cl pk Hok).
  - exact (kv_retain bolt_layout cl pk r Hok).
  - exact (kv_publish bolt_layout cl pk sent resends Hok).
  - exact (kv_complete bolt_layout cl pk Hok).
  - exact (kv_dropped bolt_layout cl pk Hok).
  - exact (kv_update cl Hok).
  - exact (kv_delete bolt_layout (KClient (cl_ID cl)) (OnClientExpired cl) I eq_refl).
  - exact (kv_delete bolt_layout (KRetained filter) (OnRetainedExpired filter) I eq_refl).
  - exact (kv_tick bolt_layout sys Hok).
Qed.

(** The cursor meets no key that is shorter than the prefix. *)
Lemma bolt_iterKv_keeps {A} `{Serializable A} p (pick : Key * Doc -> option A) o d s :
  (forall k d, doc_ok k d -> is_Some (pick (k, d)) <-> has_prefix p (render_kv k) = true) ->
  (forall k d, doc_ok k d -> forall a, pick (k, d) = Some a -> marshal_doc d = MarshalBinary a /\ storable s_codec a) ->
  (length p <= 3)%nat -> renders render_kv (fun k => db_contents d !! k) s ->
  exists l, bolt_iterKv p visit_append (mkStoreHook o (Some d)) = (Ok (l, None), mkStoreHook o (Some d)) /\
    l ≡ₚ omap pick (map_to_list s).
Proof.
  intros Hsel Hdoc Hp Hr.
  exists (decoded <$> (with_prefix p (db_entries d)).*2). split; [|by apply (kv_decoded pick p Hsel Hdoc)].
  unfold bolt_iterKv, on_db, zoom. cbn [sh_db]. rewrite bolt_loop_walk.
  - by rewrite (badger_scan pick p Hsel Hdoc d s Hr).
  - apply seek_Forall, Forall_forall. intros [k v] Hin%db_entries_spec. apply (proj1 Hr) in Hin as (key & doc & _ & <- & _).
    pose proof (render_kv_long key). cbn [fst]. lia.
Qed.

Lemma bolt_stored_keeps {A} `{Serializable A} p (pick : Key * Doc -> option A) w s :
  (forall k d, doc_ok k d -> is_Some (pick (k, d)) <-> has_prefix p (render_kv k) = true) ->
  (forall k d, doc_ok k d -> forall a, pick (k, d) = Some a -> marshal_doc d = MarshalBinary a /\ storable s_codec a) ->
  (length p <= 3)%nat -> R w s ->
  exists l, unless_not_open (r ← bolt_iterKv p visit_append; fail_with r.2 r.1) w = (Ok l, w) /\ l ≡ₚ omap pick (map_to_list s).
Proof.
  intros Hsel Hdoc Hp. destruct w as [o db]. intros (d & Hd & Hr). cbn in Hd. subst db.
  destruct (bolt_iterKv_keeps p pick o d s Hsel Hdoc Hp Hr) as (l & El & Hl). exists l. split; [|done].
  unfold unless_not_open, mbind, GoM_bind. cbn [sh_db]. by rewrite El.
Qed.

Lemma bolt_sysinfo_keeps o (d : DB) (s : Store) :
  match db_contents d !! SysInfoKey with
  | Some value => UnmarshalBinary value storage_SystemInfo0 = (stored_sysinfo s, None)
  | None => stored_sysinfo s = storage_SystemInfo0
  end ->
  bolt_StoredSysInfo (mkStoreHook o (Some d)) = (Ok (stored_sysinfo s), mkStoreHook o (Some d)).
Proof.
  intros Hs. unfold bolt_StoredSysInfo, unless_not_open, mbind, GoM_bind. cbn [sh_db].
  unfold bolt_getKv, on_db, zoom. cbn [sh_db].
  destruct (db_contents d !! SysInfoKey) as [value|]; by rewrite Hs.
Qed.

#[export] Instance bolt_keeps : KeepsStore bolt_layout hook R.
Proof.
  split.
  - by repeat constructor.
  - intros ev w s Hw Hok. apply (steps_tell hook bolt_layout R ev); [done|by apply bolt_steps|done].
  - intros [o db] s (d & Hd & Hr). cbn in Hd. subst db.
    destruct (bolt_iterKv_keeps ClientKey pick_client o d s pick_client_sel pick_client_doc) as (l & El & Hl);
      [cbn; lia|done|]. exists l. split; [|done].
    change (bolt_StoredClients (mkStoreHook o (Some d)) = (Ok l, mkStoreHook o (Some d))).
    unfold bolt_StoredClients, unless_not_open, mbind, GoM_bind. cbn [sh_db]. by rewrite El.
  - intros w s. exact (bolt_stored_keeps SubscriptionKey pick_subscription w s pick_subscription_sel pick_subscription_doc (le_n 3)).
  - intros w s. exact (bolt_stored_keeps RetainedKey pick_retained w s pick_retained_sel pick_retained_doc (le_n 3)).
  - intros w s. exact (bolt_stored_keeps InflightKey pick_inflight w s pick_inflight_sel pick_inflight_doc (le_n 3)).
  - intros [o db] s (d & Hd & Hr). cbn in Hd. subst db.
    exact (bolt_sysinfo_keeps o d s (sysinfo_stored _ render_kv s render_kv_inj Hr)).
Qed.
End Bolt.

(** ** Pebble *)

(** The bounds of the iterators separate the kinds of documents. *)
Definition bounds_prefix (p : gostr) : Prop :=
  forall k, in_range p (keyUpperBound p) (render_kv k) = has_prefix p (render_kv k).

Lemma pebble_bounds : bounds_prefix ClientKey /\ bounds_prefix SubscriptionKey /\ bounds_prefix RetainedKey /\ bounds_prefix InflightKey.
Proof. split_and!; intros []; reflexivity. Qed.

Section Pebble.
Context {DB : Type} `{Database DB} {Laws : DatabaseLaws DB} {Good : Faultless DB} (Open : pebble_Options -> bool -> DB + error).
Let R := holds (DB := DB) (O := pebble_Options).
Let hook := pebble_hook Open.

Lemma pebble_steps ev : event_ok pebble_layout ev -> steps R (method hook ev) (spec_step pebble_layout ev).
Proof.
  destruct ev; intros Hok; try apply steps_ret.
  - exact (kv_update cl Hok).
  - exact (kv_disconnect_refresh pebble_layout cl err expire eq_refl Hok).
  - exact (kv_subscribed pebble_layout cl pk reasonCodes Hok).
  - exact (kv_unsubscribed pebble_layout cl pk Hok).
  - exact (kv_retain pebble_layout cl pk r Hok).
  - exact (kv_publish pebble_layout cl pk sent resends Hok).
  - exact (kv_complete pebble_layout cl pk Hok).
  - exact (kv_dropped pebble_layout cl pk Hok).
  - exact (kv_update cl Hok).
  - exact (kv_delete pebble_layout (KClient (cl_ID cl)) (OnClientExpired cl) I eq_refl).
  - exact (kv_delete pebble_layout (KRetained filter) (OnRetainedExpired filter) I eq_refl).
  - exact (kv_tick pebble_layout sys Hok).
Qed.

Lemma pebble_iter_prefix p (d : DB) s :
  bounds_prefix p -> renders render_kv (fun k => db_contents d !! k) s -> pebble_iter p d = (with_prefix p (db_entries d)).*2.
Proof.
  intros Hp Hr. unfold pebble_iter, with_prefix. f_equal.
  assert (Forall (fun e => in_range p (keyUpperBound p) e.1 = has_prefix p e.1) (db_entries d)) as He.
  { apply Forall_forall. intros [k v] Hin%db_entries_spec. apply (proj1 Hr) in Hin as (key & doc & _ & <- & _). apply Hp. }
  induction He as [|e l He _ IH]; [done|]. rewrite !filter_cons, He. destruct (decide _); by rewrite IH.
Qed.

Lemma pebble_stored_keeps {A} `{Serializable A} p (pick : Key * Doc -> option A) w s :
  (forall k d, doc_ok k d -> is_Some (pick (k, d)) <-> has_prefix p (render_kv k) = true) ->
  (forall k d, doc_ok k d -> forall a, pick (k, d) = Some a -> marshal_doc d = MarshalBinary a /\ storable s_codec a) ->
  bounds_prefix p -> R w s -> exists l, pebble_stored p w = (Ok l, w) /\ l ≡ₚ omap pick (map_to_list s).
Proof.
  intros Hsel Hdoc Hp. destruct w as [o db]. intros (d & Hd & Hr). cbn in Hd. subst db.
  exists (decoded <$> (with_prefix p (db_entries d)).*2). split; [|by apply (kv_decoded pick p Hsel Hdoc)].
  unfold pebble_stored, unless_closed, on_db, zoom. cbn [sh_db]. rewrite (pebble_iter_prefix p d s) by done.
  by rewrite collect_decoded by apply (kv_decode_ok pick p Hsel Hdoc d s Hr).
Qed.

Lemma pebble_sysinfo_keeps o (d : DB) (s : Store) :
  match db_contents d !! SysInfoKey with
  | Some value => UnmarshalBinary value storage_SystemInfo0 = (stored_sysinfo s, None)
  | None => stored_sysinfo s = storage_SystemInfo0
  end ->
  pebble_StoredSysInfo (mkStoreHook o (Some d)) = (Ok (stored_sysinfo s), mkStoreHook o (Some d)).
Proof.
  intros Hs. unfold pebble_StoredSysInfo, unless_closed, mbind, GoM_bind. cbn [sh_db].
  assert (E : pebble_getKv pebble_sysInfoKey storage_SystemInfo0 (mkStoreHook o (Some d))
    = (Ok (match db_contents d !! SysInfoKey with
           | Some value => UnmarshalBinary value storage_SystemInfo0
           | None => (storage_SystemInfo0, Some EDBKeyNotFound)
           end), mkStoreHook o (Some d))).
  { unfold pebble_getKv, on_db, zoom. cbn [sh_db]. change pebble_sysInfoKey with SysInfoKey.
    destruct (db_contents d !! SysInfoKey) as [value|]; [|done]. by rewrite fl_read. }
  rewrite E. destruct (db_contents d !! SysInfoKey) as [value|]; by rewrite Hs.
Qed.

#[export] Instance pebble_keeps : KeepsStore pebble_layout hook R.
Proof.
  destruct pebble_bounds as (Hb1 & Hb2 & Hb3 & Hb4). split.
  - by repeat constructor.
  - intros ev w s Hw Hok. apply (steps_tell hook pebble_layout R ev); [done|by apply pebble_steps|done].
  - intros w s. exact (pebble_stored_keeps ClientKey pick_client w s pick_client_sel pick_client_doc Hb1).
  - intros w s. exact (pebble_stored_keeps SubscriptionKey pick_subscription w s pick_subscription_sel pick_subscription_doc Hb2).
  - intros w s. exact (pebble_stored_keeps RetainedKey pick_retained w s pick_retained_sel pick_retained_doc Hb3).
  - intros w s. exact (pebble_stored_keeps InflightKey pick_inflight w s pick_inflight_sel pick_inflight_doc Hb4).
  - intros [o db] s (d & Hd & Hr). cbn in Hd. subst db.
    exact (pebble_sysinfo_keeps o d s (sysinfo_stored _ render_kv s render_kv_inj Hr)).
Qed.
End Pebble.

(** ** Redis *)

Definition hash_kind (k : Key) : gostr :=
  match k with
  | KClient _ => ClientKey
  | KSub _ _ => SubscriptionKey
  | KRetained _ => RetainedKey
  | KInflight _ _ => InflightKey
  | KSys => SysInfoKey
  end.
Definition hash_field (k : Key) : gostr := (render_hash [] k).2.

Lemma render_hash_parts prefix k : render_hash prefix k = (prefix ++ hash_kind k, hash_field k).
Proof. by destruct k. Qed.

Section HashKinds.
Context (k : Key) (d : Doc) (Hd : doc_ok k d).

Lemma pick_client_kind : is_Some (pick_client (k, d)) <-> str_eqb (hash_kind k) ClientKey = true.
Proof using Hd. destruct Hd as [_ Hd']. destruct k, d; cbn in *; try done; split; try done; by eexists. Qed.
Lemma pick_subscription_kind : is_Some (pick_subscription (k, d)) <-> str_eqb (hash_kind k) SubscriptionKey = true.
Proof using Hd. destruct Hd as [_ Hd']. destruct k, d; cbn in *; try done; split; try done; by eexists. Qed.
Lemma pick_retained_kind : is_Some (pick_retained (k, d)) <-> str_eqb (hash_kind k) RetainedKey = true.
Proof using Hd. destruct Hd as [_ Hd']. destruct k, d; cbn in *; try done; split; try done; by eexists. Qed.
Lemma pick_inflight_kind : is_Some (pick_inflight (k, d)) <-> str_eqb (hash_kind k) InflightKey = true.
Proof using Hd. destruct Hd as [_ Hd']. destruct k, d; cbn in *; try done; split; try done; by eexists. Qed.
End HashKinds.

Section Redis.
Context {DB : Type} `{HashStore DB} {Laws : HashStoreLaws DB} {RO : RangeOrder}.
Context (NewClient : option redis_ConnOptions -> DB) (Ping : DB -> option error).
Let hook := redis_hook NewClient Ping.

Definition hash_look (d : DB) (k : gostr * gostr) : option Data := hash_all d k.1 !! k.2.

(** The hash sets of the hook hold the documents of the store. *)
Definition hash_holds (w : StoreHook redis_Options DB) (s : Store) : Prop :=
  exists d, sh_db w = Some d /\ renders (render_hash (rdo_HPrefix (sh_config w))) (hash_look d) s.
Let R := hash_holds.

Lemma redis_open m f : steps R m f -> steps R (unless_closed tt m) f.
Proof. intros Hm w s Hw. unfold wp, unless_closed. pose proof Hw as (d & -> & _). by apply Hm. Qed.

Lemma redis_transact (op : redis_Options -> DB -> option error * DB) f :
  (forall o d s, renders (render_hash (rdo_HPrefix o)) (hash_look d) s ->
     (op o d).1 = None /\ renders (render_hash (rdo_HPrefix o)) (hash_look (op o d).2) (f s)) ->
  steps R (ignore (h ← get_state; on_db (transact (op (sh_config h))))) f.
Proof.
  intros Hop [o db] s (d & Hd & Hr). cbn in Hd, Hr. subst db. destruct (Hop o d s Hr) as [He Hr'].
  unfold wp, ignore, mbind, GoM_bind, get_state, on_db, zoom, transact. cbn. destruct (op o d) as [err d']. cbn in He, Hr'.
  subst err. cbn. split; [done|]. by exists d'.
Qed.

Lemma redis_put key doc :
  doc_ok key doc ->
  steps R (ignore (h ← get_state; on_db (transact (hash_set (render_hash (rdo_HPrefix (sh_config h)) key).1
    (render_hash (rdo_HPrefix (sh_config h)) key).2 (marshal_doc doc))))) (insert key doc).
Proof.
  intros Hk. apply (redis_transact (fun o => hash_set (render_hash (rdo_HPrefix o) key).1 (render_hash (rdo_HPrefix o) key).2
    (marshal_doc doc))). intros o d s Hr. split; [apply hl_set_ok|].
  destruct (render_hash (rdo_HPrefix o) key) as [h f] eqn:Ek. cbn [fst snd]. destruct (hash_set h f (marshal_doc doc) d) as [err d'] eqn:E.
  pose proof (hl_set_ok h f (marshal_doc doc) d) as He. rewrite E in He. cbn in He. subst err. pose proof (hl_set _ _ _ _ _ E) as Hl.
  apply (renders_insert _ (render_hash_inj _) (hash_look d)); [done|done|..]; unfold hash_look; cbn [snd].
  - rewrite Ek. cbn. by rewrite Hl, str_eqb_refl, lookup_insert_eq.
  - rewrite Ek. intros [h' f'] Hne. cbn. rewrite Hl. destruct (str_eqb_spec h h') as [->|]; [|done].
    rewrite lookup_insert_ne; [done|congruence].
Qed.

Lemma redis_del key :
  key_ok key ->
  steps R (ignore (h ← get_state; on_db (transact (hash_del (render_hash (rdo_HPrefix (sh_config h)) key).1
    (render_hash (rdo_HPrefix (sh_config h)) key).2)))) (delete key).
Proof.
  intros Hk. apply (redis_transact (fun o => hash_del (render_hash (rdo_HPrefix o) key).1 (render_hash (rdo_HPrefix o) key).2)).
  intros o d s Hr. split; [apply hl_del_ok|].
  destruct (render_hash (rdo_HPrefix o) key) as [h f] eqn:Ek. cbn [fst snd]. destruct (hash_del h f d) as [err d'] eqn:E.
  pose proof (hl_del_ok h f d) as He. rewrite E in He. cbn in He. subst err. pose proof (hl_del _ _ _ _ E) as Hl.
  apply (renders_delete _ (render_hash_inj _) (hash_look d)); [done|done|..]; unfold hash_look; cbn [snd].
  - rewrite Ek. cbn. by rewrite Hl, str_eqb_refl, lookup_delete_eq.
  - rewrite Ek. intros [h' f'] Hne. cbn. rewrite Hl. destruct (str_eqb_spec h h') as [->|]; [|done].
    rewrite lookup_delete_ne; [done|congruence].
Qed.

Lemma redis_update cl : client_kept cl -> steps R (redis_updateClient cl) (spec_client cl).
Proof. intros Hc. apply redis_open. exact (redis_put (KClient (cl_ID cl)) _ (client_doc_ok cl Hc)). Qed.

Lemma redis_steps ev : event_ok redis_layout ev -> steps R (method hook ev) (spec_step redis_layout ev).
Proof.
  destruct ev; intros Hok; try apply steps_ret.
  - by apply redis_update.
  - apply redis_open. unfold spec_step. cbn [redis_layout ly_refresh ly_taken_over].
    destruct expire; [|apply steps_ret]. cbn [negb andb]. destruct (stopped_with_takeover _); [apply steps_ret|].
    exact (redis_del (KClient (cl_ID cl)) I).
  - apply redis_open.
    refine (steps_for_filters R (pk_Filters pk) reasonCodes _ (fun f c => insert (KSub (cl_ID cl) (sub_Filter f))
      (DSub (subscription_doc (redis_subscriptionKey cl (sub_Filter f)) cl f c))) (proj1 (proj2 Hok)) _).
    intros f c Hin. exact (redis_put (KSub (cl_ID cl) (sub_Filter f)) _ (subscribed_ok redis_layout _ _ _ _ _ Hok Hin)).
  - apply redis_open. refine (steps_for_each R (pk_Filters pk) _ (fun f => delete (KSub (cl_ID cl) (sub_Filter f))) _).
    intros f Hf. exact (redis_del (KSub (cl_ID cl) (sub_Filter f)) (Hok (elem_of_not_nil _ _ Hf))).
  - apply redis_open. unfold spec_step. cbv zeta. destruct (r =? -1); [exact (redis_del (KRetained (pk_TopicName pk)) I)|].
    exact (redis_put (KRetained (pk_TopicName pk)) (DMessage _) (conj I Hok)).
  - apply redis_open. exact (redis_put (KInflight (cl_ID cl) (pk_PacketID pk)) (DMessage _) Hok).
  - apply redis_open. exact (redis_del (KInflight (cl_ID cl) (pk_PacketID pk)) Hok).
  - apply redis_open. unfold spec_step. rewrite <- (dropped_info_id cl pk).
    refine (redis_del (KInflight (cl_ID cl) (pk_PacketID (dropped_info cl pk))) _). by rewrite dropped_info_id.
  - by apply redis_update.
  - apply redis_open. exact (redis_del (KClient (cl_ID cl)) I).
  - apply redis_open. exact (redis_del (KRetained filter) I).
  - apply redis_open. exact (redis_put KSys (DSys (sysinfo_doc SysInfoKey sys)) (sysinfo_doc_ok sys Hok)).
Qed.

Lemma redis_stored_keeps {A} `{Serializable A} kind (pick : Key * Doc -> option A) w s :
  (forall k d, doc_ok k d -> is_Some (pick (k, d)) <-> str_eqb (hash_kind k) kind = true) ->
  (forall k d, doc_ok k d -> forall a, pick (k, d) = Some a -> marshal_doc d = MarshalBinary a /\ storable s_codec a) ->
  R w s -> exists l, redis_stored kind w = (Ok l, w) /\ l ≡ₚ omap pick (map_to_list s).
Proof.
  intros Hsel Hdoc. destruct w as [o db]. intros (d & Hd & Hr). cbn in Hd, Hr. subst db.
  exists (decoded <$> (range (hash_all d (redis_hKey o kind))).*2). split.
  - unfold redis_stored, unless_closed, mbind, GoM_bind, get_state, on_db, zoom. cbn [sh_db sh_config].
    rewrite hl_read_ok. rewrite <- list_fmap_compose. done.
  - apply (decoded_perm pick _ Hsel Hdoc hash_field); [apply Hr| |apply (NoDup_fmap_1 fst), range_NoDup|].
    + intros k1 k2 Hk1 Hk2 E1 E2 E. apply (render_hash_inj (rdo_HPrefix o)); [done..|].
      destruct (str_eqb_spec (hash_kind k1) kind) as [F1|], (str_eqb_spec (hash_kind k2) kind) as [F2|]; try done.
      rewrite !render_hash_parts. congruence.
    + intros f v. rewrite elem_of_range. pose proof (proj1 Hr (redis_hKey o kind, f) v) as Hl.
      unfold hash_look in Hl. cbn [fst snd] in Hl. rewrite Hl. unfold redis_hKey.
      split; intros (key & doc & Hk & E); exists key, doc; rewrite render_hash_parts in *.
      * destruct E as ([E1 E2]%pair_equal_spec & <-). apply app_inv_head in E1. by rewrite E1, str_eqb_refl.
      * destruct E as (E1 & E2 & E3). destruct (str_eqb_spec (hash_kind key) kind) as [F|]; [|done]. by rewrite F, E2.
Qed.

Lemma redis_sysinfo_keeps o (d : DB) (s : Store) :
  match hash_look d (render_hash (rdo_HPrefix o) KSys) with
  | Some value => UnmarshalBinary value storage_SystemInfo0 = (stored_sysinfo s, None)
  | None => stored_sysinfo s = storage_SystemInfo0
  end ->
  redis_StoredSysInfo (mkStoreHook o (Some d)) = (Ok (stored_sysinfo s), mkStoreHook o (Some d)).
Proof.
  intros Hs. unfold redis_StoredSysInfo, unless_closed, mbind, GoM_bind, get_state, on_db, zoom. cbn [sh_db sh_config].
  rewrite hl_read_ok. unfold hash_look in Hs. cbn [render_hash fst snd] in Hs. unfold redis_hKey.
  destruct (hash_all d (rdo_HPrefix o ++ SysInfoKey) !! SysInfoKey) as [value|]; cbn [from_option id]; [by rewrite Hs|by cbn; rewrite Hs].
Qed.

Lemma redis_provides b : h_Provides hook b = badger_Provides b.
Proof.
  change (redis_Provides b = badger_Provides b). unfold redis_Provides, badger_Provides.
  apply eq_bool_prop_intro. rewrite !Is_true_true, !existsb_exists.
  split; intros (c & Hin & Hc); exists c; (split; [|exact Hc]); cbn in *; tauto.
Qed.

#[export] Instance redis_keeps : KeepsStore redis_layout hook R.
Proof.
  split.
  - by repeat constructor.
  - intros ev w s Hw Hok. apply (steps_tell hook redis_layout R ev); [apply redis_provides|by apply redis_steps|done].
  - intros w s. exact (redis_stored_keeps ClientKey pick_client w s pick_client_kind pick_client_doc).
  - intros w s. exact (redis_stored_keeps SubscriptionKey pick_subscription w s pick_subscription_kind pick_subscription_doc).
  - intros w s. exact (redis_stored_keeps RetainedKey pick_retained w s pick_retained_kind pick_retained_doc).
  - intros w s. exact (redis_stored_keeps InflightKey pick_inflight w s pick_inflight_kind pick_inflight_doc).
  - intros [o db] s (d & Hd & Hr). cbn in Hd, Hr. subst db.
    exact (redis_sysinfo_keeps o d s (sysinfo_stored _ _ s (render_hash_inj (rdo_HPrefix o)) Hr)).
Qed.
End Redis.

(** ** Any sequence of events *)

(** From the state [w0] of an empty database: whatever events are reported, the
    hook returns from each, and reads back the documents of the abstract store. *)
Definition refines {W C} (L : Layout) (hook : Hook W C) (w0 : W) : Prop :=
  forall evs, Forall (event_ok L) evs ->
  exists w, for_each evs (tell_one hook) w0 = (Ok tt, w) /\
    let s := spec_run L evs ∅ in
    (exists l, h_StoredClients hook w = (Ok l, w) /\ l ≡ₚ stored_clients s) /\
    (exists l, h_StoredSubscriptions hook w = (Ok l, w) /\ l ≡ₚ stored_subscriptions s) /\
    (exists l, h_StoredRetainedMessages hook w = (Ok l, w) /\ l ≡ₚ stored_retained s) /\
    (exists l, h_StoredInflightMessages hook w = (Ok l, w) /\ l ≡ₚ stored_inflight s) /\
    h_StoredSysInfo hook w = (Ok (stored_sysinfo s), w).

Lemma keeps_refines {W C} L (hook : Hook W C) R `{!KeepsStore L hook R} w : R w ∅ -> refines L hook w.
Proof.
  intros Hw evs Hevs. destruct (keeps_run L hook R evs w ∅ Hw Hevs) as (w' & E & Hw'). exists w'. split; [done|].
  split_and!; [by apply (ks_clients L)|by apply (ks_subscriptions L)|by apply (ks_retained L)|by apply (ks_inflight L)|by apply (ks_sysinfo L)].
Qed.

(** C5: the badger, bolt, pebble and redis hooks implement the abstract store.
    Started on an empty database that obeys its laws and does not fail, each of
    them returns from every sequence of storable events, and then reads back
    exactly the clients, subscriptions, retained messages, in-flight messages
    and system information that the abstract store holds after these events. *)
Theorem stores_refine {DB HB : Type} `{DatabaseLaws DB} `{!Faultless DB} `{HashStoreLaws HB} {RO : RangeOrder}
    OpenBadger OpenBolt CreateBucket OpenPebble NewRedis Ping (d : DB) (h : HB) :
  db_entries d = [] -> (forall k, hash_all h k = ∅) ->
  (forall o, refines badger_layout (badger_hook OpenBadger) (mkStoreHook o (Some d))) /\
  (forall o, refines bolt_layout (bolt_hook OpenBolt CreateBucket) (mkStoreHook o (Some d))) /\
  (forall o, refines pebble_layout (pebble_hook OpenPebble) (mkStoreHook o (Some d))) /\
  (forall o, refines redis_layout (redis_hook NewRedis Ping) (mkStoreHook o (Some h))).
Proof.
  intros Hd Hh. assert (Hkv : renders render_kv (fun k => db_contents d !! k) ∅).
  { unfold db_contents. rewrite Hd. apply renders_empty. }
  split_and!; intros o; (eapply keeps_refines; [apply _|]).
  1-3: by exists d.
  exists h. split; [done|]. split; [|done]. intros [k f] v. unfold hash_look. rewrite Hh. apply renders_empty.
Qed.

(** Hash sets in memory. *)
#[export] Instance memory_hash : HashStore (gmap gostr (gmap gostr Data)) := {
  hash_all := fun d h => default ∅ (d !! h);
  hash_set := fun h f v d => (None, <[h := <[f := v]> (default ∅ (d !! h))]> d);
  hash_del := fun h f d => (None, <[h := delete f (default ∅ (d !! h))]> d);
  hash_read := fun _ _ => None;
  hash_close := fun _ => None;
}.
#[export] Instance memory_hash_laws : HashStoreLaws (gmap gostr (gmap gostr Data)).
Proof.
  split; [| |done..]; intros h f.
  - intros v d d' [= <-] h'. cbn. destruct (str_eqb_spec h h') as [->|]; [by rewrite lookup_insert_eq|by rewrite lookup_insert_ne].
  - intros d d' [= <-] h'. cbn. destruct (str_eqb_spec h h') as [->|]; [by rewrite lookup_insert_eq|by rewrite lookup_insert_ne].
Qed.

(** A client connects, subscribes to two filters, drops one, and is sent a message. *)
Definition example_client : Client := (newClient DefaultOptions None) <| cl_ID := !"c1" |>.
Definition example_filters : list Subscription :=
  [Subscription0 <| sub_Filter := !"a/+" |> <| sub_Qos := 1 |>; Subscription0 <| sub_Filter := !"b" |>].
Definition example_message : Packet := Packet0
  <| pk_TopicName := !"a/b" |> <| pk_Payload := [1; 2] |> <| pk_PacketID := 7 |> <| pk_FixedHeader := mkFixedHeader 8 3 1 false true |>.
Definition example_events : list Event := [
  OnSessionEstablished example_client Packet0;
  OnSubscribed example_client (Packet0 <| pk_Filters := example_filters |>) [1; 0];
  OnUnsubscribed example_client (Packet0 <| pk_Filters := [Subscription0 <| sub_Filter := !"b" |>] |>);
  OnRetainMessage example_client example_message 1;
  OnQosPublish example_client example_message 0 0;
  OnDisconnect example_client None false ].

(** Closes the range and encoding conditions of concrete documents. *)
Ltac concrete_storable :=
  repeat match goal with
  | |- _ /\ _ => split
  | |- Forall _ _ => constructor
  | |- _ => reflexivity
  | |- _ <= _ => vm_compute; discriminate
  | |- _ <> [] -> _ => intros _
  | |- colon ∉ _ => apply (bool_decide_unpack _); reflexivity
  | |- _ => red
  end.

Lemma example_events_ok L : L ∈ [badger_layout; redis_layout] -> Forall (event_ok L) example_events.
Proof.
  intros H. repeat (apply elem_of_cons in H as [->|H]; [concrete_storable|]). by apply elem_of_nil in H.
Defined.

Lemma stores_refine_witness :
  (exists w, for_each example_events (tell_one (badger_hook (fun _ => inr (EDB 1)))) (mkStoreHook (badger_Options0) (Some ∅)) = (Ok tt, w) /\
    exists l, h_StoredSubscriptions (badger_hook (fun _ => inr (EDB 1))) w = (Ok l, w) /\
      l ≡ₚ stored_subscriptions (spec_run badger_layout example_events ∅)) /\
  (exists w, for_each example_events (tell_one (redis_hook (fun _ => ∅) (fun _ => None)))
      (mkStoreHook (mkRedisOptions [] [] [] 0 !"mochi-" None) (Some ∅)) = (Ok tt, w) /\
    exists l, h_StoredInflightMessages (redis_hook (fun _ => ∅) (fun _ => None)) w = (Ok l, w) /\
      l ≡ₚ stored_inflight (spec_run redis_layout example_events ∅)).
Proof.
  destruct (stores_refine (DB := gmap gostr Data) (HB := gmap gostr (gmap gostr Data)) (fun _ => inr (EDB 1)) (fun _ => inr (EDB 1))
    (fun _ d => (None, d)) (fun _ _ => inr (EDB 1)) (fun _ => ∅) (fun _ => None) ∅ ∅) as (Hb & _ & _ & Hr).
  - reflexivity.
  - intros k. reflexivity.
  - split.
    + destruct (Hb (badger_Options0) example_events) as (w & E & _ & Hs & _); [apply example_events_ok; left|].
      by exists w.
    + destruct (Hr (mkRedisOptions [] [] [] 0 !"mochi-" None) example_events) as (w & E & _ & _ & _ & Hi & _);
        [apply example_events_ok; right; left|]. by exists w.
Defined.
