(* ===== verification/Restore.v ===== *)
(** * Restoring the server from a store (server.go, readStore)

    The load functions fill a server with what the hooks have stored. The
    server and the hooks are run together: the events that a step of the server
    reports are told to the hooks before the next call of a hook. *)
From S2P Require Import Prelude Codes Effects Codec FixedHeader Properties Packets Topics Inflight System Clients Json JsonCodec Storage HookChain ClientIO Publish Server Sessions.

Section Load.
Context (e : Env) {RO : RangeOrder}.
Let caps := ev_Capabilities e.

Definition loadServerInfo (v : Info) : GoM Server unit :=
  when (co_RestoreSysInfoOnRestart (ca_Compatibilities caps)) (set_Info (fun i => i
    <| in_BytesReceived := in_BytesReceived v |>
    <| in_BytesSent := in_BytesSent v |>
    <| in_ClientsMaximum := in_ClientsMaximum v |>
    <| in_ClientsTotal := in_ClientsTotal v |>
    <| in_ClientsDisconnected := in_ClientsDisconnected v |>
    <| in_MessagesReceived := in_MessagesReceived v |>
    <| in_MessagesSent := in_MessagesSent v |>
    <| in_MessagesDropped := in_MessagesDropped v |>
    <| in_PacketsReceived := in_PacketsReceived v |>
    <| in_PacketsSent := in_PacketsSent v |>
    <| in_InflightDropped := in_InflightDropped v |>));;
  set_Info (fun i => i
    <| in_Retained := in_Retained v |>
    <| in_Inflight := in_Inflight v |>
    <| in_Subscriptions := in_Subscriptions v |>).

Definition loaded_subscription (sub : storage_Subscription) : Subscription := Subscription0
  <| sub_Filter := ss_Filter sub |>
  <| sub_RetainHandling := ss_RetainHandling sub |>
  <| sub_Qos := ss_Qos sub |>
  <| sub_RetainAsPublished := ss_RetainAsPublished sub |>
  <| sub_NoLocal := ss_NoLocal sub |>
  <| sub_Identifier := ss_Identifier sub |>.

Definition load_subscription (sub : storage_Subscription) : GoM Server unit :=
  let sb := loaded_subscription sub in
  isNew ← topics (fun x => TopicsIndex_Subscribe x (ss_Client sub) sb);
  when isNew (
    s ← get_state;
    match Clients_Get (sv_Clients s) (ss_Client sub) with
    | Some a => on_client a (set_client (fun cl => cl <| cl_State ::= fun st =>
        st <| st_Subscriptions ::= fun m => Subscriptions_Add m (ss_Filter sub) sb |> |>))
    | None => mret tt
    end).
Definition loadSubscriptions (v : list storage_Subscription) : GoM Server unit := for_each v load_subscription.

(** The client of a document, stopped. *)
Definition loaded_client (c : storage_Client) : Client :=
  let cl := NewClient e None (sc_Listener c) (sc_ID c) false in
  let cl := cl <| cl_Properties ::= fun p => p
    <| cp_ClientUsername := sc_Username c |>
    <| cp_CleanSession := sc_Clean c |>
    <| cp_ProtocolVersion := sc_ProtocolVersion c |>
    <| cp_Props := Properties0
      <| pr_SessionExpiryInterval := scp_SessionExpiryInterval (sc_Properties c) |>
      <| pr_SessionExpiryIntervalFlag := scp_SessionExpiryIntervalFlag (sc_Properties c) |>
      <| pr_AuthenticationMethod := scp_AuthenticationMethod (sc_Properties c) |>
      <| pr_AuthenticationData := scp_AuthenticationData (sc_Properties c) |>
      <| pr_RequestProblemInfoFlag := scp_RequestProblemInfoFlag (sc_Properties c) |>
      <| pr_RequestProblemInfo := scp_RequestProblemInfo (sc_Properties c) |>
      <| pr_RequestResponseInfo := scp_RequestResponseInfo (sc_Properties c) |>
      <| pr_ReceiveMaximum := scp_ReceiveMaximum (sc_Properties c) |>
      <| pr_TopicAliasMaximum := scp_TopicAliasMaximum (sc_Properties c) |>
      <| pr_User := scp_User (sc_Properties c) |>
      <| pr_MaximumPacketSize := scp_MaximumPacketSize (sc_Properties c) |> |>
    <| cp_Will := sc_Will c |> |> in
  Client_Stop (ev_now e) (Some (ECode ErrServerShuttingDown)) cl.

Definition load_client (c : storage_Client) : GoM Server unit :=
  a ← allocate (loaded_client c);
  cl ← on_client a get_client;
  let expire := session_expires cl in
  on_client a (emit (fun cl => OnDisconnect cl (Some (ECode ErrServerShuttingDown)) expire));;
  if expire then
    on_client a ClearInflights;;
    UnsubscribeClient a
  else
    modify (fun s => s <| sv_Clients ::= fun m => Clients_Add m (cl_ID cl) a |>).
Definition loadClients (v : list storage_Client) : GoM Server unit := for_each v load_client.

Definition load_inflight (msg : storage_Message) : GoM Server unit :=
  s ← get_state;
  match Clients_Get (sv_Clients s) (sm_Client msg) with
  | Some a => on_client a (inflight (fun i => Inflight_Set i (ToPacket msg)));; mret tt
  | None => mret tt
  end.
Definition loadInflight (v : list storage_Message) : GoM Server unit := for_each v load_inflight.

Definition load_retained (msg : storage_Message) : GoM Server unit :=
  topics (fun x => TopicsIndex_RetainMessage x (ToPacket msg));; mret tt.
Definition loadRetained (v : list storage_Message) : GoM Server unit := for_each v load_retained.
End Load.

(** ** The server and its hooks together *)

Section ReadStore.
Context (e : Env) {RO : RangeOrder} {W C : Type} (h : HookSet W C).

(** A step of the server, and the events it reported. *)
Definition on_server {A} (m : GoM Server A) : GoM (Server * W) A := fun sw =>
  let '(r, s) := m sw.1 in
  let reported := drop (length (sv_events sw.1)) (sv_events s) in
  match for_each reported (tell h) sw.2 with
  | (Ok _, w) | (Err _, w) => (r, (s, w))
  | (Panic, w) => (Panic, (s, w))
  | (Diverge, w) => (Diverge, (s, w))
  end.

(** A call of a hook. *)
Definition on_hooks {A} (m : GoM W A) : GoM (Server * W) A := fun sw => let '(r, w) := m sw.2 in (r, (sw.1, w)).

(** [if s.hooks.Provides(b) { v, err := stored(); if err != nil { return ... }; load(v) }] *)
Definition restore {A} (b : Z) (what : gostr) (stored : GoM W A) (load : A -> GoM Server unit) : GoM (Server * W) unit :=
  when (Hooks_Provides h [b]) (v ← in_context what (on_hooks stored); on_server (load v)).

Definition readStore : GoM (Server * W) unit :=
  restore code_StoredClients !"failed to load clients" (Hooks_StoredClients h) (loadClients e);;
  restore code_StoredSubscriptions !"load subscriptions" (Hooks_StoredSubscriptions h) loadSubscriptions;;
  restore code_StoredInflightMessages !"load inflight" (Hooks_StoredInflightMessages h) loadInflight;;
  restore code_StoredRetainedMessages !"load retained" (Hooks_StoredRetainedMessages h) loadRetained;;
  restore code_StoredSysInfo !"load server info" (Hooks_StoredSysInfo h) (fun sysInfo => loadServerInfo e (si_Info sysInfo)).
End ReadStore.
