(* ===== verification/RestoreFacts.v ===== *)
(** * A restart restores the sessions

    What the load functions leave in a server, stage by stage, and the theorem
    that a server which reads its store has the sessions, subscriptions,
    in-flight and retained messages that the store holds. *)
From S2P Require Import Prelude Codes Effects Codec FixedHeader Properties Packets Topics TopicsFacts Inflight System Clients Json JsonCodec Storage HookChain Stores Debug DebugFacts Badger ClientIO ClientIOFacts Publish Server Sessions ServerFacts StoreSpec StoreScan StoreRefines StoreHooks Restore.

(** ** The clients a server knows, by id *)

Definition client_of (s : Server) (id : gostr) : option Client := a ← sv_Clients s !! id; sv_store s !! a.

(** Every known client is in the store, under its id. *)
Definition named (s : Server) : Prop :=
  forall id a, sv_Clients s !! id = Some a -> exists cl, sv_store s !! a = Some cl /\ cl_ID cl = id.

Lemma on_client_run {A} a (m : GoM ClientView A) s cl :
  sv_store s !! a = Some cl ->
  on_client a m s = let '(r, cv) := m (mkClientView cl (sv_Info s) (sv_events s)) in (r, set_view a cv s).
Proof. intros Ha. unfold on_client, zoom, client_view. by rewrite Ha. Qed.

(** A change of a known client that keeps its id. *)
Lemma change_client s s' id a f :
  named s -> sv_Clients s !! id = Some a -> sv_Clients s' = sv_Clients s ->
  (forall cl, sv_store s !! a = Some cl -> sv_store s' = <[a := f cl]> (sv_store s)) ->
  (forall cl, cl_ID (f cl) = cl_ID cl) ->
  named s' /\ forall id', client_of s' id' = if decide (id' = id) then f <$> client_of s id' else client_of s id'.
Proof.
  intros Hn Ha Hc Hst Hid. destruct (Hn id a Ha) as (cl & Hcl & Ecl). specialize (Hst cl Hcl).
  assert (Hdiff : forall id' a', sv_Clients s !! id' = Some a' -> id' <> id -> a' <> a).
  { intros id' a' Ha' Hne ->. destruct (Hn id' a Ha') as (cl' & Hcl' & E). congruence. }
  split.
  - intros id' a' Ha'. rewrite Hc in Ha'. rewrite Hst. destruct (decide (id' = id)) as [->|Hne].
    + exists (f cl). assert (a' = a) as -> by congruence. rewrite lookup_insert_eq. split; [done|]. by rewrite Hid.
    + rewrite lookup_insert_ne by (symmetry; by apply (Hdiff id')). by apply Hn.
  - intros id'. unfold client_of. rewrite Hc, Hst. destruct (decide (id' = id)) as [->|Hne].
    + rewrite Ha. cbn. by rewrite lookup_insert_eq, Hcl.
    + destruct (sv_Clients s !! id') as [a'|] eqn:Ea'; cbn; [|done].
      by rewrite lookup_insert_ne by (symmetry; by apply (Hdiff id')).
Qed.

(** ** Loading clients *)

Section Clients.
Context (e : Env) {RO : RangeOrder}.

Definition expired (c : storage_Client) : bool := session_expires (loaded_client e c).

Definition no_filters : Packet := Packet0 <| pk_FixedHeader := FixedHeader0 <| fh_Type := Unsubscribe |> |>.

Definition load_events (c : storage_Client) : list Event :=
  OnDisconnect (loaded_client e c) (Some (ECode ErrServerShuttingDown)) (expired c) ::
  if expired c then [OnUnsubscribed (loaded_client e c) no_filters] else [].

(** A client without messages or subscriptions has nothing to clear. *)
Lemma ClearInflights_empty a s cl :
  sv_store s !! a = Some cl -> if_internal (cl_Inflight cl) = ∅ -> on_client a ClearInflights s = (Ok tt, s).
Proof.
  intros Ha Hi. rewrite (on_client_run a _ s cl Ha). unfold ClearInflights, mbind, GoM_bind, get_client. cbn [cv_client].
  unfold Inflight_GetAll. rewrite Hi, range_empty. cbn. f_equal. exact (reinsert a s cl Ha).
Qed.

Lemma UnsubscribeClient_empty a s cl :
  sv_store s !! a = Some cl -> st_Subscriptions (cl_State cl) = ∅ -> Client_IsTakenOver cl = false ->
  UnsubscribeClient a s = (Ok tt, s <| sv_events ::= fun l => l ++ [OnUnsubscribed cl no_filters] |>).
Proof.
  intros Ha Hs Ht. unfold UnsubscribeClient, mbind, GoM_bind. rewrite (look a s cl Ha). cbv zeta.
  rewrite (on_client_run a _ s cl Ha). unfold Subscriptions_GetAll. rewrite Hs, range_empty, Ht. cbn [set_client modify fmap list_fmap fold_left for_each].
  change (set_view a _ s) with (s <| sv_store ::= <[a := cl]> |> <| sv_Info := sv_Info s |> <| sv_events := sv_events s |>).
  rewrite (reinsert a s cl Ha). cbn [mret GoM_ret]. rewrite (on_client_run a _ s cl Ha). cbn [emit modify cv_client]. f_equal.
  change (set_view a _ s) with ((s <| sv_store ::= <[a := cl]> |> <| sv_Info := sv_Info s |> <| sv_events := sv_events s |>)
    <| sv_events ::= fun l => l ++ [OnUnsubscribed cl no_filters] |>).
  by rewrite (reinsert a s cl Ha).
Qed.

Lemma load_client_run c s :
  exists s', load_client e c s = (Ok tt, s') /\
    sv_store s' = <[fresh_address s := loaded_client e c]> (sv_store s) /\
    sv_Clients s' = (if expired c then sv_Clients s else <[sc_ID c := fresh_address s]> (sv_Clients s)) /\
    sv_Topics s' = sv_Topics s /\ sv_events s' = sv_events s ++ load_events c.
Proof.
  set (a := fresh_address s). set (cl := loaded_client e c).
  unfold load_client, allocate, mbind, GoM_bind. fold a cl.
  set (s1 := s <| sv_store ::= <[a := cl]> |>).
  assert (H1 : sv_store s1 !! a = Some cl) by apply lookup_insert_eq.
  rewrite (look a s1 cl H1). cbv zeta. rewrite (on_client_run a _ s1 cl H1). cbn [emit modify cv_client].
  set (s2 := set_view a _ s1).
  assert (H2 : sv_store s2 !! a = Some cl) by apply lookup_insert_eq.
  assert (E2 : sv_store s2 = <[a := cl]> (sv_store s)).
  { transitivity (<[a := cl]> (<[a := cl]> (sv_store s))); [done|apply insert_insert_eq]. }
  unfold load_events, expired. fold cl. destruct (session_expires cl).
  - rewrite (ClearInflights_empty a s2 cl H2 eq_refl), (UnsubscribeClient_empty a s2 cl H2 eq_refl eq_refl).
    eexists. split; [done|]. split_and!; [exact E2|done..|]. cbn. by rewrite <- app_assoc.
  - eexists. split; [done|]. split_and!; [exact E2|done..].
Qed.

Lemma load_client_spec c s :
  named s ->
  exists s', load_client e c s = (Ok tt, s') /\ named s' /\ sv_Topics s' = sv_Topics s /\
    (forall id, client_of s' id = if decide (id = sc_ID c /\ expired c = false) then Some (loaded_client e c) else client_of s id) /\
    sv_events s' = sv_events s ++ load_events c.
Proof.
  intros Hn. destruct (load_client_run c s) as (s' & E & Est & Ecl & Et & Eev). exists s'. split; [done|].
  assert (Hf : sv_store s !! fresh_address s = None) by (apply not_elem_of_dom; exact (is_fresh (dom (sv_store s)))).
  assert (Hold : forall id a, sv_Clients s !! id = Some a -> sv_store s' !! a = sv_store s !! a).
  { intros id a Ha. destruct (Hn id a Ha) as (cl & Hcl & _). rewrite Est. apply lookup_insert_ne. congruence. }
  assert (Hnew : sv_store s' !! fresh_address s = Some (loaded_client e c)) by (rewrite Est; apply lookup_insert_eq).
  split_and!; [|done| |done].
  - intros id a. rewrite Ecl. destruct (expired c).
    + intros Ha. rewrite (Hold id a Ha). by apply Hn.
    + intros [[<- <-]|[_ Ha]]%lookup_insert_Some; [by exists (loaded_client e c)|]. rewrite (Hold id a Ha). by apply Hn.
  - intros id. unfold client_of. rewrite Ecl. destruct (decide _) as [[-> ->]|Hne].
    + by rewrite lookup_insert_eq.
    + assert (E' : (if expired c then sv_Clients s else <[sc_ID c := fresh_address s]> (sv_Clients s)) !! id = sv_Clients s !! id).
      { destruct (expired c); [done|]. apply lookup_insert_ne. intros <-. by apply Hne. }
      rewrite E'. destruct (sv_Clients s !! id) as [a|] eqn:Ea; cbn; [|done]. by rewrite (Hold id a Ea).
Qed.

Lemma loadClients_spec cs s :
  named s -> NoDup (sc_ID <$> cs) ->
  exists s', loadClients e cs s = (Ok tt, s') /\ named s' /\ sv_Topics s' = sv_Topics s /\
    (forall c, c ∈ cs -> expired c = false -> client_of s' (sc_ID c) = Some (loaded_client e c)) /\
    (forall id, (forall c, c ∈ cs -> sc_ID c = id -> expired c = true) -> client_of s' id = client_of s id) /\
    sv_events s' = sv_events s ++ (cs ≫= load_events).
Proof.
  unfold loadClients. revert s. induction cs as [|c cs IH]; intros s Hn Hnd.
  - exists s. split_and!; [done..| |done|by rewrite app_nil_r]. intros c Hc. by apply elem_of_nil in Hc.
  - rewrite fmap_cons in Hnd. apply NoDup_cons in Hnd as [Hc Hnd].
    destruct (load_client_spec c s Hn) as (s1 & E1 & Hn1 & Ht1 & Hc1 & Hev1).
    destruct (IH s1 Hn1 Hnd) as (s' & E' & Hn' & Ht' & Hc' & Hfr & Hev'). exists s'. cbn [for_each]. unfold mbind, GoM_bind.
    rewrite E1. split_and!; [done|done|congruence|..].
    + intros c' [->|Hin]%elem_of_cons Hx; [|by apply Hc']. rewrite Hfr.
      * rewrite Hc1. by rewrite decide_True.
      * intros c' Hin' Heq. exfalso. apply Hc, list_elem_of_fmap. by exists c'.
    + intros id Hid. rewrite Hfr by (intros; apply Hid; [by right|done]). rewrite Hc1.
      destruct (decide _) as [[-> Hx]|]; [|done]. rewrite (Hid c) in Hx; [done|left|done].
    + rewrite Hev', Hev1, <- app_assoc. done.
Qed.
End Clients.

(** ** Loading subscriptions *)

Definition sans_subs (cl : Client) : Client := cl <| cl_State ::= fun st => st <| st_Subscriptions := ∅ |> |>.
Definition sans_inflight (cl : Client) : Client := with_inflight cl ((cl_Inflight cl) <| if_internal := ∅ |>).
Definition subs_of (cl : Client) : Subscriptions := st_Subscriptions (cl_State cl).

Lemma Subscribe_step x client s :
  index_ok x ->
  (TopicsIndex_Subscribe x client s).1 = negb (bool_decide (is_Some (subscription_of x (sub_Filter s) client))) /\
  index_ok (TopicsIndex_Subscribe x client s).2 /\
  ti_Retained (TopicsIndex_Subscribe x client s).2 = ti_Retained x /\
  forall f c, subscription_of (TopicsIndex_Subscribe x client s).2 f c =
    if decide (same_slot f (sub_Filter s) /\ c = client) then Some s else subscription_of x f c.
Proof.
  intros Hok. pose proof (Subscribe_effect x client s Hok) as E.
  destruct (TopicsIndex_Subscribe x client s) as [new x']. destruct E as [-> E]. cbn [fst snd].
  split_and!; [done|apply E|apply E|]. intros f c. by apply subscription_of_subscribe.
Qed.

Lemma subscription_of_slot x f g c : same_slot f g -> subscription_of x f c = subscription_of x g c.
Proof.
  unfold same_slot, subscription_of. intros (E1 & E2 & H). rewrite E1, E2. by destruct (IsSharedFilter g); [rewrite H|].
Qed.

Lemma load_subscription_spec d s :
  named s -> index_ok (sv_Topics s) -> subscription_of (sv_Topics s) (ss_Filter d) (ss_Client d) = None ->
  exists s', load_subscription d s = (Ok tt, s') /\ named s' /\ index_ok (sv_Topics s') /\
    (forall f c, subscription_of (sv_Topics s') f c =
       if decide (same_slot f (ss_Filter d) /\ c = ss_Client d) then Some (loaded_subscription d) else subscription_of (sv_Topics s) f c) /\
    (forall id, client_of s' id = if decide (id = ss_Client d)
       then (fun cl => cl <| cl_State ::= fun st => st <| st_Subscriptions ::= <[ss_Filter d := loaded_subscription d]> |> |>) <$> client_of s id
       else client_of s id) /\
    sv_events s' = sv_events s /\ ti_Retained (sv_Topics s') = ti_Retained (sv_Topics s).
Proof.
  intros Hn Hok Hnone. destruct (Subscribe_step (sv_Topics s) (ss_Client d) (loaded_subscription d) Hok) as (Hnew & Hok' & Hret & Hsub).
  change (sub_Filter (loaded_subscription d)) with (ss_Filter d) in *. rewrite Hnone in Hnew.
  unfold load_subscription, mbind, GoM_bind, topics. cbv zeta.
  destruct (TopicsIndex_Subscribe (sv_Topics s) (ss_Client d) (loaded_subscription d)) as [new x']. cbn [fst snd] in *.
  change (negb (bool_decide (is_Some None))) with true in Hnew. subst new.
  set (s1 := s <| sv_Topics := x' |>). cbn [when]. unfold get_state, Clients_Get. cbv beta iota.
  destruct (sv_Clients s1 !! ss_Client d) as [a|] eqn:Ea.
  - destruct (Hn _ _ Ea) as (cl & Hcl & Ecl). rewrite (on_client_run a _ s1 cl Hcl). cbn [set_client modify cv_client].
    eexists. split; [reflexivity|]. set (s' := set_view a _ s1).
    set (f := fun cl : Client => cl <| cl_State ::= fun st => st <| st_Subscriptions ::= <[ss_Filter d := loaded_subscription d]> |> |>).
    destruct (change_client s s' (ss_Client d) a f Hn Ea) as [Hn' Hc']; [done| |done|].
    { intros cl' Hcl'. assert (cl' = cl) as -> by congruence. done. }
    split_and!; [done|done|exact Hsub|exact Hc'|done|exact Hret].
  - exists s1. split_and!; [done|done|done|exact Hsub| |done|exact Hret].
    intros id. destruct (decide (id = ss_Client d)) as [->|]; [|done]. unfold client_of. change (sv_Clients s1) with (sv_Clients s) in *. by rewrite Ea.
Qed.

(** [m] returns normally, in a state with [Q]. *)
Definition completes {S} (m : GoM S unit) (s : S) (Q : S -> Prop) : Prop := exists s', m s = (Ok tt, s') /\ Q s'.

Lemma wp_completes {S} (m : GoM S unit) s Q : wp m s (fun r s' => r = inl tt /\ Q s') <-> completes m s Q.
Proof.
  unfold wp, completes. split.
  - destruct (m s) as [[[]|err| |] s']; try done; intros [? HQ]; [by exists s'|done].
  - intros (s' & -> & HQ). done.
Qed.

(** Two stored subscriptions of one client never name the same subscription. *)
Definition distinct_slots (ss : list storage_Subscription) : Prop :=
  forall d d', d ∈ ss -> d' ∈ ss -> ss_Client d = ss_Client d' -> same_slot (ss_Filter d) (ss_Filter d') -> d = d'.

(** Every subscription of the index and of a client is one of [ss], or was the
    client's before. *)
Definition no_more_subscriptions (ss : list storage_Subscription) (s s' : Server) : Prop :=
  (forall f c x, subscription_of (sv_Topics s') f c = Some x ->
     exists d, d ∈ ss /\ ss_Client d = c /\ same_slot f (ss_Filter d) /\ x = loaded_subscription d) /\
  (forall id cl f x, client_of s' id = Some cl -> subs_of cl !! f = Some x ->
     (exists d, d ∈ ss /\ ss_Client d = id /\ ss_Filter d = f /\ x = loaded_subscription d) \/
     (exists cl0, client_of s id = Some cl0 /\ subs_of cl0 !! f = Some x)).

Lemma loadSubscriptions_spec ss s :
  named s -> index_ok (sv_Topics s) -> NoDup ss -> distinct_slots ss ->
  (forall f c, subscription_of (sv_Topics s) f c = None) ->
  completes (loadSubscriptions ss) s (fun s' =>
    named s' /\ index_ok (sv_Topics s') /\ sv_events s' = sv_events s /\
    (forall id, sans_subs <$> client_of s' id = sans_subs <$> client_of s id) /\
    ti_Retained (sv_Topics s') = ti_Retained (sv_Topics s) /\
    (forall d, d ∈ ss -> subscription_of (sv_Topics s') (ss_Filter d) (ss_Client d) = Some (loaded_subscription d) /\
       forall cl, client_of s' (ss_Client d) = Some cl -> subs_of cl !! ss_Filter d = Some (loaded_subscription d)) /\
    no_more_subscriptions ss s s').
Proof.
  intros Hn Hok Hnd Hds Hnone. apply wp_completes.
  set (I := fun s' => named s' /\ index_ok (sv_Topics s') /\ sv_events s' = sv_events s /\
    (forall id, sans_subs <$> client_of s' id = sans_subs <$> client_of s id) /\
    ti_Retained (sv_Topics s') = ti_Retained (sv_Topics s) /\ no_more_subscriptions ss s s').
  assert (H0 : no_more_subscriptions ss s s) by (split; [intros f c x; by rewrite Hnone|by right; eauto]).
  eapply wp_mono; [apply (wp_for_each_all I
    (fun d s' => subscription_of (sv_Topics s') (ss_Filter d) (ss_Client d) = None)
    (fun d s' => subscription_of (sv_Topics s') (ss_Filter d) (ss_Client d) = Some (loaded_subscription d) /\
       forall cl, client_of s' (ss_Client d) = Some cl -> subs_of cl !! ss_Filter d = Some (loaded_subscription d)))|];
    [done| |by split_and!|by intros; apply Hnone|by intros r s' (-> & (? & ? & ? & ? & ? & ?) & ?)].
  intros d s1 Hd (Hn1 & Hok1 & Hev1 & Hc1 & Hr1 & Hm1 & Hm1') HN. apply wp_completes.
  destruct (load_subscription_spec d s1 Hn1 Hok1 HN) as (s2 & E & Hn2 & Hok2 & Hsub & Hcl & Hev2 & Hr2).
  exists s2. split; [done|]. unfold I. split_and!; [done|done|congruence|..].
  - intros id. rewrite Hcl, <- Hc1. destruct (decide _) as [->|]; [|done]. by destruct (client_of s1 (ss_Client d)).
  - congruence.
  - split.
    + intros f c x. rewrite Hsub. case_decide as Hs; [|apply Hm1]. intros [= <-]. destruct Hs as [Hs ->]. by exists d.
    + intros id cl f x. rewrite Hcl. case_decide as Hs; [|apply Hm1']. subst id.
      destruct (client_of s1 (ss_Client d)) as [cl1|] eqn:E1; [|done]. intros [= <-].
      change (<[ss_Filter d := loaded_subscription d]> (subs_of cl1) !! f = Some x ->
        (exists d', d' ∈ ss /\ ss_Client d' = ss_Client d /\ ss_Filter d' = f /\ x = loaded_subscription d') \/
        (exists cl0, client_of s (ss_Client d) = Some cl0 /\ subs_of cl0 !! f = Some x)).
      intros [[<- <-]|[_ Hx]]%lookup_insert_Some; [left; by exists d|by eapply Hm1'].
  - rewrite Hsub. by rewrite decide_True.
  - intros cl. rewrite Hcl, decide_True by done. destruct (client_of s1 (ss_Client d)) as [cl1|]; [|done]. intros [= <-].
    apply lookup_insert_eq.
  - intros d' Hd' Hne.
    assert (Hslot : ~ (same_slot (ss_Filter d') (ss_Filter d) /\ ss_Client d' = ss_Client d)).
    { intros [H1 H2]. apply Hne. by apply Hds. }
    split; [|by rewrite Hsub, decide_False]. intros [HP1 HP2]. split; [by rewrite Hsub, decide_False|].
    intros cl. rewrite Hcl. destruct (decide (ss_Client d' = ss_Client d)) as [Ec|]; [|apply HP2].
    destruct (client_of s1 (ss_Client d')) as [cl1|] eqn:E1; [|done]. intros [= <-].
    transitivity (subs_of cl1 !! ss_Filter d'); [|by apply HP2]. apply lookup_insert_ne.
    intros Ef. apply Hslot. split; [by rewrite <- Ef|done].
Qed.

(** ** Loading in-flight messages *)

Lemma load_inflight_spec m s :
  named s ->
  completes (load_inflight m) s (fun s' =>
    named s' /\ sv_Topics s' = sv_Topics s /\ sv_events s' = sv_events s /\
    (forall id, client_of s' id = if decide (id = sm_Client m)
       then (fun cl => with_inflight cl (Inflight_Set (cl_Inflight cl) (ToPacket m)).2) <$> client_of s id
       else client_of s id)).
Proof.
  intros Hn. unfold load_inflight, completes, mbind, GoM_bind, get_state, Clients_Get.
  destruct (sv_Clients s !! sm_Client m) as [a|] eqn:Ea.
  - destruct (Hn _ _ Ea) as (cl & Hcl & Ecl). rewrite (on_client_run a _ s cl Hcl). unfold inflight. cbn [cv_client].
    destruct (Inflight_Set (cl_Inflight cl) (ToPacket m)) as [new i] eqn:Ei. eexists. split; [reflexivity|].
    match goal with |- named ?x /\ _ => set (s' := x) end.
    destruct (change_client s s' (sm_Client m) a (fun cl => with_inflight cl (Inflight_Set (cl_Inflight cl) (ToPacket m)).2) Hn Ea)
      as [Hn' Hc']; [done| |done|].
    { intros cl' Hcl'. assert (cl' = cl) as -> by congruence. by rewrite Ei. }
    split_and!; [done..|exact Hc'].
  - exists s. split_and!; [done..|]. intros id. destruct (decide (id = sm_Client m)) as [->|]; [|done].
    unfold client_of. by rewrite Ea.
Qed.

(** The in-flight messages of a client are from [ms] or were there before, and
    a message of [ms] for the client, or another one under its id, is there. *)
Definition inflight_loaded (ms : list storage_Message) (s s' : Server) : Prop :=
  forall id cl', client_of s' id = Some cl' -> exists cl, client_of s id = Some cl /\
    (forall p v, Inflight_Get (cl_Inflight cl') p = Some v ->
       (exists m, m ∈ ms /\ sm_Client m = id /\ sm_PacketID m = p /\ v = ToPacket m) \/ Inflight_Get (cl_Inflight cl) p = Some v) /\
    (forall m, m ∈ ms -> sm_Client m = id -> is_Some (Inflight_Get (cl_Inflight cl') (sm_PacketID m))) /\
    (forall p, is_Some (Inflight_Get (cl_Inflight cl) p) -> is_Some (Inflight_Get (cl_Inflight cl') p)).

Lemma loadInflight_spec ms s :
  named s ->
  completes (loadInflight ms) s (fun s' =>
    named s' /\ sv_Topics s' = sv_Topics s /\ sv_events s' = sv_events s /\
    (forall id, sans_inflight <$> client_of s' id = sans_inflight <$> client_of s id) /\ inflight_loaded ms s s').
Proof.
  unfold loadInflight. induction ms as [|m ms IH] in s |- *; intros Hn.
  { exists s. split_and!; try done. intros id cl E. exists cl. split_and!; [done|by right|by intros m Hm%elem_of_nil|done]. }
  destruct (load_inflight_spec m s Hn) as (s1 & E1 & Hn1 & Ht1 & Hev1 & Hc1).
  destruct (IH s1 Hn1) as (s' & E' & Hn' & Ht' & Hev' & Hc' & Hl). exists s'.
  split; [cbn [for_each]; unfold mbind, GoM_bind; by rewrite E1|]. split_and!; [done|congruence|congruence|..].
  - intros id. rewrite Hc', Hc1. case_decide as Hd; [|done]. subst id. by destruct (client_of s (sm_Client m)).
  - intros id cl' Ecl'. destruct (Hl id cl' Ecl') as (cl1 & Ecl1 & H1 & H2 & H3). rewrite Hc1 in Ecl1. case_decide as Hd.
    + subst id. destruct (client_of s (sm_Client m)) as [cl|]; [|done]. injection Ecl1 as <-. exists cl. split; [done|].
      assert (Hset : forall p, Inflight_Get (Inflight_Set (cl_Inflight cl) (ToPacket m)).2 p =
        if decide (sm_PacketID m = p) then Some (ToPacket m) else Inflight_Get (cl_Inflight cl) p).
      { intros p. change (<[sm_PacketID m := ToPacket m]> (if_internal (cl_Inflight cl)) !! p = if decide (sm_PacketID m = p)
          then Some (ToPacket m) else if_internal (cl_Inflight cl) !! p). apply lookup_insert. }
      change (cl_Inflight (with_inflight cl _)) with (Inflight_Set (cl_Inflight cl) (ToPacket m)).2 in H1, H3.
      split_and!.
      * intros p v [(x & Hx & ? & ? & ?)|Hv]%H1; [left; exists x; split_and!; [by right|done..]|].
        rewrite Hset in Hv. case_decide; [|by right]. injection Hv as <-. left. exists m. split_and!; [by left|done..].
      * intros x [->|Hx]%elem_of_cons Hid; [|by apply H2]. apply H3. rewrite Hset, decide_True by done. eauto.
      * intros p Hp. apply H3. rewrite Hset. case_decide; [eauto|done].
    + exists cl1. split; [done|]. split_and!; [|intros x [->|Hx]%elem_of_cons Hid; [done|by apply H2]|done].
      intros p v [(x & Hx & ? & ? & ?)|Hv]%H1; [left; exists x; split_and!; [by right|done..]|by right].
Qed.

(** ** Loading retained messages *)

Definition no_more_retained (ms : list storage_Message) (s s' : Server) : Prop :=
  forall t pk, ti_Retained (sv_Topics s') !! t = Some pk ->
    (exists m, m ∈ ms /\ sm_TopicName m = t /\ pk = ToPacket m) \/ ti_Retained (sv_Topics s) !! t = Some pk.

Lemma loadRetained_spec ms s :
  index_ok (sv_Topics s) -> NoDup ms -> (forall m, m ∈ ms -> sm_TopicName m <> []) ->
  (forall m m', m ∈ ms -> m' ∈ ms -> sm_TopicName m = sm_TopicName m' -> m = m') ->
  completes (loadRetained ms) s (fun s' =>
    index_ok (sv_Topics s') /\ sv_events s' = sv_events s /\ (forall id, client_of s' id = client_of s id) /\
    (forall f c, subscription_of (sv_Topics s') f c = subscription_of (sv_Topics s) f c) /\
    (forall m, m ∈ ms -> ti_Retained (sv_Topics s') !! sm_TopicName m
       = if (0 <? length (sm_Payload m))%nat then Some (ToPacket m) else None) /\ no_more_retained ms s s').
Proof.
  intros Hok Hnd Hne Hds. apply wp_completes.
  set (I := fun s' => index_ok (sv_Topics s') /\ sv_events s' = sv_events s /\ (forall id, client_of s' id = client_of s id) /\
    (forall f c, subscription_of (sv_Topics s') f c = subscription_of (sv_Topics s) f c) /\ no_more_retained ms s s').
  assert (H0 : no_more_retained ms s s) by (by right).
  eapply wp_mono; [apply (wp_for_each_all I (fun _ _ => True)
    (fun m s' => ti_Retained (sv_Topics s') !! sm_TopicName m
       = if (0 <? length (sm_Payload m))%nat then Some (ToPacket m) else None))|];
    [done| |by split_and!|done|by intros r s' (-> & (? & ? & ? & ? & ?) & ?)].
  intros m s1 Hm (Hok1 & Hev1 & Hc1 & Hs1 & Hm1) _. apply wp_completes.
  destruct (RetainMessage_step (sv_Topics s1) (ToPacket m) Hok1 (Hne m Hm)) as (Hok2 & Hs2 & Hr2).
  change (pk_TopicName (ToPacket m)) with (sm_TopicName m) in Hr2.
  change (pk_Payload (ToPacket m)) with (sm_Payload m) in Hr2.
  unfold load_retained, completes, mbind, GoM_bind, topics.
  destruct (TopicsIndex_RetainMessage (sv_Topics s1) (ToPacket m)) as [out x']. cbn [snd] in *.
  eexists. split; [reflexivity|]. unfold I. split_and!; [exact Hok2|exact Hev1|exact Hc1|intros f c; etransitivity; [apply Hs2|apply Hs1]|..].
  - intros t pk. change (ti_Retained x' !! t = Some pk -> (exists m, m ∈ ms /\ sm_TopicName m = t /\ pk = ToPacket m) \/
      ti_Retained (sv_Topics s) !! t = Some pk). rewrite Hr2. destruct (0 <? length (sm_Payload m))%nat.
    + intros [[<- <-]|[_ H]]%lookup_insert_Some; [left; by exists m|by apply Hm1].
    + intros [_ H]%lookup_delete_Some. by apply Hm1.
  - change (ti_Retained x' !! sm_TopicName m = if (0 <? length (sm_Payload m))%nat then Some (ToPacket m) else None).
    rewrite Hr2. destruct (0 <? length (sm_Payload m))%nat; [apply lookup_insert_eq|apply lookup_delete_eq].
  - intros m' Hm' Hne'. split; [|done]. intros HP.
    assert (sm_TopicName m <> sm_TopicName m') by (intros Et; apply Hne'; by apply Hds).
    change (ti_Retained x' !! sm_TopicName m' = if (0 <? length (sm_Payload m'))%nat then Some (ToPacket m') else None).
    rewrite <- HP, Hr2. destruct (0 <? length (sm_Payload m))%nat; [by apply lookup_insert_ne|by apply lookup_delete_ne].
Qed.

(** ** The whole store *)

Section Restart.
Context (e : Env) {RO : RangeOrder} {W C : Type} (L : Layout) (hook : Hook W C) (R : W -> Store -> Prop) `{!KeepsStore L hook R}.
Let h : HookSet W C := mkHookSet [hook] 1 1.

Lemma stored_provided b :
  b ∈ [code_StoredClients; code_StoredSubscriptions; code_StoredInflightMessages; code_StoredRetainedMessages; code_StoredSysInfo] ->
  h_Provides hook b = true.
Proof. exact (proj1 (Forall_forall _ _) (ks_provides L (hook := hook)) b). Qed.
Ltac provided := apply stored_provided; repeat first [apply list_elem_of_here | apply list_elem_of_further].

Lemma stored_first {A} b (call : Hook W C -> GoM W A) (full : A -> bool) none v w :
  h_Provides hook b = true -> call hook w = (Ok v, w) ->
  first_stored b call full none (Hooks_GetAll h) w = (Ok (if full v then v else none), w).
Proof. intros Hp Hc. cbn. rewrite Hp. unfold mbind, GoM_bind. rewrite Hc. by destruct (full v). Qed.

Lemma stored_single {A} b (call : Hook W C -> GoM W (list A)) l w :
  h_Provides hook b = true -> call hook w = (Ok l, w) -> first_stored b call nonempty [] (Hooks_GetAll h) w = (Ok l, w).
Proof. intros Hp Hc. rewrite (stored_first b call nonempty [] l w Hp Hc). by destruct l. Qed.

(** One kind of documents is read and loaded; the events of the load are told. *)
Lemma restore_run {A} b what (stored : GoM W A) (load : A -> GoM Server unit) v s s' w w' evs :
  h_Provides hook b = true -> stored w = (Ok v, w) -> load v s = (Ok tt, s') -> sv_events s' = sv_events s ++ evs ->
  for_each evs (tell_one hook) w = (Ok tt, w') -> restore h b what stored load (s, w) = (Ok tt, (s', w')).
Proof.
  intros Hp Hst Hl Hev Ht. unfold restore, Hooks_Provides. cbn [Hooks_GetAll hs_internal existsb h]. rewrite Hp. cbn [orb when].
  unfold mbind, GoM_bind, in_context, on_hooks, on_server. cbn [fst snd]. rewrite Hst. cbn [fst snd]. rewrite Hl, Hev, drop_app_length.
  change (for_each evs (tell h) w) with (for_each evs (tell_one hook) w). by rewrite Ht.
Qed.

Lemma loaded_client_kept c : client_storable c -> client_kept (loaded_client e c).
Proof.
  intros (Hw & (? & Hu & ? & ? & ? & ? & ? & ? & ?) & ? & ? & ? & ? & ? & ?). split_and!; try done.
  1: repeat (split; [done || (apply Forall_fmap; eapply Forall_impl; [exact Hu|by intros []])|]); done.
  all: split; [done|by repeat constructor].
Qed.

Lemma load_events_ok cs : Forall client_storable cs -> Forall (event_ok L) (cs ≫= load_events e).
Proof.
  intros Hcs. induction Hcs as [|c cs Hc _ IH]; [constructor|]. cbn. constructor; [by apply loaded_client_kept|].
  apply Forall_app. split; [|done]. destruct (expired e c); [|by apply Forall_nil].
  apply Forall_singleton. intros Hf. by destruct Hf.
Qed.

(** Loading the clients changes no document of another kind. *)
Lemma spec_load_other cs key (s : Store) :
  (forall id, key <> KClient id) -> spec_run L (cs ≫= load_events e) s !! key = s !! key.
Proof.
  intros Hk. unfold spec_run. induction cs as [|c cs IH] in s |- *; [done|].
  change ((c :: cs) ≫= load_events e) with (load_events e c ++ (cs ≫= load_events e)). rewrite foldl_app, IH.
  assert (spec_step L (OnDisconnect (loaded_client e c) (Some (ECode ErrServerShuttingDown)) (expired e c)) s !! key = s !! key) as Hd.
  { unfold spec_step, spec_client.
    destruct (ly_refresh L), (_ && _); rewrite ?lookup_delete_ne, ?lookup_insert_ne by (symmetry; apply Hk); done. }
  unfold load_events. destruct (expired e c); exact Hd.
Qed.

Lemma spec_load_client cs (s : Store) id d :
  Forall client_storable cs -> spec_run L (cs ≫= load_events e) s !! KClient id = Some d ->
  s !! KClient id = Some d \/ exists c, d = DClient c /\ sc_ID c = id /\ client_storable c.
Proof.
  unfold spec_run. intros Hcs. induction Hcs as [|c cs Hc _ IH] in s |- *; [by left|].
  change ((c :: cs) ≫= load_events e) with (load_events e c ++ (cs ≫= load_events e)). rewrite foldl_app.
  intros [H|H]%IH; [|by right].
  assert (spec_step L (OnDisconnect (loaded_client e c) (Some (ECode ErrServerShuttingDown)) (expired e c)) s !! KClient id = Some d) as Hd.
  { unfold load_events in H. destruct (expired e c); exact H. }
  assert (forall s', spec_client (loaded_client e c) s !! KClient id = Some d \/ s !! KClient id = Some d -> s' = s ->
    s' !! KClient id = Some d \/ exists c, d = DClient c /\ sc_ID c = id /\ client_storable c) as Hu.
  { intros s' [Hi|Hi] ->; [|by left]. unfold spec_client in Hi. apply lookup_insert_Some in Hi as [[Hk <-]|[_ Hi]]; [|by left].
    right. eexists. split; [done|]. injection Hk as <-. split; [done|by apply loaded_client_kept]. }
  apply (Hu s); [|done]. unfold spec_step in Hd. destruct (ly_refresh L), (_ && _).
  - apply lookup_delete_Some in Hd as [_ Hd]. by left.
  - by left.
  - apply lookup_delete_Some in Hd as [_ Hd]. by right.
  - by right.
Qed.

Lemma consistent_load cs (s : Store) :
  Forall client_storable cs -> consistent s -> consistent (spec_run L (cs ≫= load_events e) s).
Proof.
  intros Hcs [H1 H2 H3 H4 H5]. constructor.
  - intros id d [H|H]%spec_load_client; [by apply H1|done|done].
  - intros id f d. rewrite spec_load_other by done. apply H2.
  - intros id f f'. rewrite !spec_load_other by done. apply H3.
  - intros id n d. rewrite spec_load_other by done. apply H4.
  - intros t d. rewrite spec_load_other by done. apply H5.
Qed.

(** *** What is restored of a document, field by field *)

(** A session that ends with its connection, by the version of the protocol. *)
Definition session_ends (c : storage_Client) : Prop :=
  (sc_ProtocolVersion c = 5 /\ scp_SessionExpiryInterval (sc_Properties c) = 0) \/
  (sc_ProtocolVersion c < 5 /\ sc_Clean c = true).

(** [cl] is the session [c], without a connection and stopped for the shutdown. *)
Record session_restored (c : storage_Client) (cl : Client) : Prop := mkSessionRestored {
  sr_id : cl_ID cl = sc_ID c;
  sr_listener : net_Listener (cl_Net cl) = sc_Listener c;
  sr_connection : net_Conn (cl_Net cl) = false /\ net_Inline (cl_Net cl) = false;
  sr_username : cp_ClientUsername (cl_Properties cl) = sc_Username c;
  sr_clean : cp_CleanSession (cl_Properties cl) = sc_Clean c;
  sr_version : cp_ProtocolVersion (cl_Properties cl) = sc_ProtocolVersion c;
  sr_will : cp_Will (cl_Properties cl) = sc_Will c;
  sr_properties : let p := cp_Props (cl_Properties cl) in let d := sc_Properties c in
    pr_SessionExpiryInterval p = scp_SessionExpiryInterval d /\
    pr_SessionExpiryIntervalFlag p = scp_SessionExpiryIntervalFlag d /\
    pr_AuthenticationMethod p = scp_AuthenticationMethod d /\ pr_AuthenticationData p = scp_AuthenticationData d /\
    pr_RequestProblemInfoFlag p = scp_RequestProblemInfoFlag d /\ pr_RequestProblemInfo p = scp_RequestProblemInfo d /\
    pr_RequestResponseInfo p = scp_RequestResponseInfo d /\ pr_ReceiveMaximum p = scp_ReceiveMaximum d /\
    pr_TopicAliasMaximum p = scp_TopicAliasMaximum d /\ pr_User p = scp_User d /\
    pr_MaximumPacketSize p = scp_MaximumPacketSize d;
  sr_stopped : let st := cl_State cl in
    st_open st = false /\ st_stopCause st = Some (ECode ErrServerShuttingDown) /\ st_disconnected st = ev_now e /\
    st_isTakenOver st = false /\ st_outbound st = [] /\ st_packetID st = 0;
}.

Definition subscription_restored (d : storage_Subscription) (x : Subscription) : Prop :=
  x = mkSubscription [] (ss_Filter d) (ss_Identifier d) None (ss_RetainHandling d) (ss_Qos d)
        (ss_RetainAsPublished d) (ss_NoLocal d) false.

(** A message comes back without its expiry time and its protocol version,
    which are not stored. *)
Record message_restored (m : storage_Message) (pk : Packet) : Prop := mkMessageRestored {
  mr_header : pk_FixedHeader pk = sm_FixedHeader m;
  mr_id : pk_PacketID pk = sm_PacketID m;
  mr_topic : pk_TopicName pk = sm_TopicName m;
  mr_payload : pk_Payload pk = sm_Payload m;
  mr_origin : pk_Origin pk = sm_Origin m;
  mr_created : pk_Created pk = sm_Created m;
  mr_unstored : pk_Expiry pk = 0 /\ pk_ProtocolVersion pk = 0;
  mr_properties : let p := pk_Properties pk in let d := sm_Properties m in
    pr_PayloadFormat p = smp_PayloadFormat d /\ pr_PayloadFormatFlag p = smp_PayloadFormatFlag d /\
    pr_MessageExpiryInterval p = smp_MessageExpiryInterval d /\ pr_ContentType p = smp_ContentType d /\
    pr_ResponseTopic p = smp_ResponseTopic d /\ pr_CorrelationData p = smp_CorrelationData d /\
    pr_SubscriptionIdentifier p = smp_SubscriptionIdentifier d /\ pr_TopicAlias p = smp_TopicAlias d /\
    pr_User p = smp_User d;
}.

Lemma expired_ends c : expired e c = true <-> session_ends c.
Proof.
  unfold expired, session_ends, session_expires. cbn. rewrite orb_true_iff, !andb_true_iff, !Z.eqb_eq, Z.ltb_lt. done.
Qed.

Lemma loaded_client_restored c cl :
  sans_subs (sans_inflight cl) = sans_subs (sans_inflight (loaded_client e c)) -> session_restored c cl.
Proof.
  intros E.
  assert (Hs : forall x, session_restored c (sans_subs (sans_inflight x)) -> session_restored c x) by (by intros x []).
  apply Hs. rewrite E. constructor; cbn; repeat split.
Qed.

Lemma ToPacket_restored m : message_restored m (ToPacket m).
Proof.
  assert (Hu : map (fun v => mkUserProperty (up_Key v) (up_Val v)) (smp_User (sm_Properties m)) = smp_User (sm_Properties m)).
  { rewrite <- (map_id (smp_User (sm_Properties m))) at 2. apply map_ext. by intros []. }
  by constructor.
Qed.

(** *** The server after a restart on the store [st] *)
Record restored (st : Store) (s : Server) : Prop := mkRestored {
  rs_session : forall id c, st !! KClient id = Some (DClient c) -> ~ session_ends c -> exists cl,
    client_of s id = Some cl /\ session_restored c cl /\
    (forall f x, subs_of cl !! f = Some x <-> exists d, st !! KSub id f = Some (DSub d) /\ subscription_restored d x) /\
    (forall p pk, Inflight_Get (cl_Inflight cl) p = Some pk ->
       exists n m, st !! KInflight id n = Some (DMessage m) /\ sm_PacketID m = p /\ message_restored m pk) /\
    (forall n m, st !! KInflight id n = Some (DMessage m) -> is_Some (Inflight_Get (cl_Inflight cl) (sm_PacketID m)));
  rs_others : forall id, id <> InlineClientId -> (forall c, st !! KClient id = Some (DClient c) -> session_ends c) ->
    client_of s id = None;
  rs_index : forall f id x, subscription_of (sv_Topics s) f id = Some x <->
    exists f' d, same_slot f f' /\ st !! KSub id f' = Some (DSub d) /\ subscription_restored d x;
  rs_retained : forall t m, st !! KRetained t = Some (DMessage m) -> sm_Payload m <> [] ->
    exists pk, ti_Retained (sv_Topics s) !! t = Some pk /\ message_restored m pk;
  rs_only_retained : forall t pk, ti_Retained (sv_Topics s) !! t = Some pk ->
    exists m, st !! KRetained t = Some (DMessage m) /\ message_restored m pk;
}.

(** A backend that keeps the packet id loses no in-flight message. *)
Lemma inflight_kept st s id c n m :
  restored st s -> st !! KClient id = Some (DClient c) -> ~ session_ends c ->
  (forall n' m', st !! KInflight id n' = Some (DMessage m') -> sm_PacketID m' = n') ->
  st !! KInflight id n = Some (DMessage m) ->
  exists cl pk, client_of s id = Some cl /\ Inflight_Get (cl_Inflight cl) n = Some pk /\ message_restored m pk.
Proof.
  intros Hr Hc Hx Hid Hm. destruct (rs_session _ _ Hr id c Hc Hx) as (cl & Hcl & _ & _ & Hfrom & Hto).
  destruct (Hto n m Hm) as [pk Hpk]. rewrite (Hid n m Hm) in Hpk. destruct (Hfrom n pk Hpk) as (n' & m' & Hm' & E & Hres).
  rewrite (Hid n' m' Hm') in E. subst n'. exists cl, pk. split_and!; [done..|]. congruence.
Qed.

(** One that does not (bolt and redis store every message without it) leaves a
    client at most one, under packet id 0. *)
Lemma inflight_lost st s id c :
  restored st s -> st !! KClient id = Some (DClient c) -> ~ session_ends c ->
  (forall n m, st !! KInflight id n = Some (DMessage m) -> sm_PacketID m = 0) ->
  exists cl, client_of s id = Some cl /\ forall p, is_Some (Inflight_Get (cl_Inflight cl) p) -> p = 0.
Proof.
  intros Hr Hc Hx Hid. destruct (rs_session _ _ Hr id c Hc Hx) as (cl & Hcl & _ & _ & Hfrom & _).
  exists cl. split; [done|]. intros p [pk Hpk]. destruct (Hfrom p pk Hpk) as (n & m & Hm & <- & _). by apply (Hid n m).
Qed.

Lemma New_named : named (New e) /\ (forall id, id <> InlineClientId -> client_of (New e) id = None) /\
  sv_Topics (New e) = NewTopicsIndex.
Proof.
  unfold New, named, client_of. destruct (op_InlineClient (ev_Options e)); split_and!; try done.
  - intros id a Ha. change ((<[InlineClientId := 0%nat]> (∅ : Clients)) !! id = Some a) in Ha.
    apply lookup_insert_Some in Ha as [[<- <-]|[_ Ha]]; [|by rewrite lookup_empty in Ha]. by eexists.
  - intros id Hid. cbn. unfold Clients_Add, NewClients. by rewrite lookup_insert_ne.
Qed.

Lemma New_no_subscription f c : subscription_of NewTopicsIndex f c = None.
Proof. unfold subscription_of. rewrite NewTopicsIndex_at. by destruct (IsSharedFilter f). Qed.

(** ** The five stages of [readStore] *)

Lemma stage_clients w st :
  R w st -> consistent st ->
  exists s w' st', restore h code_StoredClients !"failed to load clients" (Hooks_StoredClients h) (loadClients e) (New e, w) = (Ok tt, (s, w')) /\
    R w' st' /\ consistent st' /\ (forall key, (forall id, key <> KClient id) -> st' !! key = st !! key) /\
    named s /\ sv_Topics s = NewTopicsIndex /\
    (forall id c, st !! KClient id = Some (DClient c) -> expired e c = false -> client_of s id = Some (loaded_client e c)) /\
    (forall id, id <> InlineClientId -> (forall c, st !! KClient id = Some (DClient c) -> expired e c = true) -> client_of s id = None).
Proof.
  intros HR Hco. destruct New_named as (Hn & Hid & Ht), (consistent_nodup st Hco) as (Hnd & _).
  destruct (ks_clients L w st HR) as (cs & Ecs & Pcs).
  assert (Hcs : forall c, c ∈ cs <-> exists id, st !! KClient id = Some (DClient c)) by (intros c; rewrite Pcs; apply elem_of_stored_clients).
  assert (Hids : forall c id, st !! KClient id = Some (DClient c) -> sc_ID c = id /\ client_storable c).
  { intros c id Hc. by destruct (co_client _ Hco _ _ Hc) as (? & [= <-] & ? & ?). }
  assert (Hcok : Forall client_storable cs) by (apply Forall_forall; intros c (id & Hc)%Hcs; by apply Hids in Hc as [_ ?]).
  destruct (loadClients_spec e cs (New e) Hn) as (s & E & Hn1 & Ht1 & Hc1 & Ho1 & Hev); [by rewrite Pcs|].
  destruct (keeps_run L hook R (cs ≫= load_events e) w st HR (load_events_ok cs Hcok)) as (w' & Ew & HR').
  exists s, w', (spec_run L (cs ≫= load_events e) st). split_and!; [|done|by apply consistent_load|by intros; apply spec_load_other|done|congruence|..].
  - apply (restore_run _ _ _ _ cs _ _ _ _ (cs ≫= load_events e)); try done; [provided|by apply stored_single; [provided|]].
  - intros id c Hc Hx. destruct (Hids c id Hc) as [<- _]. apply Hc1; [|done]. apply Hcs. by eexists.
  - intros id Hi Hx. rewrite Ho1; [by apply Hid|]. intros c (id' & Hc)%Hcs Heq. apply Hx. by destruct (Hids c id' Hc) as [<- _]; subst id.
Qed.

Lemma stage_subscriptions w st s :
  R w st -> consistent st -> named s -> sv_Topics s = NewTopicsIndex ->
  exists s', restore h code_StoredSubscriptions !"load subscriptions" (Hooks_StoredSubscriptions h) loadSubscriptions (s, w) = (Ok tt, (s', w)) /\
    named s' /\ index_ok (sv_Topics s') /\ ti_Retained (sv_Topics s') = ∅ /\
    (forall id, sans_subs <$> client_of s' id = sans_subs <$> client_of s id) /\
    (forall f id x, subscription_of (sv_Topics s') f id = Some x <->
       exists f' d, same_slot f f' /\ st !! KSub id f' = Some (DSub d) /\ x = loaded_subscription d) /\
    (forall id cl cl', client_of s id = Some cl -> subs_of cl = ∅ -> client_of s' id = Some cl' ->
       forall f x, subs_of cl' !! f = Some x <-> exists d, st !! KSub id f = Some (DSub d) /\ x = loaded_subscription d).
Proof.
  intros HR Hco Hn Ht. destruct (consistent_nodup st Hco) as (_ & Hnd & _), (ks_subscriptions L w st HR) as (ss & Ess & Pss).
  assert (Hss : forall d, d ∈ ss <-> exists id f, st !! KSub id f = Some (DSub d)) by (intros d; rewrite Pss; apply elem_of_stored_subscriptions).
  assert (Hids : forall d id f, st !! KSub id f = Some (DSub d) -> ss_Client d = id /\ ss_Filter d = f).
  { intros d id f Hd. by destruct (co_sub _ Hco _ _ _ Hd) as (? & [= <-] & ? & ?). }
  assert (Hds : distinct_slots ss).
  { intros d d' (id & f & Hd)%Hss (id' & f' & Hd')%Hss Ec Es. destruct (Hids d id f Hd), (Hids d' id' f' Hd'). simplify_eq.
    rewrite Ec in Hd. rewrite (co_slots _ Hco (ss_Client d') (ss_Filter d) (ss_Filter d')) in Hd by (done || by eexists). congruence. }
  destruct (loadSubscriptions_spec ss s Hn) as (s' & E & Hn' & Hok & Hev & Hc & Hr & Hsub & Hm1 & Hm2); [|by rewrite Pss|done|..].
  - rewrite Ht. apply NewTopicsIndex_ok.
  - intros f c. rewrite Ht. apply New_no_subscription.
  - exists s'. split_and!; [|done|done|by rewrite Hr, Ht|done|..].
    + apply (restore_run _ _ _ _ ss _ _ _ _ []); try done; [provided|by apply stored_single; [provided|]|by rewrite app_nil_r].
    + intros f id x. split.
      * intros (d & (id' & f' & Hd)%Hss & Ec & Es & ->)%Hm1. destruct (Hids d id' f' Hd). subst. by exists (ss_Filter d), d.
      * intros (f' & d & Hs & Hd & ->). destruct (Hids d id f' Hd) as [<- <-]. rewrite (subscription_of_slot _ _ _ _ Hs).
        apply Hsub, Hss. by eexists _, _.
    + intros id cl cl' Ecl Hnil Ecl' f x. split.
      * intros [(d & (id' & f' & Hd)%Hss & Ec & Ef & ->)|(cl0 & Ecl0 & Hx)]%(Hm2 id cl' f x Ecl').
        -- destruct (Hids d id' f' Hd). subst. by exists d.
        -- rewrite Ecl in Ecl0. injection Ecl0 as <-. by rewrite Hnil, lookup_empty in Hx.
      * intros (d & Hd & ->). destruct (Hids d id f Hd) as [<- <-]. apply (Hsub d); [apply Hss; by eexists _, _|done].
Qed.

Lemma stage_inflight w st s :
  R w st -> consistent st -> named s ->
  exists s', restore h code_StoredInflightMessages !"load inflight" (Hooks_StoredInflightMessages h) loadInflight (s, w) = (Ok tt, (s', w)) /\
    sv_Topics s' = sv_Topics s /\ (forall id, sans_inflight <$> client_of s' id = sans_inflight <$> client_of s id) /\
    (forall id cl cl', client_of s id = Some cl -> if_internal (cl_Inflight cl) = ∅ -> client_of s' id = Some cl' ->
       (forall p pk, Inflight_Get (cl_Inflight cl') p = Some pk ->
          exists n m, st !! KInflight id n = Some (DMessage m) /\ sm_PacketID m = p /\ pk = ToPacket m) /\
       (forall n m, st !! KInflight id n = Some (DMessage m) -> is_Some (Inflight_Get (cl_Inflight cl') (sm_PacketID m)))).
Proof.
  intros HR Hco Hn. destruct (ks_inflight L w st HR) as (ms & Ems & Pms).
  assert (Hms : forall m, m ∈ ms <-> exists id n, st !! KInflight id n = Some (DMessage m)) by (intros m; rewrite Pms; apply elem_of_stored_inflight).
  assert (Hids : forall m id n, st !! KInflight id n = Some (DMessage m) -> sm_Client m = id).
  { intros m id n Hm. by destruct (co_inflight _ Hco _ _ _ Hm) as (? & [= <-] & ?). }
  destruct (loadInflight_spec ms s Hn) as (s' & E & _ & Ht & Hev & Hc & Hl).
  exists s'. split_and!; [|done..|].
  - apply (restore_run _ _ _ _ ms _ _ _ _ []); try done; [provided|by apply stored_single; [provided|]|by rewrite app_nil_r].
  - intros id cl cl' Ecl Hnil Ecl'. destruct (Hl id cl' Ecl') as (cl0 & Ecl0 & H1 & H2 & _). rewrite Ecl in Ecl0. injection Ecl0 as <-. split.
    + intros p pk [(m & (id' & n & Hm)%Hms & Ec & Ep & ->)|Hp]%H1.
      * exists n, m. split_and!; [|done..]. by rewrite <- Ec, (Hids m id' n Hm).
      * unfold Inflight_Get in Hp. by rewrite Hnil, lookup_empty in Hp.
    + intros n m Hm. apply H2; [apply Hms; by eexists _, _|by eapply Hids].
Qed.

Lemma stage_retained w st s :
  R w st -> consistent st -> index_ok (sv_Topics s) -> ti_Retained (sv_Topics s) = ∅ ->
  exists s', restore h code_StoredRetainedMessages !"load retained" (Hooks_StoredRetainedMessages h) loadRetained (s, w) = (Ok tt, (s', w)) /\
    (forall id, client_of s' id = client_of s id) /\
    (forall f c, subscription_of (sv_Topics s') f c = subscription_of (sv_Topics s) f c) /\
    (forall t m, st !! KRetained t = Some (DMessage m) -> sm_Payload m <> [] -> ti_Retained (sv_Topics s') !! t = Some (ToPacket m)) /\
    (forall t pk, ti_Retained (sv_Topics s') !! t = Some pk -> exists m, st !! KRetained t = Some (DMessage m) /\ pk = ToPacket m).
Proof.
  intros HR Hco Hok Hnil. destruct (consistent_nodup st Hco) as (_ & _ & Hnd), (ks_retained L w st HR) as (rs & Ers & Prs).
  assert (Hrs : forall m, m ∈ rs <-> exists t, st !! KRetained t = Some (DMessage m)) by (intros m; rewrite Prs; apply elem_of_stored_retained).
  assert (Hids : forall m t, st !! KRetained t = Some (DMessage m) -> sm_TopicName m = t /\ t <> []).
  { intros m t Hm. by destruct (co_retained _ Hco _ _ Hm) as (? & [= <-] & ? & ?). }
  destruct (loadRetained_spec rs s Hok) as (s' & E & _ & Hev & Hc & Hsub & Hr & Hmore).
  - by rewrite Prs.
  - intros m (t & Hm)%Hrs. by destruct (Hids m t Hm) as [-> ?].
  - intros m m' (t & Hm)%Hrs (t' & Hm')%Hrs Et. destruct (Hids m t Hm), (Hids m' t' Hm'). congruence.
  - exists s'. split_and!; [|done|done|..].
    + apply (restore_run _ _ _ _ rs _ _ _ _ []); try done; [provided|by apply stored_single; [provided|]|by rewrite app_nil_r].
    + intros t m Hm Hp. destruct (Hids m t Hm) as [<- _]. rewrite Hr by (apply Hrs; by eexists). by destruct (sm_Payload m).
    + intros t pk [(m & (t' & Hm)%Hrs & Et & ->)|Hp]%Hmore; [|by rewrite Hnil, lookup_empty in Hp].
      exists m. split; [|done]. destruct (Hids m t' Hm) as [<- _]. by rewrite <- Et.
Qed.

Lemma stage_sysinfo w st s :
  R w st ->
  exists s', restore h code_StoredSysInfo !"load server info" (Hooks_StoredSysInfo h) (fun i => loadServerInfo e (si_Info i)) (s, w) = (Ok tt, (s', w)) /\
    sv_Topics s' = sv_Topics s /\ (forall id, client_of s' id = client_of s id).
Proof.
  intros HR. pose proof (ks_sysinfo L w st HR) as Esi.
  assert (exists v, Hooks_StoredSysInfo h w = (Ok v, w)) as (v & Hv) by (eexists; apply stored_first; [provided|exact Esi]).
  assert (exists s', loadServerInfo e (si_Info v) s = (Ok tt, s') /\ sv_events s' = sv_events s /\
    sv_Topics s' = sv_Topics s /\ forall id, client_of s' id = client_of s id) as (s' & E & Hev & ?).
  { unfold loadServerInfo, when. destruct (co_RestoreSysInfoOnRestart _); (eexists; split; [reflexivity|done]). }
  exists s'. split; [|done]. apply (restore_run _ _ _ _ v _ _ _ _ []); try done; [provided|by rewrite app_nil_r].
Qed.

End Restart.

(** A session, one subscription, a retained and an in-flight message, stored by
    the badger hook in a database in memory, and read by a new server. *)
Definition restart_client : storage_Client := client_doc !"c1" example_client.
Definition restart_events : list Event := [
  OnSessionEstablished example_client Packet0;
  OnSubscribed example_client (Packet0 <| pk_Filters := take 1 example_filters |>) [1];
  OnRetainMessage example_client example_message 1;
  OnQosPublish example_client example_message 0 0 ].
Definition restart_store : Store := spec_run badger_layout restart_events ∅.

Definition restart_inflight : storage_Message :=
  inflight_doc (ly_inflight_id badger_layout example_client example_message) 7 example_client example_message 0.
Definition restart_retained : storage_Message := retained_doc (ly_retained_id badger_layout !"a/b") example_client example_message.
Definition restart_sub : storage_Subscription :=
  subscription_doc (ly_sub_id badger_layout example_client !"a/+") example_client (Subscription0 <| sub_Filter := !"a/+" |> <| sub_Qos := 1 |>) 1.

Lemma restart_store_eq : restart_store =
  <[KInflight !"c1" 7 := DMessage restart_inflight]> (<[KRetained !"a/b" := DMessage restart_retained]>
    (<[KSub !"c1" !"a/+" := DSub restart_sub]> (<[KClient !"c1" := DClient restart_client]> ∅))).
Proof.
  unfold restart_store, spec_run, restart_events. cbn [foldl]. unfold spec_step at 1 2. cbn [Z.eqb]. reflexivity.
Qed.

Lemma restart_store_lookup k d : restart_store !! k = Some d <->
  (k = KInflight !"c1" 7 /\ d = DMessage restart_inflight) \/ (k = KRetained !"a/b" /\ d = DMessage restart_retained) \/
  (k = KSub !"c1" !"a/+" /\ d = DSub restart_sub) \/ (k = KClient !"c1" /\ d = DClient restart_client).
Proof.
  rewrite restart_store_eq, !lookup_insert_Some, lookup_empty. split; [naive_solver|].
  intros [[-> ->]|[[-> ->]|[[-> ->]|[-> ->]]]]; naive_solver.
Qed.

Lemma restart_store_consistent : consistent restart_store.
Proof.
  assert (Hc : client_storable restart_client) by concrete_storable.
  split; repeat intro; repeat match goal with H : is_Some _ |- _ => destruct H as [? H] end;
    repeat match goal with H : restart_store !! _ = Some _ |- _ => apply restart_store_lookup in H end;
    destruct_or?; destruct_and?; simplify_eq; by eauto.
Qed.


(** A message is restored without its expiry time: without a maximum of the
    server it never expires. *)
Lemma restored_never_expires e m now :
  ca_MaximumMessageExpiryInterval (ev_Capabilities e) = 0 -> retained_expired e now (ToPacket m) = false.
Proof. intros H. unfold retained_expired. by rewrite H. Qed.

(** A debug hook says that it provides a store: what was counted before the
    start is reset to what no store has. *)
Lemma debug_resets_gauges :
  let s := (New reliable_env) <| sv_Info ::= fun i => i <| in_Subscriptions := 2 |> |> in
  let chain hooks := mkHookSet (with_debug (fun _ : unit => NilConfig) hooks) 1 1 in
  in_Subscriptions (sv_Info (readStore reliable_env (chain [None]) (s, (tt, quiet_hook))).2.1) = 0 /\
  in_Subscriptions (sv_Info (readStore reliable_env (chain [Some HookBase]) (s, (tt, quiet_hook))).2.1) = 2.
Proof. vm_compute. done. Qed.
