(* ===== verification/Ledger.v ===== *)
(** * The access ledger (hooks/auth)

    The rules of the ledger, the decisions on connections and topics, the
    ledger as a JSON document, and the two auth hooks. The yaml library, which
    reads a ledger that does not start with a brace, is a parameter. *)
From S2P Require Import Prelude Codes Effects Codec FixedHeader Properties Packets Topics TopicsFacts System Clients Json JsonCodec Storage HookChain Stores.

(** ** Rules (ledger.go) *)

Definition Deny : Z := 0.
Definition ReadOnly : Z := 1.
Definition WriteOnly : Z := 2.
Definition ReadWrite : Z := 3.

Notation RString := gostr (only parsing).
Definition Filters : Type := gmap RString Z.

Record UserRule := mkUserRule {
  ur_Username : RString;
  ur_Password : RString;
  ur_ACL : Filters;
  ur_Disallow : bool;
}.
Definition Users : Type := gmap gostr UserRule.

Record AuthRule := mkAuthRule {
  ar_Client : RString;
  ar_Username : RString;
  ar_Remote : RString;
  ar_Password : RString;
  ar_Allow : bool;
}.

Record ACLRule := mkACLRule {
  al_Client : RString;
  al_Username : RString;
  al_Remote : RString;
  al_Filters : Filters;
}.

(** [None] is a [nil] map or slice. *)
Record Ledger := mkLedger {
  le_Users : option Users;
  le_Auth : option (list AuthRule);
  le_ACL : option (list ACLRule);
}.

Definition asterisk : Z := 42.

Definition RString_Matches (r : RString) (a : gostr) : bool :=
  if str_eqb r [] || str_eqb r [asterisk] || str_eqb a r then true
  else match index_byte asterisk r with
    | Some i => (0 <? i)%nat && (i <? length a)%nat && str_eqb (take i r) (take i a)
    | None => false
    end.

(** [for i := 0; i < len(filterParts); i++] *)
Fixpoint match_parts (filterParts topicParts elements : list gostr) : list gostr * bool :=
  match filterParts with
  | [] => (elements, true)
  | f :: filterParts =>
      match topicParts with
      | [] => (elements, false)
      | t :: ts =>
          if str_eqb f plus then match_parts filterParts ts (elements ++ [t])
          else if str_eqb f hash then (elements ++ [join (t :: ts)], true)
          else if negb (str_eqb f t) then (elements, false)
          else match_parts filterParts ts elements
      end
  end.
Definition MatchTopic (filter topic : gostr) : list gostr * bool := match_parts (levels filter) (levels topic) [].

Definition RString_FilterMatches (r : RString) (a : gostr) : bool := (MatchTopic r a).2.

(** ** Decisions: the number of the rule, and whether it allows *)

Definition Ledger_Update (l ln : Ledger) : Ledger := l <| le_Auth := le_Auth ln |> <| le_ACL := le_ACL ln |>.

Definition auth_applies (cl : Client) (pk : Packet) (rule : AuthRule) : bool :=
  RString_Matches (ar_Client rule) (cl_ID cl) &&
  RString_Matches (ar_Username rule) (cp_ClientUsername (cl_Properties cl)) &&
  RString_Matches (ar_Password rule) (cp_Password (pk_Connect pk)) &&
  RString_Matches (ar_Remote rule) (net_Remote (cl_Net cl)).

Fixpoint auth_rules (cl : Client) (pk : Packet) (n : Z) (rules : list AuthRule) : Z * bool :=
  match rules with
  | [] => (0, false)
  | rule :: rules => if auth_applies cl pk rule then (n, ar_Allow rule) else auth_rules cl pk (n + 1) rules
  end.

Definition AuthOk (l : Ledger) (cl : Client) (pk : Packet) : Z * bool :=
  match users ← le_Users l; u ← users !! cp_ClientUsername (cl_Properties cl);
        if nonempty (ur_Password u) && str_eqb (ur_Password u) (cp_Password (pk_Connect pk)) then Some u else None with
  | Some u => (0, negb (ur_Disallow u))
  | None => auth_rules cl pk 0 (default [] (le_Auth l))
  end.

Section ACL.
Context {RO : RangeOrder}.

Definition acl_applies (cl : Client) (rule : ACLRule) : bool :=
  RString_Matches (al_Client rule) (cl_ID cl) &&
  RString_Matches (al_Username rule) (cp_ClientUsername (cl_Properties cl)) &&
  RString_Matches (al_Remote rule) (net_Remote (cl_Net cl)).

(** The loop over the filters of a user: the first one that matches decides. *)
Fixpoint user_filters (topic : gostr) (write : bool) (filters : list (RString * Z)) : option bool :=
  match filters with
  | [] => None
  | (filter, access) :: filters =>
      if RString_FilterMatches filter topic then
        if negb write && ((access =? ReadOnly) || (access =? ReadWrite)) then Some true
        else if write && ((access =? WriteOnly) || (access =? ReadWrite)) then Some true
        else Some false
      else user_filters topic write filters
  end.

(** The two loops over the filters of a rule that return [true]. *)
Definition rule_grants (topic : gostr) (write : bool) (filters : Filters) : bool :=
  existsb (fun fa => ((fa.2 =? (if write then WriteOnly else ReadOnly)) || (fa.2 =? ReadWrite)) && RString_FilterMatches fa.1 topic)
    (range filters).

Fixpoint acl_rules (cl : Client) (topic : gostr) (write : bool) (n : Z) (rules : list ACLRule) : Z * bool :=
  match rules with
  | [] => (0, true)
  | rule :: rules =>
      if acl_applies cl rule then
        if bool_decide (size (al_Filters rule) = 0%nat) then (n, true)
        else if rule_grants topic write (al_Filters rule) then (n, true)
        else if existsb (fun fa => RString_FilterMatches fa.1 topic) (range (al_Filters rule)) then (n, false)
        else acl_rules cl topic write (n + 1) rules
      else acl_rules cl topic write (n + 1) rules
  end.

Definition ACLOk (l : Ledger) (cl : Client) (topic : gostr) (write : bool) : Z * bool :=
  match users ← le_Users l; u ← users !! cp_ClientUsername (cl_Properties cl);
        if bool_decide (size (ur_ACL u) = 0%nat) then None else user_filters topic write (range (ur_ACL u)) with
  | Some ok => (0, ok)
  | None => acl_rules cl topic write 0 (default [] (le_ACL l))
  end.
End ACL.

(** ** The ledger as a document *)

Import FieldNotations.

Definition UserRule_fields : list (Field UserRule) := [
  field ur_Username as !"username" omitempty with string_codec;
  field ur_Password as !"password" omitempty with string_codec;
  field ur_ACL as !"acl" omitempty with (map_codec byte_codec);
  field ur_Disallow as !"disallow" omitempty with bool_codec ].
Definition UserRule0 : UserRule := mkUserRule [] [] ∅ false.

Definition AuthRule_fields : list (Field AuthRule) := [
  field ar_Client as !"client" omitempty with string_codec;
  field ar_Username as !"username" omitempty with string_codec;
  field ar_Remote as !"remote" omitempty with string_codec;
  field ar_Password as !"password" omitempty with string_codec;
  field ar_Allow as !"allow" omitempty with bool_codec ].
Definition AuthRule0 : AuthRule := mkAuthRule [] [] [] [] false.

Definition ACLRule_fields : list (Field ACLRule) := [
  field al_Client as !"client" omitempty with string_codec;
  field al_Username as !"username" omitempty with string_codec;
  field al_Remote as !"remote" omitempty with string_codec;
  field al_Filters as !"filters" omitempty with (map_codec byte_codec) ].
Definition ACLRule0 : ACLRule := mkACLRule [] [] [] ∅.

Definition Ledger_fields : list (Field Ledger) := [
  field le_Users as !"users" with (nil_map_codec (struct_codec UserRule_fields UserRule0));
  field le_Auth as !"auth" with (nil_slice_codec (struct_codec AuthRule_fields AuthRule0));
  field le_ACL as !"acl" with (nil_slice_codec (struct_codec ACLRule_fields ACLRule0)) ].
Definition Ledger0 : Ledger := mkLedger None None None.
Definition Ledger_codec : Codec Ledger := struct_codec Ledger_fields Ledger0.

Definition Ledger_ToJSON (l : Ledger) : bytes := json_print (c_enc Ledger_codec l).

Section Hook.
Context (yaml_Unmarshal : bytes -> Ledger -> Ledger * option error).

Definition Ledger_Unmarshal (data : bytes) (l : Ledger) : Ledger * option error :=
  match data with
  | [] => (l, None)
  | c :: _ =>
      if c =? 123 then
        match json_parse data with
        | None => (l, Some EJSON)
        | Some j => let '(l, err) := c_dec Ledger_codec j l in (l, if err then Some EJSON else None)
        end
      else yaml_Unmarshal data l
  end.

(** ** The hook (auth.go) *)

Record auth_Options := mkAuthOptions {
  ao_Data : bytes;
  ao_Ledger : option Ledger;
}.
Definition auth_Options0 : auth_Options := mkAuthOptions [] None.

Record AuthHook := mkAuthHook {
  ah_config : option auth_Options;
  ah_ledger : option Ledger;
}.

Definition auth_Provides (b : Z) : bool := existsb (Z.eqb b) [code_OnConnectAuthenticate; code_OnACLCheck].

Definition auth_Init (config : Config auth_Options) : GoM AuthHook unit := fun h =>
  match config with
  | OtherConfig => (Err EInvalidConfigType, h)
  | NilConfig | GivenConfig _ =>
      let o := match config with GivenConfig o => o | _ => auth_Options0 end in
      let h := h <| ah_config := Some o |> in
      let '(h, err) := match ao_Ledger o with
        | Some l => (h <| ah_ledger := Some l |>, None)
        | None =>
            if nonempty (ao_Data o)
            then let '(l, err) := Ledger_Unmarshal (ao_Data o) Ledger0 in (h <| ah_ledger := Some l |>, err)
            else (h, None)
        end in
      match err with
      | Some err => (Err err, h)
      | None =>
          (Ok tt, match ah_ledger h with
            | Some _ => h
            | None => h <| ah_ledger := Some (mkLedger None (Some []) (Some [])) |>
            end)
      end
  end.

Context {RO : RangeOrder}.

(** A method on a [nil] ledger panics. *)
Definition with_ledger {A} (f : Ledger -> A) : GoM AuthHook A := fun h =>
  match ah_ledger h with Some l => (Ok (f l), h) | None => (Panic, h) end.

Definition auth_OnConnectAuthenticate (cl : Client) (pk : Packet) : GoM AuthHook bool :=
  with_ledger (fun l => (AuthOk l cl pk).2).
Definition auth_OnACLCheck (cl : Client) (topic : gostr) (write : bool) : GoM AuthHook bool :=
  with_ledger (fun l => (ACLOk l cl topic write).2).

Definition auth_hook : HookChain.Hook AuthHook (Config auth_Options) := HookBase
  <| h_ID := !"auth-ledger" |>
  <| h_Provides := auth_Provides |>
  <| h_Init := auth_Init |>
  <| h_OnConnectAuthenticate := auth_OnConnectAuthenticate |>
  <| h_OnACLCheck := auth_OnACLCheck |>.
End Hook.

(** ** The hook that allows everything (allow_all.go) *)

Definition allow_Provides (b : Z) : bool := existsb (Z.eqb b) [code_OnConnectAuthenticate; code_OnACLCheck].
Definition allow_OnConnectAuthenticate {W} (cl : Client) (pk : Packet) : GoM W bool := mret true.
Definition allow_OnACLCheck {W} (cl : Client) (topic : gostr) (write : bool) : GoM W bool := mret true.

Definition allow_hook {W C} : HookChain.Hook W C := HookBase
  <| h_ID := !"allow-all-auth" |>
  <| h_Provides := allow_Provides |>
  <| h_OnConnectAuthenticate := allow_OnConnectAuthenticate |>
  <| h_OnACLCheck := allow_OnACLCheck |>.
