(* ===== verification/LedgerFacts.v ===== *)
(** * What the access ledger decides

    The matching of rules against topics, the decision of a ledger as a relation
    that names the rule it follows from, the decisions of a server whose hook is
    the ledger, and the round trip of a ledger through its JSON text. *)
From S2P Require Import Prelude Codes Effects Codec FixedHeader Properties Packets Topics TopicsFacts TopicsMatch System Clients Json JsonCodec Storage HookChain HookFacts Stores Ledger.

(** ** Topics *)

(** What is behind a multi-level wildcard is not looked at. *)
Fixpoint upto_hash (fs : list gostr) : list gostr :=
  match fs with
  | [] => []
  | f :: fs => if str_eqb f hash then [f] else f :: upto_hash fs
  end.

(** The levels of a filter with its wildcards replaced. *)
Fixpoint fill (fs elements : list gostr) : list gostr :=
  match fs with
  | [] => []
  | f :: fs =>
      if str_eqb f plus then match elements with e :: es => e :: fill fs es | [] => [] end
      else if str_eqb f hash then take 1 elements
      else f :: fill fs elements
  end.

(** [p] are the levels of a topic that the filter [fs] matches. *)
Definition covers (fs p : list gostr) : Prop :=
  matches (upto_hash fs) p = true /\ (length (upto_hash fs) <= length p)%nat.

Lemma covers_nil fs : covers fs [] <-> fs = [].
Proof.
  split; [|by intros ->]. destruct fs as [|f fs]; [done|]. intros [_ H]. cbn [upto_hash] in H. destruct (str_eqb f hash); cbn in H; lia.
Qed.

Lemma covers_cons f fs t p :
  f <> hash -> covers (f :: fs) (t :: p) <-> (f = plus \/ f = t) /\ covers fs p.
Proof.
  intros Hf. unfold covers. cbn [upto_hash]. rewrite (bool_decide_eq_false_2 _ Hf : str_eqb f hash = false). cbn [matches length].
  rewrite (bool_decide_eq_false_2 _ Hf : str_eqb f hash = false). cbn [andb].
  unfold str_eqb. rewrite andb_true_iff, orb_true_iff, !bool_decide_eq_true. split; [intros [[? ?] ?]|intros [? [? ?]]]; split_and!; try done; lia.
Qed.

Lemma covers_hash fs p : covers (hash :: fs) p <-> p <> [].
Proof.
  unfold covers. change (upto_hash (hash :: fs)) with [hash]. change (matches [hash] p) with true.
  destruct p as [|t p]; cbn [length]; (split; [intros [_ ?]|intros ?]); try done; lia.
Qed.

Lemma plus_not_hash : plus <> hash.
Proof. done. Qed.

Lemma match_parts_spec fs ts els :
  (match_parts fs ts els).2 = true <-> exists p rest, ts = p ++ rest /\ covers fs p.
Proof.
  revert ts els. induction fs as [|f fs IH]; intros ts els.
  { cbn. split; [|done]. intros _. exists [], ts. by rewrite covers_nil. }
  destruct ts as [|t ts].
  { cbn. split; [done|]. intros (p & rest & E & Hc). symmetry in E. apply app_eq_nil in E as [-> ->]. by apply covers_nil in Hc. }
  cbn [match_parts]. destruct (decide (f = hash)) as [->|Hh].
  { cbn. split; [|done]. intros _. exists (t :: ts), []. by rewrite app_nil_r, covers_hash. }
  assert (Hstep : (exists p rest, t :: ts = p ++ rest /\ covers (f :: fs) p) <->
    (f = plus \/ f = t) /\ exists p rest, ts = p ++ rest /\ covers fs p).
  { split.
    - intros ([|t' p] & rest & E & Hc); [by apply covers_nil in Hc|]. injection E as <- ->. apply covers_cons in Hc as [? ?]; [|done]. eauto.
    - intros (Hf & p & rest & -> & Hc). exists (t :: p), rest. split; [done|]. by apply covers_cons. }
  rewrite Hstep. unfold str_eqb. destruct (decide (f = plus)) as [->|Hp].
  { rewrite bool_decide_eq_true_2 by done. rewrite IH. split; [by split; [left|]|by intros [_ ?]]. }
  rewrite !(bool_decide_eq_false_2 (f = _)) by done. case_bool_decide as Ht; cbn [negb].
  - rewrite IH. split; [by split; [right|]|by intros [_ ?]].
  - split; [done|]. by intros [[?|?] _].
Qed.

Lemma join_cons2 t ts : ts <> [] -> join (t :: ts) = t ++ [slash] ++ join ts.
Proof. by destruct ts. Qed.

(** The elements fill the wildcards with the levels that were matched. *)
Lemma match_parts_fill fs ts els :
  (match_parts fs ts els).2 = true -> exists es p rest, (match_parts fs ts els).1 = els ++ es /\
    ts = p ++ rest /\ covers fs p /\ join (fill fs es) = join p /\ (fs <> [] -> fill fs es <> []).
Proof.
  revert ts els. induction fs as [|f fs IH]; intros ts els.
  { intros _. exists [], [], ts. by rewrite app_nil_r, covers_nil. }
  destruct ts as [|t ts]; [done|]. cbn [match_parts]. destruct (decide (f = hash)) as [->|Hh].
  { intros _. exists [join (t :: ts)], (t :: ts), []. cbn. rewrite app_nil_r. split_and!; try done. by apply covers_hash. }
  unfold str_eqb. destruct (decide (f = plus)) as [->|Hp].
  - rewrite bool_decide_eq_true_2 by done. intros (es & p & rest & E & -> & Hc & Hj & Hne)%IH.
    exists (t :: es), (t :: p), rest. rewrite E, <- app_assoc. split_and!; [done..|apply covers_cons; auto| |done].
    change (fill (plus :: fs) (t :: es)) with (t :: fill fs es). destruct fs as [|f2 fs].
    + destruct Hc as [Hc _]. by destruct p.
    + specialize (Hne ltac:(done)). assert (p <> []) by (intros ->; by apply covers_nil in Hc).
      by rewrite !join_cons2, Hj.
  - rewrite !(bool_decide_eq_false_2 (f = _)) by done. case_bool_decide as Ht; cbn [negb]; [subst f|done].
    intros (es & p & rest & E & -> & Hc & Hj & Hne)%IH. exists es, (t :: p), rest. split_and!; [done..|apply covers_cons; auto| |].
    + cbn [fill]. unfold str_eqb. rewrite !(bool_decide_eq_false_2 (t = _)) by done. destruct fs as [|f2 fs].
      * destruct Hc as [Hc _]. by destruct p.
      * specialize (Hne ltac:(done)). assert (p <> []) by (intros ->; by apply covers_nil in Hc).
        by rewrite !join_cons2, Hj.
    + intros _. cbn [fill]. unfold str_eqb. by rewrite !(bool_decide_eq_false_2 (t = _)) by done.
Qed.

(** A rule of the ledger matches a topic exactly when its levels, up to a
    multi-level wildcard, match the leading levels of the topic by the rules of
    MQTT 4.7, where the wildcard stands for at least one level; the topic may
    go on behind a filter without one. The elements returned with a match
    replace the wildcards of the filter to give the matched levels. *)
Theorem MatchTopic_exact filter topic :
  ((MatchTopic filter topic).2 = true <-> exists p rest, levels topic = p ++ rest /\ covers (levels filter) p) /\
  ((MatchTopic filter topic).2 = true -> exists p rest, levels topic = p ++ rest /\ covers (levels filter) p /\
     join (fill (levels filter) (MatchTopic filter topic).1) = join p).
Proof.
  unfold MatchTopic. split; [apply match_parts_spec|].
  intros (es & p & rest & E & Ht & Hc & Hj & _)%match_parts_fill. rewrite E. by exists p, rest.
Qed.

(** A filter without a wildcard gives access to every topic below it. *)
Lemma MatchTopic_longer : MatchTopic !"a/b" !"a/b/c" = ([], true).
Proof. reflexivity. Qed.

(** ** Decisions *)

Section Decisions.
Context (l : Ledger) (cl : Client).
Let name : gostr := cp_ClientUsername (cl_Properties cl).

(** The entry of the users of the ledger that the client connects as. *)
Definition user_entry (u : UserRule) : Prop := exists users, le_Users l = Some users /\ users !! name = Some u.

Definition known_user (pk : Packet) (u : UserRule) : Prop :=
  user_entry u /\ ur_Password u <> [] /\ ur_Password u = cp_Password (pk_Connect pk).

(** The decision on a connection, by the user, by the first rule that applies, or by default. *)
Inductive auth_verdict (pk : Packet) : bool -> Prop :=
| auth_by_user u : known_user pk u -> auth_verdict pk (negb (ur_Disallow u))
| auth_by_rule pre rule post :
    (forall u, ~ known_user pk u) -> default [] (le_Auth l) = pre ++ rule :: post ->
    Forall (fun r => auth_applies cl pk r = false) pre -> auth_applies cl pk rule = true -> auth_verdict pk (ar_Allow rule)
| auth_by_default :
    (forall u, ~ known_user pk u) -> Forall (fun r => auth_applies cl pk r = false) (default [] (le_Auth l)) -> auth_verdict pk false.

Context (topic : gostr) (write : bool).

Definition grants (access : Z) : bool := (access =? ReadWrite) || (access =? if write then WriteOnly else ReadOnly).

(** A filter of the user that matches the topic, and its access. *)
Definition user_filter (f : gostr) (access : Z) : Prop :=
  exists u, user_entry u /\ ur_ACL u !! f = Some access /\ RString_FilterMatches f topic = true.

Definition rule_matches (rule : ACLRule) : Prop :=
  exists f access, al_Filters rule !! f = Some access /\ RString_FilterMatches f topic = true.
Definition rule_decides (rule : ACLRule) : Prop :=
  acl_applies cl rule = true /\ (al_Filters rule = ∅ \/ rule_matches rule).
Definition rule_allows (rule : ACLRule) : Prop :=
  al_Filters rule = ∅ \/ exists f access, al_Filters rule !! f = Some access /\ RString_FilterMatches f topic = true /\ grants access = true.

(** The decision on a topic. *)
Inductive acl_verdict : bool -> Prop :=
| acl_by_user f access : user_filter f access -> acl_verdict (grants access)
| acl_by_rule pre rule post b :
    (forall f access, ~ user_filter f access) -> default [] (le_ACL l) = pre ++ rule :: post ->
    Forall (fun r => ~ rule_decides r) pre -> rule_decides rule -> (b = true <-> rule_allows rule) -> acl_verdict b
| acl_by_default :
    (forall f access, ~ user_filter f access) -> Forall (fun r => ~ rule_decides r) (default [] (le_ACL l)) -> acl_verdict true.
End Decisions.

(** The first of a list that satisfies [P] is unique. *)
Lemma first_unique {A} (P : A -> Prop) pre pre' x x' post post' :
  pre ++ x :: post = pre' ++ x' :: post' -> Forall (fun a => ~ P a) pre -> Forall (fun a => ~ P a) pre' -> P x -> P x' -> x = x'.
Proof.
  intros E Hpre. revert pre' E. induction Hpre as [|a pre Ha _ IH]; intros pre' E Hpre' Hx Hx'.
  - destruct Hpre' as [|a' pre' Ha' _]; [by injection E|]. by injection E as <- _.
  - destruct Hpre' as [|a' pre' Ha' Hpre']; [by injection E as -> _|]. injection E as _ E. by eapply IH.
Qed.

Lemma first_none {A} (P : A -> Prop) l pre x post : Forall (fun a => ~ P a) l -> l = pre ++ x :: post -> P x -> False.
Proof. intros Hl ->. apply Forall_app in Hl as [_ Hl]. by apply Forall_cons in Hl as [Hx _]. Qed.

Section Exact.
Context (l : Ledger) (cl : Client).

Lemma auth_rules_spec pk n rules :
  (exists pre rule post, rules = pre ++ rule :: post /\ Forall (fun r => auth_applies cl pk r = false) pre /\
     auth_applies cl pk rule = true /\ (auth_rules cl pk n rules).2 = ar_Allow rule) \/
  (Forall (fun r => auth_applies cl pk r = false) rules /\ (auth_rules cl pk n rules).2 = false).
Proof.
  revert n. induction rules as [|r rules IH]; intros n; [by right|]. cbn [auth_rules].
  destruct (auth_applies cl pk r) eqn:E; [left; by exists [], r, rules|].
  destruct (IH (n + 1)) as [(pre & rule & post & -> & Hp & Hr & Ha)|[Hp Ha]].
  - left. exists (r :: pre), rule, post. split_and!; auto.
  - right. auto.
Qed.

Lemma AuthOk_cases pk :
  (exists u, known_user l cl pk u /\ AuthOk l cl pk = (0, negb (ur_Disallow u))) \/
  ((forall u, ~ known_user l cl pk u) /\ AuthOk l cl pk = auth_rules cl pk 0 (default [] (le_Auth l))).
Proof.
  unfold AuthOk, known_user, user_entry. destruct (le_Users l) as [users|]; cbn [mbind option_bind]; [|right; split; [by intros u [(? & ? & _) _]|done]].
  destruct (users !! _) as [u|] eqn:Eu; cbn [mbind option_bind]; [|right; split; [|done]; intros u [(? & [= <-] & ?) _]; congruence].
  unfold str_eqb. destruct (ur_Password u) as [|c p] eqn:Ep; cbn [nonempty andb].
  - right. split; [|done]. intros u' [(? & [= <-] & Hu') [Hne _]]. congruence.
  - case_bool_decide as E.
    + left. exists u. split; [|done]. split; [by eauto|]. by rewrite Ep.
    + right. split; [|done]. intros u' [(? & [= <-] & Hu') [_ Hp]]. assert (u' = u) as -> by congruence. congruence.
Qed.

Lemma known_user_unique pk u u' : known_user l cl pk u -> known_user l cl pk u' -> u = u'.
Proof. intros [(us & E & H) _] [(us' & E' & H') _]. congruence. Qed.

Lemma AuthOk_verdict pk b : auth_verdict l cl pk b <-> (AuthOk l cl pk).2 = b.
Proof.
  split.
  - intros [u Hu|pre rule post Hno E Hpre Hr|Hno Hall]; destruct (AuthOk_cases pk) as [(u' & Hu' & ->)|[Hno' ->]];
      try (by destruct (Hno u')); try (by destruct (Hno' u)).
    + by rewrite (known_user_unique pk u u' Hu Hu').
    + assert (Hne : forall r, auth_applies cl pk r = false -> ~ auth_applies cl pk r = true) by (intros r ->; done).
      destruct (auth_rules_spec pk 0 (default [] (le_Auth l))) as [(pre' & rule' & post' & E' & Hp' & Hr' & ->)|[Hp' _]].
      * rewrite E in E'. f_equal. symmetry. eapply (first_unique (fun r => auth_applies cl pk r = true)); try done; (eapply Forall_impl; [done|]); auto.
      * exfalso. eapply (first_none (fun r => auth_applies cl pk r = true)); [|exact E|done]. eapply Forall_impl; [exact Hp'|]. auto.
    + destruct (auth_rules_spec pk 0 (default [] (le_Auth l))) as [(pre' & rule' & post' & E' & Hp' & Hr' & _)|[_ ->]]; [|done].
      rewrite E' in Hall. apply Forall_app in Hall as [_ Hall]. apply Forall_cons in Hall as [Hc _]. congruence.
  - intros <-. destruct (AuthOk_cases pk) as [(u' & Hu' & ->)|[Hno' ->]]; [by apply auth_by_user|].
    destruct (auth_rules_spec pk 0 (default [] (le_Auth l))) as [(pre & rule & post & E & Hp & Hr & ->)|[Hp ->]].
    + by eapply auth_by_rule.
    + by apply auth_by_default.
Qed.
End Exact.

Section ACLExact.
Context {RO : RangeOrder} (l : Ledger) (cl : Client) (topic : gostr) (write : bool).

Lemma user_filters_spec fs :
  match user_filters topic write fs with
  | Some ok => exists f a, (f, a) ∈ fs /\ RString_FilterMatches f topic = true /\ ok = grants write a
  | None => forall f a, (f, a) ∈ fs -> RString_FilterMatches f topic = false
  end.
Proof.
  induction fs as [|[f a] fs IH]; [by intros f a Hf%elem_of_nil|]. cbn [user_filters]. destruct (RString_FilterMatches f topic) eqn:E.
  - assert (forall ok, ok = grants write a -> exists f' a', (f', a') ∈ (f, a) :: fs /\ RString_FilterMatches f' topic = true /\ ok = grants write a')
      as Hd by (intros ok ->; exists f, a; split_and!; [left|done|done]).
    unfold grants in *. destruct write, (a =? ReadOnly), (a =? WriteOnly), (a =? ReadWrite); by apply Hd.
  - destruct (user_filters topic write fs) as [ok|].
    + destruct IH as (f' & a' & Hin & ?). exists f', a'. split; [by right|done].
    + intros f' a' [[= -> ->]|Hin]%elem_of_cons; [done|]. by apply (IH f' a').
Qed.

Lemma ACLOk_cases :
  (exists f a, user_filter l cl topic f a /\ ACLOk l cl topic write = (0, grants write a)) \/
  ((forall f a, ~ user_filter l cl topic f a) /\ ACLOk l cl topic write = acl_rules cl topic write 0 (default [] (le_ACL l))).
Proof.
  unfold ACLOk, user_filter, user_entry. destruct (le_Users l) as [users|]; cbn [mbind option_bind];
    [|right; split; [by intros f a (u & (? & ? & _) & _)|done]].
  destruct (users !! _) as [u|] eqn:Eu; cbn [mbind option_bind]; [|right; split; [|done]; intros f a (u & (? & [= <-] & ?) & _); congruence].
  assert (Hu : forall f a, ~ (ur_ACL u !! f = Some a /\ RString_FilterMatches f topic = true) ->
    ~ exists u0, (exists users0, Some users = Some users0 /\ users0 !! cp_ClientUsername (cl_Properties cl) = Some u0) /\
        ur_ACL u0 !! f = Some a /\ RString_FilterMatches f topic = true).
  { intros f a Hn (u' & (? & [= <-] & Hu') & Hf). apply Hn. congruence. }
  case_bool_decide as Es.
  - right. split; [|done]. intros f a. apply Hu. apply map_size_empty_iff in Es. rewrite Es. intros [Hf _].
    change ((∅ : gmap gostr Z) !! f = Some a) in Hf. by rewrite lookup_empty in Hf.
  - pose proof (user_filters_spec (range (ur_ACL u))) as Hf. destruct (user_filters _ _ _) as [ok|].
    + left. destruct Hf as (f & a & Hin%elem_of_range & Hm & ->). exists f, a. split; [|done]. exists u. eauto.
    + right. split; [|done]. intros f a. apply Hu. intros [Hin%elem_of_range Hm]. by rewrite (Hf f a Hin) in Hm.
Qed.

Lemma rule_grants_spec fs :
  rule_grants topic write fs = true <-> exists f a, fs !! f = Some a /\ RString_FilterMatches f topic = true /\ grants write a = true.
Proof.
  unfold rule_grants, grants. rewrite existsb_exists. setoid_rewrite <- list_elem_of_In. split.
  - intros ([f a] & Hin%elem_of_range & [Hg Hm]%andb_true_iff). exists f, a. split_and!; [done..|]. by rewrite orb_comm.
  - intros (f & a & Hin%elem_of_range & Hm & Hg). exists (f, a). split; [done|]. cbn. by rewrite orb_comm, Hg, Hm.
Qed.

Lemma rule_matches_spec rule :
  existsb (fun fa => RString_FilterMatches fa.1 topic) (range (al_Filters rule)) = true <-> rule_matches topic rule.
Proof.
  unfold rule_matches. rewrite existsb_exists. setoid_rewrite <- list_elem_of_In. split.
  - intros ([f a] & Hin%elem_of_range & Hm). by exists f, a.
  - intros (f & a & Hin%elem_of_range & Hm). by exists (f, a).
Qed.

Lemma acl_rules_spec n rules :
  (exists pre rule post, rules = pre ++ rule :: post /\ Forall (fun r => ~ rule_decides cl topic r) pre /\
     rule_decides cl topic rule /\ ((acl_rules cl topic write n rules).2 = true <-> rule_allows topic write rule)) \/
  (Forall (fun r => ~ rule_decides cl topic r) rules /\ (acl_rules cl topic write n rules).2 = true).
Proof.
  revert n. induction rules as [|r rules IH]; intros n; [by right|]. cbn [acl_rules].
  assert (Hnext : ~ rule_decides cl topic r -> (exists pre rule post, r :: rules = pre ++ rule :: post /\ Forall (fun r => ~ rule_decides cl topic r) pre /\
     rule_decides cl topic rule /\ ((acl_rules cl topic write (n + 1) rules).2 = true <-> rule_allows topic write rule)) \/
    (Forall (fun r => ~ rule_decides cl topic r) (r :: rules) /\ (acl_rules cl topic write (n + 1) rules).2 = true)).
  { intros Hr. destruct (IH (n + 1)) as [(pre & rule & post & -> & Hp & ?)|[Hp Ha]].
    - left. exists (r :: pre), rule, post. split_and!; auto; apply H.
    - right. auto. }
  destruct (acl_applies cl r) eqn:Ea; [|by apply Hnext; intros [? _]; congruence].
  case_bool_decide as Es.
  { apply map_size_empty_iff in Es. left. exists [], r, rules. split_and!; auto; [by split; [|left]|]. split; [by left|done]. }
  assert (Hne : al_Filters r <> ∅) by (intros E; apply Es; rewrite E; apply map_size_empty).
  destruct (rule_grants topic write (al_Filters r)) eqn:Eg.
  { pose proof (proj1 (rule_grants_spec _) Eg) as (f & a & Hf & Hm & Hg). left. exists [], r, rules. split_and!; auto.
    - split; [done|]. right. by exists f, a.
    - split; [|done]. intros _. right. by exists f, a. }
  destruct (existsb _ _) eqn:Em.
  - apply rule_matches_spec in Em. left. exists [], r, rules. split_and!; auto; [by split; [|right]|]. split; [done|].
    intros [?|Hg]; [done|]. apply rule_grants_spec in Hg. congruence.
  - apply Hnext. intros [_ [?|Hm]]; [done|]. apply rule_matches_spec in Hm. congruence.
Qed.

Lemma ACLOk_verdict : acl_verdict l cl topic write (ACLOk l cl topic write).2.
Proof.
  destruct ACLOk_cases as [(f & a & Hf & ->)|[Hno ->]]; [by eapply acl_by_user|].
  destruct (acl_rules_spec 0 (default [] (le_ACL l))) as [(pre & rule & post & E & Hp & Hr & Ha)|[Hp ->]].
  - by eapply acl_by_rule.
  - by apply acl_by_default.
Qed.

(** The matching filters of the user agree. *)
Definition filters_agree : Prop :=
  forall f a f' a', user_filter l cl topic f a -> user_filter l cl topic f' a' -> grants write a = grants write a'.

Lemma acl_verdict_unique b b' : filters_agree -> acl_verdict l cl topic write b -> acl_verdict l cl topic write b' -> b = b'.
Proof.
  intros Hag [f a Hf|pre r post b1 Hno E Hp Hr Hb|Hno Hp] [f' a' Hf'|pre' r' post' b2 Hno' E' Hp' Hr' Hb'|Hno' Hp'];
    try (by destruct (Hno' f a)); try (by destruct (Hno f' a')).
  - by eapply Hag.
  - assert (r = r') as <- by (rewrite E in E'; by eapply (first_unique (rule_decides cl topic))).
    apply eq_true_iff_eq. by rewrite Hb, Hb'.
  - destruct (first_none _ _ _ _ _ Hp' E Hr).
  - destruct (first_none _ _ _ _ _ Hp E' Hr').
  - done.
Qed.
End ACLExact.

(** ** The ledger as the hook of a server *)

Section LedgerHook.
Context {RO : RangeOrder} (yaml_Unmarshal : bytes -> Ledger -> Ledger * option error).

Lemma auth_Init_ledger config w0 w : auth_Init yaml_Unmarshal config w0 = (Ok tt, w) -> exists l, ah_ledger w = Some l.
Proof.
  unfold auth_Init. destruct config as [|o|]; [..|done]; cbv zeta;
    destruct (match ao_Ledger _ with Some _ => _ | None => _ end) as [h [err|]]; try done;
    destruct (ah_ledger h) as [l|] eqn:E; intros [= <-]; eauto.
Qed.

(** C29: a server whose hook is an initialised ledger decides as its rules say.
    A connection is decided by the entry of its user, when the password of the
    entry is set and given, else by the first rule that applies, else refused. A
    topic is decided by a filter of the user that matches it, else by the first
    rule that applies to the client and has no filter or one that matches, which
    allows when it has none or a matching one grants the access, else allowed.
    When several filters of a user match and differ, the order in which Go
    ranges over the map chooses; otherwise the decision is the only one. *)
Theorem ledger_decides config w0 w cl pk topic write :
  auth_Init yaml_Unmarshal config w0 = (Ok tt, w) ->
  let hooks := chain_hooks (mkHookSet [auth_hook yaml_Unmarshal] 1 1) w in
  exists l, ah_ledger w = Some l /\
    (forall b, auth_verdict l cl pk b <-> hk_OnConnectAuthenticate hooks cl pk = b) /\
    acl_verdict l cl topic write (hk_OnACLCheck hooks cl topic write) /\
    (filters_agree l cl topic write -> forall b, acl_verdict l cl topic write b -> hk_OnACLCheck hooks cl topic write = b).
Proof.
  intros (l & Hl)%auth_Init_ledger hooks. exists l. split; [done|].
  assert (Ha : hk_OnConnectAuthenticate hooks cl pk = (AuthOk l cl pk).2).
  { unfold hooks. cbn. unfold mbind, GoM_bind, auth_OnConnectAuthenticate, with_ledger. rewrite Hl. by destruct (AuthOk l cl pk).2. }
  assert (Hc : hk_OnACLCheck hooks cl topic write = (ACLOk l cl topic write).2).
  { unfold hooks. cbn. unfold mbind, GoM_bind, auth_OnACLCheck, with_ledger. rewrite Hl. by destruct (ACLOk l cl topic write).2. }
  rewrite Ha, Hc. split_and!; [intros b; apply AuthOk_verdict|apply ACLOk_verdict|].
  intros Hag b Hb. eapply acl_verdict_unique; [exact Hag|apply ACLOk_verdict|exact Hb].
Qed.

(** ** The ledger as a document *)

Definition filters_storable (fs : Filters) : Prop := map_Forall (fun f a => utf8 f /\ is_u8 a) fs.
Definition user_rule_storable (u : UserRule) : Prop :=
  utf8 (ur_Username u) /\ utf8 (ur_Password u) /\ filters_storable (ur_ACL u).
Definition auth_rule_storable (r : AuthRule) : Prop :=
  utf8 (ar_Client r) /\ utf8 (ar_Username r) /\ utf8 (ar_Remote r) /\ utf8 (ar_Password r).
Definition acl_rule_storable (r : ACLRule) : Prop :=
  utf8 (al_Client r) /\ utf8 (al_Username r) /\ utf8 (al_Remote r) /\ filters_storable (al_Filters r).

(** Bytes for the accesses and UTF-8 for the strings. *)
Definition ledger_storable (l : Ledger) : Prop :=
  map_Forall (fun name u => utf8 name /\ user_rule_storable u) (default ∅ (le_Users l)) /\
  Forall auth_rule_storable (default [] (le_Auth l)) /\ Forall acl_rule_storable (default [] (le_ACL l)).

Lemma filters_codec_ok fs : filters_storable fs -> storable (map_codec byte_codec) fs.
Proof. intros H. apply map_storable. intros f a Hf. destruct (H f a Hf). auto using byte_storable. Qed.
#[local] Hint Resolve filters_codec_ok : json.

Lemma user_rule_codec_ok u : user_rule_storable u -> storable (struct_codec UserRule_fields UserRule0) u.
Proof. intros (? & ? & ?). struct_roundtrip. Qed.
Lemma auth_rule_codec_ok r : auth_rule_storable r -> storable (struct_codec AuthRule_fields AuthRule0) r.
Proof. intros (? & ? & ? & ?). struct_roundtrip. Qed.
Lemma acl_rule_codec_ok r : acl_rule_storable r -> storable (struct_codec ACLRule_fields ACLRule0) r.
Proof. intros (? & ? & ? & ?). struct_roundtrip. Qed.

Lemma ledger_codec_ok l : ledger_storable l -> storable Ledger_codec l.
Proof.
  intros (Hu & Ha & Hc).
  assert (storable (nil_map_codec (struct_codec UserRule_fields UserRule0)) (le_Users l)).
  { apply nil_map_storable. destruct (le_Users l) as [us|]; [|done]. intros name u Hin. destruct (Hu name u Hin). auto using user_rule_codec_ok. }
  assert (storable (nil_slice_codec (struct_codec AuthRule_fields AuthRule0)) (le_Auth l)).
  { apply nil_slice_storable. destruct (le_Auth l); [|done]. eapply Forall_impl; [exact Ha|]. apply auth_rule_codec_ok. }
  assert (storable (nil_slice_codec (struct_codec ACLRule_fields ACLRule0)) (le_ACL l)).
  { apply nil_slice_storable. destruct (le_ACL l); [|done]. eapply Forall_impl; [exact Hc|]. apply acl_rule_codec_ok. }
  struct_roundtrip.
Qed.

(** A ledger that is written as JSON text is read back unchanged, whatever
    the yaml library does: users, rules and filters, with [nil] and empty maps
    and slices told apart where the code does. *)
Theorem ledger_roundtrip l :
  ledger_storable l -> Ledger_Unmarshal yaml_Unmarshal (Ledger_ToJSON l) Ledger0 = (l, None).
Proof.
  intros [E _ Ht Hd]%ledger_codec_ok. unfold Ledger_Unmarshal, Ledger_ToJSON.
  assert (Hdepth : (c_depth Ledger_codec <= 100)%nat) by (apply Nat.leb_le; reflexivity).
  assert (Hp : json_parse (json_print (c_enc Ledger_codec l)) = Some (c_enc Ledger_codec l)) by (apply parse_print; [done|unfold maxNestingDepth; lia]).
  assert (exists t, json_print (c_enc Ledger_codec l) = 123 :: t) as (t & Et) by (eexists; reflexivity). rewrite Et in *.
  change (123 =? 123) with true. cbv iota. rewrite Hp. change Ledger0 with (c_zero Ledger_codec). by rewrite E.
Qed.
End LedgerHook.

(** A user with two filters and a rule for everybody from one network. *)
Definition example_ledger : Ledger := mkLedger
  (Some {[ !"zen" := mkUserRule !"zen" !"secret" {[ !"a/#" := ReadWrite; !"b" := ReadOnly ]} false ]})
  (Some [mkAuthRule [] !"guest" [] [] true])
  (Some [mkACLRule [] [] !"10.*" {[ !"open" := ReadWrite ]}]).
Definition no_yaml (data : bytes) (l : Ledger) : Ledger * option error := (l, Some EJSON).
Definition zen : Client := (newClient DefaultOptions None) <| cl_Properties ::= fun p => p <| cp_ClientUsername := !"zen" |> |>.

Lemma ledger_storable_example : ledger_storable example_ledger.
Proof.
  assert (Hf : forall f a, utf8b f = true -> 0 <= a < 256 -> utf8 f /\ is_u8 a) by (intros; split; [by apply utf8b_spec|done]).
  split_and!; cbn [example_ledger le_Users le_Auth le_ACL default id].
  - apply map_Forall_singleton. split; [by apply utf8b_spec|]. split; [by apply utf8b_spec|]. split; [by apply utf8b_spec|].
    unfold filters_storable. cbn [ur_ACL]. refine (map_Forall_insert_2 _ _ _ _ _ _); [by apply Hf|]. refine (proj2 (map_Forall_singleton _ _ _) _). by apply Hf.
  - constructor; [|constructor]. split_and!; by apply utf8b_spec.
  - constructor; [|constructor]. split; [by apply utf8b_spec|]. split; [by apply utf8b_spec|]. split; [by apply utf8b_spec|].
    unfold filters_storable. cbn [al_Filters]. refine (proj2 (map_Forall_singleton _ _ _) _). by apply Hf.
Qed.

Lemma MatchTopic_exact_witness : exists p rest, levels !"a/b/c" = p ++ rest /\ covers (levels !"a/+") p.
Proof. apply (proj1 (MatchTopic_exact !"a/+" !"a/b/c")). reflexivity. Defined.

Lemma ledger_roundtrip_witness : Ledger_Unmarshal no_yaml (Ledger_ToJSON example_ledger) Ledger0 = (example_ledger, None).
Proof. exact (ledger_roundtrip no_yaml example_ledger ledger_storable_example). Defined.

Lemma ledger_decides_witness :
  acl_verdict example_ledger zen !"a/x" true
    (hk_OnACLCheck (chain_hooks (mkHookSet [auth_hook no_yaml] 1 1) (mkAuthHook (Some (mkAuthOptions [] (Some example_ledger))) (Some example_ledger)))
       zen !"a/x" true) /\
  hk_OnACLCheck (chain_hooks (mkHookSet [auth_hook no_yaml] 1 1) (mkAuthHook (Some (mkAuthOptions [] (Some example_ledger))) (Some example_ledger)))
    zen !"a/x" true = true.
Proof.
  split; [|vm_compute; reflexivity].
  destruct (ledger_decides no_yaml (GivenConfig (mkAuthOptions [] (Some example_ledger))) (mkAuthHook None None)
    (mkAuthHook (Some (mkAuthOptions [] (Some example_ledger))) (Some example_ledger)) zen Packet0 !"a/x" true eq_refl) as (l & [= <-] & _ & H & _).
  exact H.
Defined.
