(* ===== verification/Listeners.v ===== *)
(** * Listeners (listeners/)

    The interface of a network listener as a class, the seven listeners of the
    repository as its instances, and the set of listeners of a server. Sockets
    and HTTP servers are those of Go's library: opening one may fail as the
    network decides, closing one ends it. A callback that closes the clients of
    a listener acts on a state of the caller's, so that closing a listener acts
    on the listener and on that state. *)
From S2P Require Import Prelude Codes Effects System.

(** [type Config struct]; a [*tls.Config] is a handle. *)
Record Config := mkConfig {
  cf_Type : gostr;
  cf_ID : gostr;
  cf_Address : gostr;
  cf_TLSConfig : option Z;
}.

(** ** The network *)

(** A [net.Listener] with what its [Addr()] says. *)
Record Socket := mkSocket {
  so_network : gostr;
  so_addr : gostr;
  so_open : bool;
}.

(** [net.Listen] and [tls.Listen]. *)
Record Network := mkNetwork {
  nw_Listen : gostr -> gostr -> option Z -> Socket + error;
}.

Definition Socket_Close (so : Socket) : Socket := so <| so_open := false |>.

(** An [http.Server] with its address and certificates, until it is shut down. *)
Record HTTPServer := mkHTTPServer {
  hs_Addr : gostr;
  hs_TLSConfig : option Z;
  hs_shutdown : bool;
}.
Definition HTTPServer_Shutdown (h : HTTPServer) : HTTPServer := h <| hs_shutdown := true |>.

(** ** The interface *)

(** The listener part of the state, and the caller's part. *)
Definition on_fst {L T A} (m : GoM L A) : GoM (L * T) A := fun lt => let '(r, l) := m lt.1 in (r, (l, lt.2)).
Definition on_snd {L T A} (m : GoM T A) : GoM (L * T) A := fun lt => let '(r, t) := m lt.2 in (r, (lt.1, t)).

Class Listener (L : Type) := {
  li_Init : Network -> GoM L unit;
  li_ID : L -> gostr;
  li_Address : L -> gostr;
  li_Protocol : L -> gostr;
  li_Close : forall {T}, (gostr -> GoM T unit) -> GoM (L * T) unit;
}.

(** A pointer that must not be nil. *)
Definition deref {L A} (o : option A) : GoM L A := match o with Some a => mret a | None => panic end.

(** ** Listeners with an accept loop: TCP, a given [net.Listener], a unix socket *)

(** The fields their loops and their [Close] share. *)
Class Accepting (L : Type) := {
  ac_id : L -> gostr;
  ac_end : L -> bool;
  ac_listen : L -> option Socket;
  ac_set_end : L -> L;
  ac_set_listen : option Socket -> L -> L;
}.

(** [Close]: the clients are closed by the first call only; the socket is closed
    by every call, and its error ignored. *)
Definition accepting_Close {L} `{Accepting L} {T} (closeClients : gostr -> GoM T unit) : GoM (L * T) unit :=
  lt ← get_state;
  when (negb (ac_end lt.1))
    (on_fst (modify ac_set_end);;
     on_snd (closeClients (ac_id lt.1)));;
  on_fst (modify (fun l => ac_set_listen (Socket_Close <$> ac_listen l) l)).

Record TCP := mkTCP {
  tcp_id : gostr;
  tcp_address : gostr;
  tcp_listen : option Socket;
  tcp_config : Config;
  tcp_end : bool;
}.
Definition NewTCP (config : Config) : TCP := mkTCP (cf_ID config) (cf_Address config) None config false.
Definition TCP_ID (l : TCP) : gostr := tcp_id l.
Definition TCP_Address (l : TCP) : gostr := match tcp_listen l with Some so => so_addr so | None => tcp_address l end.
Definition TCP_Protocol (l : TCP) : gostr := !"tcp".
Definition TCP_Init (nw : Network) : GoM TCP unit :=
  l ← get_state;
  match nw_Listen nw !"tcp" (tcp_address l) (cf_TLSConfig (tcp_config l)) with
  | inl so => modify (fun l => l <| tcp_listen := Some so |>)
  | inr err => modify (fun l => l <| tcp_listen := None |>);; throw err
  end.
#[export] Instance TCP_accepting : Accepting TCP := {
  ac_id := tcp_id;
  ac_end := tcp_end;
  ac_listen := tcp_listen;
  ac_set_end := fun l => l <| tcp_end := true |>;
  ac_set_listen := fun so l => l <| tcp_listen := so |>;
}.
Definition TCP_Close {T} : (gostr -> GoM T unit) -> GoM (TCP * T) unit := accepting_Close.

Record NetListener := mkNetListener {
  net_id : gostr;
  net_listener : option Socket;
  net_end : bool;
}.
Definition NewNet (id : gostr) (listener : Socket) : NetListener := mkNetListener id (Some listener) false.
Definition Net_ID (l : NetListener) : gostr := net_id l.
(** Of a nil listener these two panic; [NewNet] is always given one. *)
Definition Net_Address (l : NetListener) : gostr := match net_listener l with Some so => so_addr so | None => [] end.
Definition Net_Protocol (l : NetListener) : gostr := match net_listener l with Some so => so_network so | None => [] end.
Definition Net_Init (nw : Network) : GoM NetListener unit := mret tt.
#[export] Instance Net_accepting : Accepting NetListener := {
  ac_id := net_id;
  ac_end := net_end;
  ac_listen := net_listener;
  ac_set_end := fun l => l <| net_end := true |>;
  ac_set_listen := fun so l => l <| net_listener := so |>;
}.
Definition Net_Close {T} : (gostr -> GoM T unit) -> GoM (NetListener * T) unit := accepting_Close.

Record UnixSock := mkUnixSock {
  us_id : gostr;
  us_address : gostr;
  us_config : Config;
  us_listen : option Socket;
  us_end : bool;
}.
Definition NewUnixSock (config : Config) : UnixSock := mkUnixSock (cf_ID config) (cf_Address config) config None false.
Definition UnixSock_ID (l : UnixSock) : gostr := us_id l.
Definition UnixSock_Address (l : UnixSock) : gostr := us_address l.
Definition UnixSock_Protocol (l : UnixSock) : gostr := !"unix".
Definition UnixSock_Init (nw : Network) : GoM UnixSock unit :=
  l ← get_state;
  match nw_Listen nw !"unix" (us_address l) None with
  | inl so => modify (fun l => l <| us_listen := Some so |>)
  | inr err => modify (fun l => l <| us_listen := None |>);; throw err
  end.
#[export] Instance UnixSock_accepting : Accepting UnixSock := {
  ac_id := us_id;
  ac_end := us_end;
  ac_listen := us_listen;
  ac_set_end := fun l => l <| us_end := true |>;
  ac_set_listen := fun so l => l <| us_listen := so |>;
}.
Definition UnixSock_Close {T} : (gostr -> GoM T unit) -> GoM (UnixSock * T) unit := accepting_Close.

(** ** Listeners with an HTTP server: websockets, statistics, health check *)

Record HTTPListener := mkHTTPListener {
  ht_id : gostr;
  ht_address : gostr;
  ht_config : Config;
  ht_listen : option HTTPServer;
  ht_end : bool;
}.
Definition NewHTTPListener (config : Config) : HTTPListener := mkHTTPListener (cf_ID config) (cf_Address config) config None false.

(** [Init]: an HTTP server for the address; it is opened by [Serve]. *)
Definition http_Init (nw : Network) : GoM HTTPListener unit :=
  modify (fun l => l <| ht_listen := Some (mkHTTPServer (ht_address l) (cf_TLSConfig (ht_config l)) false) |>).

(** [Close]: the server is shut down by the first call only; the clients are
    closed by every call. *)
Definition http_Close {T} (closeClients : gostr -> GoM T unit) : GoM (HTTPListener * T) unit :=
  lt ← get_state;
  when (negb (ht_end lt.1))
    (on_fst (modify (fun l => l <| ht_end := true |>));;
     h ← on_fst (deref (ht_listen lt.1));
     on_fst (modify (fun l => l <| ht_listen := Some (HTTPServer_Shutdown h) |>)));;
  on_snd (closeClients (ht_id lt.1)).

(** The protocol of the statistics and the health check. *)
Definition http_Protocol (l : HTTPListener) : gostr :=
  match ht_listen l with
  | Some h => match hs_TLSConfig h with Some _ => !"https" | None => !"http" end
  | None => !"http"
  end.

(** [Serve] has returned with [err]: whether it is logged as a failure. *)
Definition http_serve_failed (err : option error) (l : HTTPListener) : bool :=
  bool_decide (is_Some err) && negb (ht_end l).

(** An operation on the HTTP part of a listener. *)
Definition within {L K A} (view : L -> K) (set : K -> L -> L) (m : GoM K A) : GoM L A := fun l =>
  let '(r, k) := m (view l) in (r, set k l).
Definition within_fst {L K T A} (view : L -> K) (set : K -> L -> L) (m : GoM (K * T) A) : GoM (L * T) A := fun lt =>
  let '(r, (k, t)) := m (view lt.1, lt.2) in (r, (set k lt.1, t)).

(** [establish] is set by [Serve]. *)
Record Websocket := mkWebsocket {
  ws_http : HTTPListener;
  ws_establish : bool;
}.
Definition NewWebsocket (config : Config) : Websocket := mkWebsocket (NewHTTPListener config) false.
Definition Websocket_ID (l : Websocket) : gostr := ht_id (ws_http l).
Definition Websocket_Address (l : Websocket) : gostr := ht_address (ws_http l).
Definition Websocket_Protocol (l : Websocket) : gostr :=
  match cf_TLSConfig (ht_config (ws_http l)) with Some _ => !"wss" | None => !"ws" end.
Definition Websocket_Init (nw : Network) : GoM Websocket unit :=
  within ws_http (fun h l => l <| ws_http := h |>) (http_Init nw).
Definition Websocket_Close {T} (closeClients : gostr -> GoM T unit) : GoM (Websocket * T) unit :=
  within_fst ws_http (fun h l => l <| ws_http := h |>) (http_Close closeClients).
(** Up to [ListenAndServe], which dereferences the server. *)
Definition Websocket_Serve : GoM Websocket HTTPServer :=
  modify (fun l => l <| ws_establish := true |>);;
  l ← get_state;
  deref (ht_listen (ws_http l)).
(** A request: [upgraded] is the connection, if the upgrade succeeded. *)
Definition Websocket_handler {T C} (establish : gostr -> C -> GoM T unit) (upgraded : option C) (l : Websocket) : GoM T unit :=
  match upgraded with
  | None => mret tt
  | Some c => if ws_establish l then ignore (establish (Websocket_ID l) c) else panic
  end.

Record HTTPStats := mkHTTPStats { st_http : HTTPListener }.
Definition NewHTTPStats (config : Config) : HTTPStats := mkHTTPStats (NewHTTPListener config).
Definition HTTPStats_ID (l : HTTPStats) : gostr := ht_id (st_http l).
Definition HTTPStats_Address (l : HTTPStats) : gostr := ht_address (st_http l).
Definition HTTPStats_Protocol (l : HTTPStats) : gostr := http_Protocol (st_http l).
Definition HTTPStats_Init (nw : Network) : GoM HTTPStats unit :=
  within st_http (fun h l => l <| st_http := h |>) (http_Init nw).
Definition HTTPStats_Close {T} (closeClients : gostr -> GoM T unit) : GoM (HTTPStats * T) unit :=
  within_fst st_http (fun h l => l <| st_http := h |>) (http_Close closeClients).
Definition HTTPStats_Serve : GoM HTTPStats HTTPServer := l ← get_state; deref (ht_listen (st_http l)).

Record HTTPHealthCheck := mkHTTPHealthCheck { hc_http : HTTPListener }.
Definition NewHTTPHealthCheck (config : Config) : HTTPHealthCheck := mkHTTPHealthCheck (NewHTTPListener config).
Definition HTTPHealthCheck_ID (l : HTTPHealthCheck) : gostr := ht_id (hc_http l).
Definition HTTPHealthCheck_Address (l : HTTPHealthCheck) : gostr := ht_address (hc_http l).
Definition HTTPHealthCheck_Protocol (l : HTTPHealthCheck) : gostr := http_Protocol (hc_http l).
Definition HTTPHealthCheck_Init (nw : Network) : GoM HTTPHealthCheck unit :=
  within hc_http (fun h l => l <| hc_http := h |>) (http_Init nw).
Definition HTTPHealthCheck_Close {T} (closeClients : gostr -> GoM T unit) : GoM (HTTPHealthCheck * T) unit :=
  within_fst hc_http (fun h l => l <| hc_http := h |>) (http_Close closeClients).
Definition HTTPHealthCheck_Serve : GoM HTTPHealthCheck HTTPServer := l ← get_state; deref (ht_listen (hc_http l)).

(** The handler of the health check: the status of a response. *)
Definition healthcheck_handler (method : gostr) : Z := if str_eqb method !"GET" then 200 else 405.

(** ** The mock listener *)

(** [mk_done] tells whether the channel [done] has been closed. *)
Record MockListener := mkMockListener {
  mk_id : gostr;
  mk_address : gostr;
  mk_done : bool;
  mk_Serving : bool;
  mk_Listening : bool;
  mk_ErrListen : bool;
}.
Definition NewMockListener (id address : gostr) : MockListener := mkMockListener id address false false false false.
Definition Mock_ID (l : MockListener) : gostr := mk_id l.
Definition Mock_Address (l : MockListener) : gostr := mk_address l.
Definition Mock_Protocol (l : MockListener) : gostr := !"mock".
Definition Mock_IsServing (l : MockListener) : bool := mk_Serving l.
Definition Mock_IsListening (l : MockListener) : bool := mk_Listening l.
Definition EListenFailure : error := EOther 0.  (* fmt.Errorf("listen failure") *)
Definition Mock_Init (nw : Network) : GoM MockListener unit :=
  l ← get_state;
  if mk_ErrListen l then throw EListenFailure
  else modify (fun l => l <| mk_Listening := true |>).
(** Up to the wait on [done]. *)
Definition Mock_Serve : GoM MockListener unit := modify (fun l => l <| mk_Serving := true |>).
(** [close(l.done)] panics the second time. *)
Definition Mock_Close {T} (closer : gostr -> GoM T unit) : GoM (MockListener * T) unit :=
  lt ← get_state;
  on_fst (modify (fun l => l <| mk_Serving := false |>));;
  on_snd (closer (mk_id lt.1));;
  if mk_done lt.1 then panic else on_fst (modify (fun l => l <| mk_done := true |>)).

(** ** The instances *)

#[export] Instance TCP_listener : Listener TCP := {
  li_Init := TCP_Init; li_ID := TCP_ID; li_Address := TCP_Address; li_Protocol := TCP_Protocol;
  li_Close := fun T => TCP_Close;
}.
#[export] Instance Net_listener : Listener NetListener := {
  li_Init := Net_Init; li_ID := Net_ID; li_Address := Net_Address; li_Protocol := Net_Protocol;
  li_Close := fun T => Net_Close;
}.
#[export] Instance UnixSock_listener : Listener UnixSock := {
  li_Init := UnixSock_Init; li_ID := UnixSock_ID; li_Address := UnixSock_Address; li_Protocol := UnixSock_Protocol;
  li_Close := fun T => UnixSock_Close;
}.
#[export] Instance Websocket_listener : Listener Websocket := {
  li_Init := Websocket_Init; li_ID := Websocket_ID; li_Address := Websocket_Address; li_Protocol := Websocket_Protocol;
  li_Close := fun T => Websocket_Close;
}.
#[export] Instance HTTPStats_listener : Listener HTTPStats := {
  li_Init := HTTPStats_Init; li_ID := HTTPStats_ID; li_Address := HTTPStats_Address; li_Protocol := HTTPStats_Protocol;
  li_Close := fun T => HTTPStats_Close;
}.
#[export] Instance HTTPHealthCheck_listener : Listener HTTPHealthCheck := {
  li_Init := HTTPHealthCheck_Init; li_ID := HTTPHealthCheck_ID; li_Address := HTTPHealthCheck_Address;
  li_Protocol := HTTPHealthCheck_Protocol; li_Close := fun T => HTTPHealthCheck_Close;
}.
#[export] Instance Mock_listener : Listener MockListener := {
  li_Init := Mock_Init; li_ID := Mock_ID; li_Address := Mock_Address; li_Protocol := Mock_Protocol;
  li_Close := fun T => Mock_Close;
}.

(** A value of the interface type: a listener of one of the types. *)
Inductive AnyListener :=
| LTCP (l : TCP)
| LNet (l : NetListener)
| LUnix (l : UnixSock)
| LWebsocket (l : Websocket)
| LStats (l : HTTPStats)
| LHealthCheck (l : HTTPHealthCheck)
| LMock (l : MockListener).

(** An operation on the listener inside. *)
Definition inject {L A} (C : L -> AnyListener) (l : L) (m : GoM L A) : result error A * AnyListener :=
  let '(r, l) := m l in (r, C l).
Definition inject_fst {L T A} (C : L -> AnyListener) (l : L) (t : T) (m : GoM (L * T) A) : result error A * (AnyListener * T) :=
  let '(r, (l, t)) := m (l, t) in (r, (C l, t)).

#[export] Instance Any_listener : Listener AnyListener := {
  li_Init := fun nw l => match l with
    | LTCP l => inject LTCP l (li_Init nw) | LNet l => inject LNet l (li_Init nw)
    | LUnix l => inject LUnix l (li_Init nw) | LWebsocket l => inject LWebsocket l (li_Init nw)
    | LStats l => inject LStats l (li_Init nw) | LHealthCheck l => inject LHealthCheck l (li_Init nw)
    | LMock l => inject LMock l (li_Init nw)
    end;
  li_ID := fun l => match l with
    | LTCP l => li_ID l | LNet l => li_ID l | LUnix l => li_ID l | LWebsocket l => li_ID l
    | LStats l => li_ID l | LHealthCheck l => li_ID l | LMock l => li_ID l
    end;
  li_Address := fun l => match l with
    | LTCP l => li_Address l | LNet l => li_Address l | LUnix l => li_Address l | LWebsocket l => li_Address l
    | LStats l => li_Address l | LHealthCheck l => li_Address l | LMock l => li_Address l
    end;
  li_Protocol := fun l => match l with
    | LTCP l => li_Protocol l | LNet l => li_Protocol l | LUnix l => li_Protocol l | LWebsocket l => li_Protocol l
    | LStats l => li_Protocol l | LHealthCheck l => li_Protocol l | LMock l => li_Protocol l
    end;
  li_Close := fun T closer lt => match lt.1 with
    | LTCP l => inject_fst LTCP l lt.2 (li_Close closer) | LNet l => inject_fst LNet l lt.2 (li_Close closer)
    | LUnix l => inject_fst LUnix l lt.2 (li_Close closer) | LWebsocket l => inject_fst LWebsocket l lt.2 (li_Close closer)
    | LStats l => inject_fst LStats l lt.2 (li_Close closer)
    | LHealthCheck l => inject_fst LHealthCheck l lt.2 (li_Close closer)
    | LMock l => inject_fst LMock l lt.2 (li_Close closer)
    end;
}.

(** ** The set of listeners *)

Section Listeners.
Context {L : Type} `{Listener L} {RO : RangeOrder}.

Abbreviation Listeners := (gmap gostr L).

Definition Listeners_New : Listeners := ∅.
Definition Listeners_Add (m : Listeners) (val : L) : Listeners := <[li_ID val := val]> m.
Definition Listeners_Get (m : Listeners) (id : gostr) : option L := m !! id.
Definition Listeners_Len (m : Listeners) : nat := size m.
Definition Listeners_Delete (m : Listeners) (id : gostr) : Listeners := delete id m.

(** [Close(id, closer)] on the set and the caller's state. *)
Definition Listeners_Close {T} (closer : gostr -> GoM T unit) (id : gostr) : GoM (Listeners * T) unit := fun mt =>
  match mt.1 !! id with
  | None => (Ok tt, mt)
  | Some l => let '(r, (l, t)) := li_Close closer (l, mt.2) in (r, (<[id := l]> mt.1, t))
  end.

(** The loop of [CloseAll] over the ids listed before it starts. *)
Definition close_all {T} (closer : gostr -> GoM T unit) : GoM (Listeners * T) unit :=
  mt ← get_state;
  for_each (range mt.1).*1 (Listeners_Close closer).

(** [ServeAll]: the listeners for which a goroutine is started, in order; the
    goroutine of an id that is not in the map would dereference nil. *)
Definition Listeners_Serve (m : Listeners) (id : gostr) : result error L :=
  match m !! id with Some l => Ok l | None => Panic end.
Definition ServeAll (m : Listeners) : result error (list L) :=
  foldr (fun id rest => l ← Listeners_Serve m id; ls ← rest; Ok (l :: ls)) (Ok []) (range m).*1.
End Listeners.
