(* ===== verification/Configuration.v ===== *)
(** * Configuration files (config/config.go)

    A configuration file names the hooks of the server with their options.
    [FromBytes] reads it, [ToHooks] makes the hooks. The structs of the options
    have fields of the database and TLS packages, so the decoders of JSON and
    YAML into them are parameters; what [FromBytes] does with the result is here.
    The state of the hooks is one record with a part for each of them. *)
From S2P Require Import Prelude Codes Effects Codec FixedHeader Properties Packets Topics Aliases Inflight System Clients ClientIO Json JsonCodec Storage HookChain Stores Debug Badger Bolt Pebble Redis Ledger Listeners.

(** ** The file *)

Record HookAuthConfig := mkHookAuthConfig {
  ha_Ledger : Ledger;
  ha_AllowAll : bool;
}.
Record HookStorageConfig := mkHookStorageConfig {
  hs_Badger : option badger_Options;
  hs_Bolt : option bolt_Options;
  hs_Pebble : option pebble_Options;
  hs_Redis : option redis_Options;
}.
Record HookConfigs := mkHookConfigs {
  hc_Auth : option HookAuthConfig;
  hc_Storage : option HookStorageConfig;
  hc_Debug : option debug_Options;
}.

(** *** The level of the logger *)

Record LoggingConfig := mkLoggingConfig {
  lc_Level : gostr;
}.

(** [strconv.Atoi] of digits after a sign. *)
Fixpoint digits_value (s : gostr) (acc : Z) : option Z :=
  match s with
  | [] => Some acc
  | c :: s => if (48 <=? c) && (c <=? 57) then digits_value s (10 * acc + (c - 48)) else None
  end.
Definition offset_value (s : gostr) : option Z :=
  match s with
  | sign :: (_ :: _) as d =>
      match digits_value d 0 with
      | Some n => let n := if sign =? 45 then - n else n in if (- 2 ^ 63 <=? n) && (n <? 2 ^ 63) then Some n else None
      | None => None
      end
  | _ => None
  end.

(** [slog.Level.UnmarshalText]: a name in any case, with an offset. *)
Fixpoint split_offset (s : gostr) : gostr * gostr :=
  match s with
  | [] => ([], [])
  | c :: t => if (c =? 43) || (c =? 45) then ([], s) else let '(name, off) := split_offset t in (c :: name, off)
  end.
(** [strings.ToUpper], as far as it gives ASCII: the dotless i is an I, too. *)
Fixpoint upper (s : gostr) : gostr :=
  match s with
  | 196 :: 177 :: t => 73 :: upper t
  | 197 :: 191 :: t => 83 :: upper t
  | c :: t => (if (97 <=? c) && (c <=? 122) then c - 32 else c) :: upper t
  | [] => []
  end.
Definition level_name (s : gostr) : option Z :=
  let s := upper s in
  if str_eqb s !"DEBUG" then Some (-4) else if str_eqb s !"INFO" then Some 0
  else if str_eqb s !"WARN" then Some 4 else if str_eqb s !"ERROR" then Some 8 else None.
Definition level_UnmarshalText (s : gostr) : option Z :=
  let '(name, off) := split_offset s in
  match (match off with [] => Some 0 | _ => offset_value off end), level_name name with
  | Some o, Some l => Some (to_i64 (l + o))
  | _, _ => None
  end.

(** The level of the logger that [ToLogger] returns. *)
Definition ToLogger (lc : LoggingConfig) : Z := default 0 (level_UnmarshalText (lc_Level lc)).

(** ** The hooks *)

(** The configuration of a hook, an [any]. *)
Inductive HookConfig :=
  | CNil
  | CAuth (o : auth_Options)
  | CBadger (o : badger_Options)
  | CBolt (o : bolt_Options)
  | CRedis (o : redis_Options)
  | CPebble (o : pebble_Options)
  | CDebug (o : debug_Options).

(** [config.( *Options)] *)
Definition as_auth (c : HookConfig) : Stores.Config auth_Options :=
  match c with CNil => NilConfig | CAuth o => GivenConfig o | _ => OtherConfig end.
Definition as_badger (c : HookConfig) : Stores.Config badger_Options :=
  match c with CNil => NilConfig | CBadger o => GivenConfig o | _ => OtherConfig end.
Definition as_bolt (c : HookConfig) : Stores.Config bolt_Options :=
  match c with CNil => NilConfig | CBolt o => GivenConfig o | _ => OtherConfig end.
Definition as_redis (c : HookConfig) : Stores.Config redis_Options :=
  match c with CNil => NilConfig | CRedis o => GivenConfig o | _ => OtherConfig end.
Definition as_pebble (c : HookConfig) : Stores.Config pebble_Options :=
  match c with CNil => NilConfig | CPebble o => GivenConfig o | _ => OtherConfig end.
Definition as_debug (c : HookConfig) : Stores.Config debug_Options :=
  match c with CNil => NilConfig | CDebug o => GivenConfig o | _ => OtherConfig end.

Section Hooks.
Context {RO : RangeOrder} (yaml_Ledger : bytes -> Ledger -> Ledger * option error).
Context {BG BO PB RD : Type} `{Database BG} `{Database BO} `{Database PB} `{HashStore RD}.
Context (badger_Open : badger_Options -> BG + error) (bolt_Open : bolt_Options -> BO + error)
  (CreateBucket : gostr -> BO -> option error * BO) (pebble_Open : pebble_Options -> bool -> PB + error)
  (redis_NewClient : option redis_ConnOptions -> RD) (redis_Ping : RD -> option error).

Record HookWorld := mkHookWorld {
  hw_auth : AuthHook;
  hw_badger : StoreHook badger_Options BG;
  hw_bolt : StoreHook bolt_Options BO;
  hw_redis : StoreHook redis_Options RD;
  hw_pebble : StoreHook pebble_Options PB;
  hw_debug : DebugHook;
}.

(** The hooks before [Init]. *)
Definition NewWorld : HookWorld := mkHookWorld (mkAuthHook None None) (mkStoreHook badger_Options0 None)
  (mkStoreHook (mkBoltOptions [] []) None) (mkStoreHook (mkRedisOptions [] [] [] 0 [] None) None)
  (mkStoreHook (mkPebbleOptions [] []) None) DebugHook0.

Definition HookLoadConfig : Type := Hook HookWorld HookConfig * HookConfig.

Definition new_auth : Hook HookWorld HookConfig :=
  lift_hook hw_auth (fun k w => w <| hw_auth := k |>) as_auth (auth_hook yaml_Ledger).
Definition new_badger : Hook HookWorld HookConfig :=
  lift_hook hw_badger (fun k w => w <| hw_badger := k |>) as_badger (badger_hook badger_Open).
Definition new_bolt : Hook HookWorld HookConfig :=
  lift_hook hw_bolt (fun k w => w <| hw_bolt := k |>) as_bolt (bolt_hook bolt_Open CreateBucket).
Definition new_redis : Hook HookWorld HookConfig :=
  lift_hook hw_redis (fun k w => w <| hw_redis := k |>) as_redis (redis_hook redis_NewClient redis_Ping).
Definition new_pebble : Hook HookWorld HookConfig :=
  lift_hook hw_pebble (fun k w => w <| hw_pebble := k |>) as_pebble (pebble_hook pebble_Open).
Definition new_debug : Hook HookWorld HookConfig :=
  lift_hook hw_debug (fun k w => w <| hw_debug := k |>) as_debug debug_hook.

Definition toHooksAuth (a : HookAuthConfig) : list HookLoadConfig :=
  if ha_AllowAll a then [(allow_hook, CNil)]
  else [(new_auth, CAuth (mkAuthOptions [] (Some (mkLedger (le_Users (ha_Ledger a)) (le_Auth (ha_Ledger a)) (le_ACL (ha_Ledger a))))))].

(** A hook for the options that are there. *)
Definition load_if {O} (o : option O) (h : Hook HookWorld HookConfig) (c : O -> HookConfig) : list HookLoadConfig :=
  match o with Some o => [(h, c o)] | None => [] end.

Definition toHooksStorage (s : HookStorageConfig) : list HookLoadConfig :=
  load_if (hs_Badger s) new_badger CBadger ++ load_if (hs_Bolt s) new_bolt CBolt ++
  load_if (hs_Redis s) new_redis CRedis ++ load_if (hs_Pebble s) new_pebble CPebble.

Definition ToHooks (hc : HookConfigs) : list HookLoadConfig :=
  match hc_Auth hc with Some a => toHooksAuth a | None => [] end ++
  match hc_Storage hc with Some s => toHooksStorage s | None => [] end ++
  load_if (hc_Debug hc) new_debug CDebug.

(** ** Reading a file *)

(** [mqtt.Options], and the [config] that is decoded. *)
Record file_Options := mkFileOptions {
  fo_Listeners : list Listeners.Config;
  fo_Hooks : list HookLoadConfig;
  fo_Capabilities : option Capabilities;
  fo_ClientNetWriteBufferSize : Z;
  fo_ClientNetReadBufferSize : Z;
  fo_Logger : option Z;
  fo_SysTopicResendInterval : Z;
  fo_InlineClient : bool;
}.
Record config := mkConfigFile {
  cg_Options : file_Options;
  cg_Listeners : list Listeners.Config;
  cg_HookConfigs : HookConfigs;
  cg_LoggingConfig : LoggingConfig;
}.

Context (json_Unmarshal yaml_Unmarshal : bytes -> config + error).

(** No options for an empty file. *)
Definition FromBytes (b : bytes) : result error (option file_Options) :=
  match b with
  | [] => Ok None
  | c :: _ =>
      match (if c =? 123 then json_Unmarshal b else yaml_Unmarshal b) with
      | inr err => Err err
      | inl c => Ok (Some ((cg_Options c)
          <| fo_Hooks := ToHooks (cg_HookConfigs c) |>
          <| fo_Listeners := cg_Listeners c |>
          <| fo_Logger := Some (ToLogger (cg_LoggingConfig c)) |>))
      end
  end.
End Hooks.
