(* ===== verification/ConfigurationFacts.v ===== *)
(** * A server with the hooks of a configuration file

    The hooks of a file are added in a fixed order, each with options of its own
    type, and who may connect and use which topic is what the file says. *)
From S2P Require Import Prelude Codes Effects Codec FixedHeader Properties Packets Topics Aliases Inflight System Clients ClientIO Json JsonCodec Storage HookChain HookFacts Stores Debug Badger Bolt Pebble Redis StoreSpec StoreScan StoreRefines StoreHooks Ledger Listeners Configuration.

Section File.
Context {RO : RangeOrder} (yaml_Ledger : bytes -> Ledger -> Ledger * option error).
Context {BG BO PB RD : Type} `{Database BG} `{Database BO} `{Database PB} `{HashStore RD}.
Context (badger_Open : badger_Options -> BG + error) (bolt_Open : bolt_Options -> BO + error)
  (CreateBucket : gostr -> BO -> option error * BO) (pebble_Open : pebble_Options -> bool -> PB + error)
  (redis_NewClient : option redis_ConnOptions -> RD) (redis_Ping : RD -> option error).
Let World := HookWorld (BG := BG) (BO := BO) (PB := PB) (RD := RD).
Let hooks_of (hc : HookConfigs) : list (Hook World HookConfig * HookConfig) :=
  ToHooks yaml_Ledger badger_Open bolt_Open CreateBucket pebble_Open redis_NewClient redis_Ping hc.

(** ** The hooks by their kind *)

Inductive Kind := KAllow | KAuth | KBadger | KBolt | KRedis | KPebble | KDebug.

Definition hook_of (k : Kind) : Hook World HookConfig :=
  match k with
  | KAllow => allow_hook
  | KAuth => new_auth yaml_Ledger
  | KBadger => new_badger badger_Open
  | KBolt => new_bolt bolt_Open CreateBucket
  | KRedis => new_redis redis_NewClient redis_Ping
  | KPebble => new_pebble pebble_Open
  | KDebug => new_debug
  end.

(** The options that a hook of the kind is given. *)
Definition fits (k : Kind) (c : HookConfig) : Prop :=
  match k, c with
  | KAllow, CNil | KAuth, CAuth (mkAuthOptions _ (Some _)) | KBadger, CBadger _ | KBolt, CBolt _ | KRedis, CRedis _ | KPebble, CPebble _
  | KDebug, CDebug _ => True
  | _, _ => False
  end.

Definition load_kind {O} (o : option O) (k : Kind) (c : O -> HookConfig) : list (Kind * HookConfig) :=
  match o with Some o => [(k, c o)] | None => [] end.
Definition auth_kinds (a : HookAuthConfig) : list (Kind * HookConfig) :=
  if ha_AllowAll a then [(KAllow, CNil)]
  else [(KAuth, CAuth (mkAuthOptions [] (Some (mkLedger (le_Users (ha_Ledger a)) (le_Auth (ha_Ledger a)) (le_ACL (ha_Ledger a))))))].
Definition storage_kinds (s : HookStorageConfig) : list (Kind * HookConfig) :=
  load_kind (hs_Badger s) KBadger CBadger ++ load_kind (hs_Bolt s) KBolt CBolt ++
  load_kind (hs_Redis s) KRedis CRedis ++ load_kind (hs_Pebble s) KPebble CPebble.
Definition kinds (hc : HookConfigs) : list (Kind * HookConfig) :=
  match hc_Auth hc with Some a => auth_kinds a | None => [] end ++
  match hc_Storage hc with Some s => storage_kinds s | None => [] end ++
  load_kind (hc_Debug hc) KDebug CDebug.

Lemma hooks_of_kinds hc : hooks_of hc = (fun kc => (hook_of kc.1, kc.2)) <$> kinds hc.
Proof.
  unfold hooks_of, ToHooks, kinds, toHooksAuth, toHooksStorage, auth_kinds, storage_kinds, load_if, load_kind.
  destruct (hc_Auth hc) as [a|]; [destruct (ha_AllowAll a)|]; (destruct (hc_Storage hc) as [s|];
    [destruct (hs_Badger s), (hs_Bolt s), (hs_Redis s), (hs_Pebble s)|]); by destruct (hc_Debug hc).
Qed.

Lemma kinds_fit hc : Forall (fun kc => fits kc.1 kc.2) (kinds hc).
Proof.
  unfold kinds, auth_kinds, storage_kinds, load_kind.
  destruct (hc_Auth hc) as [a|]; [destruct (ha_AllowAll a)|]; (destruct (hc_Storage hc) as [s|];
    [destruct (hs_Badger s), (hs_Bolt s), (hs_Redis s), (hs_Pebble s)|]); destruct (hc_Debug hc); repeat constructor.
Qed.

(** ** Adding them *)

(** The databases can be opened. *)
Record databases_open : Prop := mkDatabasesOpen {
  dbo_badger : forall o, exists d, badger_Open o = inl d;
  dbo_bolt : forall o, exists d, bolt_Open o = inl d;
  dbo_bucket : forall b d, (CreateBucket b d).1 = None;
  dbo_pebble : forall o m, exists d, pebble_Open o m = inl d;
  dbo_redis : forall d, redis_Ping d = None;
}.

(** What a hook makes of the part of the access control. *)
Definition auth_after (kc : Kind * HookConfig) (a : AuthHook) : AuthHook :=
  match kc with
  | (KAuth, CAuth o) => mkAuthHook (Some o) (ao_Ledger o)
  | _ => a
  end.

Lemma hook_starts caps k c (w : World) :
  databases_open -> fits k c ->
  exists w', (h_SetOpts (hook_of k) caps;; h_Init (hook_of k) c) w = (Ok tt, w') /\ hw_auth w' = auth_after (k, c) (hw_auth w).
Proof.
  intros [O1 O2 O3 O4 O5] Hf. destruct k, c as [|[data [l|]]|o|o|o|o|o]; try done; unfold mbind, GoM_bind; cbn.
  - by eexists.
  - unfold lift. cbn. by eexists.
  - unfold lift. cbn. destruct (O1 (badger_defaults o)) as [d ->]. by eexists.
  - unfold lift. cbn. destruct (O2 (bolt_defaults o)) as [d ->]. pose proof (O3 (blo_Bucket (bolt_defaults o)) d) as E.
    destruct (CreateBucket _ d) as [err d']. cbn in E. subst err. by eexists.
  - unfold lift. cbn. unfold in_context. rewrite O5. by eexists.
  - unfold lift. cbn. match goal with |- context [pebble_Open ?o ?m] => destruct (O4 o m) as [d ->] end. by eexists.
  - unfold lift. cbn. by eexists.
Qed.

Lemma hooks_start caps kcs (h : HookSet World HookConfig) w :
  databases_open -> Forall (fun kc => fits kc.1 kc.2) kcs ->
  exists h' w', AddHooksFromConfig caps h ((fun kc => (hook_of kc.1, kc.2)) <$> kcs) w = (Ok h', w') /\
    Hooks_GetAll h' = Hooks_GetAll h ++ ((fun kc => hook_of kc.1) <$> kcs) /\
    hw_auth w' = foldl (fun a kc => auth_after kc a) (hw_auth w) kcs.
Proof.
  intros Ho Hf. induction Hf as [|[k c] kcs Hk _ IH] in h, w |- *; [exists h, w; by rewrite app_nil_r|].
  destruct (hook_starts caps k c w Ho Hk) as (w1 & E1 & Ha1).
  assert (Eadd : exists h1, AddHook caps h (hook_of k) c w = (Ok h1, w1) /\ Hooks_GetAll h1 = Hooks_GetAll h ++ [hook_of k]).
  { unfold AddHook, Hooks_Add, in_context. revert E1. unfold mbind, GoM_bind.
    destruct (h_SetOpts (hook_of k) caps w) as [[[]|err| |] w0]; try done. intros E1. rewrite E1. by eexists. }
  destruct Eadd as (h1 & Eadd & Eh1). destruct (IH h1 w1) as (h' & w' & E' & Eh' & Ea').
  exists h', w'. split_and!.
  - cbn [fmap list_fmap AddHooksFromConfig fst snd]. unfold mbind at 1, GoM_bind at 1. by rewrite Eadd.
  - rewrite Eh', Eh1, <- (assoc_L (++)). done.
  - by rewrite Ea', Ha1.
Qed.

(** ** Access *)

(** What the file decides, by the kinds of hooks it loads. *)
Definition kind_verdict (ledger : option Ledger) (verdict : Ledger -> bool) (k : Kind) : bool :=
  match k with
  | KAllow => true
  | KAuth => match ledger with Some l => verdict l | None => false end
  | _ => false
  end.

Lemma any_kinds (ks : list Kind) b (call : Hook World HookConfig -> GoM World bool) ledger verdict (w : World) :
  (forall k, k ∈ ks -> if h_Provides (hook_of k) b then call (hook_of k) w = (Ok (kind_verdict ledger verdict k), w)
             else kind_verdict ledger verdict k = false) ->
  any b call (hook_of <$> ks) w = (Ok (existsb (kind_verdict ledger verdict) ks), w).
Proof.
  induction ks as [|k ks IH]; intros Hk; [done|]. cbn [fmap list_fmap any existsb].
  pose proof (Hk k ltac:(by left)) as Hone. specialize (IH ltac:(intros; apply Hk; by right)).
  destruct (h_Provides (hook_of k) b).
  - unfold mbind, GoM_bind. rewrite Hone. by destruct (kind_verdict ledger verdict k).
  - by rewrite Hone.
Qed.

(** A ledger hook has its ledger. *)
Definition has_ledger (ks : list Kind) (w : World) : Prop := KAuth ∈ ks -> is_Some (ah_ledger (hw_auth w)).

Lemma access_kinds ks q g (w : World) cl pk topic write :
  has_ledger ks w ->
  let h := mkHookSet (hook_of <$> ks) q g in
  hk_OnConnectAuthenticate (chain_hooks h w) cl pk =
    existsb (kind_verdict (ah_ledger (hw_auth w)) (fun l => (AuthOk l cl pk).2)) ks /\
  hk_OnACLCheck (chain_hooks h w) cl topic write =
    existsb (kind_verdict (ah_ledger (hw_auth w)) (fun l => (ACLOk l cl topic write).2)) ks.
Proof.
  intros Hl h. cbn [chain_hooks hk_OnConnectAuthenticate hk_OnACLCheck].
  unfold Hooks_OnConnectAuthenticate, Hooks_OnACLCheck. cbn [Hooks_GetAll hs_internal h].
  rewrite (any_kinds ks _ _ (ah_ledger (hw_auth w)) (fun l => (AuthOk l cl pk).2)),
          (any_kinds ks _ _ (ah_ledger (hw_auth w)) (fun l => (ACLOk l cl topic write).2)); [done| |];
    intros [] Hin; try done; destruct (Hl Hin) as [l El]; cbn;
    unfold lift, auth_OnConnectAuthenticate, auth_OnACLCheck, with_ledger; by rewrite El.
Qed.

(** ** Events change nothing of it *)

Lemma frames_lift_other {K A} (get : World -> K) (set : K -> World -> World) (m : GoM K A) :
  (forall k w, hw_auth (set k w) = hw_auth w) -> frames hw_auth (lift get set m).
Proof. intros Hs w. unfold lift. destruct (m (get w)) as [r k]. apply Hs. Qed.

Lemma frames_tell ks q g ev : frames hw_auth (tell (mkHookSet (hook_of <$> ks) q g) ev).
Proof.
  assert (Hn : forall b call, (forall k, frames hw_auth (call (hook_of k))) -> frames hw_auth (notify (mkHookSet (hook_of <$> ks) q g) b call)).
  { intros b call Hc. unfold notify. cbn [Hooks_GetAll hs_internal]. induction ks as [|k ks' IH]; [apply frames_ret|].
    cbn [fmap list_fmap for_each]. apply frames_bind; [apply frames_when, Hc|intros _; exact IH]. }
  destruct ev; cbn [tell]; try (apply Hn; intros []; first [apply frames_ret | by apply frames_lift_other | intros w; reflexivity]).
  apply frames_ret.
Qed.

(** ** The file as a whole *)

(** What the section on access says. *)
Definition file_access (hc : HookConfigs) (verdict : Ledger -> bool) : bool :=
  match hc_Auth hc with
  | None => false
  | Some a => ha_AllowAll a || verdict (ha_Ledger a)
  end.

Lemma kinds_access hc verdict a0 :
  let ledger := ah_ledger (foldl (fun a kc => auth_after kc a) a0 (kinds hc)) in
  existsb (kind_verdict ledger verdict) (kinds hc).*1 = file_access hc verdict /\
  (KAuth ∈ (kinds hc).*1 -> is_Some ledger).
Proof.
  assert (Hrest : let rest := (match hc_Storage hc with Some s => storage_kinds s | None => [] end) ++ load_kind (hc_Debug hc) KDebug CDebug in
    Forall (fun kc => auth_after kc = id /\ (forall l v, kind_verdict l v kc.1 = false) /\ kc.1 <> KAuth) rest).
  { unfold storage_kinds, load_kind. destruct (hc_Storage hc) as [s|];
      [destruct (hs_Badger s), (hs_Bolt s), (hs_Redis s), (hs_Pebble s)|]; destruct (hc_Debug hc); cbn [app];
      repeat (apply Forall_cons; split; [split_and!; [done|done|discriminate]|]); by apply Forall_nil. }
  unfold kinds. cbv zeta in *. revert Hrest. generalize (match hc_Storage hc with Some s => storage_kinds s | None => [] end ++ load_kind (hc_Debug hc) KDebug CDebug).
  intros rest Hrest.
  assert (Hfold : forall a, foldl (fun a kc => auth_after kc a) a rest = a).
  { induction Hrest as [|kc rest (E & _) _ IH]; intros a; cbn; [done|]. rewrite E. apply IH. }
  assert (Hnone : forall l v, existsb (kind_verdict l v) rest.*1 = false).
  { clear Hfold. intros l v. induction Hrest as [|kc rest (_ & E & _) _ IH]; cbn; [done|]. by rewrite E, IH. }
  assert (Hauth : KAuth ∉ rest.*1).
  { intros (kc & E & Hin)%list_elem_of_fmap. rewrite Forall_forall in Hrest. destruct (Hrest kc Hin) as (_ & _ & Hne). by symmetry in E. }
  unfold file_access, auth_kinds. destruct (hc_Auth hc) as [[[us au ac] al]|]; [destruct al|];
    cbn [app fmap list_fmap fst foldl auth_after existsb kind_verdict ha_AllowAll ha_Ledger orb le_Users le_Auth le_ACL]; rewrite Hfold; cbn [ah_ledger ao_Ledger].
  - split; [done|]. intros [?|?]%elem_of_cons; done.
  - rewrite Hnone, orb_false_r. split; [done|]. by eexists.
  - rewrite Hnone. split; [done|]. done.
Qed.

Context (json_Unmarshal yaml_Unmarshal : bytes -> config (BG := BG) (BO := BO) (PB := PB) (RD := RD) + error).
Let read_file := FromBytes yaml_Ledger badger_Open bolt_Open CreateBucket pebble_Open redis_NewClient redis_Ping json_Unmarshal yaml_Unmarshal.

(** C24: A configuration file decides who may do what. From a file that decodes
    to [c], [FromBytes] gives options with the listeners of [c] and its hooks;
    when the databases can be opened, all of them are added, none is given
    options of another type, in the order access control, badger, bolt, redis,
    pebble, debug; and then, whatever events the hooks have been told of, a
    client may connect and use a topic exactly when the file allows everything
    or its ledger says so: a file without access control admits nobody. *)
Theorem configured_access caps b c evs cl pk topic write :
  databases_open -> b <> [] -> (if hd 0 b =? 123 then json_Unmarshal b else yaml_Unmarshal b) = inl c ->
  exists o h w, read_file b = Ok (Some o) /\ fo_Listeners o = cg_Listeners c /\
    AddHooksFromConfig caps HookSet0 (fo_Hooks o) NewWorld = (Ok h, w) /\
    Hooks_GetAll h = hook_of <$> (kinds (cg_HookConfigs c)).*1 /\
    let hooks := chain_hooks h (for_each evs (tell h) w).2 in
    hk_OnConnectAuthenticate hooks cl pk = file_access (cg_HookConfigs c) (fun l => (AuthOk l cl pk).2) /\
    hk_OnACLCheck hooks cl topic write = file_access (cg_HookConfigs c) (fun l => (ACLOk l cl topic write).2).
Proof.
  intros Ho Hb Hc. destruct b as [|c0 b]; [done|]. cbn [hd] in Hc. set (hc := cg_HookConfigs c).
  destruct (hooks_start caps (kinds hc) HookSet0 NewWorld Ho (kinds_fit hc)) as (h & w & E & Eh & Ea).
  eexists _, h, w. split; [unfold read_file, FromBytes; rewrite Hc; reflexivity|]. split; [done|]. split.
  { change (AddHooksFromConfig caps HookSet0 (hooks_of hc) NewWorld = (Ok h, w)). rewrite hooks_of_kinds. exact E. }
  cbn [Hooks_GetAll HookSet0 hs_internal app] in Eh. change (fun kc => hook_of kc.1) with (hook_of ∘ fst : Kind * HookConfig -> _) in Eh. rewrite list_fmap_compose in Eh. split; [exact Eh|]. cbn zeta.
  destruct h as [l q g]. cbn [Hooks_GetAll hs_internal] in Eh. subst l.
  assert (Ew : hw_auth (for_each evs (tell (mkHookSet (hook_of <$> (kinds hc).*1) q g)) w).2 = hw_auth w)
    by (apply frames_for_each; intros ev; apply frames_tell).
  rewrite <- Ew in Ea. set (w' := (for_each _ _ w).2) in *.
  destruct (kinds_access hc (fun l => (AuthOk l cl pk).2) (hw_auth (NewWorld : World))) as [V1 Hl].
  destruct (kinds_access hc (fun l => (ACLOk l cl topic write).2) (hw_auth (NewWorld : World))) as [V2 _]. cbn zeta in *.
  rewrite <- Ea in V1, V2, Hl. rewrite <- V1, <- V2. apply access_kinds. exact Hl.
Qed.
End File.

(** ** A file with a ledger, a store and the debug hook *)

Definition ledger_sample : Ledger :=
  mkLedger None (Some [mkAuthRule [] !"peach" [] !"pw" true]) (Some [mkACLRule [] [] [] {[ !"open/#" := ReadOnly ]}]).
Definition file_sample : config (BG := gmap gostr Data) (BO := gmap gostr Data) (PB := gmap gostr Data) (RD := gmap gostr (gmap gostr Data)) :=
  mkConfigFile (mkFileOptions [] [] None 0 0 None 0 false) [mkConfig !"tcp" !"t1" !":1883" None]
    (mkHookConfigs (Some (mkHookAuthConfig ledger_sample false)) (Some (mkHookStorageConfig None (Some (mkBoltOptions [] [])) None None))
       (Some debug_Options0)) (mkLoggingConfig !"warn+1").

(** The hooks over databases in memory. *)
Definition memory_hooks (hc : HookConfigs) :=
  ToHooks (BG := gmap gostr Data) (BO := gmap gostr Data) (PB := gmap gostr Data) (RD := gmap gostr (gmap gostr Data))
    (fun _ l => (l, None)) (fun _ => inl ∅) (fun _ => inl ∅) (fun _ d => (None, d)) (fun _ _ => inl ∅) (fun _ => ∅) (fun _ => None) hc.

Lemma configured_access_witness (cl := (newClient DefaultOptions None) <| cl_Properties ::= fun p => p <| cp_ClientUsername := !"peach" |> |>)
    (pk := Packet0 <| pk_Connect ::= fun c => c <| cp_Password := !"pw" |> |>) :
  exists h w, AddHooksFromConfig NewDefaultServerCapabilities HookSet0 (memory_hooks (cg_HookConfigs file_sample)) NewWorld = (Ok h, w) /\
    map h_ID (Hooks_GetAll h) = [!"auth-ledger"; !"bolt-db"; !"debug"] /\
    hk_OnConnectAuthenticate (chain_hooks h (for_each [OnPublished cl Packet0] (tell h) w).2) cl pk = true /\
    hk_OnACLCheck (chain_hooks h (for_each [OnPublished cl Packet0] (tell h) w).2) cl !"open/x" true = false.
Proof.
  destruct (configured_access (BG := gmap gostr Data) (BO := gmap gostr Data) (PB := gmap gostr Data) (RD := gmap gostr (gmap gostr Data)) (fun _ l => (l, None)) (fun _ => inl ∅) (fun _ => inl ∅) (fun _ d => (None, d)) (fun _ _ => inl ∅)
    (fun _ => ∅) (fun _ => None) (fun _ => inl file_sample) (fun _ => inr EJSON) NewDefaultServerCapabilities [123] file_sample
    [OnPublished cl Packet0] cl pk !"open/x" true) as (o & h & w & Eo & _ & Ea & Eh & H1 & H2).
  - split; intros; eauto.
  - discriminate.
  - reflexivity.
  - injection Eo as <-. exists h, w. split; [exact Ea|]. rewrite Eh. split; [reflexivity|]. split; [rewrite H1|rewrite H2]; vm_compute; reflexivity.
Defined.
