(* ===== verification/WsConn.v ===== *)
(** * Websocket connections as byte streams (listeners/websocket.go, wsConn)

    A broker reads packets from a [net.Conn], a stream of bytes; a websocket
    carries messages. [wsConn] turns the messages into the stream. The websocket
    library is a parameter; what is used of it are the laws of [WsLaws]. *)
From S2P Require Import Prelude Codes Effects.

Definition BinaryMessage : Z := 2.

(** [errors.Is(err, io.EOF)] *)
Fixpoint is_eof (e : error) : bool :=
  match e with
  | EEOF => true
  | EContext _ e => is_eof e
  | _ => false
  end.

(** ** The library: connections [C] and readers of a message [R] *)
Class WsLib (C R : Type) := {
  NextReader : GoM C (Z * R);
  Reader_Read : R -> nat -> C -> bytes * option error * C;
  WriteMessage : Z -> bytes -> GoM C unit;
}.

Section Conn.
Context {C R : Type} {L : WsLib C R}.

Record wsConn := mkWsConn {
  ws_c : C;
  ws_r : option R;
}.

(** The loop of [Read] into a buffer of [n] bytes, of which [acc] are read. Each
    round reads something or is the last, so [n + 1] rounds are enough. *)
Fixpoint Read_message (fuel : nat) (r : R) (n : nat) (acc : bytes) (c : C) : result error (bytes * option error) * wsConn :=
  if (length acc =? n)%nat then (Ok (acc, None), mkWsConn c (Some r))
  else
    match fuel with
    | O => (Diverge, mkWsConn c (Some r))
    | S fuel =>
        let '(br, err, c) := Reader_Read r (n - length acc) c in
        match err with
        | None => Read_message fuel r n (acc ++ br) c
        | Some err => (Ok (acc ++ br, if is_eof err then None else Some err), mkWsConn c None)
        end
    end.

(** The bytes that were read and the error. *)
Definition wsConn_Read (n : nat) : GoM wsConn (bytes * option error) := fun ws =>
  match ws_r ws with
  | Some r => Read_message (S n) r n [] (ws_c ws)
  | None =>
      match NextReader (ws_c ws) with
      | (Ok (op, r), c) =>
          if op =? BinaryMessage then Read_message (S n) r n [] c
          else (Ok ([], Some EInvalidMessage), ws <| ws_c := c |>)
      | (Err err, c) => (Ok ([], Some err), ws <| ws_c := c |>)
      | (Panic, c) => (Panic, ws <| ws_c := c |>)
      | (Diverge, c) => (Diverge, ws <| ws_c := c |>)
      end
  end.

Definition wsConn_Write (p : bytes) : GoM wsConn nat := fun ws =>
  match WriteMessage BinaryMessage p (ws_c ws) with
  | (Ok _, c) => (Ok (length p), ws <| ws_c := c |>)
  | (Err err, c) => (Err err, ws <| ws_c := c |>)
  | (Panic, c) => (Panic, ws <| ws_c := c |>)
  | (Diverge, c) => (Diverge, ws <| ws_c := c |>)
  end.

(** [io.ReadFull] of [n] bytes, of which [acc] are read. *)
Fixpoint ReadFull (fuel n : nat) (acc : bytes) : GoM wsConn bytes :=
  if (length acc =? n)%nat then mret acc
  else
    match fuel with
    | O => call Diverge
    | S fuel =>
        '(b, err) ← wsConn_Read (n - length acc);
        match err with
        | None => ReadFull fuel n (acc ++ b)
        | Some err => throw (if is_eof err && negb (length (acc ++ b) =? 0)%nat then EUnexpectedEOF else err)
        end
    end.

(** ** What the library promises

    [wl_ahead] are the messages that are still to come, [wl_rest] what is left of
    a message, [wl_sent] the messages that were written. A read of a message
    gives the next bytes of it, at most as many as asked for and at least one,
    and [io.EOF] with or after the last of them. *)
Class WsLaws := {
  wl_ahead : C -> list (Z * bytes);
  wl_rest : R -> C -> bytes;
  wl_sent : C -> list (Z * bytes);
  wl_next : forall c op m ms, wl_ahead c = (op, m) :: ms ->
    exists r c', NextReader c = (Ok (op, r), c') /\ wl_rest r c' = m /\ wl_ahead c' = ms;
  wl_end : forall c, wl_ahead c = [] -> exists err c', NextReader c = (Err err, c');
  wl_read : forall r n c b err c', (0 < n)%nat -> Reader_Read r n c = (b, err, c') ->
    wl_ahead c' = wl_ahead c /\ wl_rest r c = b ++ wl_rest r c' /\ (length b <= n)%nat /\
    match err with None => b <> [] | Some err => err = EEOF /\ wl_rest r c' = [] end;
  wl_write : forall c op p c', WriteMessage op p c = (Ok tt, c') -> wl_sent c' = wl_sent c ++ [(op, p)];
}.

Section Stream.
Context {WL : WsLaws}.

(** The stream: the rest of the message that is being read, and the binary
    messages that follow. *)
Definition binary_ahead (c : C) : Prop := Forall (fun m => m.1 = BinaryMessage) (wl_ahead c).
Definition current (ws : wsConn) : bytes := match ws_r ws with Some r => wl_rest r (ws_c ws) | None => [] end.
Definition stream (ws : wsConn) : bytes := current ws ++ concat (wl_ahead (ws_c ws)).*2.

(** The reads that can be without a byte before the stream ends. *)
Definition reads_left (ws : wsConn) : nat :=
  length (wl_ahead (ws_c ws)) + (match ws_r ws with Some _ => 1 | None => 0 end).

Lemma Read_message_spec fuel r n acc c :
  (length acc <= n)%nat -> (n - length acc < fuel)%nat ->
  exists b ws, Read_message fuel r n acc c = (Ok (acc ++ b, None), ws) /\ wl_rest r c = b ++ current ws /\
    wl_ahead (ws_c ws) = wl_ahead c /\ (length (acc ++ b) <= n)%nat /\
    (ws_r ws = None \/ ws_r ws = Some r /\ length (acc ++ b) = n).
Proof.
  induction fuel as [|fuel IH] in acc, c |- *; intros Hl Hf; [lia|]. cbn [Read_message].
  destruct (Nat.eqb_spec (length acc) n) as [E|E]; [exists [], (mkWsConn c (Some r)); rewrite app_nil_r; auto 10|].
  destruct (Reader_Read r (n - length acc) c) as [[b err] c'] eqn:Er.
  assert (Hn0 : (0 < n - length acc)%nat) by lia. destruct (wl_read _ _ _ _ _ _ Hn0 Er) as (Ha & Hrest & Hlen & He). destruct err as [err|].
  - destruct He as [-> He]. exists b, (mkWsConn c' None). cbn [is_eof]. rewrite length_app. rewrite He in Hrest.
    split_and!; [done|done|done|lia|by left].
  - assert (0 < length b)%nat by (destruct b; [done|cbn; lia]).
    destruct (IH (acc ++ b) c') as (b' & ws & E1 & E2 & E3 & E4 & E5); [rewrite length_app; lia..|].
    exists (b ++ b'), ws. rewrite (assoc_L (++)). split_and!; [done|by rewrite Hrest, E2, (assoc_L (++))|congruence|done|done].
Qed.

(** One read gives the next bytes of the stream. *)
Lemma wsConn_Read_spec n ws :
  (0 < n)%nat -> binary_ahead (ws_c ws) -> reads_left ws <> 0%nat ->
  exists b ws', wsConn_Read n ws = (Ok (b, None), ws') /\ stream ws = b ++ stream ws' /\ (length b <= n)%nat /\
    binary_ahead (ws_c ws') /\ (reads_left ws' < reads_left ws \/ length b = n /\ reads_left ws' <= reads_left ws)%nat.
Proof.
  intros Hn Hb Hl. unfold wsConn_Read, stream, reads_left, binary_ahead, current in *. destruct ws as [c [r|]]; cbn [ws_r ws_c] in *.
  - destruct (Read_message_spec (S n) r n [] c) as (b & ws & E & Hr & Ha & Hlb & Hc); [cbn; lia..|]. cbn [app] in *.
    exists b, ws. rewrite E, Hr, Ha, <- (assoc_L (++)). unfold current. split_and!; [done|done|done|done|].
    destruct Hc as [->|[-> Hc]]; [left|right]; cbn; lia.
  - destruct (wl_ahead c) as [|[op m] ms] eqn:Ea; [cbn in Hl; lia|]. apply Forall_cons in Hb as [Hop Hb]. cbn in Hop. subst op.
    destruct (wl_next _ _ _ _ Ea) as (r & c' & -> & Hr & Ha). cbn [Z.eqb BinaryMessage].
    destruct (Read_message_spec (S n) r n [] c') as (b & ws & E & Hr' & Ha' & Hlb & Hc); [cbn; lia..|]. cbn [app] in *.
    change (2 =? 2) with true. cbn iota. exists b, ws. rewrite E, Ha', Ha. cbn. rewrite <- Hr, Hr', <- (assoc_L (++)). unfold current.
    split_and!; [done|done|done|done|]. destruct Hc as [->|[-> Hc]]; [left|right]; cbn; lia.
Qed.

Lemma ReadFull_spec fuel n acc ws :
  binary_ahead (ws_c ws) -> (length acc <= n)%nat -> (n - length acc <= length (stream ws))%nat ->
  (reads_left ws + 1 < fuel)%nat ->
  exists ws', ReadFull fuel n acc ws = (Ok (acc ++ take (n - length acc) (stream ws)), ws') /\
    stream ws' = drop (n - length acc) (stream ws) /\ binary_ahead (ws_c ws').
Proof.
  induction fuel as [|fuel IH] in acc, ws |- *; intros Hb Hl Hn Hf; [lia|]. cbn [ReadFull].
  destruct (Nat.eqb_spec (length acc) n) as [E|E].
  { exists ws. rewrite E, Nat.sub_diag, take_0, app_nil_r. done. }
  assert (Hleft : reads_left ws <> 0%nat).
  { intros H0. unfold reads_left, stream, current in *. destruct (ws_r ws); [lia|]. destruct (wl_ahead (ws_c ws)); [cbn in Hn; lia|cbn in H0; lia]. }
  destruct (wsConn_Read_spec (n - length acc) ws) as (b & ws1 & E1 & Es & Hlb & Hb1 & Hm); [lia|done|done|].
  unfold mbind, GoM_bind. rewrite E1. rewrite Es, length_app in Hn.
  assert (Hfuel : (length b = n - length acc)%nat \/ (reads_left ws1 + 1 < fuel)%nat) by lia.
  assert (Etake : (acc ++ b) ++ take (n - length (acc ++ b)) (stream ws1) = acc ++ take (n - length acc) (stream ws)).
  { rewrite Es, length_app, take_app, (take_ge b) by lia. rewrite <- (assoc_L (++)). do 3 f_equal. lia. }
  assert (Edrop : drop (n - length (acc ++ b)) (stream ws1) = drop (n - length acc) (stream ws)).
  { rewrite Es, length_app, drop_app, (drop_ge b) by lia. cbn. f_equal. lia. }
  destruct Hfuel as [Hfull|Hfuel].
  - exists ws1. rewrite <- Etake, <- Edrop, length_app. replace (n - (length acc + length b))%nat with 0%nat by lia.
    rewrite take_0, drop_0, app_nil_r. split; [|done].
    assert (Efull : (length (acc ++ b) =? n)%nat = true) by (rewrite length_app; apply Nat.eqb_eq; lia).
    destruct fuel; cbn [ReadFull]; by rewrite Efull.
  - destruct (IH (acc ++ b) ws1) as (ws' & E2 & Es2 & Hb2); [done|rewrite length_app; lia|rewrite length_app; lia|done|].
    exists ws'. rewrite E2, Es2, Etake, Edrop. done.
Qed.

(** The messages that were written. *)
Fixpoint write_all (ps : list bytes) : GoM wsConn unit :=
  match ps with
  | [] => mret tt
  | p :: ps => wsConn_Write p;; write_all ps
  end.

Lemma write_all_sent ps ws ws' :
  write_all ps ws = (Ok tt, ws') -> wl_sent (ws_c ws') = wl_sent (ws_c ws) ++ map (fun p => (BinaryMessage, p)) ps.
Proof.
  induction ps as [|p ps IH] in ws |- *; cbn [write_all map]; [intros [= <-]; by rewrite app_nil_r|].
  unfold mbind, GoM_bind, wsConn_Write. destruct (WriteMessage BinaryMessage p (ws_c ws)) as [[[]|err| |] c] eqn:Ew; try done.
  intros E. rewrite (IH _ E). cbn [ws_c].
  rewrite (wl_write _ _ _ _ Ew), <- (assoc_L (++)). done.
Qed.

(** C28: A websocket connection carries a stream of bytes. When one end has
    written the pieces [ps] and the other has these messages ahead of it, then
    reading any number of bytes that were written returns, with exactly those
    bytes of the concatenation, wherever the pieces were cut and however few
    bytes the library gives at a time, and the rest of the stream is what is
    read next. *)
Theorem websocket_stream ps writer writer' reader n :
  write_all ps writer = (Ok tt, writer') -> wl_sent (ws_c writer) = [] ->
  ws_r reader = None -> wl_ahead (ws_c reader) = wl_sent (ws_c writer') -> (n <= length (concat ps))%nat ->
  exists reader', ReadFull (length ps + 2) n [] reader = (Ok (take n (concat ps)), reader') /\
    stream reader' = drop n (concat ps) /\ binary_ahead (ws_c reader').
Proof.
  intros Hw Hs Hr Ha Hn. apply write_all_sent in Hw. rewrite Hs, app_nil_l in Hw. rewrite Hw in Ha.
  assert (Hst : stream reader = concat ps).
  { unfold stream, current. rewrite Hr, Ha. cbn. f_equal. clear. induction ps; cbn; [done|]. by f_equal. }
  destruct (ReadFull_spec (length ps + 2) n [] reader) as (reader' & E & Es & Hb).
  - unfold binary_ahead. rewrite Ha. apply Forall_fmap, Forall_true. done.
  - cbn. lia.
  - rewrite Hst. cbn. lia.
  - unfold reads_left. rewrite Ha, Hr, length_map. lia.
  - exists reader'. rewrite E, Es, Hst. cbn [app length]. by rewrite Nat.sub_0_r.
Qed.

(** A message that is not binary ends the connection: [Read] returns an error
    when it comes to it, and gives none of its bytes. *)
Lemma text_message_refused n ws op m ms :
  ws_r ws = None -> wl_ahead (ws_c ws) = (op, m) :: ms -> op <> BinaryMessage ->
  exists c', wsConn_Read n ws = (Ok ([], Some EInvalidMessage), ws <| ws_c := c' |>) /\ wl_ahead c' = ms.
Proof.
  intros Hr Ha Hop. unfold wsConn_Read. rewrite Hr. destruct (wl_next _ _ _ _ Ha) as (r & c' & -> & _ & Ha').
  rewrite (proj2 (Z.eqb_neq _ _)) by done. eauto.
Qed.
End Stream.
End Conn.
Arguments wsConn C R : clear implicits.
Arguments WsLaws C R {L}.

(** ** A library that gives two bytes at a time *)

Record Wire := mkWire {
  wi_ahead : list (Z * bytes);
  wi_rest : bytes;
  wi_sent : list (Z * bytes);
}.

#[export] Instance two_bytes : WsLib Wire unit := {|
  NextReader := fun c =>
    match wi_ahead c with
    | (op, m) :: ms => (Ok (op, tt), mkWire ms m (wi_sent c))
    | [] => (Err EEOF, c)
    end;
  Reader_Read := fun _ n c =>
    let b := take (Nat.min n 2) (wi_rest c) in
    (b, match b with [] => Some EEOF | _ => None end, c <| wi_rest ::= drop (length b) |>);
  WriteMessage := fun op p c => (Ok tt, c <| wi_sent ::= fun l => l ++ [(op, p)] |>);
|}.

#[export] Instance two_bytes_laws : WsLaws Wire unit.
Proof.
  refine {| wl_ahead := wi_ahead; wl_rest _ := wi_rest; wl_sent := wi_sent |}.
  - intros [ahead rest sent] op m ms Ha. cbn in *. subst. by eexists _, _.
  - intros [ahead rest sent] Ha. cbn in *. subst. by eexists _, _.
  - intros r n [ahead rest sent] b err c' Hn [= <- <- <-]. cbn. split_and!; [done| | |].
    + rewrite length_take. destruct (decide (Nat.min n 2 <= length rest)%nat).
      * rewrite (Nat.min_l (Nat.min n 2)) by lia. by rewrite take_drop.
      * rewrite (Nat.min_r (Nat.min n 2)) by lia. rewrite take_ge, drop_all by lia. by rewrite app_nil_r.
    + rewrite length_take. lia.
    + destruct rest as [|x rest]; [by rewrite take_nil|]. destruct n as [|[|n]]; [lia|done|done].
  - by intros [ahead rest sent] op p c' [= <-].
Defined.

Lemma websocket_stream_witness (writer := mkWsConn (mkWire [] [] []) None : wsConn Wire unit)
    (ps := [[48; 4]; []; [0; 1; 116; 120; 224]; [0]]) (writer' := (write_all ps writer).2)
    (reader := mkWsConn (mkWire (wi_sent (ws_c writer')) [] []) None : wsConn Wire unit) :
  exists reader', ReadFull 6 5 [] reader = (Ok [48; 4; 0; 1; 116], reader') /\ stream reader' = [120; 224; 0] /\
    binary_ahead (ws_c reader').
Proof. apply (websocket_stream ps writer writer' reader 5); [reflexivity|reflexivity|reflexivity|reflexivity|cbn; lia]. Defined.
