(* ===== verification/AcceptLoop.v ===== *)
(** * The accept loop and [Close] (listeners/tcp.go, net.go, unixsock.go)

    [Serve] runs in a goroutine of its own while [Close] may be called from
    another. Both are machines whose steps are the atomic actions of the code
    (a load or a swap of [end], [Accept], the start of a goroutine, the calls of
    [Close]); an execution interleaves their steps. [Close] holds a mutex, so
    two calls do not overlap. *)
From S2P Require Import Prelude Codes Effects Listeners.

(** The fields of a listener are independent. *)
Class AcceptingLaws (L : Type) `{Accepting L} : Prop := {
  al_end : forall l, ac_end (ac_set_end l) = true;
  al_end_listen : forall so l, ac_end (ac_set_listen so l) = ac_end l;
  al_listen : forall so l, ac_listen (ac_set_listen so l) = so;
  al_listen_end : forall l, ac_listen (ac_set_end l) = ac_listen l;
  al_id_end : forall l, ac_id (ac_set_end l) = ac_id l;
  al_id_listen : forall so l, ac_id (ac_set_listen so l) = ac_id l;
}.

#[export] Instance TCP_accepting_laws : AcceptingLaws TCP.
Proof. done. Qed.
#[export] Instance Net_accepting_laws : AcceptingLaws NetListener.
Proof. done. Qed.
#[export] Instance UnixSock_accepting_laws : AcceptingLaws UnixSock.
Proof. done. Qed.

(** Where the loop of [Serve] stands; [C] is the type of a connection. *)
Inductive serve_pc {C : Type} :=
| ServeCheck                  (* before the first load of [end] *)
| ServeAccept                 (* in [Accept] *)
| ServeAccepted (conn : C)    (* before the second load *)
| ServeSpawn (conn : C)       (* before the goroutine is started *)
| ServeDone
| ServePanicked.
Arguments serve_pc C : clear implicits.

(** Where [Close] stands, between calls or in one. *)
Inductive close_pc := CloseIdle | CloseClients | CloseSocket.

Section AcceptLoop.
Context {L C : Type} `{AcceptingLaws L}.

(** [as_established] are the connections given to [establish], [as_dropped]
    those that were accepted and passed over, [as_closed] counts the calls of
    [closeClients], [as_returned] those of [Close] that have returned. *)
Record AcceptState := mkAcceptState {
  as_l : L;
  as_serve : serve_pc C;
  as_close : close_pc;
  as_established : list C;
  as_dropped : list C;
  as_closed : nat;
  as_returned : nat;
}.

(** A step of [Serve]; [o] is what [Accept] gives while the socket is open. *)
Definition serve_step (o : option C) (st : AcceptState) : AcceptState :=
  match as_serve st with
  | ServeCheck => st <| as_serve := if ac_end (as_l st) then ServeDone else ServeAccept |>
  | ServeAccept =>
      match ac_listen (as_l st) with
      | None => st <| as_serve := ServePanicked |>
      | Some so =>
          match (if so_open so then o else None) with
          | Some conn => st <| as_serve := ServeAccepted conn |>
          | None => st <| as_serve := ServeDone |>
          end
      end
  | ServeAccepted conn =>
      if ac_end (as_l st) then st <| as_serve := ServeCheck |> <| as_dropped ::= fun l => l ++ [conn] |>
      else st <| as_serve := ServeSpawn conn |>
  | ServeSpawn conn => st <| as_serve := ServeCheck |> <| as_established ::= fun l => l ++ [conn] |>
  | ServeDone | ServePanicked => st
  end.

(** A step of [Close]. *)
Definition close_step (st : AcceptState) : AcceptState :=
  match as_close st with
  | CloseIdle =>
      if ac_end (as_l st) then st <| as_close := CloseSocket |>
      else st <| as_l ::= ac_set_end |> <| as_close := CloseClients |>
  | CloseClients => st <| as_closed ::= S |> <| as_close := CloseSocket |>
  | CloseSocket =>
      st <| as_l ::= fun l => ac_set_listen (Socket_Close <$> ac_listen l) l |>
         <| as_close := CloseIdle |> <| as_returned ::= S |>
  end.

Inductive accept_step : AcceptState -> AcceptState -> Prop :=
| step_serve o st : accept_step st (serve_step o st)
| step_close st : accept_step st (close_step st).

(** [Serve] and [Close] of an initialised listener. *)
Definition accept_start (l : L) : AcceptState := mkAcceptState l ServeCheck CloseIdle [] [] 0 0.

(** Some steps of [Serve] alone. *)
Definition serve_run (os : list (option C)) (st : AcceptState) : AcceptState := foldl (fun st o => serve_step o st) st os.

(** ** The invariant *)

Record accept_ok (st : AcceptState) : Prop := mkAcceptOk {
  ao_listen : is_Some (ac_listen (as_l st));
  ao_serve : as_serve st <> ServePanicked;
  ao_closed : as_closed st = if ac_end (as_l st) then match as_close st with CloseClients => 0%nat | _ => 1%nat end else 0%nat;
  ao_pc : ac_end (as_l st) = false -> as_close st = CloseIdle /\ as_returned st = 0%nat /\ as_dropped st = [];
  ao_first : as_close st = CloseClients -> as_returned st = 0%nat;
  ao_socket : (0 < as_returned st)%nat -> exists so, ac_listen (as_l st) = Some so /\ so_open so = false;
}.

Lemma accept_start_ok l : is_Some (ac_listen l) -> ac_end l = false -> accept_ok (accept_start l).
Proof. intros Hl He. split; cbn; rewrite ?He; first [done | intros; lia]. Qed.

Lemma serve_step_l o st : as_l (serve_step o st) = as_l st.
Proof. unfold serve_step. repeat case_match; done. Qed.

Lemma serve_step_frame o st :
  as_close (serve_step o st) = as_close st /\ as_closed (serve_step o st) = as_closed st /\
  as_returned (serve_step o st) = as_returned st.
Proof. unfold serve_step. repeat case_match; done. Qed.

Lemma serve_step_ok o st : accept_ok st -> accept_ok (serve_step o st).
Proof.
  intros [Hl Hs Hc Hp Hf Hk]. destruct (serve_step_frame o st) as (E1 & E2 & E3).
  split; rewrite ?serve_step_l, ?E1, ?E2, ?E3; try done.
  - destruct Hl as [so Hso]. unfold serve_step. rewrite Hso. repeat case_match; cbn; congruence.
  - intros He. destruct (Hp He) as (? & ? & Hd). split_and!; try done.
    unfold serve_step. rewrite He. repeat case_match; done.
Qed.

Lemma close_step_ok st : accept_ok st -> accept_ok (close_step st).
Proof.
  destruct st as [l sv cl est dr cd rt]. intros [[so Hso] Hs Hc Hp Hf Hk]. cbn in *. unfold close_step. cbn.
  destruct cl; cbn in *.
  - destruct (ac_end l) eqn:He; cbn in *.
    + split; cbn; rewrite ?He; try done; eauto.
    + destruct (Hp eq_refl) as (_ & -> & ->).
      split; cbn; rewrite ?al_end, ?al_listen_end; try done; eauto; intros; lia.
  - assert (He : ac_end l = true) by (destruct (ac_end l); [done|]; by destruct (Hp eq_refl)).
    rewrite He in Hc. subst cd. split; cbn; rewrite ?He; try done; eauto.
  - assert (He : ac_end l = true) by (destruct (ac_end l); [done|]; by destruct (Hp eq_refl)).
    rewrite He in Hc. split; cbn; rewrite ?al_end_listen, ?al_listen, ?Hso, ?He; cbn; try done; eauto.
Qed.

Lemma accept_reachable l st :
  is_Some (ac_listen l) -> ac_end l = false -> rtc accept_step (accept_start l) st -> accept_ok st.
Proof.
  intros Hl He Hr. pose proof (accept_start_ok l Hl He) as Hst. revert Hst.
  induction Hr as [|st1 st2 st3 Hstep _ IH]; [done|]. intros H1. apply IH.
  destruct Hstep; [by apply serve_step_ok|by apply close_step_ok].
Qed.

(** ** After [end] has been set *)

(** What may still be established: the connection that was already on its way. *)
Definition on_its_way (st : AcceptState) : list C := match as_serve st with ServeSpawn conn => [conn] | _ => [] end.

Lemma ended_step st st' :
  accept_step st st' -> ac_end (as_l st) = true ->
  ac_end (as_l st') = true /\ as_established st' ++ on_its_way st' = as_established st ++ on_its_way st.
Proof.
  intros Hstep He. destruct Hstep as [o st|st].
  - rewrite serve_step_l. split; [done|]. unfold serve_step, on_its_way. rewrite He.
    repeat case_match; cbn; rewrite ?app_nil_r; simplify_eq; try done; congruence.
  - unfold close_step, on_its_way. rewrite He. destruct (as_close st); cbn; rewrite ?al_end_listen; done.
Qed.

Lemma ended_steps st st' :
  rtc accept_step st st' -> ac_end (as_l st) = true ->
  ac_end (as_l st') = true /\ as_established st' ++ on_its_way st' = as_established st ++ on_its_way st.
Proof.
  induction 1 as [|st1 st2 st3 Hstep _ IH]; [done|]. intros He.
  destruct (ended_step _ _ Hstep He) as [He2 E2]. destruct (IH He2) as [He3 E3]. by rewrite E3.
Qed.

(** The steps [Serve] still needs once the socket is closed. *)
Definition serve_left (pc : serve_pc C) : nat :=
  match pc with
  | ServeDone | ServePanicked => 0
  | ServeCheck | ServeAccept => 1
  | ServeAccepted _ | ServeSpawn _ => 2
  end.

Lemma serve_left_step o st so :
  ac_end (as_l st) = true -> ac_listen (as_l st) = Some so -> so_open so = false ->
  serve_left (as_serve (serve_step o st)) = pred (serve_left (as_serve st)) /\
  (as_serve st <> ServePanicked -> as_serve (serve_step o st) <> ServePanicked).
Proof.
  destruct st as [l sv cl est dr cd rt]. cbn. intros He Hl Ho. unfold serve_step. cbn. rewrite He, Hl, Ho. by destruct sv.
Qed.

Lemma serve_run_done os st so :
  ac_end (as_l st) = true -> ac_listen (as_l st) = Some so -> so_open so = false ->
  as_serve st <> ServePanicked -> (2 <= length os)%nat -> as_serve (serve_run os st) = ServeDone.
Proof.
  intros He Hl Ho Hp Hn.
  assert (H2 : (serve_left (as_serve st) <= length os)%nat) by (destruct (as_serve st); cbn; lia). clear Hn. revert st He Hl Hp H2.
  induction os as [|o os IH]; intros st He Hl Hp H2; cbn.
  - by destruct (as_serve st); cbn in H2; try lia.
  - destruct (serve_left_step o st so He Hl Ho) as [E Hp'].
    apply IH; rewrite ?serve_step_l; auto. rewrite E. cbn in H2. lia.
Qed.

(** C27: The accept loop against [Close], however their steps interleave. The
    loop does not panic. Until the listener is closed every accepted connection
    is established. The clients are closed by the first [Close] and once only.
    After [end] is set no connection is established but the one that had already
    passed the check. When a call of [Close] has returned, two more steps of the
    loop end it. *)
Theorem accept_loop_shutdown l st :
  is_Some (ac_listen l) -> ac_end l = false -> rtc accept_step (accept_start l) st ->
  as_serve st <> ServePanicked /\
  (ac_end (as_l st) = false -> as_dropped st = []) /\
  (as_closed st <= 1)%nat /\ ((0 < as_returned st)%nat -> as_closed st = 1%nat) /\
  (ac_end (as_l st) = true -> forall st', rtc accept_step st st' ->
     as_established st' ++ on_its_way st' = as_established st ++ on_its_way st) /\
  ((0 < as_returned st)%nat -> forall os, (2 <= length os)%nat -> as_serve (serve_run os st) = ServeDone).
Proof.
  intros Hl He Hr. destruct (accept_reachable l st Hl He Hr) as [Hso Hs Hc Hp Hf Hk].
  assert (Hret : (0 < as_returned st)%nat -> ac_end (as_l st) = true).
  { destruct (ac_end (as_l st)); [done|]. destruct (Hp eq_refl) as (_ & -> & _). lia. }
  split_and!; [done|by intros (_ & _ & ?)%Hp| | | |].
  - rewrite Hc. repeat case_match; lia.
  - intros Hn. rewrite Hc, (Hret Hn). destruct (as_close st); try done. rewrite Hf in Hn by done. lia.
  - intros Hend st' Hst. by apply ended_steps.
  - intros Hn os Ho. destruct (Hk Hn) as (so & Hso' & Hclosed). by eapply serve_run_done; eauto.
Qed.
End AcceptLoop.
Arguments AcceptState L C : clear implicits.

(** ** Executions *)

Definition tcp_sample : TCP :=
  mkTCP !"t1" !":1883" (Some (mkSocket !"tcp" !"[::]:1883" true)) (mkConfig !"tcp" !"t1" !":1883" None) false.

(** Connections 1 and 2 are established; then [Close] runs to its end while
    connection 3 has passed the check of the loop. *)
Definition race_sample : AcceptState TCP Z :=
  close_step (close_step (close_step (serve_step None (serve_step (Some 3) (serve_step None
    (serve_run [None; Some 1; None; None; None; Some 2; None; None] (accept_start tcp_sample))))))).

Lemma race_sample_reachable : rtc accept_step (accept_start tcp_sample) race_sample.
Proof.
  unfold race_sample, serve_run. cbn [foldl].
  do 3 (eapply rtc_r; [|apply step_close]). do 11 (eapply rtc_r; [|apply step_serve]). apply rtc_refl.
Qed.

Lemma accept_loop_shutdown_witness :
  as_closed race_sample = 1%nat /\ as_established race_sample = [1; 2] /\
  (forall os, (2 <= length os)%nat -> as_serve (serve_run os race_sample) = ServeDone) /\
  (forall st', rtc accept_step race_sample st' -> as_established st' ++ on_its_way st' = [1; 2; 3]).
Proof.
  destruct (accept_loop_shutdown tcp_sample race_sample) as (_ & _ & _ & H1 & H2 & H3);
    [by eexists|reflexivity|exact race_sample_reachable|].
  split_and!.
  - apply H1. vm_compute. lia.
  - vm_compute. reflexivity.
  - apply H3. vm_compute. lia.
  - intros st' Hst. rewrite H2; [vm_compute; reflexivity|vm_compute; reflexivity|exact Hst].
Defined.

(** A connection is established after [Close] has returned. *)
Lemma established_after_close :
  as_returned race_sample = 1%nat /\ as_established (serve_step None race_sample) = as_established race_sample ++ [3].
Proof. vm_compute. done. Qed.

(** A connection that [Accept] gives once [end] is set is passed over: it is
    neither established nor closed. *)
Lemma accepted_and_dropped (st := serve_run [None; Some 7] (accept_start tcp_sample)) :
  as_dropped (serve_step None (close_step st)) = [7] /\ as_established (serve_step None (close_step st)) = [].
Proof. vm_compute. done. Qed.
