(* ===== verification/Lifecycle.v ===== *)
(** * The life of a server (server.go: AddListener, Serve, Close)

    A process is a server with its hooks, its listeners and its goroutines: the
    connections being handled (which the wait group of the listeners counts),
    the listeners being served, the event loop. [Serve] starts it and [Close]
    ends it. What a goroutine does after it was started is a step of its own:
    [begin_connection] and [end_connection] are the two ends of [attachClient]. *)
From S2P Require Import Prelude Codes Effects Codec FixedHeader Properties Packets Topics Inflight System Clients Json JsonCodec Storage HookChain ClientIO Publish Server Sessions SysTopics Restore Listeners.

(** [strings.ToLower] of a type name: ASCII letters, and the two other runes
    whose lower case is ASCII (the Kelvin sign and the dotted capital I). *)
Fixpoint to_lower (s : gostr) : gostr :=
  match s with
  | 226 :: 132 :: 170 :: t => 107 :: to_lower t
  | 196 :: 176 :: t => 105 :: to_lower t
  | c :: t => (if (65 <=? c) && (c <=? 90) then c + 32 else c) :: to_lower t
  | [] => []
  end.

Definition TypeTCP : gostr := !"tcp".
Definition TypeWS : gostr := !"ws".
Definition TypeUnix : gostr := !"unix".
Definition TypeHealthCheck : gostr := !"healthcheck".
Definition TypeSysInfo : gostr := !"sysinfo".
Definition TypeMock : gostr := !"mock".

(** The listener of a configuration, if its type is known. *)
Definition listener_of (conf : Config) : option AnyListener :=
  let t := to_lower (cf_Type conf) in
  if str_eqb t TypeTCP then Some (LTCP (NewTCP conf))
  else if str_eqb t TypeWS then Some (LWebsocket (NewWebsocket conf))
  else if str_eqb t TypeUnix then Some (LUnix (NewUnixSock conf))
  else if str_eqb t TypeHealthCheck then Some (LHealthCheck (NewHTTPHealthCheck conf))
  else if str_eqb t TypeSysInfo then Some (LStats (NewHTTPStats conf))
  else if str_eqb t TypeMock then Some (LMock (NewMockListener (cf_ID conf) (cf_Address conf)))
  else None.

(** [defer cleanup()] of a call that goes on elsewhere when it succeeds. *)
Definition on_error {S A} (cleanup : S -> S) (m : GoM S A) : GoM S A := fun s =>
  match m s with
  | (Ok a, s) => (Ok a, s)
  | (r, s) => (r, cleanup s)
  end.

(** ** The two ends of a connection *)

Section Connection.
Context (e : Env) {RO : RangeOrder}.

(** [attachClient] up to [Read]. *)
Definition attach_begin (a : nat) (listener : gostr) : GoM Server unit :=
  on_error (stop_client e a) (
    '(pk, code) ← accept_connection e a listener;
    modify (count_connected 1);;
    on_error (count_connected (-1)) (begin_session e a pk code)).

(** [attachClient] from where [Read] has returned [err]. *)
Definition attach_end (a : nat) (err : option error) : GoM Server unit :=
  finally (stop_client e a) (finally (count_connected (-1)) (end_session e a err)).

(** [EstablishConnection] up to [Read]. *)
Definition establish (listener remote : gostr) (stream : bytes) : GoM Server nat :=
  a ← allocate ((NewClient e (Some remote) listener [] false)
                  <| cl_Net ::= fun n => n <| net_stream := stream |> |>);
  attach_begin a listener;;
  mret a.
End Connection.

Section Lifecycle.
Context (e : Env) {RO : RangeOrder} {W C : Type}.

(** [pr_done] tells whether the channel [done] has been closed; [pr_loop]
    whether the event loop was started. *)
Record Process := mkProcess {
  pr_server : Server;
  pr_world : W;
  pr_hooks : HookSet W C;
  pr_listeners : gmap gostr AnyListener;
  pr_attached : list nat;
  pr_serving : list gostr;
  pr_loop : bool;
  pr_done : bool;
}.

(** [New]: the process of a new server. *)
Definition NewProcess (w : W) : Process := mkProcess (New e) w HookSet0 Listeners_New [] [] false false.

(** The event loop runs until [done] is closed. *)
Definition loop_running (p : Process) : bool := pr_loop p && negb (pr_done p).

(** An operation on the server and its hooks, and one on the hooks. *)
Definition on_both {A} (m : HookSet W C -> GoM (Server * W) A) : GoM Process A := fun p =>
  let '(r, (s, w)) := m (pr_hooks p) (pr_server p, pr_world p) in
  (r, p <| pr_server := s |> <| pr_world := w |>).
Definition in_server {A} (m : GoM Server A) : GoM Process A := on_both (fun h => on_server h m).
Definition in_hooks {A} (m : HookSet W C -> GoM W A) : GoM Process A := on_both (fun h => on_hooks (m h)).
Definition set_hooks (m : HookSet W C -> GoM W (HookSet W C)) : GoM Process unit :=
  h ← in_hooks m;
  modify (fun p => p <| pr_hooks := h |>).

(** ** Listeners *)

Definition AddListener (nw : Network) (l : AnyListener) : GoM Process unit :=
  p ← get_state;
  match Listeners_Get (pr_listeners p) (li_ID l) with
  | Some _ => throw EListenerIDExists
  | None =>
      match li_Init nw l with
      | (Ok _, l) => modify (fun p => p <| pr_listeners ::= fun m => Listeners_Add m l |>)
      | (Err err, _) => throw err
      | (Panic, _) => panic
      | (Diverge, _) => call Diverge
      end
  end.

(** A configuration of an unknown type is passed over. *)
Definition AddListenersFromConfig (nw : Network) (configs : list Config) : GoM Process unit :=
  for_each configs (fun conf =>
    match listener_of conf with
    | Some l => AddListener nw l
    | None => mret tt
    end).

(** ** Starting *)

Definition stored_codes : list Z :=
  [code_StoredClients; code_StoredInflightMessages; code_StoredRetainedMessages; code_StoredSubscriptions; code_StoredSysInfo].

Definition Serve (nw : Network) (memory threads : Z) (listeners : list Config) (hooks : list (Hook W C * C)) : GoM Process unit :=
  when (0 <? length listeners)%nat (AddListenersFromConfig nw listeners);;
  when (0 <? length hooks)%nat (set_hooks (fun h => AddHooksFromConfig (ev_Capabilities e) h hooks));;
  p ← get_state;
  when (Hooks_Provides (pr_hooks p) stored_codes) (on_both (readStore e));;
  modify (fun p => p <| pr_loop := true |>);;
  ls ← call (ServeAll (pr_listeners p));
  modify (fun p => p <| pr_serving ::= fun l => l ++ map li_ID ls |>);;
  in_server (publishSysTopics e memory threads);;
  in_hooks Hooks_OnStarted.

(** ** Connections *)

Definition begin_connection (listener remote : gostr) (stream : bytes) : GoM Process unit :=
  a ← in_server (establish e listener remote stream);
  modify (fun p => p <| pr_attached ::= fun l => l ++ [a] |>).

(** The error of a connection is only logged, by its listener. *)
Definition end_connection (a : nat) (err : option error) : GoM Process unit :=
  ignore (in_server (attach_end e a err));;
  modify (fun p => p <| pr_attached ::= base.filter (fun x => x <> a) |>).

(** ** Ending *)

(** [s.Listeners.ClientsWg.Wait()]: the connections that are still handled end,
    each with what its [Read] returns; a connection whose client was not stopped
    goes on, and [Wait] does not return. *)
Definition wait_clients (read : nat -> option error) : GoM Process unit :=
  p ← get_state;
  for_each (pr_attached p) (fun a =>
    p ← get_state;
    match sv_store (pr_server p) !! a with
    | Some cl => if Client_Closed cl then end_connection a (read a) else call Diverge
    | None => panic
    end).

(** [s.Listeners.CloseAll(s.closeListenerClients)] *)
Definition close_listeners : GoM Process unit := fun p =>
  let closer id := on_server (pr_hooks p) (closeListenerClients e id) in
  let '(r, (m, (s, w))) := close_all closer (pr_listeners p, (pr_server p, pr_world p)) in
  (r, p <| pr_listeners := m |> <| pr_server := s |> <| pr_world := w |>).

Definition CloseAll (read : nat -> option error) : GoM Process unit :=
  close_listeners;;
  wait_clients read.

(** [close(s.done)] panics when the server has been closed before. *)
Definition Close (read : nat -> option error) : GoM Process unit :=
  p ← get_state;
  when (pr_done p) panic;;
  modify (fun p => p <| pr_done := true |>);;
  CloseAll read;;
  in_hooks Hooks_OnStopped;;
  set_hooks Hooks_Stop.
End Lifecycle.
Arguments Process W C : clear implicits.
