(* ===== verification/LifecycleFacts.v ===== *)
(** * Starting and ending a server

    What a listener promises to the set it is in (class [ListenerLaws], which
    every listener of the repository keeps), and on top of it: the listeners a
    configuration gives, what [Serve] starts, and a complete shutdown. *)
From S2P Require Import Prelude Codes Effects Codec FixedHeader Properties Packets Wire Topics TopicsFacts Aliases Inflight InflightFacts System Clients Json JsonCodec Storage HookChain ClientIO ClientIOFacts ClientFacts Publish PublishFacts Delivery Server Sessions SysTopics Frames ServerFacts Broker Connection HookFacts Restore Listeners AcceptLoop Lifecycle.

(** ** The contract of a listener *)

(** [li_new] has not been closed, [li_ready] is initialised besides; [li_closed]
    is what the first [Close] leaves, and it has stopped. *)
Class ListenerLaws (L : Type) `{Listener L} := {
  li_new : L -> bool;
  li_ready : L -> bool;
  li_stopped : L -> bool;
  li_closed : L -> L;
  ll_init : forall nw l l', li_new l = true -> li_Init nw l = (Ok tt, l') -> li_ready l' = true /\ li_ID l' = li_ID l;
  ll_closed : forall l, li_ready l = true -> li_stopped (li_closed l) = true /\ li_ID (li_closed l) = li_ID l;
  ll_close : forall T (closer : gostr -> GoM T unit) l t (Q : T -> Prop),
    li_ready l = true -> wp (closer (li_ID l)) t (fun r t => r = inl tt /\ Q t) ->
    wp (li_Close closer) (l, t) (fun r lt => r = inl tt /\ lt.1 = li_closed l /\ Q lt.2);
}.

Lemma wp_on_snd {L T A} (m : GoM T A) (l : L) t Q :
  wp m t (fun r t => Q r (l, t)) -> wp (on_snd m) (l, t) Q.
Proof. unfold wp, on_snd. cbn. by destruct (m t) as [[a|err| |] t']. Qed.

Section AcceptingListeners.
Context {L : Type} `{AcceptingLaws L}.

Definition accepting_ready (l : L) : bool := negb (ac_end l) && bool_decide (is_Some (ac_listen l)).
Definition accepting_stopped (l : L) : bool :=
  ac_end l && match ac_listen l with Some so => negb (so_open so) | None => true end.
Definition accepting_closed (l : L) : L := ac_set_listen (Socket_Close <$> ac_listen (ac_set_end l)) (ac_set_end l).

Lemma accepting_closed_ok l : accepting_stopped (accepting_closed l) = true /\ ac_id (accepting_closed l) = ac_id l.
Proof.
  unfold accepting_stopped, accepting_closed. rewrite al_end_listen, al_end, al_listen, al_listen_end, al_id_listen, al_id_end.
  by destruct (ac_listen l).
Qed.

Lemma accepting_close {T} (closer : gostr -> GoM T unit) l t (Q : T -> Prop) :
  accepting_ready l = true -> wp (closer (ac_id l)) t (fun r t => r = inl tt /\ Q t) ->
  wp (accepting_Close closer) (l, t) (fun r lt => r = inl tt /\ lt.1 = accepting_closed l /\ Q lt.2).
Proof.
  intros [He _]%andb_true_iff Hc. apply wp_bind, wp_get_state. cbn [fst]. rewrite He. apply wp_bind.
  apply wp_bind. unfold wp at 1. cbn. apply wp_on_snd. eapply wp_mono; [exact Hc|].
  intros r t' [-> HQ]. unfold wp. cbn. done.
Qed.
End AcceptingListeners.

#[export] Instance TCP_laws : ListenerLaws TCP.
Proof.
  refine {| li_new l := negb (tcp_end l); li_ready := accepting_ready (L := TCP); li_stopped := accepting_stopped; li_closed := accepting_closed;
            ll_closed l _ := accepting_closed_ok l; ll_close T := accepting_close |}.
  intros nw [] l' Hn. unfold li_Init, TCP_listener, TCP_Init, mbind, GoM_bind, accepting_ready. cbn in *.
  destruct (nw_Listen _ _ _ _) as [so|err]; [|done]. intros [= <-]. cbn. by rewrite Hn.
Defined.
#[export] Instance Net_laws : ListenerLaws NetListener.
Proof.
  refine {| li_new := accepting_ready (L := NetListener); li_ready := accepting_ready (L := NetListener); li_stopped := accepting_stopped; li_closed := accepting_closed;
            ll_closed l _ := accepting_closed_ok l; ll_close T := accepting_close |}.
  by intros nw l l' Hn [= <-].
Defined.
#[export] Instance UnixSock_laws : ListenerLaws UnixSock.
Proof.
  refine {| li_new l := negb (us_end l); li_ready := accepting_ready (L := UnixSock); li_stopped := accepting_stopped; li_closed := accepting_closed;
            ll_closed l _ := accepting_closed_ok l; ll_close T := accepting_close |}.
  intros nw [] l' Hn. unfold li_Init, UnixSock_listener, UnixSock_Init, mbind, GoM_bind, accepting_ready. cbn in *.
  destruct (nw_Listen _ _ _ _) as [so|err]; [|done]. intros [= <-]. cbn. by rewrite Hn.
Defined.

(** The listeners with an HTTP server. *)
Definition http_ready (l : HTTPListener) : bool := negb (ht_end l) && bool_decide (is_Some (ht_listen l)).
Definition http_stopped (l : HTTPListener) : bool :=
  ht_end l && match ht_listen l with Some h => hs_shutdown h | None => false end.
Definition http_closed (l : HTTPListener) : HTTPListener :=
  l <| ht_end := true |> <| ht_listen ::= fun h => HTTPServer_Shutdown <$> h |>.

Lemma http_closed_ok l : http_ready l = true -> http_stopped (http_closed l) = true /\ ht_id (http_closed l) = ht_id l.
Proof. destruct l as [id ad cf [h|] []]; done. Qed.

Lemma http_close {T} (closer : gostr -> GoM T unit) l t (Q : T -> Prop) :
  http_ready l = true -> wp (closer (ht_id l)) t (fun r t => r = inl tt /\ Q t) ->
  wp (http_Close closer) (l, t) (fun r lt => r = inl tt /\ lt.1 = http_closed l /\ Q lt.2).
Proof.
  destruct l as [id ad cf [h|] []]; try done. intros _ Hc.
  apply wp_bind, wp_get_state. apply wp_bind. unfold wp at 1. cbn. apply wp_on_snd.
  eapply wp_mono; [exact Hc|]. intros r t' [-> HQ]. done.
Qed.

Lemma wp_within_fst {L K T A} (view : L -> K) set (m : GoM (K * T) A) l t Q :
  wp m (view l, t) (fun r kt => Q r (set kt.1 l, kt.2)) -> wp (within_fst view set m) (l, t) Q.
Proof. unfold wp, within_fst. cbn. by destruct (m (view l, t)) as [[a|err| |] [k t']]. Qed.

#[export] Instance Websocket_laws : ListenerLaws Websocket.
Proof.
  refine {| li_new l := negb (ht_end (ws_http l)); li_ready l := http_ready (ws_http l); li_stopped l := http_stopped (ws_http l);
            li_closed l := l <| ws_http ::= http_closed |>; ll_closed l := http_closed_ok (ws_http l) |}.
  - intros nw [[] ?] l' Hn [= <-]. cbn in *. unfold http_ready. cbn. by rewrite Hn.
  - intros T closer l t Q Hr Hc. apply wp_within_fst. eapply wp_mono; [by apply http_close|].
    intros r [k t'] (-> & E & HQ). cbn in *. by subst.
Defined.
#[export] Instance HTTPStats_laws : ListenerLaws HTTPStats.
Proof.
  refine {| li_new l := negb (ht_end (st_http l)); li_ready l := http_ready (st_http l); li_stopped l := http_stopped (st_http l);
            li_closed l := l <| st_http ::= http_closed |>; ll_closed l := http_closed_ok (st_http l) |}.
  - intros nw [[]] l' Hn [= <-]. cbn in *. unfold http_ready. cbn. by rewrite Hn.
  - intros T closer l t Q Hr Hc. apply wp_within_fst. eapply wp_mono; [by apply http_close|].
    intros r [k t'] (-> & E & HQ). cbn in *. by subst.
Defined.
#[export] Instance HTTPHealthCheck_laws : ListenerLaws HTTPHealthCheck.
Proof.
  refine {| li_new l := negb (ht_end (hc_http l)); li_ready l := http_ready (hc_http l); li_stopped l := http_stopped (hc_http l);
            li_closed l := l <| hc_http ::= http_closed |>; ll_closed l := http_closed_ok (hc_http l) |}.
  - intros nw [[]] l' Hn [= <-]. cbn in *. unfold http_ready. cbn. by rewrite Hn.
  - intros T closer l t Q Hr Hc. apply wp_within_fst. eapply wp_mono; [by apply http_close|].
    intros r [k t'] (-> & E & HQ). cbn in *. by subst.
Defined.

#[export] Instance Mock_laws : ListenerLaws MockListener.
Proof.
  refine {| li_new l := negb (mk_done l); li_ready l := negb (mk_done l); li_stopped l := mk_done l && negb (mk_Serving l);
            li_closed l := l <| mk_Serving := false |> <| mk_done := true |> |}.
  - intros nw [? ? ? ? ? []] l' Hn; unfold li_Init, Mock_listener, Mock_Init, mbind, GoM_bind; cbn in *; [done|]. by intros [= <-].
  - done.
  - intros T closer [? ? [] ? ? ?] t Q Hr Hc; [done|].
    apply wp_bind, wp_get_state. apply wp_bind. unfold wp at 1. cbn. apply wp_bind, wp_on_snd.
    eapply wp_mono; [exact Hc|]. intros r t' [-> HQ]. done.
Defined.

(** A listener of any of the types. *)
Lemma wp_inject_fst {L T} (C : L -> AnyListener) l (t : T) (m : GoM (L * T) unit) l' (Q : T -> Prop) :
  wp m (l, t) (fun r lt => r = inl tt /\ lt.1 = l' /\ Q lt.2) ->
  let '(r, (x, t')) := inject_fst C l t m in r = Ok tt /\ x = C l' /\ Q t'.
Proof.
  unfold wp, inject_fst. destruct (m (l, t)) as [[[]|err| |] [k t']]; cbn; try done; try (by intros [? _]).
  intros (_ & -> & HQ). done.
Qed.

#[export] Instance Any_laws : ListenerLaws AnyListener.
Proof.
  refine {|
    li_new l := match l with LTCP l => li_new l | LNet l => li_new l | LUnix l => li_new l | LWebsocket l => li_new l
                | LStats l => li_new l | LHealthCheck l => li_new l | LMock l => li_new l end;
    li_ready l := match l with LTCP l => li_ready l | LNet l => li_ready l | LUnix l => li_ready l | LWebsocket l => li_ready l
                | LStats l => li_ready l | LHealthCheck l => li_ready l | LMock l => li_ready l end;
    li_stopped l := match l with LTCP l => li_stopped l | LNet l => li_stopped l | LUnix l => li_stopped l | LWebsocket l => li_stopped l
                | LStats l => li_stopped l | LHealthCheck l => li_stopped l | LMock l => li_stopped l end;
    li_closed l := match l with LTCP l => LTCP (li_closed l) | LNet l => LNet (li_closed l) | LUnix l => LUnix (li_closed l)
                | LWebsocket l => LWebsocket (li_closed l) | LStats l => LStats (li_closed l)
                | LHealthCheck l => LHealthCheck (li_closed l) | LMock l => LMock (li_closed l) end |}.
  - intros nw l l' Hn. destruct l as [l|l|l|l|l|l|l]; cbn [li_Init Any_listener]; unfold inject;
      match goal with |- context [li_Init nw l] => destruct (li_Init nw l) as [[[]|err| |] k] eqn:E end; try done;
      intros [= <-]; exact (ll_init nw l k Hn E).
  - intros [l|l|l|l|l|l|l]; exact (ll_closed l).
  - intros T closer l t Q Hr Hc. unfold wp. destruct l as [l|l|l|l|l|l|l]; cbn [li_Close Any_listener fst snd];
      match goal with |- context [inject_fst ?C l t ?m] =>
        pose proof (wp_inject_fst C l t m (li_closed l) Q (ll_close T closer l t Q Hr Hc)) as HX;
        destruct (inject_fst C l t m) as [r [x t']]; destruct HX as (-> & -> & HQ); done end.
Defined.

(** ** The two ends of a connection make up [attachClient] *)

Lemma attachClient_split e {RO : RangeOrder} a listener s :
  attachClient e a listener s =
  (attach_begin e a listener;;
   r ← on_error (fun s => stop_client e a (count_connected (-1) s)) (attempt (Read e a));
   attach_end e a (match r with inl _ => None | inr err => Some err end)) s.
Proof.
  unfold attachClient, attach_begin, attach_end, finally, on_error, mbind, GoM_bind, modify.
  destruct (accept_connection e a listener s) as [[[pk code]|err| |] s1]; try done.
  destruct (begin_session e a pk code _) as [[[]|err| |] s2]; try done.
  destruct (attempt (Read e a) s2) as [[r|err| |] s3]; done.
Qed.

(** ** The listeners of a configuration *)

(** Every listener is under its id, initialised and not closed. *)
Definition listeners_ok (m : gmap gostr AnyListener) : Prop :=
  map_Forall (fun id l => li_ID l = id /\ li_ready l = true) m.

Lemma listener_of_new conf l : listener_of conf = Some l -> li_new l = true /\ li_ID l = cf_ID conf.
Proof. unfold listener_of. repeat case_match; intros [= <-]; done. Qed.

Section Listening.
Context (e : Env) {RO : RangeOrder} {W C : Type}.
Implicit Types p : Process W C.

(** An initialised listener under a new id. *)
Lemma AddListener_added nw l p p' :
  li_new l = true -> listeners_ok (pr_listeners p) -> AddListener nw l p = (Ok tt, p') ->
  pr_listeners p !! li_ID l = None /\ listeners_ok (pr_listeners p') /\
  dom (pr_listeners p') = {[ li_ID l ]} ∪ dom (pr_listeners p) /\
  p' = p <| pr_listeners := pr_listeners p' |>.
Proof.
  intros Hn Hok. unfold AddListener, mbind, GoM_bind. cbn [get_state]. unfold Listeners_Get.
  destruct (pr_listeners p !! li_ID l) eqn:El; [done|].
  destruct (li_Init nw l) as [[[]|err| |] l'] eqn:Ei; try done. intros [= <-]. split; [done|].
  destruct (ll_init nw l l' Hn Ei) as [Hr Hid].
  cbn [pr_listeners]. unfold Listeners_Add.
  rewrite Hid, dom_insert_L. split_and!; [|done|done].
  apply map_Forall_insert_2; [by rewrite Hid|done].
Qed.

Lemma AddListenersFromConfig_added nw configs p p' :
  listeners_ok (pr_listeners p) -> AddListenersFromConfig nw configs p = (Ok tt, p') ->
  let ids := li_ID <$> omap listener_of configs in
  NoDup ids /\ (forall id, id ∈ ids -> pr_listeners p !! id = None) /\ listeners_ok (pr_listeners p') /\
  dom (pr_listeners p') = list_to_set ids ∪ dom (pr_listeners p) /\
  p' = p <| pr_listeners := pr_listeners p' |>.
Proof.
  intros Hok. induction configs as [|conf configs IH] in p, Hok |- *; cbn [AddListenersFromConfig for_each omap list_omap].
  - intros [= <-]. cbn. split_and!; [constructor|by intros id ?%elem_of_nil|done|set_solver|done].
  - unfold AddListenersFromConfig in *. unfold mbind, GoM_bind. cbn [for_each].
    destruct (listener_of conf) as [l|] eqn:El.
    + destruct (AddListener nw l p) as [[[]|err| |] p1] eqn:E1; try done. intros E2.
      apply AddListener_added in E1 as (Hnone & Hok1 & Hdom & Hp1); [|by apply listener_of_new in El as [? _]|done].
      destruct (IH p1 Hok1 E2) as (Hnd & Hfree & Hok2 & Hdom2 & Hp2). cbn.
      assert (Hl : li_ID l ∉ li_ID <$> omap listener_of configs).
      { intros Hin%Hfree. apply not_elem_of_dom in Hin. set_solver. }
      split_and!; [by constructor| |done|rewrite Hdom2, Hdom; set_solver|by rewrite Hp2, Hp1].
      intros id [->|Hid]%elem_of_cons; [done|]. apply Hfree in Hid. apply not_elem_of_dom. apply not_elem_of_dom in Hid. set_solver.
    + intros E2. exact (IH p Hok E2).
Qed.

(** What operations of the server and the hooks do not change. *)
Definition outside p := (pr_hooks p, pr_listeners p, pr_attached p, pr_serving p, pr_loop p, pr_done p).

Lemma frames_on_both {A} (m : HookSet W C -> GoM (Server * W) A) : frames outside (on_both m).
Proof. intros p. unfold on_both. by destruct (m _ _) as [r [s w]]. Qed.

Lemma bind_Ok {S A B} (m : GoM S A) (k : A -> GoM S B) s b s' :
  (m ≫= k) s = (Ok b, s') -> exists a s1, m s = (Ok a, s1) /\ k a s1 = (Ok b, s').
Proof. unfold mbind, GoM_bind. destruct (m s) as [[a|err| |] s1]; [eauto|done..]. Qed.

Lemma on_both_outside {A} (m : HookSet W C -> GoM (Server * W) A) p r p' : on_both m p = (r, p') -> outside p' = outside p.
Proof. intros E. pose proof (frames_on_both m p) as F. by rewrite E in F. Qed.

Lemma outside_fields p q : outside p = outside q ->
  pr_hooks p = pr_hooks q /\ pr_listeners p = pr_listeners q /\ pr_serving p = pr_serving q /\
  pr_loop p = pr_loop q /\ pr_done p = pr_done q /\ pr_attached p = pr_attached q.
Proof. unfold outside. intros E. by injection E. Qed.

(** A goroutine for every listener. *)
Lemma ServeAll_ids (m : gmap gostr AnyListener) ls :
  listeners_ok m -> ServeAll m = Ok ls -> map li_ID ls = (range m).*1.
Proof.
  intros Hok. unfold ServeAll. generalize (range m).*1. intros ids.
  induction ids as [|id ids IH] in ls |- *; cbn [foldr]; [by intros [= <-]|].
  assert (Hs : Listeners_Serve m id = match m !! id with Some l => Ok l | None => Panic end) by done. rewrite Hs.
  destruct (m !! id) as [l|] eqn:El; mred; [|done].
  destruct (foldr _ _ ids) as [rest| | |] eqn:Er; mred; try done. intros [= <-]. cbn [map].
  rewrite (IH rest) by done. f_equal. by destruct (Hok id l El).
Qed.

Lemma set_hooks_added p caps hooks p' :
  Z.of_nat (length hooks) < 2 ^ 63 -> pr_hooks p = HookSet0 ->
  set_hooks (fun h => AddHooksFromConfig caps h hooks) p = (Ok tt, p') ->
  hookset_ok (pr_hooks p') /\ Hooks_GetAll (pr_hooks p') = hooks.*1 /\
  p' = p <| pr_hooks := pr_hooks p' |> <| pr_server := pr_server p' |> <| pr_world := pr_world p' |>.
Proof.
  intros Hl Hh E. apply bind_Ok in E as (h & p1 & E1 & [= <-]). unfold in_hooks, on_both, on_hooks in E1. cbn in E1.
  destruct (AddHooksFromConfig caps (pr_hooks p) hooks (pr_world p)) as [[h'|err| |] w'] eqn:Ea; try done.
  injection E1 as -> <-. rewrite Hh in Ea. apply AddHooksFromConfig_ok in Ea as [H1 H2]; [|done|done].
  cbn. unfold Hooks_GetAll. done.
Qed.

(** What a successful start leaves: the listeners with a known type have
    distinct ids, each of them is initialised and in the set, for each of them
    one goroutine serves it, the hooks are those of the configuration in its
    order, and the event loop runs. *)
Definition started (listeners : list Config) (hooks : list (Hook W C * C)) p : Prop :=
  let ids := li_ID <$> omap listener_of listeners in
  NoDup ids /\ dom (pr_listeners p) = list_to_set ids /\ listeners_ok (pr_listeners p) /\
  pr_serving p ≡ₚ ids /\ Hooks_GetAll (pr_hooks p) = hooks.*1 /\ hookset_ok (pr_hooks p) /\ loop_running p = true.

Lemma Serve_started nw memory threads listeners (hooks : list (Hook W C * C)) w p :
  Serve e nw memory threads listeners hooks (NewProcess e w) = (Ok tt, p) -> Z.of_nat (length hooks) < 2 ^ 63 ->
  started listeners hooks p.
Proof.
  intros E Hl. unfold started. cbn zeta. unfold Serve in E.
  apply bind_Ok in E as ([] & p1 & E1 & E). apply bind_Ok in E as ([] & p2 & E2 & E).
  apply bind_Ok in E as (p2' & ? & [= <- <-] & E). apply bind_Ok in E as ([] & p3 & E3 & E).
  apply bind_Ok in E as ([] & ? & [= <-] & E). apply bind_Ok in E as (ls & ? & E4 & E).
  unfold call in E4. injection E4 as E4 <-.
  apply bind_Ok in E as ([] & ? & [= <-] & E). apply bind_Ok in E as ([] & p4 & E5 & E6).
  assert (H1 : let ids := li_ID <$> omap listener_of listeners in
    NoDup ids /\ dom (pr_listeners p1) = list_to_set ids /\ listeners_ok (pr_listeners p1) /\
    p1 = (NewProcess e w) <| pr_listeners := pr_listeners p1 |>).
  { assert (E0 : AddListenersFromConfig nw listeners (NewProcess e w) = (Ok tt, p1)) by by destruct listeners.
    apply AddListenersFromConfig_added in E0 as (Hnd & _ & Hok & Hd & Hp); [|apply map_Forall_empty].
    cbn zeta. split_and!; try done. rewrite Hd. change (pr_listeners (NewProcess e w)) with (∅ : gmap gostr AnyListener). set_solver. }
  destruct H1 as (Hnd & Hd & Hok & Hp1).
  assert (H2 : hookset_ok (pr_hooks p2) /\ Hooks_GetAll (pr_hooks p2) = hooks.*1 /\ pr_listeners p2 = pr_listeners p1 /\
    pr_serving p2 = [] /\ pr_done p2 = false).
  { destruct hooks as [|hk hooks]; [injection E2 as <-; by rewrite Hp1|].
    apply set_hooks_added in E2 as (Ho & Hg & Hp2); [|done|by rewrite Hp1]. rewrite Hp2, Hp1. done. }
  destruct H2 as (Hho & Hhg & Hl2 & Hs2 & Hd2).
  assert (H3 : outside p3 = outside p2).
  { destruct (Hooks_Provides _ _); [by eapply on_both_outside|by injection E3 as <-]. }
  unfold in_server, in_hooks in E5, E6. apply on_both_outside in E5, E6. rewrite E5 in E6.
  apply outside_fields in E6 as (-> & -> & -> & El & Ed & _), H3 as (H31 & H32 & H33 & _ & H35 & _).
  match type of Ed with _ = pr_done ?q => change (pr_done q) with (pr_done p3) in Ed; change (pr_loop q) with true in El;
    change (pr_hooks q) with (pr_hooks p3); change (pr_listeners q) with (pr_listeners p3);
    change (pr_serving q) with (pr_serving p3 ++ map li_ID ls) end.
  unfold loop_running. rewrite El, Ed, H31, H32, H33, H35, Hl2, Hs2, Hd2. rewrite Hl2 in E4. split_and!; try done.
  pose proof (ServeAll_ids _ _ Hok E4) as Els. cbn [app]. rewrite Els.
  apply NoDup_Permutation; [apply range_NoDup|done|].
  intros id. transitivity (id ∈ dom (pr_listeners p1)); [|rewrite Hd; apply elem_of_list_to_set].
  rewrite elem_of_dom, list_elem_of_fmap. split.
  - intros ([k l] & -> & Hl'%elem_of_range). by exists l.
  - intros [l Hl']. exists (id, l). split; [done|]. by apply elem_of_range.
Qed.
End Listening.

(** ** A server with three listeners and two hooks *)

Definition sample_network : Network := mkNetwork (fun network address _ => inl (mkSocket network address true)).
Definition sample_listeners : list Config :=
  [mkConfig !"TCP" !"tcp" !":1883" None; mkConfig !"none" !"x" !":1" None;
   mkConfig !"ws" !"ws" !":1882" None; mkConfig !"mock" !"m" !"mocked" None].
Definition sample_hooks : list (Hook Z unit * unit) := [(HookBase, tt); (counter_hook, tt)].
Definition serve_sample : Process Z unit :=
  (Serve reliable_env sample_network 0 0 sample_listeners sample_hooks (NewProcess reliable_env 7)).2.
