(* ===== verification/Shutdown.v ===== *)
(** * Shutdown (server.go, Close)

    Closing a server stops every connection it handles, ends every listener,
    and stops the hooks, and then returns. *)
From S2P Require Import Prelude Codes Effects Codec FixedHeader Properties Packets Wire Topics TopicsFacts Aliases Inflight InflightFacts System Clients Json JsonCodec Storage HookChain ClientIO ClientIOFacts ClientFacts Publish PublishFacts Delivery Server Sessions SysTopics Frames ServerFacts Broker Connection HookFacts Restore Listeners AcceptLoop Lifecycle LifecycleFacts.

(** ** Steps along a relation

    [evolves R m]: whatever [m] returns, its state is [R]-related to the one it
    began in. *)
Definition evolves {S A} (R : S -> S -> Prop) (m : GoM S A) : Prop := forall s, R s (m s).2.

Section Evolves.
Context {S : Type} (R : S -> S -> Prop) {HR : PreOrder R}.

Lemma evolves_ret {A} (a : A) : evolves R (mret a).
Proof. intros s. reflexivity. Qed.

Lemma evolves_bind {A B} (m : GoM S A) (k : A -> GoM S B) :
  evolves R m -> (forall a, evolves R (k a)) -> evolves R (m ≫= k).
Proof.
  intros Hm Hk s. specialize (Hm s). unfold mbind, GoM_bind. destruct (m s) as [[a|err| |] s']; try done.
  etrans; [exact Hm|apply Hk].
Qed.

Lemma evolves_when b (m : GoM S unit) : evolves R m -> evolves R (when b m).
Proof. destruct b; [done|]. intros _. apply evolves_ret. Qed.

Lemma evolves_finally {A} cleanup (m : GoM S A) :
  (forall s, R s (cleanup s)) -> evolves R m -> evolves R (finally cleanup m).
Proof. intros Hc Hm s. specialize (Hm s). unfold finally. destruct (m s) as [r s']. by etrans; [|apply Hc]. Qed.

Lemma evolves_frames {A X} (f : S -> X) (m : GoM S A) :
  (forall s s', f s' = f s -> R s s') -> frames f m -> evolves R m.
Proof. intros Hf Hm s. apply Hf, Hm. Qed.

Lemma wp_evolves {A} (m : GoM S A) s Q : evolves R m -> wp m s Q -> wp m s (fun r s' => Q r s' /\ R s s').
Proof. intros Hm. specialize (Hm s). unfold wp. by destruct (m s) as [[a|err| |] s']. Qed.
End Evolves.

(** ** Clients wind down

    A client keeps its listener, one that was stopped stays as it was stopped,
    and none opens again. [closable] is a client that is closed or can be
    stopped: [Stop] acts once. *)
Definition closable (cl : Client) : Prop := Client_Closed cl = true \/ st_ended (cl_State cl) = false.
Definition winds (cl cl' : Client) : Prop :=
  net_Listener (cl_Net cl') = net_Listener (cl_Net cl) /\
  (st_ended (cl_State cl) = true -> life cl' = life cl) /\
  (Client_Closed cl = true -> Client_Closed cl' = true) /\
  (closable cl -> closable cl').
Definition winding (s s' : Server) : Prop :=
  forall a cl, sv_store s !! a = Some cl -> exists cl', sv_store s' !! a = Some cl' /\ winds cl cl'.

Lemma life_fields cl cl' : life cl' = life cl ->
  net_Listener (cl_Net cl') = net_Listener (cl_Net cl) /\ st_ended (cl_State cl') = st_ended (cl_State cl) /\
  st_open (cl_State cl') = st_open (cl_State cl).
Proof. unfold life. intros E. by injection E. Qed.

Lemma winds_life cl cl' : life cl' = life cl -> winds cl cl'.
Proof.
  intros E. destruct (life_fields _ _ E) as (E1 & E2 & E3). unfold winds, closable, Client_Closed. by rewrite E1, E2, E3.
Qed.

#[export] Instance winds_preorder : PreOrder winds.
Proof.
  split; [intros cl; by apply winds_life|]. intros c1 c2 c3 (A1 & A2 & A3 & A4) (B1 & B2 & B3 & B4). split_and!; [congruence| |auto..].
  intros H. specialize (A2 H). destruct (life_fields _ _ A2) as (_ & E & _). rewrite B2; [done|congruence].
Qed.

#[export] Instance winding_preorder : PreOrder winding.
Proof.
  split; [intros s a cl H; by exists cl|]. intros s1 s2 s3 H12 H23 a cl Ha.
  destruct (H12 a cl Ha) as (cl2 & Ha2 & W12), (H23 a cl2 Ha2) as (cl3 & Ha3 & W23). exists cl3. split; [done|by etrans].
Qed.

Lemma cores_winding s s' : cores s' = cores s -> winding s s'.
Proof.
  intros E a cl Ha. unfold cores in E. injection E as E _.
  assert (H : (core <$> sv_store s') !! a = Some (core cl)) by (rewrite E, lookup_fmap, Ha; done).
  rewrite lookup_fmap in H. apply fmap_Some in H as (cl' & Ha' & Ec). exists cl'. split; [done|].
  apply winds_life. exact (eq_sym (f_equal (snd ∘ fst) Ec)).
Qed.

Lemma Client_Stop_winds now err cl : winds cl (Client_Stop now err cl).
Proof.
  unfold Client_Stop. destruct (st_ended (cl_State cl)) eqn:E; [done|]. split_and!; [done|congruence|done|by left].
Qed.

Lemma store_winding s s' : sv_store s' = sv_store s -> winding s s'.
Proof. intros E a cl Ha. exists cl. by rewrite E. Qed.

Section Winding.
Context (e : Env) {RO : RangeOrder}.

Lemma winding_on_client {A} a (m : GoM ClientView A) :
  (forall cv, winds (cv_client cv) (cv_client (m cv).2)) -> evolves winding (on_client a m).
Proof.
  intros Hm s. unfold on_client, zoom, client_view. destruct (sv_store s !! a) as [cl|] eqn:E; cbn [mbind option_bind]; [|done].
  specialize (Hm (mkClientView cl (sv_Info s) (sv_events s))). destruct (m _) as [r cv]. cbn [snd] in *.
  intros x c Hx. change (sv_store (set_view a cv s)) with (<[a := cv_client cv]> (sv_store s)).
  destruct (decide (x = a)) as [->|Hne]; [|exists c; by rewrite lookup_insert_ne].
  rewrite lookup_insert_eq. eexists. split; [done|]. by simplify_eq.
Qed.

Lemma winding_stop a err : evolves winding (on_client a (stop e err)).
Proof. apply winding_on_client. intros cv. apply Client_Stop_winds. Qed.

Lemma winding_stop_client a s : winding s (stop_client e a s).
Proof.
  intros x cl Hx. change (sv_store (stop_client e a s)) with (alter (Client_Stop (ev_now e) None) a (sv_store s)).
  destruct (decide (x = a)) as [->|Hne]; [|exists cl; by rewrite lookup_alter_ne].
  rewrite lookup_alter_eq, Hx. eexists. split; [done|]. apply Client_Stop_winds.
Qed.

Lemma evolves_cores {A} (m : GoM Server A) : frames cores m -> evolves winding m.
Proof. apply evolves_frames, cores_winding. Qed.

Lemma winding_end_session a err : evolves winding (end_session e a err).
Proof.
  unfold end_session. apply evolves_bind; [apply _| |intros _].
  { destruct err; [apply evolves_bind; [apply _|apply evolves_cores; eauto with frames|intros _; apply winding_stop]|].
    apply winding_on_client. intros cv. by apply winds_life. }
  apply evolves_bind; [apply _|apply evolves_cores; eauto with frames|intros cl]. cbv zeta.
  apply evolves_bind; [apply _|apply evolves_cores; eauto with frames|intros _].
  apply evolves_bind; [apply _| |intros _; apply evolves_cores; by destruct err].
  apply evolves_when; [apply _|]. apply evolves_bind; [apply _|apply evolves_cores; eauto with frames|intros _].
  apply evolves_bind; [apply _|apply evolves_cores; eauto with frames|intros _]. intros s. by apply store_winding.
Qed.

Lemma winding_attach_end a err : evolves winding (attach_end e a err).
Proof.
  apply evolves_finally; [apply _|apply winding_stop_client|]. apply evolves_finally; [apply _| |apply winding_end_session].
  intros s. by apply store_winding.
Qed.
End Winding.

(** ** Closing the clients of a listener *)

Lemma Client_Stop_life now err cl cl' : core cl' = core cl -> life (Client_Stop now err cl') = life (Client_Stop now err cl).
Proof.
  destruct cl as [? [] [] ?], cl' as [? [] [] ?]. unfold core, identity, life, Client_Stop. cbn. intros E. simplify_eq.
  by match goal with |- context [if ?b then _ else _] => destruct b end.
Qed.

(** [cl'] is [cl] stopped, if it was open, because the server shuts down. *)
Definition shut (cl cl' : Client) : Prop :=
  Client_Closed cl' = true /\
  (Client_Closed cl = false ->
   st_ended (cl_State cl') = true /\ st_stopCause (cl_State cl') = Some (ECode ErrServerShuttingDown)).

Lemma shut_winds cl cl1 cl2 : shut cl cl1 -> winds cl1 cl2 -> shut cl cl2.
Proof.
  intros [H1 H2] (W1 & W2 & W3 & _). split; [auto|]. intros Hn. destruct (H2 Hn) as [He Hc]. specialize (W2 He).
  unfold life in W2. injection W2 as _ _ E3 _ E5. split; congruence.
Qed.

Section Closing.
Context (e : Env) (He : env_ok e) {RO : RangeOrder}.
Context (Hactive : co_PassiveClientDisconnect (ca_Compatibilities (ev_Capabilities e)) = false).

Lemma DisconnectClient_stops code cv :
  view_ok e cv ->
  wp (DisconnectClient e code) cv (fun _ cv' =>
    life (cv_client cv') = life (Client_Stop (ev_now e) (Some (ECode code)) (cv_client cv))).
Proof.
  intros Hcv. unfold DisconnectClient. cbv zeta. rewrite Hactive. cbn [negb]. apply wp_bind, wp_attempt.
  eapply wp_mono; [apply (wp_frame view_core); [apply frames_WritePacket|by apply keeps_WritePacket]|].
  intros r cv1 [Hcv1 E1]. apply wp_bind. unfold wp at 1. cbn.
  assert (E2 : life (Client_Stop (ev_now e) (Some (ECode code)) (cv_client cv1)) =
               life (Client_Stop (ev_now e) (Some (ECode code)) (cv_client cv))) by by apply Client_Stop_life.
  destruct (_ <=? _); [apply wp_throw; exact E2|]. destruct r; [apply wp_ret|apply wp_throw]; exact E2.
Qed.

Lemma stop_shut now cl cl' :
  closable cl -> life cl' = life (Client_Stop now (Some (ECode ErrServerShuttingDown)) cl) -> shut cl cl'.
Proof.
  destruct cl as [? [] [] ?], cl' as [? [] [] ?]. unfold closable, shut, Client_Closed, Client_Stop, life. cbn. intros Hc.
  destruct st_ended; cbn; intros E; simplify_eq; [|done]. split; [by destruct Hc|]. intros Ho. destruct Hc; congruence.
Qed.

Lemma DisconnectClient_shut a s cl :
  live e [a] s -> sv_store s !! a = Some cl -> closable cl ->
  wp (ignore (on_client a (DisconnectClient e ErrServerShuttingDown))) s (fun r s' => r = inl tt /\
    server_ok e s' /\ winding s s' /\ sv_Clients s' = sv_Clients s /\
    (forall b, b <> a -> sv_store s' !! b = sv_store s !! b) /\
    exists cl', sv_store s' !! a = Some cl' /\ shut cl cl').
Proof.
  intros Hs Ha Hc. apply wp_ignore.
  assert (Hcv : view_ok e (mkClientView cl (sv_Info s) (sv_events s))) by exact (so_clients e s (proj1 Hs) a cl Ha).
  pose proof (keeps_on_client e [a] a (DisconnectClient e ErrServerShuttingDown) ltac:(by left) ltac:(by apply keeps_DisconnectClient) s Hs) as Hk.
  pose proof (wp_on_client _ a _ s cl (fun _ s' => exists cl', only_client a s cl' s' /\ shut cl cl' /\ winds cl cl') Ha
    (DisconnectClient_stops ErrServerShuttingDown _ Hcv)) as Hw.
  eapply wp_mono; [apply wp_and; [exact Hk|apply Hw]|].
  - intros r cv' s' E Ho. exists (cv_client cv'). split; [done|]. cbn in E. split; [by eapply stop_shut|].
    etrans; [apply Client_Stop_winds|by apply winds_life].
  - intros r s' [Hs' (cl' & (i & ev & ->) & Hsh & Hwd)]. split; [done|]. split; [apply Hs'|].
    change (sv_store (s <| sv_store ::= <[a := cl']> |> <| sv_Info := i |> <| sv_events := ev |>)) with (<[a := cl']> (sv_store s)).
    split_and!; [|done|intros b Hb; by rewrite lookup_insert_ne|exists cl'; by rewrite lookup_insert_eq].
    intros x c Hx. change (sv_store (s <| sv_store ::= <[a := cl']> |> <| sv_Info := i |> <| sv_events := ev |>)) with (<[a := cl']> (sv_store s)).
    destruct (decide (x = a)) as [->|Hne]; [|exists c; by rewrite lookup_insert_ne].
    rewrite lookup_insert_eq. eexists. split; [done|]. by simplify_eq.
Qed.

(** All clients of a list, which may name one twice. *)
Lemma close_each l s :
  live e l s -> (forall a cl, a ∈ l -> sv_store s !! a = Some cl -> closable cl) ->
  wp (for_each l (fun a => ignore (on_client a (DisconnectClient e ErrServerShuttingDown)))) s (fun r s' => r = inl tt /\
    server_ok e s' /\ winding s s' /\ sv_Clients s' = sv_Clients s /\
    (forall b, b ∉ l -> sv_store s' !! b = sv_store s !! b) /\
    forall a cl, a ∈ l -> sv_store s !! a = Some cl -> exists cl', sv_store s' !! a = Some cl' /\ shut cl cl').
Proof.
  induction l as [|a l IH] in s |- *; intros Hs Hc; cbn [for_each].
  - apply wp_ret. split_and!; [done|apply Hs|done|done|done|]. by intros a cl ?%elem_of_nil.
  - destruct (proj2 Hs a) as [cl Ha]; [by left|]. apply wp_bind.
    eapply wp_mono; [apply (DisconnectClient_shut a s cl); [|done|apply (Hc a cl); [by left|done]]|].
    { split; [apply Hs|]. by intros x ->%list_elem_of_singleton. }
    intros r s1 (-> & Hs1 & W1 & E1 & Ho & cl1 & Ha1 & Hsh1). eapply wp_mono; [apply IH|].
    + split; [done|]. intros x Hx. destruct (proj2 Hs x) as [c Hxc]; [by right|]. destruct (W1 x c Hxc) as (c' & ? & _). eauto.
    + intros x c Hx Hxc. destruct (decide (x = a)) as [->|Hne].
      * left. simplify_eq. apply Hsh1.
      * rewrite Ho in Hxc by done. by eapply Hc; [right|].
    + intros r s2 (-> & Hs2 & W2 & E2 & Hrest & Hall). split_and!; [done|done|by etrans|congruence| |].
      { intros b [Hb1 Hb2]%not_elem_of_cons. by rewrite Hrest, Ho. }
      intros x c Hx Hxc. destruct (decide (x = a)) as [->|Hne].
      * destruct (W2 a cl1 Ha1) as (cl2 & Ha2 & W). exists cl2. split; [done|]. simplify_eq. by eapply shut_winds.
      * apply Hall; [by apply elem_of_cons in Hx as [->|]|by rewrite Ho].
Qed.

(** From [s] to [s'] the known clients of the listeners that [listens] tells are
    shut, and those of the others are as they were. *)
Definition registered (s : Server) (a : nat) : Prop := exists id, sv_Clients s !! id = Some a.
Definition all_closable (s : Server) : Prop := forall a cl, registered s a -> sv_store s !! a = Some cl -> closable cl.
Record closes (listens : gostr -> Prop) (s s' : Server) : Prop := mkCloses {
  cs_ok : server_ok e s';
  cs_winding : winding s s';
  cs_clients : sv_Clients s' = sv_Clients s;
  cs_others : forall a cl, sv_store s !! a = Some cl -> ~ listens (net_Listener (cl_Net cl)) -> sv_store s' !! a = Some cl;
  cs_shut : forall a cl, registered s a -> sv_store s !! a = Some cl -> listens (net_Listener (cl_Net cl)) ->
    exists cl', sv_store s' !! a = Some cl' /\ shut cl cl';
}.

Lemma closeListenerClients_shuts listener s :
  server_ok e s -> all_closable s ->
  wp (closeListenerClients e listener) s (fun r s' => r = inl tt /\ closes (eq listener) s s').
Proof.
  intros Hs Hc. unfold closeListenerClients. apply wp_bind, wp_get_state. set (l := Clients_GetByListener _ _ _).
  assert (Hl : forall a, a ∈ l <-> (exists id, sv_Clients s !! id = Some a) /\ exists cl, sv_store s !! a = Some cl /\
    net_Listener (cl_Net cl) = listener /\ Client_Closed cl = false).
  { intros a. unfold l, Clients_GetByListener. rewrite list_elem_of_In, filter_In, <- list_elem_of_In, list_elem_of_fmap. split.
    - intros [([id x] & -> & Hx%elem_of_range) H]. split; [by exists id|]. cbn [snd] in *.
      destruct (sv_store s !! x) as [cl|]; [|done].
      apply andb_true_iff in H as [H1 H2]. exists cl. split_and!; [done|by destruct (str_eqb_spec (net_Listener (cl_Net cl)) listener)|by apply negb_true_iff].
    - intros [(id & Hid) (cl & Ha & Hn & Hcl)]. split; [exists (id, a); split; [done|by apply elem_of_range]|].
      by rewrite Ha, Hn, str_eqb_refl, Hcl. }
  eapply wp_mono; [apply close_each|].
  - split; [done|]. intros a (_ & cl & Ha & _)%Hl. eauto.
  - intros a cl (Hreg & _)%Hl Ha. by eapply Hc.
  - intros r s' (-> & Hs' & W & E & Hrest & Hall). split; [done|]. split; [done..| |].
    + intros a cl Ha Hn. rewrite Hrest; [done|]. intros (_ & cl2 & Ha2 & Hn2 & _)%Hl. simplify_eq.
    + intros a cl Hreg Ha Hn. destruct (Client_Closed cl) eqn:Ec.
      * destruct (W a cl Ha) as (cl' & Ha' & _ & _ & W3 & _). exists cl'. split; [done|]. split; [auto|congruence].
      * apply Hall; [|done]. apply Hl. eauto 10.
Qed.
End Closing.

(** ** The server and its hooks *)

(** The hooks return from what they are told. *)
Record hooks_return {W C} (h : HookSet W C) : Prop := mkHooksReturn {
  hr_tell : forall ev w, wp (tell h ev) w (fun _ _ => True);
  hr_stopped : forall w, wp (Hooks_OnStopped h) w (fun r _ => r = inl tt);
  hr_stop : Forall (fun hook => forall w, wp (h_Stop hook) w (fun _ _ => True)) (Hooks_GetAll h);
}.

Lemma wp_on_server {W C A} (h : HookSet W C) (m : GoM Server A) s w (Q : A + error -> Server -> Prop) :
  hooks_return h -> wp m s Q -> wp (on_server h m) (s, w) (fun r sw => Q r sw.1).
Proof.
  intros Hh Hm. unfold wp, on_server in *. cbn [fst snd]. destruct (m s) as [r s'] eqn:Em.
  assert (Ht : wp (for_each (drop (length (sv_events s)) (sv_events s')) (tell h)) w (fun _ _ => True)).
  { apply wp_for_each with (I := fun _ => True); [done| |done]. intros ev w' _ _. apply (hr_tell h Hh). }
  unfold wp in Ht. destruct (for_each _ (tell h) w) as [[[]|err| |] w']; try done; by destruct r.
Qed.

Section Listeners.
Context (e : Env) (He : env_ok e) {RO : RangeOrder} {W C : Type} (h : HookSet W C) (Hh : hooks_return h).
Context (Hactive : co_PassiveClientDisconnect (ca_Compatibilities (ev_Capabilities e)) = false).
Let closer (id : gostr) : GoM (Server * W) unit := on_server h (closeListenerClients e id).

Lemma all_closable_winding s s' :
  server_ok e s -> winding s s' -> sv_Clients s' = sv_Clients s -> all_closable s -> all_closable s'.
Proof.
  intros Hs HW E Hc a cl' [id Hid] Ha'. rewrite E in Hid. destruct (so_known e s Hs id a Hid) as [cl Ha].
  destruct (HW a cl Ha) as (cl2 & Ha2 & _ & _ & _ & W4). simplify_eq. apply W4. eapply Hc; [by exists id|done].
Qed.

Lemma closes_trans (P Q : gostr -> Prop) s1 s2 s3 :
  (forall x, P x -> ~ Q x) -> (forall x, Decision (P x)) -> closes e P s1 s2 -> closes e Q s2 s3 -> closes e (fun x => P x \/ Q x) s1 s3.
Proof.
  intros Hd Hdec [A1 A2 A3 A4 A5] [B1 B2 B3 B4 B5]. split; [done|by etrans|congruence| |].
  - intros a cl Ha Hn. apply B4; [apply A4; tauto|tauto].
  - intros a cl [id Hreg] Ha Hl. destruct (decide (P (net_Listener (cl_Net cl)))) as [HP|HP].
    + destruct (A5 a cl) as (cl1 & Ha1 & Hsh); [by exists id|done|done|].
      destruct (B2 a cl1 Ha1) as (cl2 & ? & ?). exists cl2. split; [done|by eapply shut_winds].
    + apply B5; [exists id; congruence|by apply A4|by destruct Hl].
Qed.

Lemma wp_Listeners_Close {T} (cl : gostr -> GoM T unit) (m : gmap gostr AnyListener) id l t Q :
  m !! id = Some l -> wp (li_Close cl) (l, t) (fun r lt => Q r (<[id := lt.1]> m, lt.2)) -> wp (Listeners_Close cl id) (m, t) Q.
Proof.
  intros El. unfold wp, Listeners_Close. cbn [fst snd]. rewrite El.
  by destruct (li_Close cl (l, t)) as [[[]|err| |] [l' t']].
Qed.

(** One listener after the other. *)
Lemma close_ids ids m s w :
  NoDup ids -> (forall id, id ∈ ids -> exists l, m !! id = Some l /\ li_ID l = id /\ li_ready l = true) ->
  server_ok e s -> all_closable s ->
  wp (for_each ids (Listeners_Close closer)) (m, (s, w)) (fun r mt => r = inl tt /\
    (forall id, id ∉ ids -> mt.1 !! id = m !! id) /\
    (forall id, id ∈ ids -> exists l, mt.1 !! id = Some l /\ li_stopped l = true) /\
    closes e (fun x => x ∈ ids) s mt.2.1).
Proof.
  induction ids as [|id ids IH] in m, s, w |- *; intros Hnd Hm Hs Hc; cbn [for_each].
  - apply wp_ret. cbn [fst snd]. split_and!; try done; [|split; try done]; intros; exfalso; by eapply elem_of_nil.
  - apply NoDup_cons in Hnd as [Hid Hnd]. destruct (Hm id) as (l & El & EID & Hr); [by left|].
    assert (Hcl : wp (closer (li_ID l)) (s, w) (fun r sw => r = inl tt /\ closes e (eq id) s sw.1)).
    { rewrite EID. apply (wp_on_server h _ _ _ (fun r s' => r = inl tt /\ closes e (eq id) s s')); [done|].
      by apply closeListenerClients_shuts. }
    destruct (ll_closed l Hr) as [Hst _].
    apply wp_bind. eapply wp_Listeners_Close; [exact El|]. eapply wp_mono; [exact (ll_close _ closer l (s, w) _ Hr Hcl)|].
    intros r [l' [s1 w1]] (-> & E' & H1). cbn [fst snd] in *. subst l'. pose proof (cs_ok _ _ _ _ H1) as Hs1.
    eapply wp_mono; [apply IH; [done| |done|exact (all_closable_winding s s1 Hs (cs_winding _ _ _ _ H1) (cs_clients _ _ _ _ H1) Hc)]|].
    { intros i Hi. rewrite lookup_insert_ne by (by intros ->). apply Hm. by right. }
    intros r [m2 [s2 w2]] (-> & Hrest & Hids & H2). cbn [fst snd] in *. split_and!; [done| | |].
    + intros i [Hi1 Hi2]%not_elem_of_cons. rewrite Hrest by done. by rewrite lookup_insert_ne.
    + intros i [->|Hi]%elem_of_cons; [|by apply Hids]. rewrite Hrest by done. rewrite lookup_insert_eq. by eexists.
    + destruct (closes_trans (eq id) (fun x => x ∈ ids) s s1 s2) as [K1 K2 K3 K4 K5]; [by intros x <-|apply _|done|done|].
      split; [done..| |].
      * intros a cl Ha Hn. apply K4; [done|]. intros [->|]; apply Hn; by constructor.
      * intros a cl Hreg Ha [Hn|Hn]%elem_of_cons; apply K5; try done; [by left|by right].
Qed.
End Listeners.

(** ** The process *)

Section Process.
Context (e : Env) (He : env_ok e) {RO : RangeOrder} {W C : Type}.
Context (Hactive : co_PassiveClientDisconnect (ca_Compatibilities (ev_Capabilities e)) = false).
Implicit Types p : Process W C.

(** Every connection that is being handled is closed, or known to the server
    and from a listener of the set. *)
Definition attached_ok p : Prop :=
  forall a, a ∈ pr_attached p -> exists cl, sv_store (pr_server p) !! a = Some cl /\
    (Client_Closed cl = true \/ registered (pr_server p) a /\ is_Some (pr_listeners p !! net_Listener (cl_Net cl))).

Lemma close_listeners_spec p :
  server_ok e (pr_server p) -> listeners_ok (pr_listeners p) -> hooks_return (pr_hooks p) -> all_closable (pr_server p) ->
  wp (close_listeners e) p (fun r p' => r = inl tt /\
    p' = p <| pr_listeners := pr_listeners p' |> <| pr_server := pr_server p' |> <| pr_world := pr_world p' |> /\
    dom (pr_listeners p') = dom (pr_listeners p) /\ map_Forall (fun _ l => li_stopped l = true) (pr_listeners p') /\
    closes e (fun x => is_Some (pr_listeners p !! x)) (pr_server p) (pr_server p')).
Proof.
  intros Hs Hl Hh Hc. unfold close_listeners, close_all.
  pose proof (close_ids e He (pr_hooks p) Hh Hactive (range (pr_listeners p)).*1 (pr_listeners p) (pr_server p) (pr_world p)) as H.
  assert (Hids : forall id, id ∈ (range (pr_listeners p)).*1 <-> is_Some (pr_listeners p !! id)).
  { intros id. rewrite list_elem_of_fmap. split.
    - intros ([k l] & -> & Hk%elem_of_range). by exists l.
    - intros [l Hid]. exists (id, l). split; [done|by apply elem_of_range]. }
  specialize (H (range_NoDup _)). specialize (H ltac:(intros id [l Hid]%Hids; destruct (Hl id l Hid); eauto) Hs Hc).
  unfold wp in *. unfold mbind, GoM_bind. cbn [get_state fst].
  destruct (for_each _ _ _) as [[[]|err| |] [m [s w]]]; try done; [|by destruct H]. destruct H as (_ & Hrest & Hst & [K1 K2 K3 K4 K5]).
  cbn [fst snd] in *. split_and!; [done|done| | |].
  - change (dom m = dom (pr_listeners p)). apply set_eq. intros id. rewrite !elem_of_dom. destruct (decide (id ∈ (range (pr_listeners p)).*1)) as [Hin|Hin].
    + destruct (Hst id Hin) as (l & -> & _). apply Hids in Hin. split; eauto.
    + by rewrite Hrest.
  - change (map_Forall (fun _ l => li_stopped l = true) m). intros id l Hid. destruct (decide (id ∈ (range (pr_listeners p)).*1)) as [Hin|Hin].
    + destruct (Hst id Hin) as (l' & Hid' & ?). by simplify_eq.
    + rewrite Hrest in Hid by done. exfalso. apply Hin, Hids. eauto.
  - split; [done..| |].
    + intros a cl Ha Hn. apply K4; [done|]. by rewrite Hids.
    + intros a cl Hreg Ha Hn. apply K5; [done|done|by apply Hids].
Qed.

Lemma filter_true {A} (P : A -> Prop) {_ : forall x, Decision (P x)} (l : list A) :
  (forall x, x ∈ l -> P x) -> base.filter P l = l.
Proof.
  induction l as [|x l IH]; intros H; [done|]. rewrite filter_cons_True by (apply H; by left). f_equal. apply IH. intros y Hy. apply H. by right.
Qed.

Lemma filter_not_elem (l : list nat) : base.filter (fun x => x ∉ l) l = [].
Proof. apply elem_of_nil_inv. by intros x [? ?]%list_elem_of_filter. Qed.

(** The other end of a connection. *)
Lemma attach_end_ok a err s : live e [a] s -> wp (attach_end e a err) s (fun _ => server_ok e).
Proof.
  intros Hs. apply wp_finally. eapply wp_mono; [|by intros r s'; apply stop_client_ok].
  apply wp_finally. eapply wp_mono; [|by intros r s'; apply count_connected_live]. apply (keeps_end_session e He [a]); [by left|done].
Qed.

(** [p] with the server and the world of [p'] and the connections [l]. *)
Definition after p p' (l : list nat) : Process W C :=
  mkProcess (pr_server p') (pr_world p') (pr_hooks p) (pr_listeners p) l (pr_serving p) (pr_loop p) (pr_done p).

Lemma end_connection_spec a err p :
  server_ok e (pr_server p) -> hooks_return (pr_hooks p) -> is_Some (sv_store (pr_server p) !! a) ->
  wp (end_connection e a err) p (fun r p' => r = inl tt /\
    p' = after p p' (base.filter (fun x => x <> a) (pr_attached p)) /\
    server_ok e (pr_server p') /\ winding (pr_server p) (pr_server p')).
Proof.
  intros Hs Hh Ha. unfold end_connection. apply wp_bind, wp_ignore. unfold in_server, wp at 1, on_both.
  assert (Hl : live e [a] (pr_server p)) by (split; [done|by intros x ->%list_elem_of_singleton]).
  pose proof (wp_on_server (pr_hooks p) _ _ (pr_world p) _ Hh (wp_evolves winding _ _ _ (winding_attach_end e a err) (attach_end_ok a err _ Hl))) as H.
  unfold wp in H. destruct (on_server _ _ _) as [[[]|err'| |] [s w]]; try done; destruct H as [H1 H2]; cbn [fst] in *;
    (split; [done|]; split; [by destruct p|]; done).
Qed.

(** The connections of a list, each of them closed, end. *)
Lemma wait_each read l p :
  server_ok e (pr_server p) -> hooks_return (pr_hooks p) ->
  (forall a, a ∈ l -> exists cl, sv_store (pr_server p) !! a = Some cl /\ Client_Closed cl = true) ->
  wp (for_each l (fun a =>
    p ← get_state;
    match sv_store (pr_server p) !! a with
    | Some cl => if Client_Closed cl then end_connection e a (read a) else call Diverge
    | None => panic
    end)) p (fun r p' => r = inl tt /\
    p' = after p p' (base.filter (fun x => x ∉ l) (pr_attached p)) /\
    server_ok e (pr_server p') /\ winding (pr_server p) (pr_server p')).
Proof.
  induction l as [|a l IH] in p |- *; intros Hs Hh Hl; cbn [for_each].
  - apply wp_ret. split; [done|]. split; [|done]. rewrite (filter_true (fun x => x ∉ [])) by (intros; apply not_elem_of_nil). by destruct p.
  - destruct (Hl a) as (cl & Ha & Hc); [by left|]. apply wp_bind, wp_bind, wp_get_state. rewrite Ha, Hc.
    eapply wp_mono; [by apply end_connection_spec; [..|exists cl]|].
    intros r p1 (-> & E1 & Hs1 & W1). eapply wp_mono; [apply IH; [done|by rewrite E1|]|].
    + intros x Hx. destruct (Hl x) as (c & Hxc & Hcc); [by right|]. destruct (W1 x c Hxc) as (c' & ? & _ & _ & ? & _). eauto.
    + intros r p2 (-> & E2 & Hs2 & W2). split; [done|]. split; [|split; [done|by etrans]].
      rewrite E2 at 1. rewrite E1 at 1 2.
      unfold after. cbn [pr_hooks pr_listeners pr_attached pr_serving pr_loop pr_done]. rewrite list_filter_filter. f_equal. apply list_filter_iff. intros x. rewrite not_elem_of_cons. tauto.
Qed.

Lemma wait_clients_spec read p :
  server_ok e (pr_server p) -> hooks_return (pr_hooks p) ->
  (forall a, a ∈ pr_attached p -> exists cl, sv_store (pr_server p) !! a = Some cl /\ Client_Closed cl = true) ->
  wp (wait_clients e read) p (fun r p' => r = inl tt /\ p' = after p p' [] /\
    server_ok e (pr_server p') /\ winding (pr_server p) (pr_server p')).
Proof.
  intros Hs Hh Ha. apply wp_bind, wp_get_state. eapply wp_mono; [by apply wait_each|]. intros r p'. by rewrite filter_not_elem.
Qed.

(** The clients that were attached are shut. *)
Definition clients_shut p p' : Prop :=
  forall a cl, a ∈ pr_attached p -> sv_store (pr_server p) !! a = Some cl ->
  exists cl', sv_store (pr_server p') !! a = Some cl' /\ shut cl cl'.

Lemma CloseAll_spec read p :
  server_ok e (pr_server p) -> listeners_ok (pr_listeners p) -> hooks_return (pr_hooks p) -> all_closable (pr_server p) ->
  attached_ok p ->
  wp (CloseAll e read) p (fun r p' => r = inl tt /\
    outside p' = (pr_hooks p, pr_listeners p', [], pr_serving p, pr_loop p, pr_done p) /\
    dom (pr_listeners p') = dom (pr_listeners p) /\ map_Forall (fun _ l => li_stopped l = true) (pr_listeners p') /\
    server_ok e (pr_server p') /\ winding (pr_server p) (pr_server p') /\ clients_shut p p').
Proof.
  intros Hs Hl Hh Hc Ha. apply wp_bind. eapply wp_mono; [by apply close_listeners_spec|].
  intros r p1 (-> & E1 & Hd & Hst & [K1 K2 K3 K4 K5]).
  assert (Hsh : clients_shut p p1).
  { intros a cl Hin Hacl. destruct (Ha a Hin) as (cl0 & Hacl0 & H). simplify_eq. destruct H as [Hcl|[Hreg Hli]]; [|by apply (K5 a cl)].
    destruct (K2 a cl Hacl) as (cl' & Ha' & _ & _ & W3 & _). exists cl'. split; [done|]. split; [auto|congruence]. }
  eapply wp_mono; [apply wait_clients_spec; [done|by rewrite E1|]|].
  - intros a Hin. assert (Hin' : a ∈ pr_attached p) by (rewrite E1 in Hin; exact Hin).
    destruct (Ha a Hin') as (cl & Hacl & _). destruct (Hsh a cl Hin' Hacl) as (cl' & ? & ? & _). eauto.
  - intros r p2 (-> & E2 & Hs2 & W2). split; [done|]. rewrite E2. split_and!.
    + rewrite E1. done.
    + exact Hd.
    + exact Hst.
    + exact Hs2.
    + by etrans.
    + intros a cl Hin Hacl. destruct (Hsh a cl Hin Hacl) as (cl1 & Ha1 & H1). destruct (W2 a cl1 Ha1) as (cl2 & Ha2 & Hw).
      exists cl2. split; [exact Ha2|by eapply shut_winds].
Qed.

(** Stopping the hooks, the last step. *)
Lemma stop_hooks p :
  hookset_ok (pr_hooks p) -> hooks_return (pr_hooks p) ->
  (in_hooks Hooks_OnStopped;; set_hooks Hooks_Stop) p =
    (Ok tt, p <| pr_hooks ::= fun h => h <| hs_wg := 0 |> |> <| pr_world := stopped (Hooks_GetAll (pr_hooks p)) (Hooks_OnStopped (pr_hooks p) (pr_world p)).2 |>).
Proof.
  intros [_ Hwg] [_ Hos Hst]. specialize (Hos (pr_world p)). unfold wp in Hos.
  unfold set_hooks, in_hooks, on_both, on_hooks, mbind, GoM_bind. cbn [fst snd].
  destruct (Hooks_OnStopped _ _) as [[[]|err| |] w]; try done. cbn [fst snd].
  change (pr_hooks (p <| pr_server := pr_server p |> <| pr_world := w |>)) with (pr_hooks p).
  change (pr_world (p <| pr_server := pr_server p |> <| pr_world := w |>)) with w.
  unfold Hooks_Stop, mbind, GoM_bind. rewrite stop_each_ok; [|done|unfold Hooks_GetAll; lia].
  unfold Hooks_GetAll. rewrite Hwg, Z.sub_diag. done.
Qed.

Lemma Close_first read p :
  pr_done p = false ->
  Close e read p = (CloseAll e read;; in_hooks Hooks_OnStopped;; set_hooks Hooks_Stop) (p <| pr_done := true |>).
Proof. intros Hd. unfold Close, mbind at 1, GoM_bind at 1. cbn [get_state]. by rewrite Hd. Qed.

Lemma Close_again read p : pr_done p = true -> Close e read p = (Panic, p).
Proof. intros Hd. unfold Close, mbind, GoM_bind. cbn [get_state]. by rewrite Hd. Qed.

(** What closing a server leaves: no connection is handled any more, every one
    that was open was stopped with the reason that the server shuts down, the
    set has the same listeners and each of them has ended, the event loop has
    ended, every hook was stopped once, in order, after [OnStopped]; and a
    second [Close] panics, on the channel [done]. *)
Record closed_down read p p' : Prop := mkClosedDown {
  cd_attached : pr_attached p' = [];
  cd_clients : clients_shut p p';
  cd_server : server_ok e (pr_server p');
  cd_listeners : dom (pr_listeners p') = dom (pr_listeners p);
  cd_stopped : map_Forall (fun _ l => li_stopped l = true) (pr_listeners p');
  cd_loop : loop_running p' = false;
  cd_wg : hs_wg (pr_hooks p') = 0;
  cd_hooks : exists w, pr_world p' = stopped (Hooks_GetAll (pr_hooks p)) (Hooks_OnStopped (pr_hooks p) w).2;
  cd_again : (Close e read p').1 = Panic;
}.

(** When the broker's invariant holds, every connection that is handled is
    closed or is known to the server under a listener of the set, and the hooks
    return, [Close] returns and has closed it all down. *)
Lemma server_shutdown read p :
  server_ok e (pr_server p) -> listeners_ok (pr_listeners p) -> pr_done p = false ->
  hookset_ok (pr_hooks p) -> hooks_return (pr_hooks p) -> all_closable (pr_server p) -> attached_ok p ->
  exists p', Close e read p = (Ok tt, p') /\ closed_down read p p'.
Proof.
  intros Hs Hl Hd Hho Hh Hc Ha. rewrite Close_first by done. set (q := p <| pr_done := true |>).
  pose proof (CloseAll_spec read q Hs Hl Hh Hc Ha) as H. unfold wp in H. unfold mbind at 1, GoM_bind at 1.
  destruct (CloseAll e read q) as [[[]|err| |] p1]; try done; [|by destruct H].
  destruct H as (_ & Eo & Hdom & Hst & Hs1 & _ & Hsh).
  unfold outside in Eo. injection Eo as Eh Eat Ese Elo Ed.
  pose proof (stop_hooks p1) as Hk. rewrite Eh in Hk. rewrite (Hk Hho Hh).
  eexists. split; [done|]. split; try done.
  - unfold loop_running. change (pr_loop p1 && negb (pr_done p1) = false). by rewrite Ed, andb_false_r.
  - exists (pr_world p1). done.
  - rewrite Close_again; [done|exact Ed].
Qed.
End Process.

(** ** A server with a client, shut down *)

Definition running_sample : Process Z unit :=
  serve_sample <| pr_server := session_sample |> <| pr_attached := [address_sample] |>.

Lemma counter_hooks_return h : hs_internal h = [HookBase; counter_hook] -> hooks_return h.
Proof.
  destruct h as [hooks n m]. cbn. intros ->. split.
  - intros ev w. by destruct ev.
  - by intros w.
  - repeat constructor; intros w; exact I.
Qed.

(** What the theorem assumes of the maps of a process, as a check. *)
Definition process_checked (p : Process Z unit) : bool :=
  bool_decide (map_Forall (fun id l => li_ID l = id /\ li_ready l = true) (pr_listeners p)) &&
  bool_decide (map_Forall (fun _ cl => st_ended (cl_State cl) = false) (sv_store (pr_server p))) &&
  forallb (fun a => match sv_store (pr_server p) !! a with
    | Some cl => bool_decide (is_Some (pr_listeners p !! net_Listener (cl_Net cl))) &&
        bool_decide (sv_Clients (pr_server p) !! cl_ID cl = Some a)
    | None => false end) (pr_attached p).

Lemma process_checked_ok p :
  process_checked p = true -> listeners_ok (pr_listeners p) /\ all_closable (pr_server p) /\ attached_ok p.
Proof.
  unfold process_checked. rewrite !andb_true_iff, !bool_decide_eq_true, forallb_forall. intros [[Hl Hc] Ha]. split_and!; [done| |].
  - intros a cl _ Hcl. right. exact (Hc a cl Hcl).
  - intros a Hin%list_elem_of_In%Ha. destruct (sv_store (pr_server p) !! a) as [cl|]; [|done]. exists cl. split; [done|]. right.
    rewrite andb_true_iff, !bool_decide_eq_true in Hin. destruct Hin as [H1 H2]. split; [|done]. by exists (cl_ID cl).
Qed.

Lemma server_shutdown_witness :
  exists p', Close reliable_env (fun _ => None) running_sample = (Ok tt, p') /\ pr_attached p' = [] /\
    (exists cl, sv_store (pr_server p') !! address_sample = Some cl /\ Client_Closed cl = true) /\
    dom (pr_listeners p') = {[!"tcp"; !"ws"; !"m"]} /\ pr_world p' = 1007 /\ loop_running p' = false.
Proof.
  assert (Hok : process_checked running_sample = true) by (vm_compute; reflexivity).
  apply process_checked_ok in Hok as (Hl & Hc & Ha).
  destruct (server_shutdown reliable_env reliable_env_ok eq_refl (fun _ => None) running_sample)
    as (p' & E & [H1 H2 _ H3 _ H4 _ [w Hw] _]); [|exact Hl|vm_compute; reflexivity|split; vm_compute; reflexivity| |exact Hc|exact Ha|].
  - apply (broker_reachable reliable_env); [exact reliable_env_ok|exact session_sample_reachable].
  - apply counter_hooks_return. vm_compute. reflexivity.
  - exists p'. split_and!; [exact E|exact H1| | | |exact H4].
    + destruct (sv_store (pr_server running_sample) !! address_sample) as [cl|] eqn:Ecl; [|vm_compute in Ecl; discriminate].
      destruct (H2 address_sample cl ltac:(by left) Ecl) as (cl' & ? & ? & _). eauto.
    + rewrite H3. vm_compute. reflexivity.
    + assert (Hw' : (snd (Close reliable_env (fun _ => None) running_sample)).(pr_world) = 1007) by (vm_compute; reflexivity).
      rewrite E in Hw'. exact Hw'.
Defined.

(** A connection from a listener that is not in the set, as [EstablishConnection]
    takes, is not closed, and [Close] waits for it. *)
Lemma Close_waits (p := running_sample <| pr_listeners ::= delete (!"tcp") |>) :
  (Close reliable_env (fun _ => None) p).1 = Diverge.
Proof. vm_compute. reflexivity. Qed.

(** A connection whose client was stopped and then expired ends its session late:
    it takes the newer client with its id out of the map, and a shutdown then
    waits for the newer connection. *)
Definition short_session : bytes :=
  [16; 20; 0; 4; 77; 81; 84; 84; 5; 2; 0; 60; 5; 17; 0; 0; 0; 0; 0; 2; 99; 49].
Definition late_env : Env := reliable_env <| ev_now ::= Z.add 10 |>.
Definition late_sample : Process Z unit :=
  let p := (begin_connection reliable_env !"tcp" !"peer" short_session serve_sample).2 in
  let a := default 0%nat (sv_Clients (pr_server p) !! (!"c1")) in
  let p := (in_server (on_client a (stop reliable_env None)) p).2 : Process Z unit in
  let p := (in_server (clearExpiredClients late_env (ev_now late_env)) p).2 : Process Z unit in
  let p := (begin_connection late_env !"tcp" !"peer" short_session p).2 in
  (end_connection late_env a None p).2.

Lemma late_end_forgets :
  (match sv_store (pr_server late_sample) !! 1%nat with Some cl => (Client_Closed cl, cl_ID cl) | None => (true, []) end) = (false, !"c1") /\
  pr_attached late_sample = [1%nat] /\ sv_Clients (pr_server late_sample) !! (!"c1") = None /\
  (Close late_env (fun _ => None) late_sample).1 = Diverge.
Proof. vm_compute. done. Qed.
