(* ===== verification/Startup.v ===== *)
(** * Starting a server (server.go, Serve)

    When [Serve] returns, everything that was configured runs; and it does
    return when the sockets open, the ids are distinct and the hooks start. *)
From S2P Require Import Prelude Codes Effects Codec FixedHeader Properties Packets Wire Topics TopicsFacts Aliases Inflight InflightFacts System Clients Json JsonCodec Storage HookChain ClientIO ClientIOFacts ClientFacts Publish PublishFacts Delivery Server Sessions SysTopics Frames ServerFacts Broker Connection ServerDelivery SysTopicsFacts HookFacts Restore Listeners AcceptLoop Lifecycle LifecycleFacts Shutdown.

(** ** Listeners *)

(** Every socket that is asked for opens. *)
Definition network_open (nw : Network) : Prop :=
  forall network address tls, exists so, nw_Listen nw network address tls = inl so.

Lemma listener_inits nw conf l :
  network_open nw -> listener_of conf = Some l -> exists l', li_Init nw l = (Ok tt, l').
Proof.
  intros Hnw. unfold listener_of. repeat case_match; intros [= <-]; try (eexists; reflexivity);
    cbn -[str_eqb]; unfold inject, TCP_Init, UnixSock_Init, mbind, GoM_bind; cbn;
    match goal with |- context [nw_Listen nw ?network ?address ?tls] => destruct (Hnw network address tls) as [so ->] end;
    by eexists.
Qed.

Section Startup.
Context (e : Env) (He : env_ok e) {RO : RangeOrder} {W C : Type}.
Implicit Types p : Process W C.

Lemma AddListenersFromConfig_succeeds nw configs p :
  network_open nw -> listeners_ok (pr_listeners p) ->
  NoDup (li_ID <$> omap listener_of configs) ->
  (forall id, id ∈ li_ID <$> omap listener_of configs -> pr_listeners p !! id = None) ->
  exists p', AddListenersFromConfig nw configs p = (Ok tt, p').
Proof.
  intros Hnw. unfold AddListenersFromConfig.
  induction configs as [|conf configs IH] in p |- *; intros Hok Hnd Hfree; [by eexists|].
  cbn [for_each omap list_omap] in *. destruct (listener_of conf) as [l|] eqn:El.
  2: { unfold mbind, GoM_bind. cbn [mret GoM_ret]. by apply IH. }
  cbn [fmap list_fmap] in *. apply NoDup_cons in Hnd as [Hl Hnd].
  destruct (listener_inits nw conf l Hnw El) as [l' Ei].
  assert (E1 : exists p1, AddListener nw l p = (Ok tt, p1)).
  { unfold AddListener, mbind, GoM_bind, get_state, Listeners_Get. rewrite Hfree by by left. rewrite Ei. by eexists. }
  destruct E1 as [p1 E1]. unfold mbind, GoM_bind. rewrite E1.
  apply AddListener_added in E1 as (Hnone & Hok1 & Hdom & _); [|by apply listener_of_new in El as [? _]|done].
  apply IH; [done|done|]. intros id Hid. apply not_elem_of_dom. rewrite Hdom, not_elem_of_union. split.
  - intros ->%elem_of_singleton. done.
  - apply not_elem_of_dom, Hfree. by right.
Qed.

(** ** Hooks *)

(** A hook that takes its configuration, keeps no store and starts. *)
Record starts (hook : Hook W C) (config : C) : Prop := mkStarts {
  st_opts : forall caps w, exists w', h_SetOpts hook caps w = (Ok tt, w');
  st_init : forall w, exists w', h_Init hook config w = (Ok tt, w');
  st_started : forall w, exists w', h_OnStarted hook w = (Ok tt, w');
  st_no_store : forall b, b ∈ stored_codes -> h_Provides hook b = false;
}.

Lemma AddHooksFromConfig_succeeds caps (hooks : list (Hook W C * C)) h w :
  Forall (fun hc => starts hc.1 hc.2) hooks -> exists h' w', AddHooksFromConfig caps h hooks w = (Ok h', w').
Proof.
  intros Hf. induction Hf as [|[hook c] hooks Hs Hf IH] in h, w |- *; [by eexists _, _|]. cbn [AddHooksFromConfig fst snd] in *.
  destruct (st_opts _ _ Hs caps w) as [w1 E1], (st_init _ _ Hs w1) as [w2 E2].
  unfold AddHook, Hooks_Add, in_context, mbind, GoM_bind. rewrite E1, E2. cbn [mret GoM_ret]. apply IH.
Qed.

Lemma Hooks_OnStarted_returns h w (hooks : list (Hook W C * C)) :
  Hooks_GetAll h = hooks.*1 -> Forall (fun hc => starts hc.1 hc.2) hooks -> exists w', Hooks_OnStarted h w = (Ok tt, w').
Proof.
  unfold Hooks_OnStarted, notify. intros -> Hf.
  induction Hf as [|[hook c] hooks Hs Hf IH] in w |- *; [by eexists|]. cbn [fmap list_fmap for_each fst] in *.
  unfold mbind, GoM_bind. destruct (h_Provides hook code_OnStarted); cbn [when]; [|apply IH].
  destruct (st_started _ _ Hs w) as [w1 ->]. apply IH.
Qed.

Lemma no_store h (hooks : list (Hook W C * C)) :
  Hooks_GetAll h = hooks.*1 -> Forall (fun hc => starts hc.1 hc.2) hooks -> Hooks_Provides h stored_codes = false.
Proof.
  unfold Hooks_Provides. intros -> Hf. induction Hf as [|[hook c] hooks Hs Hf IH]; [done|].
  cbn [fmap list_fmap existsb fst] in *. rewrite IH, orb_false_r.
  apply not_true_iff_false. intros (b & Hb%list_elem_of_In & Hp)%existsb_exists. by rewrite (st_no_store _ _ Hs b Hb) in Hp.
Qed.

Lemma ServeAll_succeeds (m : gmap gostr AnyListener) : exists ls, ServeAll m = Ok ls.
Proof.
  unfold ServeAll. assert (H : forall id, id ∈ (range m).*1 -> is_Some (m !! id)).
  { intros id ([k l] & -> & Hl%elem_of_range)%list_elem_of_fmap. by exists l. }
  revert H. generalize (range m).*1. intros ids. induction ids as [|id ids IH]; intros H; [by eexists|]. cbn [foldr].
  destruct (H id) as [l El]; [by left|]. destruct IH as [ls ->]; [intros i Hi; apply H; by right|].
  unfold Listeners_Serve. rewrite El. by eexists.
Qed.

(** Every listener of the set is served once. *)
Lemma ServeAll_all (m : gmap gostr AnyListener) ls :
  listeners_ok m -> ServeAll m = Ok ls -> map li_ID ls ≡ₚ elements (dom m).
Proof.
  intros Hok E. rewrite (ServeAll_ids m ls Hok E). apply NoDup_Permutation; [apply range_NoDup|apply NoDup_elements|].
  intros id. rewrite elem_of_elements, elem_of_dom, list_elem_of_fmap. split.
  - intros ([k l] & -> & Hl%elem_of_range). by exists l.
  - intros [l Hl]. exists (id, l). split; [done|]. by apply elem_of_range.
Qed.

(** ** A process that is not started yet *)

(** A new server, with listeners and with [hooks] that were added one by one. *)
Record ready (hooks : list (Hook W C * C)) p : Prop := mkReady {
  rd_server : pr_server p = New e;
  rd_listeners : listeners_ok (pr_listeners p);
  rd_hookset : hookset_ok (pr_hooks p);
  rd_hooks : Hooks_GetAll (pr_hooks p) = hooks.*1;
  rd_attached : pr_attached p = [];
  rd_done : pr_done p = false;
  rd_serving : pr_serving p = [];
}.

Lemma ready_new w : ready [] (NewProcess e w).
Proof. by split. Qed.

Lemma ready_listener nw l hooks p :
  li_new l = true -> (exists l', li_Init nw l = (Ok tt, l')) -> pr_listeners p !! li_ID l = None -> ready hooks p ->
  exists p', AddListener nw l p = (Ok tt, p') /\ ready hooks p' /\ dom (pr_listeners p') = {[ li_ID l ]} ∪ dom (pr_listeners p).
Proof.
  intros Hn [l' Ei] Hfree [H1 H2 H3 H4 H5 H6 H7].
  assert (E1 : exists p1, AddListener nw l p = (Ok tt, p1)).
  { unfold AddListener, mbind, GoM_bind, get_state, Listeners_Get. rewrite Hfree, Ei. by eexists. }
  destruct E1 as [p1 E1]. exists p1. split; [done|]. apply AddListener_added in E1 as (_ & Hok & Hd & Hp); [|done|done].
  split; [|done]. rewrite Hp. by split.
Qed.

Lemma ready_hook caps hook config hooks p :
  starts hook config -> Z.of_nat (length hooks) < 2 ^ 63 - 1 -> ready hooks p ->
  exists p', set_hooks (fun h => AddHook caps h hook config) p = (Ok tt, p') /\ ready (hooks ++ [(hook, config)]) p' /\
    pr_listeners p' = pr_listeners p.
Proof.
  intros Hs Hl [H1 H2 H3 H4 H5 H6 H7]. destruct (AddHooksFromConfig_succeeds caps [(hook, config)] (pr_hooks p) (pr_world p)) as (h & w & E).
  { by constructor. }
  assert (E1 : AddHook caps (pr_hooks p) hook config (pr_world p) = (Ok h, w)).
  { cbn [AddHooksFromConfig] in E. unfold mbind at 1, GoM_bind in E. destruct (AddHook _ _ _ _ _) as [[h1|err| |] w1]; done. }
  pose proof E1 as E2. apply AddHook_ok in E2 as [Ho Ei]; [|done|fold (Hooks_GetAll (pr_hooks p)); rewrite H4, length_fmap; lia].
  unfold set_hooks, in_hooks, on_both, on_hooks, mbind, GoM_bind. cbn [snd]. rewrite E1. eexists. split; [done|].
  split; [|done]. split; try done. change (hs_internal h = (hooks ++ [(hook, config)]).*1). unfold Hooks_GetAll in H4. by rewrite Ei, H4, fmap_app.
Qed.

(** ** The steps of [Serve] *)

Lemma listeners_step nw listeners hooks p :
  network_open nw -> NoDup (li_ID <$> omap listener_of listeners) ->
  (forall id, id ∈ li_ID <$> omap listener_of listeners -> pr_listeners p !! id = None) -> ready hooks p ->
  exists p1, when (0 <? length listeners)%nat (AddListenersFromConfig nw listeners) p = (Ok tt, p1) /\ ready hooks p1 /\
    dom (pr_listeners p1) = list_to_set (li_ID <$> omap listener_of listeners) ∪ dom (pr_listeners p).
Proof.
  intros Hnw Hnd Hfree [H1 H2 H3 H4 H5 H6 H7]. destruct (AddListenersFromConfig_succeeds nw listeners p) as [p1 E1]; [done..|].
  pose proof E1 as E1'. apply AddListenersFromConfig_added in E1' as (_ & _ & Hok & Hd & Hp); [|done].
  exists p1. split; [by destruct listeners|]. split; [|done]. rewrite Hp. by split.
Qed.

Lemma hooks_step caps (hooks new : list (Hook W C * C)) p :
  Forall (fun hc => starts hc.1 hc.2) new -> Z.of_nat (length (hooks ++ new)) < 2 ^ 63 -> ready hooks p ->
  exists p', when (0 <? length new)%nat (set_hooks (fun h => AddHooksFromConfig caps h new)) p = (Ok tt, p') /\
    ready (hooks ++ new) p' /\ pr_listeners p' = pr_listeners p.
Proof.
  intros Hf Hl Hr. destruct (AddHooksFromConfig_succeeds caps new (pr_hooks p) (pr_world p) Hf) as (h & w & E).
  destruct Hr as [H1 H2 H3 H4 H5 H6 H7]. pose proof E as E'. apply AddHooksFromConfig_ok in E' as [Ho Ei]; [|done|].
  2: { fold (Hooks_GetAll (pr_hooks p)). rewrite H4, length_fmap. rewrite length_app in Hl. lia. }
  destruct new as [|hc new]; [exists p; rewrite app_nil_r; by split_and!|].
  change (0 <? length (hc :: new))%nat with true. cbn [when]. unfold set_hooks, in_hooks, on_both, on_hooks, mbind, GoM_bind. cbn [snd]. rewrite E.
  eexists. split; [done|]. split; [|done]. split; try done. cbn. unfold Hooks_GetAll in *. by rewrite Ei, H4, fmap_app.
Qed.

Lemma publish_step memory threads p :
  server_ok e (pr_server p) -> distinct_clients (pr_server p) -> hooks_return (pr_hooks p) ->
  exists p', in_server (publishSysTopics e memory threads) p = (Ok tt, p') /\ outside p' = outside p /\
    pr_server p' = (publishSysTopics e memory threads (pr_server p)).2.
Proof.
  intros Hs Hd Hh. destruct (publishSysTopics_spec e He memory threads (pr_server p) Hs Hd) as (s' & E & _).
  assert (Hw : wp (on_server (pr_hooks p) (publishSysTopics e memory threads)) (pr_server p, pr_world p) (fun r sw => r = inl tt /\ sw.1 = s')).
  { apply (wp_on_server _ _ _ _ (fun r s => r = inl tt /\ s = s') Hh). unfold wp. by rewrite E. }
  unfold in_server, on_both. unfold wp in Hw. rewrite E. destruct (on_server _ _ _) as [[[]|err| |] [s w]]; try done; destruct Hw; [|done].
  eexists. by split_and!.
Qed.

Lemma New_distinct : distinct_clients (New e).
Proof.
  unfold distinct_clients, New. intros id id' a. destruct (op_InlineClient _).
  - change (sv_Clients _) with (<[InlineClientId := 0%nat]> (∅ : Clients)).
    intros [[<- _]|[_ H]]%lookup_insert_Some; [|by rewrite lookup_empty in H].
    intros [[<- _]|[_ H]]%lookup_insert_Some; [done|by rewrite lookup_empty in H].
  - change (sv_Clients _) with (∅ : Clients). intros H. by rewrite lookup_empty in H.
Qed.

(** What the start leaves. *)
Record served (memory threads : Z) (hooks : list (Hook W C * C)) (ids : gset gostr) p : Prop := mkServed {
  sd_server : pr_server p = (publishSysTopics e memory threads (New e)).2;
  sd_listeners : listeners_ok (pr_listeners p);
  sd_ids : dom (pr_listeners p) = ids;
  sd_serving : pr_serving p ≡ₚ elements ids;
  sd_hookset : hookset_ok (pr_hooks p);
  sd_hooks : Hooks_GetAll (pr_hooks p) = hooks.*1;
  sd_attached : pr_attached p = [];
  sd_loop : loop_running p = true;
}.

(** [Serve] in a process that is ready. *)
Lemma Serve_ready nw memory threads listeners (hooks new : list (Hook W C * C)) p :
  Z.of_nat (length (hooks ++ new)) < 2 ^ 63 ->
  network_open nw -> NoDup (li_ID <$> omap listener_of listeners) ->
  (forall id, id ∈ li_ID <$> omap listener_of listeners -> pr_listeners p !! id = None) ->
  Forall (fun hc => starts hc.1 hc.2) (hooks ++ new) -> (forall h, Hooks_GetAll h = (hooks ++ new).*1 -> hooks_return h) ->
  ready hooks p ->
  exists p', Serve e nw memory threads listeners new p = (Ok tt, p') /\
    served memory threads (hooks ++ new) (list_to_set (li_ID <$> omap listener_of listeners) ∪ dom (pr_listeners p)) p'.
Proof.
  intros Hlen Hnw Hnd Hfree Hst Hret Hr.
  destruct (listeners_step nw listeners hooks p Hnw Hnd Hfree Hr) as (p1 & E1 & R1 & Ed1).
  destruct (hooks_step (ev_Capabilities e) hooks new p1) as (p2 & E2 & [S2 L2 O2 G2 A2 D2 V2] & El2); [by apply Forall_app in Hst as [_ ?]|done|done|].
  destruct (ServeAll_succeeds (pr_listeners p2)) as [ls Els].
  set (p3 := p2 <| pr_loop := true |>). set (p4 := p3 <| pr_serving ::= fun l => l ++ map li_ID ls |>).
  destruct (publish_step memory threads p4) as (p5 & E5 & Eo5 & Es5).
  { change (server_ok e (pr_server p2)). rewrite S2. by apply New_ok. }
  { change (distinct_clients (pr_server p2)). rewrite S2. apply New_distinct. }
  { by apply Hret. }
  destruct (outside_fields _ _ Eo5) as (Eh5 & El5 & Ev5 & Ep5 & Ed5 & Ea5).
  destruct (Hooks_OnStarted_returns (pr_hooks p5) (pr_world p5) (hooks ++ new)) as [w6 E6]; [by rewrite Eh5|done|].
  assert (Els' : call (ServeAll (pr_listeners p2)) p3 = (Ok ls, p3)) by (unfold call; by rewrite Els).
  unfold Serve. rewrite (bind_run _ _ _ _ _ E1), (bind_run _ _ _ _ _ E2), (bind_run get_state _ p2 p2 p2 eq_refl), (no_store _ _ G2 Hst).
  rewrite (bind_run (when false _) _ p2 tt p2 eq_refl), (bind_run (modify (fun p => p <| pr_loop := true |>)) _ p2 tt p3 eq_refl).
  rewrite (bind_run _ _ _ _ _ Els'), (bind_run (modify _) _ p3 tt p4 eq_refl), (bind_run _ _ _ _ _ E5).
  unfold in_hooks, on_both, on_hooks. cbn [snd]. rewrite E6. eexists. split; [done|]. split.
  - change (pr_server p5 = (publishSysTopics e memory threads (New e)).2). rewrite Es5. change (pr_server p4) with (pr_server p2). by rewrite S2.
  - change (listeners_ok (pr_listeners p5)). by rewrite El5.
  - change (dom (pr_listeners p5) = list_to_set (li_ID <$> omap listener_of listeners) ∪ dom (pr_listeners p)).
    rewrite El5. change (pr_listeners p4) with (pr_listeners p2). by rewrite El2.
  - change (pr_serving p5 ≡ₚ elements (list_to_set (li_ID <$> omap listener_of listeners) ∪ dom (pr_listeners p))).
    rewrite Ev5, <- Ed1, <- El2. change (pr_serving p4) with (pr_serving p2 ++ map li_ID ls). rewrite V2.
    by apply ServeAll_all.
  - change (hookset_ok (pr_hooks p5)). by rewrite Eh5.
  - change (Hooks_GetAll (pr_hooks p5) = (hooks ++ new).*1). by rewrite Eh5.
  - change (pr_attached p5 = []). rewrite Ea5. exact A2.
  - change (pr_loop p5 && negb (pr_done p5) = true). rewrite Ep5, Ed5. change (true && negb (pr_done p2) = true). by rewrite D2.
Qed.

(** From a new process. *)
Lemma Serve_succeeds nw memory threads listeners (hooks : list (Hook W C * C)) w :
  Z.of_nat (length hooks) < 2 ^ 63 ->
  network_open nw -> NoDup (li_ID <$> omap listener_of listeners) -> Forall (fun hc => starts hc.1 hc.2) hooks ->
  (forall h, Hooks_GetAll h = hooks.*1 -> hooks_return h) ->
  exists p, Serve e nw memory threads listeners hooks (NewProcess e w) = (Ok tt, p) /\
    served memory threads hooks (list_to_set (li_ID <$> omap listener_of listeners)) p.
Proof.
  intros Hlen Hnw Hnd Hst Hret.
  destruct (Serve_ready nw memory threads listeners [] hooks (NewProcess e w)) as (p & E & H); [done..| |done|done|apply ready_new|].
  { intros id _. apply lookup_empty. }
  exists p. split; [done|]. cbn [app] in H. change (pr_listeners (NewProcess e w)) with (∅ : gmap gostr AnyListener) in H.
  by rewrite dom_empty_L, (right_id_L ∅ (∪)) in H.
Qed.

(** C18: Starting a server. When [Serve] returns without an error, everything that
    was configured runs: the listeners of a known type have distinct ids, are
    initialised, in the set and served, one goroutine each, the hooks are those
    of the configuration in its order, and the event loop runs. And when the
    sockets open, the ids are distinct and the hooks start and keep no store,
    [Serve] does return without an error. *)
Theorem serve_starts nw memory threads listeners (hooks : list (Hook W C * C)) w :
  Z.of_nat (length hooks) < 2 ^ 63 ->
  (forall p, Serve e nw memory threads listeners hooks (NewProcess e w) = (Ok tt, p) -> started listeners hooks p) /\
  (network_open nw -> NoDup (li_ID <$> omap listener_of listeners) -> Forall (fun hc => starts hc.1 hc.2) hooks ->
   (forall h, Hooks_GetAll h = hooks.*1 -> hooks_return h) ->
   exists p, Serve e nw memory threads listeners hooks (NewProcess e w) = (Ok tt, p) /\ started listeners hooks p).
Proof.
  intros Hlen. split; [intros p E; by eapply Serve_started|]. intros Hnw Hnd Hst Hret.
  destruct (Serve_succeeds nw memory threads listeners hooks w Hlen Hnw Hnd Hst Hret) as (p & E & _).
  exists p. split; [done|]. by eapply Serve_started.
Qed.
End Startup.

(** ** A server with three listeners and two hooks *)

Lemma sample_hooks_start : Forall (fun hc => starts hc.1 hc.2) sample_hooks.
Proof.
  repeat constructor; try (intros; by eexists); intros b Hb; repeat (apply elem_of_cons in Hb as [->|Hb]; [reflexivity|]);
    by apply elem_of_nil in Hb.
Qed.

Lemma serve_starts_witness :
  exists p, Serve reliable_env sample_network 0 0 sample_listeners sample_hooks (NewProcess reliable_env 7) = (Ok tt, p) /\
    dom (pr_listeners p) = {[!"tcp"; !"ws"; !"m"]} /\ pr_serving p ≡ₚ [!"tcp"; !"ws"; !"m"] /\
    Hooks_GetAll (pr_hooks p) = [HookBase; counter_hook] /\ loop_running p = true.
Proof.
  destruct (serve_starts reliable_env reliable_env_ok sample_network 0 0 sample_listeners sample_hooks 7) as [_ H]; [reflexivity|].
  destruct H as (p & E & _ & Hd & _ & Hs & Hg & _ & Hl).
  - intros network address tls. by eexists.
  - apply (bool_decide_unpack _). vm_compute. exact I.
  - exact sample_hooks_start.
  - intros h Hh. apply counter_hooks_return, Hh.
  - exists p. split_and!; [exact E|rewrite Hd; set_solver|exact Hs|exact Hg|exact Hl].
Defined.
