(* ===== verification/Takeover.v ===== *)
(** * Taking a session over (server.go, inheritClientSession)

    A client that connects under an id that is in use ends the older connection
    and takes its session: subscriptions and in-flight messages move to the new
    connection, or are dropped when either side asked for a clean session. *)
From S2P Require Import Prelude Codes Effects Codec FixedHeader Properties Packets Wire Topics TopicsFacts Aliases Inflight InflightFacts System Clients ClientIO ClientIOFacts ClientFacts Publish PublishFacts Server Sessions Frames ServerFacts Broker Delivery ServerDelivery Json JsonCodec Storage HookChain HookFacts Restore RestoreFacts Shutdown.

(** ** The session of a client *)

Definition session (cl : Client) :=
  (cl_ID cl, cl_Properties cl, st_Subscriptions (cl_State cl), cl_Inflight cl, st_isTakenOver (cl_State cl)).
Definition gauges (i : Info) : Z * Z := (in_Subscriptions i, in_Inflight i).
Definition view_session (cv : ClientView) := (session (cv_client cv), gauges (cv_Info cv)).

Lemma frames_session_client g : (forall cl, session (g cl) = session cl) -> frames view_session (set_client g).
Proof. intros H. apply frames_modify. intros cv. exact (f_equal (fun x => (x, gauges (cv_Info cv))) (H (cv_client cv))). Qed.

Lemma frames_session_info g : (forall i, gauges (g i) = gauges i) -> frames view_session (set_info g).
Proof. intros H. apply frames_modify. intros cv. exact (f_equal (pair (session (cv_client cv))) (H (cv_Info cv))). Qed.

Lemma frames_session_emit ev : frames view_session (emit ev).
Proof. by apply frames_modify. Qed.

Lemma frames_session_get : frames view_session get_client.
Proof. done. Qed.

Lemma frames_session_net g : frames view_session (set_net g).
Proof. by apply frames_session_client. Qed.

#[local] Hint Resolve frames_session_emit frames_session_get frames_session_net : frames.
#[local] Hint Extern 2 (frames view_session (set_client _)) => by apply frames_session_client : frames.
#[local] Hint Extern 2 (frames view_session (set_info _)) => by apply frames_session_info : frames.

(** An action on one client, by the view it leaves. *)
Lemma wp_on_view {A} (P : A + error -> ClientView -> Prop) a (m : GoM ClientView A) s cl Q :
  sv_store s !! a = Some cl -> wp m (mkClientView cl (sv_Info s) (sv_events s)) P ->
  (forall r cv, P r cv -> Q r (set_view a cv s)) -> wp (on_client a m) s Q.
Proof.
  intros Ha Hm HQ. unfold on_client.
  apply wp_zoom with (t := mkClientView cl (sv_Info s) (sv_events s)); [unfold client_view; by rewrite Ha|].
  eapply wp_mono; [exact Hm|]. exact HQ.
Qed.

Section Disconnecting.
Context (e : Env) {RO : RangeOrder}.

Lemma frames_session_WritePacket pk : frames view_session (WritePacket e pk).
Proof. unfold WritePacket, write_buffer, flushOutbuf, write_to. frames_go. Qed.
#[local] Hint Resolve frames_session_WritePacket : frames.

Lemma Client_Stop_session now err cl : session (Client_Stop now err cl) = session cl.
Proof. unfold Client_Stop. by destruct (st_ended (cl_State cl)). Qed.

(** Disconnecting a client leaves its session alone. *)
Lemma frames_session_DisconnectClient code : frames view_session (DisconnectClient e code).
Proof.
  unfold DisconnectClient. cbv zeta. frames_go. apply frames_session_client. intros cl. apply Client_Stop_session.
Qed.

(** What disconnecting does to the life of a client. *)
Definition disconnected (code : Code) (cl : Client) : Client :=
  if co_PassiveClientDisconnect (ca_Compatibilities (ev_Capabilities e)) then cl
  else Client_Stop (ev_now e) (Some (ECode code)) cl.

Context (He : env_ok e).

Lemma DisconnectClient_life code cv :
  view_ok e cv ->
  wp (DisconnectClient e code) cv (fun _ cv' => life (cv_client cv') = life (disconnected code (cv_client cv))).
Proof.
  intros Hcv. unfold disconnected. destruct (co_PassiveClientDisconnect _) eqn:Hp.
  2: { by apply DisconnectClient_stops. }
  unfold DisconnectClient. cbv zeta. rewrite Hp. cbn [negb]. apply wp_bind, wp_attempt.
  eapply wp_mono; [apply (wp_frame view_core); [apply frames_WritePacket|by apply keeps_WritePacket]|].
  intros r cv1 [_ E1]. apply (f_equal (snd ∘ fst)) in E1. destruct r; [apply wp_ret|apply wp_throw]; exact E1.
Qed.

Lemma disconnect_run code x s ex :
  server_ok e s -> sv_store s !! x = Some ex ->
  wp (ignore (on_client x (DisconnectClient e code))) s (fun r s' => r = inl tt /\
    exists cv, s' = set_view x cv s /\ life (cv_client cv) = life (disconnected code ex) /\
      session (cv_client cv) = session ex /\ gauges (cv_Info cv) = gauges (sv_Info s)).
Proof.
  intros Hs Hx. apply wp_ignore.
  eapply (wp_on_view (fun _ cv' => life (cv_client cv') = life (disconnected code ex) /\
    view_session cv' = (session ex, gauges (sv_Info s)))); [exact Hx| |].
  - eapply wp_mono; [apply (wp_frame view_session);
      [apply frames_session_DisconnectClient|apply DisconnectClient_life; exact (so_clients e s Hs x ex Hx)]|].
    intros r cv' [H1 H2]. by split.
  - intros r cv' [H1 H2]. split; [done|]. exists cv'. split_and!; [done|done|exact (f_equal fst H2)|exact (f_equal snd H2)].
Qed.
End Disconnecting.

(** ** Steps of the takeover *)

Definition put_client (a : nat) (cl : Client) (s : Server) : Server := s <| sv_store ::= <[a := cl]> |>.

Lemma set_client_run a g s cl :
  sv_store s !! a = Some cl -> on_client a (set_client g) s = (Ok tt, put_client a (g cl) s).
Proof. intros Ha. rewrite (on_client_run a _ s cl Ha). by destruct s. Qed.

(** [cl'] is [cl] without messages. *)
Definition emptied (cl cl' : Client) : Prop := exists i, cl' = with_inflight cl i /\ if_internal i = ∅.

Section Emptying.
Context {RO : RangeOrder}.

Lemma reset_loop l cv :
  for_each l (fun tk => inflight (fun i => Inflight_Delete i (pk_PacketID tk));; mret tt) cv =
    (Ok tt, cv <| cv_client ::= fun cl => with_inflight cl ((cl_Inflight cl) <| if_internal ::= fun m => foldl (fun m tk => delete (pk_PacketID tk) m) m l |>) |>).
Proof.
  induction l as [|tk l IH] in cv |- *; [by destruct cv as [[? ? ? []] ? ?]|].
  cbn [for_each]. unfold mbind, GoM_bind in *. unfold inflight at 1, Inflight_Delete at 1. cbn [mret GoM_ret]. by rewrite IH.
Qed.

Lemma delete_all (l : list Packet) (m : gmap Z Packet) :
  (forall id pk, m !! id = Some pk -> id ∈ pk_PacketID <$> l) -> foldl (fun m tk => delete (pk_PacketID tk) m) m l = ∅.
Proof.
  induction l as [|tk l IH] in m |- *; intros H; cbn [foldl].
  - apply map_empty. intros id. apply eq_None_not_Some. intros [pk Hpk]. by apply H, elem_of_nil in Hpk.
  - apply IH. intros id pk [Hne Hpk]%lookup_delete_Some. apply H in Hpk. by apply elem_of_cons in Hpk as [->|].
Qed.

(** [ResetInflights] drops the messages and counts nothing. *)
Lemma ResetInflights_empties cv :
  inflight_ok (cl_Inflight (cv_client cv)) ->
  exists cl', emptied (cv_client cv) cl' /\ ResetInflights cv = (Ok tt, cv <| cv_client := cl' |>).
Proof.
  intros Hok. unfold ResetInflights, mbind, GoM_bind, get_client.
  pose proof (reset_loop (Inflight_GetAll (cl_Inflight (cv_client cv)) false) cv) as E. unfold mbind, GoM_bind in E. rewrite E.
  eexists. split; [|by destruct cv]. eexists. split; [done|]. apply delete_all.
  intros id pk Hpk. destruct (io_ids _ Hok id pk Hpk) as [<- _]. apply list_elem_of_fmap. exists pk. split; [done|].
  rewrite (GetAll_all (cl_Inflight (cv_client cv))). apply list_elem_of_fmap. exists (pk_PacketID pk, pk). split; [done|].
  by apply elem_of_map_to_list.
Qed.
End Emptying.

(** ** Subscriptions *)

(** The subscriptions of a session are those the index has for its client. *)
Definition indexed (x : TopicsIndex) (id : gostr) (m : Subscriptions) : Prop :=
  forall f sub, m !! f = Some sub -> sub_Filter sub = f /\ subscription_of x f id = Some sub.

Lemma Unsubscribe_step x filter client :
  index_ok x -> is_Some (subscription_of x filter client) ->
  exists x', TopicsIndex_Unsubscribe x filter client = (true, x') /\ index_ok x' /\
    forall f c, subscription_of x' f c =
      if decide (same_slot f filter /\ c = client) then None else subscription_of x f c.
Proof.
  intros Hok Hs. pose proof (Unsubscribe_effect x filter client Hok) as E.
  destruct (TopicsIndex_Unsubscribe x filter client) as [found x']. destruct E as [Hf E].
  rewrite bool_decide_eq_true_2 in Hf by by eapply subscription_of_exists. subst found.
  exists x'. split_and!; [done|apply E|]. intros f c. by apply subscription_of_unsubscribe.
Qed.

(** The loop of [UnsubscribeClient]. *)
Definition unsubscribe_each (id : gostr) (kv : gostr * Subscription) : GoM Server unit :=
  q ← topics (fun x => TopicsIndex_Unsubscribe x kv.1 id);
  when q (count_subscriptions (-1)).

(** The server with the index [t] and [n] subscriptions counted. *)
Definition reindexed (t : TopicsIndex) (n : Z) (s : Server) : Server :=
  s <| sv_Topics := t |> <| sv_Info ::= fun i => i <| in_Subscriptions := n |> |>.

Lemma unsubscribe_all (l : list (gostr * Subscription)) id s :
  index_ok (sv_Topics s) -> NoDup l.*1 ->
  (forall k v, (k, v) ∈ l -> sub_Filter v = k /\ subscription_of (sv_Topics s) k id = Some v) ->
  is_i64 (in_Subscriptions (sv_Info s)) -> is_i64 (in_Subscriptions (sv_Info s) - Z.of_nat (length l)) ->
  exists t, for_each l (unsubscribe_each id) s =
    (Ok tt, reindexed t (in_Subscriptions (sv_Info s) - Z.of_nat (length l)) s) /\ index_ok t /\
    forall f c, subscription_of t f c =
      if decide (c = id /\ Exists (same_slot f) l.*1) then None else subscription_of (sv_Topics s) f c.
Proof.
  induction l as [|[k v] l IH] in s |- *; intros Hok Hnd Hl Hi Hi'.
  - exists (sv_Topics s). split_and!; [|done|].
    + destruct s as [? ? ? [] ? ? ?]. cbn. unfold reindexed. cbn. by rewrite Z.sub_0_r.
    + intros f c. rewrite decide_False; [done|]. intros [_ H]. by apply Exists_nil in H.
  - apply NoDup_cons in Hnd as [Hk Hnd]. destruct (Hl k v) as [Ev Ek]; [by left|].
    destruct (Unsubscribe_step (sv_Topics s) k id Hok ltac:(by eexists)) as (x & Ex & Hx & Hsub).
    set (s1 := s <| sv_Topics := x |> <| sv_Info ::= fun i => i <| in_Subscriptions ::= add64 (-1) |> |>).
    assert (E1 : in_Subscriptions (sv_Info s1) = in_Subscriptions (sv_Info s) - 1).
    { change (to_i64 (in_Subscriptions (sv_Info s) + -1) = in_Subscriptions (sv_Info s) - 1).
      cbn [length] in Hi'. rewrite to_i64_id; unfold is_i64 in *; lia. }
    destruct (IH s1) as (t & Et & Ht & Hts); [done|done| | | |].
    + intros k2 v2 H2. destruct (Hl k2 v2) as [Ev2 Ek2]; [by right|]. split; [done|].
      change (subscription_of x k2 id = Some v2). rewrite Hsub, decide_False; [done|]. intros [Hs _]. apply Hk.
      rewrite (subscription_of_slot _ _ _ _ Hs), Ek in Ek2. simplify_eq. apply list_elem_of_fmap. by eexists (_, v2).
    + rewrite E1. unfold is_i64 in *. cbn [length] in Hi'. lia.
    + rewrite E1. unfold is_i64 in *. cbn [length] in Hi'. lia.
    + exists t. split_and!; [|done|].
      * assert (Eb : unsubscribe_each id (k, v) s = (Ok tt, s1)).
        { unfold unsubscribe_each. rewrite (bind_run _ _ s true (s <| sv_Topics := x |>)); [done|].
          unfold topics. cbn [fst]. by rewrite Ex. }
        assert (En : in_Subscriptions (sv_Info s1) - Z.of_nat (length l) = in_Subscriptions (sv_Info s) - Z.of_nat (length ((k, v) :: l)))
          by (rewrite E1; cbn [length]; lia).
        cbn [for_each]. rewrite (bind_run _ _ _ _ _ Eb), Et.
        exact (f_equal (fun n => (Ok tt, reindexed t n s)) En).
      * intros f c. rewrite Hts. change (sv_Topics s1) with x. rewrite Hsub, fmap_cons. cbn [fst].
        destruct (decide (c = id /\ Exists (same_slot f) l.*1)) as [[-> H]|H].
        -- rewrite decide_True; [done|]. split; [done|by right].
        -- apply decide_ext. rewrite Exists_cons. tauto.
Qed.

Definition with_subs (cl : Client) (m : Subscriptions) : Client :=
  cl <| cl_State := (cl_State cl) <| st_Subscriptions := m |> |>.

Section Unsubscribing.
Context {RO : RangeOrder}.

Lemma delete_keys (l : list gostr) (m : Subscriptions) :
  (forall f v, m !! f = Some v -> f ∈ l) -> fold_left Subscriptions_Delete l m = ∅.
Proof.
  induction l as [|k l IH] in m |- *; intros H; cbn [fold_left].
  - apply map_empty. intros f. apply eq_None_not_Some. intros [v Hv]. by apply H, elem_of_nil in Hv.
  - apply IH. intros f v Hv. apply (lookup_delete_Some m) in Hv as [Hne Hv]. apply H in Hv.
    by apply elem_of_cons in Hv as [->|].
Qed.

Lemma delete_range (m : Subscriptions) : fold_left Subscriptions_Delete (range m).*1 m = ∅.
Proof.
  apply delete_keys. intros f v H%elem_of_range. apply list_elem_of_fmap. by exists (f, v).
Qed.

Lemma clear_subs a s cl :
  sv_store s !! a = Some cl ->
  on_client a (set_client (fun c => c <| cl_State ::= fun st =>
    st <| st_Subscriptions ::= fun m => fold_left Subscriptions_Delete (range (st_Subscriptions (cl_State cl))).*1 m |> |>)) s =
  (Ok tt, put_client a (with_subs cl ∅) s).
Proof.
  intros Ha. rewrite (set_client_run a _ s cl Ha).
  exact (f_equal (fun m => (Ok tt, put_client a (with_subs cl m) s)) (delete_range (st_Subscriptions (cl_State cl)))).
Qed.

(** The client of a session that was taken over keeps nothing, the index everything. *)
Lemma UnsubscribeClient_taken a s cl :
  sv_store s !! a = Some cl -> st_isTakenOver (cl_State cl) = true ->
  UnsubscribeClient a s = (Ok tt, put_client a (with_subs cl ∅) s).
Proof.
  intros Ha Ht. unfold UnsubscribeClient. rewrite (bind_run _ _ _ _ _ (look a s cl Ha)). cbv zeta.
  rewrite (bind_run _ _ _ _ _ (clear_subs a s cl Ha)). unfold Client_IsTakenOver. by rewrite Ht.
Qed.

Lemma UnsubscribeClient_all a s cl :
  sv_store s !! a = Some cl -> st_isTakenOver (cl_State cl) = false ->
  index_ok (sv_Topics s) -> indexed (sv_Topics s) (cl_ID cl) (st_Subscriptions (cl_State cl)) ->
  is_i64 (in_Subscriptions (sv_Info s)) ->
  is_i64 (in_Subscriptions (sv_Info s) - Z.of_nat (size (st_Subscriptions (cl_State cl)))) ->
  exists s', UnsubscribeClient a s = (Ok tt, s') /\
    sv_store s' = <[a := with_subs cl ∅]> (sv_store s) /\ sv_Clients s' = sv_Clients s /\
    gauges (sv_Info s') = (in_Subscriptions (sv_Info s) - Z.of_nat (size (st_Subscriptions (cl_State cl))), in_Inflight (sv_Info s)) /\
    forall f c, subscription_of (sv_Topics s') f c =
      if decide (c = cl_ID cl /\ Exists (same_slot f) (range (st_Subscriptions (cl_State cl))).*1) then None
      else subscription_of (sv_Topics s) f c.
Proof.
  set (m := st_Subscriptions (cl_State cl)). intros Ha Ht Hok Hx Hi Hi'.
  assert (El : length (range m) = size m) by (by rewrite range_perm, length_map_to_list).
  set (s1 := put_client a (with_subs cl ∅) s).
  destruct (unsubscribe_all (range m) (cl_ID cl) s1) as (t & Et & _ & Hsub); [done|apply range_NoDup| |done|by rewrite El|].
  { intros k v Hkv%elem_of_range. by apply Hx. }
  unfold UnsubscribeClient. rewrite (bind_run _ _ _ _ _ (look a s cl Ha)). cbv zeta.
  rewrite (bind_run _ _ _ _ _ (clear_subs a s cl Ha)). unfold Client_IsTakenOver. rewrite Ht.
  rewrite (bind_run _ _ _ _ _ Et). rewrite El in *.
  set (s2 := reindexed t _ s1). assert (Ha2 : sv_store s2 !! a = Some (with_subs cl ∅)) by apply lookup_insert_eq.
  rewrite (on_client_run a _ s2 _ Ha2). eexists. split; [done|].
  split_and!; [|done|done|exact Hsub]. exact (insert_insert_eq (sv_store s) a (with_subs cl ∅) (with_subs cl ∅)).
Qed.
End Unsubscribing.

(** ** Inheriting *)

Lemma insert_all (l : list Subscription) (m : Subscriptions) :
  NoDup (sub_Filter <$> l) ->
  (forall sub, sub ∈ l -> foldl (fun m sub => <[sub_Filter sub := sub]> m) m l !! sub_Filter sub = Some sub) /\
  (forall f, f ∉ sub_Filter <$> l -> foldl (fun m sub => <[sub_Filter sub := sub]> m) m l !! f = m !! f).
Proof.
  induction l as [|sub l IH] in m |- *; intros Hnd; cbn [foldl].
  - split; [by intros ? ?%elem_of_nil|done].
  - rewrite fmap_cons in Hnd. apply NoDup_cons in Hnd as [Hs Hnd]. destruct (IH (<[sub_Filter sub := sub]> m) Hnd) as [H1 H2].
    split.
    + intros sub' [->|Hin]%elem_of_cons; [|by apply H1]. rewrite H2 by done. apply lookup_insert_eq.
    + intros f [Hne Hf]%not_elem_of_cons. rewrite H2 by done. by apply lookup_insert_ne.
Qed.

Section Inheriting.
Context {RO : RangeOrder}.

Lemma insert_range (x : TopicsIndex) (id : gostr) (m : Subscriptions) :
  indexed x id m -> foldl (fun m sub => <[sub_Filter sub := sub]> m) ∅ (range m).*2 = m.
Proof.
  intros Hx.
  assert (Ef : sub_Filter <$> (range m).*2 = (range m).*1).
  { rewrite <- list_fmap_compose. apply list_fmap_ext. intros i [k v] Hi%list_elem_of_lookup_2%elem_of_range. cbn. by apply Hx. }
  destruct (insert_all (range m).*2 ∅) as [H1 H2]; [rewrite Ef; apply range_NoDup|].
  apply map_eq. intros f. destruct (m !! f) as [v|] eqn:Ev.
  - destruct (Hx f v Ev) as [E _]. rewrite <- E at 1. apply H1. apply list_elem_of_fmap. exists (f, v). split; [done|by apply elem_of_range].
  - rewrite H2; [apply lookup_empty|]. rewrite Ef. intros ([k v] & -> & Hk%elem_of_range)%list_elem_of_fmap. cbn in Ev. congruence.
Qed.

(** A subscription the index has already is entered again: nothing changes. *)
Lemma inherit_all a (l : list Subscription) s cl :
  sv_store s !! a = Some cl -> index_ok (sv_Topics s) ->
  (forall sub, sub ∈ l -> subscription_of (sv_Topics s) (sub_Filter sub) (cl_ID cl) = Some sub) ->
  exists s', for_each l (inherit_subscription a) s = (Ok tt, s') /\
    sv_store s' = <[a := with_subs cl (foldl (fun m sub => <[sub_Filter sub := sub]> m) (st_Subscriptions (cl_State cl)) l)]> (sv_store s) /\
    sv_Clients s' = sv_Clients s /\ sv_Info s' = sv_Info s /\
    forall f c, subscription_of (sv_Topics s') f c = subscription_of (sv_Topics s) f c.
Proof.
  induction l as [|sub l IH] in s, cl |- *; intros Ha Hok Hl.
  - exists s. split_and!; try done. cbn [foldl]. symmetry. by apply insert_id.
  - destruct (Subscribe_step (sv_Topics s) (cl_ID cl) sub Hok) as (Hnew & Hok1 & _ & Hsub).
    destruct (TopicsIndex_Subscribe (sv_Topics s) (cl_ID cl) sub) as [new x] eqn:Ex. cbn [fst snd] in *.
    pose proof (Hl sub ltac:(by left)) as Hin. rewrite Hin in Hnew. rewrite bool_decide_eq_true_2 in Hnew by by eexists.
    cbn [negb] in Hnew. subst new.
    assert (Hsame : forall f c, subscription_of x f c = subscription_of (sv_Topics s) f c).
    { intros f c. rewrite Hsub. destruct (decide _) as [[Hslot ->]|]; [|done]. by rewrite (subscription_of_slot _ _ _ _ Hslot). }
    set (cl1 := with_subs cl (<[sub_Filter sub := sub]> (st_Subscriptions (cl_State cl)))).
    set (s0 := s <| sv_Topics := x |>). set (s1 := put_client a cl1 s0). assert (Ha0 : sv_store s0 !! a = Some cl) by exact Ha.
    assert (E1 : inherit_subscription a sub s = (Ok tt, s1)).
    { unfold inherit_subscription. rewrite (bind_run _ _ _ _ _ (look a s cl Ha)).
      rewrite (bind_run _ _ s false s0); [|unfold topics; by rewrite Ex]. cbn [when].
      rewrite (bind_run _ _ s0 tt s0 eq_refl). exact (set_client_run a _ s0 cl Ha0). }
    destruct (IH s1 cl1) as (s' & E' & H1 & H2 & H3 & H4); [apply lookup_insert_eq|done| |].
    { intros sub' Hs'. change (subscription_of x (sub_Filter sub') (cl_ID cl) = Some sub'). rewrite Hsame. apply Hl. by right. }
    exists s'. split_and!; [cbn [for_each]; by rewrite (bind_run _ _ _ _ _ E1)| |done|done|].
    + rewrite H1. change (sv_store s1) with (<[a := cl1]> (sv_store s)). by rewrite insert_insert_eq.
    + intros f c. rewrite H4. apply Hsame.
Qed.
End Inheriting.

(** ** The takeover *)

Section Takeover.
Context (e : Env) (He : env_ok e) {RO : RangeOrder}.

(** The connection [cl] at [a] has just been made under the id of the client
    [ex] at [x], whose session the index agrees with. *)
Record takes_over (s : Server) (a : nat) (cl : Client) (x : nat) (ex : Client) : Prop := mkTakesOver {
  to_ok : server_ok e s;
  to_new : sv_store s !! a = Some cl;
  to_known : sv_Clients s !! cl_ID cl = Some x;
  to_old : sv_store s !! x = Some ex;
  to_distinct : a <> x;
  to_id : cl_ID ex = cl_ID cl;
  to_fresh : st_Subscriptions (cl_State cl) = ∅ /\ if_internal (cl_Inflight cl) = ∅;
  to_own : st_isTakenOver (cl_State ex) = false;
  to_indexed : indexed (sv_Topics s) (cl_ID cl) (st_Subscriptions (cl_State ex));
  to_subscriptions : is_i64 (in_Subscriptions (sv_Info s)) /\
    is_i64 (in_Subscriptions (sv_Info s) - Z.of_nat (size (st_Subscriptions (cl_State ex))));
  to_inflight : is_i64 (in_Inflight (sv_Info s)) /\
    is_i64 (in_Inflight (sv_Info s) - count counted (map_to_list (if_internal (cl_Inflight ex))).*2);
}.

(** Either side asked for a clean session. *)
Definition clean_start (pk : Packet) (ex : Client) : bool :=
  cp_Clean (pk_Connect pk) || (cp_CleanSession (cl_Properties ex) && (cp_ProtocolVersion (cl_Properties ex) <? 5)).

(** The older connection is disconnected and keeps nothing of the session. *)
Definition left_behind (ex ex' : Client) : Prop :=
  life ex' = life (disconnected e ErrSessionTakenOver ex) /\ st_isTakenOver (cl_State ex') = true /\
  st_Subscriptions (cl_State ex') = ∅ /\ if_internal (cl_Inflight ex') = ∅.

(** The receive maximum of a connection, or the server's. *)
Definition receive_maximum (cl : Client) : Z :=
  let n := pr_ReceiveMaximum (cp_Props (cl_Properties cl)) in
  if n =? 0 then ca_ReceiveMaximum (ev_Capabilities e) else n.

Lemma inherit_inflight_spec ex cl :
  inflight_ok (cl_Inflight ex) -> is_quota (receive_maximum cl) ->
  if_internal (inherit_inflight e ex cl) = if_internal (cl_Inflight ex) /\
  (0 < receive_maximum cl ->
   if_maximumSendQuota (inherit_inflight e ex cl) = receive_maximum cl /\
   if_sendQuota (inherit_inflight e ex cl) = Z.max 0 (receive_maximum cl - sentHoldingQuota (cl_Inflight ex))).
Proof.
  intros Hi Hq. unfold inherit_inflight. cbv zeta. fold (receive_maximum cl).
  set (i := Inflight_ReconcileSendQuotaCap _ (receive_maximum cl)).
  assert (H : if_internal i = if_internal (cl_Inflight ex) /\ (0 < receive_maximum cl ->
    if_maximumSendQuota i = receive_maximum cl /\ if_sendQuota i = Z.max 0 (receive_maximum cl - sentHoldingQuota (cl_Inflight ex)))).
  { unfold is_quota in Hq. split.
    - unfold i, Inflight_ReconcileSendQuotaCap. by destruct (_ <=? 0).
    - intros H. destruct (send_quota_recomputed (cl_Inflight ex) (receive_maximum cl) Hi ltac:(lia)) as (_ & ? & ? & _). done. }
  destruct H as [H1 H2]. destruct (_ && _); exact (conj H1 H2).
Qed.

(** [ex'] is [ex] taken over and stripped of its session. *)
Definition stripped (ex ex' : Client) : Prop :=
  life ex' = life ex /\ st_isTakenOver (cl_State ex') = true /\
  st_Subscriptions (cl_State ex') = ∅ /\ if_internal (cl_Inflight ex') = ∅.

Lemma frames_ClearInflights_gauge : frames (fun cv => in_Subscriptions (cv_Info cv)) ClearInflights.
Proof.
  unfold ClearInflights. apply frames_bind; [done|intros cl]. apply frames_for_each. intros tk.
  apply frames_bind; [intros cv; unfold inflight; by destruct (Inflight_Delete _ _)|intros ok].
  apply frames_when, frames_bind; [by apply frames_modify|intros _]. apply frames_when. by apply frames_modify.
Qed.

(** A clean start drops the older session. *)
Lemma drop_session s x ex :
  sv_store s !! x = Some ex -> index_ok (sv_Topics s) -> inflight_ok (cl_Inflight ex) ->
  st_isTakenOver (cl_State ex) = false -> indexed (sv_Topics s) (cl_ID ex) (st_Subscriptions (cl_State ex)) ->
  is_i64 (in_Subscriptions (sv_Info s)) ->
  is_i64 (in_Subscriptions (sv_Info s) - Z.of_nat (size (st_Subscriptions (cl_State ex)))) ->
  is_i64 (in_Inflight (sv_Info s)) ->
  is_i64 (in_Inflight (sv_Info s) - count counted (map_to_list (if_internal (cl_Inflight ex))).*2) ->
  exists s', (UnsubscribeClient x;; on_client x ClearInflights;; set_takenover x;; mret false) s = (Ok false, s') /\
    sv_Clients s' = sv_Clients s /\ (exists ex', sv_store s' = <[x := ex']> (sv_store s) /\ stripped ex ex') /\
    gauges (sv_Info s') = (in_Subscriptions (sv_Info s) - Z.of_nat (size (st_Subscriptions (cl_State ex))),
      in_Inflight (sv_Info s) - count counted (map_to_list (if_internal (cl_Inflight ex))).*2) /\
    forall f c, subscription_of (sv_Topics s') f c =
      if decide (c = cl_ID ex /\ Exists (same_slot f) (range (st_Subscriptions (cl_State ex))).*1) then None
      else subscription_of (sv_Topics s) f c.
Proof.
  intros Hx Hok Hi Ht Hix Hs1 Hs2 Hg1 Hg2.
  destruct (UnsubscribeClient_all x s ex Hx Ht Hok Hix Hs1 Hs2) as (s1 & E1 & Est & Ecl & Eg & Hsub).
  assert (Hx1 : sv_store s1 !! x = Some (with_subs ex ∅)) by (rewrite Est; apply lookup_insert_eq).
  injection Eg as Eg1 Eg2.
  set (cv := mkClientView (with_subs ex ∅) (sv_Info s1) (sv_events s1)).
  destruct (ClearInflights_exact cv) as (cv' & i & E2 & Ec & Hm & _ & Eg3); [done| | |].
  { change (is_i64 (in_Inflight (sv_Info s1))). by rewrite Eg2. }
  { change (is_i64 (in_Inflight (sv_Info s1) - count counted (map_to_list (if_internal (cl_Inflight ex))).*2)). by rewrite Eg2. }
  assert (Eg4 : in_Subscriptions (cv_Info cv') = in_Subscriptions (sv_Info s1)).
  { pose proof (frames_ClearInflights_gauge cv) as H. by rewrite E2 in H. }
  set (s2 := set_view x cv' s1).
  assert (E2' : on_client x ClearInflights s1 = (Ok tt, s2)) by (rewrite (on_client_run x _ s1 _ Hx1); fold cv; by rewrite E2).
  assert (Hx2 : sv_store s2 !! x = Some (cv_client cv')) by apply lookup_insert_eq.
  pose proof (set_client_run x (fun cl => cl <| cl_State ::= fun st => st <| st_isTakenOver := true |> |>) s2 _ Hx2) as E3.
  rewrite (bind_run _ _ _ _ _ E1), (bind_run _ _ _ _ _ E2'). unfold set_takenover. rewrite (bind_run _ _ _ _ _ E3).
  set (ex' := (cv_client cv') <| cl_State ::= fun st => st <| st_isTakenOver := true |> |>) in *.
  exists (put_client x ex' s2). split; [done|]. split_and!; [exact Ecl| | |exact Hsub].
  - exists ex'. split.
    + change (<[x := ex']> (<[x := cv_client cv']> (sv_store s1)) = <[x := ex']> (sv_store s)). by rewrite Est, !insert_insert_eq.
    + unfold ex'. rewrite Ec. exact (conj eq_refl (conj eq_refl (conj eq_refl Hm))).
  - change ((in_Subscriptions (cv_Info cv'), in_Inflight (cv_Info cv')) = (in_Subscriptions (sv_Info s) - Z.of_nat (size (st_Subscriptions (cl_State ex))),
      in_Inflight (sv_Info s) - count counted (map_to_list (if_internal (cl_Inflight ex))).*2)).
    rewrite Eg4, Eg1, Eg3. f_equal. change (sv_Info s1) with (cv_Info cv) in Eg2. by rewrite Eg2.
Qed.

(** The new connection, with the older session. *)
Definition heir (ex cl : Client) : Client :=
  with_subs (if 0 <? Inflight_Len (cl_Inflight ex) then with_inflight cl (inherit_inflight e ex cl) else cl)
    (st_Subscriptions (cl_State ex)).

Lemma keep_session s a cl x ex :
  sv_store s !! a = Some cl -> sv_store s !! x = Some ex -> a <> x ->
  index_ok (sv_Topics s) -> inflight_ok (cl_Inflight ex) -> st_Subscriptions (cl_State cl) = ∅ ->
  indexed (sv_Topics s) (cl_ID cl) (st_Subscriptions (cl_State ex)) ->
  exists s', (set_takenover x;;
      when (0 <? Inflight_Len (cl_Inflight ex))
        (on_client a (set_client (fun cl => with_inflight cl (inherit_inflight e ex cl))));;
      for_each (range (st_Subscriptions (cl_State ex))).*2 (inherit_subscription a);;
      UnsubscribeClient x;; on_client x ResetInflights;; mret true) s = (Ok true, s') /\
    sv_Clients s' = sv_Clients s /\ sv_Info s' = sv_Info s /\
    (exists ex', sv_store s' = <[x := ex']> (<[a := heir ex cl]> (sv_store s)) /\ stripped ex ex') /\
    forall f c, subscription_of (sv_Topics s') f c = subscription_of (sv_Topics s) f c.
Proof.
  intros Ha Hx Hne Hok Hi Hf Hix.
  pose proof (set_client_run x (fun cl => cl <| cl_State ::= fun st => st <| st_isTakenOver := true |> |>) s _ Hx) as E1.
  set (ex1 := ex <| cl_State ::= fun st => st <| st_isTakenOver := true |> |>) in *. set (s1 := put_client x ex1 s) in *.
  set (cl1 := if 0 <? Inflight_Len (cl_Inflight ex) then with_inflight cl (inherit_inflight e ex cl) else cl).
  assert (Ha1 : sv_store s1 !! a = Some cl) by (unfold s1; rewrite <- Ha; by apply lookup_insert_ne).
  assert (E2 : exists s2, when (0 <? Inflight_Len (cl_Inflight ex))
      (on_client a (set_client (fun cl => with_inflight cl (inherit_inflight e ex cl)))) s1 = (Ok tt, s2) /\
    sv_store s2 = <[a := cl1]> (sv_store s1) /\ sv_Clients s2 = sv_Clients s /\ sv_Info s2 = sv_Info s /\ sv_Topics s2 = sv_Topics s).
  { unfold cl1. destruct (0 <? _); cbn [when].
    - rewrite (set_client_run a _ s1 cl Ha1). by eexists.
    - exists s1. split_and!; try done. symmetry. by apply insert_id. }
  destruct E2 as (s2 & E2 & Est2 & Ecl2 & Ein2 & Eto2).
  destruct (inherit_all a (range (st_Subscriptions (cl_State ex))).*2 s2 cl1) as (s3 & E3 & Est3 & Ecl3 & Ein3 & Hsub).
  { rewrite Est2. apply lookup_insert_eq. }
  { by rewrite Eto2. }
  { intros sub ([f v] & -> & Hv%elem_of_range)%list_elem_of_fmap. destruct (Hix f v Hv) as [<- Hs]. cbn [snd].
    rewrite Eto2. unfold cl1. by destruct (0 <? _). }
  assert (Hx3 : sv_store s3 !! x = Some ex1).
  { rewrite Est3, Est2, !lookup_insert_ne by done. apply lookup_insert_eq. }
  pose proof (UnsubscribeClient_taken x s3 ex1 Hx3 eq_refl) as E4. set (s4 := put_client x (with_subs ex1 ∅) s3) in *.
  assert (Hx4 : sv_store s4 !! x = Some (with_subs ex1 ∅)) by apply lookup_insert_eq.
  set (cv := mkClientView (with_subs ex1 ∅) (sv_Info s4) (sv_events s4)).
  destruct (ResetInflights_empties cv Hi) as (ex' & (i & Eex & Hm) & E5).
  rewrite (bind_run _ _ _ _ _ E1), (bind_run _ _ _ _ _ E2), (bind_run _ _ _ _ _ E3), (bind_run _ _ _ _ _ E4).
  rewrite (bind_run _ _ s4 tt (put_client x ex' s4)).
  2: { rewrite (on_client_run x _ s4 _ Hx4). fold cv. rewrite E5. by destruct s4. }
  exists (put_client x ex' s4). split; [done|]. split_and!.
  - change (sv_Clients s3 = sv_Clients s). congruence.
  - change (sv_Info s3 = sv_Info s). congruence.
  - exists ex'. split; [|subst ex'; exact (conj eq_refl (conj eq_refl (conj eq_refl Hm)))].
    change (<[x := ex']> (<[x := with_subs ex1 ∅]> (sv_store s3)) = <[x := ex']> (<[a := heir ex cl]> (sv_store s))).
    rewrite Est3, Est2. change (sv_store s1) with (<[x := ex1]> (sv_store s)). rewrite !insert_insert_eq.
    rewrite (insert_insert_ne (sv_store s) a x) by done. rewrite insert_insert_eq. unfold heir. fold cl1. do 4 f_equal.
    rewrite <- (insert_range _ _ _ Hix) at 2. f_equal. unfold cl1. by destruct (0 <? _).
  - intros f c. change (subscription_of (sv_Topics s3) f c = subscription_of (sv_Topics s) f c). by rewrite Hsub, Eto2.
Qed.

(** What a takeover makes of the session, for a clean start or not. *)
Definition session_dropped (s s' : Server) (cl cl' ex : Client) : Prop :=
  cl' = cl /\
  (forall g, is_Some (st_Subscriptions (cl_State ex) !! g) -> subscription_of (sv_Topics s') g (cl_ID cl) = None) /\
  (forall f c, (c = cl_ID cl -> forall g, is_Some (st_Subscriptions (cl_State ex) !! g) -> ~ same_slot f g) ->
     subscription_of (sv_Topics s') f c = subscription_of (sv_Topics s) f c) /\
  gauges (sv_Info s') = (in_Subscriptions (sv_Info s) - Z.of_nat (size (st_Subscriptions (cl_State ex))),
    in_Inflight (sv_Info s) - count counted (map_to_list (if_internal (cl_Inflight ex))).*2).

Definition session_moved (s s' : Server) (cl cl' ex : Client) : Prop :=
  cl_ID cl' = cl_ID cl /\ life cl' = life cl /\
  st_Subscriptions (cl_State cl') = st_Subscriptions (cl_State ex) /\
  if_internal (cl_Inflight cl') = if_internal (cl_Inflight ex) /\
  (0 < Inflight_Len (cl_Inflight ex) -> 0 < receive_maximum cl ->
   if_maximumSendQuota (cl_Inflight cl') = receive_maximum cl /\
   if_sendQuota (cl_Inflight cl') = Z.max 0 (receive_maximum cl - sentHoldingQuota (cl_Inflight ex))) /\
  (forall f c, subscription_of (sv_Topics s') f c = subscription_of (sv_Topics s) f c) /\
  gauges (sv_Info s') = gauges (sv_Info s).

Lemma heir_moved s s' cl ex :
  inflight_ok (cl_Inflight ex) -> is_quota (receive_maximum cl) -> if_internal (cl_Inflight cl) = ∅ ->
  (forall f c, subscription_of (sv_Topics s') f c = subscription_of (sv_Topics s) f c) ->
  gauges (sv_Info s') = gauges (sv_Info s) -> session_moved s s' cl (heir ex cl) ex.
Proof.
  intros Hi Hq Hf Hsub Hg. destruct (inherit_inflight_spec ex cl Hi Hq) as [H1 H2]. unfold session_moved, heir.
  destruct (Z.ltb_spec 0 (Inflight_Len (cl_Inflight ex))) as [Hl|Hl].
  - by split_and!.
  - split_and!; try done; [|lia]. change (if_internal (cl_Inflight cl) = if_internal (cl_Inflight ex)). rewrite Hf. symmetry.
    apply map_size_empty_inv. unfold Inflight_Len in Hl. lia.
Qed.

Lemma Exists_filters (m : Subscriptions) f :
  Exists (same_slot f) (range m).*1 <-> exists g, is_Some (m !! g) /\ same_slot f g.
Proof.
  rewrite Exists_exists. split.
  - intros (g & ([k v] & -> & Hk%elem_of_range)%list_elem_of_fmap & Hg). exists k. split; [by exists v|done].
  - intros (g & [v Hv] & Hg). exists g. split; [|done]. apply list_elem_of_fmap. exists (g, v). split; [done|by apply elem_of_range].
Qed.

(** C7: Taking a session over. When a client connects under an id that another
    connection has, that connection is disconnected with the reason of a
    takeover and marked, and left without subscriptions and messages; no other
    client is touched. For a clean start (of the new connection, or of an older
    one before version 5) its subscriptions leave the index and its messages
    are dropped, both counted off, and no session is reported. Otherwise the
    new connection has exactly its subscriptions and in-flight messages, a send
    quota that is its own receive maximum less the messages still
    unacknowledged, the index answers as before, the counters are unchanged,
    and a session is reported. *)
Theorem session_takeover pk s a cl x ex :
  takes_over s a cl x ex ->
  wp (inheritClientSession e pk a) s (fun r s' =>
    r = inl (negb (clean_start pk ex)) /\
    sv_Clients s' = sv_Clients s /\
    (forall b, b <> a -> b <> x -> sv_store s' !! b = sv_store s !! b) /\
    (exists ex', sv_store s' !! x = Some ex' /\ left_behind ex ex') /\
    exists cl', sv_store s' !! a = Some cl' /\
      if clean_start pk ex then session_dropped s s' cl cl' ex else session_moved s s' cl cl' ex).
Proof.
  intros [Hs Ha Hk Hx Hne Eid [Hf1 Hf2] Ht Hix [Hs1 Hs2] [Hg1 Hg2]].
  unfold inheritClientSession. apply (wp_look a s cl); [done|]. apply wp_bind, wp_get_state.
  unfold Clients_Get. rewrite Hk. apply wp_bind. eapply wp_mono; [by apply disconnect_run|].
  intros r s1 (-> & cv & -> & El & Es & Eg). set (s1 := set_view x cv s). set (ex1 := cv_client cv) in *.
  assert (Hx1 : sv_store s1 !! x = Some ex1) by apply lookup_insert_eq.
  assert (Ha1 : sv_store s1 !! a = Some cl) by (rewrite <- Ha; by apply lookup_insert_ne).
  apply (wp_look x s1 ex1); [done|]. unfold session in Es. injection Es as Eid1 Epr Esu Ein Eto. injection Eg as Eg1 Eg2.
  change (cv_Info cv) with (sv_Info s1) in Eg1, Eg2. pose proof (so_clients e s Hs x ex Hx) as Hcx. pose proof (so_clients e s Hs a cl Ha) as Hca.
  rewrite Epr. fold (clean_start pk ex). assert (Hi : inflight_ok (cl_Inflight ex1)) by (rewrite Ein; apply Hcx).
  assert (Hn : forall b ex', b <> x -> <[x := ex']> (sv_store s1) !! b = sv_store s !! b).
  { intros b ex' Hb. change (sv_store s1) with (<[x := ex1]> (sv_store s)). by rewrite !lookup_insert_ne. }
  destruct (clean_start pk ex) eqn:Ec; unfold wp.
  - destruct (drop_session s1 x ex1) as (s' & -> & Ecl & (ex' & Est & Hst) & Eg & Hsub);
      [done|apply Hs|done|congruence|rewrite Eid1, Eid, Esu; exact Hix|by rewrite ?Esu, ?Ein, ?Eg1, ?Eg2..|].
    split_and!; [done|exact Ecl|intros b _ Hb; by rewrite Est, Hn| |].
    + exists ex'. split; [rewrite Est; apply lookup_insert_eq|]. destruct Hst as (? & ? & ? & ?). split_and!; [congruence|done..].
    + exists cl. split; [by rewrite Est, Hn|]. rewrite Eid1, Eid, Esu, Ein in *. split_and!; [done| | |].
      * intros g Hg. rewrite Hsub, decide_True; [done|]. split; [done|]. apply Exists_filters. by exists g.
      * intros f c Hc. rewrite Hsub, decide_False; [done|]. intros [-> (g & Hg & Hsl)%Exists_filters]. by apply (Hc eq_refl g).
      * by rewrite Eg, Eg1, Eg2.
  - destruct (keep_session s1 a cl x ex1) as (s' & -> & Ecl & Ein' & (ex' & Est & Hst) & Hsub);
      [done|done|done|apply Hs|done|done|by rewrite Esu|].
    split_and!; [done|exact Ecl| | |].
    + intros b Hb1 Hb2. rewrite Est, lookup_insert_ne, lookup_insert_ne by done. by apply lookup_insert_ne.
    + exists ex'. split; [rewrite Est; apply lookup_insert_eq|]. destruct Hst as (? & ? & ? & ?). split_and!; [congruence|done..].
    + exists (heir ex1 cl). split; [rewrite Est, lookup_insert_ne by done; apply lookup_insert_eq|].
      assert (Hm : session_moved s s' cl (heir ex1 cl) ex1).
      { apply heir_moved; [done| |done|exact Hsub|rewrite Ein'; unfold gauges; by rewrite Eg1, Eg2].
        unfold receive_maximum. destruct (_ =? 0); apply is_u16_quota; [apply He|apply Hca]. }
      unfold session_moved in *. by rewrite Esu, Ein in Hm.
Qed.
End Takeover.

(** A client with a subscription and a message in flight connects again. *)
Definition persistent_sample : Packet := connect_sample <| pk_Connect ::= fun c => c <| cp_Clean := false |> |>.
Definition older_session : Server := (open_session reliable_env !"tcp" !"peer" persistent_sample (New reliable_env)).2.
Definition older_address : nat := default 0%nat (sv_Clients older_session !! (!"c1")).
Definition older_subscribed : Server := (receivePacket reliable_env older_address subscribe_sample older_session).2.
Definition older_sample : Server := (receivePacket reliable_env older_address (hello <| pk_PacketID := 7 |>) older_subscribed).2.
Definition newer_client : Client :=
  ParseConnect (ev_Options reliable_env) [] (NewClient reliable_env (Some !"peer") !"tcp" [] false) !"tcp" persistent_sample.
Definition newer_address : nat := fresh_address older_sample.
Definition newer_sample : Server := (allocate newer_client older_sample).2.
Definition older_client : Client := default newer_client (sv_store newer_sample !! older_address).

Lemma newer_sample_ok : server_ok reliable_env newer_sample.
Proof.
  assert (Hs : server_ok reliable_env older_sample).
  { apply (broker_reachable reliable_env); [exact reliable_env_ok|].
    apply rtc_l with older_session; [|apply rtc_l with older_subscribed; [|apply rtc_once]];
      apply (broker_action (ev_Options reliable_env) reliable_env); try exact reliable_env_ok; try done;
      [apply act_connect|apply act_receive..]; try (split; [discriminate|reflexivity]); [|vm_compute; eauto..].
    split; split; (discriminate || reflexivity). }
  apply (allocate_ok reliable_env [] newer_client older_sample (fun _ s' => server_ok reliable_env s')).
  - apply (ParseConnect_ok reliable_env reliable_env_ok); [apply (NewClient_ok reliable_env reliable_env_ok)|].
    split; split; (discriminate || reflexivity).
  - split; [exact Hs|]. intros a Hn. apply elem_of_nil in Hn. destruct Hn.
  - intros a s' [H _]. exact H.
Qed.

Lemma newer_sample_takes_over : takes_over reliable_env newer_sample newer_address newer_client older_address older_client.
Proof.
  assert (Es : st_Subscriptions (cl_State older_client) =
    {[ !"a/#" := Subscription0 <| sub_Filter := !"a/#" |> <| sub_Qos := 1 |> ]}) by (vm_compute; reflexivity).
  split.
  - exact newer_sample_ok.
  - vm_compute. reflexivity.
  - vm_compute. reflexivity.
  - vm_compute. reflexivity.
  - vm_compute. discriminate.
  - vm_compute. reflexivity.
  - split; vm_compute; reflexivity.
  - vm_compute. reflexivity.
  - intros f sub. rewrite Es. intros [<- <-]%lookup_singleton_Some. split; vm_compute; reflexivity.
  - clear Es. split; vm_compute; split; (discriminate || reflexivity).
  - clear Es. split; vm_compute; split; (discriminate || reflexivity).
Qed.

Lemma session_takeover_witness :
  exists s' cl', inheritClientSession reliable_env persistent_sample newer_address newer_sample = (Ok true, s') /\
    sv_store s' !! newer_address = Some cl' /\
    is_Some (st_Subscriptions (cl_State cl') !! (!"a/#")) /\ size (if_internal (cl_Inflight cl')) = 1%nat /\
    is_Some (subscription_of (sv_Topics s') !"a/#" !"c1").
Proof.
  pose proof (session_takeover reliable_env reliable_env_ok persistent_sample newer_sample newer_address newer_client
    older_address older_client newer_sample_takes_over) as H.
  assert (Ec : clean_start persistent_sample older_client = false) by (vm_compute; reflexivity).
  rewrite Ec in H. unfold wp in H.
  destruct (inheritClientSession reliable_env persistent_sample newer_address newer_sample) as [[b|err| |] s'];
    [|destruct H as [H _]; discriminate H|destruct H|destruct H].
  destruct H as (E & _ & _ & _ & cl' & Ha & _ & _ & Hs & Hi & _ & Ht & _). injection E as ->. exists s', cl'.
  split; [reflexivity|]. split; [exact Ha|]. rewrite Hs, Hi, Ht.
  split; [vm_compute; eexists; reflexivity|]. split; [vm_compute; reflexivity|]. vm_compute. eexists. reflexivity.
Defined.
