(* ===== verification/Lives.v ===== *)
(** * What the operations of the broker do to its clients' lives

    Almost no operation of the server touches the map of the clients, and none
    but the connecting and the ending of a connection changes which clients are
    in it; a handler stops a client at most. The operations are classified by a
    relation between the servers before and after them. *)
From S2P Require Import Prelude Codes Effects Codec FixedHeader Properties Packets Wire Topics Aliases TopicsFacts Inflight InflightFacts System Clients ClientIO ClientIOFacts ClientFacts Publish PublishFacts Delivery Server Sessions SysTopics Frames ServerFacts Broker Connection Json JsonCodec Storage HookChain Restore RestoreFacts Listeners AcceptLoop Lifecycle LifecycleFacts Shutdown Takeover.

(** ** Steps along a relation, for the other combinators *)

Section Evolves.
Context {S : Type} (R : S -> S -> Prop) {HR : PreOrder R}.

Lemma evolves_still {A} (m : GoM S A) : frames (fun s => s) m -> evolves R m.
Proof. intros H s. by rewrite (H s). Qed.

Lemma evolves_attempt {A} (m : GoM S A) : evolves R m -> evolves R (attempt m).
Proof. intros Hm s. specialize (Hm s). unfold attempt. by destruct (m s) as [[a|err| |] s']. Qed.

Lemma evolves_ignore {A} (m : GoM S A) : evolves R m -> evolves R (ignore m).
Proof. intros Hm s. specialize (Hm s). unfold ignore. by destruct (m s) as [[a|err| |] s']. Qed.

Lemma evolves_in_context {A} what (m : GoM S A) : evolves R m -> evolves R (in_context what m).
Proof. intros Hm s. specialize (Hm s). unfold in_context. by destruct (m s) as [[a|err| |] s']. Qed.

Lemma evolves_for_each {A} (l : list A) body : (forall x, evolves R (body x)) -> evolves R (for_each l body).
Proof. intros H. induction l as [|x l IH]; cbn [for_each]; [by apply evolves_ret|]. by apply evolves_bind. Qed.
End Evolves.

Create HintDb evolves discriminated.
#[export] Hint Extern 9 (evolves _ _) => apply evolves_still; [apply _|by auto with frames] : evolves.

Ltac evolves_step :=
  match goal with
  | |- evolves _ (_ ≫= _) => apply evolves_bind; [apply _| |intros ?]
  | |- evolves _ (when _ _) => apply evolves_when; [apply _|]
  | |- evolves _ (attempt _) => apply evolves_attempt
  | |- evolves _ (ignore _) => apply evolves_ignore
  | |- evolves _ (in_context _ _) => apply evolves_in_context
  | |- evolves _ (for_each _ _) => apply evolves_for_each; [apply _|intros ?]
  | |- evolves _ (let '(_, _) := ?x in _) => destruct x
  | |- evolves _ (if ?b then _ else _) => destruct b
  | |- evolves _ (match ?x with _ => _ end) => destruct x
  | |- evolves _ (let _ := _ in _) => cbv zeta
  end.
Ltac evolves_go := repeat first [solve [eauto 4 with evolves frames] | evolves_step].

(** ** Handlers that stop no client *)

Section Quiet.
Context (e : Env) {RO : RangeOrder}.

Lemma frames_WriteLoop_round : frames view_core (WriteLoop_round e).
Proof. unfold WriteLoop_round. frames_go. Qed.

Lemma frames_ClearExpiredInflights now max : frames view_core (ClearExpiredInflights now max).
Proof.
  assert (H : forall l, frames view_core (clear_expired now max l)).
  { induction l as [|tk l IH]; cbn [clear_expired]; [done|]. frames_go. }
  unfold ClearExpiredInflights. frames_go.
Qed.

Lemma frames_delete_will_core id : frames cores (delete_will id).
Proof. by apply frames_server_core. Qed.

Lemma frames_publishRetainedToClient_core a sub ex : frames cores (publishRetainedToClient e a sub ex).
Proof. unfold publishRetainedToClient. frames_go. Qed.
#[local] Hint Resolve frames_WriteLoop_round frames_ClearExpiredInflights frames_delete_will_core
  frames_publishRetainedToClient_core : frames.

Lemma frames_accept_publish_core a pk : frames cores (accept_publish e a pk).
Proof. unfold accept_publish. frames_go. Qed.
#[local] Hint Resolve frames_accept_publish_core : frames.

Lemma frames_hooked_publish_core a pk : frames cores (hooked_publish e a pk).
Proof. unfold hooked_publish. frames_go. Qed.

Lemma frames_subscribe_filters_core a code fs : frames cores (subscribe_filters e a code fs).
Proof. induction fs as [|f fs IH]; cbn [subscribe_filters]; [done|]. unfold subscribe_filter. frames_go. Qed.

Lemma frames_unsubscribe_filters_core a code fs : frames cores (unsubscribe_filters a code fs).
Proof. induction fs as [|f fs IH]; cbn [unsubscribe_filters]; [done|]. unfold unsubscribe_filter. frames_go. Qed.
#[local] Hint Resolve frames_subscribe_filters_core frames_unsubscribe_filters_core : frames.

Lemma frames_processSubscribe_core a pk : frames cores (processSubscribe e a pk).
Proof. unfold processSubscribe. frames_go. Qed.

Lemma frames_processUnsubscribe_core a pk : frames cores (processUnsubscribe e a pk).
Proof. unfold processUnsubscribe. frames_go. Qed.

Lemma frames_inherit_subscription_core a sub : frames cores (inherit_subscription a sub).
Proof. unfold inherit_subscription. frames_go. Qed.

Lemma frames_publishSysTopics_core memory threads : frames cores (publishSysTopics e memory threads).
Proof. unfold publishSysTopics. frames_go. Qed.

Lemma frames_clearExpiredRetainedMessages_core now : frames cores (clearExpiredRetainedMessages e now).
Proof. unfold clearExpiredRetainedMessages. frames_go. Qed.

Lemma frames_for_clients (body : gostr -> nat -> GoM Server unit) :
  (forall id a, frames cores (body id a)) -> frames cores (for_clients body).
Proof. intros H. unfold for_clients. frames_go. Qed.

Lemma frames_clearExpiredInflights_core now : frames cores (clearExpiredInflights e now).
Proof. apply frames_for_clients. intros id a. frames_go. Qed.

Lemma frames_resumeAllDeferredPublishes_core : frames cores (resumeAllDeferredPublishes e).
Proof. apply frames_for_clients. intros id a. frames_go. Qed.

Lemma frames_sendDelayedLWT_core dt : frames cores (sendDelayedLWT e dt).
Proof. unfold sendDelayedLWT. frames_go. Qed.
End Quiet.

#[export] Hint Resolve frames_WriteLoop_round frames_delete_will_core frames_publishRetainedToClient_core
  frames_accept_publish_core frames_hooked_publish_core frames_processSubscribe_core frames_processUnsubscribe_core
  frames_inherit_subscription_core frames_publishSysTopics_core frames_clearExpiredRetainedMessages_core
  frames_clearExpiredInflights_core frames_resumeAllDeferredPublishes_core frames_sendDelayedLWT_core : frames.

(** ** Handlers that stop clients

    [eases s s']: the map of the clients is the same; each client winds down at
    most, and keeps its id and whether its session was handed over. *)
Definition eases_client (cl cl' : Client) : Prop :=
  winds cl cl' /\ cl_ID cl' = cl_ID cl /\ st_isTakenOver (cl_State cl') = st_isTakenOver (cl_State cl).
Definition eases (s s' : Server) : Prop :=
  sv_Clients s' = sv_Clients s /\
  forall a cl, sv_store s !! a = Some cl -> exists cl', sv_store s' !! a = Some cl' /\ eases_client cl cl'.

#[export] Instance eases_client_preorder : PreOrder eases_client.
Proof.
  split; [by intros cl|]. intros c1 c2 c3 (A1 & A2 & A3) (B1 & B2 & B3). split_and!; [by etrans|congruence..].
Qed.

#[export] Instance eases_preorder : PreOrder eases.
Proof.
  split; [intros s; split; [done|]; intros a cl H; by exists cl|]. intros s1 s2 s3 [E12 H12] [E23 H23].
  split; [congruence|]. intros a cl Ha. destruct (H12 a cl Ha) as (cl2 & Ha2 & W12), (H23 a cl2 Ha2) as (cl3 & Ha3 & W23).
  exists cl3. split; [done|by etrans].
Qed.

Lemma eases_winding s s' : eases s s' -> winding s s'.
Proof. intros [_ H] a cl Ha. destruct (H a cl Ha) as (cl' & ? & ? & _). eauto. Qed.

Lemma eases_core cl cl' : core cl' = core cl -> eases_client cl cl'.
Proof.
  intros E. split_and!.
  - apply winds_life. exact (f_equal (snd ∘ fst) E).
  - exact (f_equal (fun x => x.1.1.1.1.1) E).
  - exact (f_equal snd E).
Qed.

Lemma cores_eases s s' : cores s' = cores s -> eases s s'.
Proof.
  intros E. unfold cores in E. injection E as E Ec. split; [done|]. intros a cl Ha.
  assert (H : (core <$> sv_store s') !! a = Some (core cl)) by (rewrite E, lookup_fmap, Ha; done).
  rewrite lookup_fmap in H. apply fmap_Some in H as (cl' & Ha' & Ecl). exists cl'. split; [done|]. by apply eases_core.
Qed.

Lemma evolves_quiet {A} (m : GoM Server A) : frames cores m -> evolves eases m.
Proof. apply evolves_frames, cores_eases. Qed.

(** On one client. *)
Definition eases_view (cv cv' : ClientView) : Prop := eases_client (cv_client cv) (cv_client cv').
#[export] Instance eases_view_preorder : PreOrder eases_view.
Proof. split; [intros cv; unfold eases_view; reflexivity|]. intros c1 c2 c3. unfold eases_view. by etrans. Qed.

Lemma evolves_quiet_view {A} (m : GoM ClientView A) : frames view_core m -> evolves eases_view m.
Proof. apply evolves_frames. intros cv cv'. apply eases_core. Qed.

Lemma evolves_on_client {A} a (m : GoM ClientView A) : evolves eases_view m -> evolves eases (on_client a m).
Proof.
  intros Hm s. unfold on_client, zoom, client_view. destruct (sv_store s !! a) as [cl|] eqn:E; cbn [mbind option_bind]; [|done].
  specialize (Hm (mkClientView cl (sv_Info s) (sv_events s))). destruct (m _) as [r cv]. cbn [snd] in *. split; [done|].
  intros x c Hx. change (sv_store (set_view a cv s)) with (<[a := cv_client cv]> (sv_store s)).
  destruct (decide (x = a)) as [->|Hne]; [|exists c; by rewrite lookup_insert_ne].
  rewrite lookup_insert_eq. eexists. split; [done|]. by simplify_eq.
Qed.
#[export] Hint Resolve evolves_on_client : evolves.
#[export] Hint Resolve evolves_quiet evolves_quiet_view | 5 : evolves.

Section Stopping.
Context (e : Env) {RO : RangeOrder}.

Lemma evolves_stop err : evolves eases_view (stop e err).
Proof.
  intros cv. split_and!; [apply Client_Stop_winds|..]; cbn; unfold Client_Stop; by destruct (st_ended _).
Qed.
#[local] Hint Resolve evolves_stop : evolves.

Lemma evolves_DisconnectClient code : evolves eases_view (DisconnectClient e code).
Proof. unfold DisconnectClient. evolves_go. Qed.
#[local] Hint Resolve evolves_DisconnectClient : evolves.

Lemma evolves_processPublish a pk : evolves eases (processPublish e a pk).
Proof. unfold processPublish, refuse_publish. evolves_go. Qed.

Lemma evolves_processConnect a : evolves eases (processConnect e a).
Proof. unfold processConnect. evolves_go. Qed.

Lemma evolves_processDisconnect a pk : evolves eases (processDisconnect e a pk).
Proof. unfold processDisconnect. evolves_go. Qed.
#[local] Hint Resolve evolves_processPublish evolves_processConnect evolves_processDisconnect : evolves.

Lemma evolves_dispatch a pk m : dispatch e a pk = inl m -> evolves eases m.
Proof.
  unfold dispatch. cbv zeta. destruct (frames_acks e pk) as (? & ? & ? & ?).
  repeat match goal with |- (if ?c then _ else _) = _ -> _ => destruct c end.
  all: intros [= <-]; unfold processPingreq; eauto with evolves frames.
Qed.

Lemma evolves_processPacket a pk : evolves eases (processPacket e a pk).
Proof.
  unfold processPacket. destruct (dispatch e a pk) as [m|err] eqn:E; [|by apply evolves_quiet].
  apply evolves_dispatch in E. evolves_go.
Qed.
#[local] Hint Resolve evolves_processPacket : evolves.

Lemma evolves_receivePacket a pk : evolves eases (receivePacket e a pk).
Proof. unfold receivePacket. evolves_go. Qed.

Lemma evolves_InjectPacket a pk : evolves eases (InjectPacket e a pk).
Proof. unfold InjectPacket. evolves_go. Qed.
#[local] Hint Resolve evolves_InjectPacket : evolves.

Lemma evolves_Server_Publish topic payload retain qos : evolves eases (Server_Publish e topic payload retain qos).
Proof. unfold Server_Publish, inline_address. evolves_go. Qed.

Lemma evolves_Server_Subscribe filter id handler : evolves eases (Server_Subscribe e filter id handler).
Proof. unfold Server_Subscribe, inline_address, inline_packet. evolves_go. Qed.

Lemma evolves_Server_Unsubscribe filter id : evolves eases (Server_Unsubscribe e filter id).
Proof. unfold Server_Unsubscribe, inline_address, inline_packet. evolves_go. Qed.

Lemma evolves_closeListenerClients listener : evolves eases (closeListenerClients e listener).
Proof. unfold closeListenerClients. evolves_go. Qed.

Lemma eases_stop_client a s : eases s (stop_client e a s).
Proof.
  split; [done|]. intros x cl Hx. change (sv_store (stop_client e a s)) with (alter (Client_Stop (ev_now e) None) a (sv_store s)).
  destruct (decide (x = a)) as [->|Hne]; [|exists cl; by rewrite lookup_alter_ne].
  rewrite lookup_alter_eq, Hx. eexists. split; [done|]. exact (evolves_stop None (mkClientView cl (sv_Info s) (sv_events s))).
Qed.
End Stopping.

#[export] Hint Resolve evolves_stop evolves_DisconnectClient evolves_receivePacket evolves_Server_Publish
  evolves_Server_Subscribe evolves_Server_Unsubscribe evolves_closeListenerClients : evolves.

(** ** The clients that a server knows

    A connection that is being handled is known to the server under the id of
    its client, until its session has been taken over by a newer connection
    with the same id: what connecting, ending a connection and the expiry of
    sessions do to that. *)

(** ** What holds of the outcome of a sequence *)

(** Whatever the first action returns, and then from each value it returns. *)
Lemma ends_bind {S A B} (P : S -> Prop) (m : GoM S A) (k : A -> GoM S B) s :
  P (m s).2 -> (forall a s', m s = (Ok a, s') -> P (k a s').2) -> P ((m ≫= k) s).2.
Proof. unfold mbind, GoM_bind. intros H1 H2. destruct (m s) as [[a|err| |] s']; try done. by apply H2. Qed.

Lemma bind_either {S A B} (m : GoM S A) (k : A -> GoM S B) s :
  (exists a s', m s = (Ok a, s') /\ (m ≫= k) s = k a s') \/
  (((m ≫= k) s).2 = (m s).2 /\ forall b, ((m ≫= k) s).1 <> Ok b).
Proof. unfold mbind, GoM_bind. destruct (m s) as [[a|err| |] s']; [left; by exists a, s'|by right..]. Qed.

Lemma ends_then {S A B} (R : S -> S -> Prop) {HR : PreOrder R} (m : GoM S A) (k : A -> GoM S B) s0 s :
  R s0 (m s).2 -> (forall a, evolves R (k a)) -> R s0 ((m ≫= k) s).2.
Proof.
  intros Hm Hk. unfold mbind, GoM_bind. destruct (m s) as [[a|err| |] s']; try done. etrans; [exact Hm|apply Hk].
Qed.

(** What is done first is known of the state that the rest starts from. *)
Lemma ends_after {S A B} (R P : S -> S -> Prop) {HP : PreOrder P} (m : GoM S A) (k : A -> GoM S B) s :
  (forall s s', R s s' -> P s s') -> evolves R m ->
  (forall a s', m s = (Ok a, s') -> R s s' -> P s' (k a s').2) -> P s ((m ≫= k) s).2.
Proof.
  intros HRP Hm Hk. specialize (Hm s). unfold mbind, GoM_bind in *.
  destruct (m s) as [[a|err| |] s'] eqn:E; [|by apply HRP..]. etrans; [by apply HRP|by apply (Hk a)].
Qed.

Lemma ends_for_each {S A} (I : S -> Prop) (l : list A) body s :
  I s -> (forall x s, x ∈ l -> I s -> I (body x s).2) -> I (for_each l body s).2.
Proof.
  induction l as [|x l IH] in s |- *; intros Hs Hb; cbn [for_each]; [done|]. apply ends_bind; [apply Hb; [by left|done]|].
  intros [] s' E. apply IH; [|intros; apply Hb; [by right|done]]. specialize (Hb x s ltac:(by left) Hs). by rewrite E in Hb.
Qed.

(** [settles m s Q]: a value that [m] returns from [s] satisfies [Q]. *)
Definition settles {S A} (m : GoM S A) (s : S) (Q : A -> S -> Prop) : Prop := forall a s', m s = (Ok a, s') -> Q a s'.

Lemma settles_bind {S A B} (m : GoM S A) (k : A -> GoM S B) s Q :
  settles m s (fun a s' => settles (k a) s' Q) -> settles (m ≫= k) s Q.
Proof. intros H b s' E. apply bind_Ok in E as (a & s1 & E1 & E2). exact (H a s1 E1 b s' E2). Qed.

Lemma settles_evolves {S A} (R : S -> S -> Prop) (m : GoM S A) s (Q : A -> S -> Prop) :
  evolves R m -> (forall a s', R s s' -> Q a s') -> settles m s Q.
Proof. intros Hm HQ a s' E. apply HQ. specialize (Hm s). by rewrite E in Hm. Qed.

Lemma settles_wp {S A} (m : GoM S A) s (Q : A + error -> S -> Prop) : wp m s Q -> settles m s (fun a => Q (inl a)).
Proof. unfold wp. intros H a s' E. by rewrite E in H. Qed.

(** ** The roster *)

(** Every client in the map is closed or can be stopped. *)
Definition roster (s : Server) : Prop :=
  forall id a, sv_Clients s !! id = Some a -> exists cl, sv_store s !! a = Some cl /\ closable cl.

Lemma roster_closable s : roster s -> all_closable s.
Proof. intros H a cl [id Hid] Ha. destruct (H id a Hid) as (cl' & Ha' & ?). by simplify_eq. Qed.

Section Held.
Context (known : gostr -> Prop).

(** The client of a connection that came from one of the [known] listeners. *)
Definition handed_over (cl : Client) : Prop := st_isTakenOver (cl_State cl) = true /\ Client_Closed cl = true.
Definition held (s : Server) (a : nat) : Prop :=
  exists cl, sv_store s !! a = Some cl /\ known (net_Listener (cl_Net cl)) /\
    (handed_over cl \/ sv_Clients s !! cl_ID cl = Some a).

(** The connection [y] and the roster are kept. *)
Definition keeps_held (y : nat) (s s' : Server) : Prop := (held s y -> held s' y) /\ (roster s -> roster s').

#[export] Instance keeps_held_preorder y : PreOrder (keeps_held y).
Proof. split; [by intros s|]. intros s1 s2 s3 [A1 A2] [B1 B2]. split; auto. Qed.

Lemma eases_handed_over cl cl' : eases_client cl cl' -> handed_over cl -> handed_over cl'.
Proof. intros ((_ & _ & W & _) & _ & Et) [H1 H2]. split; [congruence|auto]. Qed.

Lemma eases_keeps y s s' : eases s s' -> keeps_held y s s'.
Proof.
  intros [Ec H]. split.
  - intros (cl & Ha & Hk & Hh). destruct (H y cl Ha) as (cl' & Ha' & Hcl). exists cl'. split; [done|].
    destruct Hcl as (W & Ei & Et) eqn:E0. split; [by rewrite (proj1 W)|]. rewrite Ec, Ei.
    destruct Hh as [Hh|Hh]; [left|by right]. by eapply eases_handed_over.
  - intros Hr id a. rewrite Ec. intros Hid. destruct (Hr id a Hid) as (cl & Ha & Hcl).
    destruct (H a cl Ha) as (cl' & Ha' & (_ & _ & _ & W) & _). eauto.
Qed.

Lemma evolves_keeps {A} y (m : GoM Server A) : evolves eases m -> evolves (keeps_held y) m.
Proof. intros H s. apply eases_keeps, H. Qed.

(** ** The end of a connection *)

(** A client that is forgotten under its own id is the only one it concerns. *)
Lemma forget_keeps y a s cl :
  sv_store s !! a = Some cl -> sv_Clients s !! cl_ID cl = Some a -> y <> a ->
  keeps_held y s (s <| sv_Clients ::= fun m => Clients_Delete m (cl_ID cl) |>).
Proof.
  intros Ha Hid Hy. split.
  - intros (c & Hyc & Hk & Hh). exists c. split_and!; [done|done|]. destruct Hh as [Hh|Hh]; [by left|right].
    change (delete (cl_ID cl) (sv_Clients s) !! cl_ID c = Some y). rewrite lookup_delete_ne; [done|]. congruence.
  - intros Hr id x. change (delete (cl_ID cl) (sv_Clients s) !! id = Some x -> exists cl, sv_store s !! x = Some cl /\ closable cl).
    intros [_ Hx]%lookup_delete_Some. eauto.
Qed.

Context (e : Env) {RO : RangeOrder}.

Lemma end_session_keeps y a err s : held s a -> y <> a -> keeps_held y s (end_session e a err s).2.
Proof.
  intros Ha Hy. unfold end_session. apply (ends_after eases (keeps_held y)); [apply eases_keeps|destruct err; evolves_go|].
  intros [] s1 _ W1. apply (eases_keeps a) in W1 as [W1 _]. destruct (W1 Ha) as (cl & Hcl & Hk & Hh).
  rewrite (bind_run _ _ _ _ _ (look a s1 cl Hcl)). cbv zeta. clear Ha W1.
  apply (ends_after eases (keeps_held y)); [apply eases_keeps|evolves_go|]. intros [] s2 _ W2.
  apply (ends_then (keeps_held y)); [|intros _ s3; by destruct err].
  destruct (session_expires cl && negb (Client_IsTakenOver cl)) eqn:Ex; [|done]. apply andb_true_iff in Ex as [_ Ht%negb_true_iff].
  assert (Hreg : sv_Clients s1 !! cl_ID cl = Some a) by (destruct Hh as [[Hh _]|Hh]; [unfold Client_IsTakenOver in Ht; congruence|done]).
  cbn [when]. apply (ends_after eases (keeps_held y)); [apply eases_keeps|evolves_go|]. intros [] s3 _ W3.
  apply (ends_after eases (keeps_held y)); [apply eases_keeps|evolves_go|]. intros [] s4 _ W4.
  assert (W : eases s1 s4) by (etrans; [exact W2|by etrans]). destruct W as [Ec W].
  destruct (W a cl Hcl) as (cl4 & Ha4 & _ & Ei & _). rewrite <- Ei in *. apply (forget_keeps y a s4 cl4); [done|congruence|done].
Qed.

Lemma attach_end_keeps y a err s : held s a -> y <> a -> keeps_held y s (attach_end e a err s).2.
Proof.
  intros Ha Hy. unfold attach_end, finally. pose proof (end_session_keeps y a err s Ha Hy) as H.
  destruct (end_session e a err s) as [r s1]. cbn [snd] in *. etrans; [exact H|]. apply eases_keeps.
  etrans; [|apply eases_stop_client]. by split; [|intros x cl Hx; exists cl].
Qed.

(** ** The expiry of sessions *)

(** What [clearExpiredClients] deletes: a client that was stopped longer ago
    than its session may last. *)
Definition session_expired (dt : Z) (cl : Client) : bool :=
  let props := cp_Props (cl_Properties cl) in
  let expire :=
    if (cp_ProtocolVersion (cl_Properties cl) =? 5) && pr_SessionExpiryIntervalFlag props
    then pr_SessionExpiryInterval props else ca_MaximumSessionExpiryInterval (ev_Capabilities e) in
  negb (Client_StopTime cl =? 0) && (Client_StopTime cl + expire <? dt).

Lemma clearExpiredClients_spec dt (s : Server) (y : nat) s' :
  (forall cl, sv_store s !! y = Some cl -> session_expired dt cl = false) ->
  s' = (clearExpiredClients e dt s).2 ->
  sv_store s' = sv_store s /\
    (forall id x, sv_Clients s' !! id = Some x -> sv_Clients s !! id = Some x) /\
    (forall id, sv_Clients s !! id = Some y -> is_Some (sv_store s !! y) -> sv_Clients s' !! id = Some y).
Proof.
  intros Hy ->. unfold clearExpiredClients, for_clients. rewrite (bind_run get_state _ s s s eq_refl).
  apply (ends_for_each (fun s' => sv_store s' = sv_store s /\
    (forall id x, sv_Clients s' !! id = Some x -> sv_Clients s !! id = Some x) /\
    (forall id, sv_Clients s !! id = Some y -> is_Some (sv_store s !! y) -> sv_Clients s' !! id = Some y))); [done|].
  intros [id a] s1 Hin (Es & Hsub & Hkeep). apply elem_of_range in Hin. change (sv_Clients s !! id = Some a) in Hin. cbn [fst snd].
  destruct (sv_store s !! a) as [cl|] eqn:Ha.
  2: { assert (E : on_client a get_client s1 = (Panic, s1)) by (unfold on_client, zoom, client_view; by rewrite Es, Ha).
       unfold mbind, GoM_bind. by rewrite E. }
  assert (Ha1 : sv_store s1 !! a = Some cl) by by rewrite Es.
  rewrite (bind_run _ _ _ _ _ (look a s1 cl Ha1)). cbv zeta.
  destruct (Client_StopTime cl =? 0) eqn:E0; [done|]. destruct (_ <? dt) eqn:Ex; cbn [when]; [|done].
  assert (Ea : a <> y \/ sv_store s !! y = None).
  { destruct (decide (a = y)) as [->|]; [|by left]. specialize (Hy cl Ha). unfold session_expired in Hy. by rewrite E0, Ex in Hy. }
  assert (Eu : exists s2, on_client a (emit OnClientExpired) s1 = (Ok tt, s2) /\ sv_store s2 = sv_store s1 /\ sv_Clients s2 = sv_Clients s1).
  { rewrite (on_client_run a _ s1 cl Ha1). eexists. split; [done|]. split; [|done]. exact (insert_id _ _ _ Ha1). }
  destruct Eu as (s2 & E2 & Es2 & Ec2). rewrite (bind_run _ _ _ _ _ E2). cbn [modify snd].
  change (sv_store s2 = sv_store s /\
    (forall i x, delete id (sv_Clients s2) !! i = Some x -> sv_Clients s !! i = Some x) /\
    (forall i, sv_Clients s !! i = Some y -> is_Some (sv_store s !! y) -> delete id (sv_Clients s2) !! i = Some y)).
  split_and!; [congruence|intros i x [_ Hx]%lookup_delete_Some; rewrite Ec2 in Hx; auto|].
  intros i Hi Hsome. rewrite lookup_delete_ne; [rewrite Ec2; auto|]. intros ->.
  destruct Ea as [Ea|Ea]; [|rewrite Ea in Hsome; by destruct Hsome]. congruence.
Qed.

Lemma clearExpiredClients_keeps (y : nat) dt (s : Server) :
  (forall cl, sv_store s !! y = Some cl -> session_expired dt cl = false) ->
  keeps_held y s (clearExpiredClients e dt s).2.
Proof.
  intros Hy. destruct (clearExpiredClients_spec dt s y _ Hy eq_refl) as (Es & Hsub & Hkeep). split.
  - intros (cl & Ha & Hk & Hh). exists cl. rewrite Es. split_and!; [done|done|]. destruct Hh as [Hh|Hh]; [by left|right]. by apply Hkeep.
  - intros Hr id a Hid%Hsub. rewrite Es. eauto.
Qed.

(** ** A new connection *)

(** [eases], except that sessions may be handed over. *)
Definition drifts (s s' : Server) : Prop :=
  sv_Clients s' = sv_Clients s /\
  forall a cl, sv_store s !! a = Some cl -> exists cl', sv_store s' !! a = Some cl' /\
    winds cl cl' /\ cl_ID cl' = cl_ID cl /\ (st_isTakenOver (cl_State cl) = true -> st_isTakenOver (cl_State cl') = true).

#[local] Instance drifts_preorder : PreOrder drifts.
Proof.
  split; [by intros s; split; [|intros a cl Ha; exists cl]|]. intros s1 s2 s3 [E12 H12] [E23 H23].
  split; [congruence|]. intros a cl Ha. destruct (H12 a cl Ha) as (cl2 & Ha2 & A1 & A2 & A3), (H23 a cl2 Ha2) as (cl3 & Ha3 & B1 & B2 & B3).
  exists cl3. split_and!; [done|by etrans|congruence|auto].
Qed.

Lemma eases_drifts s s' : eases s s' -> drifts s s'.
Proof.
  intros [E H]. split; [done|]. intros a cl Ha. destruct (H a cl Ha) as (cl' & Ha' & W & Ei & Et). exists cl'. split_and!; [done..|congruence].
Qed.

Lemma evolves_drifts {A} (m : GoM Server A) : evolves eases m -> evolves drifts m.
Proof. intros H s. apply eases_drifts, H. Qed.
#[local] Hint Resolve evolves_drifts | 6 : evolves.

Lemma drifts_keeps y s s' : drifts s s' -> keeps_held y s s'.
Proof.
  intros [Ec H]. split.
  - intros (cl & Ha & Hk & Hh). destruct (H y cl Ha) as (cl' & Ha' & W & Ei & Et). exists cl'. split; [done|].
    split; [by rewrite (proj1 W)|]. rewrite Ec, Ei. destruct Hh as [[Ht Hc]|Hh]; [left|by right].
    split; [by apply Et|by apply W].
  - intros Hr id a. rewrite Ec. intros Hid. destruct (Hr id a Hid) as (cl & Ha & Hcl).
    destruct (H a cl Ha) as (cl' & Ha' & (_ & _ & _ & W) & _). eauto.
Qed.

Lemma drifts_handed_over x s s' ex : drifts s s' -> sv_store s !! x = Some ex -> handed_over ex ->
  exists ex', sv_store s' !! x = Some ex' /\ handed_over ex'.
Proof. intros [_ H] Hx [Ht Hc]. destruct (H x ex Hx) as (ex' & ? & W & _ & Et). exists ex'. split; [done|]. split; [auto|by apply W]. Qed.

Lemma drifts_set_takenover x : evolves drifts (set_takenover x).
Proof.
  intros s. unfold set_takenover. destruct (sv_store s !! x) as [cl|] eqn:E.
  2: { unfold on_client, zoom, client_view. by rewrite E. }
  rewrite (set_client_run _ _ _ _ E). split; [done|]. intros a c Ha. cbn [snd].
  unfold put_client. match goal with |- context [sv_store (s <| sv_store ::= <[x := ?c]> |>)] =>
    change (sv_store (s <| sv_store ::= <[x := c]> |>)) with (<[x := c]> (sv_store s)) end.
  destruct (decide (a = x)) as [->|Hne]; [|exists c; by rewrite lookup_insert_ne]. rewrite lookup_insert_eq. simplify_eq. by eexists.
Qed.
#[local] Hint Resolve drifts_set_takenover : evolves.

Lemma evolves_inheritClientSession pk a : evolves drifts (inheritClientSession e pk a).
Proof. unfold inheritClientSession. evolves_go. Qed.

Context (He : env_ok e).
Context (Hactive : co_PassiveClientDisconnect (ca_Compatibilities (ev_Capabilities e)) = false).

(** The sequence of steps after which the session of [x] is handed over. *)
Lemma handing_over x s ex (m : GoM Server bool) :
  sv_store s !! x = Some ex -> Client_Closed ex = true -> evolves drifts m ->
  settles (set_takenover x;; m) s (fun _ s' => exists ex', sv_store s' !! x = Some ex' /\ handed_over ex').
Proof.
  intros Hx Hc Hm. apply settles_bind. intros [] s1 E1. unfold set_takenover in E1. rewrite (set_client_run _ _ _ _ Hx) in E1. injection E1 as <-.
  eapply settles_evolves; [exact Hm|]. intros b s2 W. eapply drifts_handed_over; [exact W|apply lookup_insert_eq|by split].
Qed.

Lemma inherit_takes pk a s cl x :
  server_ok e s -> roster s -> sv_store s !! a = Some cl -> sv_Clients s !! cl_ID cl = Some x ->
  settles (inheritClientSession e pk a) s (fun _ s' => exists ex, sv_store s' !! x = Some ex /\ handed_over ex).
Proof.
  intros Hs Hr Ha Hx. destruct (Hr _ _ Hx) as (ex & Hex & Hcl). unfold inheritClientSession.
  apply settles_bind. intros c s0 E0. rewrite (look a s cl Ha) in E0. injection E0 as <- <-.
  apply settles_bind. intros s0 s1 [= <- <-]. unfold Clients_Get. rewrite Hx.
  apply settles_bind. intros [] s1 E1. pose proof (disconnect_run e He ErrSessionTakenOver x s ex Hs Hex) as H. unfold wp in H. rewrite E1 in H.
  destruct H as (_ & cv & E2 & El & _). set (ex1 := cv_client cv) in *.
  assert (Hx1 : sv_store s1 !! x = Some ex1) by (rewrite E2; apply lookup_insert_eq). clear E1 E2.
  assert (Hc1 : Client_Closed ex1 = true).
  { unfold disconnected in El. rewrite Hactive in El. destruct (Client_Stop_winds (ev_now e) (Some (ECode ErrSessionTakenOver)) ex) as (_ & _ & W & _).
    destruct (life_fields _ _ El) as (_ & _ & Eo). unfold Client_Closed in *. rewrite Eo. destruct Hcl as [Hcl|Hcl]; [by apply W|].
    unfold Client_Stop. by rewrite Hcl. }
  apply settles_bind. intros c s2 E2. rewrite (look x s1 ex1 Hx1) in E2. injection E2 as <- <-.
  destruct (_ || _); [|apply (handing_over x s1 ex1); [done|done|evolves_go]].
  apply settles_bind. apply (settles_evolves eases); [evolves_go|]. intros [] s3 W3.
  apply settles_bind. apply (settles_evolves eases); [evolves_go|]. intros [] s4 W4.
  assert (W : eases s1 s4) by (by etrans). destruct W as [_ W]. destruct (W x ex1 Hx1) as (ex4 & Hx4 & (_ & _ & Wc & _) & _).
  apply (handing_over x s4 ex4); [done|auto|evolves_go].
Qed.

(** The session of the connection [a] begins: the connection that had its id
    has handed its session over. *)
Lemma add_keeps y a s cl :
  sv_store s !! a = Some cl -> closable cl ->
  (forall x, sv_Clients s !! cl_ID cl = Some x -> exists ex, sv_store s !! x = Some ex /\ handed_over ex) ->
  keeps_held y s (s <| sv_Clients ::= fun m => Clients_Add m (cl_ID cl) a |>).
Proof.
  intros Ha Hcl Hx. split.
  - intros (c & Hy & Hk & Hh). exists c. split_and!; [done|done|].
    change (handed_over c \/ <[cl_ID cl := a]> (sv_Clients s) !! cl_ID c = Some y).
    destruct Hh as [Hh|Hh]; [by left|]. destruct (decide (cl_ID c = cl_ID cl)) as [E|Hne]; [|right; by rewrite lookup_insert_ne].
    left. rewrite E in Hh. destruct (Hx y Hh) as (ex & Hex & ?). by simplify_eq.
  - intros Hr id x. change (<[cl_ID cl := a]> (sv_Clients s) !! id = Some x -> exists c, sv_store s !! x = Some c /\ closable c).
    intros [[_ <-]|[_ Hid]]%lookup_insert_Some; eauto.
Qed.

Lemma begin_session_shape a pk code s cl :
  live e [a] s -> roster s -> sv_store s !! a = Some cl ->
  exists s2, drifts s s2 /\
    (((begin_session e a pk code s).2 = s2 /\ forall u, (begin_session e a pk code s).1 <> Ok u) \/
     exists cl2, sv_store s2 !! a = Some cl2 /\
       (forall x, sv_Clients s2 !! cl_ID cl2 = Some x -> exists ex, sv_store s2 !! x = Some ex /\ handed_over ex) /\
       eases (s2 <| sv_Clients ::= fun m => Clients_Add m (cl_ID cl2) a |>) (begin_session e a pk code s).2).
Proof.
  intros Hs Hr Ha. unfold begin_session. set (m1 := on_client a (emit (fun cl => OnSessionEstablish cl pk))).
  assert (H1 : evolves eases m1) by evolves_go. specialize (H1 s).
  destruct (bind_either m1 (fun _ => sessionPresent ← inheritClientSession e pk a; cl ← on_client a get_client;
    modify (fun s => s <| sv_Clients ::= fun m => Clients_Add m (cl_ID cl) a |>);;
    in_context !"ack connection packet" (on_client a (SendConnack e code sessionPresent None));;
    delete_will (cl_ID cl);; when sessionPresent (in_context !"resend inflight" (on_client a (ResendInflightMessages e true)));;
    on_client a (emit (fun cl => OnSessionEstablished cl pk))) s) as [([] & s1 & E1 & E)|[E Hn]].
  2: { exists (m1 s).2. split; [by apply eases_drifts|left]. by split. }
  rewrite E. clear E. rewrite E1 in H1. cbn [snd] in H1.
  assert (Hs1 : live e [a] s1).
  { assert (H : keeps (live e [a]) m1) by (apply keeps_on_client; [by left|eauto with keeps]).
    specialize (H s Hs). unfold wp in H. by rewrite E1 in H. }
  pose proof (proj2 (eases_keeps a _ _ H1) Hr) as Hr1. apply eases_drifts in H1.
  destruct (proj2 H1 a cl Ha) as (cl1 & Ha1 & _). pose proof (evolves_inheritClientSession pk a s1) as W2.
  match goal with |- context [mbind ?k (inheritClientSession e pk a) s1] =>
    destruct (bind_either (inheritClientSession e pk a) k s1) as [(b & s2 & E2 & E)|[E Hn]] end.
  2: { eexists. split; [etrans; [exact H1|exact W2]|left]. by split. }
  rewrite E. clear E. rewrite E2 in W2. cbn [snd] in W2.
  destruct (proj2 W2 a cl1 Ha1) as (cl2 & Ha2 & _ & Ei2 & _). exists s2. split; [by etrans|right].
  exists cl2. split; [done|]. rewrite (bind_run _ _ _ _ _ (look a s2 cl2 Ha2)), (bind_run (modify _) _ s2 tt _ eq_refl). split.
  - intros x Hx. rewrite (proj1 W2), Ei2 in Hx. exact (inherit_takes pk a s1 cl1 x (proj1 Hs1) Hr1 Ha1 Hx b s2 E2).
  - match goal with |- eases ?s3 (?m ?s3).2 => enough (H : evolves eases m) by exact (H s3) end.
    apply evolves_bind; [apply _|evolves_go|intros ?]. evolves_go.
Qed.

Lemma begin_session_keeps y a pk code s cl :
  live e [a] s -> roster s -> sv_store s !! a = Some cl -> closable cl ->
  keeps_held y s (begin_session e a pk code s).2.
Proof.
  intros Hs Hr Ha Hcl. destruct (begin_session_shape a pk code s cl Hs Hr Ha) as (s2 & W & H).
  etrans; [by apply drifts_keeps|]. destruct H as [[-> _]|(cl2 & Ha2 & Hx & Hw)]; [done|].
  etrans; [|by apply eases_keeps]. destruct (proj2 W a cl Ha) as (c & Hc & (_ & _ & _ & Wc) & _). simplify_eq. by apply add_keeps; [|apply Wc|].
Qed.

Lemma begin_session_held a pk code s cl s' :
  live e [a] s -> roster s -> sv_store s !! a = Some cl -> known (net_Listener (cl_Net cl)) ->
  begin_session e a pk code s = (Ok tt, s') -> held s' a.
Proof.
  intros Hs Hr Ha Hk E. destruct (begin_session_shape a pk code s cl Hs Hr Ha) as (s2 & W & H). rewrite E in H.
  destruct H as [[_ H]|(cl2 & Ha2 & _ & Hw)]; [by destruct (H tt)|]. apply (eases_keeps a _ _ Hw).
  destruct (proj2 W a cl Ha) as (c & Hc & (El & _) & _). simplify_eq. exists cl2. split_and!; [exact Ha2|by rewrite El|right].
  apply lookup_insert_eq.
Qed.

(** ** Accepting *)

(** What is done to the connection [a] leaves the others and the map alone,
    and [a] is open and from its [listener] as long as it was. *)
Definition fresh_client (listener : gostr) (cl : Client) : Prop :=
  net_Listener (cl_Net cl) = listener /\ st_ended (cl_State cl) = false.
Definition attaching (listener : gostr) (a : nat) (s s' : Server) : Prop :=
  sv_Clients s' = sv_Clients s /\
  (forall y, y <> a -> sv_store s' !! y = sv_store s !! y) /\
  (forall cl, sv_store s !! a = Some cl -> fresh_client listener cl -> exists cl', sv_store s' !! a = Some cl' /\ fresh_client listener cl').

#[local] Instance attaching_preorder listener a : PreOrder (attaching listener a).
Proof.
  split; [intros s; split_and!; [done..|]; eauto|]. intros s1 s2 s3 (A1 & A2 & A3) (B1 & B2 & B3). split_and!; [congruence| |].
  - intros y Hy. by rewrite B2, A2.
  - intros cl Ha Hf. destruct (A3 cl Ha Hf) as (cl2 & Ha2 & Hf2). eauto.
Qed.

Definition attaching_view (listener : gostr) (cv cv' : ClientView) : Prop :=
  fresh_client listener (cv_client cv) -> fresh_client listener (cv_client cv').
#[local] Instance attaching_view_preorder listener : PreOrder (attaching_view listener).
Proof. split; [intros cv H; exact H|]. intros c1 c2 c3 A B H. exact (B (A H)). Qed.

Lemma attaching_on_client {A} listener a (m : GoM ClientView A) :
  evolves (attaching_view listener) m -> evolves (attaching listener a) (on_client a m).
Proof.
  intros Hm s. unfold on_client, zoom, client_view. destruct (sv_store s !! a) as [cl|] eqn:E; cbn [mbind option_bind]; [|done].
  specialize (Hm (mkClientView cl (sv_Info s) (sv_events s))). destruct (m _) as [r cv]. cbn [snd] in *.
  split; [done|]. change (sv_store (set_view a cv s)) with (<[a := cv_client cv]> (sv_store s)). split.
  - intros y Hy. by rewrite lookup_insert_ne.
  - intros c Hc Hf. rewrite lookup_insert_eq. simplify_eq. eexists. split; [done|]. by apply Hm.
Qed.

Lemma attaching_set_client listener g :
  (forall cl, fresh_client listener cl -> fresh_client listener (g cl)) -> evolves (attaching_view listener) (set_client g).
Proof. intros H cv. exact (H (cv_client cv)). Qed.

Lemma attaching_quiet {A} listener (m : GoM ClientView A) : frames view_core m -> evolves (attaching_view listener) m.
Proof.
  apply evolves_frames. intros cv cv' E [H1 H2]. apply (f_equal (snd ∘ fst)) in E. destruct (life_fields _ _ E) as (E1 & E2 & _).
  split; congruence.
Qed.
#[local] Hint Resolve attaching_on_client : evolves.
#[local] Hint Resolve attaching_quiet | 4 : evolves.
#[local] Hint Extern 3 (evolves (attaching_view _) (set_client _)) => by apply attaching_set_client : evolves.
#[local] Hint Extern 3 (evolves (attaching_view _) (set_net _)) => by apply attaching_set_client : evolves.

Lemma attaching_readConnectionPacket listener : evolves (attaching_view listener) (readConnectionPacket e).
Proof. unfold readConnectionPacket, ReadFixedHeader, ReadPacket. evolves_go. Qed.

Lemma attaching_ParseConnect listener pk :
  evolves (attaching_view listener) (set_client (fun cl => ParseConnect (ev_Options e) (ev_xid e) cl listener pk)).
Proof. apply attaching_set_client. by intros cl [_ H]. Qed.

Lemma attaching_deadline listener :
  evolves (attaching_view listener) (set_client (fun cl => refreshDeadline (ev_now e) cl (st_Keepalive (cl_State cl)))).
Proof. apply attaching_set_client. intros cl H. unfold refreshDeadline. by destruct (net_Conn _). Qed.
#[local] Hint Resolve attaching_readConnectionPacket attaching_ParseConnect attaching_deadline : evolves.

Lemma evolves_accept_connection listener a : evolves (attaching listener a) (accept_connection e a listener).
Proof. unfold accept_connection. evolves_go. Qed.

(** A connection is established, up to [Read]: those that are held stay so, and
    this one is held when it is not refused. *)
Lemma wpu_on_error {S A} (P : Prop) cleanup (m : GoM S A) s (Q : A + error -> S -> Prop) :
  wpu P m s (fun r s' => match r with inl a => Q (inl a) s' | inr err => Q (inr err) (cleanup s') end) ->
  wpu P (on_error cleanup m) s Q.
Proof. unfold wpu, wp, on_error. destruct (m s) as [[a|err| |] s']; cbn; intros [[H HP]|H]; auto; done. Qed.

Lemma wpu_evolves {S A} (P : Prop) (R : S -> S -> Prop) (m : GoM S A) s Q :
  evolves R m -> wpu P m s Q -> wpu P m s (fun r s' => Q r s' /\ R s s').
Proof. intros Hm [H|H]; [by left|right]. by apply wp_evolves. Qed.

(** A client object that no one knows. *)
Definition unknown (s : Server) (a : nat) : Prop := forall id, sv_Clients s !! id <> Some a.

Lemma attaching_kept listener a s s' :
  unknown s a -> attaching listener a s s' -> (forall y, y <> a -> held s y -> held s' y) /\ (roster s -> roster s').
Proof.
  intros Hu (Ec & Hother & _). split.
  - intros y Hy (cl & Hcl & H). exists cl. by rewrite Hother, Ec.
  - intros Hr id x. rewrite Ec. intros Hid. rewrite Hother; [eauto|]. intros ->. by destruct (Hu id).
Qed.

Lemma attach_begin_spec (Hh : reads_typed e) whole listener a s cl :
  bytes_ok whole -> live e [a] s -> unknown s a -> roster s -> sv_store s !! a = Some cl ->
  net_Conn (cl_Net cl) = true -> is_u8 (version_of cl) -> stream_of cl = whole ->
  fresh_client listener cl -> known listener ->
  wpu (panics_on e whole) (attach_begin e a listener) s (fun r s' =>
    server_ok e s' /\ roster s' /\ (forall y, y <> a -> held s y -> held s' y) /\ (r = inl tt -> held s' a)).
Proof.
  intros Hb Hs Hu Hr Ha Hc Hv Hst Hf Hk. unfold attach_begin. apply wpu_on_error.
  pose proof (accept_connection_spec e He Hh whole Hb a listener 0 s cl Hs Ha Hc Hv Hst) as Hacc.
  apply (wpu_evolves _ _ _ _ _ (evolves_accept_connection listener a)) in Hacc.
  apply wpu_bind. eapply wpu_mono; [exact Hacc|]. clear Hacc. intros [[pk code]|err] s1 [H1 W1]; pose proof W1 as W1'; apply attaching_kept in W1' as [K1 R1]; [|done| |done].
  2: { pose proof (eases_stop_client e a s1) as W2. split_and!; [by apply stop_client_ok|apply (eases_keeps a _ _ W2); auto| |done].
       intros y Hy Hy1. apply (eases_keeps y _ _ W2). auto. }
  destruct H1 as (n1 & [Hl1 _]). destruct (proj2 (proj2 W1) cl Ha Hf) as (cl1 & Ha1 & Hf1).
  apply wpu_bind, wpu_wp, wp_modify. set (s2 := count_connected 1 s1).
  assert (Hl2 : live e [a] s2) by by apply count_connected_live. pose proof (R1 Hr) as Hr1.
  assert (Hcl1 : closable cl1) by (right; apply Hf1). assert (Hk1 : known (net_Listener (cl_Net cl1))) by (by rewrite (proj1 Hf1)).
  apply wpu_on_error, wpu_wp. pose proof (keeps_begin_session e He [a] a pk code ltac:(by left) s2 Hl2) as H.
  pose proof (fun y => begin_session_keeps y a pk code s2 cl1 Hl2 Hr1 Ha1 Hcl1) as K2.
  pose proof (begin_session_held a pk code s2 cl1) as Hheld.
  unfold wp in *. destruct (begin_session e a pk code s2) as [[[]|err| |] s3] eqn:E3; try done; cbn [snd] in K2.
  - split_and!; [apply H|by apply (K2 a)|intros y Hy Hy1; apply (K2 y); by apply K1|intros _; by eapply Hheld].
  - set (s4 := count_connected (-1) s3). assert (W : eases s3 (stop_client e a s4)).
    { transitivity s4; [|apply eases_stop_client]. by apply cores_eases. }
    split_and!; [by apply stop_client_ok, count_connected_live|apply (eases_keeps a _ _ W), (K2 a), Hr1| |done].
    intros y Hy Hy1. apply (eases_keeps y _ _ W), (K2 y). by apply K1.
Qed.

Lemma establish_spec (Hh : reads_typed e) listener remote stream s :
  bytes_ok stream -> server_ok e s -> roster s -> known listener ->
  wpu (panics_on e stream) (establish e listener remote stream) s (fun r s' =>
    server_ok e s' /\ roster s' /\ (forall y, held s y -> held s' y) /\ (forall a, r = inl a -> held s' a)).
Proof.
  intros Hb Hs Hr Hk. unfold establish. apply wpu_bind, wpu_wp.
  destruct (NewClient_reading e listener remote stream) as (Hc & Hv & Hst). set (cl := _ <| cl_Net ::= _ |>) in *.
  assert (Hcl : client_ok e cl) by (destruct (NewClient_ok e He (Some remote) listener [] false); by constructor).
  unfold wp, allocate. set (a := fresh_address s). set (s0 := s <| sv_store ::= <[a := cl]> |>).
  assert (Hl : live e [a] s0).
  { assert (H : wp (allocate cl) s (fun r s' => r = inl a -> live e [a] s')).
    { apply (allocate_ok e [] cl s _ Hcl); [split; [done|by intros ? ?%elem_of_nil]|]. by intros b s' Hs' [= ->]. }
    exact (H eq_refl). }
  assert (Hfresh : sv_store s !! a = None) by (apply not_elem_of_dom; exact (is_fresh (dom (sv_store s)))).
  assert (Hold : forall x, x <> a -> sv_store s0 !! x = sv_store s !! x) by (intros x Hx; by apply lookup_insert_ne).
  assert (Hu : unknown s0 a) by (intros id Hid; destruct (Hr id a Hid) as (c & Hx & _); congruence).
  assert (Hr0 : roster s0).
  { intros id x Hid. destruct (Hr id x Hid) as (c & Hx & ?). exists c. rewrite Hold; [done|]. congruence. }
  assert (Hh0 : forall y, held s y -> y <> a /\ held s0 y).
  { intros y (c & Hy & H). assert (y <> a) by congruence. split; [done|]. exists c. by rewrite Hold. }
  apply wpu_bind. eapply wpu_mono; [by apply (attach_begin_spec Hh stream listener a s0 cl); [..|apply lookup_insert_eq| | | | |]|].
  intros [[]|err] s1 (H1 & H2 & H3 & H4).
  - apply wpu_wp, wp_ret. split_and!; [done|done|intros y Hy; destruct (Hh0 y Hy); auto|]. intros b [= <-]. by apply H4.
  - split_and!; [done|done|intros y Hy; destruct (Hh0 y Hy); auto|done].
Qed.
End Held.
