(* ===== verification/Running.v ===== *)
(** * A server that runs

    Between [Serve] and [Close] a process moves by the steps of its goroutines:
    connections begin on its listeners, packets are received and written,
    connections end, the tickers of the event loop fire, the program publishes
    and subscribes. Whatever these steps do, [Close] ends it all. *)
From S2P Require Import Prelude Codes Effects Codec FixedHeader Properties Packets Wire Topics Aliases TopicsFacts Inflight InflightFacts System Clients ClientIO ClientIOFacts ClientFacts Publish PublishFacts Delivery Server Sessions SysTopics Frames ServerFacts Broker Connection Json JsonCodec Storage HookChain HookFacts Restore RestoreFacts Listeners AcceptLoop Lifecycle LifecycleFacts Shutdown Startup Takeover Lives.

Section Running.
Context {RO : RangeOrder} {W C : Type}.
Implicit Types p : Process W C.

(** The session of no connection that is still handled has expired. *)
Definition none_expired (e : Env) p : Prop :=
  forall a cl, a ∈ pr_attached p -> sv_store (pr_server p) !! a = Some cl -> session_expired e (ev_now e) cl = false.

(** What the goroutines of a process may do next. *)
Inductive process_act (e : Env) p : GoM (Process W C) unit -> Prop :=
| pact_connect listener remote stream :
    is_Some (pr_listeners p !! listener) -> bytes_ok stream -> (establish e listener remote stream (pr_server p)).1 <> Panic ->
    process_act e p (begin_connection e listener remote stream)
| pact_receive a pk : a ∈ pr_attached p -> is_u16 (pk_PacketID pk) -> process_act e p (in_server (receivePacket e a pk))
| pact_write a : a ∈ pr_attached p -> process_act e p (in_server (on_client a (WriteLoop_round e)))
| pact_end a err : a ∈ pr_attached p -> process_act e p (end_connection e a err)
| pact_stop a err : is_Some (sv_store (pr_server p) !! a) -> process_act e p (in_server (on_client a (stop e err)))
| pact_disconnect a code :
    is_Some (sv_store (pr_server p) !! a) -> process_act e p (in_server (on_client a (DisconnectClient e code)))
| pact_tick memory threads tick :
    (tick = ClientExpiryTick -> none_expired e p) -> process_act e p (in_server (eventLoop_case e memory threads tick))
| pact_publish topic payload retain qos :
    is_u16 qos -> process_act e p (in_server (Server_Publish e topic payload retain qos))
| pact_subscribe filter id handler : process_act e p (in_server (Server_Subscribe e filter id handler))
| pact_unsubscribe filter id : process_act e p (in_server (Server_Unsubscribe e filter id)).

Inductive process_step (o : Options) : Process W C -> Process W C -> Prop :=
| process_action e p m :
    ev_Options e = o -> env_ok e -> reads_typed e -> process_act e p m -> process_step o p (m p).2.

(** ** The invariant *)

Definition known_to p (listener : gostr) : Prop := is_Some (pr_listeners p !! listener).

Record running (e : Env) p : Prop := mkRunning {
  rn_server : server_ok e (pr_server p);
  rn_listeners : listeners_ok (pr_listeners p);
  rn_hooks : hookset_ok (pr_hooks p);
  rn_return : hooks_return (pr_hooks p);
  rn_roster : roster (pr_server p);
  rn_held : forall a, a ∈ pr_attached p -> held (known_to p) (pr_server p) a;
  rn_open : pr_done p = false;
}.

Lemma held_attached e p : running e p -> attached_ok p.
Proof.
  intros [_ _ _ _ _ Hh _] a Ha. destruct (Hh a Ha) as (cl & Hcl & Hk & H). exists cl. split; [done|].
  destruct H as [[_ Hc]|H]; [by left|right]. split; [by exists (cl_ID cl)|done].
Qed.

Lemma running_options e e' p : ev_Options e = ev_Options e' -> running e p -> running e' p.
Proof. intros E [H1 H2 H3 H4 H5 H6 H7]. split; try done. by apply (server_ok_options e). Qed.

Context (e : Env) (He : env_ok e) (Hr : reads_typed e).
Context (Hactive : co_PassiveClientDisconnect (ca_Compatibilities (ev_Capabilities e)) = false).

(** An operation on the server that keeps the connections. *)
Lemma wp_in_server {A} (m : GoM Server A) p Q :
  hooks_return (pr_hooks p) -> wp m (pr_server p) Q ->
  wp (in_server m) p (fun r p' => Q r (pr_server p') /\ outside p' = outside p).
Proof.
  intros Hh Hm. pose proof (wp_on_server (pr_hooks p) m (pr_server p) (pr_world p) Q Hh Hm) as H.
  unfold wp, in_server, on_both in *. destruct (on_server _ _ _) as [[a|err| |] [s w]]; done.
Qed.

Lemma running_server p p' :
  running e p -> outside p' = outside p -> server_ok e (pr_server p') ->
  (forall y, y ∈ pr_attached p -> keeps_held (known_to p) y (pr_server p) (pr_server p')) ->
  (roster (pr_server p) -> roster (pr_server p')) -> running e p'.
Proof.
  intros [H1 H2 H3 H4 H5 H6 H7] E Hs Hk Hro. destruct (outside_fields _ _ E) as (E1 & E2 & E3 & E4 & E5 & E6).
  split; [done|by rewrite E2|by rewrite E1|by rewrite E1|auto| |by rewrite E5]. rewrite E6. intros a Ha. unfold known_to. rewrite E2. by apply Hk, H6.
Qed.

Lemma running_eases {A} (m : GoM Server A) p :
  running e p -> wp m (pr_server p) (fun _ => server_ok e) -> evolves eases m ->
  wp (in_server m) p (fun _ => running e).
Proof.
  intros Hp Hm Hev. pose proof (wp_in_server m p _ (rn_return e p Hp) (wp_evolves eases m _ _ Hev Hm)) as H.
  eapply wp_mono; [exact H|]. intros r p' [[Hs Hw] E]. apply (running_server p); [done..| |].
  - intros y _. by apply eases_keeps.
  - apply (eases_keeps (fun _ => True) 0%nat _ _ Hw).
Qed.

(** ** Every step keeps the invariant *)

Lemma wp_outcome {S A} (m : GoM S A) s Q : wp m s Q -> wp m s (fun r s' => Q r s' /\ s' = (m s).2).
Proof. unfold wp. by destruct (m s) as [[a|err| |] s']. Qed.

Lemma running_connect listener remote stream p :
  running e p -> known_to p listener -> bytes_ok stream -> (establish e listener remote stream (pr_server p)).1 <> Panic ->
  wp (begin_connection e listener remote stream) p (fun _ => running e).
Proof.
  intros Hp Hk Hb Hn. unfold begin_connection. apply wp_bind.
  destruct (establish_spec (known_to p) e He Hactive Hr listener remote stream (pr_server p) Hb (rn_server e p Hp) (rn_roster e p Hp) Hk)
    as [[H _]|H]; [done|].
  eapply wp_mono; [exact (wp_in_server _ p _ (rn_return e p Hp) H)|]. intros r p1 [(Hs & Hro & Hold & Hnew) E].
  assert (H1 : running e p1) by (apply (running_server p); [done..|intros y _; split; [apply Hold|done]|done]).
  destruct r as [a|err]; [|done]. apply wp_modify. destruct H1 as [K1 K2 K3 K4 K5 K6 K7]. split; [done..| |done].
  change (forall x, x ∈ pr_attached p1 ++ [a] -> held (known_to p1) (pr_server p1) x).
  intros x [Hx|Hx%list_elem_of_singleton]%elem_of_app; [by apply K6|]. subst x.
  destruct (outside_fields _ _ E) as (_ & E2 & _). unfold known_to. rewrite E2. by apply Hnew.
Qed.

Lemma running_end a err p :
  running e p -> a ∈ pr_attached p -> wp (end_connection e a err) p (fun _ => running e).
Proof.
  intros Hp Ha. unfold end_connection. apply wp_bind, wp_ignore. pose proof (rn_held e p Hp a Ha) as Hheld.
  assert (Hl : live e [a] (pr_server p)).
  { split; [apply Hp|]. intros x ->%list_elem_of_singleton. destruct Hheld as (cl & Hcl & _). by exists cl. }
  pose proof (wp_in_server _ p _ (rn_return e p Hp) (wp_outcome _ _ _ (attach_end_ok e He a err _ Hl))) as H.
  eapply wp_mono; [exact H|]. intros r p1 [[Hs E1] E]. apply wp_modify.
  set (p2 := p1 <| pr_attached ::= base.filter (fun x => x <> a) |>).
  assert (Hk : forall y, y <> a -> keeps_held (known_to p) y (pr_server p) (pr_server p1)).
  { intros y Hy. rewrite E1. by apply attach_end_keeps. }
  destruct (outside_fields _ _ E) as (F1 & F2 & _ & _ & F5 & F6). destruct Hp as [H1 H2 H3 H4 H5 H6 H7]. split.
  - exact Hs.
  - change (listeners_ok (pr_listeners p1)). by rewrite F2.
  - change (hookset_ok (pr_hooks p1)). by rewrite F1.
  - change (hooks_return (pr_hooks p1)). by rewrite F1.
  - change (roster (pr_server p1)). by apply (Hk (S a)); [lia|].
  - change (forall y, y ∈ base.filter (fun x => x <> a) (pr_attached p1) -> held (known_to p1) (pr_server p1) y).
    intros y [Hy Hin]%list_elem_of_filter. unfold known_to. rewrite F2. apply (Hk y Hy), H6. by rewrite <- F6.
  - change (pr_done p1 = false). by rewrite F5.
Qed.

Lemma running_tick memory threads tick p :
  running e p -> (tick = ClientExpiryTick -> none_expired e p) ->
  wp (in_server (eventLoop_case e memory threads tick)) p (fun _ => running e).
Proof.
  intros Hp Hn. pose proof (action_safe e He _ _ (rn_server e p Hp) (act_tick e _ memory threads tick)) as H.
  assert (Ht : tick = ClientExpiryTick \/ tick <> ClientExpiryTick) by (destruct tick; by (left + right)). destruct Ht as [->|Ht].
  2: { apply running_eases; [done|done|]. destruct tick; try done; unfold eventLoop_case; evolves_go. }
  eapply wp_mono; [exact (wp_in_server _ p _ (rn_return e p Hp) (wp_outcome _ _ _ H))|]. intros r p' [[Hs E1] E].
  assert (Hk : forall y, y ∈ pr_attached p -> keeps_held (known_to p) y (pr_server p) (pr_server p')).
  { intros y Hy. rewrite E1. apply clearExpiredClients_keeps. intros cl Hcl. by apply (Hn eq_refl y). }
  apply (running_server p); [done..|]. intros Hro. rewrite E1. unfold eventLoop_case.
  set (z := fresh_address (pr_server p)). apply (clearExpiredClients_keeps (known_to p) e z); [|done]. intros cl Hcl. exfalso.
  assert (Hz : sv_store (pr_server p) !! z = None) by (apply not_elem_of_dom; exact (is_fresh (dom (sv_store (pr_server p))))). congruence.
Qed.

Lemma act_running p m : running e p -> process_act e p m -> wp m p (fun _ => running e).
Proof.
  intros Hp Hm. pose proof (rn_server e p Hp) as Hs.
  assert (Hsome : forall a, a ∈ pr_attached p -> is_Some (sv_store (pr_server p) !! a)).
  { intros a Ha. destruct (rn_held e p Hp a Ha) as (cl & Hcl & _). by exists cl. }
  destruct Hm as [listener remote stream Hk Hb Hn|a pk Ha Hid|a Ha|a err Ha|a err Ha|a code Ha|memory threads tick Hn
    |topic payload retain qos Hq|filter id handler|filter id].
  - by apply running_connect.
  - apply running_eases; [done|apply (action_safe e He _ _ Hs); apply act_receive; auto|evolves_go].
  - apply running_eases; [done|apply (action_safe e He _ _ Hs); apply act_write; auto|evolves_go].
  - by apply running_end.
  - apply running_eases; [done|apply (action_safe e He _ _ Hs); by apply act_stop|evolves_go].
  - apply running_eases; [done|apply (action_safe e He _ _ Hs); by apply act_disconnect|evolves_go].
  - by apply running_tick.
  - apply running_eases; [done|apply (action_safe e He _ _ Hs); by apply act_publish|evolves_go].
  - apply running_eases; [done|apply (action_safe e He _ _ Hs); by apply act_subscribe|evolves_go].
  - apply running_eases; [done|apply (action_safe e He _ _ Hs); by apply act_unsubscribe|evolves_go].
Qed.
End Running.

Section Reachable.
Context {RO : RangeOrder} {W C : Type}.
Implicit Types p : Process W C.

Lemma running_steps e0 p p' :
  co_PassiveClientDisconnect (ca_Compatibilities (ev_Capabilities e0)) = false ->
  running e0 p -> rtc (process_step (ev_Options e0)) p p' -> running e0 p'.
Proof.
  intros Hactive Hp H. revert Hp. induction H as [p|p1 p2 p3 Hstep _ IH]; [done|]. intros Hp. apply IH.
  destruct Hstep as [e p m Eo He Hrd Hm]. apply (running_options e); [done|]. apply (wp_returns m p (running e)).
  apply act_running; [done|done| |by apply (running_options e0)|done]. unfold ev_Capabilities in *. by rewrite Eo.
Qed.

(** A server that was started runs. *)
Lemma New_roster e : roster (New e).
Proof.
  intros id a. unfold New. destruct (op_InlineClient _).
  - set (cl := NewClient e None LocalListener InlineClientId true).
    change (<[InlineClientId := 0%nat]> (∅ : Clients) !! id = Some a -> exists c, ({[ 0%nat := cl ]} : gmap nat Client) !! a = Some c /\ closable c).
    intros [[_ <-]|[_ H]]%lookup_insert_Some; [|by rewrite lookup_empty in H]. exists cl. split; [apply lookup_singleton_eq|by right].
  - change ((∅ : Clients) !! id = Some a -> exists c, (∅ : gmap nat Client) !! a = Some c /\ closable c). intros H. by rewrite lookup_empty in H.
Qed.

Lemma served_running e memory threads (hooks : list (Hook W C * C)) ids p :
  env_ok e -> (forall h, Hooks_GetAll h = hooks.*1 -> hooks_return h) -> served e memory threads hooks ids p -> running e p.
Proof.
  intros He Hret [Es Hl _ _ Hho Hg Ea Hloop].
  assert (W0 : eases (New e) (pr_server p)) by (rewrite Es; apply evolves_quiet, frames_publishSysTopics_core).
  split; [|done|done|by apply Hret| | |].
  - rewrite Es. refine (proj2 (wp_returns _ _ _ (action_safe e He (New e) _ (New_ok e He) (act_tick e _ memory threads SysTopicsTick)))).
  - apply (eases_keeps (fun _ => True) 0%nat _ _ W0), New_roster.
  - rewrite Ea. by intros a ?%elem_of_nil.
  - unfold loop_running in Hloop. apply andb_true_iff in Hloop as [_ H]. by apply negb_true_iff.
Qed.

(** What may happen to a server that runs, in an environment [e]. *)
Definition holds_out (e : Env) p : Prop :=
  (forall m, process_act e p m -> returns (m p).1) /\
  (forall listener remote stream, is_Some (pr_listeners p !! listener) -> bytes_ok stream ->
     (establish e listener remote stream (pr_server p)).1 = Panic -> panics_on e stream) /\
  (forall read, exists p', Close e read p = (Ok tt, p') /\ closed_down e read p p').

Lemma running_holds_out e p :
  env_ok e -> reads_typed e -> co_PassiveClientDisconnect (ca_Compatibilities (ev_Capabilities e)) = false ->
  running e p -> holds_out e p.
Proof.
  intros He Hrd Ha Hp. split_and!.
  - intros m Hm. exact (proj1 (wp_returns m p (running e) (act_running e He Hrd Ha p m Hp Hm))).
  - intros listener remote stream Hk Hb Hpan.
    destruct (establish_spec (known_to p) e He Ha Hrd listener remote stream (pr_server p) Hb (rn_server e p Hp) (rn_roster e p Hp) Hk) as [[_ H]|H]; [done|].
    unfold wp in H. destruct (establish _ _ _ _ _) as [[a|err| |] s]; done.
  - intros read. pose proof (held_attached e p Hp) as Hat. destruct Hp as [H1 H2 H3 H4 H5 H6 H7].
    apply server_shutdown; try done. by apply roster_closable.
Qed.

(** And from there on, in any environment with the same options. *)
Lemma running_forever e0 p0 :
  co_PassiveClientDisconnect (ca_Compatibilities (ev_Capabilities e0)) = false -> running e0 p0 ->
  forall p, rtc (process_step (ev_Options e0)) p0 p ->
  forall e, ev_Options e = ev_Options e0 -> env_ok e -> reads_typed e -> holds_out e p.
Proof.
  intros Hactive H0 p Hsteps e Eo He Hrd. apply running_holds_out; [done|done| |].
  - unfold ev_Capabilities in *. by rewrite Eo.
  - apply (running_options e0); [done|]. by apply (running_steps e0 p0).
Qed.

End Reachable.

(** ** A server with two connections of one client *)

Definition start_sample : Process Z unit :=
  (Serve reliable_env sample_network 0 0 sample_listeners sample_hooks (NewProcess reliable_env 7)).2.
Definition first_sample : Process Z unit := (begin_connection reliable_env !"tcp" !"peer" short_session start_sample).2.
Definition second_sample : Process Z unit := (begin_connection reliable_env !"tcp" !"peer" short_session first_sample).2.
Definition busy_sample : Process Z unit := (in_server (receivePacket reliable_env 1 subscribe_sample) second_sample).2.

Lemma sample_connects p r :
  bool_decide (is_Some (pr_listeners p !! (!"tcp"))) = true -> (establish reliable_env !"tcp" !"peer" short_session (pr_server p)).1 = Ok r ->
  process_step (W := Z) (C := unit) (ev_Options reliable_env) p (begin_connection reliable_env !"tcp" !"peer" short_session p).2.
Proof.
  intros Hl%bool_decide_eq_true E. apply (process_action _ reliable_env); [done|exact reliable_env_ok|exact transparent_reads_typed|].
  apply pact_connect; [exact Hl| |rewrite E; discriminate]. repeat (constructor; [unfold is_u8; lia|]). constructor.
Qed.

Lemma busy_sample_reached : rtc (process_step (ev_Options reliable_env)) start_sample busy_sample.
Proof.
  eapply rtc_l; [apply (sample_connects start_sample 0%nat); vm_compute; reflexivity|].
  eapply rtc_l; [apply (sample_connects first_sample 1%nat); vm_compute; reflexivity|].
  apply rtc_once. apply (process_action _ reliable_env); [done|exact reliable_env_ok|exact transparent_reads_typed|].
  apply pact_receive; [apply (bool_decide_unpack _); vm_compute; exact I|split; [discriminate|reflexivity]].
Qed.


(** With the compatibility flag that a disconnected client is not stopped, a
    connection whose peer does not close it is not ended, and [Close] waits for
    it. *)
Definition passive_env : Env := reliable_env <| ev_Options ::= fun o => o <| op_Capabilities ::= fun c =>
  c <| ca_Compatibilities ::= fun k => k <| co_PassiveClientDisconnect := true |> |> |> |>.
Definition passive_sample : Process Z unit := (begin_connection passive_env !"tcp" !"peer" short_session start_sample).2.

Lemma Close_passive_waits :
  pr_attached passive_sample = [0%nat] /\ (Close passive_env (fun _ => None) passive_sample).1 = Diverge.
Proof. vm_compute. done. Qed.
