(* ===== verification/Examples.v ===== *)
(** * The hooks of the example programs (examples/server_auth, examples/server_demo,
    examples/hooks, examples/paho.testing)

    Hooks that a program brings itself. Some of them call back into the server
    or change the client they are told about; those methods are operations on
    the server, or on the client. What they only write to a log is left out.
    [msg_hook.go] is the same file in server_auth and in server_demo. *)
From S2P Require Import Prelude Codes Effects Codec FixedHeader Properties Packets Topics Aliases Inflight System Clients Json JsonCodec Storage HookChain ClientIO Publish Server Sessions Stores Ledger.

(** ** The ledger hook of server_auth (auth_hook.go) *)

Section AuthHook.
Context {RO : RangeOrder} (yaml_Unmarshal : bytes -> Ledger -> Ledger * option error).

(** The [Server] of the options is not used. *)
Record AuthHookOptions := mkAuthHookOptions {
  aho_Data : bytes;
  aho_Ledger : option Ledger;
}.
Record server_AuthHook := mkServerAuthHook {
  sah_config : option AuthHookOptions;
  sah_ledger : option Ledger;
}.

Definition server_auth_Provides (b : Z) : bool :=
  existsb (Z.eqb b) [code_OnConnect; code_OnDisconnect; code_OnConnectAuthenticate; code_OnACLCheck].

Definition server_auth_Init (config : Config AuthHookOptions) : GoM server_AuthHook unit := fun h =>
  match config with
  | OtherConfig => (Err EInvalidConfigType, h)
  | NilConfig | GivenConfig _ =>
      let o := match config with GivenConfig o => o | _ => mkAuthHookOptions [] None end in
      let h := h <| sah_config := Some o |> in
      let '(h, err) := match aho_Ledger o with
        | Some l => (h <| sah_ledger := Some l |>, None)
        | None =>
            if nonempty (aho_Data o)
            then let '(l, err) := Ledger_Unmarshal yaml_Unmarshal (aho_Data o) Ledger0 in (h <| sah_ledger := Some l |>, err)
            else (h, None)
        end in
      match err with
      | Some err => (Err err, h)
      | None =>
          (Ok tt, match sah_ledger h with
            | Some _ => h
            | None => h <| sah_ledger := Some (mkLedger None (Some []) (Some [])) |>
            end)
      end
  end.

(** The remote address that is logged is asked of the connection, and the rule
    that matched is printed: [h.ledger.Auth[n]]. *)
Definition server_auth_OnConnectAuthenticate (cl : Client) (pk : Packet) : GoM server_AuthHook bool := fun h =>
  if negb (net_Conn (cl_Net cl)) then (Panic, h)
  else match sah_ledger h with
  | None => (Panic, h)
  | Some l =>
      let '(n, ok) := AuthOk l cl pk in
      if negb ok then (Ok false, h)
      else if n <? Z.of_nat (length (default [] (le_Auth l))) then (Ok true, h) else (Panic, h)
  end.

Definition server_auth_OnACLCheck (cl : Client) (topic : gostr) (write : bool) : GoM server_AuthHook bool := fun h =>
  match sah_ledger h with
  | None => (Panic, h)
  | Some l => (Ok (ACLOk l cl topic write).2, h)
  end.

Definition server_auth_hook : Hook server_AuthHook (Config AuthHookOptions) := HookBase
  <| h_ID := !"auth-ledger" |>
  <| h_Provides := server_auth_Provides |>
  <| h_Init := server_auth_Init |>
  <| h_OnConnectAuthenticate := server_auth_OnConnectAuthenticate |>
  <| h_OnACLCheck := server_auth_OnACLCheck |>.
End AuthHook.

(** The ledger of server_auth. *)
Definition terminal_filters : Filters :=
  <[ !"/terminal/+/sync" := WriteOnly ]> (<[ !"/terminal/+/setting" := ReadOnly ]> (<[ !"/terminal/+/up" := WriteOnly ]>
  (<[ !"/terminal/+/down" := ReadOnly ]> (<[ !"/terminal/+/notice" := ReadOnly ]> (<[ !"/sdk/+/setting" := WriteOnly ]>
  (<[ !"/sdk/+/down" := WriteOnly ]> (<[ !"/sdk/+/notice" := WriteOnly ]> (<[ !"$SYS/#" := Deny ]> ∅)))))))).
Definition sdk_filters : Filters :=
  <[ !"/sdk/+/setting" := ReadOnly ]> (<[ !"/sdk/+/sync" := WriteOnly ]> (<[ !"/sdk/+/up" := WriteOnly ]>
  (<[ !"/sdk/+/down" := ReadOnly ]> (<[ !"/sdk/+/notice" := ReadOnly ]> (<[ !"/terminal/+/setting" := WriteOnly ]>
  (<[ !"/terminal/+/down" := WriteOnly ]> (<[ !"/terminal/+/notice" := WriteOnly ]> (<[ !"$SYS/#" := Deny ]> ∅)))))))).
Definition other_filters : Filters := <[ !"down/#" := ReadOnly ]> (<[ !"up/#" := Deny ]> (<[ !"#" := Deny ]> ∅)).

Definition server_auth_ledger : Ledger := mkLedger None
  (Some [mkAuthRule [] !"terminal" [] !"password1" true;
         mkAuthRule [] !"sdk" [] !"password2" true;
         mkAuthRule [] [] !"127.0.0.1:*" [] false])
  (Some [mkACLRule [] !"terminal" [] terminal_filters;
         mkACLRule [] !"sdk" [] sdk_filters;
         mkACLRule [] [] [] other_filters]).

(** ** The message hook (msg_hook.go) *)

(** [MsgHookOptions]: whether the server is set; [ExampleHookOptions] is the same. *)
Record MsgHookOptions := mkMsgHookOptions {
  mho_Server : bool;
}.

Definition msg_Provides (b : Z) : bool :=
  existsb (Z.eqb b) [code_OnConnect; code_OnConnectAuthenticate; code_OnPacketRead; code_OnPacketSent; code_OnDisconnect;
    code_OnSubscribed; code_OnSubscribe; code_OnUnsubscribed; code_OnPublished; code_OnPublish; code_OnQosDropped;
    code_OnPublishDropped; code_OnQosPublish; code_OnQosComplete; code_OnQosDropped; code_OnPacketIDExhausted].

(** The type assertion of a nil configuration panics. *)
Definition msg_Init (config : Config MsgHookOptions) : GoM (option MsgHookOptions) unit := fun h =>
  match config with
  | OtherConfig => (Err EInvalidConfigType, h)
  | NilConfig => (Panic, h)
  | GivenConfig o => (if mho_Server o then Ok tt else Err EInvalidConfigType, Some o)
  end.

Definition msg_OnACLCheck {W} (cl : Client) (topic : gostr) (write : bool) : GoM W bool := mret false.
Definition msg_OnConnectAuthenticate {W} (cl : Client) (pk : Packet) : GoM W bool := mret true.
Definition msg_OnSubscribe {W} (cl : Client) (pk : Packet) : GoM W Packet := mret pk.
Definition msg_OnPacketRead {W} (cl : Client) (pk : Packet) : GoM W Packet := mret pk.
Definition msg_OnPublish {W} (cl : Client) (pk : Packet) : GoM W Packet := mret pk.

(** A client that is known under the id of the connecting one is disconnected
    and deleted. *)
Definition msg_OnConnect (e : Env) (cl : Client) : GoM Server unit :=
  s ← get_state;
  match Clients_Get (sv_Clients s) (cl_ID cl) with
  | Some x =>
      ignore (on_client x (DisconnectClient e ErrAdministrativeAction));;
      tmpClient ← on_client x get_client;
      modify (fun s => s <| sv_Clients ::= fun m => Clients_Delete m (cl_ID tmpClient) |>)
  | None => mret tt
  end.

Record TopicParam := mkTopicParam {
  tp_Path : gostr;
  tp_ClientID : gostr;
  tp_Act : gostr;
}.

(** A group [(.+?)/] and what [k] makes of the rest: the shortest that is not
    empty, has no new line and lets the rest match. *)
Fixpoint lazy_group {A} (k : gostr -> option A) (acc s : gostr) : option (gostr * A) :=
  match s with
  | [] => None
  | c :: t =>
      if c =? 10 then None
      else
        let acc := acc ++ [c] in
        match (match t with slash :: rest => if slash =? 47 then k rest else None | [] => None end) with
        | Some a => Some (acc, a)
        | None => lazy_group k acc t
        end
  end.

(** [(.+?)$] *)
Definition last_group (s : gostr) : option gostr :=
  if nonempty s && negb (contains_byte 10 s) then Some s else None.

(** [^/(.+?)/(.+?)/(.+?)$] *)
Definition topicParams (topic : gostr) : option TopicParam :=
  match topic with
  | c :: s =>
      if c =? 47 then
        '(path, (client, act)) ← lazy_group (lazy_group last_group []) [] s;
        Some (mkTopicParam path client act)
      else None
  | [] => None
  end.

(** ** The example hook (examples/hooks) *)

Definition example_Provides (b : Z) : bool :=
  existsb (Z.eqb b) [code_OnConnect; code_OnDisconnect; code_OnSubscribed; code_OnUnsubscribed; code_OnPublished; code_OnPublish].

(** [Init] is that of the message hook. The handler that logs is number 0. *)
Definition example_OnConnect (e : Env) {RO : RangeOrder} : GoM Server unit :=
  ignore (Server_Subscribe e !"hook/direct/publish" 1 (Some 0));;
  ignore (Server_Publish e !"hook/direct/publish" !"packet hook message" false 0).

Definition example_OnPublish {W} (cl : Client) (pk : Packet) : GoM W Packet :=
  mret (if str_eqb (pk_Payload pk) !"hello" then pk <| pk_Payload := !"hello world" |> else pk).

(** What the goroutines of the program do on their tickers, with a client of
    their own. *)
Definition example_client (e : Env) : GoM Server nat := allocate (NewClient e None !"local" !"inline" true).
Definition example_injects (e : Env) {RO : RangeOrder} (a : nat) : GoM Server unit :=
  ignore (InjectPacket e a (Packet0 <| pk_FixedHeader := FixedHeader0 <| fh_Type := Publish |> |>
    <| pk_TopicName := !"direct/publish" |> <| pk_Payload := !"injected scheduled message" |>)).
Definition example_publishes (e : Env) {RO : RangeOrder} : GoM Server unit :=
  ignore (Server_Publish e !"direct/publish" !"packet scheduled message" false 0).

(** ** The hook for the paho tests (examples/paho.testing) *)

Definition paho_Provides (b : Z) : bool := existsb (Z.eqb b) [code_OnConnectAuthenticate; code_OnConnect; code_OnACLCheck].
Definition paho_OnConnectAuthenticate {W} (cl : Client) (pk : Packet) : GoM W bool := mret true.
Definition paho_OnACLCheck {W} (cl : Client) (topic : gostr) (write : bool) : GoM W bool :=
  mret (negb (str_eqb topic !"test/nosubscribe")).

(** It sets the keepalive that the server announces. *)
Definition paho_OnConnect (pk : Packet) : GoM ClientView unit :=
  if (cp_Keepalive (pk_Connect pk) =? 120) && cp_Clean (pk_Connect pk) then
    set_client (fun cl => cl <| cl_State ::= fun st => st <| st_Keepalive := 60 |> <| st_ServerKeepalive := true |> |>)
  else mret tt.

(** The options of that program, which it changes after [New]. *)
Definition paho_options : Options := DefaultOptions <| op_Capabilities ::= fun c => c <| ca_Compatibilities ::= fun k =>
  k <| co_ObscureNotAuthorized := true |> <| co_PassiveClientDisconnect := true |> <| co_NoInheritedPropertiesOnAck := true |> |> |>.

(** ** What the hooks of the example programs do *)
From S2P Require Import Prelude Codes Effects Codec FixedHeader Properties Packets Topics TopicsFacts Aliases Inflight InflightFacts System Clients Json JsonCodec Storage HookChain ClientIO ClientIOFacts ClientFacts Publish PublishFacts Delivery Server Sessions SysTopics Frames ServerFacts Broker Connection Stores Ledger LedgerFacts Listeners AcceptLoop Restore RestoreFacts Lifecycle LifecycleFacts Shutdown Takeover Lives.

(** ** Topic parameters *)

Lemma lazy_group_split {A} (k : gostr -> option A) acc s g a :
  lazy_group k acc s = Some (g, a) ->
  exists x rest, g = acc ++ x /\ x <> [] /\ 10 ∉ x /\ s = x ++ 47 :: rest /\ k rest = Some a.
Proof.
  induction s as [|c t IH] in acc |- *; cbn [lazy_group]; [done|]. destruct (Z.eqb_spec c 10) as [|Hc]; [done|]. cbv zeta.
  destruct (match t with [] => None | slash :: rest => if slash =? 47 then k rest else None end) as [a'|] eqn:E.
  - intros [= <- <-]. destruct t as [|slash rest]; [done|]. destruct (Z.eqb_spec slash 47) as [->|]; [|done].
    exists [c], rest. split_and!; [done|done|set_solver|done|done].
  - intros (x & rest & -> & Hx & Hn & -> & Hk)%IH. exists (c :: x), rest. rewrite <- app_assoc. split_and!; [done|done|set_solver|done|done].
Qed.

(** A group takes what has no slash, when the rest matches. *)
Lemma lazy_group_takes {A} (k : gostr -> option A) acc x rest a :
  x <> [] -> 10 ∉ x -> 47 ∉ x -> k rest = Some a -> lazy_group k acc (x ++ 47 :: rest) = Some (acc ++ x, a).
Proof.
  intros Hx Hn Hs Hk. induction x as [|c x IH] in acc, Hx, Hn, Hs |- *; [done|]. cbn [lazy_group app].
  destruct (Z.eqb_spec c 10) as [->|_]; [set_solver|]. cbv zeta. destruct x as [|d x]; cbn [app].
  - by rewrite Z.eqb_refl, Hk.
  - destruct (Z.eqb_spec d 47) as [->|_]; [set_solver|]. change (d :: x ++ 47 :: rest) with ((d :: x) ++ 47 :: rest).
    rewrite IH; [by rewrite <- app_assoc|done|set_solver|set_solver].
Qed.

Lemma last_group_spec s g : last_group s = Some g <-> s = g /\ g <> [] /\ 10 ∉ g.
Proof.
  unfold last_group. rewrite <- contains_byte_spec. destruct s as [|c s]; cbn [nonempty andb].
  - split; [done|by intros (<- & ? & _)].
  - destruct (contains_byte 10 (c :: s)) eqn:E; cbn; split; try done.
    + intros (<- & _ & H). congruence.
    + intros [= <-]. split_and!; [done|done|congruence].
    + by intros (<- & _).
Qed.

(** The parameters are parts of the topic; and a topic of three levels is taken
    apart at its slashes, where the last level may have more. *)
Lemma topicParams_sound topic tp :
  topicParams topic = Some tp ->
  topic = !"/" ++ tp_Path tp ++ !"/" ++ tp_ClientID tp ++ !"/" ++ tp_Act tp /\
  tp_Path tp <> [] /\ tp_ClientID tp <> [] /\ tp_Act tp <> [].
Proof.
  unfold topicParams. destruct topic as [|c s]; [done|]. destruct (Z.eqb_spec c 47) as [->|]; [|done].
  destruct (lazy_group _ [] s) as [[path [client act]]|] eqn:E; [|done]. intros [= <-].
  apply lazy_group_split in E as (x & rest & -> & Hx & _ & -> & E). cbn [tp_Path tp_ClientID tp_Act app].
  apply lazy_group_split in E as (y & last & -> & Hy & _ & -> & E). apply last_group_spec in E as (-> & Hl & _).
  split_and!; done.
Qed.

Lemma topicParams_levels path client act :
  path <> [] -> client <> [] -> act <> [] -> 47 ∉ path -> 47 ∉ client -> 10 ∉ path -> 10 ∉ client -> 10 ∉ act ->
  topicParams (!"/" ++ path ++ !"/" ++ client ++ !"/" ++ act) = Some (mkTopicParam path client act).
Proof.
  intros Hp Hc Ha Sp Sc Np Nc Na. unfold topicParams. change (!"/" ++ path ++ !"/" ++ client ++ !"/" ++ act)
    with (47 :: path ++ 47 :: client ++ 47 :: act). cbv beta iota. change (47 =? 47) with true. cbv beta iota.
  rewrite (lazy_group_takes _ [] path (client ++ 47 :: act) (client, act)); [done|done..|].
  apply (lazy_group_takes last_group [] client act act); [done..|]. by apply last_group_spec.
Qed.

(** ** The ledger hook *)

(** With a connection and a ledger that has authentication rules, the hook
    decides as the ledger hook of the repository. *)
Lemma server_auth_decides {RO : RangeOrder} l cfg cl pk :
  net_Conn (cl_Net cl) = true -> default [] (le_Auth l) <> [] ->
  (server_auth_OnConnectAuthenticate cl pk (mkServerAuthHook cfg (Some l))).1 = Ok (AuthOk l cl pk).2.
Proof.
  intros Hc Hl. unfold server_auth_OnConnectAuthenticate. rewrite Hc. cbn [negb sah_ledger].
  assert (H : 0 <= (AuthOk l cl pk).1 < Z.of_nat (length (default [] (le_Auth l)))).
  { unfold AuthOk. assert (Hr : forall n rules, rules <> [] \/ 0 < n -> 0 <= n -> 0 <= (auth_rules cl pk n rules).1 < n + Z.of_nat (length rules)).
    { intros n rules. induction rules as [|r rules IH] in n |- *; intros Hne Hn; cbn [auth_rules fst length]; [destruct Hne; [done|cbn; lia]|].
      destruct (auth_applies cl pk r); [cbn [fst]; lia|]. specialize (IH (n + 1) ltac:(right; lia) ltac:(lia)). lia. }
    match goal with |- context [match ?u with Some _ => _ | None => _ end] => destruct u end; cbn [fst].
    - destruct (default [] (le_Auth l)); [done|cbn; lia].
    - specialize (Hr 0 (default [] (le_Auth l)) ltac:(by left) ltac:(lia)). lia. }
  destruct (AuthOk l cl pk) as [n ok]. cbn [fst snd] in *. destruct ok; [|done]. cbn [negb].
  destruct (Z.ltb_spec n (Z.of_nat (length (default [] (le_Auth l))))); [done|lia].
Qed.

(** A ledger with users only makes it panic on a user whose password is right:
    the rule that is printed does not exist. *)
Definition users_ledger : Ledger := mkLedger (Some {[ !"peach" := mkUserRule !"peach" !"password1" ∅ false ]}) None None.
Definition peach_client : Client :=
  (newClient DefaultOptions (Some !"peer")) <| cl_Properties ::= fun p => p <| cp_ClientUsername := !"peach" |> |>.
Definition peach_connect : Packet := Packet0 <| pk_Connect ::= fun c => c <| cp_Password := !"password1" |> |>.

Lemma server_auth_user_panics :
  (AuthOk users_ledger peach_client peach_connect).2 = true /\
  (server_auth_OnConnectAuthenticate peach_client peach_connect (mkServerAuthHook None (Some users_ledger))).1 = Panic.
Proof. vm_compute. done. Qed.

(** ** The message hook and sessions *)

Lemma frames_on_client_topics {A} a (m : GoM ClientView A) : frames sv_Topics (on_client a m).
Proof. intros s. unfold on_client, zoom. destruct (client_view a s); [|done]. by destruct (m _). Qed.

(** The client that has the id is forgotten, its subscriptions are not. *)
Lemma msg_OnConnect_forgets e cl s s' :
  (forall x, sv_Clients s !! cl_ID cl = Some x -> exists ex, sv_store s !! x = Some ex /\ cl_ID ex = cl_ID cl) ->
  msg_OnConnect e cl s = (Ok tt, s') ->
  sv_Clients s' = delete (cl_ID cl) (sv_Clients s) /\ sv_Topics s' = sv_Topics s.
Proof.
  intros Hk. unfold msg_OnConnect. rewrite (bind_run get_state _ s s s eq_refl). unfold Clients_Get.
  destruct (sv_Clients s !! cl_ID cl) as [x|] eqn:Ex; [|intros [= <-]; by rewrite delete_id]. destruct (Hk x eq_refl) as (ex & Hx & Ei).
  intros E. apply bind_Ok in E as ([] & s1 & E1 & E).
  pose proof (evolves_ignore eases _ (evolves_on_client x _ (evolves_DisconnectClient e ErrAdministrativeAction)) s) as [Ec W].
  pose proof (frames_ignore sv_Topics _ (frames_on_client_topics x (DisconnectClient e ErrAdministrativeAction)) s) as Et.
  rewrite E1 in Ec, W, Et. cbn [snd] in *. destruct (W x ex Hx) as (ex1 & Hx1 & _ & Ei1 & _).
  rewrite (bind_run _ _ _ _ _ (look x s1 ex1 Hx1)) in E. injection E as <-. split; [|exact Et].
  change (delete (cl_ID ex1) (sv_Clients s1) = delete (cl_ID cl) (sv_Clients s)). congruence.
Qed.

(** So a client that comes back never finds its session. *)
Lemma msg_hook_loses_sessions e {RO : RangeOrder} cl pk a c s s' :
  (forall x, sv_Clients s !! cl_ID cl = Some x -> exists ex, sv_store s !! x = Some ex /\ cl_ID ex = cl_ID cl) ->
  msg_OnConnect e cl s = (Ok tt, s') -> sv_store s' !! a = Some c -> cl_ID c = cl_ID cl ->
  exists s'', inheritClientSession e pk a s' = (Ok false, s'') /\ sv_Topics s'' = sv_Topics s.
Proof.
  intros Hk E Ha Ei. apply msg_OnConnect_forgets in E as [Ec Et]; [|done]. unfold inheritClientSession.
  rewrite (bind_run _ _ _ _ _ (look a s' c Ha)), (bind_run get_state _ s' s' s' eq_refl). unfold Clients_Get.
  rewrite Ei, Ec, lookup_delete_eq. destruct (_ <? _); eexists; by split.
Qed.

(** ** The rules of server_auth *)

Lemma existsb_range {RO : RangeOrder} {A} (P : gostr * A -> bool) (m : gmap gostr A) : existsb P (range m) = existsb P (map_to_list m).
Proof.
  apply eq_true_iff_eq. rewrite !existsb_exists. setoid_rewrite <- list_elem_of_In.
  split; intros ([k v] & H & HP); exists (k, v); (split; [|done]); [apply elem_of_map_to_list, elem_of_range|apply elem_of_range, elem_of_map_to_list]; done.
Qed.

Lemma hash_matches topic : RString_FilterMatches !"#" topic = true.
Proof.
  unfold RString_FilterMatches, MatchTopic. change (levels !"#") with [ !"#" ].
  destruct (levels topic) as [|t ts] eqn:E; [by apply levels_nonempty in E|]. reflexivity.
Qed.

(** What a terminal may publish to: its own upward topics and the downward ones
    of an sdk; nothing else. *)
Definition terminal_writes (topic : gostr) : bool :=
  existsb (fun f => RString_FilterMatches f topic)
    [ !"/terminal/+/sync"; !"/terminal/+/up"; !"/sdk/+/setting"; !"/sdk/+/down"; !"/sdk/+/notice" ].

(** The entries of a map that is given in full. *)
Ltac list_entries :=
  match goal with |- context [map_to_list ?m] =>
    let l := eval vm_compute in (map_to_list m) in replace (map_to_list m) with l by (vm_compute; reflexivity) end.

Lemma terminal_grants {RO : RangeOrder} topic : rule_grants topic true terminal_filters = terminal_writes topic.
Proof.
  unfold rule_grants. rewrite existsb_range.
  list_entries. unfold terminal_writes. match goal with |- _ = existsb _ ?m => let l := eval vm_compute in m in change m with l end. cbn -[RString_FilterMatches].
  repeat match goal with |- context [RString_FilterMatches ?f topic] => destruct (RString_FilterMatches f topic) end; reflexivity.
Qed.

Lemma other_denies {RO : RangeOrder} topic :
  rule_grants topic true other_filters = false /\
  existsb (fun fa => RString_FilterMatches fa.1 topic) (range other_filters) = true.
Proof.
  unfold rule_grants. rewrite !existsb_range.
  list_entries. pose proof (hash_matches topic : RString_FilterMatches [35] topic = true) as H. cbn -[RString_FilterMatches]. rewrite H. split; [done|].
  repeat match goal with |- context [RString_FilterMatches ?f topic] => destruct (RString_FilterMatches f topic) end; reflexivity.
Qed.

Lemma terminal_may_write {RO : RangeOrder} cl topic :
  cp_ClientUsername (cl_Properties cl) = !"terminal" ->
  (ACLOk server_auth_ledger cl topic true).2 = terminal_writes topic.
Proof.
  intros Hu. unfold ACLOk. cbn [server_auth_ledger le_Users le_ACL mbind option_bind default id].
  cbn [acl_rules id]. unfold acl_applies. cbn [al_Client al_Username al_Remote al_Filters]. rewrite Hu, terminal_grants.
  assert (H1 : bool_decide (size terminal_filters = 0%nat) = false) by (vm_compute; reflexivity).
  assert (H2 : bool_decide (size other_filters = 0%nat) = false) by (vm_compute; reflexivity).
  destruct (other_denies topic) as [H3 H4]. rewrite H1, H2, H3, H4.
  change (RString_Matches [] (cl_ID cl) && RString_Matches !"terminal" !"terminal" && RString_Matches [] (net_Remote (cl_Net cl))) with true.
  change (RString_Matches [] (cl_ID cl) && RString_Matches !"sdk" !"terminal" && RString_Matches [] (net_Remote (cl_Net cl))) with false.
  change (RString_Matches [] (cl_ID cl) && RString_Matches [] !"terminal" && RString_Matches [] (net_Remote (cl_Net cl))) with true.
  destruct (terminal_writes topic); [done|]. cbn [snd]. by destruct (existsb _ (range terminal_filters)).
Qed.
