(* ===== verification/Commands.v ===== *)
(** * The programs (cmd/, examples/)

    A program makes a server, adds its hooks and listeners, or reads them from a
    configuration file, serves until it is told to stop, and closes the server.
    Flags, files and certificates are arguments; what a program does besides
    while it serves (publishing on a ticker, say) are steps of the process. *)
From Stdlib Require QArith.QArith_base.
From S2P Require Import Prelude Codes Effects Codec FixedHeader Properties Packets Topics Aliases Inflight System Clients Json JsonCodec Storage HookChain ClientIO Publish Server Sessions SysTopics Restore Stores Badger Bolt Pebble Redis Ledger Debug Listeners Configuration Lifecycle.

(** ** What programs are made of *)

Section Program.
Context {W C : Type}.

(** [_ = server.AddHook(...)], and the steps whose error is fatal. *)
Inductive Setup :=
  | AddHook_ignored (hook : Hook W C) (config : C)
  | AddHook_fatal (hook : Hook W C) (config : C)
  | AddListener_fatal (l : AnyListener).

(** The options of the server after [New], with the listeners and the hooks
    that [Serve] adds. *)
Record Program := mkProgram {
  pg_Options : Options;
  pg_setup : list Setup;
  pg_Listeners : list Listeners.Config;
  pg_Hooks : list (Hook W C * C);
}.

Context (e : Env) {RO : RangeOrder}.

(** [log.Fatal(err)] ends the program with the error. *)
Definition run_setup (nw : Network) (s : Setup) : GoM (Process W C) unit :=
  match s with
  | AddHook_ignored hook config => ignore (set_hooks (fun h => AddHook (ev_Capabilities e) h hook config))
  | AddHook_fatal hook config => set_hooks (fun h => AddHook (ev_Capabilities e) h hook config)
  | AddListener_fatal l => AddListener nw l
  end.

(** From [New] to where [Serve] has returned, in its goroutine. *)
Definition start (nw : Network) (memory threads : Z) (pg : Program) : GoM (Process W C) unit :=
  for_each (pg_setup pg) (run_setup nw);;
  Serve e nw memory threads (pg_Listeners pg) (pg_Hooks pg).

(** [<-done]: the server is closed, whatever [Close] returns. *)
Definition finish (read : nat -> option error) : GoM (Process W C) unit := ignore (Close e read).
End Program.
Arguments Setup W C : clear implicits.
Arguments Program W C : clear implicits.

Definition no_config (Id Address : gostr) : Listeners.Config := Listeners.mkConfig [] Id Address None.

(** [mqtt.New(nil)] *)
Definition default_program {W C} (steps : list (Setup W C)) : Program W C := mkProgram DefaultOptions steps [] [].

(** ** The servers that allow every connection *)

Section Allow.
Context {W : Type}.

(** *** cmd/main.go *)

Record Flags := mkFlags {
  fl_tcp : gostr;
  fl_ws : gostr;
  fl_info : gostr;
  fl_tls_cert_file : gostr;
  fl_tls_key_file : gostr;
}.
Definition default_flags : Flags := mkFlags !":1883" !":1882" !":8080" [] [].

(** [tls.LoadX509KeyPair] *)
Context (LoadX509KeyPair : gostr -> gostr -> Z + error).

(** The program returns, without a message, when the certificate cannot be
    loaded: [None]. *)
Definition cmd_tls (fl : Flags) : option (option Z) :=
  if nonempty (fl_tls_cert_file fl) && nonempty (fl_tls_key_file fl) then
    match LoadX509KeyPair (fl_tls_cert_file fl) (fl_tls_key_file fl) with
    | inl cert => Some (Some cert)
    | inr _ => None
    end
  else Some None.

Definition cmd_main (fl : Flags) : option (Program W HookConfig) :=
  tlsConfig ← cmd_tls fl;
  Some (default_program [
    AddHook_ignored allow_hook CNil;
    AddListener_fatal (LTCP (NewTCP (Listeners.mkConfig [] !"t1" (fl_tcp fl) tlsConfig)));
    AddListener_fatal (LWebsocket (NewWebsocket (no_config !"ws1" (fl_ws fl))));
    AddListener_fatal (LStats (NewHTTPStats (no_config !"info" (fl_info fl))))]).

(** *** examples/tcp, tls, websocket, benchmark, direct *)

Definition tcp_t1 (address : gostr) : AnyListener := LTCP (NewTCP (no_config !"t1" address)).

Definition tcp_main : Program W HookConfig :=
  mkProgram (ensureDefaults None 0 false) [AddHook_fatal allow_hook CNil; AddListener_fatal (tcp_t1 !":1883")] [] [].

(** An error of the certificate is fatal here. *)
Definition tls_main : Program W HookConfig + error :=
  match LoadX509KeyPair !"replace_your_cert.pem" !"replace_your_cert.key" with
  | inr err => inr err
  | inl cert => inl (default_program [
      AddHook_ignored allow_hook CNil;
      AddListener_fatal (LTCP (NewTCP (Listeners.mkConfig [] !"t1" !":1883" (Some cert))));
      AddListener_fatal (LWebsocket (NewWebsocket (Listeners.mkConfig [] !"ws1" !":1882" (Some cert))));
      AddListener_fatal (LStats (NewHTTPStats (Listeners.mkConfig [] !"stats" !":8080" (Some cert))))])
  end.

(** Unset fields of a [Capabilities] literal are zero. *)
Definition Capabilities0 : Capabilities := mkCapabilities 0 0 0 0 0 0 0 0 0 0 0 Compatibilities0 0 0 0 0.

Definition websocket_capabilities : Capabilities := Capabilities0
  <| ca_ReceiveMaximum := 1024 |> <| ca_MaximumSessionExpiryInterval := 60 |> <| ca_MaximumClients := 10000 |>
  <| ca_MaximumMessageExpiryInterval := 60 * 60 * 24 |> <| ca_MaximumClientWritesPending := 1024 * 8 |>
  <| ca_MaximumPacketSize := 1024 * 1024 |> <| ca_MaximumInflight := 1024 * 8 |> <| ca_TopicAliasMaximum := 111 |>
  <| ca_SharedSubAvailable := 1 |> <| ca_MinimumProtocolVersion := 3 |> <| ca_MaximumQos := 2 |>
  <| ca_RetainAvailable := 1 |> <| ca_WildcardSubAvailable := 1 |> <| ca_SubIDAvailable := 1 |>.

Definition websocket_main : Program W HookConfig :=
  mkProgram (ensureDefaults (Some websocket_capabilities) 40960 true)
    [AddHook_ignored allow_hook CNil; AddListener_fatal (LWebsocket (NewWebsocket (no_config !"ws1" !":1882")))] [] [].

(** The options are changed after [New]. *)
Definition benchmark_main (tcpAddr : gostr) : Program W HookConfig :=
  mkProgram (DefaultOptions <| op_Capabilities ::= fun c => c <| ca_MaximumClientWritesPending := 16 * 1024 |> |>)
    [AddHook_ignored allow_hook CNil; AddListener_fatal (tcp_t1 tcpAddr)] [] [].

Definition direct_main : Program W HookConfig :=
  mkProgram (ensureDefaults None 0 true) [AddHook_ignored allow_hook CNil] [] [].

(** What the goroutines of that program call, the handlers by a number. *)
Definition direct_subscribes (e : Env) {RO : RangeOrder} : GoM Server unit :=
  ignore (Server_Publish e !"direct/retained" !"retained message" true 0);;
  ignore (Server_Publish e !"direct/alternate/retained" !"some other retained message" true 0);;
  ignore (Server_Subscribe e !"direct/#" 1 (Some 0));;
  ignore (Server_Subscribe e !"direct/#" 2 (Some 0)).
Definition direct_publishes (e : Env) {RO : RangeOrder} : GoM Server unit :=
  ignore (Server_Publish e !"direct/publish" !"scheduled message" false 0).
Definition direct_unsubscribes (e : Env) {RO : RangeOrder} : GoM Server unit :=
  ignore (Server_Unsubscribe e !"direct/#" 1).

(** *** examples/race-repro/server *)

Record RaceFlags := mkRaceFlags {
  rf_addr : gostr;
  rf_max_inflight : Z;
  rf_receive_maximum : Z;
  rf_message_expiry : Z;
}.
Definition default_race_flags : RaceFlags := mkRaceFlags !":1883" 64 8 5.

Definition race_capabilities (fl : RaceFlags) : Capabilities := Capabilities0
  <| ca_ReceiveMaximum := to_u16 (rf_receive_maximum fl) |> <| ca_MaximumInflight := to_u16 (rf_max_inflight fl) |>
  <| ca_MaximumMessageExpiryInterval := rf_message_expiry fl |> <| ca_MaximumClientWritesPending := 256 |>
  <| ca_MaximumSessionExpiryInterval := 300 |> <| ca_MaximumClients := 10000 |> <| ca_MaximumQos := 2 |>
  <| ca_SharedSubAvailable := 1 |> <| ca_WildcardSubAvailable := 1 |> <| ca_RetainAvailable := 1 |>
  <| ca_MinimumProtocolVersion := 3 |>.

Definition race_main (fl : RaceFlags) : Program W HookConfig :=
  mkProgram (ensureDefaults (Some (race_capabilities fl)) 4096 false)
    [AddHook_ignored allow_hook CNil;
     AddListener_fatal (LTCP (NewTCP (no_config !"race-repro" (rf_addr fl))))] [] [].
End Allow.

(** ** The servers with other hooks *)

Section Hooks.
Context {RO : RangeOrder} (yaml_Ledger : bytes -> Ledger -> Ledger * option error).
Context {BG BO PB RD : Type} `{Database BG} `{Database BO} `{Database PB} `{HashStore RD}.
Context (badger_Open : badger_Options -> BG + error) (bolt_Open : bolt_Options -> BO + error)
  (CreateBucket : gostr -> BO -> option error * BO) (pebble_Open : pebble_Options -> bool -> PB + error)
  (redis_NewClient : option redis_ConnOptions -> RD) (redis_Ping : RD -> option error).
Let World := HookWorld (BG := BG) (BO := BO) (PB := PB) (RD := RD).

(** *** examples/auth *)

Definition basic_ledger : Ledger := mkLedger None
  (Some [mkAuthRule [] !"peach" [] !"password1" true;
         mkAuthRule [] !"melon" [] !"password2" true;
         mkAuthRule [] [] !"127.0.0.1:*" [] true;
         mkAuthRule [] [] !"localhost:*" [] true])
  (Some [mkACLRule [] [] !"127.0.0.1:*" ∅;
         mkACLRule [] !"melon" [] (<[ !"melon/#" := ReadWrite ]> (<[ !"updates/#" := WriteOnly ]> ∅));
         mkACLRule [] [] [] (<[ !"#" := ReadOnly ]> (<[ !"updates/#" := Deny ]> ∅))]).

Definition auth_basic_main : Program World HookConfig :=
  default_program [
    AddHook_fatal (new_auth yaml_Ledger) (CAuth (mkAuthOptions [] (Some basic_ledger)));
    AddListener_fatal (tcp_t1 !":1883")].

(** The ledger is read from a file. *)
Definition auth_encoded_main (data : bytes) : Program World HookConfig :=
  default_program [
    AddHook_fatal (new_auth yaml_Ledger) (CAuth (mkAuthOptions data None));
    AddListener_fatal (tcp_t1 !":1883")].

(** *** examples/debug *)

Definition debug_main : Program World HookConfig :=
  default_program [
    AddHook_fatal new_debug (CDebug debug_Options0);
    AddHook_fatal allow_hook CNil;
    AddListener_fatal (tcp_t1 !":1883")].

(** *** examples/persistence *)

Definition stored_program (hook : Hook World HookConfig) (config : HookConfig) : Program World HookConfig :=
  default_program [
    AddHook_ignored allow_hook CNil;
    AddHook_fatal hook config;
    AddListener_fatal (tcp_t1 !":1883")].

Definition badger_main : Program World HookConfig :=
  stored_program (new_badger badger_Open) (CBadger (mkBadgerOptions !".badger" (QArith_base.Qmake 1 2) (5 * 60))).
Definition bolt_main : Program World HookConfig :=
  stored_program (new_bolt bolt_Open CreateBucket) (CBolt (mkBoltOptions [] !".bolt")).
Definition pebble_main : Program World HookConfig :=
  stored_program (new_pebble pebble_Open) (CPebble (mkPebbleOptions !".pebble" !"NoSync")).
Definition redis_main : Program World HookConfig :=
  stored_program (new_redis redis_NewClient redis_Ping)
    (CRedis (mkRedisOptions [] [] [] 0 [] (Some (mkRedisConnOptions !"localhost:6379" 0 [] [])))).

(** *** cmd/docker/main.go, examples/config *)

Context (json_Unmarshal yaml_Unmarshal : bytes -> Configuration.config (BG := BG) (BO := BO) (PB := PB) (RD := RD) + error).

(** [mqtt.New] of the options of a file. *)
Definition configured_program (o : option (file_Options (BG := BG) (BO := BO) (PB := PB) (RD := RD))) : Program World HookConfig :=
  match o with
  | None => default_program []
  | Some o => mkProgram (ensureDefaults (fo_Capabilities o) (fo_ClientNetWriteBufferSize o) (fo_InlineClient o)) []
                (fo_Listeners o) (fo_Hooks o)
  end.

(** The file that cannot be read, or not be decoded, is fatal. *)
Definition docker_main (ReadFile : bytes + error) : result error (Program World HookConfig) :=
  match ReadFile with
  | inr err => Err err
  | inl b =>
      match FromBytes yaml_Ledger badger_Open bolt_Open CreateBucket pebble_Open redis_NewClient redis_Ping
              json_Unmarshal yaml_Unmarshal b with
      | Ok o => Ok (configured_program o)
      | Err err => Err err
      | Panic => Panic
      | Diverge => Diverge
      end
  end.
End Hooks.

(** ** The statistics of examples/race-repro/server *)

Record clientStat := mkClientStat {
  cs_ID : gostr;
  cs_InflightLen : Z;
  cs_Deferred : Z;
  cs_Reserved : Z;
  cs_SendQuota : Z;
  cs_MaxSendQuota : Z;
  cs_RecvQuota : Z;
  cs_MaxRecvQuota : Z;
  cs_Anomaly : bool;
  cs_Note : gostr;
}.

Record brokerStats := mkBrokerStats {
  bs_Time : Z;
  bs_MessagesReceived : Z;
  bs_MessagesSent : Z;
  bs_Inflight : Z;
  bs_InflightDropped : Z;
  bs_MessagesDropped : Z;
  bs_ClientsConnected : Z;
  bs_AnomalyCount : Z;
  bs_Clients : list clientStat;
  bs_Hints : list gostr;
}.

(** Whether the accounting of a client is wrong, and a note. *)
Definition judge (capMax length deferred reserved sendQ maxSend : Z) : bool * gostr :=
  let sentWaiting := length - deferred - reserved in
  if capMax <? length then
    (true, !"inflight_len " ++ FormatInt length ++ !" exceeds MaximumInflight " ++ FormatInt capMax ++ !" (Len-then-Reserve TOCTOU)")
  else if (length =? 0) && (0 <? maxSend) && (sendQ =? 0) then (true, !"empty inflight but send_quota=0 (quota leak)")
  else if (0 <? length) && (0 <? maxSend) && (sendQ =? 0) && (deferred =? length) then
    (true, !"all deferred + send_quota=0 (starved window / leak)")
  else if (0 <? sentWaiting) && (0 <? maxSend) && (sendQ =? maxSend) then
    (true, !"sent_waiting=" ++ FormatInt sentWaiting ++ !" but send_quota at maximum (session clone / ResetSendQuota race)")
  else if (0 <? deferred) && (0 <? sendQ) then
    (false, !"deferred_backlog=" ++ FormatInt deferred ++ !" with send_quota=" ++ FormatInt sendQ ++ !" (flush pending)")
  else (false, []).

Definition client_stat (caps : Capabilities) (cl : Client) : clientStat :=
  let '(deferred, reserved, q) := Inflight_QuotaStatsDetailed (cl_Inflight cl) in
  let '(anomaly, note) := judge (ca_MaximumInflight caps) (qs_length q) deferred reserved (qs_sendQuota q) (qs_maxSendQuota q) in
  mkClientStat (cl_ID cl) (qs_length q) deferred reserved (qs_sendQuota q) (qs_maxSendQuota q)
    (qs_receiveQuota q) (qs_maxReceiveQuota q) anomaly note.

Definition race_hints : list gostr := [
  !"fanin: inflight_len > max_inflight capability, or inflight_dropped rising under concurrent publishers";
  !"packetid-clash: outbound deferred/reserved vanish while subscriber also publishes on same client";
  !"expiry: after message-expiry window, send_quota stuck low while deferred cleared without restore";
  !"session-takeover: after reconnect same client id, send_quota jumps to max while inflight_len > 0"].

(** A nil client in the map would panic. *)
Definition collectStats (e : Env) {RO : RangeOrder} : GoM Server brokerStats :=
  s ← get_state;
  let i := sv_Info s in
  cs ← foldr (fun kv (rest : GoM Server (list clientStat)) =>
      cl ← on_client kv.2 get_client;
      cs ← rest;
      mret (client_stat (ev_Capabilities e) cl :: cs))
    (mret []) (range (Clients_GetAll (sv_Clients s)));
  mret (mkBrokerStats (ev_now e) (in_MessagesReceived i) (in_MessagesSent i) (in_Inflight i) (in_InflightDropped i)
    (in_MessagesDropped i) (in_ClientsConnected i)
    (Z.of_nat (length (List.filter cs_Anomaly cs))) cs race_hints).

(** ** The programs start and stop

    Every program that is shipped starts when its sockets open, with the
    listeners and the hooks it names, and closes whatever happened meanwhile. *)
From S2P Require Import Prelude Codes Effects Codec FixedHeader Properties Packets Topics TopicsFacts Aliases Inflight InflightFacts System Clients Json JsonCodec Storage HookChain HookFacts ClientIO ClientIOFacts ClientFacts Publish PublishFacts Delivery Server Sessions SysTopics Frames ServerFacts Broker Connection Restore Stores Badger Bolt Pebble Redis Ledger Debug Listeners Configuration AcceptLoop Lifecycle LifecycleFacts Shutdown Startup Takeover Lives Running.

Section Programs.
Context {W C : Type}.

Definition setup_hooks (steps : list (Setup W C)) : list (Hook W C * C) :=
  omap (fun s => match s with AddHook_ignored h c | AddHook_fatal h c => Some (h, c) | AddListener_fatal _ => None end) steps.
Definition setup_listeners (steps : list (Setup W C)) : list AnyListener :=
  omap (fun s => match s with AddListener_fatal l => Some l | _ => None end) steps.

(** The hooks and the ids of the listeners of a program, in their order. *)
Definition program_hooks (pg : Program W C) : list (Hook W C * C) := setup_hooks (pg_setup pg) ++ pg_Hooks pg.
Definition program_ids (pg : Program W C) : list gostr :=
  (li_ID <$> setup_listeners (pg_setup pg)) ++ (li_ID <$> omap listener_of (pg_Listeners pg)).

Record program_ok (nw : Network) (pg : Program W C) : Prop := mkProgramOk {
  po_ids : NoDup (program_ids pg);
  po_new : Forall (fun l => li_new l = true /\ exists l', li_Init nw l = (Ok tt, l')) (setup_listeners (pg_setup pg));
  po_hooks : Forall (fun hc => starts hc.1 hc.2) (program_hooks pg);
  po_return : forall h, Hooks_GetAll h = (program_hooks pg).*1 -> hooks_return h;
  po_length : Z.of_nat (length (program_hooks pg)) < 2 ^ 63;
}.

Context (e : Env) {RO : RangeOrder}.
Implicit Types p : Process W C.

Lemma setup_runs nw steps hooks p :
  Forall (fun l => li_new l = true /\ exists l', li_Init nw l = (Ok tt, l')) (setup_listeners steps) ->
  NoDup (li_ID <$> setup_listeners steps) -> (forall id, id ∈ li_ID <$> setup_listeners steps -> pr_listeners p !! id = None) ->
  Forall (fun hc => starts hc.1 hc.2) (setup_hooks steps) -> Z.of_nat (length (hooks ++ setup_hooks steps)) < 2 ^ 63 ->
  ready e hooks p ->
  exists p', for_each steps (run_setup e nw) p = (Ok tt, p') /\ ready e (hooks ++ setup_hooks steps) p' /\
    dom (pr_listeners p') = list_to_set (li_ID <$> setup_listeners steps) ∪ dom (pr_listeners p).
Proof.
  induction steps as [|st steps IH] in hooks, p |- *; intros Hnew Hnd Hfree Hst Hlen Hr; cbn [for_each].
  { exists p. cbn. rewrite app_nil_r. split_and!; [done|done|set_solver]. }
  assert (Hh : forall hook config, (st = AddHook_ignored hook config \/ st = AddHook_fatal hook config) ->
    exists p', for_each (st :: steps) (run_setup e nw) p = (Ok tt, p') /\ ready e (hooks ++ setup_hooks (st :: steps)) p' /\
      dom (pr_listeners p') = list_to_set (li_ID <$> setup_listeners (st :: steps)) ∪ dom (pr_listeners p)).
  { intros hook config Hcase.
    assert (E : setup_hooks (st :: steps) = (hook, config) :: setup_hooks steps /\ setup_listeners (st :: steps) = setup_listeners steps)
      by by destruct Hcase as [-> | ->].
    destruct E as [Eh El]. rewrite Eh, El in *. apply Forall_cons in Hst as [H1 Hst].
    destruct (ready_hook e (ev_Capabilities e) hook config hooks p H1) as (p1 & E1 & R1 & L1); [rewrite length_app in Hlen; cbn in Hlen; lia|done|].
    destruct (IH (hooks ++ [(hook, config)]) p1) as (p' & E2 & R2 & D2); [done|done|by rewrite L1|done|by rewrite <- app_assoc|done|].
    rewrite <- app_assoc in R2. exists p'. split; [|split; [done|by rewrite D2, L1]]. cbn [for_each].
    rewrite (bind_run (run_setup e nw st) _ p tt p1); [exact E2|].
    destruct Hcase as [-> | ->]; [|exact E1]. cbn [run_setup]. unfold ignore. by rewrite E1. }
  destruct st as [hook config|hook config|l]; [apply (Hh hook config); by left|apply (Hh hook config); by right|]. clear Hh.
  change (setup_hooks (AddListener_fatal l :: steps)) with (setup_hooks steps) in *.
  change (setup_listeners (AddListener_fatal l :: steps)) with (l :: setup_listeners steps) in *. rewrite fmap_cons in *.
  apply Forall_cons in Hnew as [[Hn Hi] Hnew]. apply NoDup_cons in Hnd as [Hl Hnd].
  destruct (ready_listener e nw l hooks p Hn Hi) as (p1 & E1 & R1 & D1); [apply Hfree; by left|done|].
  destruct (IH hooks p1) as (p' & E2 & R2 & D2); [done|done| |done|done|done|].
  { intros id Hid. apply not_elem_of_dom. rewrite D1, not_elem_of_union. split; [by intros ->%elem_of_singleton|].
    apply not_elem_of_dom, Hfree. by right. }
  exists p'. split; [rewrite (bind_run _ _ _ _ _ (E1 : run_setup e nw (AddListener_fatal l) p = _)); exact E2|].
  split; [done|]. rewrite D2, D1. cbn. set_solver.
Qed.

(** A program starts, and its process runs. *)
Lemma program_starts nw memory threads pg w :
  env_ok e -> network_open nw -> program_ok nw pg ->
  exists p, start e nw memory threads pg (NewProcess e w) = (Ok tt, p) /\
    served e memory threads (program_hooks pg) (list_to_set (program_ids pg)) p /\ running e p.
Proof.
  intros He Hnw [Hnd Hnew Hst Hret Hlen]. unfold program_ids, program_hooks in *. apply NoDup_app in Hnd as (Hnd1 & Hdis & Hnd2).
  destruct (setup_runs nw (pg_setup pg) [] (NewProcess e w)) as (p1 & E1 & R1 & D1); [done|done| | | |apply ready_new|].
  { intros id _. apply lookup_empty. } { by apply Forall_app in Hst as [? _]. } { rewrite length_app in Hlen. cbn. lia. }
  change (pr_listeners (NewProcess e w)) with (∅ : gmap gostr AnyListener) in D1. rewrite dom_empty_L, (right_id_L ∅ (∪)) in D1. cbn [app] in R1.
  destruct (Serve_ready e He nw memory threads (pg_Listeners pg) (setup_hooks (pg_setup pg)) (pg_Hooks pg) p1) as (p2 & E2 & S2); [done|done|done| |done|done|done|].
  { intros id Hid. apply not_elem_of_dom. rewrite D1, elem_of_list_to_set. intros H. by apply (Hdis id). }
  exists p2. split; [unfold start; by rewrite (bind_run _ _ _ _ _ E1)|].
  rewrite D1 in S2. split; [|by apply served_running in S2].
  destruct S2 as [S1 S3 S4 V4 S5 S6 S7 S8]. split; try done; [rewrite S4, list_to_set_app_L; set_solver|].
  rewrite V4. by rewrite list_to_set_app_L, (comm_L (∪)).
Qed.
End Programs.

(** ** The programs that are shipped *)

(** What the broker's environment asks of the options. *)
Record options_ok (o : Options) : Prop := mkOptionsOk {
  op_max_id : 0 <= ca_maximumPacketID (op_Capabilities o) < 65536;
  op_receive : is_u16 (ca_ReceiveMaximum (op_Capabilities o));
  op_inflight : is_u16 (ca_MaximumInflight (op_Capabilities o));
  op_alias : is_u16 (ca_TopicAliasMaximum (op_Capabilities o));
}.

Lemma env_ok_options e o : env_ok e -> options_ok o -> env_ok (e <| ev_Options := o |>).
Proof. intros [H1 _ _ _ _ H6 H7] [K1 K2 K3 K4]. by split. Qed.

Section Shipped.
Context {RO : RangeOrder} (yaml_Ledger : bytes -> Ledger -> Ledger * option error).
Context {BG BO PB RD : Type} (LoadX509KeyPair : gostr -> gostr -> Z + error).
Let World := HookWorld (BG := BG) (BO := BO) (PB := PB) (RD := RD).
Implicit Types pg : Program World HookConfig.

(** The programs without a store, with any flags. *)
Inductive shipped : Program World HookConfig -> Prop :=
| shipped_cmd fl pg : cmd_main LoadX509KeyPair fl = Some pg -> shipped pg
| shipped_tcp : shipped tcp_main
| shipped_tls pg : tls_main LoadX509KeyPair = inl pg -> shipped pg
| shipped_websocket : shipped websocket_main
| shipped_benchmark addr : shipped (benchmark_main addr)
| shipped_direct : shipped direct_main
| shipped_race fl : shipped (race_main fl)
| shipped_basic : shipped (auth_basic_main yaml_Ledger).

Lemma allow_starts : starts (allow_hook : Hook World HookConfig) CNil.
Proof. split; try (intros; by eexists). intros b Hb. repeat (apply elem_of_cons in Hb as [->|Hb]; [reflexivity|]). by apply elem_of_nil in Hb. Qed.

Lemma auth_starts data l : starts (new_auth (BG := BG) (BO := BO) (PB := PB) (RD := RD) yaml_Ledger) (CAuth (mkAuthOptions data (Some l))).
Proof. split; try (intros; by eexists). intros b Hb. repeat (apply elem_of_cons in Hb as [->|Hb]; [reflexivity|]). by apply elem_of_nil in Hb. Qed.

Lemma allow_returns h : Hooks_GetAll h = [allow_hook : Hook World HookConfig] -> hooks_return h.
Proof.
  destruct h as [hooks n m]. cbn. intros ->. split; [intros ev w; by destruct ev|by intros w|]. repeat constructor; intros w; exact I.
Qed.

Lemma auth_returns h : Hooks_GetAll h = [new_auth (BG := BG) (BO := BO) (PB := PB) (RD := RD) yaml_Ledger] -> hooks_return h.
Proof.
  destruct h as [hooks n m]. cbn. intros ->. split; [intros ev w; by destruct ev|by intros w|]. repeat constructor; intros w; exact I.
Qed.

Lemma tcp_inits nw conf : network_open nw -> exists l', li_Init nw (LTCP (NewTCP conf)) = (Ok tt, l').
Proof.
  intros Hnw. cbn. unfold inject, TCP_Init, mbind, GoM_bind. cbn.
  match goal with |- context [nw_Listen nw ?network ?address ?tls] => destruct (Hnw network address tls) as [so ->] end. by eexists.
Qed.

(** A program with the one hook. *)
Lemma one_hook_ok nw pg hook config :
  starts hook config -> (forall h, Hooks_GetAll h = [hook] -> hooks_return h) ->
  program_hooks pg = [(hook, config)] -> NoDup (program_ids pg) ->
  Forall (fun l => li_new l = true /\ exists l', li_Init nw l = (Ok tt, l')) (setup_listeners (pg_setup pg)) ->
  program_ok nw pg.
Proof. intros Hs Hr E Hid Hl. split; rewrite ?E; [done|done|by constructor|by cbn|reflexivity]. Qed.

Lemma shipped_ok nw pg : network_open nw -> shipped pg ->
  program_ok nw pg /\ options_ok (pg_Options pg) /\
  co_PassiveClientDisconnect (ca_Compatibilities (op_Capabilities (pg_Options pg))) = false.
Proof.
  intros Hnw Hpg.
  assert (Hids : forall l, bool_decide (NoDup l) = true -> NoDup (A := gostr) l) by (intros l; apply bool_decide_eq_true).
  destruct Hpg as [fl pg E| |pg E| |addr| |fl|].
  - unfold cmd_main in E. destruct (cmd_tls LoadX509KeyPair fl) as [tls|]; [|done]. injection E as <-. split; [|by split].
    apply (one_hook_ok nw _ allow_hook CNil); [apply allow_starts|apply allow_returns|done|by apply Hids|].
    repeat constructor; [by apply tcp_inits|by eexists|by eexists].
  - split; [|by split]. apply (one_hook_ok nw _ allow_hook CNil); [apply allow_starts|apply allow_returns|done|by apply Hids|].
    repeat constructor. by apply tcp_inits.
  - unfold tls_main in E. destruct (LoadX509KeyPair _ _) as [cert|]; [|done]. injection E as <-. split; [|by split].
    apply (one_hook_ok nw _ allow_hook CNil); [apply allow_starts|apply allow_returns|done|by apply Hids|].
    repeat constructor; [by apply tcp_inits|by eexists|by eexists].
  - split; [|by split]. apply (one_hook_ok nw _ allow_hook CNil); [apply allow_starts|apply allow_returns|done|by apply Hids|].
    repeat constructor. by eexists.
  - split; [|by split]. apply (one_hook_ok nw _ allow_hook CNil); [apply allow_starts|apply allow_returns|done|by apply Hids|].
    repeat constructor. by apply tcp_inits.
  - split; [|by split]. apply (one_hook_ok nw _ allow_hook CNil); [apply allow_starts|apply allow_returns|done|by apply Hids|constructor].
  - split; [apply (one_hook_ok nw _ allow_hook CNil); [apply allow_starts|apply allow_returns|done|by apply Hids|repeat constructor; by apply tcp_inits]|].
    split; [|]; unfold race_main, ensureDefaults; cbn [pg_Options op_Capabilities default]; cbv zeta;
      (destruct (ca_MaximumInflight _ =? 0); [|]); try done; split; cbn -[to_u16]; try apply to_u16_range; done.
  - split; [|by split]. apply (one_hook_ok nw _ (new_auth yaml_Ledger) (CAuth (mkAuthOptions [] (Some basic_ledger))));
      [apply auth_starts|apply auth_returns|done|by apply Hids|]. repeat constructor. by apply tcp_inits.
Qed.

End Shipped.

(** The command with its default flags, on a network where every socket opens. *)
Definition cmd_sample {W} : Program W HookConfig :=
  default (default_program []) (cmd_main (fun _ _ => inr (EOther 1)) default_flags).

